(* ===== verification/_CoqProject ===== *)
-Q . S2P
Prelude.v
Session.v
TurnQueue.v
TurnChannels.v
TurnMailbox.v
TurnWorker.v
TurnSpec.v
TurnProps.v
SessionStore.v
Orders.v
Registry.v
RuntimeJournal.v
JournalProps.v
Decimal.v
CoordTypes.v
Coordination.v
CoordProps.v
CoordSafety.v
CollabState.v
Collaboration.v
CollabReports.v
Cooperation.v
CollabRuns.v
CollabApply.v
Host.v
Artifacts.v
CollabMoves.v
CollabOps.v
CollabRest.v
CollabCalls.v
HostMoves.v
CollabScenario.v
CollabSafety.v
HostProps.v
OfflineBuffer.v
OfflineProps.v
Replay.v
ReplayProps.v
Governance.v
GovernanceProps.v
Permission.v
Sql.v
TaskJournal.v
TaskFeed.v
MessageQueue.v
QueueStore.v
QueueProps.v
QueueHost.v
QueueHostProps.v
TaskContract.v
Base64.v
TaskCursor.v
TaskPages.v
TaskRead.v
TaskReadProps.v
Handoff.v
Delegation.v
DelegationStore.v
DelegationSteps.v
DelegationProps.v
EventInbox.v
EventInboxProps.v
Interactions.v
InteractionProps.v
