(* ===== verification/Prelude.v ===== *)
(** * The Everything Bridge: sessions, journal and collaboration, verified

    The Bridge is a Go process between the clients of an owner (phones,
    desktops) and the coding agents that run on a computer.  It keeps one
    session per conversation with an agent, queues the messages sent to it,
    journals what every turn became, and lets a PM agent propose work that
    worker agents do once a human approved it.  This library models the parts
    of it that decide: pure policy and the stores that must survive crashes.

    ** The parts and how they interact

    - [src/internal/session] ([turn.go], [configuration.go], [registry.go],
      [store.go]): a session, its mailbox and worker goroutine, and the
      registry of all sessions with their metadata file.
    - [src/internal/runtimejournal]: the lifecycle record of each session,
      what each device has seen, the owner's shared read state; a snapshot
      file, an append-only cursor log and a ledger.
    - [src/internal/coordination]: the policy between a human, a PM session
      and its workers, one event-numbered document.  Version 1 ([domain.go])
      has projects, tasks, events and receipts; version 2
      ([collaboration*.go]) adds contracts, grants, manifests, reports,
      sealed submissions, decisions, handbacks, assistance and playbooks, and
      uses version 1 for the transitions of a task.
    - [src/internal/core/pm_collaboration.go], [collaboration.go],
      [collaboration_artifacts.go]: the host of that policy: who may call,
      which turn is admitted, what its end means, when the PM is woken.
    - [src/internal/messagequeue], [src/internal/taskapi] and
      [src/contracts/task-api/v1]: the receipts of chat messages and of
      commands in SQLite, a numbered feed of their changes, and the interface
      through which other agents admit, list and follow tasks; with their host
      in [src/internal/core]: [message_queue.go], [task_api_projection.go].
    - [src/internal/delegation], [src/internal/handoff]: handoffs of work from a
      conversation to a child one, in SQLite: capacity, waiting, promotion,
      rounds, returned results sealed with a snapshot of a coordinator's file.
    - [src/internal/eventinbox]: events of external sources in SQLite, what each
      device did with them, their attachments and the cursors of the sources.
    - [src/internal/taskinteraction]: questions that a child asks its parent or a
      human, and their answers, in SQLite, also between two Bridges; with
      [task_interaction*.go] of [src/internal/core].
    - [src/internal/governance]: what the connection to the owner's devices
      rests on: the buffer of events nobody was connected to receive
      ([offline.go]), paired devices ([pairing.go]), who may write in a
      conversation ([session_control.go]), goals ([goals.go]) and the gate of
      dangerous operations ([permission.go]); with the parts of
      [src/internal/core] that use them: [replay.go], and the clients of
      [client.go], [hub.go], [storm.go] and [router.go].
    The core ([src/internal/core]) calls all of them: a client's message is
    admitted by the policy when the session is a worker, queued in the
    session, and its end is recorded in the journal and in the policy.

    ** Files

    - [Prelude]: machine integers, doubles, strings, record update, automation.
    - [Session]: the struct [Session], snapshots, native thread history,
      configuration ([registry.go], [configuration.go]).
    - [TurnQueue]: [turn.go] as a machine of atomic steps, one per critical
      section; [TurnChannels], [TurnMailbox], [TurnWorker]: its invariants
      (who may close which channel, mailbox and holds, the worker);
      [TurnSpec]: the abstract queue and the refinement; [TurnProps]: the
      theorems (dispatch, single flight, no lost wake-up, shutdown).
    - [SessionStore]: the metadata file, merged with rows of other writers.
    - [Orders], [Registry]: restoring sessions with the migration of
      duplicated conversations, durable rename and preview, discovery.
    - [RuntimeJournal], [JournalProps]: lifecycle records, recovery, cursors,
      questions, stops, the cap, shared reads; restart theorems.
    - [Decimal]: names built from numbers are read back unambiguously.
    - [CoordTypes]: the structs of the collaboration as records.
    - [Coordination]: version 1: [Apply] and its actions, [WorkerAllowed], the
      host's transactions on a worker; [CoordProps]: the invariant of the
      state under every event; [CoordSafety]: what the policy guarantees over
      histories.
    - Version 2: [CollabState] (maps, hashes, manifests, grants, sources),
      [Collaboration] ([applyTaskCommand], cut where the code turns from one
      concern to the next), [CollabReports] (reports, dispositions,
      submissions), [Cooperation] ([applyCooperation], one definition per
      action), [CollabRuns] (admission and end of a run, queries, upgrade,
      maintenance), [CollabApply] ([ApplyCollaboration]: receipts, scope).
    - [Host]: the guards of the calls, [AdmitTurn], [finishPMTurn], [wakePM],
      restart and stop requests; [Artifacts]: [saveCollaborationArtifact].
    - [CollabMoves]: the relations an operation of version 2 keeps ([calm],
      [drawn], [commands]) with the hints that discharge them; [CollabOps],
      [CollabRest], [CollabCalls]: that each operation keeps them;
      [HostMoves]: all of it as one machine of events, [run2].
    - [CollabScenario]: a project from its creation to a delivery;
      [CollabSafety], [HostProps]: the theorems.
    - [OfflineBuffer]: the buffer that merges and collapses events;
      [OfflineProps]: it shows what the raw stream shows, and its batches.
    - [Replay]: hub and clients as a machine of critical sections: fan-out,
      leases, acknowledgements, retries, legacy replay; [ReplayProps]: what
      undisturbed handlers keep and what interleaved ones lose.
    - [Governance]: modules [Pairing], [Access] (handshake and gate), [Control],
      [Goals]; [GovernanceProps]: their theorems over histories.
    - [Permission]: requests that block, as a machine, with its theorems.
    - [Sql]: transactions over tables in which any statement or commit may
      fail, with a weakest precondition; [TaskJournal], [TaskFeed]: the journal
      of changes, claims, outcomes and freezes, and its log of every change
      ever made; [MessageQueue], [QueueStore], [QueueProps]: the receipts of
      messages, what each operation keeps, their theorems over histories.
    - [QueueHost], [QueueHostProps]: processes over one store, from the
      acceptance of a message to its end, promotion and crashes included.
    - [TaskContract]: frames and numbers; [Base64]; [TaskCursor]: signed cursors
      and pages over the class [SnapshotSource]; [TaskPages]: their theorems,
      for every source; [TaskRead]: captures and the event feed, an instance of
      that class, over stores that change between two reads; [TaskReadProps].
    - [Handoff]: snapshots, bounded before they are stored and shown;
      [Delegation]: the store of handoffs, one definition per operation;
      [DelegationStore], [DelegationSteps]: the steps that an operation takes
      on rows and rounds ([dstep], [grows]) and the invariant [ok];
      [DelegationProps]: their theorems over histories.
    - [EventInbox]: the store of external events, one definition per operation;
      [EventInboxProps]: its invariant and theorems over histories.
    - [Interactions]: the store of questions and what the host does with a
      question, one definition per operation or action; [InteractionProps]: the
      steps every one of them takes on rows, the invariant, the theorems.

    ** How code becomes definitions

    A method that holds one mutex for its whole body is a function from the
    state to the state and its result.  A method that waits, or that calls back
    outside the lock, is cut into its critical sections and the machine of
    [TurnQueue] interleaves them.  An [error] is an [option string] or the
    right side of a sum; early returns are the [refuse e when b; k] notation
    or nested conditionals in the order of the code.  Integers are [Z] with
    [u64_succ] and [i64] where the code can overflow; doubles are the binary64
    of the standard library.  A Go map is a [gmap]; where the order of a range
    over a map can matter the order is an argument.  The clock, random
    identifiers, hashes, and what the file system returns are arguments: the
    theorems hold for each of their values.  A SQL transaction is a function of
    the tables and of a list of faults, one for each statement and commit.  The host's mutex makes its read of
    the document and the transaction that follows one step of the machine.
    The code applies a command of version 2 to a copy made through JSON and
    stores it at the end; here an error carries no state.

    ** What the theorems show

    Each property carries its number in its comment.  They are: the turn
    queue refines a FIFO with reservations, runs each message once, one at a
    time, never loses a wake-up and stops after [Close]; a restart gives back
    the sessions and the journal; a failed write leaves the previous file and
    state; histories of the journal only advance; the policy never lets an
    instruction run that no human approved, or that a takeover replaced, never
    lets an agent authorize, and applies a mutation once.  Of version 2: every
    run of the PM is under a live grant that a human left on that contract, a
    grant's retries stay within it, a task is done only when a human accepts a
    sealed and covered submission, closed tasks stay closed, a PM that settles
    nothing is paused, an artifact is stored once; and concrete histories in
    which the code does what it does not mean to: a delivery lost to the expiry
    of its grant, or to a stop of an idle conversation.  Of governance: compaction
    loses nothing that a client shows, an event leaves the buffer only once it
    was delivered as long as handlers do not interleave (and is lost when they
    do), commands need a trusted connection, an enrollment window admits one
    device, pairing survives restarts when the disk works, only one side may
    write in a conversation, and a dangerous operation runs only when its own
    device approved it in time.  Of messages and tasks: a message is handed to
    an agent at most once through crashes, retries and several processes, except
    when another process comes between the two steps of a promotion; a verdict and
    a command key are final; the feed names every change, a snapshot and the
    feed together miss nothing, pages partition a snapshot, and a page of events
    is exact, but for a task that is admitted while it is read.  Of handoffs: the
    capacity of a parent holds, a child works for one at a time, waiting work is
    promoted in order and never stuck, the scan of pending work is fair, each
    transition has one winner, finished work is final, rounds form one chain, a
    sealed return is read back, and a reminder fits its limit.  Of external
    events: the tables agree and stay bounded, an event sent again is answered
    with the first one, a batch and its cursor are stored together, and a fetch
    whose worker died is never claimed again.  Of questions: a reserved answer
    is final, a request has at most eight open questions, and one whose parent is
    on another instance can be orphaned unseen by that parent.  The histories of the collaboration assume
    that no receipt of version 1 is under a name version 2 would give.
    Theorems about every history of version 1 assume fewer than 2^64 events, which keeps the counters from
    wrapping; fuel appears in [strip_all] (the length of the string, shown
    enough by [strip_all_done]) and in [readValue] (twice the number of tokens
    and one, shown enough by [Parse_exact]).  [sourcesFrom] has the length of
    its list.

    ** Not modelled

    The other SQL stores (search, work items, workspace, callbacks, relay), how the
    host finds the lineage of a question, the listing and the
    JSON projection of tasks, JSON Schema, processes and pipes of the
    executors, network transports, push services, voice, file scanning and
    media: I/O against third parties.  Generated protocol types.  Of the host:
    the provisioning of conversations and work items, the snapshots for
    clients, the MCP adapters, reserved workspace sessions.  The atomic
    replacement of a file ([rename] after [fsync]) is one outcome argument.
    The manifest lists every part with its status. *)

From stdpp Require Export gmap strings list fin_maps sorting relations.
From Stdlib Require Export ZArith.
From Stdlib Require Import SpecFloat.
From Stdlib Require Import Lia.

(** ** Shared vocabulary

    Go machine integers and floats, errors, strings, channels, record
    updates, and the automation every component file uses. *)

Declare Scope bridge_scope.
Delimit Scope bridge_scope with bridge.
#[global] Open Scope bridge_scope.
#[global] Open Scope Z_scope.

(** ** Functional update of record fields

    Go structs have up to forty fields and most methods assign two or three
    of them.  [r <| f := v |>] is the record [r] with field [f] set to [v].
    A record type opts in by giving its eta-expansion as an instance of
    [Eta]; the update of a given projection is then computed once, when the
    notation is elaborated. *)
Class Eta (R : Type) := eta_expand : R → R.
Class FieldSet {R T : Type} (p : R → T) := field_set : T → R → R.
Arguments field_set {R T} p {_} _ _.

Ltac build_field_set p :=
  lazymatch goal with
  | |- @FieldSet ?R ?T _ =>
    let i := constr:(_ : Eta R) in
    change (T → R → R);
    let v := fresh "v" in
    let r := fresh "r" in
    intros v r;
    let body := eval hnf in (i r) in
    let F := eval pattern (p r) in body in
    lazymatch F with
    | ?g _ => let t := eval cbv beta in (g v) in exact t
    end
  end.
#[export] Hint Extern 0 (FieldSet ?p) => build_field_set p : typeclass_instances.

Notation "r <| f := v |>" := (field_set f v r)
  (at level 1, left associativity, f at next level, v at level 200) : bridge_scope.

(** ** Machine integers

    [uint64] and [int64] are [Z] with the wrap-around of Go's arithmetic
    written at each operation that can overflow. *)
Definition u64_max : Z := 2 ^ 64 - 1.
Definition u64 (x : Z) : Z := x mod 2 ^ 64.
Definition u64_succ (x : Z) : Z := u64 (x + 1).
Definition is_u64 (x : Z) : Prop := 0 ≤ x ≤ u64_max.

Definition i64_min : Z := - 2 ^ 63.
Definition i64_max : Z := 2 ^ 63 - 1.
Definition i64 (x : Z) : Z := (x + 2 ^ 63) mod 2 ^ 64 - 2 ^ 63.
Definition is_i64 (x : Z) : Prop := i64_min ≤ x ≤ i64_max.

Lemma u64_small x : is_u64 x → u64 x = x.
Proof. unfold is_u64, u64, u64_max. intros. apply Z.mod_small. lia. Qed.

Lemma u64_range x : is_u64 (u64 x).
Proof. unfold is_u64, u64, u64_max. pose proof (Z.mod_pos_bound x (2 ^ 64)). lia. Qed.

Lemma u64_succ_lt x : 0 ≤ x < u64_max → u64_succ x = x + 1.
Proof. intros. unfold u64_succ. apply u64_small. unfold is_u64. lia. Qed.

(** The one case in which incrementing a revision does not increase it. *)
Lemma u64_succ_wrap : u64_succ u64_max = 0.
Proof. reflexivity. Qed.

Lemma i64_small x : is_i64 x → i64 x = x.
Proof.
  unfold is_i64, i64, i64_min, i64_max. intros. rewrite Z.mod_small; lia.
Qed.

Lemma i64_range x : is_i64 (i64 x).
Proof.
  unfold is_i64, i64, i64_min, i64_max.
  pose proof (Z.mod_pos_bound (x + 2 ^ 63) (2 ^ 64)). lia.
Qed.

(** ** IEEE 754 binary64

    Go's [float64] is the specification float of the standard library with
    53 bits of precision, so arithmetic is computed, never assumed. *)
Definition f64 : Type := spec_float.
#[global] Instance f64_eq_dec : EqDecision f64.
Proof. solve_decision. Defined.

Definition f64_of_Z (z : Z) : f64 := binary_normalize 53 1024 z 0 false.
Definition f64_div (x y : f64) : f64 := SFdiv 53 1024 x y.
Definition f64_ltb (x y : f64) : bool := SFltb x y.
Definition f64_leb (x y : f64) : bool := SFleb x y.
Definition f64_eqb (x y : f64) : bool := SFeqb x y.
Definition f64_zero : f64 := S754_zero false.

(** [int64(x)]: truncation toward zero; out of range (and for the infinities
    and NaN) the conversion yields the minimum integer, as on amd64. *)
Definition f64_to_i64 (x : f64) : Z :=
  match x with
  | S754_finite s m e =>
      let a := if 0 <=? e then Z.pos m * 2 ^ e else Z.pos m / 2 ^ (- e) in
      let z := if s then - a else a in
      if (i64_min <=? z) && (z <=? i64_max) then z else i64_min
  | S754_zero _ => 0
  | _ => i64_min
  end.

(** ** Strings: Go strings are byte sequences *)
Definition str_len (s : string) : Z := Z.of_nat (String.length s).
Definition str_empty (s : string) : bool := bool_decide (s = "").
Definition has_prefix (p s : string) : bool := String.prefix p s.

(** The UTF-8 encodings of the code points [unicode.IsSpace] accepts. *)
Definition space_encodings : list (list Ascii.ascii) :=
  let b (n : nat) := Ascii.ascii_of_nat n in
  [[b 9]; [b 10]; [b 11]; [b 12]; [b 13]; [b 32];
   [b 194; b 133]; [b 194; b 160]; [b 225; b 154; b 128];
   [b 226; b 128; b 128]; [b 226; b 128; b 129]; [b 226; b 128; b 130];
   [b 226; b 128; b 131]; [b 226; b 128; b 132]; [b 226; b 128; b 133];
   [b 226; b 128; b 134]; [b 226; b 128; b 135]; [b 226; b 128; b 136];
   [b 226; b 128; b 137]; [b 226; b 128; b 138]; [b 226; b 128; b 168];
   [b 226; b 128; b 169]; [b 226; b 128; b 175]; [b 226; b 129; b 159];
   [b 227; b 128; b 128]]%nat.

Fixpoint strip_list (p s : list Ascii.ascii) : option (list Ascii.ascii) :=
  match p, s with
  | [], _ => Some s
  | a :: p', c :: s' => if Ascii.eqb a c then strip_list p' s' else None
  | _ :: _, [] => None
  end.

Fixpoint strip_any (ps : list (list Ascii.ascii)) (s : list Ascii.ascii)
  : option (list Ascii.ascii) :=
  match ps with
  | [] => None
  | p :: ps' => match strip_list p s with Some r => Some r | None => strip_any ps' s end
  end.

(** Every step removes at least one byte, so the length is enough fuel. *)
Fixpoint strip_all (fuel : nat) (ps : list (list Ascii.ascii)) (s : list Ascii.ascii)
  : list Ascii.ascii :=
  match fuel with
  | O => s
  | S n => match strip_any ps s with Some r => strip_all n ps r | None => s end
  end.

Definition trim_space (s : string) : string :=
  let l := String.list_ascii_of_string s in
  let l1 := strip_all (length l) space_encodings l in
  let l2 := strip_all (length l1) (map (@rev _) space_encodings) (rev l1) in
  String.string_of_list_ascii (rev l2).

Definition blank (s : string) : bool := str_empty (trim_space s).

(** [strings.ToLower] on ASCII. *)
Definition lower_ascii (a : Ascii.ascii) : Ascii.ascii :=
  let n := Ascii.nat_of_ascii a in
  if (65 <=? n)%nat && (n <=? 90)%nat then Ascii.ascii_of_nat (n + 32) else a.
Definition to_lower (s : string) : string :=
  String.string_of_list_ascii (map lower_ascii (String.list_ascii_of_string s)).

(** [fmt.Sprint] of an unsigned integer, and of a non-negative [int]. *)
Definition decimal (z : Z) : string := pretty.pretty z.

(** ** Errors: a Go [error] is [option string], [None] being nil. *)
Definition error : Type := option string.

(** ** Automation *)
Create HintDb bridge.


(** Case analysis on the guards of a handler, one [match] or [if] at a time. *)
Ltac step_guard :=
  match goal with
  | |- context [bool_decide ?P] => destruct (bool_decide_reflect P)
  | |- context [match ?x with _ => _ end] =>
      lazymatch x with
      | context [match _ with _ => _ end] => fail
      | _ => destruct x eqn:?
      end
  end.

Ltac step_guard_in H :=
  match type of H with
  | context [match ?x with _ => _ end] =>
      lazymatch x with
      | context [match _ with _ => _ end] => fail
      | _ => destruct x eqn:?
      end
  end.

Ltac guards_in H := repeat (step_guard_in H; simplify_eq/=; try done).
Ltac guards := repeat (step_guard; simplify_eq/=; try done).

(** Turns the boolean guards left by [guards] into propositions. *)
Ltac bool_facts :=
  repeat match goal with
  | H : _ && _ = true |- _ => apply andb_true_iff in H as [? ?]
  | H : _ || _ = false |- _ => apply orb_false_iff in H as [? ?]
  | H : negb _ = true |- _ => apply negb_true_iff in H
  | H : negb _ = false |- _ => apply negb_false_iff in H
  | H : bool_decide _ = true |- _ => apply bool_decide_eq_true in H
  | H : bool_decide _ = false |- _ => apply bool_decide_eq_false in H
  | H : (_ <? _) = true |- _ => apply Z.ltb_lt in H
  | H : (_ <? _) = false |- _ => apply Z.ltb_ge in H
  | H : (_ <=? _) = true |- _ => apply Z.leb_le in H
  | H : (_ <=? _) = false |- _ => apply Z.leb_gt in H
  | H : (_ =? _) = true |- _ => apply Z.eqb_eq in H
  | H : (_ =? _) = false |- _ => apply Z.eqb_neq in H
  | H : str_empty _ = true |- _ => apply bool_decide_eq_true in H
  | H : str_empty _ = false |- _ => apply bool_decide_eq_false in H
  end.

(** ** Generic lemmas *)
Lemma strip_list_length p s r :
  strip_list p s = Some r → (length r + length p = length s)%nat.
Proof.
  revert s; induction p as [|a p IH]; intros [|c s] H; simplify_eq/=; try lia.
  destruct (Ascii.eqb a c); [|done]. apply IH in H. lia.
Qed.

Lemma strip_any_length ps s r :
  Forall (λ p, p ≠ []) ps → strip_any ps s = Some r → (length r < length s)%nat.
Proof.
  induction 1 as [|p ps Hp _ IH]; simpl; [done|].
  destruct (strip_list p s) as [q|] eqn:E; [|done].
  intros [= ->]. apply strip_list_length in E. destruct p; [done|]. simpl in E. lia.
Qed.

(** The fuel of [strip_all] suffices: nothing more can be stripped. *)
Lemma strip_all_done n ps s :
  Forall (λ p, p ≠ []) ps → (length s ≤ n)%nat → strip_any ps (strip_all n ps s) = None.
Proof.
  intros Hps. revert s; induction n as [|n IH]; intros s Hn; simpl.
  - destruct s; simpl in Hn; [|lia]. destruct (strip_any ps []) as [r|] eqn:E; [|done].
    apply strip_any_length in E; [simpl in E; lia|done].
  - destruct (strip_any ps s) as [r|] eqn:E; [|done].
    apply IH. apply strip_any_length in E; [lia|done].
Qed.

(** *** Counting the elements of a list *)
Fixpoint countb {A} (f : A → bool) (l : list A) : nat :=
  match l with
  | [] => 0
  | x :: l => Nat.b2n (f x) + countb f l
  end.

Lemma filter_all {A} (P : A → Prop) `{∀ x, base.Decision (P x)} l : Forall P l → filter P l = l.
Proof. induction 1 as [|x l Hx _ IH]; [done|]. by rewrite filter_cons_True, IH. Qed.

Lemma countb_app {A} (f : A → bool) l1 l2 :
  countb f (l1 ++ l2) = (countb f l1 + countb f l2)%nat.
Proof. induction l1; simpl; lia. Qed.

Lemma countb_delete {A} (f : A → bool) l i x :
  l !! i = Some x → countb f l = (Nat.b2n (f x) + countb f (delete i l))%nat.
Proof.
  revert i; induction l as [|y l IH]; intros [|i] H; simplify_eq/=; [done|].
  rewrite (IH _ H). lia.
Qed.

Lemma countb_insert {A} (f : A → bool) l i x y :
  l !! i = Some x →
  (countb f (<[i:=y]> l) + Nat.b2n (f x) = countb f l + Nat.b2n (f y))%nat.
Proof.
  revert i; induction l as [|z l IH]; intros [|i] H; simplify_eq/=; [lia|].
  specialize (IH _ H). lia.
Qed.

Lemma countb_pos {A} (f : A → bool) l x :
  x ∈ l → f x = true → (1 ≤ countb f l)%nat.
Proof.
  induction 1 as [x l|x y l _ IH]; simpl; intros E; [rewrite E; simpl; lia|].
  specialize (IH E). lia.
Qed.

Lemma countb_pos_inv {A} (f : A → bool) l :
  (1 ≤ countb f l)%nat → ∃ x, x ∈ l ∧ f x = true.
Proof.
  induction l as [|y l IH]; simpl; [lia|]. destruct (f y) eqn:E.
  - intros _. exists y. split; [left|done].
  - simpl. intros (x & ? & ?)%IH. exists x. split; [by right|done].
Qed.

Lemma countb_zero {A} (f : A → bool) l x :
  countb f l = 0%nat → x ∈ l → f x = false.
Proof.
  intros H Hx. destruct (f x) eqn:E; [|done].
  pose proof (countb_pos f l x Hx E). lia.
Qed.
