(* ===== verification/Session.v ===== *)
(** * One bridge session: its fields, its snapshot and its configuration

    [src/internal/session/registry.go] (the struct, the snapshot and the
    single-field methods) and the pure part of
    [src/internal/session/configuration.go].  Every method takes the session
    mutex for its whole body, so a method is a function on the record.  The
    turn queue, whose methods synchronise with a worker goroutine, is in
    [TurnQueue]. *)

From S2P Require Import Prelude.

(** Channels and heap objects are named by the number that allocated them. *)
Abbreviation chan := nat (only parsing).
Abbreviation ptr := nat (only parsing).

Inductive State := Idle | Streaming | Stopping | Closed.
#[global] Instance State_eq_dec : EqDecision State.
Proof. solve_decision. Defined.

(** [(st State) String]. *)
Definition State_String (st : State) : string :=
  match st with
  | Idle => "idle"
  | Streaming => "streaming"
  | Stopping => "stopping"
  | Closed => "closed"
  end.

Record Configuration := mkConfiguration {
  Revision : Z;
  Backend : string;
  Model : string;
  Sandbox : string;
  Effort : string;
  ServiceTier : string;
  CollaborationMode : string;
  Personality : string }.
#[global] Instance Configuration_eq_dec : EqDecision Configuration.
Proof. solve_decision. Defined.
#[export] Instance Configuration_eta : Eta Configuration := λ c,
  mkConfiguration (Revision c) (Backend c) (Model c) (Sandbox c) (Effort c)
    (ServiceTier c) (CollaborationMode c) (Personality c).

(** The struct [Session], without its mutex. *)
Record Session := mkSession {
  configUpdating : bool;
  configRevision : Z;
  futureConfig : option Configuration;
  ID : string;
  CreatedAt : f64;
  name : string;
  metadataRevision : Z;
  nameUpdatedAt : Z;
  nameUpdatedBy : string;
  lastNameMutationID : string;
  cwd : string;
  backend : string;
  model : string;
  sandbox : string;
  effort : string;
  serviceTier : string;
  collaborationMode : string;
  personality : string;
  resumeID : string;
  historicalResumeIDs : list string;
  pinned : bool;
  hidden : bool;
  lastActivity : f64;
  previewText : string;
  previewRole : string;
  previewUpdatedAt : Z;
  previewRevision : Z;
  contextUsed : Z;
  contextMax : Z;
  contextUsedKnown : bool;
  state : State;
  mailbox : list ptr;
  queueChanged : option chan;
  queueHolds : Z;
  activeQueuedID : string;
  quit : option chan;
  workerUp : bool;
  workerDone : option chan;
  turnDone : option chan }.

#[export] Instance Session_eta : Eta Session := λ s,
  mkSession (configUpdating s) (configRevision s) (futureConfig s) (ID s) (CreatedAt s)
    (name s) (metadataRevision s) (nameUpdatedAt s) (nameUpdatedBy s) (lastNameMutationID s)
    (cwd s) (backend s) (model s) (sandbox s) (effort s) (serviceTier s) (collaborationMode s)
    (personality s) (resumeID s) (historicalResumeIDs s) (pinned s) (hidden s) (lastActivity s)
    (previewText s) (previewRole s) (previewUpdatedAt s) (previewRevision s) (contextUsed s)
    (contextMax s) (contextUsedKnown s) (state s) (mailbox s) (queueChanged s) (queueHolds s)
    (activeQueuedID s) (quit s) (workerUp s) (workerDone s) (turnDone s).

(** A struct literal leaves the fields it does not name at their zero value. *)
Definition zeroSession : Session :=
  mkSession false 0 None "" f64_zero "" 0 0 "" "" "" "" "" "" "" "" "" "" "" [] false false
    f64_zero "" "" 0 0 0 0 false Idle [] None 0 "" None false None None.

Record Snapshot := mkSnapshot {
  snapConfigRevision : Z;
  snapID : string;
  snapName : string;
  snapMetadataRevision : Z;
  snapNameUpdatedAt : Z;
  snapNameUpdatedBy : string;
  snapLastNameMutationID : string;
  snapCwd : string;
  snapBackend : string;
  snapModel : string;
  snapSandbox : string;
  snapEffort : string;
  snapServiceTier : string;
  snapCollaborationMode : string;
  snapPersonality : string;
  snapResumeID : string;
  snapHistoricalResumeIDs : list string;
  snapCreatedAt : f64;
  snapLastActivity : f64;
  snapPreviewText : string;
  snapPreviewRole : string;
  snapPreviewUpdatedAt : Z;
  snapPreviewRevision : Z;
  snapContextUsed : Z;
  snapContextMax : Z;
  snapContextUsedKnown : bool;
  snapPinned : bool;
  snapHidden : bool;
  snapStreaming : bool;
  snapState : State }.

#[export] Instance Snapshot_eta : Eta Snapshot := λ s,
  mkSnapshot (snapConfigRevision s) (snapID s) (snapName s) (snapMetadataRevision s)
    (snapNameUpdatedAt s) (snapNameUpdatedBy s) (snapLastNameMutationID s) (snapCwd s)
    (snapBackend s) (snapModel s) (snapSandbox s) (snapEffort s) (snapServiceTier s)
    (snapCollaborationMode s) (snapPersonality s) (snapResumeID s) (snapHistoricalResumeIDs s)
    (snapCreatedAt s) (snapLastActivity s) (snapPreviewText s) (snapPreviewRole s)
    (snapPreviewUpdatedAt s) (snapPreviewRevision s) (snapContextUsed s) (snapContextMax s)
    (snapContextUsedKnown s) (snapPinned s) (snapHidden s) (snapStreaming s) (snapState s).

Definition State_is (a b : State) : bool := bool_decide (a = b).

(** Reports whether a turn is in flight (Streaming or Stopping). *)
Definition IsStreaming (s : Session) : bool :=
  State_is (state s) Streaming || State_is (state s) Stopping.

Definition snapshotLocked (s : Session) : Snapshot :=
  mkSnapshot (configRevision s) (ID s) (name s) (metadataRevision s) (nameUpdatedAt s)
    (nameUpdatedBy s) (lastNameMutationID s) (cwd s) (backend s) (model s) (sandbox s)
    (effort s) (serviceTier s) (collaborationMode s) (personality s) (resumeID s)
    (historicalResumeIDs s) (CreatedAt s) (lastActivity s) (previewText s) (previewRole s)
    (previewUpdatedAt s) (previewRevision s) (contextUsed s) (contextMax s)
    (contextUsedKnown s) (pinned s) (hidden s) (IsStreaming s) (state s).

(** What stops a row from being retired: anything running, queued, reserved
    or being configured. *)
Definition quiet (s : Session) : bool :=
  State_is (state s) Idle && bool_decide (mailbox s = []) && (queueHolds s =? 0)
  && str_empty (activeQueuedID s) && negb (configUpdating s).

(** ** Mutators of [registry.go] *)
Definition SetName (v : string) (s : Session) : Session := s <| name := v |>.
Definition SetEffort (v : string) (s : Session) : Session := s <| effort := v |>.
Definition SetModel (v : string) (s : Session) : Session := s <| model := v |>.

Definition ApplyCodexSettings (tier mode pers : option string) (s : Session) : Session :=
  let s := match tier with Some v => s <| serviceTier := v |> | None => s end in
  let s := match mode with Some v => s <| collaborationMode := v |> | None => s end in
  match pers with Some v => s <| personality := v |> | None => s end.

Definition RestoreConfig (snap : Snapshot) (s : Session) : Session :=
  s <| backend := snapBackend snap |> <| model := snapModel snap |>
    <| sandbox := snapSandbox snap |> <| effort := snapEffort snap |>
    <| serviceTier := snapServiceTier snap |>
    <| collaborationMode := snapCollaborationMode snap |>
    <| personality := snapPersonality snap |>.

Definition SetMeta (pin hide : option bool) (s : Session) : Session :=
  let s := match pin with Some b => s <| pinned := b |> | None => s end in
  match hide with Some b => s <| hidden := b |> | None => s end.

Definition ApplyConfig (b m sb : string) (s : Session) : Session :=
  let s := if str_empty b then s else s <| backend := b |> in
  let s := if str_empty m then s else s <| model := m |> in
  if str_empty sb then s else s <| sandbox := sb |>.

Definition appendUniqueResumeID (ids : list string) (id active : string) : list string :=
  if str_empty id || bool_decide (id = active) then ids
  else if bool_decide (id ∈ ids) then ids
  else ids ++ [id].

Definition SetResumeID (id : string) (s : Session) : Session :=
  let s :=
    if negb (str_empty id) && negb (str_empty (resumeID s)) && negb (bool_decide (resumeID s = id))
    then s <| historicalResumeIDs :=
               appendUniqueResumeID (historicalResumeIDs s) (resumeID s) id |>
    else s in
  s <| resumeID := id |>.

Definition ClearResumeIDs (s : Session) : Session :=
  s <| resumeID := "" |> <| historicalResumeIDs := [] |>.

Definition AddHistoricalResumeID (id : string) (s : Session) : Session :=
  if str_empty id then s
  else s <| historicalResumeIDs :=
             appendUniqueResumeID (historicalResumeIDs s) id (resumeID s) |>.

Definition ResumeIDs (s : Session) : list string :=
  let out := historicalResumeIDs s in
  if str_empty (resumeID s) then out else appendUniqueResumeID out (resumeID s) "".

Definition SetContext (used max : Z) (s : Session) : Session :=
  let s := if 0 <=? used then s <| contextUsed := used |> <| contextUsedKnown := true |> else s in
  if 0 <=? max then s <| contextMax := max |> else s.

Definition SetLastActivity (ts : f64) (s : Session) : Session :=
  if f64_leb ts f64_zero then s
  else if f64_ltb (lastActivity s) ts then s <| lastActivity := ts |> else s.

(** ** [configuration.go]: the configuration carried by a session *)
Definition ConfigurationFrom (s : Snapshot) : Configuration :=
  mkConfiguration (snapConfigRevision s) (snapBackend s) (snapModel s) (snapSandbox s)
    (snapEffort s) (snapServiceTier s) (snapCollaborationMode s) (snapPersonality s).

Definition applySnapshot (c : Configuration) (s : Snapshot) : Snapshot :=
  s <| snapConfigRevision := Revision c |> <| snapBackend := Backend c |>
    <| snapModel := Model c |> <| snapSandbox := Sandbox c |> <| snapEffort := Effort c |>
    <| snapServiceTier := ServiceTier c |> <| snapCollaborationMode := CollaborationMode c |>
    <| snapPersonality := Personality c |>.

Definition applyConfigurationLocked (c : Configuration) (s : Session) : Session :=
  s <| configRevision := Revision c |> <| backend := Backend c |> <| model := Model c |>
    <| sandbox := Sandbox c |> <| effort := Effort c |> <| serviceTier := ServiceTier c |>
    <| collaborationMode := CollaborationMode c |> <| personality := Personality c |>.

(** The block that overlays a pending future configuration on a snapshot. *)
Definition withFuture (f : option Configuration) (snap : Snapshot) : Snapshot :=
  match f with Some c => applySnapshot c snap | None => snap end.

Definition SettingsSnapshot (s : Session) : Snapshot :=
  withFuture (futureConfig s) (snapshotLocked s).

Definition StableConfigurationSnapshot (s : Session) : Snapshot + string :=
  if configUpdating s || State_is (state s) Closed
  then inr "session_configuration_updating"
  else inl (snapshotLocked s).

(** The session after the call, and the snapshot and error it returns. *)
Definition SetFutureConfiguration (c : Configuration) (expected : option Z) (s : Session)
  : Session * (Snapshot * error) :=
  let before := withFuture (futureConfig s) (snapshotLocked s) in
  if State_is (state s) Closed || configUpdating s then (s, (before, Some "session_busy"))
  else if match expected with
          | Some e => negb (e =? snapConfigRevision before) | None => false end
  then (s, (before, Some "config_revision_conflict"))
  else if negb (bool_decide (Backend c = snapBackend before))
          || negb (bool_decide (Sandbox c = snapSandbox before))
  then (s, (before, Some "next_message_cannot_change_backend_or_permissions"))
  else
    let c := c <| Revision := u64_succ (snapConfigRevision before) |> in
    (s <| futureConfig := Some c |>, (applySnapshot c before, None)).

Definition RestoreFutureConfiguration (before : Snapshot) (s : Session) : Session :=
  s <| futureConfig := Some (ConfigurationFrom before) |>.

Definition ActivateQueuedConfiguration (c : Configuration) (s : Session) : Session * error :=
  if negb (State_is (state s) Streaming) || negb (bool_decide (Backend c = backend s))
     || negb (bool_decide (Sandbox c = sandbox s))
  then (s, Some "queued_configuration_no_longer_compatible")
  else
    let s := match futureConfig s with
             | None => s <| futureConfig := Some (ConfigurationFrom (snapshotLocked s)) |>
             | Some _ => s
             end in
    (applyConfigurationLocked c s, None).

Definition SetConfigRevision (r : Z) (s : Session) : Session := s <| configRevision := r |>.

(** The block that applies a pending future configuration, when there is one. *)
Definition applyFuture (s : Session) : Session :=
  match futureConfig s with Some c => applyConfigurationLocked c s | None => s end.

(** ** Lemmas *)

(** A list of physical threads: no repetition, no empty handle. *)
Definition threads_wf (ids : list string) : Prop := NoDup ids ∧ "" ∉ ids.

Lemma appendUnique_wf ids id active :
  threads_wf ids → threads_wf (appendUniqueResumeID ids id active).
Proof.
  intros [Hd He]. unfold appendUniqueResumeID, str_empty.
  destruct (bool_decide_reflect (id = "")) as [->|Hne]; [done|].
  destruct (bool_decide_reflect (id = active)); [done|].
  destruct (bool_decide_reflect (id ∈ ids)); [done|]. simpl. split.
  - apply NoDup_app; split_and!; [done| |apply NoDup_singleton].
    intros x Hx ->%list_elem_of_singleton. done.
  - set_solver.
Qed.

Lemma appendUnique_prefix ids id active :
  ids `prefix_of` appendUniqueResumeID ids id active.
Proof.
  unfold appendUniqueResumeID. guards; try done; eexists; reflexivity.
Qed.

Lemma appendUnique_elem ids id active :
  id ≠ "" → id ≠ active → id ∈ appendUniqueResumeID ids id active.
Proof.
  intros H1 H2. unfold appendUniqueResumeID, str_empty.
  rewrite !bool_decide_eq_false_2 by done. simpl.
  destruct (bool_decide_reflect (id ∈ ids)); [done|]. set_solver.
Qed.
#[export] Hint Resolve appendUnique_wf appendUnique_prefix : bridge.

Lemma applySnapshot_config c snap : ConfigurationFrom (applySnapshot c snap) = c.
Proof. by destruct c. Qed.

Lemma ConfigurationFrom_applied c s :
  ConfigurationFrom (snapshotLocked (applyConfigurationLocked c s)) = c.
Proof. by destruct c. Qed.

(** ** Properties *)

(** The life of a session's thread handles: the executor records and clears
    conversation handles, native discovery adds archived ones. *)
Inductive handle_op :=
  | HSet (id : string)
  | HClear
  | HArchive (id : string).

Definition handle_step (s : Session) (op : handle_op) : Session :=
  match op with
  | HSet id => SetResumeID id s
  | HClear => ClearResumeIDs s
  | HArchive id => AddHistoricalResumeID id s
  end.

Lemma handle_step_wf s op :
  threads_wf (historicalResumeIDs s) → threads_wf (historicalResumeIDs (handle_step s op)).
Proof.
  intros H. destruct op; simpl.
  - unfold SetResumeID. guards; auto with bridge.
  - split; [constructor|set_solver].
  - unfold AddHistoricalResumeID. guards; auto with bridge.
Qed.

Lemma handle_steps_wf ops s :
  threads_wf (historicalResumeIDs s) →
  threads_wf (historicalResumeIDs (fold_left handle_step ops s)).
Proof.
  revert s; induction ops as [|op ops IH]; intros s H; [done|].
  apply IH, handle_step_wf, H.
Qed.

(** C40: The threads a session lists are never repeated, never the empty handle,
    include the active one, and keep the archived ones in their order. *)
Theorem resume_ids_wf (ops : list handle_op) (s : Session) :
  threads_wf (historicalResumeIDs s) →
  let s' := fold_left handle_step ops s in
  threads_wf (ResumeIDs s') ∧
  (resumeID s' ≠ "" → resumeID s' ∈ ResumeIDs s') ∧
  historicalResumeIDs s' `prefix_of` ResumeIDs s'.
Proof.
  intros H s'. assert (Hwf : threads_wf (historicalResumeIDs s')) by by apply handle_steps_wf.
  unfold ResumeIDs, str_empty. destruct (bool_decide_reflect (resumeID s' = "")) as [|Hne].
  - split_and!; [done|congruence|done].
  - split_and!; auto with bridge. intros _. by apply appendUnique_elem.
Qed.

Lemma resume_ids_wf_witness :
  let s := fold_left handle_step [HSet "A"; HSet "B"; HArchive "C"] zeroSession in
  threads_wf (ResumeIDs s) ∧ ResumeIDs s = ["A"; "C"; "B"].
Proof.
  split; [|reflexivity].
  apply (resume_ids_wf [HSet "A"; HSet "B"; HArchive "C"] zeroSession).
  split; [constructor|set_solver].
Defined.

(** A handle that is resumed again after another one has replaced it stays at
    its archived position: the active thread is then not the last one listed. *)
Theorem resume_ids_active_not_last :
  let s := fold_left handle_step [HSet "A"; HSet "B"; HSet "A"] zeroSession in
  resumeID s = "A" ∧ ResumeIDs s = ["A"; "B"].
Proof. vm_compute. done. Qed.

(** An edit of the future configuration does not touch the turn that is
    running: everything the executor reads stays, the settings shown for the
    next message are the edit, under the next revision. *)
Theorem future_configuration_isolated c expected s s' snap :
  SetFutureConfiguration c expected s = (s', (snap, None)) →
  snapshotLocked s' = snapshotLocked s ∧ state s' = state s ∧ mailbox s' = mailbox s ∧
  SettingsSnapshot s' = snap ∧
  ConfigurationFrom snap =
    c <| Revision := u64_succ (snapConfigRevision (SettingsSnapshot s)) |> ∧
  snapBackend snap = snapBackend (SettingsSnapshot s) ∧
  snapSandbox snap = snapSandbox (SettingsSnapshot s).
Proof.
  unfold SetFutureConfiguration, SettingsSnapshot. intros H. guards_in H; bool_facts; guards.
  all: destruct c; split_and!; try done.
  all: unfold withFuture in *; destruct (futureConfig s); first [done | congruence].
Qed.
