(* ===== verification/TurnQueue.v ===== *)
(** * The per-session turn queue

    [src/internal/session/turn.go] and the queue-synchronised part of
    [configuration.go]: one session, its mailbox of queued turns, the worker
    goroutine that runs them one at a time, the callers blocked in [Submit],
    and the closures handed out to callers ([finish], [release]), all
    interleaved at the granularity of the session mutex.

    A world is the session together with the heap of [queuedTurn] objects,
    the set of closed channels, the program counter of every worker and of
    every blocked caller, and the closures that were returned and not yet
    called.  [exec] is one atomic step: a critical section, a wake-up, or
    the call of a pending closure.  A second [close] of a channel sets
    [panicked], as it would crash the process. *)

From S2P Require Import Prelude Session.

(** ** State *)
Record queuedTurn := mkTurn {
  qid : string;
  qrun : nat;             (* the closure [run], by name *)
  qheld : bool;
  qready : option nat }.  (* the closure [ready], when not nil *)
#[export] Instance queuedTurn_eta : Eta queuedTurn := λ t,
  mkTurn (qid t) (qrun t) (qheld t) (qready t).

(** Where a worker goroutine stands. *)
Inductive wpc :=
  | WTop                                 (* about to take the mutex *)
  | WSleep (changed : option chan)       (* queue empty or held *)
  | WAsk (item : ptr)                    (* mutex released, calling [ready()] *)
  | WAnswered (item : ptr) (ready : bool)
  | WRetry (changed : option chan)       (* not ready: queue change or timer *)
  | WRun (item : ptr) (done : chan)      (* running [item.run()] *)
  | WAwait (done : chan)                 (* waiting for the end of the turn *)
  | WClear                               (* woken, about to clear [activeQueuedID] *)
  | WExit                                (* returning, deferred close pending *)
  | WGone.

Record worker := mkWorker { pc : wpc; wquit : chan; wexited : chan }.
#[export] Instance worker_eta : Eta worker := λ k, mkWorker (pc k) (wquit k) (wexited k).

(** A caller blocked in the [select] of [submitReady]. *)
Record waiter := mkWaiter {
  waId : string; waRun : nat; waReady : option nat;
  waChanged : option chan; waQuit : option chan }.

(** A closure returned to a caller; each runs its body at most once. *)
Inductive closure :=
  | CFinish (target : ptr)      (* of the [Reserve...] methods *)
  | CHold                       (* of [HoldQueue] *)
  | CConfig                     (* of [ReserveConfiguration] *)
  | CRelease (done : option chan).  (* of [PrepareEndTurn] *)

Record world := mkWorld {
  sess : Session;
  heap : gmap ptr queuedTurn;
  closed : gset chan;
  fresh : nat;
  panicked : bool;
  workers : list worker;
  waiters : list waiter;
  closures : list closure;
  started : list ptr }.         (* the turns run so far, in order *)
#[export] Instance world_eta : Eta world := λ w,
  mkWorld (sess w) (heap w) (closed w) (fresh w) (panicked w) (workers w) (waiters w)
    (closures w) (started w).

Definition initial (s : Session) : world := mkWorld s ∅ ∅ 0 false [] [] [] [].

Definition upd (f : Session → Session) (w : world) : world := w <| sess := f (sess w) |>.

Definition makeChan (w : world) : chan * world := (fresh w, w <| fresh := S (fresh w) |>).

Definition closeChan (c : chan) (w : world) : world :=
  if bool_decide (c ∈ closed w) then w <| panicked := true |>
  else w <| closed := {[c]} ∪ closed w |>.

(** [if c != nil { close(c) }]. *)
Definition closeOpt (c : option chan) (w : world) : world :=
  match c with Some c => closeChan c w | None => w end.

Definition newTurn (t : queuedTurn) (w : world) : ptr * world :=
  (fresh w, w <| heap := <[fresh w := t]> (heap w) |> <| fresh := S (fresh w) |>).

(** ** Operations of [turn.go] *)
Definition mailboxSize : nat := 64.

Definition QueueLen (w : world) : nat := length (mailbox (sess w)).

Definition CanDispatchAutomatic (w : world) : bool :=
  if negb (State_is (state (sess w)) Idle) then false
  else match mailbox (sess w) with [] => true | _ => false end.

Definition signalQueueLocked (w : world) : world :=
  let w := closeOpt (queueChanged (sess w)) w in
  let '(c, w) := makeChan w in
  upd (λ s, s <| queueChanged := Some c |>) w.

(** The first submission starts the worker. *)
Definition startWorker (w : world) : world :=
  if workerUp (sess w) then w
  else
    let w := upd (λ s, s <| workerUp := true |>) w in
    let '(q, w) := makeChan w in
    let '(ch, w) := makeChan w in
    let '(dn, w) := makeChan w in
    let w := upd (λ s, s <| quit := Some q |> <| queueChanged := Some ch |>
                         <| workerDone := Some dn |>) w in
    w <| workers := workers w ++ [mkWorker WTop q dn] |>.

Fixpoint findItem (h : gmap ptr queuedTurn) (id : string) (l : list ptr) : option (nat * ptr) :=
  match l with
  | [] => None
  | p :: l =>
      if match h !! p with Some t => bool_decide (qid t = id) | None => false end
      then Some (0%nat, p)
      else match findItem h id l with Some (i, q) => Some (S i, q) | None => None end
  end.

Inductive submit_result :=
  | SReturn (accepted : bool)
  | SBlock (changed quit : option chan).

(** One iteration of the loop of [submitReady]. *)
Definition submitReady (id : string) (run : nat) (wait : bool) (ready : option nat) (w : world)
  : world * submit_result :=
  if State_is (state (sess w)) Closed then (w, SReturn false)
  else
    let w := startWorker w in
    let s := sess w in
    if negb (str_empty id)
       && (bool_decide (activeQueuedID s = id)
           || bool_decide (is_Some (findItem (heap w) id (mailbox s))))
    then (w, SReturn true)
    else if (length (mailbox s) <? mailboxSize)%nat then
      let '(p, w) := newTurn (mkTurn id run false ready) w in
      let w := upd (λ s, s <| mailbox := mailbox s ++ [p] |>) w in
      (signalQueueLocked w, SReturn true)
    else if negb wait then (w, SReturn false)
    else (w, SBlock (queueChanged s) (quit s)).

Definition ErrQueueNotWaiting : string := "message is no longer waiting".
Definition ErrQueueBusy : string := "a queue operation is already in progress".
Definition ErrQueueNoActiveTurn : string := "no active turn to steer".

Definition setHeld (b : bool) (p : ptr) (w : world) : world :=
  w <| heap := alter (λ t, t <| qheld := b |>) p (heap w) |>.
Definition held (w : world) (p : ptr) : bool :=
  match heap w !! p with Some t => qheld t | None => false end.

Definition reserveQueued (id : string) (requireActive exclusive : bool) (w : world)
  : world * error :=
  let s := sess w in
  if requireActive && negb (State_is (state s) Streaming) then (w, Some ErrQueueNoActiveTurn)
  else if exclusive && (0 <? queueHolds s) then (w, Some ErrQueueBusy)
  else match findItem (heap w) id (mailbox s) with
       | None => (w, Some ErrQueueNotWaiting)
       | Some (_, target) =>
           if held w target then (w, Some ErrQueueBusy)
           else
             let w := setHeld true target w in
             let w := upd (λ s, s <| queueHolds := queueHolds s + 1 |>) w in
             (w <| closures := closures w ++ [CFinish target] |>, None)
       end.

(** The body of the closure returned by [reserveQueued]. *)
Definition finishReserved (target : ptr) (remove : bool) (w : world) : world :=
  let w :=
    if held w target then
      upd (λ s, s <| queueHolds := queueHolds s - 1 |>) (setHeld false target w)
    else w in
  let w :=
    if remove then
      match list_find (λ p, p = target) (mailbox (sess w)) with
      | Some (i, _) => upd (λ s, s <| mailbox := delete i (mailbox s) |>) w
      | None => w
      end
    else w in
  signalQueueLocked w.

Definition CancelQueued (id : string) (w : world) : world * error :=
  match findItem (heap w) id (mailbox (sess w)) with
  | None => (w, Some ErrQueueNotWaiting)
  | Some (i, p) =>
      if held w p then (w, Some ErrQueueBusy)
      else (signalQueueLocked (upd (λ s, s <| mailbox := delete i (mailbox s) |>) w), None)
  end.

Definition beginTurnLocked (now : f64) (w : world) : chan * world :=
  if State_is (state (sess w)) Closed then
    let '(c, w) := makeChan w in (c, closeChan c w)
  else
    let w := upd (λ s, applyFuture (s <| state := Streaming |>)) w in
    let w := upd (λ s, s <| lastActivity := now |>) w in
    let '(c, w) := makeChan w in
    (c, upd (λ s, s <| turnDone := Some c |>) w).

Definition DeferActiveNamed (id : string) (ready : option nat) (run : nat) (w : world)
  : world * bool :=
  let s := sess w in
  match turnDone s with
  | Some done =>
      if str_empty id || negb (bool_decide (activeQueuedID s = id))
         || negb (State_is (state s) Streaming)
      then (w, false)
      else
        let '(p, w) := newTurn (mkTurn id run false ready) w in
        let w := upd (λ s, s <| mailbox := p :: mailbox s |> <| state := Idle |>
                             <| turnDone := None |>) w in
        (signalQueueLocked (closeChan done w), true)
  | None => (w, false)
  end.

(** The first phase of the end of a turn; the returned closure is the second. *)
Definition PrepareEndTurn (now : f64) (w : world) : world :=
  let w := if IsStreaming (sess w)
           then upd (λ s, applyFuture (s <| state := Idle |>)) w else w in
  let done := turnDone (sess w) in
  let w := upd (λ s, s <| turnDone := None |> <| lastActivity := now |>) w in
  w <| closures := closures w ++ [CRelease done] |>.

Definition MarkStopping (w : world) : world :=
  if State_is (state (sess w)) Streaming then upd (λ s, s <| state := Stopping |>) w else w.

Definition RestoreStreamingAfterUnconfirmedStop (requestID : string) (w : world) : world * bool :=
  if negb (State_is (state (sess w)) Stopping)
     || negb (bool_decide (activeQueuedID (sess w) = requestID))
  then (w, false)
  else (upd (λ s, s <| state := Streaming |>) w, true).

Definition Close (w : world) : world :=
  if State_is (state (sess w)) Closed then w
  else
    let w := upd (λ s, s <| state := Closed |>) w in
    let w := closeOpt (turnDone (sess w)) w in
    let w := upd (λ s, s <| turnDone := None |>) w in
    let w := closeOpt (quit (sess w)) w in
    let w := upd (λ s, s <| quit := None |>) w in
    let w := fold_left (λ w p, setHeld false p w) (mailbox (sess w)) w in
    let w := upd (λ s, s <| mailbox := [] |> <| queueHolds := 0 |>) w in
    let w := signalQueueLocked w in
    upd (λ s, s <| workerUp := false |>) w.

(** [PruneMissingNativeSessions] closes an idle session under the lock that
    excludes [Submit], before the registry forgets it. *)
Definition RetireIdle (w : world) : world :=
  if quiet (sess w) then
    let w := upd (λ s, s <| state := Closed |>) w in
    let w := closeOpt (turnDone (sess w)) w in
    let w := upd (λ s, s <| turnDone := None |>) w in
    let w := closeOpt (quit (sess w)) w in
    let w := upd (λ s, s <| quit := None |>) w in
    let w := upd (λ s, s <| queueHolds := 0 |>) w in
    let w := signalQueueLocked w in
    upd (λ s, s <| workerUp := false |>) w
  else w.

Definition HoldQueue (w : world) : world :=
  if State_is (state (sess w)) Closed then w
  else (upd (λ s, s <| queueHolds := queueHolds s + 1 |>) w)
         <| closures := closures w ++ [CHold] |>.

(** The body of the closure returned by [HoldQueue]. *)
Definition releaseHold (w : world) : world :=
  let w := if State_is (state (sess w)) Closed then w
           else upd (λ s, s <| queueHolds := queueHolds s - 1 |>) w in
  signalQueueLocked w.

(** ** [configuration.go]: the configuration RPC shares the dequeue boundary *)
Definition revision_conflict (expected : option Z) (snap : Snapshot) : bool :=
  match expected with Some e => negb (e =? snapConfigRevision snap) | None => false end.

Definition ReserveConfiguration (expected : option Z) (w : world) : world * (Snapshot * error) :=
  let s := sess w in
  let before := withFuture (futureConfig s) (snapshotLocked s) in
  if negb (State_is (state s) Idle) || negb (bool_decide (mailbox s = []))
     || negb (queueHolds s =? 0) || configUpdating s
  then (w, (before, Some "session_busy"))
  else if revision_conflict expected before then (w, (before, Some "config_revision_conflict"))
  else
    let before := withFuture (futureConfig s) before in
    if match futureConfig s with Some _ => revision_conflict expected before | None => false end
    then (w, (before, Some "config_revision_conflict"))
    else
      let w := upd (λ s, (applyFuture s) <| futureConfig := None |>) w in
      let w := upd (λ s, s <| configUpdating := true |>
                           <| queueHolds := queueHolds s + 1 |>) w in
      (w <| closures := closures w ++ [CConfig] |>, (before, None)).

(** The body of the closure returned by [ReserveConfiguration]. *)
Definition releaseConfiguration (w : world) : world :=
  let w := upd (λ s, s <| configUpdating := false |>) w in
  let w := if State_is (state (sess w)) Closed then w
           else upd (λ s, s <| queueHolds := queueHolds s - 1 |>) w in
  signalQueueLocked w.

(** ** The worker goroutine *)

(** The tail of an iteration: the head is taken and the turn begins. *)
Definition dequeue (now : f64) (item : ptr) (w : world) : world * wpc :=
  let id := match heap w !! item with Some t => qid t | None => "" end in
  let w := upd (λ s, s <| mailbox := tail (mailbox s) |> <| activeQueuedID := id |>) w in
  let '(done, w) := beginTurnLocked now w in
  (signalQueueLocked w, WRun item done).

(** The critical section at the top of an iteration. *)
Definition workerTop (now : f64) (w : world) : world * wpc :=
  let s := sess w in
  if State_is (state s) Closed then (w, WExit)
  else match mailbox s with
       | [] => (w, WSleep (queueChanged s))
       | item :: _ =>
           if 0 <? queueHolds s then (w, WSleep (queueChanged s))
           else if match heap w !! item with Some t => bool_decide (is_Some (qready t))
                                           | None => false end
           then (w, WAsk item)
           else dequeue now item w
       end.

(** The critical section after [ready()] returned. *)
Definition workerAnswered (now : f64) (item : ptr) (ready : bool) (w : world) : world * wpc :=
  let s := sess w in
  if State_is (state s) Closed || negb (bool_decide (head (mailbox s) = Some item))
     || (0 <? queueHolds s)
  then (w, WTop)
  else if negb ready then (w, WRetry (queueChanged s))
  else dequeue now item w.

(** The choice the environment makes in a step of a worker. *)
Inductive wchoice :=
  | Go (now : f64)        (* take the mutex, or return from [item.run()] *)
  | Answer (ready : bool) (* the value returned by [ready()] *)
  | Changed               (* [<-changed] or [<-done] fires *)
  | Timer
  | Quit.                 (* [<-quit] fires *)

Definition isClosed (w : world) (c : option chan) : bool :=
  match c with Some c => bool_decide (c ∈ closed w) | None => false end.

Definition workerStep (k : worker) (ch : wchoice) (w : world) : option (world * wpc) :=
  match pc k, ch with
  | WTop, Go now => Some (workerTop now w)
  | WSleep c, Changed => if isClosed w c then Some (w, WTop) else None
  | WSleep _, Quit => if isClosed w (Some (wquit k)) then Some (w, WExit) else None
  | WAsk item, Answer b => Some (w, WAnswered item b)
  | WAnswered item b, Go now => Some (workerAnswered now item b w)
  | WRetry c, Changed => if isClosed w c then Some (w, WTop) else None
  | WRetry _, Timer => Some (w, WTop)
  | WRetry _, Quit => if isClosed w (Some (wquit k)) then Some (w, WExit) else None
  | WRun item done, Go _ => Some (w <| started := started w ++ [item] |>, WAwait done)
  | WAwait done, Changed => if isClosed w (Some done) then Some (w, WClear) else None
  | WAwait _, Quit => if isClosed w (Some (wquit k)) then Some (w, WExit) else None
  | WClear, Go _ => Some (upd (λ s, s <| activeQueuedID := "" |>) w, WTop)
  | WExit, Go _ => Some (closeChan (wexited k) w, WGone)
  | _, _ => None
  end.

(** ** One step of the system *)
Inductive event :=
  | ESubmit (id : string) (run : nat) (wait : bool) (ready : option nat)
  | EWake (i : nat)
  | EWaiterQuit (i : nat)
  | EReserve (id : string) (requireActive exclusive : bool)
  | ECancel (id : string)
  | EDefer (id : string) (ready : option nat) (run : nat)
  | EPrepareEnd (now : f64)
  | EMarkStopping
  | ERestoreStreaming (requestID : string)
  | EClose
  | EHold
  | EReserveConfig (expected : option Z)
  | EClosure (i : nat) (remove : bool)
  | ESetFuture (c : Configuration) (expected : option Z)
  | ERestoreFuture (before : Snapshot)
  | EActivate (c : Configuration)
  | EWorker (i : nat) (ch : wchoice).

Definition submit (id : string) (run : nat) (wait : bool) (ready : option nat) (w : world) : world :=
  match submitReady id run wait ready w with
  | (w, SReturn _) => w
  | (w, SBlock c q) => w <| waiters := waiters w ++ [mkWaiter id run ready c q] |>
  end.

Definition runClosure (c : closure) (remove : bool) (w : world) : world :=
  match c with
  | CFinish p => finishReserved p remove w
  | CHold => releaseHold w
  | CConfig => releaseConfiguration w
  | CRelease done => closeOpt done w
  end.

Definition exec (e : event) (w : world) : option world :=
  match e with
  | ESubmit id run wait ready => Some (submit id run wait ready w)
  | EWake i =>
      match waiters w !! i with
      | Some a =>
          if isClosed w (waChanged a)
          then Some (submit (waId a) (waRun a) true (waReady a)
                       (w <| waiters := delete i (waiters w) |>))
          else None
      | None => None
      end
  | EWaiterQuit i =>
      match waiters w !! i with
      | Some a => if isClosed w (waQuit a)
                  then Some (w <| waiters := delete i (waiters w) |>) else None
      | None => None
      end
  | EReserve id ra ex => Some (reserveQueued id ra ex w).1
  | ECancel id => Some (CancelQueued id w).1
  | EDefer id ready run => Some (DeferActiveNamed id ready run w).1
  | EPrepareEnd now => Some (PrepareEndTurn now w)
  | EMarkStopping => Some (MarkStopping w)
  | ERestoreStreaming r => Some (RestoreStreamingAfterUnconfirmedStop r w).1
  | EClose => Some (Close w)
  | EHold => Some (HoldQueue w)
  | EReserveConfig ex => Some (ReserveConfiguration ex w).1
  | EClosure i remove =>
      match closures w !! i with
      | Some c => Some (runClosure c remove (w <| closures := delete i (closures w) |>))
      | None => None
      end
  | ESetFuture c ex => Some (upd (λ s, (SetFutureConfiguration c ex s).1) w)
  | ERestoreFuture b => Some (upd (RestoreFutureConfiguration b) w)
  | EActivate c => Some (upd (λ s, (ActivateQueuedConfiguration c s).1) w)
  | EWorker i ch =>
      match workers w !! i with
      | Some k =>
          match workerStep k ch w with
          | Some (w, p) => Some (w <| workers := <[i := k <| pc := p |>]> (workers w) |>)
          | None => None
          end
      | None => None
      end
  end.

Fixpoint execs (es : list event) (w : world) : option world :=
  match es with
  | [] => Some w
  | e :: es => match exec e w with Some w => execs es w | None => None end
  end.

(** A session as the registry creates it: idle, nothing queued, no worker. *)
Definition session_fresh (s : Session) : Prop :=
  state s = Idle ∧ mailbox s = [] ∧ queueHolds s = 0 ∧ activeQueuedID s = "" ∧
  quit s = None ∧ workerUp s = false ∧ workerDone s = None ∧ turnDone s = None ∧
  queueChanged s = None ∧ configUpdating s = false.

Definition reachable (w : world) : Prop :=
  ∃ s es, session_fresh s ∧ execs es (initial s) = Some w.
