(* ===== verification/TurnChannels.v ===== *)
(** * Channels of the turn queue

    Who may still close which channel, and the proof that every step of
    [TurnQueue] keeps owned channels open: no channel is closed twice. *)

From S2P Require Import Prelude Session TurnQueue.

(** ** Ownership

    A channel that someone may still close has exactly one owner: the session
    ([queueChanged], [quit], [turnDone]), a live worker (its exit channel) or
    a pending release closure.  Owned channels are open. *)
Definition cl_release (c : chan) (x : closure) : bool :=
  match x with CRelease (Some d) => bool_decide (d = c) | _ => false end.
Definition w_exits (c : chan) (k : worker) : bool :=
  match pc k with WGone => false | _ => bool_decide (wexited k = c) end.
Definition is_chan (c : chan) (o : option chan) : nat := Nat.b2n (bool_decide (o = Some c)).

Definition owners (c : chan) (w : world) : nat :=
  is_chan c (queueChanged (sess w)) + is_chan c (quit (sess w)) + is_chan c (turnDone (sess w))
  + countb (w_exits c) (workers w) + countb (cl_release c) (closures w).

Lemma cl_release_self c : cl_release c (CRelease (Some c)) = true.
Proof. unfold cl_release. by rewrite bool_decide_eq_true_2. Qed.

Lemma w_exits_self k : pc k ≠ WGone → w_exits (wexited k) k = true.
Proof. intros H. unfold w_exits. destruct (pc k); try done; by rewrite bool_decide_eq_true_2. Qed.

Lemma w_exits_gone c k : w_exits c (k <| pc := WGone |>) = false.
Proof. done. Qed.

Record chan_ok (w : world) : Prop := {
  ch_unique : ∀ c, (owners c w ≤ 1)%nat;
  ch_open : ∀ c, (1 ≤ owners c w)%nat → (c < fresh w)%nat ∧ c ∉ closed w;
  ch_closed : ∀ c, c ∈ closed w → (c < fresh w)%nat;
  ch_calm : panicked w = false }.

Lemma closeChan_open c w : c ∉ closed w → closeChan c w = w <| closed := {[c]} ∪ closed w |>.
Proof. intros H. unfold closeChan. by rewrite bool_decide_eq_false_2. Qed.

Lemma is_chan_self c : is_chan c (Some c) = 1%nat.
Proof. unfold is_chan. by rewrite bool_decide_eq_true_2. Qed.

Lemma is_chan_ne c o : o ≠ Some c → is_chan c o = 0%nat.
Proof. intros. unfold is_chan. by rewrite bool_decide_eq_false_2. Qed.

Lemma chan_ok_view w w' :
  queueChanged (sess w') = queueChanged (sess w) → quit (sess w') = quit (sess w) →
  turnDone (sess w') = turnDone (sess w) → workers w' = workers w → closures w' = closures w →
  closed w' = closed w → (fresh w ≤ fresh w')%nat → panicked w' = panicked w →
  chan_ok w → chan_ok w'.
Proof.
  intros H1 H2 H3 H4 H5 H6 H7 H8 []. split; unfold owners in *.
  - intros c. by rewrite H1, H2, H3, H4, H5.
  - intros c. rewrite H1, H2, H3, H4, H5, H6. intros Hc. apply ch_open0 in Hc. split; [lia|tauto].
  - intros c. rewrite H6. intros Hc. apply ch_closed0 in Hc. lia.
  - congruence.
Qed.

(** Closing the channel held in a session field and then replacing that field
    by a channel that is fresh, or by nothing. *)
Lemma owned_queueChanged w c :
  chan_ok w → queueChanged (sess w) = Some c → c ∉ closed w.
Proof.
  intros Hok H. apply (ch_open w Hok c). unfold owners. rewrite H, is_chan_self. lia.
Qed.
Lemma owned_quit w c : chan_ok w → quit (sess w) = Some c → c ∉ closed w.
Proof.
  intros Hok H. apply (ch_open w Hok c). unfold owners. rewrite H, is_chan_self. lia.
Qed.
Lemma owned_turnDone w c : chan_ok w → turnDone (sess w) = Some c → c ∉ closed w.
Proof.
  intros Hok H. apply (ch_open w Hok c). unfold owners. rewrite H, is_chan_self. lia.
Qed.

Definition also_closed (o : option chan) (cs : gset chan) : gset chan :=
  match o with Some c => {[c]} ∪ cs | None => cs end.

Lemma elem_of_also_closed c o cs : c ∈ also_closed o cs ↔ o = Some c ∨ c ∈ cs.
Proof. destruct o; simpl; set_solver. Qed.

Lemma closeOpt_eq o w :
  (∀ c, o = Some c → c ∉ closed w) → closeOpt o w = w <| closed := also_closed o (closed w) |>.
Proof. intros H. destruct o; simpl; [apply closeChan_open; auto|by destruct w]. Qed.

Definition signalled (w : world) : world :=
  w <| closed := also_closed (queueChanged (sess w)) (closed w) |>
    <| fresh := S (fresh w) |>
    <| sess := (sess w) <| queueChanged := Some (fresh w) |> |>.

Lemma signal_eq w : chan_ok w → signalQueueLocked w = signalled w.
Proof.
  intros H. unfold signalQueueLocked. rewrite closeOpt_eq; [done|].
  intros c. by apply owned_queueChanged.
Qed.

Lemma chan_cases w c :
  chan_ok w →
  (owners c w = 0%nat ∧ (c ∈ closed w → (c < fresh w)%nat)) ∨
  (owners c w = 1%nat ∧ (c < fresh w)%nat ∧ c ∉ closed w).
Proof.
  intros [U O C _]. specialize (U c). specialize (O c). specialize (C c).
  destruct (decide (owners c w = 0%nat)); [tauto|]. right. split; [lia|]. apply O. lia.
Qed.

Lemma chan_ok_intro w :
  panicked w = false →
  (∀ c, (owners c w = 0%nat ∧ (c ∈ closed w → (c < fresh w)%nat)) ∨
        (owners c w = 1%nat ∧ (c < fresh w)%nat ∧ c ∉ closed w)) →
  chan_ok w.
Proof.
  intros Hp H. split; [| | |done]; intros c; destruct (H c) as [[E ?]|(E & ? & ?)]; try lia; auto.
Qed.

(** Case analysis on who owns a channel before and after an operation. *)
Ltac owner_cases :=
  unfold owners, is_chan in *; cbn in *; rewrite ?countb_app in *; cbn in *;
  repeat case_bool_decide; simplify_eq/=; try lia;
  rewrite ?elem_of_also_closed;
  first [ left; split; [lia|]; intuition (simplify_eq; lia)
        | right; split_and!; [lia|lia|]; intuition (simplify_eq; lia) ].
Ltac chan_solve Hok :=
  apply chan_ok_intro; [by destruct Hok|];
  let c := fresh "c" in intros c; destruct (chan_cases _ c Hok) as [[? ?]|(? & ? & ?)]; owner_cases.

Lemma signalled_chan_ok w : chan_ok w → chan_ok (signalled w).
Proof. intros Hok. chan_solve Hok. Qed.

Lemma signal_chan_ok w : chan_ok w → chan_ok (signalQueueLocked w).
Proof. intros H. rewrite signal_eq by done. by apply signalled_chan_ok. Qed.

Lemma closeChan_chan_ok w c :
  chan_ok w → (c < fresh w)%nat → c ∉ closed w → owners c w = 0%nat → chan_ok (closeChan c w).
Proof.
  intros [] Hc Hn H0. rewrite closeChan_open by done. split; cbn.
  - apply ch_unique0.
  - intros d Hd. change (1 ≤ owners d w)%nat in Hd.
    destruct (ch_open0 d Hd). split; [done|]. assert (d ≠ c) by (intros ->; lia). set_solver.
  - intros d. rewrite elem_of_union, elem_of_singleton. intros [->|?]; auto.
  - done.
Qed.

Lemma upd_chan_ok f w :
  queueChanged (f (sess w)) = queueChanged (sess w) → quit (f (sess w)) = quit (sess w) →
  turnDone (f (sess w)) = turnDone (sess w) → chan_ok w → chan_ok (upd f w).
Proof. intros. apply (chan_ok_view w); done || lia. Qed.

Lemma setHeld_chan_ok b p w : chan_ok w → chan_ok (setHeld b p w).
Proof. intros. apply (chan_ok_view w); done || lia. Qed.

Lemma newTurn_chan_ok t w : chan_ok w → chan_ok (newTurn t w).2.
Proof. intros. apply (chan_ok_view w); cbn; done || lia. Qed.

(** The close of a channel field together with the clearing of the field. *)
Lemma drop_turnDone_chan_ok w :
  chan_ok w → chan_ok (upd (λ s, s <| turnDone := None |>) (closeOpt (turnDone (sess w)) w)).
Proof.
  intros Hok. rewrite closeOpt_eq by (intros c; by apply owned_turnDone). chan_solve Hok.
Qed.

Lemma drop_quit_chan_ok w :
  chan_ok w → chan_ok (upd (λ s, s <| quit := None |>) (closeOpt (quit (sess w)) w)).
Proof.
  intros Hok. rewrite closeOpt_eq by (intros c; by apply owned_quit). chan_solve Hok.
Qed.

Lemma startWorker_chan_ok w : chan_ok w → chan_ok (startWorker w).
Proof.
  intros Hok. unfold startWorker. destruct (workerUp (sess w)); [done|]. chan_solve Hok.
Qed.

Lemma beginTurn_chan_ok now w :
  state (sess w) ≠ Closed → chan_ok w → chan_ok (beginTurnLocked now w).2.
Proof.
  intros Hs Hok. unfold beginTurnLocked, State_is. rewrite bool_decide_eq_false_2 by done.
  unfold upd, applyFuture; cbn. destruct (futureConfig (sess w)); chan_solve Hok.
Qed.

(** *** Preservation of [chan_ok] *)
Lemma applyFuture_chans s :
  queueChanged (applyFuture s) = queueChanged s ∧ quit (applyFuture s) = quit s ∧
  turnDone (applyFuture s) = turnDone s.
Proof. unfold applyFuture. by destruct (futureConfig s). Qed.

Lemma submit_chan_ok id run wait ready w : chan_ok w → chan_ok (submit id run wait ready w).
Proof.
  intros Hok. unfold submit, submitReady.
  destruct (State_is _ _); [done|].
  apply startWorker_chan_ok in Hok. revert Hok. generalize (startWorker w). clear w. intros w Hok.
  destruct (negb _ && _); [done|].
  destruct (_ <? _)%nat.
  - apply signal_chan_ok. apply upd_chan_ok; try done. by apply newTurn_chan_ok.
  - destruct wait; [|done]. by apply (chan_ok_view w); try done.
Qed.

Lemma finishReserved_chan_ok p r w : chan_ok w → chan_ok (finishReserved p r w).
Proof.
  intros Hok. unfold finishReserved. apply signal_chan_ok.
  assert (chan_ok (if held w p then upd (λ s, s <| queueHolds := queueHolds s - 1 |>)
            (setHeld false p w) else w)) as Hok'.
  { destruct (held w p); [|done]. apply upd_chan_ok; try done. by apply setHeld_chan_ok. }
  revert Hok'. generalize (if held w p then upd (λ s, s <| queueHolds := queueHolds s - 1 |>)
            (setHeld false p w) else w). clear. intros w Hok.
  destruct r; [|done]. destruct (list_find _ _) as [[]|]; [|done]. by apply upd_chan_ok.
Qed.

Lemma setHelds_view l w :
  let w' := fold_left (λ w p, setHeld false p w) l w in
  sess w' = sess w ∧ workers w' = workers w ∧ closures w' = closures w ∧
  closed w' = closed w ∧ fresh w' = fresh w ∧ panicked w' = panicked w ∧
  waiters w' = waiters w ∧ started w' = started w.
Proof.
  revert w; induction l as [|p l IH]; intros w; simpl; [done|].
  destruct (IH (setHeld false p w)) as (-> & -> & -> & -> & -> & -> & -> & ->). done.
Qed.

Lemma setHelds_chan_ok l w :
  chan_ok w → chan_ok (fold_left (λ w p, setHeld false p w) l w).
Proof. revert w; induction l as [|p l IH]; intros w H; [done|]. by apply IH, setHeld_chan_ok. Qed.

(** Assignments to session fields that hold no channel. *)
Section inert_fields.
Context (w : world).
Hypothesis Hok : chan_ok w.
Lemma set_state_chan_ok st : chan_ok (upd (λ s, s <| state := st |>) w).
Proof using Hok. by apply upd_chan_ok. Qed.
Lemma set_mailbox_holds_chan_ok l h :
  chan_ok (upd (λ s, s <| mailbox := l |> <| queueHolds := h |>) w).
Proof using Hok. by apply upd_chan_ok. Qed.
Lemma set_workerUp_chan_ok b : chan_ok (upd (λ s, s <| workerUp := b |>) w).
Proof using Hok. by apply upd_chan_ok. Qed.
End inert_fields.

Lemma Close_chan_ok w : chan_ok w → chan_ok (Close w).
Proof.
  intros Hok. unfold Close. destruct (State_is _ _); [done|].
  apply set_workerUp_chan_ok, signal_chan_ok, set_mailbox_holds_chan_ok, setHelds_chan_ok,
    drop_quit_chan_ok, drop_turnDone_chan_ok. by apply set_state_chan_ok.
Qed.

Lemma DeferActive_chan_ok id ready run w : chan_ok w → chan_ok (DeferActiveNamed id ready run w).1.
Proof.
  intros Hok. unfold DeferActiveNamed. destruct (turnDone (sess w)) as [d|] eqn:Hd; [|done].
  destruct (_ || _); [done|]. simpl. apply signal_chan_ok.
  destruct (chan_cases w d Hok) as [[E _]|(E & Hf & Hn)].
  { unfold owners in E. rewrite Hd, is_chan_self in E. lia. }
  apply closeChan_chan_ok.
  - chan_solve Hok.
  - cbn. lia.
  - done.
  - unfold owners in *. rewrite Hd, is_chan_self in E. cbn - [is_chan].
    rewrite (is_chan_ne d None) by done. lia.
Qed.

Lemma PrepareEnd_chan_ok now w : chan_ok w → chan_ok (PrepareEndTurn now w).
Proof.
  intros Hok. unfold PrepareEndTurn.
  assert (chan_ok (if IsStreaming (sess w)
                   then upd (λ s, applyFuture (s <| state := Idle |>)) w else w)) as Hok'.
  { destruct (IsStreaming (sess w)); [|done].
    destruct (applyFuture_chans ((sess w) <| state := Idle |>)) as (H1 & H2 & H3).
    by apply upd_chan_ok. }
  revert Hok'. generalize (if IsStreaming (sess w)
     then upd (λ s, applyFuture (s <| state := Idle |>)) w else w). clear. intros w Hok.
  destruct (turnDone (sess w)) eqn:E; chan_solve Hok.
Qed.

Lemma dropClosure_chan_ok w i x :
  closures w !! i = Some x → chan_ok w → chan_ok (w <| closures := delete i (closures w) |>).
Proof.
  intros Hi Hok. apply chan_ok_intro; [by destruct Hok|]. intros c.
  pose proof (countb_delete (cl_release c) _ _ _ Hi) as Hc.
  destruct (chan_cases w c Hok) as [[E ?]|(E & ? & ?)]; unfold owners in *; cbn in *.
  - left. split; [lia|done].
  - destruct (decide (countb (cl_release c) (closures w)
                      = countb (cl_release c) (delete i (closures w)))).
    + right. split_and!; [lia|lia|done].
    + left. split; [lia|done].
Qed.

Lemma runClosure_chan_ok i x remove w :
  closures w !! i = Some x → chan_ok w →
  chan_ok (runClosure x remove (w <| closures := delete i (closures w) |>)).
Proof.
  intros Hi Hok. pose proof (dropClosure_chan_ok _ _ _ Hi Hok) as Hok'.
  destruct x as [p| | |[d|]]; simpl.
  - by apply finishReserved_chan_ok.
  - unfold releaseHold. apply signal_chan_ok. destruct (State_is _ _); [done|].
    by apply upd_chan_ok.
  - unfold releaseConfiguration. apply signal_chan_ok. destruct (State_is _ _);
      repeat (apply upd_chan_ok; [done..|]); done.
  - pose proof (countb_delete (cl_release d) _ _ _ Hi) as Hc.
    rewrite cl_release_self in Hc. simpl in Hc.
    destruct (chan_cases w d Hok) as [[E _]|(E & ? & ?)]; unfold owners in *; simpl in *; [lia|].
    apply closeChan_chan_ok; cbn; try done. unfold owners; cbn. lia.
  - done.
Qed.

Lemma dequeue_chan_ok now item w :
  state (sess w) ≠ Closed → chan_ok w → chan_ok (dequeue now item w).1.
Proof.
  intros Hs Hok. unfold dequeue.
  match goal with |- context [beginTurnLocked now ?x] =>
    pose proof (beginTurn_chan_ok now x Hs) as H; destruct (beginTurnLocked now x) as [d w'] end.
  apply signal_chan_ok, H. by apply upd_chan_ok.
Qed.

(** A step of a worker other than its exit leaves the exit channel owned. *)
Lemma setPc_chan_ok w i k p :
  workers w !! i = Some k → p ≠ WGone → pc k ≠ WGone →
  chan_ok w → chan_ok (w <| workers := <[i := k <| pc := p |>]> (workers w) |>).
Proof.
  intros Hi Hp Hk Hok. apply chan_ok_intro; [by destruct Hok|]. intros c.
  pose proof (countb_insert (w_exits c) _ _ _ (k <| pc := p |>) Hi) as Hc.
  assert (w_exits c k = w_exits c (k <| pc := p |>)) as E.
  { unfold w_exits; cbn. destruct (pc k), p; done. }
  rewrite E in Hc. destruct (chan_cases w c Hok) as [[? ?]|(? & ? & ?)];
    unfold owners in *; cbn in *; [left|right]; split_and!; try lia; done.
Qed.

Lemma closeOpt_view o w :
  let w' := closeOpt o w in
  sess w' = sess w ∧ heap w' = heap w ∧ fresh w' = fresh w ∧ workers w' = workers w ∧
  waiters w' = waiters w ∧ closures w' = closures w ∧ started w' = started w.
Proof. destruct o; simpl; [|done]. unfold closeChan. by case_bool_decide. Qed.

Lemma signal_view w :
  let w' := signalQueueLocked w in
  sess w' = (sess w) <| queueChanged := Some (fresh w) |> ∧ heap w' = heap w ∧
  workers w' = workers w ∧ waiters w' = waiters w ∧ closures w' = closures w ∧
  started w' = started w.
Proof.
  unfold signalQueueLocked. cbn.
  destruct (closeOpt_view (queueChanged (sess w)) w) as (-> & -> & -> & -> & -> & -> & ->). done.
Qed.

Lemma dequeue_workers now item w : workers (dequeue now item w).1 = workers w.
Proof.
  unfold dequeue, beginTurnLocked, State_is. case_bool_decide; cbn - [signalQueueLocked closeChan].
  all: match goal with |- workers (signalQueueLocked ?x) = _ =>
         destruct (signal_view x) as (_ & _ & -> & _) end.
  - unfold closeChan. by case_bool_decide.
  - done.
Qed.

(** What a critical section of the worker can do: leave the world alone, or
    take the head of an admissible queue. *)
Lemma workerTop_cases now w w' p :
  workerTop now w = (w', p) →
  (w' = w ∧ state (sess w) = Closed ∧ p = WExit) ∨
  (w' = w ∧ state (sess w) ≠ Closed ∧ p = WSleep (queueChanged (sess w)) ∧
     (mailbox (sess w) = [] ∨ 0 < queueHolds (sess w))) ∨
  (∃ item rest, state (sess w) ≠ Closed ∧ mailbox (sess w) = item :: rest ∧
     queueHolds (sess w) ≤ 0 ∧ ((w' = w ∧ p = WAsk item) ∨ dequeue now item w = (w', p))).
Proof.
  unfold workerTop, State_is. intros H. case_bool_decide; simplify_eq/=; [tauto|].
  destruct (mailbox (sess w)) as [|item rest] eqn:E; simplify_eq/=; [tauto|].
  destruct (Z.ltb_spec 0 (queueHolds (sess w))); simplify_eq; [tauto|].
  right; right. exists item, rest. split_and!; try done; try lia.
  destruct (match heap w !! item with Some _ => _ | None => _ end); simplify_eq; tauto.
Qed.

Lemma workerAnswered_cases now item b w w' p :
  workerAnswered now item b w = (w', p) →
  (w' = w ∧ p = WTop) ∨
  (w' = w ∧ state (sess w) ≠ Closed ∧ b = false ∧ p = WRetry (queueChanged (sess w))) ∨
  (∃ rest, b = true ∧ state (sess w) ≠ Closed ∧ mailbox (sess w) = item :: rest ∧
     queueHolds (sess w) ≤ 0 ∧ dequeue now item w = (w', p)).
Proof.
  unfold workerAnswered, State_is. intros H.
  destruct (bool_decide_reflect (state (sess w) = Closed)); simplify_eq/=; [tauto|].
  destruct (bool_decide_reflect (head (mailbox (sess w)) = Some item)) as [E|]; simplify_eq/=; [|tauto].
  destruct (Z.ltb_spec 0 (queueHolds (sess w))); simplify_eq/=; [tauto|].
  destruct b; simplify_eq/=; [|tauto]. right; right.
  destruct (mailbox (sess w)) as [|q rest]; simplify_eq/=. exists rest. split_and!; done || lia.
Qed.

Lemma dequeue_pc now item w : ∃ d, (dequeue now item w).2 = WRun item d.
Proof. unfold dequeue. destruct (beginTurnLocked _ _) as [d w']. by exists d. Qed.

Lemma workerStep_chan_ok k i ch w w' p :
  workers w !! i = Some k → workerStep k ch w = Some (w', p) → chan_ok w →
  chan_ok (w' <| workers := <[i := k <| pc := p |>]> (workers w') |>).
Proof.
  intros Hi Hs Hok.
  assert ((p = WGone ∧ pc k = WExit ∧ w' = closeChan (wexited k) w) ∨
          (p ≠ WGone ∧ pc k ≠ WGone ∧ workers w' = workers w ∧ chan_ok w'))
    as [(-> & Hk & ->)|(Hp & Hk & Hw & Hok')].
  - assert (∀ now item, state (sess w) ≠ Closed → dequeue now item w = (w', p) →
              p ≠ WGone ∧ workers w' = workers w ∧ chan_ok w') as Hdq.
    { intros now item Hst Hd. pose proof (dequeue_workers now item w) as H1.
      pose proof (dequeue_chan_ok now item w Hst Hok) as H2.
      destruct (dequeue_pc now item w) as [d H3]. rewrite Hd in H1, H2, H3. naive_solver. }
    unfold workerStep in Hs.
    destruct (pc k) eqn:Hk, ch; simplify_eq; try (by right);
      try (guards_in Hs; right; by split_and!).
    + right. apply workerTop_cases in Hs.
      destruct Hs as [(-> & ? & ->)|[(-> & ? & -> & ?)|(it & rest & ? & ? & ? & [[-> ->]|Hd])]];
        try done. split_and!; [|done|..]; by eapply Hdq.
    + right. apply workerAnswered_cases in Hs.
      destruct Hs as [(-> & ->)|[(-> & ? & ? & ->)|(rest & ? & ? & ? & ? & Hd)]]; try done.
      split_and!; [|done|..]; by eapply Hdq.
    + right. split_and!; try done. by apply (chan_ok_view w).
    + right. split_and!; try done. by apply upd_chan_ok.
    + left. done.
  - pose proof (countb_insert (w_exits (wexited k)) _ _ _ (k <| pc := WGone |>) Hi) as Hc.
    rewrite (w_exits_self k), w_exits_gone in Hc by (by rewrite Hk). simpl in Hc.
    destruct (chan_cases w (wexited k) Hok) as [[E _]|(E & Hf & Hn)];
      [unfold owners in E; simpl in Hc; lia|].
    rewrite closeChan_open by done.
    assert (chan_ok (closeChan (wexited k) (w <| workers := <[i:=k <| pc := WGone |>]> (workers w) |>)))
      as Hok'; [|by rewrite closeChan_open in Hok'].
    apply closeChan_chan_ok; cbn; try done.
    + apply chan_ok_intro; [by destruct Hok|]. intros c.
      pose proof (countb_insert (w_exits c) _ _ _ (k <| pc := WGone |>) Hi) as Hc'.
      rewrite w_exits_gone in Hc'; simpl in Hc'.
      destruct (chan_cases w c Hok) as [[E1 ?]|(E1 & ? & ?)]; unfold owners in *; cbn in *.
      * left. split; [lia|done].
      * destruct (w_exits c k); simpl in Hc'; [left|right]; split_and!; try lia; done.
    + unfold owners in *; cbn in *. lia.
  - apply setPc_chan_ok; [by rewrite Hw|done..].
Qed.

Lemma addClosure_chan_ok w l x :
  (∀ c, cl_release c x = false) → l = closures w → chan_ok w →
  chan_ok (w <| closures := l ++ [x] |>).
Proof.
  intros Hx -> Hok. apply chan_ok_intro; [by destruct Hok|]. intros c.
  destruct (chan_cases w c Hok) as [[? ?]|(? & ? & ?)]; unfold owners in *; cbn;
    rewrite countb_app; cbn; rewrite Hx; [left|right]; split_and!; simpl; try lia; done.
Qed.

Lemma exec_chan_ok e w w' : exec e w = Some w' → chan_ok w → chan_ok w'.
Proof.
  intros He Hok. destruct e; simpl in He; simplify_eq.
  - by apply submit_chan_ok.
  - guards_in He. apply submit_chan_ok. by apply (chan_ok_view w).
  - guards_in He. by apply (chan_ok_view w).
  - unfold reserveQueued. repeat case_match; try done. simpl.
    apply addClosure_chan_ok; [done..|]. apply upd_chan_ok; try done. by apply setHeld_chan_ok.
  - unfold CancelQueued. repeat case_match; try done. simpl.
    apply signal_chan_ok. by apply upd_chan_ok.
  - by apply DeferActive_chan_ok.
  - by apply PrepareEnd_chan_ok.
  - unfold MarkStopping. case_match; [|done]. by apply upd_chan_ok.
  - unfold RestoreStreamingAfterUnconfirmedStop. case_match; [done|]. by apply upd_chan_ok.
  - by apply Close_chan_ok.
  - unfold HoldQueue. case_match; [done|]. apply addClosure_chan_ok; [done..|]. by apply upd_chan_ok.
  - unfold ReserveConfiguration. repeat case_match; try done; simpl;
      (apply addClosure_chan_ok; [done..|]); repeat (apply upd_chan_ok; try done);
      apply applyFuture_chans.
  - guards_in He. by eapply runClosure_chan_ok.
  - apply upd_chan_ok; try done; unfold SetFutureConfiguration; by repeat case_match.
  - by apply upd_chan_ok.
  - apply upd_chan_ok; try done; unfold ActivateQueuedConfiguration; by repeat case_match.
  - guards_in He. by eapply workerStep_chan_ok.
Qed.
