(* ===== verification/TurnMailbox.v ===== *)
(** * Mailbox and reservations of the turn queue

    The waiting turns are distinct, have distinct ids, and stay within the
    bound; the hold counter is exactly the number of reservation closures
    still to be called, and a reserved turn stays in the mailbox. *)

From S2P Require Import Prelude Session TurnQueue TurnChannels.

Record queue_ok (w : world) : Prop := {
  q_heap : ∀ p, is_Some (heap w !! p) → (p < fresh w)%nat;
  q_alloc : ∀ p, p ∈ mailbox (sess w) → is_Some (heap w !! p);
  q_nodup : NoDup (mailbox (sess w));
  q_ids : ∀ p q t u, p ∈ mailbox (sess w) → q ∈ mailbox (sess w) →
    heap w !! p = Some t → heap w !! q = Some u → qid t = qid u → qid t ≠ "" → p = q;
  q_active : ∀ p t, turnDone (sess w) ≠ None → p ∈ mailbox (sess w) →
    heap w !! p = Some t → qid t ≠ "" → qid t ≠ activeQueuedID (sess w);
  q_len : (length (mailbox (sess w)) ≤ mailboxSize + 1)%nat;
  q_len' : turnDone (sess w) ≠ None → (length (mailbox (sess w)) ≤ mailboxSize)%nat;
  q_phase : IsStreaming (sess w) = true ↔ turnDone (sess w) ≠ None;
  q_closed : state (sess w) = Closed → mailbox (sess w) = [] }.

Definition is_hold (x : closure) : bool := match x with CRelease _ => false | _ => true end.
Definition is_finish (p : ptr) (x : closure) : bool :=
  match x with CFinish q => bool_decide (q = p) | _ => false end.
Definition is_config (x : closure) : bool := match x with CConfig => true | _ => false end.

Record hold_ok (w : world) : Prop := {
  h_closed : state (sess w) = Closed → queueHolds (sess w) = 0;
  h_count : state (sess w) ≠ Closed →
    queueHolds (sess w) = Z.of_nat (countb is_hold (closures w));
  h_held : state (sess w) ≠ Closed →
    ∀ p, countb (is_finish p) (closures w) = Nat.b2n (held w p);
  h_in : ∀ p, held w p = true → p ∈ mailbox (sess w);
  h_config : countb is_config (closures w) = Nat.b2n (configUpdating (sess w)) }.

(** ** Worlds that agree on what the mailbox invariant reads *)
Lemma queue_ok_ext w w' :
  heap w' = heap w → (fresh w ≤ fresh w')%nat → mailbox (sess w') = mailbox (sess w) →
  turnDone (sess w') = turnDone (sess w) → activeQueuedID (sess w') = activeQueuedID (sess w) →
  state (sess w') = state (sess w) → queue_ok w → queue_ok w'.
Proof.
  intros Hh Hf Hm Ht Ha Hs []. split; unfold IsStreaming in *;
    rewrite ?Hh, ?Hm, ?Ht, ?Ha, ?Hs; try done.
  intros p Hp. specialize (q_heap0 p Hp). lia.
Qed.

Lemma hold_ok_ext w w' :
  heap w' = heap w → mailbox (sess w') = mailbox (sess w) →
  queueHolds (sess w') = queueHolds (sess w) → configUpdating (sess w') = configUpdating (sess w) →
  state (sess w') = state (sess w) → closures w' = closures w → hold_ok w → hold_ok w'.
Proof.
  intros Hh Hm Hq Hc Hs Hl []. split; unfold held in *;
    rewrite ?Hh, ?Hm, ?Hq, ?Hc, ?Hs, ?Hl; done.
Qed.

Lemma signal_fresh w : fresh (signalQueueLocked w) = S (fresh w).
Proof.
  unfold signalQueueLocked. cbn.
  by destruct (closeOpt_view (queueChanged (sess w)) w) as (_ & _ & -> & _).
Qed.

Lemma signal_queue_ok w : queue_ok w → queue_ok (signalQueueLocked w).
Proof.
  destruct (signal_view w) as (H1 & H2 & _). apply queue_ok_ext; rewrite ?H1; try done.
  unfold signalQueueLocked. destruct (closeOpt_view (queueChanged (sess w)) w) as (_ & _ & H & _).
  cbn. rewrite H. lia.
Qed.

Lemma signal_hold_ok w : hold_ok w → hold_ok (signalQueueLocked w).
Proof.
  destruct (signal_view w) as (H1 & H2 & H3 & H4 & H5 & H6).
  apply hold_ok_ext; by rewrite ?H1, ?H5.
Qed.

Lemma closeOpt_queue_ok o w : queue_ok w → queue_ok (closeOpt o w).
Proof.
  destruct (closeOpt_view o w) as (H1 & H2 & H3 & _). apply queue_ok_ext; rewrite ?H1; done || lia.
Qed.

Lemma closeOpt_hold_ok o w : hold_ok w → hold_ok (closeOpt o w).
Proof.
  destruct (closeOpt_view o w) as (H1 & H2 & H3 & H4 & H5 & H6 & H7).
  apply hold_ok_ext; by rewrite ?H1, ?H6.
Qed.

Lemma startWorker_queue_ok w : queue_ok w → queue_ok (startWorker w).
Proof.
  unfold startWorker. destruct (workerUp (sess w)); [done|].
  apply queue_ok_ext; cbn; done || lia.
Qed.

Lemma startWorker_hold_ok w : hold_ok w → hold_ok (startWorker w).
Proof. unfold startWorker. destruct (workerUp (sess w)); [done|]. by apply hold_ok_ext. Qed.

(** ** The reservation flag of a turn *)
Lemma setHeld_lookup b p q w :
  heap (setHeld b p w) !! q =
    if decide (p = q) then (λ t, t <| qheld := b |>) <$> heap w !! q else heap w !! q.
Proof. unfold setHeld; cbn. rewrite lookup_alter. case_decide; by subst. Qed.

Lemma held_setHeld b p q w :
  is_Some (heap w !! p) →
  held (setHeld b p w) q = if decide (p = q) then b else held w q.
Proof.
  intros [t Ht]. unfold held. rewrite setHeld_lookup. case_decide; [|done]. subst. by rewrite Ht.
Qed.

Lemma setHeld_qid b p q w t :
  heap (setHeld b p w) !! q = Some t → ∃ u, heap w !! q = Some u ∧ qid t = qid u.
Proof.
  rewrite setHeld_lookup. case_decide; [|by eauto].
  destruct (heap w !! q); simpl; [|done]. intros [= <-]. by eauto.
Qed.

Lemma setHeld_is_Some b p q w : is_Some (heap (setHeld b p w) !! q) ↔ is_Some (heap w !! q).
Proof. rewrite setHeld_lookup. case_decide; [|done]. apply fmap_is_Some. Qed.

Lemma setHeld_queue_ok b p w : queue_ok w → queue_ok (setHeld b p w).
Proof.
  intros []. split; try done.
  - intros q. rewrite setHeld_is_Some. apply q_heap0.
  - intros q Hq. rewrite setHeld_is_Some. by apply q_alloc0.
  - intros q1 q2 t u H1 H2 Ht Hu.
    apply setHeld_qid in Ht as (t' & Ht & ->). apply setHeld_qid in Hu as (u' & Hu & ->).
    by apply q_ids0.
  - intros q t H1 H2 Ht. apply setHeld_qid in Ht as (t' & Ht & ->).
    exact (q_active0 q t' H1 H2 Ht).
Qed.

Lemma setHelds_queue_ok l w :
  queue_ok w → queue_ok (fold_left (λ w p, setHeld false p w) l w).
Proof. revert w; induction l as [|p l IH]; intros w H; [done|]. by apply IH, setHeld_queue_ok. Qed.

Lemma setHelds_held l w p :
  held (fold_left (λ w p, setHeld false p w) l w) p =
    if decide (p ∈ l) then false else held w p.
Proof.
  revert w; induction l as [|q l IH]; intros w; cbn [fold_left].
  - case_decide as H; [by apply elem_of_nil in H|done].
  - rewrite IH. destruct (decide (p ∈ l)).
    { by rewrite decide_True by (right; done). }
    unfold held. rewrite setHeld_lookup. destruct (decide (q = p)) as [->|].
    + rewrite decide_True by left. by destruct (heap w !! p).
    + by rewrite decide_False by (intros [->|?]%elem_of_cons; done).
Qed.

(** ** Looking an id up in the mailbox *)
Lemma findItem_Some h id l i p :
  findItem h id l = Some (i, p) → l !! i = Some p ∧ ∃ t, h !! p = Some t ∧ qid t = id.
Proof.
  revert i; induction l as [|q l IH]; intros i H; simpl in H; [done|].
  destruct (h !! q) as [t|] eqn:E.
  - destruct (bool_decide_reflect (qid t = id)); simplify_eq/=; [by eauto|].
    destruct (findItem h id l) as [[j r]|]; simplify_eq. by apply IH.
  - destruct (findItem h id l) as [[j r]|]; simplify_eq. by apply IH.
Qed.

Lemma findItem_None h id l :
  findItem h id l = None → ∀ p t, p ∈ l → h !! p = Some t → qid t ≠ id.
Proof.
  induction l as [|q l IH]; simpl; intros H p t Hp Ht; [set_solver|].
  apply elem_of_cons in Hp as [->|Hp].
  - rewrite Ht in H. by case_bool_decide.
  - destruct (h !! q) as [u|]; [case_bool_decide; [done|]|];
      destruct (findItem h id l) as [[]|]; try done; by eapply IH.
Qed.

(** ** The ways a mailbox changes

    Each lemma is about a world [w'] that differs from [w] by the listed
    assignments; what it does to channels and closures does not matter. *)
Lemma fresh_notin w : queue_ok w → heap w !! fresh w = None ∧ fresh w ∉ mailbox (sess w).
Proof.
  intros []. assert (heap w !! fresh w = None) as E.
  { destruct (heap w !! fresh w) eqn:E; [|done]. specialize (q_heap0 (fresh w)).
    rewrite E in q_heap0. assert (fresh w < fresh w)%nat by eauto. lia. }
  split; [done|]. intros H%q_alloc0. rewrite E in H. by destruct H.
Qed.

Section new_turn.
Context (w w' : world) (t : queuedTurn).
Hypothesis Hq : queue_ok w.
Hypothesis Hheap : heap w' = <[fresh w := t]> (heap w).
Hypothesis Hfresh : (S (fresh w) ≤ fresh w')%nat.

Lemma new_heap_bound p : is_Some (heap w' !! p) → (p < fresh w')%nat.
Proof using All.
  rewrite Hheap. intros Hp. destruct (decide (p = fresh w)) as [->|]; [lia|].
  rewrite lookup_insert_ne in Hp by done. pose proof (q_heap w Hq p Hp). lia.
Qed.

Lemma new_self : heap w' !! fresh w = Some t.
Proof using All. by rewrite Hheap, lookup_insert_eq. Qed.

Lemma new_old p : p ∈ mailbox (sess w) → heap w' !! p = heap w !! p.
Proof using All.
  intros Hp. rewrite Hheap, lookup_insert_ne; [done|]. intros E. rewrite <- E in Hp.
  by apply (fresh_notin w).
Qed.

Hypothesis Hst : state (sess w) ≠ Closed.

(** An admission at the back, of an id that neither runs nor waits. *)
Lemma append_queue_ok :
  mailbox (sess w') = mailbox (sess w) ++ [fresh w] →
  turnDone (sess w') = turnDone (sess w) → activeQueuedID (sess w') = activeQueuedID (sess w) →
  state (sess w') = state (sess w) → (length (mailbox (sess w)) < mailboxSize)%nat →
  (qid t ≠ "" → activeQueuedID (sess w) ≠ qid t ∧
   ∀ p u, p ∈ mailbox (sess w) → heap w !! p = Some u → qid u ≠ qid t) →
  queue_ok w'.
Proof using All.
  intros Hm Hd Ha Hs Hlen Hid. pose proof (fresh_notin w Hq) as [Hf1 Hf2].
  pose proof new_self as Hself. pose proof new_old as Hold.
  pose proof Hq as []. split; unfold IsStreaming in *; rewrite ?Hm, ?Hd, ?Ha, ?Hs.
  - apply new_heap_bound.
  - intros p [Hp| ->%list_elem_of_singleton]%elem_of_app; [rewrite Hold by done; auto|].
  rewrite Hself. eauto.
  - apply NoDup_app; split_and!; [done| |apply NoDup_singleton].
  intros x Hx ->%list_elem_of_singleton. done.
  - intros p q a b [Hp| ->%list_elem_of_singleton]%elem_of_app
  [Hq'| ->%list_elem_of_singleton]%elem_of_app; rewrite ?Hself, ?Hold by done;
  intros; simplify_eq; try done.
  + by eapply q_ids0.
  + exfalso. destruct Hid as [_ Hid]; [congruence|]. by eapply Hid.
  + exfalso. destruct Hid as [_ Hid]; [congruence|]. by eapply Hid.
  - intros p a Ht [Hp| ->%list_elem_of_singleton]%elem_of_app; rewrite ?Hself, ?Hold by done;
  intros; simplify_eq; [by eapply q_active0|]. destruct Hid as [Hid _]; congruence.
  - rewrite length_app. unfold mailboxSize in *. simpl. lia.
  - intros _. rewrite length_app. unfold mailboxSize in *. simpl. lia.
  - done.
  - done.
Qed.

(** A turn that was not submitted goes back to the front, under its own id. *)
Lemma putBack_queue_ok :
  mailbox (sess w') = fresh w :: mailbox (sess w) → turnDone (sess w') = None →
  state (sess w') = Idle → turnDone (sess w) ≠ None → qid t = activeQueuedID (sess w) →
  queue_ok w'.
Proof using All.
  intros Hm Hd Hs Hdone Hid. pose proof (fresh_notin w Hq) as [Hf1 Hf2].
  pose proof new_self as Hself. pose proof new_old as Hold.
  pose proof Hq as []. split; unfold IsStreaming in *; rewrite ?Hm, ?Hd, ?Hs.
  - apply new_heap_bound.
  - intros p [->|Hp]%elem_of_cons; [rewrite Hself; eauto|]. rewrite Hold by done. auto.
  - by constructor.
  - intros p q a b [->|Hp]%elem_of_cons [->|Hq']%elem_of_cons; rewrite ?Hself, ?Hold by done;
  intros; simplify_eq; try done.
  + exfalso. eapply (q_active0 q b); congruence.
  + exfalso. eapply (q_active0 p a); congruence.
  + by eapply q_ids0.
  - done.
  - specialize (q_len'0 Hdone). unfold mailboxSize in *. simpl. lia.
  - done.
  - cbn. split; [done|by intros []].
  - done.
Qed.
End new_turn.

Section same_heap.
Context (w w' : world).
Hypothesis Hq : queue_ok w.
Hypothesis Hheap : heap w' = heap w.
Hypothesis Hfresh : (fresh w ≤ fresh w')%nat.

(** A withdrawn turn: some position of the mailbox disappears. *)
Lemma delete_queue_ok i :
  mailbox (sess w') = delete i (mailbox (sess w)) →
  turnDone (sess w') = turnDone (sess w) → activeQueuedID (sess w') = activeQueuedID (sess w) →
  state (sess w') = state (sess w) → queue_ok w'.
Proof using All.
  intros Hm Hd Ha Hs.
  assert (∀ p, p ∈ delete i (mailbox (sess w)) → p ∈ mailbox (sess w)) as Hsub.
  { intros p Hp. eapply elem_of_submseteq; [exact Hp|]. apply sublist_submseteq, sublist_delete. }
  assert (length (delete i (mailbox (sess w))) ≤ length (mailbox (sess w)))%nat as Hlen.
  { apply sublist_length, sublist_delete. }
  pose proof Hq as []. split; unfold IsStreaming in *; rewrite ?Hheap, ?Hm, ?Hd, ?Ha, ?Hs; eauto.
  - intros p Hp. specialize (q_heap0 p Hp). lia.
  - eapply sublist_NoDup; [done|apply sublist_delete].
  - lia.
  - intros H. specialize (q_len'0 H). lia.
  - intros ->%q_closed0. done.
Qed.

(** The head is taken and its turn begins. *)
Lemma take_queue_ok item rest t d :
  mailbox (sess w) = item :: rest → heap w !! item = Some t →
  mailbox (sess w') = rest → activeQueuedID (sess w') = qid t →
  state (sess w') = Streaming → turnDone (sess w') = Some d → queue_ok w'.
Proof using All.
  intros Hm Ht Hm' Ha Hs Hd. pose proof Hq as [].
  rewrite Hm in *. apply NoDup_cons in q_nodup0 as [Hni Hnd].
  split; unfold IsStreaming in *; rewrite ?Hheap, ?Hm', ?Hd, ?Ha, ?Hs.
  - intros p Hp. specialize (q_heap0 p Hp). lia.
  - intros p Hp. apply q_alloc0. by right.
  - done.
  - intros p q a b Hp Hq'. apply q_ids0; by right.
  - intros p a _ Hp Hpa Hne Heq. apply Hni.
  rewrite (q_ids0 item p t a); [done|by left|by right|done|done|done|congruence].
  - simpl in q_len0. unfold mailboxSize in *. lia.
  - intros _. simpl in q_len0. unfold mailboxSize in *. lia.
  - cbn. split; [done|]. done.
  - done.
Qed.

(** The turn ends, or the session closes: no completion signal is left. *)
Lemma end_queue_ok :
  mailbox (sess w') = mailbox (sess w) ∨ mailbox (sess w') = [] →
  turnDone (sess w') = None → IsStreaming (sess w') = false →
  (state (sess w') = Closed → mailbox (sess w') = []) → queue_ok w'.
Proof using All.
  intros Hm Hd Hs Hc. pose proof Hq as []. split; rewrite ?Hheap, ?Hd, ?Hs; try done.
  - intros p Hp. specialize (q_heap0 p Hp). lia.
  - intros p Hp. destruct Hm as [Hm|Hm]; rewrite Hm in Hp; [auto|by apply elem_of_nil in Hp].
  - destruct Hm as [->| ->]; [done|constructor].
  - intros p q a b Hp Hq'. destruct Hm as [Hm|Hm]; rewrite Hm in Hp, Hq'; [eauto|].
  by apply elem_of_nil in Hp.
  - unfold mailboxSize in *. destruct Hm as [->| ->]; simpl; lia.
Qed.

(** Assignments that keep the phase. *)
Lemma phase_queue_ok :
  mailbox (sess w') = mailbox (sess w) → turnDone (sess w') = turnDone (sess w) →
  activeQueuedID (sess w') = activeQueuedID (sess w) ∨ activeQueuedID (sess w') = "" →
  IsStreaming (sess w') = IsStreaming (sess w) →
  (state (sess w') = Closed ↔ state (sess w) = Closed) → queue_ok w'.
Proof using All.
  intros Hm Hd Ha Hs Hc. pose proof Hq as []. split; rewrite ?Hheap, ?Hm, ?Hd, ?Hs; try done.
  - intros p Hp. specialize (q_heap0 p Hp). lia.
  - intros p t Ht Hp Hpt. destruct Ha as [->| ->]; [by apply q_active0 with p|done].
  - intros H. by apply q_closed0, Hc.
Qed.
End same_heap.

(** ** Preservation of the mailbox invariant *)
Lemma startWorker_view w :
  let w' := startWorker w in
  heap w' = heap w ∧ (fresh w ≤ fresh w')%nat ∧ mailbox (sess w') = mailbox (sess w) ∧
  turnDone (sess w') = turnDone (sess w) ∧ activeQueuedID (sess w') = activeQueuedID (sess w) ∧
  state (sess w') = state (sess w) ∧ closures w' = closures w ∧ waiters w' = waiters w ∧
  queueHolds (sess w') = queueHolds (sess w) ∧ configUpdating (sess w') = configUpdating (sess w).
Proof. unfold startWorker. destruct (workerUp (sess w)); cbn; split_and!; done || lia. Qed.

Lemma State_is_true a b : State_is a b = true ↔ a = b.
Proof. unfold State_is. apply bool_decide_eq_true. Qed.
Lemma State_is_false a b : State_is a b = false ↔ a ≠ b.
Proof. unfold State_is. apply bool_decide_eq_false. Qed.

Lemma submit_queue_ok id run wait ready w : queue_ok w → queue_ok (submit id run wait ready w).
Proof.
  intros Hq. unfold submit, submitReady.
  destruct (State_is _ _) eqn:Hst; [done|]. apply State_is_false in Hst.
  assert (queue_ok (startWorker w)) as Hq' by by apply startWorker_queue_ok.
  assert (state (sess (startWorker w)) ≠ Closed) as Hst'.
  { by destruct (startWorker_view w) as (_ & _ & _ & _ & _ & -> & _). }
  revert Hq' Hst'. generalize (startWorker w). clear w Hq Hst. intros w Hq Hst.
  destruct (negb (str_empty id) && _) eqn:Hdup; [done|].
  destruct (Nat.ltb_spec (length (mailbox (sess w))) mailboxSize) as [Hlt|].
  - apply signal_queue_ok.
    apply (append_queue_ok w _ (mkTurn id run false ready)); try done.
    cbn. intros Hne. unfold str_empty in Hdup. rewrite bool_decide_eq_false_2 in Hdup by done.
    simpl in Hdup. bool_facts. split; [done|].
    intros p u Hp Hu. eapply findItem_None; [|done..].
    destruct (findItem _ _ _); [|done]. exfalso. eauto.
  - destruct wait; [|done]. by apply (queue_ok_ext w).
Qed.

Lemma list_find_ptr (p : nat) l i q : list_find (λ x, x = p) l = Some (i, q) → q = p ∧ l !! i = Some p.
Proof. intros (Hi & -> & _)%list_find_Some. done. Qed.

Lemma finishReserved_queue_ok p r w : queue_ok w → queue_ok (finishReserved p r w).
Proof.
  intros Hq. unfold finishReserved. apply signal_queue_ok.
  assert (queue_ok (if held w p then upd (λ s, s <| queueHolds := queueHolds s - 1 |>)
            (setHeld false p w) else w)) as Hq'.
  { destruct (held w p); [|done].
    apply (queue_ok_ext (setHeld false p w)); try done. by apply setHeld_queue_ok. }
  revert Hq'. generalize (if held w p then upd (λ s, s <| queueHolds := queueHolds s - 1 |>)
            (setHeld false p w) else w). clear. intros w Hq.
  destruct r; [|done]. destruct (list_find _ _) as [[i ?]|]; [|done].
  by eapply (delete_queue_ok w _ Hq) with (i := i).
Qed.

Lemma beginTurn_view now w :
  state (sess w) ≠ Closed →
  let '(d, w') := beginTurnLocked now w in
  heap w' = heap w ∧ (fresh w ≤ fresh w')%nat ∧ mailbox (sess w') = mailbox (sess w) ∧
  turnDone (sess w') = Some d ∧ activeQueuedID (sess w') = activeQueuedID (sess w) ∧
  state (sess w') = Streaming ∧ closures w' = closures w ∧ waiters w' = waiters w ∧
  queueHolds (sess w') = queueHolds (sess w) ∧ configUpdating (sess w') = configUpdating (sess w) ∧
  workers w' = workers w ∧ queueChanged (sess w') = queueChanged (sess w) ∧ d = fresh w ∧
  quit (sess w') = quit (sess w) ∧ workerUp (sess w') = workerUp (sess w) ∧ closed w' = closed w ∧
  started w' = started w.
Proof.
  intros Hs. unfold beginTurnLocked, State_is. rewrite bool_decide_eq_false_2 by done.
  unfold upd, applyFuture. cbn. destruct (futureConfig (sess w)); cbn; split_and!; done || lia.
Qed.

Lemma dequeue_queue_ok now item rest w :
  queue_ok w → state (sess w) ≠ Closed → mailbox (sess w) = item :: rest →
  queue_ok (dequeue now item w).1.
Proof.
  intros Hq Hs Hm. unfold dequeue.
  assert (is_Some (heap w !! item)) as [t Ht] by (apply (q_alloc w Hq); rewrite Hm; left).
  rewrite Ht.
  match goal with |- context [beginTurnLocked now ?x] =>
    pose proof (beginTurn_view now x Hs) as H; destruct (beginTurnLocked now x) as [d w'] end.
  destruct H as (H1 & H2 & H3 & H4 & H5 & H6 & _). apply signal_queue_ok.
  eapply (take_queue_ok w w' Hq); try done. by rewrite H3; cbn; rewrite Hm.
Qed.

Lemma Defer_queue_ok id ready run w : queue_ok w → queue_ok (DeferActiveNamed id ready run w).1.
Proof.
  intros Hq. unfold DeferActiveNamed. destruct (turnDone (sess w)) as [d|] eqn:Hd; [|done].
  destruct (_ || _) eqn:Hg; [done|].
  apply orb_false_iff in Hg as [[Hid Hact]%orb_false_iff Hst]. bool_facts.
  apply State_is_true in Hst. apply signal_queue_ok. apply (closeOpt_queue_ok (Some d)).
  eapply (putBack_queue_ok w _ (mkTurn id run false ready)); try done; by rewrite ?Hd, ?Hst.
Qed.

Lemma applyFuture_view s :
  let s' := applyFuture s in
  mailbox s' = mailbox s ∧ turnDone s' = turnDone s ∧ activeQueuedID s' = activeQueuedID s ∧
  state s' = state s ∧ queueHolds s' = queueHolds s ∧ configUpdating s' = configUpdating s ∧
  queueChanged s' = queueChanged s ∧ quit s' = quit s ∧ workerUp s' = workerUp s.
Proof. unfold applyFuture. by destruct (futureConfig s). Qed.

(** The session after the first phase of the end of a turn. *)
Lemma PrepareEnd_view now w :
  let w' := PrepareEndTurn now w in
  heap w' = heap w ∧ fresh w' = fresh w ∧ mailbox (sess w') = mailbox (sess w) ∧
  turnDone (sess w') = None ∧ activeQueuedID (sess w') = activeQueuedID (sess w) ∧
  state (sess w') = (if IsStreaming (sess w) then Idle else state (sess w)) ∧
  closures w' = closures w ++ [CRelease (turnDone (sess w))] ∧ waiters w' = waiters w ∧
  queueHolds (sess w') = queueHolds (sess w) ∧ configUpdating (sess w') = configUpdating (sess w) ∧
  workers w' = workers w ∧ queueChanged (sess w') = queueChanged (sess w) ∧
  quit (sess w') = quit (sess w) ∧ workerUp (sess w') = workerUp (sess w) ∧ closed w' = closed w.
Proof.
  unfold PrepareEndTurn. destruct (IsStreaming (sess w)); cbn; [|done].
  destruct (applyFuture_view ((sess w) <| state := Idle |>))
    as (-> & -> & -> & -> & -> & -> & -> & -> & ->). done.
Qed.

Lemma IsStreaming_state s : IsStreaming s = true ↔ state s = Streaming ∨ state s = Stopping.
Proof. unfold IsStreaming. rewrite orb_true_iff, !State_is_true. done. Qed.

Lemma PrepareEnd_queue_ok now w : queue_ok w → queue_ok (PrepareEndTurn now w).
Proof.
  intros Hq. destruct (PrepareEnd_view now w) as (H1 & H2 & H3 & H4 & H5 & H6 & _).
  apply (end_queue_ok w); try done; [lia|by left| |].
  - apply not_true_iff_false. rewrite IsStreaming_state, H6.
    destruct (IsStreaming (sess w)) eqn:E; [naive_solver|].
    intros H. apply IsStreaming_state in H. congruence.
  - rewrite H3, H6. destruct (IsStreaming (sess w)); [done|]. apply (q_closed w Hq).
Qed.

Definition unhold (l : list ptr) (h : gmap ptr queuedTurn) : gmap ptr queuedTurn :=
  fold_left (λ h p, alter (λ t, t <| qheld := false |>) p h) l h.

Lemma setHelds_heap l w :
  heap (fold_left (λ w p, setHeld false p w) l w) = unhold l (heap w).
Proof. revert w; induction l as [|p l IH]; intros w; [done|]. apply (IH (setHeld false p w)). Qed.

Lemma Close_view w :
  state (sess w) ≠ Closed →
  let w' := Close w in
  heap w' = unhold (mailbox (sess w)) (heap w) ∧ fresh w' = S (fresh w) ∧
  mailbox (sess w') = [] ∧ turnDone (sess w') = None ∧
  activeQueuedID (sess w') = activeQueuedID (sess w) ∧ state (sess w') = Closed ∧
  closures w' = closures w ∧ waiters w' = waiters w ∧ queueHolds (sess w') = 0 ∧
  configUpdating (sess w') = configUpdating (sess w) ∧ workers w' = workers w ∧
  queueChanged (sess w') = Some (fresh w) ∧ quit (sess w') = None ∧ workerUp (sess w') = false.
Proof.
  intros Hs. unfold Close, State_is. rewrite bool_decide_eq_false_2 by done.
  set (w1 := upd (λ s, s <| state := Closed |>) w).
  destruct (closeOpt_view (turnDone (sess w1)) w1) as (A1 & A2 & A3 & A4 & A5 & A6 & _).
  set (w2 := closeOpt (turnDone (sess w1)) w1) in *.
  set (w3 := upd (λ s, s <| turnDone := None |>) w2).
  destruct (closeOpt_view (quit (sess w3)) w3) as (B1 & B2 & B3 & B4 & B5 & B6 & _).
  set (w4 := closeOpt (quit (sess w3)) w3) in *.
  set (w5 := upd (λ s, s <| quit := None |>) w4).
  destruct (setHelds_view (mailbox (sess w5)) w5) as (C1 & C2 & C3 & _ & C5 & _ & C7 & _).
  pose proof (setHelds_heap (mailbox (sess w5)) w5) as C8.
  set (w6 := fold_left _ (mailbox (sess w5)) w5) in *.
  set (w7 := upd (λ s, s <| mailbox := [] |> <| queueHolds := 0 |>) w6).
  destruct (signal_view w7) as (D1 & D2 & D3 & D4 & D5 & _).
  assert (sess w5 = (sess w) <| state := Closed |> <| turnDone := None |> <| quit := None |>) as E.
  { change (sess w5) with ((sess w4) <| quit := None |>). rewrite B1.
    change (sess w3) with ((sess w2) <| turnDone := None |>). by rewrite A1. }
  pose proof (signal_fresh w7) as D7.
  assert (fresh w7 = fresh w) as F.
  { change (fresh w7) with (fresh w6). rewrite C5. change (fresh w5) with (fresh w4). rewrite B3.
    change (fresh w3) with (fresh w2). by rewrite A3. }
  assert (sess w7 = (sess w5) <| mailbox := [] |> <| queueHolds := 0 |>) as G.
  { change (sess w7) with ((sess w6) <| mailbox := [] |> <| queueHolds := 0 |>). by rewrite C1. }
  change (sess (upd (λ s, s <| workerUp := false |>) (signalQueueLocked w7)))
    with ((sess (signalQueueLocked w7)) <| workerUp := false |>).
  rewrite D1, G, E, F. split_and!; try done; cbn [upd].
  - change (heap (signalQueueLocked w7) = unhold (mailbox (sess w)) (heap w)).
    rewrite D2. change (heap w7) with (heap w6). rewrite C8, E.
    change (heap w5) with (heap w4). rewrite B2. change (heap w3) with (heap w2). by rewrite A2.
  - change (fresh (signalQueueLocked w7) = S (fresh w)). by rewrite D7, F.
  - change (closures (signalQueueLocked w7) = closures w).
    rewrite D5. change (closures w7) with (closures w6). rewrite C3.
    change (closures w5) with (closures w4). rewrite B6. change (closures w3) with (closures w2).
    by rewrite A6.
  - change (waiters (signalQueueLocked w7) = waiters w).
    rewrite D4. change (waiters w7) with (waiters w6). rewrite C7.
    change (waiters w5) with (waiters w4). rewrite B5. change (waiters w3) with (waiters w2).
    by rewrite A5.
  - change (workers (signalQueueLocked w7) = workers w).
    rewrite D3. change (workers w7) with (workers w6). rewrite C2.
    change (workers w5) with (workers w4). rewrite B4. change (workers w3) with (workers w2).
    by rewrite A4.
Qed.

Lemma Close_closed w : state (sess w) = Closed → Close w = w.
Proof. intros H. unfold Close, State_is. by rewrite bool_decide_eq_true_2. Qed.

Lemma Close_queue_ok w : queue_ok w → queue_ok (Close w).
Proof.
  intros Hq. destruct (decide (state (sess w) = Closed)) as [E|E]; [by rewrite Close_closed|].
  destruct (Close_view w E) as (H1 & H2 & H3 & H4 & H5 & H6 & _).
  pose proof (setHelds_queue_ok (mailbox (sess w)) w Hq) as Hq'.
  apply (end_queue_ok _ (Close w) Hq').
  - by rewrite H1, setHelds_heap.
  - destruct (setHelds_view (mailbox (sess w)) w) as (_ & _ & _ & _ & -> & _). lia.
  - by right.
  - done.
  - apply not_true_iff_false. rewrite IsStreaming_state, H6. naive_solver.
  - done.
Qed.

Lemma runClosure_queue_ok i x r w :
  queue_ok w → queue_ok (runClosure x r (w <| closures := delete i (closures w) |>)).
Proof.
  intros Hq. assert (queue_ok (w <| closures := delete i (closures w) |>)) as Hq'
    by by apply (queue_ok_ext w).
  revert Hq'. generalize (w <| closures := delete i (closures w) |>). clear. intros w Hq.
  destruct x; simpl.
  - by apply finishReserved_queue_ok.
  - unfold releaseHold. apply signal_queue_ok. case_match; [done|]. by apply (queue_ok_ext w).
  - unfold releaseConfiguration. apply signal_queue_ok. case_match; by apply (queue_ok_ext w).
  - by apply closeOpt_queue_ok.
Qed.

Lemma workerStep_queue_ok k ch w w' p :
  workerStep k ch w = Some (w', p) → queue_ok w → queue_ok w'.
Proof.
  intros Hs Hq.
  assert (∀ now item rest, state (sess w) ≠ Closed → mailbox (sess w) = item :: rest →
            dequeue now item w = (w', p) → queue_ok w') as Hdq.
  { intros now item rest Hst Hm Hd. pose proof (dequeue_queue_ok now item rest w Hq Hst Hm) as H.
    by rewrite Hd in H. }
  unfold workerStep in Hs. destruct (pc k), ch; simplify_eq; try done; try by guards_in Hs.
  - apply workerTop_cases in Hs.
    destruct Hs as [(-> & _)|[(-> & _)|(it & rest & ? & ? & ? & [[-> _]|Hd])]]; eauto.
  - apply workerAnswered_cases in Hs.
    destruct Hs as [(-> & _)|[(-> & _)|(rest & ? & ? & ? & ? & Hd)]]; eauto.
  - by apply (queue_ok_ext w).
  - apply (phase_queue_ok w); try done. by right.
  - by apply (closeOpt_queue_ok (Some (wexited k))).
Qed.

Definition reserved (p : ptr) (w : world) : world :=
  (upd (λ s, s <| queueHolds := queueHolds s + 1 |>) (setHeld true p w))
    <| closures := closures w ++ [CFinish p] |>.

Lemma reserve_cases id ra ex w :
  ((reserveQueued id ra ex w).1 = w ∧ is_Some (reserveQueued id ra ex w).2) ∨
  ∃ p, p ∈ mailbox (sess w) ∧ (∃ t, heap w !! p = Some t ∧ qid t = id) ∧ held w p = false ∧
    (reserveQueued id ra ex w).1 = reserved p w ∧ (reserveQueued id ra ex w).2 = None.
Proof.
  unfold reserveQueued. repeat case_match; simplify_eq/=; eauto.
  right. match goal with H : findItem _ _ _ = Some _ |- _ => apply findItem_Some in H as [? ?] end.
  eexists. split_and!; eauto. by eapply list_elem_of_lookup_2.
Qed.

Lemma exec_queue_ok e w w' : exec e w = Some w' → queue_ok w → queue_ok w'.
Proof.
  intros He Hq. destruct e; simpl in He; simplify_eq.
  - by apply submit_queue_ok.
  - guards_in He. apply submit_queue_ok. by apply (queue_ok_ext w).
  - guards_in He. by apply (queue_ok_ext w).
  - destruct (reserve_cases id requireActive exclusive w) as [[-> _]|(p & _ & _ & _ & -> & _)]; [done|].
    apply (queue_ok_ext (setHeld true p w)); try done. by apply setHeld_queue_ok.
  - unfold CancelQueued. repeat case_match; try done. simpl.
    apply signal_queue_ok. by eapply (delete_queue_ok w _ Hq).
  - by apply Defer_queue_ok.
  - by apply PrepareEnd_queue_ok.
  - unfold MarkStopping. case_match eqn:E; [|done]. apply State_is_true in E.
    apply (phase_queue_ok w); try done; [by left| |]; unfold IsStreaming; cbn; rewrite E; done.
  - unfold RestoreStreamingAfterUnconfirmedStop. case_match eqn:E; [done|].
    apply orb_false_iff in E as [E%negb_false_iff%State_is_true _].
    apply (phase_queue_ok w); try done; [by left| |]; unfold IsStreaming; cbn; rewrite E; done.
  - by apply Close_queue_ok.
  - unfold HoldQueue. case_match; [done|]. by apply (queue_ok_ext w).
  - unfold ReserveConfiguration. repeat case_match; try done; simpl;
      destruct (applyFuture_view (sess w)) as (? & ? & ? & ? & _);
      by apply (queue_ok_ext w).
  - guards_in He. by apply runClosure_queue_ok.
  - apply (queue_ok_ext w); try done; unfold SetFutureConfiguration; cbn; by repeat case_match.
  - by apply (queue_ok_ext w).
  - apply (queue_ok_ext w); try done; unfold ActivateQueuedConfiguration; cbn; by repeat case_match.
  - destruct (workers w !! i) as [k|]; [|done].
    destruct (workerStep k ch w) as [[w1 p]|] eqn:E; simplify_eq.
    apply (queue_ok_ext w1); try done. by eapply workerStep_queue_ok.
Qed.

(** ** Preservation of the reservation invariant *)
Lemma held_bound w p : queue_ok w → held w p = true → (p < fresh w)%nat.
Proof.
  unfold held. intros Hq H. apply (q_heap w Hq). by destruct (heap w !! p).
Qed.

(** A new turn is not reserved. *)
Lemma new_hold_ok w w' t :
  queue_ok w → hold_ok w → qheld t = false → heap w' = <[fresh w := t]> (heap w) →
  (∀ p, p ∈ mailbox (sess w) → p ∈ mailbox (sess w')) →
  queueHolds (sess w') = queueHolds (sess w) → configUpdating (sess w') = configUpdating (sess w) →
  (state (sess w') = Closed ↔ state (sess w) = Closed) → closures w' = closures w → hold_ok w'.
Proof.
  intros Hq Hh Ht Hp Hm Hc Hu Hs Hl.
  assert (∀ p, held w' p = held w p) as Hheld.
  { intros p. unfold held. rewrite Hp. destruct (decide (p = fresh w)) as [->|].
    - rewrite lookup_insert_eq, Ht. destruct (fresh_notin w Hq) as [-> _]. done.
    - by rewrite lookup_insert_ne. }
  pose proof Hh as []. split; rewrite ?Hc, ?Hu, ?Hl, ?Hs; try done.
  - intros H p. rewrite Hheld. by apply h_held0.
  - intros p. rewrite Hheld. auto.
Qed.

Lemma submit_hold_ok id run wait ready w :
  queue_ok w → hold_ok w → hold_ok (submit id run wait ready w).
Proof.
  intros Hq Hh. unfold submit, submitReady. destruct (State_is _ _); [done|].
  apply startWorker_queue_ok in Hq. apply startWorker_hold_ok in Hh.
  revert Hq Hh. generalize (startWorker w). clear w. intros w Hq Hh.
  destruct (negb _ && _); [done|]. destruct (_ <? _)%nat.
  - apply signal_hold_ok. apply (new_hold_ok w _ (mkTurn id run false ready) Hq Hh); try reflexivity.
    intros p Hp. cbn. apply elem_of_app. by left.
  - destruct wait; [|done]. by apply (hold_ok_ext w).
Qed.

Lemma reserved_hold_ok p w :
  queue_ok w → hold_ok w → state (sess w) ≠ Closed → p ∈ mailbox (sess w) →
  held w p = false → hold_ok (reserved p w).
Proof.
  intros Hq Hh Hst Hp Hn. pose proof (q_alloc w Hq p Hp) as Ha. pose proof Hh as [].
  assert (∀ q, held (reserved p w) q = if decide (p = q) then true else held w q) as Hheld.
  { intros q. by rewrite <- (held_setHeld true p q w Ha). }
  split.
  - intros H. by destruct Hst.
  - intros _. change (queueHolds (sess w) + 1 = Z.of_nat (countb is_hold (closures w ++ [CFinish p]))).
    rewrite countb_app, h_count0 by done. simpl. lia.
  - intros _ q. rewrite Hheld.
    change (countb (is_finish q) (closures w ++ [CFinish p]) =
              Nat.b2n (if decide (p = q) then true else held w q)).
    rewrite countb_app, h_held0 by done. cbn. destruct (decide (p = q)) as [->|].
    + rewrite Hn, bool_decide_eq_true_2 by done. done.
    + rewrite bool_decide_eq_false_2 by done. simpl. lia.
  - intros q. rewrite Hheld. case_decide; [by subst|apply h_in0].
  - change (countb is_config (closures w ++ [CFinish p]) = Nat.b2n (configUpdating (sess w))).
    rewrite countb_app, <- h_config0. simpl. lia.
Qed.

(** One hold more, or one less, with its closure. *)
Lemma hold_more_ok w w' x :
  hold_ok w → state (sess w) ≠ Closed → state (sess w') = state (sess w) →
  heap w' = heap w → mailbox (sess w') = mailbox (sess w) →
  queueHolds (sess w') = queueHolds (sess w) + 1 → closures w' = closures w ++ [x] →
  (x = CHold ∧ configUpdating (sess w') = configUpdating (sess w) ∨
   x = CConfig ∧ configUpdating (sess w) = false ∧ configUpdating (sess w') = true) →
  hold_ok w'.
Proof.
  intros [] Hst Hs Hh Hm Hq Hc Hx. split; unfold held in *;
    rewrite ?Hh, ?Hm, ?Hq, ?Hc, ?Hs, ?countb_app; try done.
  - intros H. rewrite h_count0 by done. destruct Hx as [[-> _]|[-> _]]; simpl; lia.
  - intros H p. rewrite countb_app, h_held0 by done. destruct Hx as [[-> _]|[-> _]]; simpl; lia.
  - rewrite h_config0. destruct Hx as [[-> ->]|(-> & -> & ->)]; simpl; lia.
Qed.

Lemma hold_less_ok w w' i x :
  hold_ok w → closures w !! i = Some x → (x = CHold ∨ x = CConfig) →
  closures w' = delete i (closures w) → state (sess w') = state (sess w) →
  heap w' = heap w → mailbox (sess w') = mailbox (sess w) →
  queueHolds (sess w') = (if State_is (state (sess w)) Closed then queueHolds (sess w)
                          else queueHolds (sess w) - 1) →
  configUpdating (sess w') = (match x with CConfig => false | _ => configUpdating (sess w) end) →
  hold_ok w'.
Proof.
  intros [] Hi Hx Hc Hs Hh Hm Hq Hu. unfold State_is in Hq.
  pose proof (countb_delete is_hold _ _ _ Hi) as E1.
  pose proof (countb_delete is_config _ _ _ Hi) as E2.
  pose proof (λ p, countb_delete (is_finish p) _ _ _ Hi) as E3.
  split; unfold held in *; rewrite ?Hh, ?Hm, ?Hc, ?Hs, ?Hu; try done.
  - intros H. rewrite Hq, bool_decide_eq_true_2 by done. auto.
  - intros H. rewrite Hq, bool_decide_eq_false_2, h_count0 by done.
    destruct Hx as [-> | ->]; simpl in E1; lia.
  - intros H p. rewrite <- h_held0 by done. specialize (E3 p).
    destruct Hx as [-> | ->]; simpl in E3; lia.
  - destruct Hx as [-> | ->]; simpl in E2; [lia|].
    destruct (configUpdating (sess w)); simpl in *; lia.
Qed.

Lemma release_hold_ok w i d :
  closures w !! i = Some (CRelease d) → hold_ok w →
  hold_ok (w <| closures := delete i (closures w) |>).
Proof.
  intros Hi []. pose proof (countb_delete is_hold _ _ _ Hi) as E1.
  pose proof (countb_delete is_config _ _ _ Hi) as E2.
  pose proof (λ p, countb_delete (is_finish p) _ _ _ Hi) as E3.
  split; cbn in *; try done.
  - intros H. rewrite h_count0 by done. lia.
  - intros H p. specialize (E3 p). rewrite <- E3. by apply h_held0.
  - lia.
Qed.

(** Removing an unreserved turn from the mailbox. *)
Lemma remove_hold_ok w w' i p :
  hold_ok w → held w p = false → mailbox (sess w) !! i = Some p →
  heap w' = heap w → mailbox (sess w') = delete i (mailbox (sess w)) →
  queueHolds (sess w') = queueHolds (sess w) → configUpdating (sess w') = configUpdating (sess w) →
  state (sess w') = state (sess w) → closures w' = closures w → hold_ok w'.
Proof.
  intros [] Hp Hi Hh Hm Hq Hu Hs Hc. split; unfold held in *; rewrite ?Hh, ?Hm, ?Hq, ?Hu, ?Hs, ?Hc;
    try done.
  intros q Hq'. assert (q ≠ p) as Hne by (intros ->; congruence).
  pose proof (h_in0 q Hq') as [j Hj]%list_elem_of_lookup.
  pose proof (delete_Permutation _ _ _ Hi) as HP.
  assert (q ∈ mailbox (sess w)) as Hin by (by eapply list_elem_of_lookup_2).
  rewrite HP in Hin. by apply elem_of_cons in Hin as [?|?].
Qed.

(** The hold of a reservation is given back when its closure runs. *)
Lemma unreserve_hold_ok w i p :
  closures w !! i = Some (CFinish p) → state (sess w) ≠ Closed → queue_ok w → hold_ok w →
  let w' := upd (λ s, s <| queueHolds := queueHolds s - 1 |>)
              (setHeld false p (w <| closures := delete i (closures w) |>)) in
  held w p = true ∧ hold_ok w' ∧ held w' p = false.
Proof.
  intros Hi Hst Hq Hok w'. pose proof Hok as [].
  pose proof (countb_delete is_hold _ _ _ Hi) as E1.
  pose proof (countb_delete is_config _ _ _ Hi) as E2.
  pose proof (λ p, countb_delete (is_finish p) _ _ _ Hi) as E3.
  assert (held w p = true) as Hp.
  { specialize (E3 p). rewrite h_held0 in E3 by done. unfold is_finish in E3.
    rewrite bool_decide_eq_true_2 in E3 by done. by destruct (held w p). }
  pose proof (q_alloc w Hq p (h_in0 p Hp)) as Ha.
  assert (∀ q, held w' q = if decide (p = q) then false else held w q) as Hheld.
  { intros q. by rewrite <- (held_setHeld false p q w Ha). }
  split_and!; [done| |by rewrite Hheld, decide_True].
  split.
  - intros H. by destruct Hst.
  - intros _. change (queueHolds (sess w) - 1 = Z.of_nat (countb is_hold (delete i (closures w)))).
    rewrite h_count0 by done. simpl in E1. lia.
  - intros _ q. rewrite Hheld. change (closures w') with (delete i (closures w)).
    specialize (E3 q). rewrite h_held0 in E3 by done. unfold is_finish at 1 in E3.
    destruct (decide (p = q)) as [->|].
    + rewrite bool_decide_eq_true_2 in E3 by done. rewrite Hp in E3. simpl in *. lia.
    + rewrite bool_decide_eq_false_2 in E3 by done. simpl in *. lia.
  - intros q. rewrite Hheld. case_decide; [done|]. apply h_in0.
  - change (countb is_config (delete i (closures w)) = Nat.b2n (configUpdating (sess w))).
    simpl in E2. lia.
Qed.

Lemma drop_closed_hold_ok w i x :
  closures w !! i = Some x → is_config x = false →
  state (sess w) = Closed → hold_ok w → hold_ok (w <| closures := delete i (closures w) |>).
Proof.
  intros Hi Hx Hst []. pose proof (countb_delete is_config _ _ _ Hi) as E2.
  split; cbn; try done. rewrite Hx in E2. simpl in E2. lia.
Qed.

Lemma not_held_empty w p : hold_ok w → mailbox (sess w) = [] → held w p = false.
Proof.
  intros Hok Hm. destruct (held w p) eqn:E; [|done].
  apply (h_in w Hok) in E. rewrite Hm in E. by apply elem_of_nil in E.
Qed.

Lemma finish_hold_ok w i p r :
  closures w !! i = Some (CFinish p) → queue_ok w → hold_ok w →
  hold_ok (finishReserved p r (w <| closures := delete i (closures w) |>)).
Proof.
  intros Hi Hq Hok. unfold finishReserved. apply signal_hold_ok.
  change (held (w <| closures := delete i (closures w) |>) p) with (held w p).
  destruct (decide (state (sess w) = Closed)) as [Hst|Hst].
  - pose proof (q_closed w Hq Hst) as Hm. rewrite (not_held_empty w p Hok Hm).
    assert (hold_ok (w <| closures := delete i (closures w) |>))
      by by eapply drop_closed_hold_ok.
    destruct r; [|done].
    assert (mailbox (sess (w <| closures := delete i (closures w) |>)) = []) as -> by exact Hm.
    done.
  - destruct (unreserve_hold_ok w i p Hi Hst Hq Hok) as (-> & Hok' & Hp).
    set (w' := upd _ _) in *. destruct r; [|done].
    destruct (list_find _ _) as [[j q]|] eqn:E; [|done].
    apply list_find_ptr in E as [-> Hj].
    by apply (remove_hold_ok w' _ j p).
Qed.

Lemma Defer_hold_ok id ready run w :
  queue_ok w → hold_ok w → hold_ok (DeferActiveNamed id ready run w).1.
Proof.
  intros Hq Hok. unfold DeferActiveNamed. destruct (turnDone (sess w)) as [d|] eqn:Hd; [|done].
  destruct (_ || _) eqn:Hg; [done|].
  apply orb_false_iff in Hg as [_ Hst]. bool_facts. apply State_is_true in Hst.
  apply signal_hold_ok, (closeOpt_hold_ok (Some d)).
  apply (new_hold_ok w _ (mkTurn id run false ready) Hq Hok); try reflexivity.
  - intros p Hp. by right.
  - cbn. rewrite Hst. done.
Qed.

(** The first phase of the end of a turn hands out one more release. *)
Lemma PrepareEnd_hold_ok now w : queue_ok w → hold_ok w → hold_ok (PrepareEndTurn now w).
Proof.
  intros Hq []. destruct (PrepareEnd_view now w) as
    (H1 & _ & H3 & _ & _ & H6 & H7 & _ & H9 & H10 & _).
  assert (state (sess (PrepareEndTurn now w)) = Closed ↔ state (sess w) = Closed) as Hst.
  { rewrite H6. destruct (IsStreaming (sess w)) eqn:E; [|done].
    apply IsStreaming_state in E. split; [done|]. intros Hc. rewrite Hc in E. by destruct E. }
  split; unfold held in *; rewrite ?H1, ?H3, ?H7, ?H9, ?H10, ?Hst, ?countb_app; cbn; try done;
    try lia.
  - intros H. rewrite h_count0 by done. lia.
  - intros H p. rewrite countb_app, h_held0 by done. simpl. lia.
Qed.

Lemma Close_hold_ok w : queue_ok w → hold_ok w → hold_ok (Close w).
Proof.
  intros Hq Hok. destruct (decide (state (sess w) = Closed)) as [E|E]; [by rewrite Close_closed|].
  destruct (Close_view w E) as (H1 & _ & H3 & _ & _ & H6 & H7 & _ & H9 & H10 & _).
  pose proof Hok as []. split; rewrite ?H6, ?H7, ?H9, ?H10; try done.
  intros p. unfold held. rewrite H1, <- setHelds_heap.
  change (held (fold_left (λ w p, setHeld false p w) (mailbox (sess w)) w) p = true →
          p ∈ mailbox (sess (Close w))).
  rewrite setHelds_held. destruct (decide _) as [|Hn]; [done|]. by intros ?%h_in0.
Qed.

(** Nothing is dequeued while a reservation is pending. *)
Lemma holds_none w :
  hold_ok w → state (sess w) ≠ Closed → queueHolds (sess w) ≤ 0 →
  ∀ p, held w p = false.
Proof.
  intros [] Hst Hle p. rewrite h_count0 in Hle by done.
  destruct (held w p) eqn:E; [|done]. exfalso.
  assert (1 ≤ countb (is_finish p) (closures w))%nat as Hc by (rewrite h_held0, E by done; done).
  apply countb_pos_inv in Hc as (x & Hx & Hf).
  assert (1 ≤ countb is_hold (closures w))%nat; [|lia].
  apply (countb_pos _ _ x Hx). by destruct x.
Qed.

Lemma dequeue_hold_ok now item rest w :
  queue_ok w → hold_ok w → state (sess w) ≠ Closed → queueHolds (sess w) ≤ 0 →
  mailbox (sess w) = item :: rest → hold_ok (dequeue now item w).1.
Proof.
  intros Hq Hok Hst Hle Hm. unfold dequeue.
  pose proof (holds_none w Hok Hst Hle) as Hn. pose proof Hok as [].
  match goal with |- context [beginTurnLocked now ?x] =>
    pose proof (beginTurn_view now x Hst) as H; destruct (beginTurnLocked now x) as [d w'] end.
  destruct H as (H1 & _ & H3 & _ & _ & H6 & H7 & _ & H9 & H10 & _).
  apply signal_hold_ok. cbn in H1, H3, H7, H9, H10.
  split; unfold held in *; rewrite ?H1, ?H3, ?H6, ?H7, ?H9, ?H10; try done; auto.
  intros p Hp. by rewrite Hn in Hp.
Qed.

Lemma workerStep_hold_ok k ch w w' p :
  workerStep k ch w = Some (w', p) → queue_ok w → hold_ok w → hold_ok w'.
Proof.
  intros Hs Hq Hok.
  assert (∀ now item rest, state (sess w) ≠ Closed → queueHolds (sess w) ≤ 0 →
            mailbox (sess w) = item :: rest → dequeue now item w = (w', p) → hold_ok w') as Hdq.
  { intros now item rest Hst Hle Hm Hd.
    pose proof (dequeue_hold_ok now item rest w Hq Hok Hst Hle Hm) as H. by rewrite Hd in H. }
  unfold workerStep in Hs. destruct (pc k), ch; simplify_eq; try done; try by guards_in Hs.
  - apply workerTop_cases in Hs.
    destruct Hs as [(-> & _)|[(-> & _)|(it & rest & ? & ? & ? & [[-> _]|Hd])]]; eauto.
  - apply workerAnswered_cases in Hs.
    destruct Hs as [(-> & _)|[(-> & _)|(rest & ? & ? & ? & ? & Hd)]]; eauto.
  - by apply (hold_ok_ext w).
  - by apply (hold_ok_ext w).
  - by apply (closeOpt_hold_ok (Some (wexited k))).
Qed.

Lemma runClosure_hold_ok i x r w :
  closures w !! i = Some x → queue_ok w → hold_ok w →
  hold_ok (runClosure x r (w <| closures := delete i (closures w) |>)).
Proof.
  intros Hi Hq Hok. destruct x as [p| | |d]; simpl.
  - by apply finish_hold_ok.
  - unfold releaseHold. apply signal_hold_ok.
    apply (hold_less_ok w _ i CHold Hok Hi);
      try (cbn; by destruct (State_is (state (sess w)) Closed)). by left.
  - unfold releaseConfiguration. apply signal_hold_ok.
    apply (hold_less_ok w _ i CConfig Hok Hi);
      try (cbn; by destruct (State_is (state (sess w)) Closed)). by right.
  - apply closeOpt_hold_ok. by eapply release_hold_ok.
Qed.

Lemma reserveConfig_hold_ok ex w : hold_ok w → hold_ok (ReserveConfiguration ex w).1.
Proof.
  intros Hok. unfold ReserveConfiguration. destruct (_ || configUpdating _) eqn:Hg; [done|].
  repeat (apply orb_false_iff in Hg as [Hg ?]). bool_facts. apply State_is_true in Hg.
  destruct (applyFuture_view (sess w)) as (A1 & _ & _ & A4 & A5 & A6 & _).
  destruct (revision_conflict _ _); [done|]. case_match; [done|]. simpl.
  apply (hold_more_ok w _ CConfig); try done; cbn; rewrite ?A1, ?A4, ?A5; try done.
  - by rewrite Hg.
  - by right.
Qed.

Lemma exec_hold_ok e w w' : exec e w = Some w' → queue_ok w → hold_ok w → hold_ok w'.
Proof.
  intros He Hq Hok. destruct e; simpl in He; simplify_eq.
  - by apply submit_hold_ok.
  - guards_in He. apply submit_hold_ok; [by apply (queue_ok_ext w)|by apply (hold_ok_ext w)].
  - guards_in He. by apply (hold_ok_ext w).
  - destruct (reserve_cases id requireActive exclusive w)
      as [[-> _]|(p & Hp & _ & Hh & -> & _)]; [done|].
    apply reserved_hold_ok; try done. intros E. rewrite (q_closed w Hq E) in Hp.
    by apply elem_of_nil in Hp.
  - unfold CancelQueued. destruct (findItem _ _ _) as [[i p]|] eqn:E; [|done].
    apply findItem_Some in E as [Hi _]. destruct (held w p) eqn:Hp; [done|]. simpl.
    apply signal_hold_ok. by apply (remove_hold_ok w _ i p).
  - by apply Defer_hold_ok.
  - by apply PrepareEnd_hold_ok.
  - unfold MarkStopping. case_match eqn:E; [|done]. apply State_is_true in E.
    destruct Hok.
    split; cbn; try done; intros _; (apply h_count0 || apply h_held0); by rewrite E.
  - unfold RestoreStreamingAfterUnconfirmedStop. case_match eqn:E; [done|].
    apply orb_false_iff in E as [E%negb_false_iff%State_is_true _].
    destruct Hok.
    split; cbn; try done; intros _; (apply h_count0 || apply h_held0); by rewrite E.
  - by apply Close_hold_ok.
  - unfold HoldQueue. destruct (State_is _ _) eqn:E; [done|]. apply State_is_false in E.
    apply (hold_more_ok w _ CHold); try done. by left.
  - by apply reserveConfig_hold_ok.
  - guards_in He. by apply runClosure_hold_ok.
  - apply (hold_ok_ext w); try done; unfold SetFutureConfiguration; cbn; by repeat case_match.
  - by apply (hold_ok_ext w).
  - apply (hold_ok_ext w); try done; unfold ActivateQueuedConfiguration; cbn; by repeat case_match.
  - destruct (workers w !! i) as [k|]; [|done].
    destruct (workerStep k ch w) as [[w1 p]|] eqn:E; simplify_eq.
    apply (hold_ok_ext w1); try done. by eapply workerStep_hold_ok.
Qed.
