(* ===== verification/TurnWorker.v ===== *)
(** * The worker goroutine of the turn queue

    At most one worker exists; what it waits for is always something that
    will be closed, and it is never asleep past a wake-up: the channel it
    (or a blocked caller) took under the mutex is still the current one, or
    has been closed. *)

From S2P Require Import Prelude Session TurnQueue TurnChannels TurnMailbox.

(** ** The invariant *)
Definition pc_ok (w : world) (p : wpc) : Prop :=
  match p with
  | WRun _ d | WAwait d =>
      (d ∈ closed w ∨ turnDone (sess w) = Some d ∨ CRelease (Some d) ∈ closures w) ∧
      (∀ d', turnDone (sess w) = Some d' → d' = d)
  | WClear | WExit | WGone => turnDone (sess w) = None
  | WSleep c =>
      turnDone (sess w) = None ∧ activeQueuedID (sess w) = "" ∧
      ∃ ch, c = Some ch ∧
        (ch ∈ closed w ∨
         queueChanged (sess w) = Some ch ∧ (mailbox (sess w) = [] ∨ 0 < queueHolds (sess w)))
  | WTop | WAsk _ | WAnswered _ _ | WRetry _ =>
      turnDone (sess w) = None ∧ activeQueuedID (sess w) = ""
  end.

Definition waiter_ok (w : world) (k : worker) (a : waiter) : Prop :=
  waQuit a = Some (wquit k) ∧
  ∃ ch, waChanged a = Some ch ∧
    (ch ∈ closed w ∨
     queueChanged (sess w) = Some ch ∧ (mailboxSize ≤ length (mailbox (sess w)))%nat).

Record one_worker (w : world) (k : worker) : Prop := {
  k_list : workers w = [k];
  k_sig : queueChanged (sess w) ≠ None;
  k_done : workerDone (sess w) = Some (wexited k);
  k_open : state (sess w) ≠ Closed →
    workerUp (sess w) = true ∧ quit (sess w) = Some (wquit k) ∧ pc k ≠ WExit ∧ pc k ≠ WGone;
  k_closed : state (sess w) = Closed → workerUp (sess w) = false ∧ wquit k ∈ closed w;
  k_gone : pc k = WGone → wexited k ∈ closed w;
  k_pc : pc_ok w (pc k);
  k_wait : ∀ a, a ∈ waiters w → waiter_ok w k a }.

Record no_worker (w : world) : Prop := {
  n_list : workers w = [];
  n_up : workerUp (sess w) = false;
  n_quit : quit (sess w) = None;
  n_turn : turnDone (sess w) = None;
  n_wait : waiters w = [];
  n_active : activeQueuedID (sess w) = "";
  n_box : mailbox (sess w) = [] }.

Definition worker_ok (w : world) : Prop := no_worker w ∨ ∃ k, one_worker w k.

(** ** Steps of anyone but the worker *)
Record frame (w w' : world) : Prop := {
  f_workers : workers w' = workers w;
  f_wdone : workerDone (sess w') = workerDone (sess w);
  f_closed : closed w ⊆ closed w';
  f_sig : queueChanged (sess w) ≠ None → queueChanged (sess w') ≠ None;
  f_life :
    ((state (sess w') = Closed ↔ state (sess w) = Closed) ∧
       workerUp (sess w') = workerUp (sess w) ∧ quit (sess w') = quit (sess w)) ∨
    (state (sess w') = Closed ∧ state (sess w) ≠ Closed ∧ workerUp (sess w') = false ∧
       quit (sess w') = None ∧ ∀ q, quit (sess w) = Some q → q ∈ closed w');
  f_turn :
    turnDone (sess w') = turnDone (sess w) ∨
    (turnDone (sess w') = None ∧
     ∀ d, turnDone (sess w) = Some d → d ∈ closed w' ∨ CRelease (Some d) ∈ closures w');
  f_rel : ∀ d, CRelease (Some d) ∈ closures w →
    d ∈ closed w' ∨ CRelease (Some d) ∈ closures w';
  f_active : activeQueuedID (sess w') = activeQueuedID (sess w) }.

(** The step leaves the reasons to sleep alone, or it wakes the sleepers. *)
Definition calm (w w' : world) : Prop :=
  queueChanged (sess w') = queueChanged (sess w) ∧
  (mailbox (sess w) = [] → mailbox (sess w') = []) ∧
  queueHolds (sess w) ≤ queueHolds (sess w') ∧
  (length (mailbox (sess w)) ≤ length (mailbox (sess w')))%nat.
Definition woken (w w' : world) : Prop :=
  ∀ ch, queueChanged (sess w) = Some ch → ch ∈ closed w'.

Lemma frame_pc_ok w w' p : frame w w' → calm w w' ∨ woken w w' → pc_ok w p → pc_ok w' p.
Proof.
  intros [] Hcw Hp.
  assert (turnDone (sess w) = None → turnDone (sess w') = None) as Ht.
  { intros E. destruct f_turn0 as [->|[? _]]; done. }
  destruct p; simpl in *; rewrite ?f_active0; try tauto.
  - destruct Hp as (H1 & H2 & ch & -> & Hch). split_and!; auto. exists ch. split; [done|].
    destruct Hch as [Hch|[Hch Hm]]; [left; by apply f_closed0|].
    destruct Hcw as [(E & A & B & _)|Hw]; [|by left; auto].
    right. rewrite E. split; [done|]. destruct Hm; [by left; auto|right; lia].
  - destruct Hp as [Hd Hu]. split.
    + destruct Hd as [Hd|[Hd|Hd]]; [left; by apply f_closed0| |].
      * destruct f_turn0 as [->|[_ H]]; [tauto|]. specialize (H _ Hd). tauto.
      * specialize (f_rel0 _ Hd). tauto.
    + intros d' Hd'. destruct f_turn0 as [E|[E _]]; [|congruence]. rewrite E in Hd'. auto.
  - destruct Hp as [Hd Hu]. split.
    + destruct Hd as [Hd|[Hd|Hd]]; [left; by apply f_closed0| |].
      * destruct f_turn0 as [->|[_ H]]; [tauto|]. specialize (H _ Hd). tauto.
      * specialize (f_rel0 _ Hd). tauto.
    + intros d' Hd'. destruct f_turn0 as [E|[E _]]; [|congruence]. rewrite E in Hd'. auto.
Qed.

Lemma frame_waiter_ok w w' k a :
  frame w w' → calm w w' ∨ woken w w' → waiter_ok w k a → waiter_ok w' k a.
Proof.
  intros [] Hcw (Hq & ch & Hch & H). split; [done|]. exists ch. split; [done|].
  destruct H as [H|[H Hm]]; [left; by apply f_closed0|].
  destruct Hcw as [(E & _ & _ & Hl)|Hw]; [|by left; auto].
  right. rewrite E. split; [done|lia].
Qed.

Lemma frame_one_worker w w' k :
  frame w w' → calm w w' ∨ woken w w' →
  (∀ a, a ∈ waiters w' → a ∈ waiters w ∨ waiter_ok w' k a) →
  one_worker w k → one_worker w' k.
Proof.
  intros Hf Hcw Hwt Hk. pose proof Hf as []. destruct Hk. split; try congruence.
  - auto.
  - intros Hst. destruct f_life0 as [(E & -> & ->)|[E _]]; [|done]. apply k_open0. tauto.
  - intros Hst. destruct f_life0 as [(E & -> & _)|(_ & Hn & -> & _ & Hq)].
    + destruct k_closed0 as [? ?]; [tauto|]. split; [done|by apply f_closed0].
    + split; [done|]. apply Hq. by apply k_open0.
  - intros H. apply f_closed0. auto.
  - by apply (frame_pc_ok w).
  - intros a Ha. destruct (Hwt a Ha) as [Hin|]; [|done].
    apply (frame_waiter_ok w); auto.
Qed.

Lemma frame_no_worker w w' :
  frame w w' → waiters w' = waiters w → mailbox (sess w') = [] → no_worker w → no_worker w'.
Proof.
  intros [] Hw Hm []. split; try congruence.
  - destruct f_life0 as [(_ & -> & _)|(_ & _ & -> & _)]; done.
  - destruct f_life0 as [(_ & _ & ->)|(_ & _ & _ & -> & _)]; done.
  - destruct f_turn0 as [->|[-> _]]; done.
Qed.

Lemma tame_ok w w' :
  frame w w' → calm w w' ∨ woken w w' → waiters w' = waiters w →
  (mailbox (sess w) = [] → mailbox (sess w') = []) → worker_ok w → worker_ok w'.
Proof.
  intros Hf Hcw Hwt Hm [Hn|[k Hk]].
  - left. apply (frame_no_worker w); auto. apply Hm, Hn.
  - right. exists k. apply (frame_one_worker w); auto. rewrite Hwt. auto.
Qed.

Lemma closeOpt_closed o w : closed (closeOpt o w) = also_closed o (closed w).
Proof.
  destruct o as [c|]; simpl; [|done]. unfold closeChan. case_bool_decide; [|done].
  apply leibniz_equiv. set_solver.
Qed.

Lemma signal_closed w :
  closed (signalQueueLocked w) = also_closed (queueChanged (sess w)) (closed w).
Proof. unfold signalQueueLocked. cbn. apply closeOpt_closed. Qed.

(** A critical section that ends with [signalQueueLocked]. *)
Lemma signal_frame w w1 :
  queueChanged (sess w1) = queueChanged (sess w) → frame w w1 →
  frame w (signalQueueLocked w1) ∧ woken w (signalQueueLocked w1) ∧
  waiters (signalQueueLocked w1) = waiters w1 ∧
  mailbox (sess (signalQueueLocked w1)) = mailbox (sess w1).
Proof.
  intros Hq []. destruct (signal_view w1) as (E1 & E2 & E3 & E4 & E5 & E6).
  pose proof (signal_closed w1) as E7. rewrite Hq in E7.
  assert (closed w1 ⊆ closed (signalQueueLocked w1)) as Hsub.
  { intros x Hx. rewrite E7. apply elem_of_also_closed. by right. }
  split_and!; [|intros ch Hch; rewrite E7; apply elem_of_also_closed; by left|done|by rewrite E1].
  split; rewrite ?E1, ?E3, ?E5; cbn; try done.
  - by etrans.
  - destruct f_life0 as [?|(A & B & C & D & F)]; [by left|right]. split_and!; auto.
  - destruct f_turn0 as [?|[A B]]; [by left|right]. split; [done|]. intros d Hd.
    destruct (B d Hd); [left|right]; auto.
  - intros d Hd. destruct (f_rel0 d Hd); [left|right]; auto.
Qed.

(** Session fields the worker does not look at. *)
Lemma frame_view w w' :
  workers w' = workers w → workerDone (sess w') = workerDone (sess w) →
  closed w' = closed w → queueChanged (sess w') = queueChanged (sess w) →
  (state (sess w') = Closed ↔ state (sess w) = Closed) →
  workerUp (sess w') = workerUp (sess w) → quit (sess w') = quit (sess w) →
  turnDone (sess w') = turnDone (sess w) → activeQueuedID (sess w') = activeQueuedID (sess w) →
  (∀ d, CRelease (Some d) ∈ closures w → CRelease (Some d) ∈ closures w') → frame w w'.
Proof.
  intros H1 H2 H3 H4 H5 H6 H7 H8 H9 H10. split; try done; rewrite ?H3, ?H4; try done.
  - by left.
  - by left.
  - intros d Hd. right. auto.
Qed.

Lemma frame_refl w : frame w w.
Proof. by apply frame_view. Qed.

Lemma keep_closures i x (l : list closure) :
  l !! i = Some x → (∀ d, x ≠ CRelease d) →
  ∀ d, CRelease (Some d) ∈ l → CRelease (Some d) ∈ delete i l.
Proof.
  intros Hi Hx d. rewrite (delete_Permutation _ _ _ Hi) at 1.
  intros [E|?]%elem_of_cons; [by destruct (Hx (Some d))|done].
Qed.

(** ** Steps of the callers *)
Lemma Close_sets w :
  state (sess w) ≠ Closed →
  closed (Close w) = also_closed (queueChanged (sess w))
    (also_closed (quit (sess w)) (also_closed (turnDone (sess w)) (closed w))) ∧
  workerDone (sess (Close w)) = workerDone (sess w) ∧ started (Close w) = started w.
Proof.
  intros Hs. unfold Close, State_is. rewrite bool_decide_eq_false_2 by done.
  set (w1 := upd (λ s, s <| state := Closed |>) w).
  pose proof (closeOpt_closed (turnDone (sess w1)) w1) as A.
  destruct (closeOpt_view (turnDone (sess w1)) w1) as (A1 & _ & _ & _ & _ & _ & A7).
  set (w2 := closeOpt (turnDone (sess w1)) w1) in *.
  set (w3 := upd (λ s, s <| turnDone := None |>) w2).
  pose proof (closeOpt_closed (quit (sess w3)) w3) as B.
  destruct (closeOpt_view (quit (sess w3)) w3) as (B1 & _ & _ & _ & _ & _ & B7).
  set (w4 := closeOpt (quit (sess w3)) w3) in *.
  set (w5 := upd (λ s, s <| quit := None |>) w4).
  destruct (setHelds_view (mailbox (sess w5)) w5) as (C1 & _ & _ & C4 & _ & _ & _ & C8).
  set (w6 := fold_left _ (mailbox (sess w5)) w5) in *.
  set (w7 := upd (λ s, s <| mailbox := [] |> <| queueHolds := 0 |>) w6).
  destruct (signal_view w7) as (D1 & _ & _ & _ & _ & D6). pose proof (signal_closed w7) as D.
  assert (sess w5 = (sess w) <| state := Closed |> <| turnDone := None |> <| quit := None |>) as E.
  { change (sess w5) with ((sess w4) <| quit := None |>). rewrite B1.
    change (sess w3) with ((sess w2) <| turnDone := None |>). by rewrite A1. }
  assert (sess w7 = (sess w5) <| mailbox := [] |> <| queueHolds := 0 |>) as G.
  { change (sess w7) with ((sess w6) <| mailbox := [] |> <| queueHolds := 0 |>). by rewrite C1. }
  change (sess (upd (λ s, s <| workerUp := false |>) (signalQueueLocked w7)))
    with ((sess (signalQueueLocked w7)) <| workerUp := false |>).
  split_and!; [|by rewrite D1, G, E|].
  2: { change (started (signalQueueLocked w7) = started w). rewrite D6.
       change (started w7) with (started w6). rewrite C8. change (started w5) with (started w4).
       rewrite B7. change (started w3) with (started w2). by rewrite A7. }
  change (closed (signalQueueLocked w7) = also_closed (queueChanged (sess w))
    (also_closed (quit (sess w)) (also_closed (turnDone (sess w)) (closed w)))).
  rewrite D, G, E. f_equal.
  change (closed w6 = also_closed (quit (sess w)) (also_closed (turnDone (sess w)) (closed w))).
  rewrite C4. change (closed w5) with (closed w4). rewrite B.
  change (closed w3) with (closed w2). rewrite A.
  change (quit (sess w3)) with (quit (sess w2)). by rewrite A1.
Qed.

Lemma Close_frame w :
  state (sess w) ≠ Closed → frame w (Close w) ∧ woken w (Close w).
Proof.
  intros Hs. destruct (Close_view w Hs) as
    (_ & _ & _ & H4 & H5 & H6 & H7 & _ & _ & _ & H11 & H12 & H13 & H14).
  destruct (Close_sets w Hs) as (Hc & Hd & _).
  assert (∀ c, c ∈ closed w ∨ queueChanged (sess w) = Some c ∨ quit (sess w) = Some c ∨
            turnDone (sess w) = Some c → c ∈ closed (Close w)) as Hin.
  { intros c Hx. rewrite Hc, !elem_of_also_closed. tauto. }
  split; [|intros ch Hch; apply Hin; tauto].
  split; try done.
  - intros c Hx. apply Hin. tauto.
  - intros _. by rewrite H12.
  - right. split_and!; try done. intros q Hq. apply Hin. tauto.
  - right. split; [done|]. intros d Hx. left. apply Hin. tauto.
  - intros d Hx. right. by rewrite H7.
Qed.

Lemma Close_worker_ok w : worker_ok w → worker_ok (Close w).
Proof.
  intros Hok. destruct (decide (state (sess w) = Closed)) as [E|E]; [by rewrite Close_closed|].
  destruct (Close_frame w E) as [Hf Hw].
  destruct (Close_view w E) as (_ & _ & H3 & _ & _ & _ & _ & H8 & _).
  apply (tame_ok w); auto.
Qed.

Lemma signal_tame w w1 :
  queueChanged (sess w1) = queueChanged (sess w) → frame w w1 → waiters w1 = waiters w →
  (mailbox (sess w) = [] → mailbox (sess w1) = []) →
  worker_ok w → worker_ok (signalQueueLocked w1).
Proof.
  intros Hq Hf Hw Hm Hok. destruct (signal_frame w w1 Hq Hf) as (A & B & C & D).
  apply (tame_ok w); auto; by rewrite ?C, ?D.
Qed.

Lemma PrepareEnd_worker_ok now w : queue_ok w → worker_ok w → worker_ok (PrepareEndTurn now w).
Proof.
  intros Hq Hok. destruct (PrepareEnd_view now w) as
    (_ & _ & H3 & H4 & H5 & H6 & H7 & H8 & H9 & _ & H11 & H12 & H13 & H14 & H15).
  apply (tame_ok w); try done.
  - split; try done; rewrite ?H12, ?H15; try done.
    + unfold PrepareEndTurn. destruct (IsStreaming _); [|done]. cbn.
      unfold applyFuture. cbn. by destruct (futureConfig _).
    + left. split_and!; try done. rewrite H6. destruct (IsStreaming (sess w)) eqn:E; [|done].
      apply IsStreaming_state in E. split; [done|]. intros Hc. rewrite Hc in E. by destruct E.
    + right. split; [done|]. intros d Hd. right. rewrite H7, Hd. apply elem_of_app. right. by left.
    + intros d Hd. right. rewrite H7. apply elem_of_app. by left.
  - left. split_and!; rewrite ?H3, ?H9; try done.
  - by rewrite H3.
Qed.

Lemma runClosure_worker_ok i x r w :
  closures w !! i = Some x → worker_ok w →
  worker_ok (runClosure x r (w <| closures := delete i (closures w) |>)).
Proof.
  intros Hi Hok. destruct x as [p| | |o]; simpl.
  - unfold finishReserved.
    set (w1 := if held _ p then _ else _).
    assert (frame w w1 ∧ queueChanged (sess w1) = queueChanged (sess w) ∧ waiters w1 = waiters w ∧
            mailbox (sess w1) = mailbox (sess w)) as (Hf & A & B & C).
    { subst w1. destruct (held _ p); split_and!; try done; apply frame_view; try done;
        by eapply keep_closures. }
    clearbody w1. destruct r; [destruct (list_find _ _) as [[j q]|]|]; apply (signal_tame w); try done;
      try (by rewrite C).
    + destruct Hf. split; cbn; try done.
    + cbn. rewrite C. by intros ->.
  - unfold releaseHold. apply (signal_tame w); try done; try (by case_match).
    case_match; apply frame_view; try done; by eapply keep_closures.
  - unfold releaseConfiguration. apply (signal_tame w); try done; try (by case_match).
    case_match; apply frame_view; try done; by eapply keep_closures.
  - destruct (closeOpt_view o (w <| closures := delete i (closures w) |>))
      as (A1 & _ & _ & A4 & A5 & A6 & _).
    pose proof (closeOpt_closed o (w <| closures := delete i (closures w) |>)) as A7.
    set (w1 := closeOpt _ _) in *. cbn in A7.
    apply (tame_ok w); try done; rewrite ?A1; try done.
    + assert (closed w ⊆ closed w1) as Hsub
        by (intros c Hc; rewrite A7; apply elem_of_also_closed; by right).
      split; rewrite ?A1; cbn; try done; [by left|by left|].
      intros d Hd. rewrite A6, A7. cbn. rewrite (delete_Permutation _ _ _ Hi) in Hd.
      apply elem_of_cons in Hd as [[= <-]|Hd]; [left; simpl; set_solver|by right].
    + left. unfold calm. rewrite A1. split_and!; done.
Qed.

Lemma startWorker_one w :
  worker_ok w → state (sess w) ≠ Closed → ∃ k, one_worker (startWorker w) k.
Proof.
  intros [Hn|[k Hk]] Hst.
  - unfold startWorker. rewrite (n_up w Hn). cbn. eexists. destruct Hn.
    split; cbn; rewrite ?n_list0, ?n_turn0, ?n_active0, ?n_wait0; try done.
    by intros a ?%elem_of_nil.
  - exists k. unfold startWorker. by destruct (k_open w k Hk Hst) as (-> & _).
Qed.

Lemma submit_worker_ok id run wait ready w : worker_ok w → worker_ok (submit id run wait ready w).
Proof.
  intros Hok. unfold submit, submitReady.
  destruct (State_is _ _) eqn:Hst; [done|]. apply State_is_false in Hst.
  destruct (startWorker_one w Hok Hst) as [k Hk].
  assert (state (sess (startWorker w)) ≠ Closed) as Hst'.
  { by destruct (startWorker_view w) as (_ & _ & _ & _ & _ & -> & _). }
  revert k Hk Hst'. generalize (startWorker w). clear w Hok Hst. intros w k Hk Hst.
  destruct (negb _ && _); [right; by exists k|].
  destruct (Nat.ltb_spec (length (mailbox (sess w))) mailboxSize) as [Hlt|Hge].
  - right. exists k. unfold newTurn. cbv beta iota zeta.
    match goal with |- context [signalQueueLocked ?x] => destruct (signal_frame w x) as (A & B & C & D) end.
    { done. }
    { by apply frame_view. }
    apply (frame_one_worker w); auto. intros a. rewrite C. by left.
  - right. exists k. destruct wait; [|done].
    apply (frame_one_worker w); try done; [by apply frame_view|by left|].
    cbn. intros a [?| ->%list_elem_of_singleton]%elem_of_app; [by left|right].
    split; cbn; [by apply (k_open w k Hk Hst)|].
    destruct (queueChanged (sess w)) as [ch|] eqn:Hc; [|by destruct (k_sig w k Hk)].
    exists ch. split; [done|]. by right.
Qed.

Lemma Defer_worker_ok id ready run w :
  worker_ok w → worker_ok (DeferActiveNamed id ready run w).1.
Proof.
  intros Hok. unfold DeferActiveNamed. destruct (turnDone (sess w)) as [d|] eqn:Hd; [|done].
  destruct (_ || _) eqn:Hg; [done|].
  apply orb_false_iff in Hg as [_ Hst]. bool_facts. apply State_is_true in Hst.
  destruct Hok as [Hn|[k Hk]]; [by rewrite (n_turn w Hn) in Hd|]. right. exists k.
  unfold newTurn. cbv beta iota zeta delta [fst].
  match goal with |- context [closeChan d ?x] => set (w0 := x) end.
  pose proof (closeOpt_closed (Some d) w0) as Hc. destruct (closeOpt_view (Some d) w0) as
    (A1 & _ & _ & A4 & A5 & A6 & _). simpl in *. set (w1 := closeChan d w0) in *.
  assert (frame w w1) as Hf.
  { split; rewrite ?A1, ?A6, ?Hc; cbn; try done.
    - set_solver.
    - left. by rewrite Hst.
    - right. split; [done|]. rewrite Hd. intros ? [= <-]. left. set_solver.
    - intros e He. by right. }
  assert (queueChanged (sess w1) = queueChanged (sess w)) as Hq by by rewrite A1.
  destruct (signal_frame w w1 Hq Hf) as (B1 & B2 & B3 & _).
  apply (frame_one_worker w); auto. intros a. rewrite B3, A5. by left.
Qed.

(** ** Steps of the worker *)
Lemma setPc_one_worker w k p :
  one_worker w k → pc_ok w p → (state (sess w) ≠ Closed → p ≠ WExit ∧ p ≠ WGone) →
  (p = WGone → wexited k ∈ closed w) →
  one_worker (w <| workers := [k <| pc := p |>] |>) (k <| pc := p |>).
Proof.
  intros [] Hp Ho Hg. split; cbn; try done. intros H.
  destruct (k_open0 H) as (? & ? & _), (Ho H). done.
Qed.

(** What [dequeue] leaves behind. *)
Lemma dequeue_view now item rest t w :
  state (sess w) ≠ Closed → mailbox (sess w) = item :: rest → heap w !! item = Some t →
  let w' := (dequeue now item w).1 in
  let d := fresh w in
  (dequeue now item w).2 = WRun item d ∧ turnDone (sess w') = Some d ∧
  mailbox (sess w') = rest ∧ activeQueuedID (sess w') = qid t ∧ state (sess w') = Streaming ∧
  heap w' = heap w ∧ workers w' = workers w ∧ waiters w' = waiters w ∧ closures w' = closures w ∧
  started w' = started w ∧ queueHolds (sess w') = queueHolds (sess w) ∧
  quit (sess w') = quit (sess w) ∧ workerUp (sess w') = workerUp (sess w) ∧
  workerDone (sess w') = workerDone (sess w) ∧ queueChanged (sess w') = Some (S (fresh w)) ∧
  closed w' = also_closed (queueChanged (sess w)) (closed w).
Proof.
  intros Hs Hm Ht. unfold dequeue. rewrite Ht. unfold beginTurnLocked, State_is.
  rewrite bool_decide_eq_false_2 by done. unfold upd, applyFuture, makeChan.
  cbv beta iota zeta. match goal with |- context [signalQueueLocked ?x] => set (w1 := x) end.
  pose proof (signal_closed w1) as Hc. destruct (signal_view w1) as (A1 & A2 & A3 & A4 & A5 & A6).
  cbn [fst snd]. rewrite A1, A2, A3, A4, A5, A6, Hc. subst w1. cbn.
  destruct (futureConfig (sess w)); cbn; rewrite Hm; done.
Qed.

Lemma dequeue_one_worker now item rest w k :
  queue_ok w → state (sess w) ≠ Closed → mailbox (sess w) = item :: rest →
  one_worker w k →
  let '(w', p) := dequeue now item w in
  one_worker (w' <| workers := [k <| pc := p |>] |>) (k <| pc := p |>).
Proof.
  intros Hq Hst Hm Hk. assert (is_Some (heap w !! item)) as [t Ht].
  { apply (q_alloc w Hq). rewrite Hm. left. }
  destruct (dequeue_view now item rest t w Hst Hm Ht) as
    (E1 & E2 & E3 & E4 & E5 & E6 & E7 & E8 & E9 & E10 & E11 & E12 & E13 & E14 & E15 & E16).
  destruct (dequeue now item w) as [w' p]. cbn [fst snd] in *. subst p.
  destruct Hk. destruct (k_open0 Hst) as (? & ? & _ & _).
  split; cbn; rewrite ?E15, ?E14, ?E5, ?E13, ?E12; try done.
  - split; [by right; left|]. rewrite E2. by intros ? [= <-].
  - rewrite E8. intros a Ha. destruct (k_wait0 a Ha) as (Hqa & ch & Hch & Hor).
    split; [done|]. exists ch. split; [done|]. left.
    change (ch ∈ closed w'). rewrite E16, elem_of_also_closed. tauto.
Qed.

(** The quit channel of the worker is closed only by [Close]. *)
Lemma quit_closed w k :
  chan_ok w → one_worker w k → isClosed w (Some (wquit k)) = true → state (sess w) = Closed.
Proof.
  intros Hch Hk H. destruct (decide (state (sess w) = Closed)) as [|Hst]; [done|exfalso].
  destruct (k_open w k Hk Hst) as (_ & Hq & _). apply (owned_quit w _ Hch Hq).
  by apply bool_decide_eq_true in H.
Qed.

Lemma closed_no_turn w : queue_ok w → state (sess w) = Closed → turnDone (sess w) = None.
Proof.
  intros Hq Hs. destruct (turnDone (sess w)) as [d|] eqn:E; [|done]. exfalso.
  assert (IsStreaming (sess w) = true) as H by by apply (q_phase w Hq); rewrite E.
  apply IsStreaming_state in H. rewrite Hs in H. by destruct H.
Qed.

Lemma workerStep_one_worker w k ch w' p :
  chan_ok w → queue_ok w → one_worker w k → workerStep k ch w = Some (w', p) →
  one_worker (w' <| workers := [k <| pc := p |>] |>) (k <| pc := p |>).
Proof.
  intros Hch Hq Hk Hs. pose proof (k_pc w k Hk) as Hpc.
  assert (∀ b, isClosed w (Some (wquit k)) = true → b = WExit →
            one_worker (w <| workers := [k <| pc := b |>] |>) (k <| pc := b |>)) as Hquit.
  { intros b H ->. pose proof (quit_closed w k Hch Hk H) as E.
    apply setPc_one_worker; try done. by apply closed_no_turn. }
  assert (∀ b, pc_ok w b → b ≠ WExit → b ≠ WGone →
            one_worker (w <| workers := [k <| pc := b |>] |>) (k <| pc := b |>)) as Hsame.
  { intros b H1 H2 H3. by apply setPc_one_worker. }
  unfold workerStep in Hs.
  destruct (pc k) eqn:Hp, ch; simplify_eq; simpl in Hpc.
  - apply workerTop_cases in Hs.
    destruct Hs as [(-> & Hst & ->)|[(-> & Hst & -> & Hm)|
      (it & rest & Hst & Hm & Hh & [[-> ->]|Hd])]].
    + apply setPc_one_worker; try done. by destruct Hpc.
    + apply Hsame; try done. simpl. destruct Hpc. split_and!; try done.
      destruct (queueChanged (sess w)) as [c|] eqn:E; [|by destruct (k_sig w k Hk)].
      exists c. tauto.
    + by apply Hsame.
    + pose proof (dequeue_one_worker now it rest w k Hq Hst Hm Hk) as Hdq. by rewrite Hd in Hdq.
  - guards_in Hs. apply Hsame; try done. simpl. tauto.
  - guards_in Hs. by apply Hquit.
  - by apply Hsame.
  - apply workerAnswered_cases in Hs.
    destruct Hs as [(-> & ->)|[(-> & Hst & ? & ->)|(rest & ? & Hst & Hm & Hh & Hd)]].
    + by apply Hsame.
    + by apply Hsame.
    + pose proof (dequeue_one_worker now item rest w k Hq Hst Hm Hk) as Hdq. by rewrite Hd in Hdq.
  - guards_in Hs. by apply Hsame.
  - by apply Hsame.
  - guards_in Hs. by apply Hquit.
  - assert (one_worker (w <| started := started w ++ [item] |>) k) as Hk' by (destruct Hk; by split).
    by apply setPc_one_worker.
  - destruct (isClosed w (Some done)) eqn:E; [|done]. injection Hs as <- <-.
    apply bool_decide_eq_true in E. apply Hsame; try done. simpl.
    destruct (turnDone (sess w)) as [d'|] eqn:Ht; [|done]. exfalso.
    destruct Hpc as [_ Hu]. rewrite (Hu d' eq_refl) in Ht. by apply (owned_turnDone w _ Hch Ht).
  - destruct (isClosed w (Some (wquit k))) eqn:E; [|done]. injection Hs as <- <-. by apply Hquit.
  - destruct Hk. split; cbn; try done. intros H.
    destruct (k_open0 H) as (? & ? & ? & ?). done.
  - pose proof (closeOpt_closed (Some (wexited k)) w) as Hc.
    destruct (closeOpt_view (Some (wexited k)) w) as (A1 & A2 & A3 & A4 & A5 & A6 & A7).
    simpl in *. assert (state (sess w) = Closed) as Hst.
    { destruct (decide (state (sess w) = Closed)) as [|H]; [done|].
      destruct (k_open w k Hk H) as (_ & _ & H' & _). by rewrite Hp in H'. }
    destruct Hk. split; cbn; rewrite ?A1, ?Hc; try done.
    + intros _. destruct (k_closed0 Hst). split; [done|]. apply elem_of_union. by right.
    + intros _. cbn. apply elem_of_union. left. by apply elem_of_singleton.
    + rewrite A5. intros a Ha. destruct (k_wait0 a Ha) as (Hqa & c & Hca & Hor).
      split; [done|]. exists c. split; [done|]. cbn. rewrite Hc, A1. destruct Hor; [left; apply elem_of_union|]; by right.
Qed.

Lemma workerStep_workers k ch w w' p : workerStep k ch w = Some (w', p) → workers w' = workers w.
Proof.
  assert (∀ now item, dequeue now item w = (w', p) → workers w' = workers w) as Hdq.
  { intros now item Hd. pose proof (dequeue_workers now item w) as H. by rewrite Hd in H. }
  unfold workerStep. intros Hs. destruct (pc k), ch; simplify_eq; try done; try by guards_in Hs.
  - apply workerTop_cases in Hs.
    destruct Hs as [(-> & _)|[(-> & _)|(it & rest & ? & ? & ? & [[-> _]|Hd])]]; eauto.
  - apply workerAnswered_cases in Hs.
    destruct Hs as [(-> & _)|[(-> & _)|(rest & ? & ? & ? & ? & Hd)]]; eauto.
  - by destruct (closeOpt_view (Some (wexited k)) w) as (_ & _ & _ & ? & _).
Qed.

(** A change of fields that neither the worker nor a blocked caller reads. *)
Lemma upd_worker_ok f w :
  workerDone (f (sess w)) = workerDone (sess w) →
  queueChanged (f (sess w)) = queueChanged (sess w) → state (f (sess w)) = state (sess w) →
  workerUp (f (sess w)) = workerUp (sess w) → quit (f (sess w)) = quit (sess w) →
  turnDone (f (sess w)) = turnDone (sess w) →
  activeQueuedID (f (sess w)) = activeQueuedID (sess w) →
  mailbox (f (sess w)) = mailbox (sess w) → queueHolds (f (sess w)) = queueHolds (sess w) →
  worker_ok w → worker_ok (upd f w).
Proof.
  intros H1 H2 H3 H4 H5 H6 H7 H8 H9 Hok. apply (tame_ok w); try done.
  - apply frame_view; try done. cbn. by rewrite H3.
  - left. unfold calm. cbn. by rewrite H2, H8, H9.
  - cbn. by rewrite H8.
Qed.

Lemma exec_worker_ok e w w' :
  exec e w = Some w' → chan_ok w → queue_ok w → worker_ok w → worker_ok w'.
Proof.
  intros He Hch Hq Hok. destruct e; simpl in He; simplify_eq.
  - by apply submit_worker_ok.
  - guards_in He. apply submit_worker_ok.
    destruct Hok as [Hn|[k Hk]]; [left; destruct Hn; split; try done; cbn; by rewrite n_wait0|].
    right. exists k. apply (frame_one_worker w); try done; [by apply frame_view|by left|].
    cbn. intros b Hb. left. eapply elem_of_submseteq; [exact Hb|]. apply sublist_submseteq, sublist_delete.
  - guards_in He. destruct Hok as [Hn|[k Hk]]; [left; destruct Hn; split; try done; cbn; by rewrite n_wait0|].
    right. exists k. apply (frame_one_worker w); try done; [by apply frame_view|by left|].
    cbn. intros b Hb. left. eapply elem_of_submseteq; [exact Hb|]. apply sublist_submseteq, sublist_delete.
  - destruct (reserve_cases id requireActive exclusive w)
      as [[-> _]|(p & Hp & _ & Hh & -> & _)]; [done|].
    apply (tame_ok w); try done.
    + apply frame_view; try done. cbn. intros d Hd. apply elem_of_app. by left.
    + left. unfold calm. cbn. split_and!; done || lia.
  - unfold CancelQueued. destruct (findItem _ _ _) as [[i p]|] eqn:E; [|done].
    destruct (held w p); [done|]. simpl. apply (signal_tame w); try done; [by apply frame_view|].
    cbn. by intros ->.
  - by apply Defer_worker_ok.
  - by apply PrepareEnd_worker_ok.
  - unfold MarkStopping. case_match eqn:E; [|done]. apply State_is_true in E.
    apply (tame_ok w); try done; [|by left]. apply frame_view; try done. cbn. by rewrite E.
  - unfold RestoreStreamingAfterUnconfirmedStop. case_match eqn:E; [done|].
    apply orb_false_iff in E as [E%negb_false_iff%State_is_true _].
    apply (tame_ok w); try done; [|by left]. apply frame_view; try done. cbn. by rewrite E.
  - by apply Close_worker_ok.
  - unfold HoldQueue. destruct (State_is _ _) eqn:E; [done|].
    apply (tame_ok w); try done.
    + apply frame_view; try done. cbn. intros d Hd. apply elem_of_app. by left.
    + left. unfold calm. cbn. split_and!; done || lia.
  - assert (∀ s, queueChanged (applyFuture s) = queueChanged s ∧ workerDone (applyFuture s) = workerDone s)
      as Hap by (intros s; unfold applyFuture; by destruct (futureConfig s)).
    destruct (Hap (sess w)) as [Hap1 Hap2].
    unfold ReserveConfiguration. repeat case_match; try done; simpl;
      destruct (applyFuture_view (sess w)) as (A1 & A2 & A3 & A4 & A5 & A6 & A7 & A8 & A9);
      (apply (tame_ok w); try done; cbn; [|left; unfold calm; cbn|];
        [apply frame_view; cbn; rewrite ?A4; try done; intros d Hd; apply elem_of_app; by left
        |rewrite A1, A5, A7; split_and!; done || lia|by rewrite A1]).
  - guards_in He. by apply runClosure_worker_ok.
  - apply upd_worker_ok; try done; unfold SetFutureConfiguration; by repeat case_match.
  - by apply upd_worker_ok.
  - apply upd_worker_ok; try done; unfold ActivateQueuedConfiguration; by repeat case_match.
  - destruct Hok as [Hn|[k Hk]]; [by rewrite (n_list w Hn) in He|].
    rewrite (k_list w k Hk) in He. destruct i as [|i]; [|done]. simpl in He.
    destruct (workerStep k ch w) as [[w1 p]|] eqn:E; simplify_eq.
    right. exists (k <| pc := p |>).
    pose proof (workerStep_one_worker w k ch w1 p Hch Hq Hk E) as H.
    by rewrite (workerStep_workers k ch w w1 p E), (k_list w k Hk).
Qed.
