(* ===== verification/TurnSpec.v ===== *)
(** * What the turn queue promises

    The abstract queue of one session: the waiting messages in order, the
    turn in flight, and the reservations that stop dispatch.  Every step of
    the machine of [TurnQueue] is one step of it or invisible to it. *)

From S2P Require Import Prelude Session TurnQueue TurnChannels TurnMailbox TurnWorker.

(** ** The invariant of reachable worlds *)
Record inv (w : world) : Prop := {
  i_chan : chan_ok w;
  i_queue : queue_ok w;
  i_hold : hold_ok w;
  i_worker : worker_ok w }.

Lemma initial_inv s : session_fresh s → inv (initial s).
Proof.
  intros (H1 & H2 & H3 & H4 & H5 & H6 & H7 & H8 & H9 & H10). split.
  - apply chan_ok_intro; [done|]. intros c. left. unfold owners. cbn.
    rewrite H9, H5, H8, !is_chan_ne by done. split; [done|]. set_solver.
  - split; cbn; rewrite ?H1, ?H2, ?H8; try done.
    all: try (intros p; rewrite ?lookup_empty; by intros []).
    all: try (by intros p ?%elem_of_nil). all: try (by intros p q t u ?%elem_of_nil).
    + constructor.
    + simpl. lia.
    + unfold IsStreaming. cbn. rewrite H1. done.
  - split; cbn; rewrite ?H1, ?H2, ?H3, ?H10; try done.
  - left. by split.
Qed.

Lemma exec_inv e w w' : exec e w = Some w' → inv w → inv w'.
Proof.
  intros He []. split.
  - by eapply exec_chan_ok.
  - by eapply exec_queue_ok.
  - by eapply exec_hold_ok.
  - by eapply exec_worker_ok.
Qed.

Lemma execs_inv es w w' : execs es w = Some w' → inv w → inv w'.
Proof.
  revert w; induction es as [|e es IH]; intros w H Hi; simpl in H; [by simplify_eq|].
  destruct (exec e w) as [w1|] eqn:E; [|done]. eapply IH; [done|]. by eapply exec_inv.
Qed.

Lemma reachable_inv w : reachable w → inv w.
Proof. intros (s & es & Hs & He). eapply execs_inv; [done|]. by apply initial_inv. Qed.
#[export] Hint Resolve reachable_inv : bridge.

Lemma reachable_exec e w w' : reachable w → exec e w = Some w' → reachable w'.
Proof.
  intros (s & es & Hs & He) H. exists s, (es ++ [e]). split; [done|].
  revert He. generalize (initial s). induction es as [|x es IH]; intros w0 He; simpl in *.
  - simplify_eq. by rewrite H.
  - destruct (exec x w0); [|done]. auto.
Qed.

(** ** The abstract queue *)
Record aqueue := mkAq {
  a_open : bool;
  a_wait : list queuedTurn;     (* in the order they will start *)
  a_turn : option string;       (* the id of the turn in flight *)
  a_holds : nat }.              (* anonymous holds *)

Inductive astep : aqueue → aqueue → Prop :=
  | A_admit t l turn h :
      qheld t = false → (length l < mailboxSize)%nat →
      (qid t ≠ "" → turn ≠ Some (qid t) ∧ ∀ u, u ∈ l → qid u ≠ qid t) →
      astep (mkAq true l turn h) (mkAq true (l ++ [t]) turn h)
  | A_start t l :
      (∀ u, u ∈ t :: l → qheld u = false) →
      astep (mkAq true (t :: l) None 0) (mkAq true l (Some (qid t)) 0)
  | A_end l id h :
      astep (mkAq true l (Some id) h) (mkAq true l None h)
  | A_withdraw l i t turn h :
      l !! i = Some t → qheld t = false →
      astep (mkAq true l turn h) (mkAq true (delete i l) turn h)
  | A_reserve l i t turn h :
      l !! i = Some t → qheld t = false →
      astep (mkAq true l turn h) (mkAq true (<[i := t <| qheld := true |>]> l) turn h)
  | A_keep l i t turn h :
      l !! i = Some t → qheld t = true →
      astep (mkAq true l turn h) (mkAq true (<[i := t <| qheld := false |>]> l) turn h)
  | A_resolve l i t turn h :
      l !! i = Some t → qheld t = true →
      astep (mkAq true l turn h) (mkAq true (delete i l) turn h)
  | A_put_back l t h :
      qheld t = false → qid t ≠ "" →
      astep (mkAq true l (Some (qid t)) h) (mkAq true (t :: l) None h)
  | A_hold l turn h : astep (mkAq true l turn h) (mkAq true l turn (S h))
  | A_unhold l turn h : astep (mkAq true l turn (S h)) (mkAq true l turn h)
  | A_close l turn h : astep (mkAq true l turn h) (mkAq false [] None 0).

(** ** The abstraction *)
Definition zeroTurn : queuedTurn := mkTurn "" 0 false None.
Definition at_ (h : gmap ptr queuedTurn) (p : ptr) : queuedTurn := default zeroTurn (h !! p).
Definition items (w : world) : list queuedTurn := map (at_ (heap w)) (mailbox (sess w)).
Definition is_anon (x : closure) : bool :=
  match x with CHold | CConfig => true | _ => false end.

Definition abs (w : world) : aqueue :=
  let open := negb (State_is (state (sess w)) Closed) in
  mkAq open (items w)
    (match turnDone (sess w) with Some _ => Some (activeQueuedID (sess w)) | None => None end)
    (if open then countb is_anon (closures w) else 0).

Lemma abs_ext w w' :
  heap w' = heap w → mailbox (sess w') = mailbox (sess w) →
  turnDone (sess w') = turnDone (sess w) →
  (turnDone (sess w) ≠ None → activeQueuedID (sess w') = activeQueuedID (sess w)) →
  (state (sess w') = Closed ↔ state (sess w) = Closed) →
  countb is_anon (closures w') = countb is_anon (closures w) → abs w' = abs w.
Proof.
  intros H1 H2 H3 H4 H5 H6. unfold abs, items, State_is.
  rewrite H1, H2, H3, (bool_decide_ext _ _ H5), H6. f_equal.
  destruct (turnDone (sess w)); [|done]. by rewrite H4.
Qed.

Lemma abs_signal w : abs (signalQueueLocked w) = abs w.
Proof.
  destruct (signal_view w) as (E1 & E2 & _ & _ & E5 & _).
  apply abs_ext; by rewrite ?E1, ?E5.
Qed.

(** Reading the fields of an abstraction of an open session. *)
Definition turn_of (w : world) : option string :=
  match turnDone (sess w) with Some _ => Some (activeQueuedID (sess w)) | None => None end.
Lemma abs_open w :
  state (sess w) ≠ Closed →
  abs w = mkAq true (items w) (turn_of w) (countb is_anon (closures w)).
Proof. intros H. unfold abs, State_is. by rewrite bool_decide_eq_false_2. Qed.

Lemma items_new w t :
  queue_ok w → map (at_ (<[fresh w := t]> (heap w))) (mailbox (sess w)) = items w.
Proof.
  intros Hq. unfold items. apply list_fmap_ext. intros i p Hp.
  unfold at_. rewrite lookup_insert_ne; [done|]. intros E.
  apply (fresh_notin w Hq). rewrite E. by eapply list_elem_of_lookup_2.
Qed.

Lemma items_setHeld w b i p t :
  queue_ok w → mailbox (sess w) !! i = Some p → heap w !! p = Some t →
  map (at_ (heap (setHeld b p w))) (mailbox (sess w)) = <[i := t <| qheld := b |>]> (items w).
Proof.
  intros Hq Hi Ht. apply list_eq. intros j. unfold items. rewrite list_lookup_fmap.
  destruct (decide (j = i)) as [->|Hne].
  - rewrite list_lookup_insert_eq by (rewrite length_map; by eapply lookup_lt_Some).
    rewrite Hi. change (Some (at_ (heap (setHeld b p w)) p) = Some (t <| qheld := b |>)).
    unfold at_. by rewrite setHeld_lookup, decide_True, Ht.
  - rewrite list_lookup_insert_ne, list_lookup_fmap by done.
    destruct (mailbox (sess w) !! j) as [q|] eqn:Hj; [|done].
    change (Some (at_ (heap (setHeld b p w)) q) = Some (at_ (heap w) q)). f_equal.
    unfold at_. rewrite setHeld_lookup, decide_False; [done|]. intros ->.
    by apply Hne, (NoDup_lookup _ j i q (q_nodup w Hq)).
Qed.

Lemma items_delete w i : map (at_ (heap w)) (delete i (mailbox (sess w))) = delete i (items w).
Proof.
  unfold items. generalize (mailbox (sess w)). intros l. revert i.
  induction l as [|p l IH]; intros [|i]; simpl; [done..|]. f_equal. apply IH.
Qed.

Lemma items_lookup w i p t :
  mailbox (sess w) !! i = Some p → heap w !! p = Some t → items w !! i = Some t.
Proof. intros Hi Ht. unfold items. rewrite list_lookup_fmap, Hi. simpl. unfold at_. by rewrite Ht. Qed.

Lemma items_elem w u :
  queue_ok w → u ∈ items w → ∃ p, p ∈ mailbox (sess w) ∧ heap w !! p = Some u.
Proof.
  intros Hq (p & -> & Hp)%list_elem_of_fmap. exists p. split; [done|].
  destruct (q_alloc w Hq p Hp) as [t Ht]. unfold at_. by rewrite Ht.
Qed.

(** ** The simulation, operation by operation *)
Definition simulates (w w' : world) : Prop := abs w' = abs w ∨ astep (abs w) (abs w').

Lemma simulates_signal w w1 : simulates w w1 → simulates w (signalQueueLocked w1).
Proof. unfold simulates. by rewrite abs_signal. Qed.

Lemma simulates_step w w' l turn h l' turn' h' :
  state (sess w) ≠ Closed → state (sess w') ≠ Closed →
  items w = l → turn_of w = turn → countb is_anon (closures w) = h →
  items w' = l' → turn_of w' = turn' → countb is_anon (closures w') = h' →
  astep (mkAq true l turn h) (mkAq true l' turn' h') → simulates w w'.
Proof.
  intros H1 H2 <- <- <- <- <- <- H. right. by rewrite !abs_open.
Qed.

Lemma abs_startWorker w : abs (startWorker w) = abs w.
Proof.
  destruct (startWorker_view w) as (E1 & _ & E3 & E4 & E5 & E6 & E7 & _).
  apply abs_ext; try done. by rewrite E6. by rewrite E7.
Qed.

Lemma simulates_startWorker w w' : simulates (startWorker w) w' → simulates w w'.
Proof. unfold simulates. by rewrite abs_startWorker. Qed.

Lemma delete_insert {A} (i : nat) (x : A) (l : list A) : delete i (<[i := x]> l) = delete i l.
Proof. revert i. induction l as [|y l IH]; intros [|i]; simpl; f_equal; done || apply IH. Qed.

Lemma submit_simulates id run wait ready w :
  queue_ok w → simulates w (submit id run wait ready w).
Proof.
  intros Hq. unfold submit, submitReady.
  destruct (State_is _ _) eqn:Hst; [by left|]. apply State_is_false in Hst.
  apply simulates_startWorker. apply startWorker_queue_ok in Hq.
  assert (state (sess (startWorker w)) ≠ Closed) as Hst'.
  { by destruct (startWorker_view w) as (_ & _ & _ & _ & _ & -> & _). }
  revert Hq Hst'. generalize (startWorker w). clear w Hst. intros w Hq Hst.
  destruct (negb (str_empty id) && _) eqn:Hdup; [by left|].
  destruct (Nat.ltb_spec (length (mailbox (sess w))) mailboxSize) as [Hlt|].
  - unfold newTurn. cbv beta iota zeta. apply simulates_signal.
    eapply simulates_step; try reflexivity; try done.
    unfold items at 2. cbn [upd sess mailbox heap]. set (t := mkTurn id run false ready).
    change (astep (mkAq true (items w) (turn_of w) (countb is_anon (closures w)))
      (mkAq true (map (at_ (<[fresh w := t]> (heap w))) (mailbox (sess w) ++ [fresh w]))
         (turn_of w) (countb is_anon (closures w)))).
    rewrite map_app. simpl map.
    rewrite items_new by done.
    assert (at_ (<[fresh w := t]> (heap w)) (fresh w) = t) as ->
      by (unfold at_; by rewrite lookup_insert_eq).
    apply A_admit; [done|unfold items; by rewrite length_map|]. cbn. intros Hne.
    unfold str_empty in Hdup. rewrite bool_decide_eq_false_2 in Hdup by done.
    simpl in Hdup. bool_facts. split.
    + unfold turn_of. destruct (turnDone (sess w)); congruence.
    + intros u (p & Hp & Hu)%items_elem; [|done]. eapply findItem_None; [|done..].
      destruct (findItem _ _ _); [|done]. exfalso. eauto.
  - left. destruct wait; [|done]. by apply abs_ext.
Qed.

Lemma reserve_simulates id ra ex w :
  inv w → simulates w (reserveQueued id ra ex w).1.
Proof.
  intros []. destruct (reserve_cases id ra ex w)
    as [[-> _]|(p & Hp & (t & Ht & _) & Hh & -> & _)]; [by left|].
  apply list_elem_of_lookup in Hp as [i Hi].
  assert (state (sess w) ≠ Closed) as Hst.
  { intros E. by rewrite (q_closed w i_queue0 E) in Hi. }
  eapply (simulates_step w); try reflexivity; try done.
  change (items (reserved p w)) with (map (at_ (heap (setHeld true p w))) (mailbox (sess w))).
  rewrite (items_setHeld w true i p t) by done.
  change (turn_of (reserved p w)) with (turn_of w).
  change (closures (reserved p w)) with (closures w ++ [CFinish p]).
  rewrite countb_app, Nat.add_0_r. apply A_reserve; [by apply (items_lookup w i p)|].
  unfold held in Hh. by rewrite Ht in Hh.
Qed.

Lemma withdraw_simulates w w' i p t :
  state (sess w) ≠ Closed → mailbox (sess w) !! i = Some p → heap w !! p = Some t →
  qheld t = false → heap w' = heap w → mailbox (sess w') = delete i (mailbox (sess w)) →
  turnDone (sess w') = turnDone (sess w) → activeQueuedID (sess w') = activeQueuedID (sess w) →
  state (sess w') = state (sess w) → closures w' = closures w → simulates w w'.
Proof.
  intros Hst Hi Ht Hh H1 H2 H3 H4 H5 H6.
  eapply (simulates_step w w'); try reflexivity; rewrite ?H5; try done.
  unfold items at 2, turn_of. rewrite H1, H2, H3, H4, H6, items_delete.
  eapply A_withdraw; [by eapply items_lookup|done].
Qed.

Lemma finish_simulates i p r w :
  closures w !! i = Some (CFinish p) → inv w →
  simulates w (finishReserved p r (w <| closures := delete i (closures w) |>)).
Proof.
  intros Hi [Hch Hq Hok Hw]. unfold finishReserved. apply simulates_signal.
  pose proof (countb_delete is_anon _ _ _ Hi) as E1. simpl in E1.
  change (held (w <| closures := delete i (closures w) |>) p) with (held w p).
  destruct (decide (state (sess w) = Closed)) as [Hst|Hst].
  - pose proof (q_closed w Hq Hst) as Hm. rewrite (not_held_empty w p Hok Hm).
    left. transitivity (abs (w <| closures := delete i (closures w) |>)); [|by apply abs_ext].
    destruct r; [|done].
    assert (mailbox (sess (w <| closures := delete i (closures w) |>)) = []) as -> by exact Hm.
    done.
  - destruct (unreserve_hold_ok w i p Hi Hst Hq Hok) as (Hp & Hok' & Hp').
    rewrite Hp. pose proof (h_in w Hok p Hp) as [j Hj]%list_elem_of_lookup.
    assert (is_Some (heap w !! p)) as [t Ht].
    { apply (q_alloc w Hq). by eapply list_elem_of_lookup_2. }
    assert (qheld t = true) as Hh by (unfold held in Hp; by rewrite Ht in Hp).
    set (w1 := upd _ _). change (mailbox (sess w1)) with (mailbox (sess w)).
    assert (items w1 = <[j := t <| qheld := false |>]> (items w)) as Hit
      by by apply (items_setHeld w false j p t).
    destruct r.
    + destruct (list_find _ _) as [[j' q]|] eqn:E.
      * apply list_find_ptr in E as [-> Hj'].
        pose proof (NoDup_lookup _ _ _ _ (q_nodup w Hq) Hj Hj') as <-.
        eapply (simulates_step w); try reflexivity; try done.
        change (items (upd (λ s, s <| mailbox := delete j (mailbox s) |>) w1))
          with (map (at_ (heap w1)) (delete j (mailbox (sess w1)))).
        rewrite items_delete, Hit, delete_insert.
        change (closures (upd (λ s, s <| mailbox := delete j (mailbox s) |>) w1))
          with (delete i (closures w)).
        change (turn_of (upd (λ s, s <| mailbox := delete j (mailbox s) |>) w1))
          with (turn_of w). rewrite E1.
        eapply A_resolve; [by apply (items_lookup w j p)|done].
      * exfalso. apply list_find_None in E. rewrite Forall_lookup in E. by eapply E.
    + eapply (simulates_step w w1); try reflexivity; try done.
      rewrite Hit. change (closures w1) with (delete i (closures w)).
      change (turn_of w1) with (turn_of w). rewrite E1.
      eapply A_keep; [by apply (items_lookup w j p)|done].
Qed.

Lemma unhold_simulates w w' i x :
  closures w !! i = Some x → is_anon x = true → closures w' = delete i (closures w) →
  heap w' = heap w → mailbox (sess w') = mailbox (sess w) → turnDone (sess w') = turnDone (sess w) →
  activeQueuedID (sess w') = activeQueuedID (sess w) → state (sess w') = state (sess w) →
  simulates w w'.
Proof.
  intros Hi Hx Hc H1 H2 H3 H4 H5. pose proof (countb_delete is_anon _ _ _ Hi) as E1.
  rewrite Hx in E1. destruct (decide (state (sess w) = Closed)) as [E|E].
  - left. unfold abs, items, State_is. rewrite H1, H2, H3, H4, H5, E.
    by rewrite bool_decide_eq_true_2.
  - eapply (simulates_step w w'); try reflexivity; rewrite ?H5; try done.
    unfold items at 2, turn_of. rewrite H1, H2, H3, H4, Hc, E1. apply A_unhold.
Qed.

Lemma closure_simulates i x r w :
  closures w !! i = Some x → inv w →
  simulates w (runClosure x r (w <| closures := delete i (closures w) |>)).
Proof.
  intros Hi Hinv. destruct x as [p| | |d]; simpl.
  - by apply finish_simulates.
  - unfold releaseHold. apply simulates_signal.
    apply (unhold_simulates w _ i CHold Hi); try done; by case_match.
  - unfold releaseConfiguration. apply simulates_signal.
    apply (unhold_simulates w _ i CConfig Hi); try done; by case_match.
  - destruct (closeOpt_view d (w <| closures := delete i (closures w) |>))
      as (A1 & A2 & _ & _ & _ & A6 & _).
    pose proof (countb_delete is_anon _ _ _ Hi) as E1. simpl in E1.
    left. apply abs_ext; rewrite ?A1, ?A2, ?A6; done.
Qed.

Lemma Defer_simulates id ready run w :
  queue_ok w → simulates w (DeferActiveNamed id ready run w).1.
Proof.
  intros Hq. unfold DeferActiveNamed. destruct (turnDone (sess w)) as [d|] eqn:Hd; [|by left].
  destruct (_ || _) eqn:Hg; [by left|].
  apply orb_false_iff in Hg as [[Hid Hact]%orb_false_iff Hst]. bool_facts.
  apply State_is_true in Hst. unfold newTurn. cbv beta iota zeta delta [fst].
  apply simulates_signal. set (t := mkTurn id run false ready).
  match goal with |- context [closeChan d ?x] => set (w0 := x) end.
  destruct (closeOpt_view (Some d) w0) as (A1 & A2 & _ & _ & _ & A6 & _).
  change (closeOpt (Some d) w0) with (closeChan d w0) in *.
  eapply (simulates_step w); try reflexivity; rewrite ?A1; try done; [by rewrite Hst|].
  unfold items at 2, turn_of. rewrite A1, A2, A6, Hd. subst w0. cbn [sess heap closures].
  change (astep (mkAq true (items w) (Some (activeQueuedID (sess w))) (countb is_anon (closures w)))
    (mkAq true (at_ (<[fresh w := t]> (heap w)) (fresh w) ::
       map (at_ (<[fresh w := t]> (heap w))) (mailbox (sess w))) None (countb is_anon (closures w)))).
  assert (at_ (<[fresh w := t]> (heap w)) (fresh w) = t) as ->
    by (unfold at_; by rewrite lookup_insert_eq).
  rewrite items_new by done.
  match goal with H : activeQueuedID _ = id |- _ => rewrite H end.
  apply (A_put_back _ t); done.
Qed.

Lemma PrepareEnd_simulates now w : queue_ok w → simulates w (PrepareEndTurn now w).
Proof.
  intros Hq. destruct (PrepareEnd_view now w) as
    (H1 & _ & H3 & H4 & H5 & H6 & H7 & _).
  pose proof (q_phase w Hq) as Hph.
  destruct (turnDone (sess w)) as [d|] eqn:Hd.
  - assert (IsStreaming (sess w) = true) as Hs by by apply Hph.
    rewrite Hs in H6. apply IsStreaming_state in Hs.
    eapply (simulates_step w); try reflexivity; try (by rewrite ?H6).
    { intros E. rewrite E in Hs. by destruct Hs. }
    unfold items at 2, turn_of. rewrite H1, H3, H4, H7, Hd, countb_app, Nat.add_0_r.
    apply A_end.
  - left. destruct (IsStreaming (sess w)) eqn:Hs; [by destruct (proj1 Hph eq_refl)|].
    apply abs_ext; try done; rewrite ?Hd, ?H4, ?H6; try done.
    by rewrite H7, countb_app, Nat.add_0_r.
Qed.

Lemma Close_simulates w : simulates w (Close w).
Proof.
  destruct (decide (state (sess w) = Closed)) as [E|E]; [left; by rewrite Close_closed|].
  destruct (Close_view w E) as (H1 & H2 & H3 & H4 & H5 & H6 & _).
  right. rewrite abs_open by done. unfold abs, items. rewrite H3, H4, H6. apply A_close.
Qed.

Lemma hold_simulates w w' x :
  state (sess w) ≠ Closed → is_anon x = true → closures w' = closures w ++ [x] →
  heap w' = heap w → mailbox (sess w') = mailbox (sess w) → turnDone (sess w') = turnDone (sess w) →
  activeQueuedID (sess w') = activeQueuedID (sess w) → state (sess w') = state (sess w) →
  simulates w w'.
Proof.
  intros Hst Hx Hc H1 H2 H3 H4 H5.
  eapply (simulates_step w w'); try reflexivity; rewrite ?H5; try done.
  unfold items at 2, turn_of. rewrite H1, H2, H3, H4, Hc, countb_app. simpl. rewrite Hx.
  rewrite Nat.add_1_r. apply A_hold.
Qed.

(** The head starts only when nothing is in flight, reserved or held. *)
Lemma dequeue_simulates now item rest w :
  inv w → state (sess w) ≠ Closed → queueHolds (sess w) ≤ 0 → turnDone (sess w) = None →
  mailbox (sess w) = item :: rest → simulates w (dequeue now item w).1.
Proof.
  intros [Hch Hq Hok _] Hst Hle Ht Hm. assert (is_Some (heap w !! item)) as [t Hit].
  { apply (q_alloc w Hq). rewrite Hm. left. }
  destruct (dequeue_view now item rest t w Hst Hm Hit) as
    (_ & E2 & E3 & E4 & E5 & E6 & _ & _ & E9 & _).
  assert (items w = t :: map (at_ (heap w)) rest) as Hi.
  { unfold items. rewrite Hm. simpl. unfold at_ at 1. by rewrite Hit. }
  assert (countb is_anon (closures w) = 0%nat) as Han.
  { pose proof (h_count w Hok Hst) as Hc.
    destruct (countb is_anon (closures w)) as [|n] eqn:E; [done|exfalso].
    destruct (countb_pos_inv is_anon (closures w)) as (x & Hx & Hax); [lia|].
    pose proof (countb_pos is_hold _ x Hx) as Hp. destruct x; try done; specialize (Hp eq_refl); lia. }
  eapply (simulates_step w); try reflexivity; try done; [by rewrite E5|].
  unfold items at 2, turn_of. rewrite E2, E3, E4, E6, E9, Ht, Hi, Han.
  apply A_start. intros u Hu. rewrite <- Hi in Hu. apply items_elem in Hu as (p & _ & Hp); [|done].
  pose proof (holds_none w Hok Hst Hle p) as Hn. unfold held in Hn. by rewrite Hp in Hn.
Qed.

Lemma workerStep_simulates w k ch w' p :
  inv w → one_worker w k → workerStep k ch w = Some (w', p) → simulates w w'.
Proof.
  intros Hinv Hk Hs. pose proof (k_pc w k Hk) as Hpc.
  assert (∀ now item rest, state (sess w) ≠ Closed → queueHolds (sess w) ≤ 0 →
            turnDone (sess w) = None →
            mailbox (sess w) = item :: rest → dequeue now item w = (w', p) → simulates w w') as Hdq.
  { intros now item rest H1 H2 H3 H4 Hd.
    pose proof (dequeue_simulates now item rest w Hinv H1 H2 H3 H4) as H. by rewrite Hd in H. }
  unfold workerStep in Hs. destruct (pc k), ch; simpl in Hpc; try done;
    try (simplify_eq; by left); try (guards_in Hs; by left).
  - injection Hs as Hs. apply workerTop_cases in Hs. destruct Hpc.
    destruct Hs as [(-> & _)|[(-> & _)|(it & rest & ? & ? & ? & [[-> _]|Hd])]]; eauto; by left.
  - injection Hs as Hs. apply workerAnswered_cases in Hs. destruct Hpc.
    destruct Hs as [(-> & _)|[(-> & _)|(rest & ? & ? & ? & ? & Hd)]]; eauto; by left.
  - injection Hs as <- <-. left. by apply abs_ext.
  - injection Hs as <- <-. destruct (closeOpt_view (Some (wexited k)) w) as (A1 & A2 & _ & _ & _ & A6 & _).
    simpl in *. left. apply abs_ext; by rewrite ?A1, ?A6.
Qed.

Lemma exec_simulates e w w' : inv w → exec e w = Some w' → simulates w w'.
Proof.
  intros Hinv He. pose proof (i_queue w Hinv) as Hq. destruct e; simpl in He; simplify_eq.
  - by apply submit_simulates.
  - destruct (waiters w !! i) as [a|]; [|done]. destruct (isClosed _ _); [|done].
    injection He as <-.
    assert (abs (w <| waiters := delete i (waiters w) |>) = abs w) as E by by apply abs_ext.
    unfold simulates. rewrite <- E. apply submit_simulates. by apply (queue_ok_ext w).
  - guards_in He. left. by apply abs_ext.
  - by apply reserve_simulates.
  - unfold CancelQueued. destruct (findItem _ _ _) as [[i p]|] eqn:E; [|by left].
    apply findItem_Some in E as [Hi (t & Ht & _)]. destruct (held w p) eqn:Hp; [by left|]. simpl.
    apply simulates_signal. apply (withdraw_simulates w _ i p t); try done.
    + intros E. by rewrite (q_closed w Hq E) in Hi.
    + unfold held in Hp. by rewrite Ht in Hp.
  - by apply Defer_simulates.
  - by apply PrepareEnd_simulates.
  - left. unfold MarkStopping. case_match eqn:E; [|done]. apply State_is_true in E.
    apply abs_ext; try done. cbn. by rewrite E.
  - left. unfold RestoreStreamingAfterUnconfirmedStop. case_match eqn:E; [done|].
    apply orb_false_iff in E as [E%negb_false_iff%State_is_true _].
    apply abs_ext; try done. cbn. by rewrite E.
  - by apply Close_simulates.
  - unfold HoldQueue. destruct (State_is _ _) eqn:E; [by left|]. apply State_is_false in E.
    by apply (hold_simulates w _ CHold).
  - unfold ReserveConfiguration. destruct (_ || configUpdating _) eqn:Hg; [by left|].
    repeat (apply orb_false_iff in Hg as [Hg ?]). bool_facts. apply State_is_true in Hg.
    destruct (applyFuture_view (sess w)) as (A1 & A2 & A3 & A4 & _).
    destruct (revision_conflict _ _); [by left|]. case_match; [by left|]. simpl.
    apply (hold_simulates w _ CConfig); try done. by rewrite Hg.
  - destruct (closures w !! i) as [x|] eqn:Hi; [|done]. injection He as <-.
    by apply closure_simulates.
  - left. apply abs_ext; try done; unfold SetFutureConfiguration; cbn; by repeat case_match.
  - left. by apply abs_ext.
  - left. apply abs_ext; try done; unfold ActivateQueuedConfiguration; cbn; by repeat case_match.
  - destruct (i_worker w Hinv) as [Hn|[k Hk]]; [by rewrite (n_list w Hn) in He|].
    rewrite (k_list w k Hk) in He. destruct i as [|i]; [|done]. simpl in He.
    destruct (workerStep k ch w) as [[w1 p]|] eqn:E; [|done]. injection He as <-.
    pose proof (workerStep_simulates w k ch w1 p Hinv Hk E) as H.
    unfold simulates in *. by rewrite (abs_ext w1 (w1 <| workers := _ |>)).
Qed.
