(* ===== verification/TurnProps.v ===== *)
(** * Theorems about the turn queue

    The correctness of [TurnQueue] for every interleaving of callers, worker
    and pending closures: refinement of the abstract queue, dispatch, absence
    of lost wake-ups, reservations, bounds, the stop protocol and shutdown. *)

From S2P Require Import Prelude Session TurnQueue TurnChannels TurnMailbox TurnWorker TurnSpec.

(** ** Running the worker *)
Definition is_worker_event (e : event) : Prop := ∃ ch, e = EWorker 0 ch.

(** Within [n] steps of the worker alone, first the turns [pre] and then [p]
    are run. *)
Definition runs (n : nat) (w : world) (pre : list ptr) : Prop :=
  ∃ es w', Forall is_worker_event es ∧ (length es ≤ n)%nat ∧ execs es w = Some w' ∧
    started w' = started w ++ pre.

Lemma runs_step n w k ch w1 pc' pre pre' :
  workers w = [k] → workerStep k ch w = Some (w1, pc') → started w1 = started w ++ pre →
  runs n (w1 <| workers := [k <| pc := pc' |>] |>) pre' → runs (S n) w (pre ++ pre').
Proof.
  intros Hk Hs Hst (es & w' & H1 & H2 & H3 & H4). exists (EWorker 0 ch :: es), w'. split_and!.
  - constructor; [by exists ch|done].
  - simpl. lia.
  - simpl. rewrite Hk. simpl. rewrite Hs.
    by rewrite (workerStep_workers k ch w w1 pc' Hs), Hk.
  - rewrite H4. cbn. by rewrite Hst, <- app_assoc.
Qed.

Lemma runs_more n m w pre : (n ≤ m)%nat → runs n w pre → runs m w pre.
Proof. intros Hle (es & w' & ? & ? & ? & ?). exists es, w'. split_and!; try done. lia. Qed.

(** A world in which the head [p] may start. *)
Record can_start (w : world) (p : ptr) : Prop := {
  c_open : state (sess w) ≠ Closed;
  c_head : ∃ rest, mailbox (sess w) = p :: rest;
  c_free : queueHolds (sess w) ≤ 0;
  c_alloc : is_Some (heap w !! p) }.

Lemma can_start_ext w w' p :
  state (sess w') = state (sess w) → mailbox (sess w') = mailbox (sess w) →
  queueHolds (sess w') = queueHolds (sess w) → heap w' = heap w → can_start w p → can_start w' p.
Proof. intros H1 H2 H3 H4 []. by split; rewrite ?H1, ?H2, ?H3, ?H4. Qed.

Lemma run_dequeued w k p now :
  can_start w p → workers w = [k] →
  let '(w1, pc') := dequeue now p w in
  started w1 = started w ∧ runs 1 (w1 <| workers := [k <| pc := pc' |>] |>) [p].
Proof.
  intros [Ho [rest Hm] Hf [t Ht]] Hk.
  destruct (dequeue_view now p rest t w Ho Hm Ht) as (E1 & _ & _ & _ & _ & _ & _ & _ & _ & E10 & _).
  destruct (dequeue now p w) as [w1 pc']. cbn [fst snd] in *. subst pc'. split; [done|].
  eexists [EWorker 0 (Go now)], _. split_and!; [repeat constructor; by eexists|done|reflexivity|done].
Qed.

Lemma run_answered w k p :
  can_start w p → workers w = [k] → pc k = WAnswered p true → runs 2 w [p].
Proof.
  intros Hc Hk Hp. pose proof (run_dequeued w k p f64_zero Hc Hk) as H.
  destruct (dequeue f64_zero p w) as [w1 pc'] eqn:E. destruct H as [H1 H2].
  apply (runs_step 1 w k (Go f64_zero) w1 pc' []); rewrite ?app_nil_r; try done.
  unfold workerStep. rewrite Hp. unfold workerAnswered, State_is.
  destruct Hc as [Ho [rest Hm] Hf _]. rewrite Hm. simpl head.
  rewrite (bool_decide_eq_false_2 (state (sess w) = Closed)) by done.
  rewrite (bool_decide_eq_true_2 (Some p = Some p)) by done.
  destruct (Z.ltb_spec 0 (queueHolds (sess w))); [lia|]. simpl. by rewrite E.
Qed.

Lemma run_top w k p : can_start w p → workers w = [k] → pc k = WTop → runs 4 w [p].
Proof.
  intros Hc Hk Hp. destruct (workerTop f64_zero w) as [w1 pc'] eqn:E.
  pose proof E as E'. apply workerTop_cases in E'. pose proof Hc as [Ho [rest Hm] Hf _].
  assert (workerStep k (Go f64_zero) w = Some (w1, pc')) as Hs.
  { unfold workerStep. by rewrite Hp, E. }
  destruct E' as [(_ & ? & _)|[(_ & _ & _ & [?|?])|(it & rest' & _ & Hm' & _ & Hd)]];
    [done|congruence|lia|]. assert (it = p) as -> by congruence.
  destruct Hd as [[-> ->]|Hd].
  - apply (runs_step 3 w k (Go f64_zero) w (WAsk p) []); rewrite ?app_nil_r; try done.
    apply (runs_step 2 _ (k <| pc := WAsk p |>) (Answer true)
      (w <| workers := [k <| pc := WAsk p |>] |>) (WAnswered p true) []);
      rewrite ?app_nil_r; try done.
    eapply run_answered; [by apply (can_start_ext w)|reflexivity|reflexivity].
  - pose proof (run_dequeued w k p f64_zero Hc Hk) as H. rewrite Hd in H. destruct H as [H1 H2].
    apply (runs_step 3 w k (Go f64_zero) w1 pc' []); rewrite ?app_nil_r; try done.
    by apply (runs_more 1); [lia|].
Qed.

(** One step to the top of the loop, then the head. *)
Lemma run_to_top w k ch w1 p pre :
  can_start w1 p → workers w = [k] → workerStep k ch w = Some (w1, WTop) →
  started w1 = started w ++ pre → runs 5 w (pre ++ [p]).
Proof.
  intros Hc Hk Hs Hst. apply (runs_step 4 w k ch w1 WTop); try done.
  eapply run_top; [by apply (can_start_ext w1)|reflexivity|reflexivity].
Qed.

Lemma run_clear w k p :
  can_start w p → workers w = [k] → pc k = WClear → runs 5 w [p].
Proof.
  intros Hc Hk Hp. apply (run_to_top w k (Go f64_zero) (upd (λ s, s <| activeQueuedID := "" |>) w) p []).
  - by apply (can_start_ext w).
  - done.
  - unfold workerStep. by rewrite Hp.
  - cbn. by rewrite app_nil_r.
Qed.

Lemma run_await w k p d :
  can_start w p → workers w = [k] → pc k = WAwait d → d ∈ closed w → runs 6 w [p].
Proof.
  intros Hc Hk Hp Hd. apply (runs_step 5 w k Changed w WClear []); rewrite ?app_nil_r; try done.
  - unfold workerStep, isClosed. by rewrite Hp, bool_decide_eq_true_2.
  - eapply run_clear; [by apply (can_start_ext w)|reflexivity|reflexivity].
Qed.

Lemma run_not_ready w k p it :
  can_start w p → workers w = [k] → pc k = WAnswered it false → runs 6 w [p].
Proof.
  intros Hc Hk Hp. destruct (workerAnswered f64_zero it false w) as [w1 pc'] eqn:E.
  assert (workerStep k (Go f64_zero) w = Some (w1, pc')) as Hs.
  { unfold workerStep. by rewrite Hp, E. }
  apply workerAnswered_cases in E as [(-> & ->)|[(-> & _ & _ & ->)|(? & ? & _)]]; [..|done].
  - apply (runs_more 5); [lia|]. by apply (run_to_top w k (Go f64_zero) w p []); rewrite ?app_nil_r.
  - apply (runs_step 5 w k (Go f64_zero) w (WRetry (queueChanged (sess w))) []);
      rewrite ?app_nil_r; try done.
    set (k' := k <| pc := WRetry (queueChanged (sess w)) |>).
    apply (run_to_top _ k' Timer (w <| workers := [k'] |>) p []); try done.
    + by apply (can_start_ext w).
    + by rewrite app_nil_r.
Qed.

Lemma run_said_ready w k p it :
  can_start w p → workers w = [k] → pc k = WAnswered it true → runs 5 w [p].
Proof.
  intros Hc Hk Hp. destruct (decide (it = p)) as [->|Hne].
  { apply (runs_more 2); [lia|]. by apply (run_answered w k). }
  apply (run_to_top w k (Go f64_zero) w p []); rewrite ?app_nil_r; try done.
  unfold workerStep. rewrite Hp. unfold workerAnswered. destruct Hc as [Ho [rest Hm] _ _].
  rewrite Hm. simpl head. rewrite (bool_decide_eq_false_2 (Some p = Some it)) by congruence.
  by rewrite orb_true_r.
Qed.


(** ** Concrete sessions for the witnesses *)
Definition demo (es : list event) : world := default (initial zeroSession) (execs es (initial zeroSession)).

Lemma zeroSession_fresh : session_fresh zeroSession.
Proof. by repeat split. Qed.

Lemma demo_reachable es w : execs es (initial zeroSession) = Some w → reachable w.
Proof. exists zeroSession, es. split; [apply zeroSession_fresh|done]. Qed.

(** One message queued behind a running one that has been released. *)
Definition demo_waiting : list event :=
  [ESubmit "m1" 0 false None; EWorker 0 (Go f64_zero); ESubmit "m2" 1 false None;
   EPrepareEnd f64_zero; EClosure 0 false].


(** ** The theorems *)

Lemma submit_turn id run wait ready w :
  turnDone (sess (submit id run wait ready w)) = turnDone (sess w) ∧
  state (sess (submit id run wait ready w)) = state (sess w).
Proof.
  unfold submit, submitReady. destruct (State_is _ _); [done|].
  destruct (startWorker_view w) as (_ & _ & _ & <- & _ & <- & _).
  generalize (startWorker w). clear w. intros w. destruct (negb _ && _); [done|].
  destruct (_ <? _)%nat; [|by destruct wait].
  unfold newTurn. cbv beta iota zeta.
  match goal with |- context [signalQueueLocked ?x] => destruct (signal_view x) as (-> & _) end. done.
Qed.

Lemma finish_turn p r w :
  turnDone (sess (finishReserved p r w)) = turnDone (sess w) ∧
  state (sess (finishReserved p r w)) = state (sess w).
Proof.
  unfold finishReserved.
  match goal with |- context [signalQueueLocked ?x] => destruct (signal_view x) as (-> & _) end.
  destruct (held w p), r; try done; cbn; by destruct (list_find _ _) as [[]|].
Qed.

(** Every assignment of [turnDone], and who makes it. *)
Lemma turn_step e w w' :
  worker_ok w → exec e w = Some w' →
  (turnDone (sess w') = turnDone (sess w)) ∨
  ((e = EClose ∨ (∃ now, e = EPrepareEnd now) ∨
      ((∃ id ready run, e = EDefer id ready run) ∧ state (sess w) = Streaming)) ∧
     turnDone (sess w') = None ∧ turnDone (sess w) ≠ turnDone (sess w')) ∨
  ((∃ i ch, e = EWorker i ch) ∧ turnDone (sess w) = None ∧ state (sess w) ≠ Closed).
Proof.
  intros Hw He.
  destruct e; simpl in He; simplify_eq.
  - left. apply submit_turn.
  - guards_in He. left.
    match goal with |- context [submit ?a ?b ?c ?d ?x] => destruct (submit_turn a b c d x) as [-> _] end.
    done.
  - guards_in He. by left.
  - left. by destruct (reserve_cases id requireActive exclusive w)
      as [[-> _]|(p & _ & _ & _ & -> & _)].
  - left. unfold CancelQueued. repeat case_match; try done. cbn [fst].
    match goal with |- context [signalQueueLocked ?x] => destruct (signal_view x) as (-> & _) end. done.
  - unfold DeferActiveNamed. destruct (turnDone (sess w)) as [d|] eqn:Hd; [|by left].
    destruct (_ || _) eqn:Hg; [by left|]. right; left.
    apply orb_false_iff in Hg as [_ Hst]. bool_facts. apply State_is_true in Hst.
    unfold newTurn. cbv beta iota zeta delta [fst].
    match goal with |- context [signalQueueLocked ?x] => destruct (signal_view x) as (-> & _) end.
    match goal with |- context [closeChan d ?x] => destruct (closeOpt_view (Some d) x) as (E & _) end.
    simpl in E. rewrite E. split_and!; [right; right; eauto|done|done].
  - destruct (PrepareEnd_view now w) as (_ & _ & _ & E & _). rewrite E.
    destruct (turnDone (sess w)); [right; left|by left]. split_and!; [right; left; eauto|done|done].
  - left. unfold MarkStopping. by case_match.
  - left. unfold RestoreStreamingAfterUnconfirmedStop. by case_match.
  - destruct (decide (state (sess w) = Closed)) as [E|E]; [left; by rewrite Close_closed|].
    destruct (Close_view w E) as (_ & _ & _ & E' & _). rewrite E'.
    destruct (turnDone (sess w)); [right; left|by left]. split_and!; [by left|done|done].
  - left. unfold HoldQueue. by case_match.
  - left. destruct (applyFuture_view (sess w)) as (_ & E & _).
    unfold ReserveConfiguration. by repeat case_match.
  - destruct (closures w !! i) as [x|]; [|done]. injection He as <-. left.
    destruct x as [p| | |d]; cbn [runClosure];
      [by destruct (finish_turn p remove (w <| closures := delete i (closures w) |>)) as [-> _]|..].
    + unfold releaseHold.
      match goal with |- context [signalQueueLocked ?x] => destruct (signal_view x) as (-> & _) end.
      by case_match.
    + unfold releaseConfiguration.
      match goal with |- context [signalQueueLocked ?x] => destruct (signal_view x) as (-> & _) end.
      by case_match.
    + by destruct (closeOpt_view d (w <| closures := delete i (closures w) |>)) as (-> & _).
  - left. unfold SetFutureConfiguration. cbn. by repeat case_match.
  - by left.
  - left. unfold ActivateQueuedConfiguration. cbn. by repeat case_match.
  - destruct Hw as [Hn|[k Hk]]; [by rewrite (n_list w Hn) in He|].
    rewrite (k_list w k Hk) in He. destruct i as [|i]; [|done]. simpl in He.
    destruct (workerStep k ch w) as [[w1 p]|] eqn:Hs; [|done]. injection He as <-. cbn [sess].
    change (turnDone (sess (w1 <| workers := _ |>))) with (turnDone (sess w1)).
    pose proof (k_pc w k Hk) as Hpc. unfold workerStep in Hs.
    destruct (pc k), ch; simpl in Hpc; try done; try (simplify_eq; by left); try (guards_in Hs; by left).
    + injection Hs as Hs. apply workerTop_cases in Hs.
      destruct Hs as [(-> & _)|[(-> & _)|(it & rest & ? & ? & ? & _)]]; [by left..|].
      right; right. split_and!; [by eauto|by destruct Hpc|done].
    + injection Hs as Hs. apply workerAnswered_cases in Hs.
      destruct Hs as [(-> & _)|[(-> & _)|(rest & ? & ? & _)]]; [by left..|].
      right; right. split_and!; [by eauto|by destruct Hpc|done].
    + injection Hs as <- <-. left.
      destruct (closeOpt_view (Some (wexited k)) w) as (E & _). simpl in E. by rewrite E.
Qed.

(** C2: the turn queue implements the abstract queue.
    Whatever the interleaving of submissions, cancellations, reservations,
    stops, turn ends, closures and worker steps, each step of the detailed
    machine is invisible or is exactly one step of the abstract queue:
    messages enter at the back under an unused id, leave from the front one
    at a time when nothing is in flight or reserved, and only the owner of a
    reservation can resolve it. *)
Theorem turn_queue_refines w e w' :
  reachable w → exec e w = Some w' → abs w' = abs w ∨ astep (abs w) (abs w').
Proof. intros H%reachable_inv He. exact (exec_simulates e w w' H He). Qed.

Lemma turn_queue_refines_witness :
  let w := demo [ESubmit "m1" 7 false None] in
  ∃ w', exec (EWorker 0 (Go f64_zero)) w = Some w' ∧
    abs w = mkAq true [mkTurn "m1" 7 false None] None 0 ∧
    abs w' = mkAq true [] (Some "m1") 0 ∧ (abs w' = abs w ∨ astep (abs w) (abs w')).
Proof.
  eexists. split; [vm_compute; reflexivity|]. split; [vm_compute; reflexivity|].
  split; [vm_compute; reflexivity|].
  apply (turn_queue_refines _ (EWorker 0 (Go f64_zero))).
  - apply (demo_reachable [ESubmit "m1" 7 false None]). vm_compute. reflexivity.
  - vm_compute. reflexivity.
Defined.

(** C4: at most one worker exists, a session is streaming
    exactly while one turn is in flight, that turn is the one the worker is
    running or waiting for, and a turn begins only when none is in flight. *)
Theorem single_flight w :
  reachable w →
  (length (workers w) ≤ 1)%nat ∧
  (IsStreaming (sess w) = true ↔ turnDone (sess w) ≠ None) ∧
  (∀ d, turnDone (sess w) = Some d →
     ∃ k, workers w = [k] ∧ d ∉ closed w ∧ ((∃ item, pc k = WRun item d) ∨ pc k = WAwait d)) ∧
  (∀ e w' d, exec e w = Some w' → turnDone (sess w') = Some d →
     turnDone (sess w) = Some d ∨ turnDone (sess w) = None).
Proof.
  intros Hr. pose proof (reachable_inv w Hr) as [Hch Hq Hok Hw]. split_and!.
  - destruct Hw as [Hn|[k Hk]]; [by rewrite (n_list w Hn); simpl; lia|by rewrite (k_list w k Hk)].
  - apply (q_phase w Hq).
  - intros d Hd. destruct Hw as [Hn|[k Hk]]; [by rewrite (n_turn w Hn) in Hd|].
    exists k. split_and!; [by apply k_list|by apply (owned_turnDone w)|].
    pose proof (k_pc w k Hk) as Hpc.
    destruct (pc k) as [|c|it|it b|c|it d'|d'| | |]; simpl in Hpc; rewrite ?Hd in Hpc;
      try done; try (by destruct Hpc); destruct Hpc as [_ Hu].
    + left. exists it. by rewrite (Hu d eq_refl).
    + right. by rewrite (Hu d eq_refl).
  - intros e w' d He Hd. destruct (turn_step e w w' Hw He) as [E|[(_ & E & _)|(_ & E & _)]];
      [left|congruence|right]; congruence.
Qed.

Lemma single_flight_witness :
  (length (workers (demo demo_waiting)) ≤ 1)%nat ∧
  turnDone (sess (demo (take 3 demo_waiting))) ≠ None ∧
  (IsStreaming (sess (demo (take 3 demo_waiting))) = true).
Proof.
  split_and!.
  - apply (single_flight (demo demo_waiting)). apply (demo_reachable demo_waiting). vm_compute. reflexivity.
  - vm_compute. discriminate.
  - apply (single_flight (demo (take 3 demo_waiting))).
    + apply (demo_reachable (take 3 demo_waiting)). vm_compute. reflexivity.
    + vm_compute. discriminate.
Defined.

(** no interleaving closes a channel twice: the queue never
    crashes the process, and every channel the session, the worker or a
    pending release still owns is open. *)
Theorem never_panics w :
  reachable w → panicked w = false ∧ ∀ c, (1 ≤ owners c w)%nat → c ∉ closed w.
Proof.
  intros [Hch _ _ _]%reachable_inv. split; [apply Hch|]. intros c Hc. by apply (ch_open w Hch).
Qed.

Lemma never_panics_witness :
  let w := demo (demo_waiting ++ [EClose; EClose; EPrepareEnd f64_zero; EClosure 0 false]) in
  state (sess w) = Closed ∧ panicked w = false.
Proof.
  intros w. split; [vm_compute; reflexivity|]. apply (never_panics w).
  apply (demo_reachable (demo_waiting ++ [EClose; EClose; EPrepareEnd f64_zero; EClosure 0 false])).
  vm_compute. reflexivity.
Defined.

(** a caller blocked in [Submit] is never stranded:
    once the mailbox has room the channel it waits on is closed, and once the
    session is closed so is its quit channel. *)
Theorem blocked_submit_wakes w i a :
  reachable w → waiters w !! i = Some a →
  ((length (mailbox (sess w)) < mailboxSize)%nat → is_Some (exec (EWake i) w)) ∧
  (state (sess w) = Closed → is_Some (exec (EWaiterQuit i) w)).
Proof.
  intros [Hch Hq Hok Hw]%reachable_inv Hi.
  destruct Hw as [Hn|[k Hk]]; [by rewrite (n_wait w Hn) in Hi|].
  assert (a ∈ waiters w) as Ha by by eapply list_elem_of_lookup_2.
  destruct (k_wait w k Hk a Ha) as (Hqa & ch & Hca & Hor).
  simpl. rewrite Hi. split; intros H.
  - unfold isClosed. rewrite Hca. rewrite bool_decide_eq_true_2; [by eexists|].
    destruct Hor as [?|[_ ?]]; [done|lia].
  - unfold isClosed. rewrite Hqa. rewrite bool_decide_eq_true_2; [by eexists|].
    by destruct (k_closed w k Hk H).
Qed.

(** Sixty-five submissions while a turn runs: the last caller blocks. *)
Definition demo_full : list event :=
  [ESubmit "" 0 true None; EWorker 0 (Go f64_zero)] ++
  repeat (ESubmit "" 1 true None) 65.

Lemma blocked_submit_wakes_witness :
  let w := demo (demo_full ++ [EPrepareEnd f64_zero; EWorker 0 (Go f64_zero); EClosure 0 false;
                               EWorker 0 Changed; EWorker 0 (Go f64_zero); EWorker 0 (Go f64_zero)]) in
  length (waiters w) = 1%nat ∧ is_Some (exec (EWake 0) w).
Proof.
  intros w. split; [vm_compute; reflexivity|].
  eapply (blocked_submit_wakes w 0).
  - apply (demo_reachable (demo_full ++ [EPrepareEnd f64_zero; EWorker 0 (Go f64_zero); EClosure 0 false;
             EWorker 0 Changed; EWorker 0 (Go f64_zero); EWorker 0 (Go f64_zero)])).
    vm_compute. reflexivity.
  - vm_compute. reflexivity.
  - apply Nat.ltb_lt. vm_compute. reflexivity.
Defined.

(** the hold counter is exactly the number of
    reservation closures still to be called; a reserved message stays in the
    mailbox and has exactly one owner; and while any reservation is
    outstanding the worker takes nothing. *)
Theorem reservations_accounted w :
  reachable w → state (sess w) ≠ Closed →
  queueHolds (sess w) = Z.of_nat (countb is_hold (closures w)) ∧
  (∀ p, held w p = true ↔ CFinish p ∈ closures w) ∧
  (∀ p, CFinish p ∈ closures w → p ∈ mailbox (sess w) ∧ countb (is_finish p) (closures w) = 1%nat) ∧
  (0 < queueHolds (sess w) → ∀ i ch w', exec (EWorker i ch) w = Some w' →
     mailbox (sess w') = mailbox (sess w) ∧ turnDone (sess w') = turnDone (sess w)).
Proof.
  intros Hr Ho. pose proof (reachable_inv w Hr) as [Hch Hq Hok Hw].
  assert (∀ p, held w p = true ↔ CFinish p ∈ closures w) as Hheld.
  { intros p. pose proof (h_held w Hok Ho p) as Hc. split; intros H.
    - rewrite H in Hc. destruct (countb_pos_inv (is_finish p) (closures w)) as (x & Hx & Hf); [by rewrite Hc|].
      destruct x; try done. unfold is_finish in Hf. by apply bool_decide_eq_true in Hf as ->.
    - pose proof (countb_pos (is_finish p) _ _ H) as Hp. rewrite Hc in Hp.
      destruct (held w p); [done|]. simpl in Hp. unfold is_finish in Hp.
      rewrite bool_decide_eq_true_2 in Hp by done. specialize (Hp eq_refl). lia. }
  split_and!; [by apply (h_count w Hok)|done| |].
  - intros p Hp. apply Hheld in Hp. split; [by apply (h_in w Hok)|].
    by rewrite (h_held w Hok Ho p), Hp.
  - intros Hh i ch w' He. simpl in He. destruct (workers w !! i) as [k|]; [|done].
    destruct (workerStep k ch w) as [[w1 p]|] eqn:Hs; [|done]. injection He as <-.
    change (mailbox (sess w1) = mailbox (sess w) ∧ turnDone (sess w1) = turnDone (sess w)).
    unfold workerStep in Hs. destruct (pc k), ch; simplify_eq; try done; try by guards_in Hs.
    + apply workerTop_cases in Hs.
      destruct Hs as [(-> & _)|[(-> & _)|(it & rest & ? & ? & ? & _)]]; done || lia.
    + apply workerAnswered_cases in Hs.
      destruct Hs as [(-> & _)|[(-> & _)|(rest & ? & ? & ? & ? & _)]]; done || lia.
    + destruct (closeOpt_view (Some (wexited k)) w) as (E & _). simpl in E. by rewrite E.
Qed.

Lemma reservations_accounted_witness :
  let w := demo (demo_waiting ++ [EReserve "m2" false true; EHold]) in
  queueHolds (sess w) = 2 ∧ queueHolds (sess w) = Z.of_nat (countb is_hold (closures w)).
Proof.
  intros w. split; [vm_compute; reflexivity|]. apply (reservations_accounted w).
  - apply (demo_reachable (demo_waiting ++ [EReserve "m2" false true; EHold])).
    vm_compute. reflexivity.
  - vm_compute. discriminate.
Defined.

(** the backlog never exceeds the mailbox size while a
    turn is in flight, and is at most one over it after a turn was put back;
    no two waiting messages share an id, nor does one share the id of the
    turn in flight; a closed session has an empty backlog. *)
Theorem mailbox_bounded w :
  reachable w →
  (QueueLen w ≤ mailboxSize + 1)%nat ∧ (IsStreaming (sess w) = true → (QueueLen w ≤ mailboxSize)%nat) ∧
  (∀ i j t u, items w !! i = Some t → items w !! j = Some u → qid t = qid u → qid t ≠ "" → i = j) ∧
  (IsStreaming (sess w) = true → ∀ t, t ∈ items w → qid t ≠ "" → qid t ≠ activeQueuedID (sess w)) ∧
  (state (sess w) = Closed → QueueLen w = 0%nat).
Proof.
  intros [Hch Hq Hok Hw]%reachable_inv. split_and!.
  - apply (q_len w Hq).
  - intros H. apply (q_len' w Hq). by apply (q_phase w Hq).
  - intros i j t u Hi Hj He Hne. unfold items in Hi, Hj. rewrite list_lookup_fmap in Hi, Hj.
    destruct (mailbox (sess w) !! i) as [p|] eqn:Ep; [|done].
    destruct (mailbox (sess w) !! j) as [q|] eqn:Eq; [|done]. simplify_eq/=.
    apply (NoDup_lookup _ i j p (q_nodup w Hq) Ep).
    assert (p ∈ mailbox (sess w)) as Hp by by eapply list_elem_of_lookup_2.
    assert (q ∈ mailbox (sess w)) as Hq' by by eapply list_elem_of_lookup_2.
    destruct (q_alloc w Hq p Hp) as [t Ht], (q_alloc w Hq q Hq') as [u Hu].
    unfold at_ in *. rewrite Ht, Hu in *. simpl in *.
    by rewrite (q_ids w Hq p q t u).
  - intros H t (p & Hp & Ht)%items_elem; [|done]. apply (q_active w Hq p t); [|done..].
    by apply (q_phase w Hq).
  - intros H. unfold QueueLen. by rewrite (q_closed w Hq H).
Qed.

Lemma mailbox_bounded_witness :
  QueueLen (demo demo_full) = 64%nat ∧ (QueueLen (demo demo_full) ≤ mailboxSize)%nat.
Proof.
  split; [vm_compute; reflexivity|]. apply (mailbox_bounded (demo demo_full)).
  - apply (demo_reachable demo_full). vm_compute. reflexivity.
  - vm_compute. reflexivity.
Defined.

(** a stop request alone never releases the actor.  While
    the session is stopping, nothing but the observed end of the turn or the
    closing of the session drops the turn in flight, the session stays
    Stopping or returns to Streaming, and no other message starts. *)
Theorem stop_keeps_turn w e w' :
  reachable w → state (sess w) = Stopping → exec e w = Some w' →
  e ≠ EClose → (∀ now, e ≠ EPrepareEnd now) →
  turnDone (sess w') = turnDone (sess w) ∧ turnDone (sess w) ≠ None ∧
  IsStreaming (sess w') = true.
Proof.
  intros Hr Hs He H1 H2. pose proof (reachable_inv w Hr) as Hinv.
  assert (turnDone (sess w) ≠ None) as Hd.
  { apply (q_phase w (i_queue w Hinv)). unfold IsStreaming. by rewrite Hs. }
  assert (turnDone (sess w') = turnDone (sess w)) as Ht.
  { destruct (turn_step e w w' (i_worker w Hinv) He) as [?|[(Hx & _)|(_ & ? & _)]]; [done| |done].
    destruct Hx as [?|[[now Hx]|[_ ?]]]; [done|by destruct (H2 now)|congruence]. }
  split_and!; [done..|]. apply (q_phase w' (i_queue w' (exec_inv e w w' He Hinv))). by rewrite Ht.
Qed.

Lemma stop_keeps_turn_witness :
  let w := demo (take 3 demo_waiting ++ [EMarkStopping]) in
  state (sess w) = Stopping ∧
  ∃ w', exec (EDefer "m1" None 5) w = Some w' ∧ turnDone (sess w') = turnDone (sess w).
Proof.
  intros w. split; [vm_compute; reflexivity|]. eexists. split; [vm_compute; reflexivity|].
  apply (stop_keeps_turn w (EDefer "m1" None 5)).
  - apply (demo_reachable (take 3 demo_waiting ++ [EMarkStopping])). vm_compute. reflexivity.
  - vm_compute. reflexivity.
  - vm_compute. reflexivity.
  - discriminate.
  - discriminate.
Defined.

(** ** Shutdown *)
Definition exit_rank (p : wpc) : nat :=
  match p with
  | WGone => 0 | WExit => 1 | WTop => 2 | WSleep _ | WRetry _ | WAnswered _ _ | WClear => 3
  | WAsk _ | WAwait _ => 4 | WRun _ _ => 5
  end.

Lemma closed_stays k ch w w' p :
  workerStep k ch w = Some (w', p) → state (sess w) = Closed → state (sess w') = Closed.
Proof.
  intros Hs Hc. unfold workerStep in Hs. destruct (pc k), ch; simplify_eq; try done; try by guards_in Hs.
  - apply workerTop_cases in Hs.
    destruct Hs as [(-> & _)|[(-> & _)|(it & rest & ? & _)]]; done.
  - apply workerAnswered_cases in Hs.
    destruct Hs as [(-> & _)|[(-> & _)|(rest & ? & ? & _)]]; done.
  - destruct (closeOpt_view (Some (wexited k)) w) as (E & _). simpl in E. by rewrite E.
Qed.

(** Each step of the worker of a closed session brings it closer to its exit. *)
Lemma closed_rank k ch w w' p :
  state (sess w) = Closed → workerStep k ch w = Some (w', p) → (exit_rank p < exit_rank (pc k))%nat.
Proof.
  intros Hc Hs. unfold workerStep in Hs.
  destruct (pc k), ch; simplify_eq; simpl; try lia; try (guards_in Hs; simpl; lia).
  - apply workerTop_cases in Hs.
    destruct Hs as [(-> & _ & ->)|[(-> & ? & _)|(it & rest & ? & _)]]; [simpl; lia|done..].
  - apply workerAnswered_cases in Hs.
    destruct Hs as [(-> & ->)|[(-> & ? & _)|(rest & ? & ? & _)]]; [simpl; lia|done..].
Qed.

(** And it is never stuck before that. *)
Lemma closed_step w k :
  one_worker w k → state (sess w) = Closed → pc k ≠ WGone →
  ∃ ch w' p, workerStep k ch w = Some (w', p).
Proof.
  intros Hk Hc Hp. destruct (k_closed w k Hk Hc) as [_ Hq].
  assert (isClosed w (Some (wquit k)) = true) as E by (by apply bool_decide_eq_true).
  unfold workerStep.
  destruct (pc k); try done; first [by exists (Go f64_zero); eexists _, _
    |exists Quit; rewrite E; by eexists _, _|exists (Answer true); by eexists _, _
    |exists (Go f64_zero); destruct (workerTop _ _), (workerAnswered _ _ _ _); by eexists _, _|idtac].
  - exists (Go f64_zero). destruct (workerTop f64_zero w). by eexists _, _.
  - exists (Go f64_zero). destruct (workerAnswered f64_zero item ready w). by eexists _, _.
Qed.

(** after [Close] the worker goroutine returns, so
    [CloseAndWait] does too, provided the executor call in progress returns:
    the worker of a closed session always has a step until its exit channel
    is closed, and every step it takes, whatever it is, decreases the number
    of steps left, which is at most five.  It starts nothing on the way. *)
Theorem close_terminates w k :
  reachable w → state (sess w) = Closed → workers w = [k] →
  workerDone (sess w) = Some (wexited k) ∧ (exit_rank (pc k) ≤ 5)%nat ∧
  (pc k = WGone ↔ wexited k ∈ closed w) ∧
  (pc k ≠ WGone → ∃ ch w', exec (EWorker 0 ch) w = Some w') ∧
  (∀ ch w', exec (EWorker 0 ch) w = Some w' →
     state (sess w') = Closed ∧ ∃ k', workers w' = [k'] ∧ wexited k' = wexited k ∧
       (exit_rank (pc k') < exit_rank (pc k))%nat).
Proof.
  intros [Hch Hq Hok Hw]%reachable_inv Hc Hl.
  destruct Hw as [Hn|[k' Hk]]; [by rewrite (n_list w Hn) in Hl|].
  assert (k' = k) as -> by (pose proof (k_list w k' Hk); congruence).
  split_and!.
  - apply (k_done w k Hk).
  - destruct (pc k); simpl; lia.
  - split; [apply (k_gone w k Hk)|]. intros Hx. destruct (pc k) eqn:Hp; try done; exfalso.
    all: refine (proj2 (ch_open w Hch (wexited k) _) Hx); unfold owners; rewrite Hl; simpl;
      rewrite w_exits_self by (by rewrite Hp); simpl; lia.
  - intros Hp. destruct (closed_step w k Hk Hc Hp) as (ch & w' & p & Hs).
    exists ch. simpl. rewrite Hl. simpl. rewrite Hs. by eexists.
  - intros ch w' He. simpl in He. rewrite Hl in He. simpl in He.
    destruct (workerStep k ch w) as [[w1 p]|] eqn:Hs; [|done]. injection He as <-.
    split; [by apply (closed_stays k ch w w1 p)|].
    exists (k <| pc := p |>). pose proof (workerStep_workers k ch w w1 p Hs) as Hw1.
    split_and!; [|done|by eapply closed_rank].
    change (<[0%nat:=k <| pc := p |>]> (workers w1) = [k <| pc := p |>]). by rewrite Hw1, Hl.
Qed.

Lemma close_terminates_witness :
  let w := demo (take 3 demo_waiting ++ [EWorker 0 (Go f64_zero); EClose]) in
  ∃ k, workers w = [k] ∧ pc k ≠ WGone ∧ ∃ ch w', exec (EWorker 0 ch) w = Some w'.
Proof.
  intros w. eexists. split; [vm_compute; reflexivity|]. split; [discriminate|].
  eapply (close_terminates w).
  - apply (demo_reachable (take 3 demo_waiting ++ [EWorker 0 (Go f64_zero); EClose])).
    vm_compute. reflexivity.
  - vm_compute. reflexivity.
  - vm_compute. reflexivity.
  - discriminate.
Defined.

(** retiring an idle session is closing it: on a session with
    nothing running, queued or reserved the inline shutdown of the pruning
    pass has exactly the effect of [Close], so its worker returns as after
    [Close] and a later [Submit] is refused; on any other session it does
    nothing. *)
Theorem retire_closes w id run wait ready :
  (quiet (sess w) = true →
     RetireIdle w = Close w ∧ state (sess (RetireIdle w)) = Closed ∧
     submitReady id run wait ready (RetireIdle w) = (RetireIdle w, SReturn false)) ∧
  (quiet (sess w) = false → RetireIdle w = w).
Proof.
  unfold RetireIdle. split; intros Hq; rewrite Hq; [|done].
  unfold quiet in Hq. repeat (apply andb_true_iff in Hq as [Hq ?]). bool_facts.
  apply State_is_true in Hq. assert (state (sess w) ≠ Closed) as Ho by by rewrite Hq.
  match goal with |- ?x = _ ∧ _ => set (w' := x) end.
  assert (w' = Close w) as E.
  { subst w'. unfold Close, State_is at 1. rewrite bool_decide_eq_false_2 by done.
    set (w1 := upd (λ s, s <| quit := None |>) _).
    assert (mailbox (sess w1) = []) as Hm.
    { subst w1. cbn.
      match goal with |- context [closeOpt ?o ?x] => destruct (closeOpt_view o x) as (-> & _) end. cbn.
      match goal with |- context [closeOpt ?o ?x] => destruct (closeOpt_view o x) as (-> & _) end. done. }
    rewrite Hm. cbn [fold_left]. do 2 f_equal. unfold upd. cbn beta.
    assert ((sess w1) <| mailbox := [] |> <| queueHolds := 0 |> = (sess w1) <| queueHolds := 0 |>) as ->;
      [|done]. revert Hm. generalize (sess w1). intros s Hs. destruct s; cbn in *. by subst. }
  destruct (Close_view w Ho) as (_ & _ & _ & _ & _ & Hs & _). rewrite <- E in Hs.
  split_and!; [done|done|]. unfold submitReady, State_is. by rewrite bool_decide_eq_true_2.
Qed.

Lemma retire_closes_witness :
  let w := demo [ESubmit "m1" 0 false None; ECancel "m1"] in
  length (workers w) = 1%nat ∧ RetireIdle w = Close w.
Proof.
  intros w. split; [vm_compute; reflexivity|].
  apply (retire_closes w "" 0 false None). vm_compute. reflexivity.
Defined.

(** ** Each message runs at most once *)
Record once_ok (w : world) : Prop := {
  o_nodup : NoDup (started w);
  o_bound : ∀ p, p ∈ started w → (p < fresh w)%nat ∧ p ∉ mailbox (sess w);
  o_next : ∀ k it d, k ∈ workers w → pc k = WRun it d →
    (it < fresh w)%nat ∧ it ∉ mailbox (sess w) ∧ it ∉ started w }.

(** A step that runs nothing, and adds nothing but a new turn. *)
Lemma once_ext w w' :
  started w' = started w → workers w' = workers w → (fresh w ≤ fresh w')%nat →
  (∀ p, (p < fresh w)%nat → p ∈ mailbox (sess w') → p ∈ mailbox (sess w)) →
  once_ok w → once_ok w'.
Proof.
  intros H1 H2 H3 H4 []. split; rewrite ?H1, ?H2; try done.
  - intros p Hp. destruct (o_bound0 p Hp). split; [lia|]. intros Hx. auto.
  - intros k it d Hk Hp. destruct (o_next0 k it d Hk Hp) as (? & ? & ?).
    split_and!; [lia| |done]. intros Hx. auto.
Qed.

Definition grows (w w' : world) : Prop :=
  started w' = started w ∧ (fresh w ≤ fresh w')%nat ∧
  ∀ p, (p < fresh w)%nat → p ∈ mailbox (sess w') → p ∈ mailbox (sess w).

Lemma grows_signal w w1 : grows w w1 → grows w (signalQueueLocked w1).
Proof.
  intros (H1 & H2 & H3). destruct (signal_view w1) as (E1 & _ & _ & _ & _ & E6).
  pose proof (signal_fresh w1) as E7. unfold grows. rewrite E1, E6, E7. split_and!; [done|lia|done].
Qed.

Lemma grows_refl w : grows w w.
Proof. unfold grows. split_and!; done || lia. Qed.

Lemma submit_grows id run wait ready w :
  grows w (submit id run wait ready w) ∧
  ∀ k, k ∈ workers (submit id run wait ready w) → k ∈ workers w ∨ pc k = WTop.
Proof.
  unfold submit, submitReady. destruct (State_is _ _); [split; [apply grows_refl|by left]|].
  assert (grows w (startWorker w) ∧ ∀ k, k ∈ workers (startWorker w) → k ∈ workers w ∨ pc k = WTop)
    as [Hg Hk].
  { unfold startWorker. destruct (workerUp (sess w)); [split; [apply grows_refl|by left]|].
    cbn. split; [unfold grows; cbn; split_and!; done || lia|].
    intros k [?| ->%list_elem_of_singleton]%elem_of_app; [by left|by right]. }
  revert Hg Hk. generalize (startWorker w) as w1. intros w1 (G1 & G2 & G3) Hk.
  destruct (negb _ && _); [done|]. destruct (_ <? _)%nat; [|by destruct wait].
  unfold newTurn. cbv beta iota zeta.
  match goal with |- context [signalQueueLocked ?x] =>
    destruct (signal_view x) as (_ & _ & E3 & _); split; [apply grows_signal|by rewrite E3] end.
  split_and!; [done|cbn; lia|]. cbn. intros p Hp [?| ->%list_elem_of_singleton]%elem_of_app; [by auto|lia].
Qed.

Lemma delete_subset {A} i (l : list A) x : x ∈ delete i l → x ∈ l.
Proof. intros H. eapply elem_of_submseteq; [exact H|]. apply sublist_submseteq, sublist_delete. Qed.

Ltac same_grows := first [apply grows_refl | unfold grows; cbn; split_and!; (done || lia)].

(** Everything but the worker: the workers are those there were. *)
Lemma others_grow e w w' :
  worker_ok w → exec e w = Some w' → (∀ i ch, e ≠ EWorker i ch) →
  grows w w' ∧ ∀ k, k ∈ workers w' → k ∈ workers w ∨ pc k = WTop.
Proof.
  intros Hw He Hne.
  assert (∀ f, (∀ s, mailbox (f s) = mailbox s) → grows w (upd f w)) as Hupd.
  { intros f Hf. unfold grows. cbn. rewrite Hf. split_and!; done || lia. }
  destruct e; simpl in He; simplify_eq.
  - apply submit_grows.
  - guards_in He.
    match goal with |- context [submit ?a ?b ?c ?d ?x] => apply (submit_grows a b c d x) end.
  - guards_in He. split; [same_grows|by left].
  - destruct (reserve_cases id requireActive exclusive w)
      as [[-> _]|(p & _ & _ & _ & -> & _)]; (split; [same_grows|by left]).
  - unfold CancelQueued. repeat case_match; try (split; [same_grows|by left]). cbn [fst].
    match goal with |- context [signalQueueLocked ?x] =>
      destruct (signal_view x) as (_ & _ & E3 & _); split; [apply grows_signal|rewrite E3; by left] end.
    split_and!; [done|cbn; lia|]. cbn. intros q _. apply delete_subset.
  - unfold DeferActiveNamed. destruct (turnDone (sess w)) as [d|] eqn:Hd; [|split; [same_grows|by left]].
    destruct (_ || _) eqn:Hg; [split; [same_grows|by left]|].
    unfold newTurn. cbv beta iota zeta delta [fst].
    match goal with |- context [closeChan d ?x] => pose proof (closeOpt_view (Some d) x) as E end.
    simpl in E. match goal with |- context [signalQueueLocked ?x] => set (w1 := x) in * end.
    destruct E as (E1 & _ & E3 & E4 & _ & _ & E7).
    destruct (signal_view w1) as (_ & _ & S3 & _). split.
    + apply grows_signal. unfold grows. rewrite E1, E3, E7. cbn. split_and!; [done|lia|].
      intros p Hp [->|?]%elem_of_cons; [lia|done].
    + rewrite S3, E4. by left.
  - destruct (PrepareEnd_view now w) as (_ & E2 & E3 & _ & _ & _ & _ & _ & _ & _ & E11 & _).
    split; [|rewrite E11; by left]. unfold grows. rewrite E2, E3. split_and!; try lia; try done.
    unfold PrepareEndTurn. by destruct (IsStreaming (sess w)).
  - unfold MarkStopping. case_match; (split; [same_grows|by left]).
  - unfold RestoreStreamingAfterUnconfirmedStop. case_match; (split; [same_grows|by left]).
  - destruct (decide (state (sess w) = Closed)) as [E|E];
      [rewrite Close_closed by done; split; [same_grows|by left]|].
    destruct (Close_view w E) as (_ & E2 & E3 & _ & _ & _ & _ & _ & _ & _ & E11 & _).
    split; [|rewrite E11; by left]. unfold grows. rewrite E2, E3. split_and!; [|lia|].
    + apply (Close_sets w E).
    + intros p _ Hp. by apply elem_of_nil in Hp.
  - unfold HoldQueue. case_match; (split; [same_grows|by left]).
  - destruct (applyFuture_view (sess w)) as (E & _).
    unfold ReserveConfiguration. repeat case_match; try (split; [same_grows|by left]);
      (split; [|by left]); unfold grows; cbn; rewrite E; split_and!; done || lia.
  - destruct (closures w !! i) as [x|]; [|done]. injection He as <-.
    destruct x as [p| | |d]; cbn [runClosure].
    + unfold finishReserved.
      match goal with |- context [signalQueueLocked ?x] =>
        destruct (signal_view x) as (_ & _ & E3 & _); split; [apply grows_signal|rewrite E3] end.
      * destruct (held _ p), remove; try same_grows; cbn;
          destruct (list_find _ _) as [[]|]; try same_grows;
          (split_and!; [done|cbn; lia|cbn; intros q _; apply delete_subset]).
      * destruct (held _ p), remove; try (by left); destruct (list_find _ _) as [[]|]; by left.
    + unfold releaseHold.
      match goal with |- context [signalQueueLocked ?x] =>
        destruct (signal_view x) as (_ & _ & E3 & _); split; [apply grows_signal|rewrite E3] end;
      case_match; first [same_grows|by left].
    + unfold releaseConfiguration.
      match goal with |- context [signalQueueLocked ?x] =>
        destruct (signal_view x) as (_ & _ & E3 & _); split; [apply grows_signal|rewrite E3] end;
      case_match; first [same_grows|by left].
    + destruct (closeOpt_view d (w <| closures := delete i (closures w) |>))
        as (E1 & _ & E3 & E4 & _ & _ & E7).
      split; [unfold grows; rewrite E1, E3, E7; split_and!; done || (cbn; lia)|rewrite E4; by left].
  - split; [|by left]. apply Hupd. intros s. unfold SetFutureConfiguration. by repeat case_match.
  - split; [|by left]. by apply Hupd.
  - split; [|by left]. apply Hupd. intros s. unfold ActivateQueuedConfiguration. by repeat case_match.
  - by destruct (Hne i ch).
Qed.

Lemma dequeue_fresh now item w : (fresh w ≤ fresh (dequeue now item w).1)%nat.
Proof.
  unfold dequeue, beginTurnLocked, State_is. case_bool_decide; unfold makeChan; cbv beta iota zeta.
  all: cbn [fst]; rewrite signal_fresh.
  - match goal with |- context [closeChan ?c ?x] =>
      destruct (closeOpt_view (Some c) x) as (_ & _ & E & _); simpl in E end.
    cbn. rewrite E. cbn. lia.
  - cbn. lia.
Qed.

(** A worker that changes its program counter to anything but [WRun]. *)
Lemma once_pc w k p :
  workers w = [k] → (∀ it d, p ≠ WRun it d) → once_ok w →
  once_ok (w <| workers := [k <| pc := p |>] |>).
Proof.
  intros Hl Hp []. split; cbn; try done.
  intros k' it d ->%list_elem_of_singleton H. by destruct (Hp it d).
Qed.

Lemma workerStep_once w k ch w' p :
  inv w → one_worker w k → workerStep k ch w = Some (w', p) → once_ok w →
  once_ok (w' <| workers := [k <| pc := p |>] |>).
Proof.
  intros [Hch Hq Hok Hw] Hk Hs Ho. pose proof (k_list w k Hk) as Hl.
  assert (∀ p, (∀ it d, p ≠ WRun it d) → once_ok (w <| workers := [k <| pc := p |>] |>)) as Hsame
    by (intros; by apply once_pc).
  assert (∀ now item rest, state (sess w) ≠ Closed → mailbox (sess w) = item :: rest →
            dequeue now item w = (w', p) → once_ok (w' <| workers := [k <| pc := p |>] |>)) as Hdq.
  { intros now item rest Hst Hm Hd. assert (item ∈ mailbox (sess w)) as Hi by (rewrite Hm; left).
    destruct (q_alloc w Hq item Hi) as [t Ht].
    pose proof (dequeue_view now item rest t w Hst Hm Ht) as H.
    pose proof (dequeue_fresh now item w) as Hf. rewrite Hd in H, Hf. cbn [fst snd] in H, Hf.
    destruct H as (-> & _ & E3 & _ & _ & _ & _ & _ & _ & E10 & _).
    pose proof (q_nodup w Hq) as Hnd. rewrite Hm in Hnd. apply NoDup_cons in Hnd as [Hni _].
    destruct Ho. split; cbn; rewrite ?E10, ?E3; try done.
    - intros x Hx. destruct (o_bound0 x Hx) as [? Hn]. split; [lia|]. rewrite Hm in Hn.
      intros ?. apply Hn. by right.
    - intros k' it d ->%list_elem_of_singleton. cbn. intros [= <- _]. split_and!.
      + pose proof (q_heap w Hq item ltac:(by exists t)). lia.
      + done.
      + intros Hx. by destruct (o_bound0 _ Hx). }
  unfold workerStep in Hs. destruct (pc k) eqn:Hp, ch; try done.
  - injection Hs as Hs. apply workerTop_cases in Hs.
    destruct Hs as [(-> & _ & ->)|[(-> & _ & -> & _)|(it & rest & ? & ? & ? & [[-> ->]|Hd])]]; eauto.
  - guards_in Hs. by apply Hsame.
  - guards_in Hs. by apply Hsame.
  - simplify_eq. by apply Hsame.
  - injection Hs as Hs. apply workerAnswered_cases in Hs.
    destruct Hs as [(-> & ->)|[(-> & _ & _ & ->)|(rest & ? & ? & ? & ? & Hd)]]; eauto.
  - guards_in Hs. by apply Hsame.
  - simplify_eq. by apply Hsame.
  - guards_in Hs. by apply Hsame.
  - injection Hs as <- <-. assert (k ∈ workers w) as Hin by (rewrite Hl; left).
    destruct Ho. destruct (o_next0 k item done Hin Hp) as (H1 & H2 & H3). split; cbn.
    + apply NoDup_app; split_and!; [done| |apply NoDup_singleton].
      intros x Hx ->%list_elem_of_singleton. done.
    + intros x [?| ->%list_elem_of_singleton]%elem_of_app; [by apply o_bound0|done].
    + intros k' it d' ->%list_elem_of_singleton. done.
  - destruct (isClosed w (Some done)); [|done]. injection Hs as <- <-. by apply Hsame.
  - destruct (isClosed w (Some (wquit k))); [|done]. injection Hs as <- <-. by apply Hsame.
  - injection Hs as <- <-. destruct (Hsame WTop) as []; [done|]. by split.
  - injection Hs as <- <-. destruct (closeOpt_view (Some (wexited k)) w) as (E1 & _ & E3 & _ & _ & _ & E7).
    simpl in *. destruct (Hsame WGone) as []; [done|]. split; cbn; rewrite ?E1, ?E3, ?E7; done.
Qed.

Lemma exec_once e w w' : inv w → exec e w = Some w' → once_ok w → once_ok w'.
Proof.
  intros Hinv He Ho. pose proof (i_worker w Hinv) as Hw.
  assert ((∃ i ch, e = EWorker i ch) ∨ ∀ i ch, e ≠ EWorker i ch) as [(i & ch & ->)|Hne]
    by (destruct e; eauto; by right).
  - simpl in He. destruct Hw as [Hn|[k Hk]]; [by rewrite (n_list w Hn) in He|].
    rewrite (k_list w k Hk) in He. destruct i as [|i]; [|done]. simpl in He.
    destruct (workerStep k ch w) as [[w1 p]|] eqn:Hs; [|done]. injection He as <-.
    pose proof (workerStep_once w k ch w1 p Hinv Hk Hs Ho) as H.
    by rewrite (workerStep_workers k ch w w1 p Hs), (k_list w k Hk).
  - destruct (others_grow e w w' Hw He Hne) as [(G1 & G2 & G3) Hks].
    destruct Ho. split; rewrite ?G1; try done.
    + intros p Hp. destruct (o_bound0 p Hp). split; [lia|]. auto.
    + intros k it d Hk Hp. destruct (Hks k Hk) as [Hin|E]; [|congruence].
      destruct (o_next0 k it d Hin Hp) as (? & ? & ?). split_and!; [lia| |done]. auto.
Qed.

(** C3: however callers, reservations, deferrals and shutdown
    interleave, no queued message is ever run twice, and a message that has
    run, or that the worker has taken, is no longer waiting. *)
Theorem runs_once w :
  reachable w →
  NoDup (started w) ∧ (∀ p, p ∈ started w → p ∉ mailbox (sess w)) ∧
  (∀ k it d, k ∈ workers w → pc k = WRun it d → it ∉ started w ∧ it ∉ mailbox (sess w)).
Proof.
  intros (s & es & Hs & He).
  assert (once_ok w) as [].
  { assert (once_ok (initial s)) as H0 by (split; cbn; [constructor|by intros p ?%elem_of_nil|by intros k it d ?%elem_of_nil]).
    pose proof (initial_inv s Hs) as Hi. revert H0 Hi He. generalize (initial s).
    induction es as [|e es IH]; intros w0 H0 Hi He; simpl in He; [by simplify_eq|].
    destruct (exec e w0) as [w1|] eqn:E; [|done]. apply (IH w1); [|by eapply exec_inv|done].
    by eapply exec_once. }
  split_and!; [done| |].
  - intros p Hp. by apply o_bound0.
  - intros k it d Hk Hp. destruct (o_next0 k it d Hk Hp) as (? & ? & ?). done.
Qed.

Lemma runs_once_witness :
  let w := demo (demo_waiting ++ [EWorker 0 (Go f64_zero); EWorker 0 Changed; EWorker 0 (Go f64_zero);
                   EWorker 0 (Go f64_zero); EWorker 0 (Go f64_zero)]) in
  length (started w) = 2%nat ∧ NoDup (started w).
Proof.
  intros w. split; [vm_compute; reflexivity|]. apply (runs_once w).
  apply (demo_reachable (demo_waiting ++ [EWorker 0 (Go f64_zero); EWorker 0 Changed; EWorker 0 (Go f64_zero);
                   EWorker 0 (Go f64_zero); EWorker 0 (Go f64_zero)])).
  vm_compute. reflexivity.
Defined.
