(* ===== verification/SessionStore.v ===== *)
(** * The session metadata file

    [src/internal/session/store.go]: the JSON file shared with other writers,
    the fields the Bridge owns in each row, and [Load] and [Save].

    A [json.RawMessage] is modelled by the value it denotes.  A number is
    kept as the literal it is: [NInt] for digits without fraction or
    exponent, [NFloat] for any other literal and for what [json.Marshal]
    prints for a [float64] (whose shortest form reads back as the same
    double; the one float that is written, [created_at], is read back only
    as a float).  The file is [None] when it is missing, unreadable or not
    an object of objects: [loadRawLocked] treats these alike. *)

From S2P Require Import Prelude Session.
From Stdlib Require Import SpecFloat.

(** ** JSON *)
Inductive number := NInt (z : Z) | NFloat (f : f64).
Inductive json :=
  | JNull
  | JBool (b : bool)
  | JNum (n : number)
  | JStr (s : string)
  | JArr (l : list json)
  | JObj (l : list (string * json)).

(** *** Strings: [encoding/json] writes U+FFFD for each byte that is not part
    of a valid UTF-8 sequence. *)
Definition byte_in (lo hi : nat) (a : Ascii.ascii) : bool :=
  (lo <=? Ascii.nat_of_ascii a)%nat && (Ascii.nat_of_ascii a <=? hi)%nat.

(** The length of the valid sequence at the front, 0 when there is none. *)
Definition rune_len (s : list Ascii.ascii) : nat :=
  let cont := byte_in 128 191 in
  match s with
  | [] => 0
  | a :: s =>
      if byte_in 0 127 a then 1
      else match s with
      | [] => 0
      | b :: s =>
          if byte_in 194 223 a && cont b then 2
          else match s with
          | [] => 0
          | c :: s =>
              if (byte_in 224 224 a && byte_in 160 191 b
                  || (byte_in 225 236 a || byte_in 238 239 a) && cont b
                  || byte_in 237 237 a && byte_in 128 159 b) && cont c then 3
              else match s with
              | [] => 0
              | d :: _ =>
                  if (byte_in 240 240 a && byte_in 144 191 b
                      || byte_in 241 243 a && cont b
                      || byte_in 244 244 a && byte_in 128 143 b) && cont c && cont d
                  then 4 else 0
              end
          end
      end
  end%nat.

Definition replacement : list Ascii.ascii := map Ascii.ascii_of_nat [239; 191; 189]%nat.

(** One rune, or one bad byte, per unit of fuel: the length is enough. *)
Fixpoint coerce_utf8 (fuel : nat) (s : list Ascii.ascii) : list Ascii.ascii :=
  match fuel, s with
  | S n, a :: s' =>
      match rune_len s with
      | O => replacement ++ coerce_utf8 n s'
      | k => take k s ++ coerce_utf8 n (drop k s)
      end
  | _, _ => []
  end.
Definition json_text (s : string) : string :=
  let l := String.list_ascii_of_string s in
  String.string_of_list_ascii (coerce_utf8 (length l) l).
(** Valid UTF-8: what the encoder writes unchanged. *)
Definition utf8 (s : string) : Prop := json_text s = s.

(** *** [json.Marshal] of the field types *)
Definition mStr (s : string) : json := JStr (json_text s).
Definition mInt (z : Z) : json := JNum (NInt z).
Definition f64_finite (f : f64) : bool :=
  match f with S754_finite _ _ _ | S754_zero _ => true | _ => false end.
(** Marshalling an infinity or a NaN fails, and [put] stores the nil message. *)
Definition mFloat (f : f64) : json := if f64_finite f then JNum (NFloat f) else JNull.
Definition mStrs (l : list string) : json := JArr (map mStr l).

Abbreviation object := (gmap string json).

(** *** [json.Unmarshal]: [None] is an error.  A missing key is the nil
    message, which does not parse; [null] leaves the zero value. *)
Definition uString (v : option json) : option string :=
  match v with Some (JStr s) => Some s | Some JNull => Some "" | _ => None end.
Definition uInt64 (v : option json) : option Z :=
  match v with
  | Some (JNum (NInt z)) => if (i64_min <=? z) && (z <=? i64_max) then Some z else None
  | Some (JNum (NFloat (S754_zero _))) => Some 0
  | Some JNull => Some 0
  | _ => None
  end.
Definition uFloat64 (v : option json) : option f64 :=
  match v with
  | Some (JNum (NInt z)) => if f64_finite (f64_of_Z z) then Some (f64_of_Z z) else None
  | Some (JNum (NFloat f)) => if f64_finite f then Some f else None
  | Some JNull => Some f64_zero
  | _ => None
  end.
Definition uBool (v : option json) : option bool :=
  match v with Some (JBool b) => Some b | Some JNull => Some false | _ => None end.
Definition uStrings (v : option json) : option (list string) :=
  match v with
  | Some (JArr l) => mapM (λ x, uString (Some x)) l
  | Some JNull => Some []
  | _ => None
  end.

Definition rawString (obj : object) (key : string) : string := default "" (uString (obj !! key)).
Definition rawInt64 (obj : object) (key : string) : Z :=
  match uInt64 (obj !! key) with
  | Some i => i
  | None => match uFloat64 (obj !! key) with Some f => f64_to_i64 f | None => 0 end
  end.
Definition rawFloat64 (obj : object) (key : string) : f64 :=
  match uFloat64 (obj !! key) with
  | Some f => f
  | None => match uInt64 (obj !! key) with Some i => f64_of_Z i | None => f64_zero end
  end.
Definition rawBool (obj : object) (key : string) : bool := default false (uBool (obj !! key)).
Definition rawStrings (obj : object) (key : string) : list string := default [] (uStrings (obj !! key)).

(** ** Rows *)
Record savedEntry := mkSavedEntry {
  eConfigRevision : Z;
  eName : string;
  eMetadataRevision : Z;
  eNameUpdatedAt : Z;
  eNameUpdatedBy : string;
  eLastNameMutationID : string;
  eResumeID : string;
  eClaudeUUID : string;
  eLastUsed : Z;
  ePreviewText : string;
  ePreviewRole : string;
  ePreviewUpdatedAt : Z;
  ePreviewRevision : Z;
  eCwd : string;
  eBackend : string;
  eModel : string;
  eSandbox : string;
  eEffort : string;
  eServiceTier : string;
  eCollaborationMode : string;
  ePersonality : string;
  eHistoricalResumeIDs : list string;
  eCreatedAt : f64;
  ePinned : bool;
  eHidden : bool }.
#[export] Instance savedEntry_eta : Eta savedEntry := λ e,
  mkSavedEntry (eConfigRevision e) (eName e) (eMetadataRevision e) (eNameUpdatedAt e)
    (eNameUpdatedBy e) (eLastNameMutationID e) (eResumeID e) (eClaudeUUID e) (eLastUsed e)
    (ePreviewText e) (ePreviewRole e) (ePreviewUpdatedAt e) (ePreviewRevision e) (eCwd e)
    (eBackend e) (eModel e) (eSandbox e) (eEffort e) (eServiceTier e) (eCollaborationMode e)
    (ePersonality e) (eHistoricalResumeIDs e) (eCreatedAt e) (ePinned e) (eHidden e).

(** What [putKnownFields] does to each key it owns: a value to put, or a
    deletion; all other keys are left alone. *)
Definition knownFields (e : savedEntry) : list (string * option json) :=
  let preview := negb (str_empty (ePreviewText e)) && (0 <? ePreviewUpdatedAt e) in
  let when (b : bool) (v : json) := if b then Some v else None in
  [("name", Some (mStr (eName e)));
   ("metadata_revision", Some (mInt (eMetadataRevision e)));
   ("config_revision", Some (mInt (eConfigRevision e)));
   ("name_updated_at", Some (mInt (eNameUpdatedAt e)));
   ("name_updated_by", Some (mStr (eNameUpdatedBy e)));
   ("last_name_mutation_id", Some (mStr (eLastNameMutationID e)));
   ("resume_id", Some (mStr (eResumeID e)));
   ("claude_uuid", Some (mStr (eClaudeUUID e)));
   ("last_used", Some (mInt (eLastUsed e)));
   ("preview_text", when preview (mStr (ePreviewText e)));
   ("preview_role", when preview (mStr (ePreviewRole e)));
   ("preview_updated_at", when preview (mInt (ePreviewUpdatedAt e)));
   ("preview_revision", when preview (mInt (ePreviewRevision e)));
   ("cwd", Some (mStr (eCwd e)));
   ("backend", Some (mStr (eBackend e)));
   ("model", Some (mStr (eModel e)));
   ("sandbox", Some (mStr (eSandbox e)));
   ("effort", Some (mStr (eEffort e)));
   ("service_tier", Some (mStr (eServiceTier e)));
   ("collaboration_mode", Some (mStr (eCollaborationMode e)));
   ("personality", Some (mStr (ePersonality e)));
   ("historical_resume_ids",
      when (negb (bool_decide (eHistoricalResumeIDs e = []))) (mStrs (eHistoricalResumeIDs e)));
   ("created_at", Some (mFloat (eCreatedAt e)));
   ("pinned", when (ePinned e) (JBool true));
   ("hidden", when (eHidden e) (JBool true))].

Definition putField (obj : object) (kv : string * option json) : object :=
  match kv with (k, Some v) => <[k := v]> obj | (k, None) => delete k obj end.
Definition putKnownFields (obj : object) (e : savedEntry) : object :=
  fold_left putField (knownFields e) obj.

Definition entryFromRaw (obj : object) : savedEntry :=
  let claudeUUID := rawString obj "claude_uuid" in
  let resumeID := rawString obj "resume_id" in
  let resumeID := if str_empty resumeID then claudeUUID else resumeID in
  let lastUsed := rawInt64 obj "last_used" in
  let createdAt := rawFloat64 obj "created_at" in
  let createdAt := if f64_eqb createdAt f64_zero then f64_of_Z lastUsed else createdAt in
  mkSavedEntry (u64 (rawInt64 obj "config_revision")) (rawString obj "name")
    (u64 (rawInt64 obj "metadata_revision")) (rawInt64 obj "name_updated_at")
    (rawString obj "name_updated_by") (rawString obj "last_name_mutation_id")
    resumeID claudeUUID lastUsed (rawString obj "preview_text") (rawString obj "preview_role")
    (rawInt64 obj "preview_updated_at") (u64 (rawInt64 obj "preview_revision"))
    (rawString obj "cwd") (rawString obj "backend") (rawString obj "model")
    (rawString obj "sandbox") (rawString obj "effort") (rawString obj "service_tier")
    (rawString obj "collaboration_mode") (rawString obj "personality")
    (rawStrings obj "historical_resume_ids") createdAt (rawBool obj "pinned") (rawBool obj "hidden").

(** ** The store *)
Abbreviation rows := (gmap string object).

Record Store := mkStore { knownIDs : gset string; disk : option rows }.
#[export] Instance Store_eta : Eta Store := λ st, mkStore (knownIDs st) (disk st).

Definition loadRawLocked (st : Store) : rows := default ∅ (disk st).

(** The outcomes of the calls outside the program: taking the file lock, and
    encoding, writing and renaming the new file. *)
Record store_io := mkIO { lockErr : error; writeErr : error }.
Definition io_ok : store_io := mkIO None None.

Definition Load (io : store_io) (st : Store) : Store * gmap string savedEntry :=
  match lockErr io with
  | Some _ => (st, ∅)
  | None =>
      let raw := loadRawLocked st in
      (st <| knownIDs := knownIDs st ∪ dom raw |>, entryFromRaw <$> raw)
  end.

(** The row [Save] writes for a session. *)
Definition savedRow (now : Z) (snap : Snapshot) : savedEntry :=
  let lastUsed := f64_to_i64 (snapLastActivity snap) in
  let lastUsed := if lastUsed <=? 0 then now else lastUsed in
  mkSavedEntry (snapConfigRevision snap) (snapName snap) (snapMetadataRevision snap)
    (snapNameUpdatedAt snap) (snapNameUpdatedBy snap) (snapLastNameMutationID snap)
    (snapResumeID snap) (snapResumeID snap) lastUsed (snapPreviewText snap) (snapPreviewRole snap)
    (snapPreviewUpdatedAt snap) (snapPreviewRevision snap) (snapCwd snap) (snapBackend snap)
    (snapModel snap) (snapSandbox snap) (snapEffort snap) (snapServiceTier snap)
    (snapCollaborationMode snap) (snapPersonality snap) (snapHistoricalResumeIDs snap)
    (snapCreatedAt snap) (snapPinned snap) (snapHidden snap).

Definition saveRow (now : Z) (raw : rows) (s : Session) : rows :=
  let snap := SettingsSnapshot s in
  <[snapID snap := putKnownFields (default ∅ (raw !! snapID snap)) (savedRow now snap)]> raw.

(** [json.MarshalIndent] sorts the ids and writes them as JSON strings; of two
    ids with the same text, the last one written is the one read back. *)
Definition key_le (x y : string * object) : Prop := String.leb x.1 y.1 = true.
#[global] Instance key_le_dec : RelDecision key_le := λ x y, decide (String.leb x.1 y.1 = true).
Definition marshalRows (raw : rows) : rows :=
  list_to_map (reverse (prod_map json_text id <$> merge_sort key_le (map_to_list raw))).

Definition writeRawLocked (io : store_io) (raw : rows) (st : Store) : Store * error :=
  match writeErr io with
  | Some e => (st, Some e)
  | None => (st <| disk := Some (marshalRows raw) |>, None)
  end.

(** The sessions are those of [Registry.List], in an arbitrary order. *)
Definition Save (io : store_io) (now : Z) (sessions : list Session) (st : Store) : Store * error :=
  match lockErr io with
  | Some e => (st, Some e)
  | None =>
      let raw := fold_left (saveRow now) sessions (loadRawLocked st) in
      let currentIDs := list_to_set (map (λ s, snapID (SettingsSnapshot s)) sessions) in
      let known := knownIDs st ∪ currentIDs in
      let gone := known ∖ currentIDs in
      let raw := filter (λ '(id, _), id ∉ gone) raw in
      writeRawLocked io raw (st <| knownIDs := known ∖ gone |>)
  end.

(** ** Lemmas *)

(** *** Valid UTF-8 *)
Lemma rune_len_bound s : (rune_len s ≤ length s)%nat.
Proof.
  unfold rune_len. destruct s as [|a [|b [|c [|d s]]]]; simpl; repeat case_match; simpl; lia.
Qed.

(** *** The keys of a row *)
Fixpoint assoc {A} (k : string) (l : list (string * A)) : option A :=
  match l with
  | [] => None
  | (k', v) :: l => if String.eqb k k' then Some v else assoc k l
  end.

Lemma putFields_lookup l obj k :
  NoDup (l.*1) →
  fold_left putField l obj !! k = match assoc k l with Some v => v | None => obj !! k end.
Proof.
  revert obj; induction l as [|[k' v] l IH]; intros obj Hnd; simpl; [done|].
  apply NoDup_cons in Hnd as [Hni Hnd]. rewrite IH by done.
  destruct (String.eqb_spec k k') as [->|Hne].
  - assert (assoc k' l = None) as ->.
    { clear -Hni. induction l as [|[k0 v0] l IH]; simpl in *; [done|].
      destruct (String.eqb_spec k' k0) as [->|]; [by destruct Hni; left|]. apply IH.
      intros H. apply Hni. by right. }
    destruct v; simpl; [by rewrite lookup_insert_eq|by rewrite lookup_delete_eq].
  - destruct (assoc k l); [done|]. destruct v; simpl; [by rewrite lookup_insert_ne|by rewrite lookup_delete_ne].
Qed.

Lemma knownFields_nodup e : NoDup ((knownFields e).*1).
Proof.
  apply (bool_decide_unpack _). vm_compute. reflexivity.
Qed.

Lemma putKnownFields_lookup obj e k :
  putKnownFields obj e !! k = match assoc k (knownFields e) with Some v => v | None => obj !! k end.
Proof. apply putFields_lookup, knownFields_nodup. Qed.

(** A row as it reads back. *)
Definition normalise (e : savedEntry) : savedEntry :=
  let e := if str_empty (eResumeID e) then e <| eResumeID := eClaudeUUID e |> else e in
  let e := if f64_eqb (eCreatedAt e) f64_zero then e <| eCreatedAt := f64_of_Z (eLastUsed e) |> else e in
  if negb (str_empty (ePreviewText e)) && (0 <? ePreviewUpdatedAt e) then e
  else e <| ePreviewText := "" |> <| ePreviewRole := "" |> <| ePreviewUpdatedAt := 0 |>
         <| ePreviewRevision := 0 |>.

(** Rows whose strings are text and whose numbers a JSON reader keeps. *)
Definition row_ok (e : savedEntry) : Prop :=
  Forall utf8 [eName e; eNameUpdatedBy e; eLastNameMutationID e; eResumeID e; eClaudeUUID e;
    ePreviewText e; ePreviewRole e; eCwd e; eBackend e; eModel e; eSandbox e; eEffort e;
    eServiceTier e; eCollaborationMode e; ePersonality e] ∧
  Forall utf8 (eHistoricalResumeIDs e) ∧
  Forall (λ z, 0 ≤ z ≤ i64_max) [eConfigRevision e; eMetadataRevision e; ePreviewRevision e] ∧
  Forall is_i64 [eNameUpdatedAt e; eLastUsed e; ePreviewUpdatedAt e] ∧
  f64_finite (eCreatedAt e) = true.

Lemma uString_mStr s : utf8 s → uString (Some (mStr s)) = Some s.
Proof. intros H. simpl. by rewrite H. Qed.

Lemma uInt64_mInt z : is_i64 z → uInt64 (Some (mInt z)) = Some z.
Proof.
  intros [H1 H2]. simpl. by rewrite (proj2 (Z.leb_le _ _) H1), (proj2 (Z.leb_le _ _) H2).
Qed.

Lemma nonneg_i64 z : 0 ≤ z ≤ i64_max → is_i64 z ∧ u64 z = z.
Proof.
  intros H. split; [unfold is_i64, i64_min in *; lia|]. apply u64_small.
  unfold is_u64, u64_max, i64_max in *. lia.
Qed.

Lemma uStrings_mStrs l : Forall utf8 l → uStrings (Some (mStrs l)) = Some l.
Proof.
  intros H. cbn [uStrings mStrs]. induction H as [|s l Hs Hl IH]; [done|].
  unfold mStr in *. simpl in *. rewrite Hs, IH. done.
Qed.

Lemma uFloat64_mFloat f : f64_finite f = true → uFloat64 (Some (mFloat f)) = Some f.
Proof. intros H. unfold mFloat. rewrite H. simpl. by rewrite H. Qed.

Lemma rawString_put obj e k s :
  assoc k (knownFields e) = Some (Some (mStr s)) → utf8 s → rawString (putKnownFields obj e) k = s.
Proof. intros H Hs. unfold rawString. by rewrite putKnownFields_lookup, H, uString_mStr. Qed.

Lemma rawInt64_put obj e k z :
  assoc k (knownFields e) = Some (Some (mInt z)) → is_i64 z → rawInt64 (putKnownFields obj e) k = z.
Proof. intros H Hz. unfold rawInt64. by rewrite putKnownFields_lookup, H, uInt64_mInt. Qed.

Lemma rawRev_put obj e k z :
  assoc k (knownFields e) = Some (Some (mInt z)) → 0 ≤ z ≤ i64_max →
  u64 (rawInt64 (putKnownFields obj e) k) = z.
Proof. intros H [Hz Hu]%nonneg_i64. by rewrite (rawInt64_put obj e k z). Qed.

Lemma raw_deleted obj e k :
  assoc k (knownFields e) = Some None →
  rawString (putKnownFields obj e) k = "" ∧ rawInt64 (putKnownFields obj e) k = 0 ∧
  rawStrings (putKnownFields obj e) k = [] ∧ rawBool (putKnownFields obj e) k = false.
Proof.
  intros H. unfold rawString, rawInt64, rawStrings, rawBool. by rewrite putKnownFields_lookup, H.
Qed.

Lemma rawBool_put obj e k (b : bool) :
  assoc k (knownFields e) = Some (if b then Some (JBool true) else None) →
  rawBool (putKnownFields obj e) k = b.
Proof. intros H. unfold rawBool. rewrite putKnownFields_lookup, H. by destruct b. Qed.

Lemma row_roundtrip obj e : row_ok e → entryFromRaw (putKnownFields obj e) = normalise e.
Proof.
  intros (Hs & Hh & Hr & Hi & Hf).
  repeat match goal with H : Forall _ (_ :: _) |- _ => apply Forall_cons in H as [? H] end.
  unfold entryFromRaw.
  rewrite (rawString_put obj e "name" (eName e)) by done.
  rewrite (rawString_put obj e "name_updated_by" (eNameUpdatedBy e)) by done.
  rewrite (rawString_put obj e "last_name_mutation_id" (eLastNameMutationID e)) by done.
  rewrite (rawString_put obj e "resume_id" (eResumeID e)) by done.
  rewrite (rawString_put obj e "claude_uuid" (eClaudeUUID e)) by done.
  rewrite (rawString_put obj e "cwd" (eCwd e)) by done.
  rewrite (rawString_put obj e "backend" (eBackend e)) by done.
  rewrite (rawString_put obj e "model" (eModel e)) by done.
  rewrite (rawString_put obj e "sandbox" (eSandbox e)) by done.
  rewrite (rawString_put obj e "effort" (eEffort e)) by done.
  rewrite (rawString_put obj e "service_tier" (eServiceTier e)) by done.
  rewrite (rawString_put obj e "collaboration_mode" (eCollaborationMode e)) by done.
  rewrite (rawString_put obj e "personality" (ePersonality e)) by done.
  rewrite (rawRev_put obj e "config_revision" (eConfigRevision e)) by done.
  rewrite (rawRev_put obj e "metadata_revision" (eMetadataRevision e)) by done.
  rewrite (rawInt64_put obj e "name_updated_at" (eNameUpdatedAt e)) by done.
  rewrite (rawInt64_put obj e "last_used" (eLastUsed e)) by done.
  rewrite (rawBool_put obj e "pinned" (ePinned e)), (rawBool_put obj e "hidden" (eHidden e)) by done.
  assert (rawFloat64 (putKnownFields obj e) "created_at" = eCreatedAt e) as ->.
  { unfold rawFloat64. rewrite putKnownFields_lookup. cbn [assoc knownFields String.eqb Ascii.eqb Bool.eqb].
    by rewrite uFloat64_mFloat. }
  assert (rawStrings (putKnownFields obj e) "historical_resume_ids" = eHistoricalResumeIDs e) as ->.
  { destruct (decide (eHistoricalResumeIDs e = [])) as [E|E].
    - rewrite E. apply raw_deleted. simpl. by rewrite bool_decide_eq_true_2.
    - unfold rawStrings. rewrite putKnownFields_lookup. cbn [assoc knownFields String.eqb Ascii.eqb Bool.eqb].
      rewrite bool_decide_eq_false_2 by done. cbn [negb]. by rewrite uStrings_mStrs. }
  unfold normalise. destruct (negb (str_empty (ePreviewText e)) && (0 <? ePreviewUpdatedAt e)) eqn:E.
  - rewrite (rawString_put obj e "preview_text" (ePreviewText e)) by (simpl; rewrite ?E; done).
    rewrite (rawString_put obj e "preview_role" (ePreviewRole e)) by (simpl; rewrite ?E; done).
    rewrite (rawInt64_put obj e "preview_updated_at" (ePreviewUpdatedAt e)) by (simpl; rewrite ?E; done).
    rewrite (rawRev_put obj e "preview_revision" (ePreviewRevision e)) by (simpl; rewrite ?E; done).
    destruct (str_empty (eResumeID e)), e; cbn in *; destruct (f64_eqb _ _); cbn; by rewrite ?E.
  - destruct (raw_deleted obj e "preview_text") as (-> & _); [simpl; by rewrite E|].
    destruct (raw_deleted obj e "preview_role") as (-> & _); [simpl; by rewrite E|].
    destruct (raw_deleted obj e "preview_updated_at") as (_ & -> & _); [simpl; by rewrite E|].
    destruct (raw_deleted obj e "preview_revision") as (_ & -> & _); [simpl; by rewrite E|].
    destruct (str_empty (eResumeID e)), e; cbn in *; destruct (f64_eqb _ _); cbn; by rewrite ?E.
Qed.

(** *** The file as a map *)
Lemma key_sorted_perm raw : merge_sort key_le (map_to_list raw) ≡ₚ map_to_list raw.
Proof. apply merge_sort_Permutation. Qed.

(** Rows with text ids are written as they are. *)
Lemma marshalRows_id raw : (∀ id, is_Some (raw !! id) → utf8 id) → marshalRows raw = raw.
Proof.
  intros H. unfold marshalRows.
  assert (prod_map json_text id <$> merge_sort key_le (map_to_list raw) =
            merge_sort key_le (map_to_list raw)) as ->.
  { rewrite <- list_fmap_id. apply list_fmap_ext. intros i [id o] Hi. unfold prod_map. simpl. f_equal.
    apply H. exists o. apply elem_of_map_to_list. rewrite <- key_sorted_perm.
    by eapply list_elem_of_lookup_2. }
  rewrite <- (list_to_map_to_list raw) at 2. apply list_to_map_proper.
  - rewrite reverse_Permutation, key_sorted_perm. apply NoDup_fst_map_to_list.
  - by rewrite reverse_Permutation, key_sorted_perm.
Qed.

(** The sessions of a registry: one per id. *)
Definition distinct_ids (l : list Session) : Prop := NoDup (map ID l).

Lemma saveRows_lookup now l raw id :
  distinct_ids l →
  fold_left (saveRow now) l raw !! id =
    match list_find (λ s, ID s = id) l with
    | Some (_, s) => Some (putKnownFields (default ∅ (raw !! id)) (savedRow now (SettingsSnapshot s)))
    | None => raw !! id
    end.
Proof.
  assert (∀ s, snapID (SettingsSnapshot s) = ID s) as Hid.
  { intros s. unfold SettingsSnapshot. by destruct (futureConfig s). }
  unfold distinct_ids. revert raw; induction l as [|s l IH]; intros raw Hnd; [done|].
  simpl in Hnd. apply NoDup_cons in Hnd as [Hni Hnd].
  cbn [fold_left list_find]. rewrite IH by done. unfold saveRow. rewrite Hid.
  destruct (decide (ID s = id)) as [E|Hne].
  - assert (list_find (λ s, ID s = id) l = None) as ->.
    { apply list_find_None, Forall_forall. intros x Hx Hx'. apply Hni. rewrite E, <- Hx'.
      by apply list_elem_of_fmap_2. }
    rewrite E. by rewrite lookup_insert_eq.
  - rewrite !lookup_insert_ne by done. by destruct (list_find _ l) as [[]|].
Qed.

Lemma find_id l s : distinct_ids l → s ∈ l → ∃ i, list_find (λ x, ID x = ID s) l = Some (i, s).
Proof.
  intros Hd Hs. destruct (list_find (λ x, ID x = ID s) l) as [[i x]|] eqn:E.
  - exists i. f_equal. apply list_find_Some in E as (Hi & He & _). f_equal.
    apply list_elem_of_lookup in Hs as [j Hj].
    assert (i = j) as ->; [|congruence].
    apply (NoDup_lookup (map ID l) i j (ID s) Hd);
      rewrite list_lookup_fmap; [by rewrite Hi; simpl; rewrite He|by rewrite Hj].
  - apply list_find_None in E. rewrite Forall_forall in E. by destruct (E s Hs).
Qed.

Definition current (l : list Session) : gset string := list_to_set (map ID l).

Lemma current_ids l : list_to_set (map (λ s, snapID (SettingsSnapshot s)) l) =@{gset string} current l.
Proof.
  unfold current. f_equal. apply map_ext. intros s. unfold SettingsSnapshot.
  by destruct (futureConfig s).
Qed.

Lemma elem_of_current id l : id ∈ current l ↔ ∃ s, s ∈ l ∧ ID s = id.
Proof.
  unfold current. rewrite elem_of_list_to_set. split.
  - intros (s & -> & Hs)%list_elem_of_fmap. eauto.
  - intros (s & Hs & <-). by apply list_elem_of_fmap_2.
Qed.

(** The rows a successful [Save] computes. *)
Lemma saved_lookup now l st id :
  distinct_ids l →
  filter (λ '(i, _), i ∉ (knownIDs st ∪ current l) ∖ current l)
    (fold_left (saveRow now) l (loadRawLocked st)) !! id =
    match list_find (λ s, ID s = id) l with
    | Some (_, s) =>
        Some (putKnownFields (default ∅ (loadRawLocked st !! id)) (savedRow now (SettingsSnapshot s)))
    | None => if decide (id ∈ knownIDs st) then None else loadRawLocked st !! id
    end.
Proof.
  intros Hd. rewrite map_lookup_filter, saveRows_lookup by done.
  destruct (list_find (λ s, ID s = id) l) as [[i s]|] eqn:E; simpl.
  - assert (id ∈ current l) as Hc.
    { apply elem_of_current. apply list_find_Some in E as (Hi & He & _). exists s.
      split; [by eapply list_elem_of_lookup_2|done]. }
    rewrite option_guard_True by set_solver. done.
  - assert (id ∉ current l) as Hc.
    { rewrite elem_of_current. intros (s & Hs & He). apply list_find_None in E.
      rewrite Forall_forall in E. by destruct (E s Hs). }
    case_decide.
    + destruct (loadRawLocked st !! id); simpl; [|done]. by rewrite option_guard_False by set_solver.
    + destruct (loadRawLocked st !! id); simpl; [|done]. by rewrite option_guard_True by set_solver.
Qed.

Lemma Save_ok now l st :
  (∀ s, s ∈ l → utf8 (ID s)) → (∀ id, is_Some (loadRawLocked st !! id) → utf8 id) → distinct_ids l →
  ∃ raw, Save io_ok now l st = (mkStore (current l) (Some raw), None) ∧
    ∀ id, raw !! id =
      match list_find (λ s, ID s = id) l with
      | Some (_, s) =>
          Some (putKnownFields (default ∅ (loadRawLocked st !! id)) (savedRow now (SettingsSnapshot s)))
      | None => if decide (id ∈ knownIDs st) then None else loadRawLocked st !! id
      end.
Proof.
  intros Hl Hr Hd. eexists. split; [|intros id; by apply saved_lookup].
  unfold Save, writeRawLocked. cbn [lockErr writeErr io_ok]. rewrite current_ids.
  rewrite marshalRows_id.
  { unfold field_set. cbn. repeat f_equal. apply leibniz_equiv. intros x.
    destruct (decide (x ∈ current l)); set_solver. }
  intros id Hs. rewrite saved_lookup in Hs by done.
  destruct (list_find (λ s, ID s = id) l) as [[i s]|] eqn:E.
  - apply list_find_Some in E as (Hi & <- & _). apply Hl. by eapply list_elem_of_lookup_2.
  - case_decide; [by destruct Hs|]. auto.
Qed.

(** ** Theorems *)

(** what the Bridge writes into a row it reads back.  Every
    field survives, up to the documented defaults (the legacy conversation
    id, the creation time, a preview only when it is complete), and every key
    the Bridge does not own is left as another writer put it. *)
Theorem row_roundtrips (obj : object) (e : savedEntry) :
  row_ok e →
  entryFromRaw (putKnownFields obj e) = normalise e ∧
  ∀ k, k ∉ (knownFields e).*1 → putKnownFields obj e !! k = obj !! k.
Proof.
  intros H. split; [by apply row_roundtrip|]. intros k Hk. rewrite putKnownFields_lookup.
  enough (assoc k (knownFields e) = None) as -> by done.
  revert Hk. generalize (knownFields e). intros l. induction l as [|[k' v] l IH]; simpl; [done|].
  intros Hk. destruct (String.eqb_spec k k') as [->|]; [by destruct Hk; left|].
  apply IH. intros Hx. apply Hk. by right.
Qed.

Definition demo_row : savedEntry :=
  mkSavedEntry 3 "Notes" 2 1700000000000 "phone" "m1" "r-1" "r-1" 1700000000 "hi" "user"
    1700000000001 4 "/w" "codex" "gpt" "full" "high" "fast" "plan" "calm" ["r-0"]
    (f64_of_Z 1690000000) true false.

Definition demo_obj : object := {["theme" := JStr "dark"]}.

Lemma row_roundtrips_witness :
  normalise demo_row = demo_row ∧
  entryFromRaw (putKnownFields demo_obj demo_row) = normalise demo_row ∧
  ∀ k, k ∉ (knownFields demo_row).*1 →
    putKnownFields demo_obj demo_row !! k = demo_obj !! k.
Proof.
  split; [vm_compute; reflexivity|]. apply (row_roundtrips demo_obj demo_row).
  unfold row_ok. cbn. repeat split; repeat (apply Forall_cons; split); try apply Forall_nil; try done.
  all: vm_compute; try reflexivity; split; discriminate.
Defined.

(** saving merges.  After a successful [Save] the file holds,
    for each session of the registry, its row over whatever the row held;
    for an id this process knew and whose session is gone, nothing; and for
    every other id the row another writer put there, untouched.  Nothing else
    (age, count, pinning) removes a row. *)
Theorem save_merges now l st :
  (∀ s, s ∈ l → utf8 (ID s)) → (∀ id, is_Some (loadRawLocked st !! id) → utf8 id) → distinct_ids l →
  let '(st', err) := Save io_ok now l st in
  err = None ∧
  (∀ s, s ∈ l → loadRawLocked st' !! ID s =
     Some (putKnownFields (default ∅ (loadRawLocked st !! ID s)) (savedRow now (SettingsSnapshot s)))) ∧
  (∀ id, id ∈ knownIDs st → id ∉ current l → loadRawLocked st' !! id = None) ∧
  (∀ id, id ∉ knownIDs st → id ∉ current l → loadRawLocked st' !! id = loadRawLocked st !! id) ∧
  knownIDs st' = current l.
Proof.
  intros Hl Hr Hd. destruct (Save_ok now l st Hl Hr Hd) as (raw & -> & Hraw).
  assert (∀ id, id ∉ current l → list_find (λ s, ID s = id) l = None) as Hnone.
  { intros id Hid. apply list_find_None, Forall_forall. intros s Hs He. apply Hid, elem_of_current. eauto. }
  cbn. split_and!; [done| | | |done].
  - intros s Hs. rewrite Hraw. by destruct (find_id l s Hd Hs) as [i ->].
  - intros id Hk Hid. by rewrite Hraw, Hnone, decide_True.
  - intros id Hk Hid. by rewrite Hraw, Hnone, decide_False.
Qed.

Definition demo_session : Session :=
  zeroSession <| ID := "s_1" |> <| name := "Notes" |> <| backend := "codex" |>
    <| resumeID := "r-1" |> <| lastActivity := f64_of_Z 1700000000 |>.

(** Another writer's row, a deleted session's row, and one live session. *)
Definition demo_store : Store :=
  mkStore {["s_old"]} (Some (<["s_old" := ∅]> {["s_py" := demo_obj]})).

Lemma save_merges_witness :
  let '(st', err) := Save io_ok 5 [demo_session] demo_store in
  loadRawLocked st' !! "s_py" = loadRawLocked demo_store !! "s_py" ∧
  loadRawLocked st' !! "s_old" = None.
Proof.
  pose proof (save_merges 5 [demo_session] demo_store) as H.
  destruct (Save io_ok 5 [demo_session] demo_store) as [st' err].
  destruct H as (_ & _ & H1 & H2 & _).
  - intros s ->%list_elem_of_singleton. vm_compute. reflexivity.
  - intros id. unfold demo_store, loadRawLocked. cbn.
    destruct (decide (id = "s_old")) as [->|]; [intros _; vm_compute; reflexivity|].
    rewrite lookup_insert_ne by done.
    destruct (decide (id = "s_py")) as [->|]; [intros _; vm_compute; reflexivity|].
    rewrite lookup_singleton_ne by done. by intros [].
  - apply NoDup_singleton.
  - split; [apply H2|apply H1]; vm_compute; [set_solver..|reflexivity|set_solver].
Defined.

(** a restart restores every saved session.  A store
    that reads the file a successful [Save] left finds, for each session, its
    settings as the client last saw them (a pending next-message
    configuration included). *)
Theorem save_load_restores now l st s :
  (∀ s, s ∈ l → utf8 (ID s)) → (∀ id, is_Some (loadRawLocked st !! id) → utf8 id) → distinct_ids l →
  s ∈ l → row_ok (savedRow now (SettingsSnapshot s)) →
  let st' := (Save io_ok now l st).1 in
  let '(st2, loaded) := Load io_ok (mkStore ∅ (disk st')) in
  loaded !! ID s = Some (normalise (savedRow now (SettingsSnapshot s))) ∧
  ID s ∈ knownIDs st2 ∧ disk st2 = disk st'.
Proof.
  intros Hl Hr Hd Hs Hok. destruct (Save_ok now l st Hl Hr Hd) as (raw & -> & Hraw).
  cbn -[entryFromRaw putKnownFields normalise savedRow]. destruct (find_id l s Hd Hs) as [i Hi]. specialize (Hraw (ID s)). rewrite Hi in Hraw.
  rewrite lookup_fmap, Hraw. cbn -[entryFromRaw putKnownFields normalise savedRow]. rewrite row_roundtrip by done. split_and!; [done| |done].
  apply elem_of_union. right. apply elem_of_dom. eauto.
Qed.

Lemma save_load_restores_witness :
  let st' := (Save io_ok 5 [demo_session] demo_store).1 in
  let '(st2, loaded) := Load io_ok (mkStore ∅ (disk st')) in
  loaded !! "s_1" = Some (normalise (savedRow 5 (SettingsSnapshot demo_session))) ∧
  eName (savedRow 5 (SettingsSnapshot demo_session)) = "Notes".
Proof.
  pose proof (save_load_restores 5 [demo_session] demo_store demo_session) as H. cbv zeta in H |- *.
  destruct (Load io_ok _) as [st2 loaded]. split; [|reflexivity]. apply H; clear H.
  - intros s ->%list_elem_of_singleton. vm_compute. reflexivity.
  - intros id. unfold demo_store, loadRawLocked. cbn.
    destruct (decide (id = "s_old")) as [->|]; [intros _; vm_compute; reflexivity|].
    rewrite lookup_insert_ne by done.
    destruct (decide (id = "s_py")) as [->|]; [intros _; vm_compute; reflexivity|].
    rewrite lookup_singleton_ne by done. by intros [].
  - apply NoDup_singleton.
  - by left.
  - unfold row_ok. cbn. repeat split; repeat (apply Forall_cons; split); try apply Forall_nil; try done.
    all: vm_compute; try reflexivity; split; discriminate.
Defined.

(** whatever the lock or the write returns, a
    failed [Save] leaves the file as it was. *)
Theorem save_failure_keeps_file io now l st :
  (Save io now l st).2 ≠ None → disk (Save io now l st).1 = disk st.
Proof. unfold Save, writeRawLocked. by destruct (lockErr io), (writeErr io). Qed.

Lemma save_failure_keeps_file_witness :
  disk (Save (mkIO None (Some "disk full")) 5 [demo_session] demo_store).1 = disk demo_store.
Proof. apply save_failure_keeps_file. vm_compute. discriminate. Defined.

(** A failed write forgets a pending deletion: the id leaves [knownIDs] before
    the write is known to have succeeded, so no later [Save] removes its row,
    and the deleted session is loaded again at the next start. *)
Theorem save_failed_forgets_deletion :
  let st1 := (Save (mkIO None (Some "disk full")) 5 [demo_session] demo_store).1 in
  let '(st2, err) := Save io_ok 6 [demo_session] st1 in
  err = None ∧ "s_old" ∈ knownIDs demo_store ∧ "s_old" ∉ current [demo_session] ∧
  is_Some ((Load io_ok st2).2 !! "s_old").
Proof.
  vm_compute. split_and!; [done|done|done|by eexists].
Qed.
