(* ===== verification/Orders.v ===== *)
(** * Orders on strings and doubles

    Comparison of doubles other than NaN is the lexicographic order of an
    integer key, and comparison of strings is bytewise: both are strict and
    total, which the registry needs to pick one of several sessions whatever
    order it meets them in. *)

From S2P Require Import Prelude.
From Stdlib Require Import SpecFloat.

(** ** Strings *)
(** [sort.Strings] *)
Definition str_le (a b : string) : Prop := String.leb a b = true.
#[global] Instance str_le_dec : RelDecision str_le := λ a b, decide (String.leb a b = true).
Definition sort_strings : list string → list string := merge_sort str_le.

Lemma String_ltb_lt a b : String.ltb a b = true ↔ String.compare a b = Lt.
Proof. unfold String.ltb. destruct (String.compare a b); done. Qed.

Lemma Ascii_compare_N a b : Ascii.compare a b = N.compare (Ascii.N_of_ascii a) (Ascii.N_of_ascii b).
Proof. reflexivity. Qed.

Lemma N_of_ascii_inj a b : Ascii.N_of_ascii a = Ascii.N_of_ascii b → a = b.
Proof. intros H. by rewrite <- (Ascii.ascii_N_embedding a), H, Ascii.ascii_N_embedding. Qed.

Lemma String_ltb_irrefl a : String.ltb a a = false.
Proof.
  apply not_true_iff_false. rewrite String_ltb_lt.
  induction a as [|x a IH]; simpl; [done|]. by rewrite Ascii_compare_N, N.compare_refl.
Qed.

Lemma String_ltb_trans a b c : String.ltb a b = true → String.ltb b c = true → String.ltb a c = true.
Proof.
  rewrite !String_ltb_lt. revert b c.
  induction a as [|x a IH]; intros [|y b] [|z c]; simpl; try done.
  rewrite !Ascii_compare_N.
  destruct (N.compare_spec (Ascii.N_of_ascii x) (Ascii.N_of_ascii y)) as [E1|E1|E1]; try done;
    destruct (N.compare_spec (Ascii.N_of_ascii y) (Ascii.N_of_ascii z)) as [E2|E2|E2]; try done;
    intros H1 H2;
    destruct (N.compare_spec (Ascii.N_of_ascii x) (Ascii.N_of_ascii z)) as [E3|E3|E3]; try done; try lia.
  by eapply IH.
Qed.

Lemma String_ltb_total a b : a ≠ b → String.ltb a b = true ∨ String.ltb b a = true.
Proof.
  intros Hne. rewrite !String_ltb_lt, (String.compare_antisym b a).
  destruct (String.compare a b) eqn:E; simpl; [|auto..].
  by apply String.compare_eq_iff in E.
Qed.

(** ** Doubles *)
Definition not_nan (x : f64) : Prop := x ≠ S754_nan.

(** Sign class, then exponent and mantissa, mirrored for negative numbers. *)
Definition key (x : f64) : Z * Z * Z :=
  match x with
  | S754_infinity true => (-2, 0, 0)
  | S754_finite true m e => (-1, - e, - Z.pos m)
  | S754_zero _ => (0, 0, 0)
  | S754_finite false m e => (1, e, Z.pos m)
  | S754_infinity false => (2, 0, 0)
  | S754_nan => (0, 0, 0)
  end.

Definition lex_lt (x y : Z * Z * Z) : Prop :=
  let '(a, b, c) := x in
  let '(a', b', c') := y in
  a < a' ∨ a = a' ∧ (b < b' ∨ b = b' ∧ c < c').

Ltac float_cases :=
  repeat match goal with
  | |- context [Z.compare ?a ?b] => destruct (Z.compare_spec a b); subst
  | |- context [Pcompare ?a ?b Eq] =>
      change (Pcompare a b Eq) with (Pos.compare a b); destruct (Pos.compare_spec a b); subst
  end.

Lemma f64_ltb_key x y : not_nan x → not_nan y → (f64_ltb x y = true ↔ lex_lt (key x) (key y)).
Proof.
  intros Hx Hy. unfold f64_ltb, SFltb, SFcompare, lex_lt.
  destruct x as [|[]| |[] m e], y as [|[]| |[] m' e']; try done; simpl; float_cases; simpl;
    split; done || lia.
Qed.

Lemma f64_eqb_key x y : not_nan x → not_nan y → (f64_eqb x y = true ↔ key x = key y).
Proof.
  intros Hx Hy. unfold f64_eqb, SFeqb, SFcompare.
  destruct x as [|[]| |[] m e], y as [|[]| |[] m' e']; try done; simpl; float_cases; simpl;
    split; intros; simplify_eq; done || lia.
Qed.

Lemma lex_trans x y z : lex_lt x y → lex_lt y z → lex_lt x z.
Proof. destruct x as [[] ?], y as [[] ?], z as [[] ?]. simpl. lia. Qed.
Lemma lex_irrefl x : ¬ lex_lt x x.
Proof. destruct x as [[] ?]. simpl. lia. Qed.
Lemma lex_total x y : lex_lt x y ∨ x = y ∨ lex_lt y x.
Proof.
  destruct x as [[a b] c], y as [[a' b'] c']. simpl.
  destruct (Z.lt_total a a') as [|[->|]]; [auto| |right; right; lia].
  destruct (Z.lt_total b b') as [|[->|]]; [left; lia| |right; right; lia].
  destruct (Z.lt_total c c') as [|[->|]]; [left; lia| |right; right; lia]. auto.
Qed.

(** ** Lexicographic products of strict total orders *)
Definition lexprod {A B} (R : relation A) (S : relation B) : relation (A * B) :=
  λ x y, R x.1 y.1 ∨ (x.1 = y.1 ∧ S x.2 y.2).

(** Irreflexive, transitive, and comparing any two distinct elements. *)
Class StrictTotal {A} (R : relation A) : Prop := {
  st_irrefl : ∀ x, ¬ R x x;
  st_trans : ∀ x y z, R x y → R y z → R x z;
  st_total : ∀ x y, R x y ∨ x = y ∨ R y x }.

#[export] Instance lexprod_total {A B} (R : relation A) (S : relation B) :
  StrictTotal R → StrictTotal S → StrictTotal (lexprod R S).
Proof.
  intros HR HS. split; unfold lexprod.
  - intros [a b]; simpl. intros [H|[_ H]]; [by apply (st_irrefl a)|by apply (st_irrefl b)].
  - intros [a b] [a' b'] [a'' b'']; simpl. intros [H1|[-> H1]] [H2|[-> H2]];
      [left; by eapply st_trans|by left|by left|right; split; [done|by eapply st_trans]].
  - intros [a b] [a' b']; simpl. destruct (st_total a a') as [?|[->|?]]; [tauto| |tauto].
    destruct (st_total b b') as [?|[->|?]]; tauto.
Qed.

Lemma flip_total {A} (R : relation A) : StrictTotal R → StrictTotal (flip R).
Proof.
  intros H. split; unfold flip.
  - intros x. apply st_irrefl.
  - intros x y z H1 H2. by eapply st_trans.
  - intros x y. destruct (st_total x y) as [?|[?|?]]; tauto.
Qed.

#[export] Instance Zlt_total : StrictTotal Z.lt.
Proof. split; intros; lia. Qed.

#[export] Instance lex_lt_total : StrictTotal lex_lt.
Proof. split; [apply lex_irrefl|apply lex_trans|apply lex_total]. Qed.

Definition str_lt (a b : string) : Prop := String.ltb a b = true.
#[export] Instance str_lt_total : StrictTotal str_lt.
Proof.
  split; unfold str_lt.
  - intros a. by rewrite String_ltb_irrefl.
  - apply String_ltb_trans.
  - intros a b. destruct (decide (a = b)) as [->|H]; [auto|].
    destruct (String_ltb_total a b H); auto.
Qed.
