(* ===== verification/Registry.v ===== *)
(** * The session registry

    The in-memory registry of [src/internal/session/registry.go]: restoring
    saved sessions, the durable mutations (rename, preview) with their
    rollback, creation, discovery of native conversations and pruning.

    The registry maps ids to sessions; each method runs under the registry
    lock.  Go iterates over maps in an arbitrary order: where a result could
    depend on it the order is an argument.  [during] is what other goroutines
    do to the session under its own lock while the file is being written. *)

From S2P Require Import Prelude Orders Session SessionStore.

Record Registry := mkRegistry {
  sessions : gmap string Session;
  store : option Store }.
#[export] Instance Registry_eta : Eta Registry := λ r, mkRegistry (sessions r) (store r).

Definition NewRegistry : Registry := mkRegistry ∅ None.

Definition List_ (r : Registry) : list Session := (map_to_list (sessions r)).*2.
Definition Get (id : string) (r : Registry) : option Session := sessions r !! id.

(** [s] replaced by [f s], in place. *)
Definition modify (id : string) (f : Session → Session) (r : Registry) : Registry :=
  r <| sessions := alter f id (sessions r) |>.

(** ** Restoring the saved sessions *)
Definition firstNonEmpty (values : list string) : string :=
  default "" (head (filter (λ v, v ≠ "") values)).

Definition handle (e : savedEntry) : string := firstNonEmpty [eResumeID e; eClaudeUUID e].

Definition preferSavedSession (id : string) (e : savedEntry) (previousID : string)
    (previous : savedEntry) : bool :=
  let appSession := negb (has_prefix "jl_" id) in
  let previousAppSession := negb (has_prefix "jl_" previousID) in
  if negb (bool_decide (appSession = previousAppSession)) then appSession
  else if negb (bool_decide (ePinned e = ePinned previous)) then ePinned e
  else if negb (eLastUsed e =? eLastUsed previous) then eLastUsed previous <? eLastUsed e
  else if negb (f64_eqb (eCreatedAt e) (eCreatedAt previous))
  then f64_ltb (eCreatedAt previous) (eCreatedAt e)
  else String.ltb id previousID.

(** One row of the scan: the row kept for each conversation, and the ids kept. *)
Definition scanRow (loaded : gmap string savedEntry)
    (acc : gmap string string * gset string) (id : string) : gmap string string * gset string :=
  let '(chosen, keep) := acc in
  match loaded !! id with
  | None => acc
  | Some e =>
      if str_empty (handle e) then (chosen, {[id]} ∪ keep)
      else match chosen !! handle e with
           | None => (<[handle e := id]> chosen, {[id]} ∪ keep)
           | Some previousID =>
               match loaded !! previousID with
               | None => acc
               | Some previous =>
                   if preferSavedSession id e previousID previous
                   then (<[handle e := id]> chosen, {[id]} ∪ (keep ∖ {[previousID]}))
                   else acc
               end
           end
  end.

Definition canonicalSavedSessionIDs (loaded : gmap string savedEntry) : list string :=
  let ids := sort_strings (map_to_list loaded).*1 in
  let '(_, keep) := fold_left (scanRow loaded) ids (∅, ∅) in
  sort_strings (elements keep).

(** The session of a saved row. *)
Definition restored (id : string) (e : savedEntry) : Session :=
  let resume := if str_empty (eResumeID e) then eClaudeUUID e else eResumeID e in
  let created :=
    if f64_eqb (eCreatedAt e) f64_zero then f64_of_Z (eLastUsed e) else eCreatedAt e in
  let s :=
    zeroSession <| configRevision := eConfigRevision e |> <| ID := id |> <| CreatedAt := created |>
      <| name := eName e |> <| cwd := eCwd e |> <| backend := eBackend e |>
      <| metadataRevision := eMetadataRevision e |> <| nameUpdatedAt := eNameUpdatedAt e |>
      <| nameUpdatedBy := eNameUpdatedBy e |> <| lastNameMutationID := eLastNameMutationID e |>
      <| model := eModel e |> <| sandbox := eSandbox e |> <| resumeID := resume |>
      <| historicalResumeIDs := eHistoricalResumeIDs e |> <| effort := eEffort e |>
      <| serviceTier := eServiceTier e |> <| collaborationMode := eCollaborationMode e |>
      <| personality := ePersonality e |> <| pinned := ePinned e |> <| hidden := eHidden e |>
      <| lastActivity := f64_of_Z (eLastUsed e) |> <| previewText := ePreviewText e |>
      <| previewRole := ePreviewRole e |> <| previewUpdatedAt := ePreviewUpdatedAt e |>
      <| previewRevision := ePreviewRevision e |> <| state := Idle |> in
  let previewActivity := f64_div (f64_of_Z (ePreviewUpdatedAt e)) (f64_of_Z 1000) in
  if f64_ltb (lastActivity s) previewActivity then s <| lastActivity := previewActivity |> else s.

Definition restoreAll (loaded : gmap string savedEntry) (ids : list string)
    (m : gmap string Session) : gmap string Session :=
  fold_left (λ m id, match loaded !! id with
                     | Some e => <[id := restored id e]> m
                     | None => m
                     end) ids m.

(** Saving the registry's own store; without one there is nothing to do. *)
Definition PersistDurably (io : store_io) (now : Z) (r : Registry) : Registry * error :=
  match store r with
  | None => (r, None)
  | Some st => let '(st, err) := Save io now (List_ r) st in (r <| store := Some st |>, err)
  end.

Definition AttachStore (loadIO saveIO : store_io) (now : Z) (st : Store) (r : Registry) : Registry :=
  let '(st, loaded) := Load loadIO st in
  let canonicalIDs := canonicalSavedSessionIDs loaded in
  let r := r <| store := Some st |>
             <| sessions := restoreAll loaded canonicalIDs (sessions r) |> in
  if negb (length canonicalIDs =? size loaded)%nat then (PersistDurably saveIO now r).1 else r.

(** ** Durable mutations *)
Definition ErrRenameConflict : string := "session metadata revision conflict".
Definition ErrRenameEmpty : string := "session name is empty".
Definition ErrPreviewInvalid : string := "session preview is invalid".
Definition ErrSessionMissing : string := "session not found".

Definition zeroSnapshot : Snapshot := snapshotLocked zeroSession.

Abbreviation result := (Snapshot * bool * error)%type.

Definition millis (updatedAt : Z) : f64 := f64_div (f64_of_Z updatedAt) (f64_of_Z 1000).

Definition setPreview (text role : string) (updatedAt : Z) (s : Session) : Session :=
  s <| previewText := text |> <| previewRole := role |> <| previewUpdatedAt := updatedAt |>
    <| previewRevision := u64_succ (previewRevision s) |>.

Definition restorePreview (before : Snapshot) (s : Session) : Session :=
  s <| previewText := snapPreviewText before |> <| previewRole := snapPreviewRole before |>
    <| previewUpdatedAt := snapPreviewUpdatedAt before |>
    <| previewRevision := snapPreviewRevision before |>.

(** [r.store.Save(r.List())], and the rollback when it fails. *)
Definition saveOr (io : store_io) (now : Z) (id : string) (during rollback : Session → Session)
    (before after : Snapshot) (r : Registry) : Registry * result :=
  match store r with
  | None => (modify id during r, (after, true, None))
  | Some st =>
      let '(st, err) := Save io now (List_ r) st in
      let r := modify id during (r <| store := Some st |>) in
      match err with
      | Some e => (modify id rollback r, (before, false, Some e))
      | None => (r, (after, true, None))
      end
  end.

Definition invalid_preview (text role : string) (updatedAt : Z) : bool :=
  str_empty text || (negb (bool_decide (role = "user")) && negb (bool_decide (role = "assistant")))
  || (updatedAt <=? 0).

Definition CommitPreviewAndPersist (io : store_io) (now : Z) (during : Session → Session)
    (id text role : string) (updatedAt : Z) (r : Registry) : Registry * result :=
  let text := trim_space text in
  let role := trim_space role in
  if invalid_preview text role updatedAt then (r, (zeroSnapshot, false, Some ErrPreviewInvalid))
  else match Get id r with
  | None => (r, (zeroSnapshot, false, Some ErrSessionMissing))
  | Some s =>
      let before := snapshotLocked s in
      if (updatedAt <? snapPreviewUpdatedAt before)
         || ((updatedAt =? snapPreviewUpdatedAt before)
             && bool_decide (snapPreviewText before = text)
             && bool_decide (snapPreviewRole before = role))
      then (r, (before, false, None))
      else
        let mutate s :=
          let s := setPreview text role updatedAt s in
          if f64_ltb (lastActivity s) (millis updatedAt)
          then s <| lastActivity := millis updatedAt |> else s in
        let after := snapshotLocked (mutate s) in
        let rollback s :=
          if previewRevision s =? snapPreviewRevision after then
            let s := restorePreview before s in
            if f64_eqb (lastActivity s) (snapLastActivity after)
            then s <| lastActivity := snapLastActivity before |> else s
          else s in
        saveOr io now id during rollback before after (modify id mutate r)
  end.

Definition RepairPreviewAndPersist (io : store_io) (now : Z) (during : Session → Session)
    (id expectedInvalidText text role : string) (updatedAt : Z) (r : Registry) : Registry * result :=
  let text := trim_space text in
  let role := trim_space role in
  if str_empty expectedInvalidText || invalid_preview text role updatedAt
  then (r, (zeroSnapshot, false, Some ErrPreviewInvalid))
  else match Get id r with
  | None => (r, (zeroSnapshot, false, Some ErrSessionMissing))
  | Some s =>
      let before := snapshotLocked s in
      if negb (bool_decide (snapPreviewText before = expectedInvalidText))
         || negb (bool_decide (snapPreviewRole before = "assistant"))
      then (r, (before, false, None))
      else
        let mutate := setPreview text role updatedAt in
        let after := snapshotLocked (mutate s) in
        let rollback s :=
          if previewRevision s =? snapPreviewRevision after then restorePreview before s else s in
        saveOr io now id during rollback before after (modify id mutate r)
  end.

Definition RenameAndPersist (io : store_io) (now nowMilli : Z) (during : Session → Session)
    (id newName updatedBy mutationID : string) (expectedRevision : option Z) (r : Registry)
  : Registry * result :=
  let newName := trim_space newName in
  if str_empty newName then (r, (zeroSnapshot, false, Some ErrRenameEmpty))
  else match Get id r with
  | None => (r, (zeroSnapshot, false, Some ErrSessionMissing))
  | Some s =>
      let before := snapshotLocked s in
      if negb (str_empty mutationID) && bool_decide (snapLastNameMutationID before = mutationID)
      then (r, (before, false, None))
      else if match expectedRevision with
              | Some e => negb (e =? snapMetadataRevision before) | None => false end
      then (r, (before, false, Some ErrRenameConflict))
      else if bool_decide (snapName before = newName) then (r, (before, false, None))
      else
        let mutate s :=
          s <| name := newName |> <| metadataRevision := u64_succ (metadataRevision s) |>
            <| nameUpdatedAt := nowMilli |> <| nameUpdatedBy := trim_space updatedBy |>
            <| lastNameMutationID := mutationID |> in
        let after := snapshotLocked (mutate s) in
        let rollback s :=
          s <| name := snapName before |> <| metadataRevision := snapMetadataRevision before |>
            <| nameUpdatedAt := snapNameUpdatedAt before |>
            <| nameUpdatedBy := snapNameUpdatedBy before |>
            <| lastNameMutationID := snapLastNameMutationID before |> in
        saveOr io now id during rollback before after (modify id mutate r)
  end.

(** ** Creation, lookup, removal *)
Definition Create (nowSec : f64) (id nm cw bk md sb resume : string) (r : Registry)
  : Registry * Session :=
  match sessions r !! id with
  | Some s => (r, s)
  | None =>
      let s := zeroSession <| ID := id |> <| CreatedAt := nowSec |> <| name := nm |>
                 <| cwd := cw |> <| backend := bk |> <| model := md |> <| sandbox := sb |>
                 <| resumeID := resume |> <| lastActivity := nowSec |> <| state := Idle |> in
      (r <| sessions := <[id := s]> (sessions r) |>, s)
  end.

(** The session the registry forgets, which the caller of [Delete] closes. *)
Definition Delete (id : string) (r : Registry) : Registry * option Session :=
  (r <| sessions := delete id (sessions r) |>, sessions r !! id).

Definition betterMatch (current previous : Session) : bool :=
  f64_ltb (lastActivity previous) (lastActivity current)
  || (f64_eqb (lastActivity current) (lastActivity previous) && String.ltb (ID current) (ID previous)).

(** The scan over the sessions in the order [l]. *)
Definition findBest (resume : string) (l : list Session) : option Session :=
  fold_left (λ best s,
    if negb (bool_decide (resumeID s = resume)) then best
    else match best with
         | None => Some s
         | Some b => if betterMatch s b then Some s else best
         end) l None.

Definition FindByResumeID (resume : string) (order : list Session) : option Session :=
  if str_empty resume then None else findBest resume order.

Definition HasResumeID (resume : string) (order : list Session) : bool :=
  match FindByResumeID resume order with Some _ => true | None => false end.

(** ** Native conversations *)
Definition orActivity (activity : f64) (s : Session) : Session :=
  if f64_ltb (lastActivity s) activity then s <| lastActivity := activity |> else s.

(** A session already bound to the conversation is refreshed. *)
Definition refreshBound (id nm cw bk : string) (activity : f64) (s : Session) : Session :=
  let own := bool_decide (ID s = id) && has_prefix "jl_" (ID s) in
  let s := if (metadataRevision s =? 0) && (str_empty (name s) || own) then s <| name := nm |> else s in
  let s := if str_empty (cwd s) || own then s <| cwd := cw |> else s in
  let s := if str_empty (backend s) then s <| backend := bk |> else s in
  orActivity activity s.

(** The row of the same id, with no conversation or with this one. *)
Definition rebind (nm cw bk resume : string) (activity : f64) (s : Session) : Session :=
  let s := if str_empty (resumeID s) then s <| resumeID := resume |> else s in
  let s := if metadataRevision s =? 0 then s <| name := nm |> else s in
  orActivity activity (s <| cwd := cw |> <| backend := bk |>).

(** The row of the same id, bound to another conversation: kept as history. *)
Definition archive (resume : string) (activity : f64) (s : Session) : Session :=
  orActivity activity
    (s <| historicalResumeIDs := appendUniqueResumeID (historicalResumeIDs s) resume (resumeID s) |>).

Definition changedRow (before after : Session) : bool :=
  negb (bool_decide (name before = name after)) || negb (bool_decide (cwd before = cwd after))
  || negb (bool_decide (backend before = backend after)).

Definition UpsertExternal (nowSec : f64) (order : list string)
    (id nm cw bk resume : string) (lastUsed : Z) (r : Registry) : Registry * (option string * bool) :=
  if str_empty id || str_empty resume then (r, (None, false))
  else
    let nm := if str_empty nm then String.substring 0 8 resume else nm in
    let activity := if f64_leb (f64_of_Z lastUsed) f64_zero then nowSec else f64_of_Z lastUsed in
    let bound := filter (λ k, (resumeID <$> sessions r !! k) = Some resume) order in
    match head bound with
    | Some k =>
        match sessions r !! k with
        | Some s =>
            let after := refreshBound id nm cw bk activity s in
            (r <| sessions := <[k := after]> (sessions r) |>, (Some k, changedRow s after))
        | None => (r, (None, false))
        end
    | None =>
        match sessions r !! id with
        | Some s =>
            if str_empty (resumeID s) || bool_decide (resumeID s = resume) then
              let after := rebind nm cw bk resume activity s in
              (r <| sessions := <[id := after]> (sessions r) |>,
               (Some id, changedRow s after || negb (bool_decide (resumeID s = resumeID after))))
            else
              let after := archive resume activity s in
              (r <| sessions := <[id := after]> (sessions r) |>,
               (Some id, negb (length (historicalResumeIDs after) =? length (historicalResumeIDs s))%nat))
        | None =>
            let s := zeroSession <| ID := id |> <| CreatedAt := activity |> <| name := nm |>
                       <| cwd := cw |> <| backend := bk |> <| resumeID := resume |>
                       <| lastActivity := activity |> <| state := Idle |> in
            (r <| sessions := <[id := s]> (sessions r) |>, (Some id, true))
        end
    end.

(** ** Pruning *)

(** Forget the sessions selected by [gone]; persist when there are any. *)
Definition prune (io : store_io) (now : Z) (gone : string → Session → bool) (r : Registry)
  : Registry * nat :=
  let removed := filter (λ kv, gone kv.1 kv.2 = true) (sessions r) in
  let r := r <| sessions := filter (λ kv, gone kv.1 kv.2 = false) (sessions r) |> in
  if (0 <? size removed)%nat then ((PersistDurably io now r).1, size removed) else (r, 0%nat).

Definition PruneCodexSessions (io : store_io) (now : Z) (ignore : option (string → string → bool))
    (r : Registry) : Registry * nat :=
  match ignore with
  | None => (r, 0%nat)
  | Some ignore =>
      prune io now (λ _ s, bool_decide (backend s = "codex") && ignore (cwd s) (name s)) r
  end.

Definition retirable (missing : Snapshot → bool) (id : string) (s : Session) : bool :=
  let snap := snapshotLocked s in
  let bk := snapBackend snap in
  let prefix := if bool_decide (bk = "codex") then "jl_x_" else "jl_c_" in
  (bool_decide (bk = "codex") || bool_decide (bk = "claude"))
  && negb (str_len (snapResumeID snap) <? 12)
  && (bool_decide (id = String.append prefix (String.substring 0 12 (snapResumeID snap)))
      || has_prefix "s_" id)
  && missing snap && quiet s.

Definition PruneMissingNativeSessions (io : store_io) (now : Z) (missing : option (Snapshot → bool))
    (r : Registry) : Registry * nat :=
  match missing with
  | None => (r, 0%nat)
  | Some missing => prune io now (retirable missing) r
  end.

(** ** The row kept for a conversation *)
Definition rank (id : string) (e : savedEntry) : Z * (Z * (Z * (Z * Z * Z * string))) :=
  (Z.b2z (negb (has_prefix "jl_" id)), (Z.b2z (ePinned e), (eLastUsed e, (key (eCreatedAt e), id)))).
Definition rank_lt : relation (Z * (Z * (Z * (Z * Z * Z * string)))) :=
  lexprod (flip Z.lt) (lexprod (flip Z.lt) (lexprod (flip Z.lt) (lexprod (flip lex_lt) str_lt))).

#[export] Instance rank_total : StrictTotal rank_lt.
Proof.
  do 3 (apply lexprod_total; [apply flip_total, _|]).
  apply lexprod_total; [apply flip_total, _|apply _].
Qed.

(** The preference of the code is the strict total order of the ranks. *)
Lemma prefer_rank id e id' e' :
  not_nan (eCreatedAt e) → not_nan (eCreatedAt e') →
  (preferSavedSession id e id' e' = true ↔ rank_lt (rank id e) (rank id' e')).
Proof.
  intros Hn Hn'. unfold preferSavedSession, rank_lt, rank, lexprod, flip, str_lt. simpl.
  destruct (bool_decide_reflect (negb (has_prefix "jl_" id) = negb (has_prefix "jl_" id'))) as [E|E]; simpl.
  2: { destruct (negb (has_prefix "jl_" id)), (negb (has_prefix "jl_" id')); simpl; split; done || lia. }
  rewrite E. destruct (bool_decide_reflect (ePinned e = ePinned e')) as [E1|E1]; simpl.
  2: { destruct (ePinned e), (ePinned e'); simpl; split; done || lia. }
  rewrite E1. destruct (Z.eqb_spec (eLastUsed e) (eLastUsed e')) as [E2|E2]; simpl.
  2: { rewrite Z.ltb_lt. split; [lia|]. intros [?|[_ [?|[_ [?|[? _]]]]]]; done || lia. }
  rewrite E2. destruct (f64_eqb (eCreatedAt e) (eCreatedAt e')) eqn:E3; simpl.
  - apply f64_eqb_key in E3; [|done..]. rewrite E3. split; [intros H; tauto|].
    intros [?|[_ [?|[_ [?|[_ [?|[_ ?]]]]]]]]; try lia; [|done]. by apply lex_irrefl in H.
  - rewrite f64_ltb_key by done.
    assert (key (eCreatedAt e) ≠ key (eCreatedAt e')) as Hne.
    { rewrite <- f64_eqb_key by done. by rewrite E3. }
    split; [intros H; tauto|]. intros [?|[_ [?|[_ [?|[_ [?|[? _]]]]]]]]; done || lia.
Qed.

Section canonical.
Context (loaded : gmap string savedEntry).
Hypothesis Hnan : ∀ id e, loaded !! id = Some e → not_nan (eCreatedAt e).

Definition row (id : string) (e : savedEntry) : Prop := loaded !! id = Some e.

Lemma row_det id e e' : row id e → row id e' → e = e'.
Proof using All. unfold row. congruence. Qed.

(** What the scan of a set [seen] of ids has chosen. *)
Record scan_ok (seen : gset string) (chosen : gmap string string) (keep : gset string) : Prop := {
  sc_keep : ∀ id, id ∈ keep → id ∈ seen;
  sc_free : ∀ id e, id ∈ seen → row id e → handle e = "" → id ∈ keep;
  sc_some : ∀ id e, id ∈ seen → row id e → handle e ≠ "" → is_Some (chosen !! handle e);
  sc_best : ∀ h w, chosen !! h = Some w → h ≠ "" ∧ w ∈ keep ∧ ∃ we, row w we ∧ handle we = h ∧
  ∀ id e, id ∈ seen → row id e → handle e = h → id = w ∨ rank_lt (rank w we) (rank id e);
  sc_only : ∀ id e, id ∈ keep → row id e → handle e ≠ "" → chosen !! handle e = Some id }.

Context (seen : gset string) (chosen : gmap string string) (keep : gset string).
Hypothesis Hok : scan_ok seen chosen keep.
Context (id : string) (e : savedEntry).
Hypothesis Hid : id ∉ seen.
Hypothesis Hrow : row id e.

Lemma in_new (X : gset string) : id ∈ {[id]} ∪ X.
Proof using All. apply elem_of_union. left. by apply elem_of_singleton. Qed.
Lemma in_old (j : string) (X : gset string) : j ∈ X → j ∈ {[id]} ∪ X.
Proof using All. intros. apply elem_of_union. by right. Qed.
Lemma in_cases (j : string) (X : gset string) : j ∈ {[id]} ∪ X → j = id ∨ j ∈ X.
Proof using All. intros [?%elem_of_singleton|?]%elem_of_union; auto. Qed.

(** The new row needs no choice, or loses: the choices stay. *)
Lemma same_choice_ok keep' :
  (keep' = {[id]} ∪ keep ∧ handle e = "") ∨
  (keep' = keep ∧ handle e ≠ "" ∧
   ∃ p pe, chosen !! handle e = Some p ∧ row p pe ∧ rank_lt (rank p pe) (rank id e)) →
  scan_ok ({[id]} ∪ seen) chosen keep'.
Proof using All.
  intros Hk. assert (∀ j, j ∈ keep → j ∈ keep') as Hsub
  by (destruct Hk as [[-> _]|[-> _]]; [intros j; apply in_old|done]).
  destruct Hok. split.
  - intros j Hj. destruct Hk as [[-> _]|[-> _]]; [apply in_cases in Hj as [->|?]|];
  [apply in_new|apply in_old; auto..].
  - intros j je [->|Hj]%in_cases Hr Hje; [|by eauto].
  destruct Hk as [[-> _]|(_ & Hne & _)]; [apply in_new|].
  by rewrite (row_det id e je) in Hne.
  - intros j je [->|Hj]%in_cases Hr Hje; [|by eauto]. rewrite <- (row_det id e je) in * by done.
  destruct Hk as [[_ ?]|(_ & _ & p & pe & Hp & _)]; [done|by rewrite Hp; eexists].
  - intros h w Hw. destruct (sc_best0 h w Hw) as (H1 & H2 & we & H3 & H4 & H5).
  split_and!; [done|by auto|]. exists we. split_and!; try done.
  intros j je [->|Hj]%in_cases Hr Hje; [|by eauto]. rewrite <- (row_det id e je) in * by done.
  destruct Hk as [[_ ?]|(_ & _ & p & pe & Hp & Hpr & Hlt)]; [congruence|right].
  rewrite Hje, Hw in Hp. injection Hp as <-. by rewrite (row_det w we pe).
  - intros j je Hj Hr Hje. destruct Hk as [[-> Hh]|[-> _]]; [|by eauto].
  apply in_cases in Hj as [->|Hj]; [|by eauto]. by rewrite (row_det id e je) in Hh.
Qed.

(** The new row is chosen, in place of the previous choice if there is one. *)
Lemma new_choice_ok keep' :
  handle e ≠ "" →
  (∀ j, j ∈ keep' ↔ j = id ∨ (j ∈ keep ∧ chosen !! handle e ≠ Some j)) →
  (∀ p pe, chosen !! handle e = Some p → row p pe → rank_lt (rank id e) (rank p pe)) →
  scan_ok ({[id]} ∪ seen) (<[handle e := id]> chosen) keep'.
Proof using All.
  intros Hh Hk Hp. destruct Hok. split.
  - intros j [->|[? _]]%Hk; [apply in_new|apply in_old; auto].
  - intros j je [->|Hj]%in_cases Hr Hje; [by rewrite (row_det id e je) in Hh|].
  apply Hk. right. split; [by eauto|]. intros Hc.
  destruct (sc_best0 _ _ Hc) as (_ & _ & we & Hw & Hwe & _). rewrite (row_det j je we) in Hje by done.
  congruence.
  - intros j je Hj Hr Hje. destruct (decide (handle e = handle je)) as [<-|Hne];
  [by rewrite lookup_insert_eq; eexists|]. rewrite lookup_insert_ne by done.
  apply in_cases in Hj as [->|Hj]; [by rewrite (row_det id e je) in Hne|by eauto].
  - intros h w Hw. destruct (decide (handle e = h)) as [<-|Hneh].
  + rewrite lookup_insert_eq in Hw. injection Hw as <-. split_and!; [done|by apply Hk; left|].
  exists e. split_and!; try done. intros j je [->|Hj]%in_cases Hr Hje; [by left|right].
  destruct (sc_some0 j je Hj Hr) as [p Hpc]; [congruence|]. rewrite Hje in Hpc.
  destruct (sc_best0 _ _ Hpc) as (_ & _ & pe & Hpr & _ & Hb).
  destruct (Hb j je Hj Hr Hje) as [->|Hlt]; [by apply Hp|]. eapply st_trans; [by apply Hp|done].
  + rewrite lookup_insert_ne in Hw by done.
  destruct (sc_best0 h w Hw) as (H1 & H2 & we & H3 & H4 & H5). split_and!; [done| |].
  { apply Hk. right. split; [done|]. intros Hc.
  destruct (sc_best0 _ _ Hc) as (_ & _ & we' & Hw' & Hwe' & _).
  rewrite (row_det w we we') in H4 by done. congruence. }
  exists we. split_and!; try done. intros j je [->|Hj]%in_cases Hr Hje; [|by eauto].
  rewrite (row_det id e je) in Hneh by done. congruence.
  - intros j je [->|[Hj Hc]]%Hk Hr Hje; [by rewrite (row_det id e je), lookup_insert_eq|].
  destruct (decide (handle e = handle je)) as [E|];
  [|rewrite lookup_insert_ne by done; by eauto].
  by destruct Hc; rewrite E; eauto.
Qed.

Lemma scanRow_ok :
  let '(chosen', keep') := scanRow loaded (chosen, keep) id in
  scan_ok ({[id]} ∪ seen) chosen' keep'.
Proof using All.
  unfold scanRow. pose proof Hrow as Hl. unfold row in Hl. rewrite Hl.
  unfold str_empty. destruct (bool_decide_reflect (handle e = "")) as [Hh|Hh].
  { apply same_choice_ok. by left. }
  destruct (chosen !! handle e) as [p|] eqn:Hp.
  - destruct (sc_best _ _ _ Hok _ _ Hp) as (_ & Hpk & pe & Hpr & Hph & _).
  pose proof Hpr as Hpl. unfold row in Hpl. rewrite Hpl.
  assert (p ≠ id) as Hne by (intros ->; by apply Hid, (sc_keep _ _ _ Hok)).
  destruct (preferSavedSession id e p pe) eqn:Hpref.
  + apply prefer_rank in Hpref; [|by eapply Hnan..]. apply new_choice_ok; [done| |].
  * intros j. rewrite Hp, elem_of_union, elem_of_difference, !elem_of_singleton.
  split; intros [?|[? ?]]; auto; right; split; congruence.
  * intros q qe Hq Hqr. assert (q = p) as -> by congruence. by rewrite (row_det p qe pe).
  + apply same_choice_ok. right. split_and!; [done..|]. exists p, pe. split_and!; [done..|].
  destruct (st_total (rank p pe) (rank id e)) as [?|[E|Hx]]; [done| |].
  * injection E as. congruence.
  * apply prefer_rank in Hx; [congruence|by eapply Hnan..].
  - apply new_choice_ok; [done| |congruence]. intros j.
  rewrite Hp, elem_of_union, elem_of_singleton. split; [intros [?|?]; auto|intros [?|[? _]]; auto].
Qed.
End canonical.

Lemma scan_all loaded ids seen acc :
  (∀ id e, loaded !! id = Some e → not_nan (eCreatedAt e)) →
  NoDup ids → (∀ id, id ∈ ids → id ∉ seen ∧ is_Some (loaded !! id)) →
  scan_ok loaded seen acc.1 acc.2 →
  let acc' := fold_left (scanRow loaded) ids acc in
  scan_ok loaded (list_to_set ids ∪ seen) acc'.1 acc'.2.
Proof.
  intros Hnan. revert seen acc. induction ids as [|id ids IH]; intros seen [chosen keep] Hnd Hin Hok.
  - simpl in *. by rewrite (left_id_L ∅ (∪)).
  - apply NoDup_cons in Hnd as [Hni Hnd]. destruct (Hin id) as [Hs [e He]]; [by left|].
    pose proof (scanRow_ok loaded Hnan seen chosen keep Hok id e Hs He) as Hstep.
    cbn [fold_left]. destruct (scanRow loaded (chosen, keep) id) as [chosen' keep'].
    specialize (IH ({[id]} ∪ seen) (chosen', keep') Hnd). simpl list_to_set.
    replace ({[id]} ∪ list_to_set ids ∪ seen) with (list_to_set ids ∪ ({[id]} ∪ seen)) by set_solver.
    apply IH; [|done]. intros j Hj. destruct (Hin j) as [Hjs Hj']; [by right|]. split; [|done].
    intros [->%elem_of_singleton|?]%elem_of_union; done.
Qed.

Lemma scan_empty loaded : scan_ok loaded ∅ ∅ ∅.
Proof.
  by split.
Qed.

Lemma canonical_scan loaded :
  (∀ id e, loaded !! id = Some e → not_nan (eCreatedAt e)) →
  ∃ chosen keep, scan_ok loaded (dom loaded) chosen keep ∧
    ∀ id, id ∈ canonicalSavedSessionIDs loaded ↔ id ∈ keep.
Proof.
  intros Hnan. set (ids := sort_strings (map_to_list loaded).*1).
  assert (ids ≡ₚ (map_to_list loaded).*1) as Hperm by apply merge_sort_Permutation.
  assert (∀ id, id ∈ ids ↔ is_Some (loaded !! id)) as Hin.
  { intros id. rewrite Hperm, list_elem_of_fmap. split.
    - intros ([i e] & -> & H%elem_of_map_to_list). by exists e.
    - intros [e He]. exists (id, e). split; [done|]. by apply elem_of_map_to_list. }
  pose proof (scan_all loaded ids ∅ (∅, ∅) Hnan) as Hscan.
  assert (NoDup ids) as Hnd by (rewrite Hperm; apply NoDup_fst_map_to_list).
  specialize (Hscan Hnd). cbv zeta in Hscan.
  destruct (fold_left (scanRow loaded) ids (∅, ∅)) as [chosen keep] eqn:E.
  exists chosen, keep. split.
  - replace (dom loaded) with (list_to_set ids ∪ ∅ : gset string).
    + apply Hscan; [|apply scan_empty]. intros id Hid. split; [set_solver|by apply Hin].
    + apply leibniz_equiv. intros id. rewrite (right_id ∅ (∪)), elem_of_list_to_set, elem_of_dom. apply Hin.
  - intros id. unfold canonicalSavedSessionIDs. fold ids. rewrite E.
    unfold sort_strings. rewrite merge_sort_Permutation. apply elem_of_elements.
Qed.

(** the migration of duplicated rows keeps exactly
    one saved session for each native conversation, the preferred one (app
    sessions over watcher aliases, then pinned, most recently used, most
    recently created, smallest id), and every row without a conversation. *)
Theorem one_row_per_conversation loaded id e :
  (∀ id e, loaded !! id = Some e → not_nan (eCreatedAt e)) → loaded !! id = Some e →
  let kept := canonicalSavedSessionIDs loaded in
  (handle e = "" → id ∈ kept) ∧
  (handle e ≠ "" → ∃ w we, w ∈ kept ∧ loaded !! w = Some we ∧ handle we = handle e ∧
     (id ≠ w → preferSavedSession w we id e = true) ∧
     ∀ j je, j ∈ kept → loaded !! j = Some je → handle je = handle e → j = w).
Proof.
  intros Hnan He kept. destruct (canonical_scan loaded Hnan) as (chosen & keep & [] & Hkept).
  assert (id ∈ dom loaded) as Hid by (apply elem_of_dom; by exists e). split; intros Hh.
  - apply Hkept. by eapply sc_free0.
  - destruct (sc_some0 id e Hid He Hh) as [w Hw].
    destruct (sc_best0 _ _ Hw) as (_ & Hk & we & Hwe & Hhe & Hb).
    exists w, we. split_and!; [by apply Hkept|done|done| |].
    + intros Hne. destruct (Hb id e Hid He eq_refl) as [?|Hlt]; [done|].
      apply prefer_rank; [by eapply Hnan..|done].
    + intros j je Hj Hje Hjh. apply Hkept in Hj.
      pose proof (sc_only0 j je Hj Hje) as Hc. rewrite Hjh, Hw in Hc.
      by injection (Hc Hh).
Qed.

Definition demo_rows : gmap string savedEntry :=
  <["jl_x_1" := demo_row]> (<["s_2" := demo_row]> {["s_1" := demo_row <| ePinned := false |>]}).

Lemma demo_rows_numbers id e : demo_rows !! id = Some e → not_nan (eCreatedAt e).
Proof.
  intros H. apply elem_of_map_to_list in H. revert H.
  assert (map_to_list demo_rows ≡ₚ [("jl_x_1", demo_row); ("s_2", demo_row);
            ("s_1", demo_row <| ePinned := false |>)]) as ->.
  { unfold demo_rows. rewrite !map_to_list_insert by done. by rewrite map_to_list_singleton. }
  rewrite !elem_of_cons. intros [[= _ ->]|[[= _ ->]|[[= _ ->]|[]%elem_of_nil]]]; done.
Qed.

Lemma one_row_per_conversation_witness :
  canonicalSavedSessionIDs demo_rows = ["s_2"] ∧
  ∃ w we, w ∈ canonicalSavedSessionIDs demo_rows ∧ demo_rows !! w = Some we.
Proof.
  split; [vm_compute; reflexivity|].
  destruct (one_row_per_conversation demo_rows "jl_x_1" demo_row) as [_ H].
  - apply demo_rows_numbers.
  - reflexivity.
  - destruct H as (w & we & H1 & H2 & _); [discriminate|]. exists w, we. done.
Defined.

(** ** The registry as a list of sessions *)
Definition reg_ok (r : Registry) : Prop := ∀ id s, sessions r !! id = Some s → ID s = id.

Lemma elem_of_List r s : s ∈ List_ r ↔ ∃ id, sessions r !! id = Some s.
Proof.
  unfold List_. rewrite list_elem_of_fmap. split.
  - intros ([id x] & -> & H%elem_of_map_to_list). by exists id.
  - intros [id H]. exists (id, s). split; [done|]. by apply elem_of_map_to_list.
Qed.

Lemma List_distinct r : reg_ok r → distinct_ids (List_ r).
Proof.
  intros Hok. unfold distinct_ids, List_.
  assert (map ID (map_to_list (sessions r)).*2 = (map_to_list (sessions r)).*1) as ->.
  { change (map ID (map_to_list (sessions r)).*2) with (ID <$> (map_to_list (sessions r)).*2).
    rewrite <- list_fmap_compose. apply list_fmap_ext. intros i [id s] Hi. simpl. apply Hok.
    apply elem_of_map_to_list. by eapply list_elem_of_lookup_2. }
  apply NoDup_fst_map_to_list.
Qed.

Lemma modify_ok id f r : reg_ok r → (∀ s, ID (f s) = ID s) → reg_ok (modify id f r).
Proof.
  intros Hok Hf j s. unfold modify. cbn. rewrite lookup_alter. case_decide; [|apply Hok].
  subst. destruct (sessions r !! j) as [x|] eqn:E; simpl; [|done]. intros [= <-].
  rewrite Hf. by apply Hok.
Qed.

(** Ids come from JSON messages, whose decoder yields valid UTF-8. *)
Definition ids_text (r : Registry) : Prop :=
  (∀ id s, sessions r !! id = Some s → utf8 id) ∧
  (∀ st, store r = Some st → ∀ id, is_Some (loadRawLocked st !! id) → utf8 id).

(** A registry that saved successfully has every session on disk. *)
Lemma saved_row_on_disk io now r st id s :
  reg_ok r → ids_text r → store r = Some st → sessions r !! id = Some s →
  (Save io now (List_ r) st).2 = None →
  loadRawLocked (Save io now (List_ r) st).1 !! id =
    Some (putKnownFields (default ∅ (loadRawLocked st !! id)) (savedRow now (SettingsSnapshot s))).
Proof.
  intros Hok [Hi Ht] Hst Hs Herr.
  assert (Save io now (List_ r) st = Save io_ok now (List_ r) st) as E.
  { unfold Save, writeRawLocked in *. destruct (lockErr io); [done|]. by destruct (writeErr io). }
  rewrite E. destruct (Save_ok now (List_ r) st) as (raw & -> & Hraw).
  - intros x [j Hj]%elem_of_List. rewrite (Hok j x Hj). by eapply Hi.
  - by apply Ht.
  - by apply List_distinct.
  - cbn. rewrite Hraw. destruct (find_id (List_ r) s) as [i Hf].
    + by apply List_distinct.
    + apply elem_of_List. by exists id.
    + rewrite (Hok id s Hs) in Hf. by rewrite Hf.
Qed.

Lemma saveOr_cases io now id during rollback before after r r' snap changed err :
  saveOr io now id during rollback before after r = (r', (snap, changed, err)) →
  (changed = true ∧ snap = after ∧ err = None ∧
     sessions r' = alter during id (sessions r) ∧
     (∀ st, store r = Some st →
        store r' = Some (Save io now (List_ r) st).1 ∧ (Save io now (List_ r) st).2 = None) ∧
     (store r = None → store r' = None)) ∨
  (changed = false ∧ snap = before ∧ err ≠ None ∧
     sessions r' = alter rollback id (alter during id (sessions r))).
Proof.
  unfold saveOr, modify. destruct (store r) as [st|] eqn:Hst.
  - destruct (Save io now (List_ r) st) as [st' [e|]] eqn:Hs; intros [= <- <- <- <-]; [right|left];
      split_and!; try done. intros x [= <-]. by rewrite Hs.
  - intros [= <- <- <- <-]. left. by split_and!.
Qed.

(** ** Renaming *)

(** a rename is announced only when it survives a restart,
    and a failed one leaves no trace.  When [RenameAndPersist] reports a
    change, memory has the trimmed name under the next revision and, with a
    store attached, so has the row on disk; when it reports none, the name,
    its revision and its author are what they were, whatever other goroutines
    did to the session in the meantime. *)
Theorem rename_durable io now nowMilli during id newName updatedBy mutationID expected r s :
  reg_ok r → ids_text r → sessions r !! id = Some s → (∀ s, ID (during s) = ID s) →
  let '(r', (snap, changed, err)) :=
    RenameAndPersist io now nowMilli during id newName updatedBy mutationID expected r in
  reg_ok r' ∧
  (changed = true →
     err = None ∧ trim_space newName ≠ "" ∧
     snapName snap = trim_space newName ∧ snapMetadataRevision snap = u64_succ (metadataRevision s) ∧
     (expected = None ∨ expected = Some (metadataRevision s)) ∧
     ∀ st, store r' = Some st → utf8 (trim_space newName) →
       ∃ row, loadRawLocked st !! id = Some row ∧ eName (entryFromRaw row) = trim_space newName) ∧
  (changed = false → ∃ s', sessions r' !! id = Some s' ∧
     name s' = name s ∧ metadataRevision s' = metadataRevision s ∧ nameUpdatedAt s' = nameUpdatedAt s ∧
     nameUpdatedBy s' = nameUpdatedBy s ∧ lastNameMutationID s' = lastNameMutationID s).
Proof.
  intros Hok Htext Hs Hd. unfold RenameAndPersist, Get. rewrite Hs. unfold str_empty.
  destruct (bool_decide_reflect (trim_space newName = "")) as [|Hne]; [by split_and!; eauto 10|].
  destruct (negb _ && _); [by split_and!; eauto 10|].
  destruct (match expected with Some e => _ | None => false end) eqn:Hexp; [by split_and!; eauto 10|].
  destruct (bool_decide_reflect (snapName (snapshotLocked s) = trim_space newName));
    [by split_and!; eauto 10|].
  set (mutate s := s <| name := trim_space newName |> <| metadataRevision := _ |> <| nameUpdatedAt := _ |>
         <| nameUpdatedBy := _ |> <| lastNameMutationID := _ |>).
  set (rollback s' := s' <| name := _ |> <| metadataRevision := _ |> <| nameUpdatedAt := _ |>
         <| nameUpdatedBy := _ |> <| lastNameMutationID := _ |>).
  destruct (saveOr _ _ _ _ _ _ _ _) as [r' [[snap changed] err]] eqn:E.
  assert (sessions (modify id mutate r) !! id = Some (mutate s)) as Hm.
  { unfold modify. cbn. by rewrite lookup_alter_eq, Hs. }
  assert (reg_ok (modify id mutate r)) as Hok' by by apply modify_ok.
  apply saveOr_cases in E as [(-> & -> & -> & Hr' & Hst & Hst')|(-> & -> & Herr & Hr')].
  - split_and!; [| |done].
    + intros j x. rewrite Hr'. apply (modify_ok id during _ Hok' Hd).
    + intros _. split_and!; try done.
      * destruct expected as [x|]; [right|by left]. bool_facts. by rewrite Hexp.
      * intros st Hsr Hu. destruct (store (modify id mutate r)) as [st0|] eqn:Hst0.
        -- destruct (Hst st0 eq_refl) as [Hs1 Hs2]. rewrite Hsr in Hs1. injection Hs1 as ->.
           eexists. split.
           ++ apply (saved_row_on_disk io now (modify id mutate r) st0 id (mutate s)); try done.
              destruct Htext as [H1 H2]. split; [|by rewrite <- Hst0 in *].
              intros j x. unfold modify. cbn. rewrite lookup_alter. case_decide; [|apply H1].
              subst j. intros _. by eapply H1.
           ++ cbn [entryFromRaw eName]. apply rawString_put; [|done]. cbn.
              unfold SettingsSnapshot. destruct (futureConfig (mutate s)); done.
        -- rewrite (Hst' eq_refl) in Hsr. done.
  - split_and!; [|done|].
    + intros j x. rewrite Hr'.
      apply (modify_ok id rollback (modify id during (modify id mutate r))); [|done].
      by apply modify_ok.
    + intros _. rewrite Hr'. cbn. rewrite !lookup_alter_eq, Hs. cbn. eexists. by split_and!.
Qed.

Definition demo_registry : Registry := mkRegistry {["s_1" := demo_session]} (Some demo_store).

Lemma demo_registry_ok : reg_ok demo_registry ∧ ids_text demo_registry.
Proof.
  assert (∀ id s, sessions demo_registry !! id = Some s → id = "s_1" ∧ s = demo_session) as H.
  { intros id s Hs. change (({["s_1" := demo_session]} : gmap string Session) !! id = Some s) in Hs.
    apply lookup_singleton_Some in Hs as [<- <-]. done. }
  split; [|split].
  - intros id s [-> ->]%H. reflexivity.
  - intros id s [-> ->]%H. vm_compute. reflexivity.
  - intros st [= <-] id. unfold demo_store, loadRawLocked. cbn.
    destruct (decide (id = "s_old")) as [->|]; [intros _; vm_compute; reflexivity|].
    rewrite lookup_insert_ne by done.
    destruct (decide (id = "s_py")) as [->|]; [intros _; vm_compute; reflexivity|].
    rewrite lookup_singleton_ne by done. by intros [].
Qed.

Lemma rename_durable_witness :
  let '(r', (snap, changed, err)) :=
    RenameAndPersist (mkIO None (Some "disk full")) 5 9 id "s_1" " Plan " "phone" "m9" (Some 0) demo_registry in
  changed = false ∧ ∃ s', sessions r' !! "s_1" = Some s' ∧ name s' = "Notes".
Proof.
  destruct demo_registry_ok as [Hok Ht].
  pose proof (rename_durable (mkIO None (Some "disk full")) 5 9 id "s_1" " Plan " "phone" "m9" (Some 0)
    demo_registry demo_session Hok Ht eq_refl (λ s, eq_refl)) as H.
  assert ((RenameAndPersist (mkIO None (Some "disk full")) 5 9 id "s_1" " Plan " "phone" "m9" (Some 0)
    demo_registry).2.1.2 = false) as Hc by (vm_compute; reflexivity).
  destruct (RenameAndPersist _ _ _ _ _ _ _ _ _ _) as [r' [[snap changed] err]].
  destruct H as (_ & _ & H). split; [exact Hc|]. destruct (H Hc) as (s' & H1 & H2 & _).
  exists s'. split; [exact H1|]. rewrite H2. reflexivity.
Defined.

(** ** Previews *)
Definition same_preview (s s' : Session) : Prop :=
  previewText s' = previewText s ∧ previewRole s' = previewRole s ∧
  previewUpdatedAt s' = previewUpdatedAt s ∧ previewRevision s' = previewRevision s.

(** the preview of a session only moves forward.  A
    commit that reports a change stored a non-empty text under the next
    revision, from an observation no older than the one it replaced, and did
    not lower the activity time; an older observation, a repetition or a
    failed write leaves the preview as it was. *)
Theorem preview_monotone io now during id text role updatedAt r s :
  sessions r !! id = Some s → not_nan (lastActivity s) → not_nan (millis updatedAt) →
  (∀ s, same_preview s (during s)) →
  let '(r', (snap, changed, err)) := CommitPreviewAndPersist io now during id text role updatedAt r in
  (changed = true →
     err = None ∧ snapPreviewText snap = trim_space text ∧ trim_space text ≠ "" ∧
     snapPreviewUpdatedAt snap = updatedAt ∧ previewUpdatedAt s ≤ updatedAt ∧
     snapPreviewRevision snap = u64_succ (previewRevision s) ∧
     f64_ltb (snapLastActivity snap) (lastActivity s) = false ∧
     ∃ s', sessions r' !! id = Some s' ∧ previewText s' = trim_space text ∧
       previewRevision s' = u64_succ (previewRevision s)) ∧
  (changed = false → ∃ s', sessions r' !! id = Some s' ∧ same_preview s s') ∧
  (updatedAt < previewUpdatedAt s → changed = false ∧ r' = r).
Proof.
  intros Hs Hn Hm Hd. unfold CommitPreviewAndPersist, Get. rewrite Hs.
  assert (same_preview s s) by by repeat split.
  destruct (invalid_preview _ _ _) eqn:Hinv; [by split_and!; eauto 10|].
  cbn [snapPreviewUpdatedAt snapshotLocked].
  destruct (Z.ltb_spec updatedAt (previewUpdatedAt s)) as [|Hle]; [by split_and!; eauto 10|].
  destruct (false || _) eqn:Hdup; [by split_and!; eauto 10|].
  set (mutate s := if f64_ltb (lastActivity (setPreview _ _ _ s)) _ then _ else _).
  set (rollback s' := if previewRevision s' =? _ then _ else _).
  destruct (saveOr _ _ _ _ _ _ _ _) as [r' [[snap changed] err]] eqn:E.
  assert (same_preview (setPreview (trim_space text) (trim_space role) updatedAt s) (mutate s)) as Hmut.
  { unfold mutate. by destruct (f64_ltb _ _). }
  apply saveOr_cases in E as [(-> & -> & -> & Hr' & _)|(-> & -> & Herr & Hr')].
  - split_and!; [|done|lia]. intros _. unfold invalid_preview, str_empty in Hinv.
    destruct Hmut as (M1 & M2 & M3 & M4).
    split_and!; try done; try (cbn [snapshotLocked snapPreviewText snapPreviewUpdatedAt snapPreviewRevision];
      congruence).
    + intros E. by rewrite bool_decide_eq_true_2 in Hinv.
    + cbn [snapLastActivity snapshotLocked]. unfold mutate. cbn.
      apply not_true_iff_false. intros Hx. destruct (f64_ltb (lastActivity s) (millis updatedAt)) eqn:El;
        cbn in Hx; apply f64_ltb_key in Hx; try done; [apply f64_ltb_key in El; try done|].
      * eapply lex_irrefl, lex_trans; eassumption.
      * by eapply lex_irrefl.
    + rewrite Hr'. cbn. rewrite !lookup_alter_eq, Hs. cbn. eexists. split; [done|].
      destruct (Hd (mutate s)) as (D1 & D2 & D3 & D4). rewrite D1, D4, M1, M4. done.
  - split_and!; [done| |lia]. intros _. rewrite Hr'. cbn. rewrite !lookup_alter_eq, Hs. cbn.
    eexists. split; [done|]. unfold rollback.
    destruct (Hd (mutate s)) as (D1 & D2 & D3 & D4). rewrite D4, Z.eqb_refl.
    by destruct (f64_eqb _ _).
Qed.

Lemma preview_monotone_witness :
  let '(r', (snap, changed, err)) :=
    CommitPreviewAndPersist io_ok 5 id "s_1" "done " "assistant" 1800000000000 demo_registry in
  changed = true ∧ previewUpdatedAt demo_session ≤ 1800000000000 ∧ snapPreviewText snap = "done".
Proof.
  pose proof (preview_monotone io_ok 5 id "s_1" "done " "assistant" 1800000000000 demo_registry
    demo_session eq_refl) as H.
  assert ((CommitPreviewAndPersist io_ok 5 id "s_1" "done " "assistant" 1800000000000 demo_registry).2.1.2
    = true) as Hc by (vm_compute; reflexivity).
  destruct (CommitPreviewAndPersist _ _ _ _ _ _ _ _) as [r' [[snap changed] err]].
  destruct H as [H _]; [discriminate|vm_compute; discriminate|by repeat split|].
  split; [exact Hc|]. destruct (H Hc) as (_ & H1 & _ & _ & H2 & _). split; [exact H2|].
  rewrite H1. vm_compute. reflexivity.
Defined.

(** ** Looking a conversation up *)
Definition frank (s : Session) : Z * Z * Z * string := (key (lastActivity s), ID s).
Definition frank_lt : relation (Z * Z * Z * string) := lexprod (flip lex_lt) str_lt.
#[export] Instance frank_total : StrictTotal frank_lt.
Proof. apply lexprod_total; [apply flip_total, _|apply _]. Qed.

Lemma betterMatch_rank s b :
  not_nan (lastActivity s) → not_nan (lastActivity b) →
  (betterMatch s b = true ↔ frank_lt (frank s) (frank b)).
Proof.
  intros Hs Hb. unfold betterMatch, frank_lt, frank, lexprod, flip, str_lt. simpl.
  rewrite orb_true_iff, andb_true_iff, f64_ltb_key, f64_eqb_key by done. tauto.
Qed.

Lemma findBest_spec resume l :
  (∀ s, s ∈ l → not_nan (lastActivity s)) →
  match findBest resume l with
  | None => ∀ s, s ∈ l → resumeID s ≠ resume
  | Some b => b ∈ l ∧ resumeID b = resume ∧
      ∀ s, s ∈ l → resumeID s = resume → frank s = frank b ∨ frank_lt (frank b) (frank s)
  end.
Proof.
  unfold findBest. induction l as [|s l IH] using rev_ind; intros Hn; simpl.
  { intros s ?%elem_of_nil. done. }
  rewrite fold_left_app. cbn [fold_left].
  assert (∀ x, x ∈ l → not_nan (lastActivity x)) as Hn' by (intros; apply Hn, elem_of_app; auto).
  assert (not_nan (lastActivity s)) as Hns by (apply Hn, elem_of_app; right; by left).
  specialize (IH Hn'). destruct (fold_left _ l None) as [b|]; cbv beta in IH |- *.
  - destruct IH as (Hb & Hr & Hbest).
    destruct (bool_decide_reflect (resumeID s = resume)) as [E|E]; simpl.
    + destruct (betterMatch s b) eqn:Hm.
      * apply betterMatch_rank in Hm; auto. split_and!; [apply elem_of_app; right; by left|done|].
        intros x [Hx| ->%list_elem_of_singleton]%elem_of_app Hxr; [right|by left].
        destruct (Hbest x Hx Hxr) as [->|Hlt]; [done|by eapply st_trans].
      * split_and!; [apply elem_of_app; auto|done|].
        intros x [Hx| ->%list_elem_of_singleton]%elem_of_app Hxr; [by auto|].
        destruct (st_total (frank b) (frank s)) as [?|[?|Hlt]]; [by right|by left|].
        apply betterMatch_rank in Hlt; auto. congruence.
    + split_and!; [apply elem_of_app; auto|done|].
      intros x [Hx| ->%list_elem_of_singleton]%elem_of_app Hxr; [by auto|done].
  - destruct (bool_decide_reflect (resumeID s = resume)) as [E|E]; simpl.
    + split_and!; [apply elem_of_app; right; by left|done|].
      intros x [Hx| ->%list_elem_of_singleton]%elem_of_app Hxr; [by destruct (IH x Hx)|by left].
    + intros x [Hx| ->%list_elem_of_singleton]%elem_of_app; [by auto|done].
Qed.

(** the session found for a native conversation does
    not depend on the order in which Go walks the map: it is the most recently
    active session bound to that conversation (the smallest id among equals),
    and one is found exactly when some session is bound to it. *)
Theorem find_deterministic r resume order order' :
  reg_ok r → resume ≠ "" → order ≡ₚ List_ r → order' ≡ₚ List_ r →
  (∀ s, s ∈ List_ r → not_nan (lastActivity s)) →
  FindByResumeID resume order = FindByResumeID resume order' ∧
  (HasResumeID resume order = true ↔ ∃ id s, sessions r !! id = Some s ∧ resumeID s = resume) ∧
  ∀ b, FindByResumeID resume order = Some b →
    sessions r !! ID b = Some b ∧ resumeID b = resume ∧
    ∀ s, s ∈ List_ r → resumeID s = resume → s = b ∨ betterMatch b s = true.
Proof.
  intros Hok Hne Hp Hp' Hn. unfold HasResumeID, FindByResumeID, str_empty.
  rewrite !(bool_decide_eq_false_2 (resume = "")) by done.
  assert (∀ a b, a ∈ List_ r → b ∈ List_ r → frank a = frank b → a = b) as Hinj.
  { intros a b [i Hi]%elem_of_List [j Hj]%elem_of_List [= _ E]. rewrite (Hok i a Hi), (Hok j b Hj) in E.
    congruence. }
  pose proof (findBest_spec resume order) as H. pose proof (findBest_spec resume order') as H'.
  destruct (findBest resume order) as [b|], (findBest resume order') as [b'|].
  - destruct H as (H1 & H2 & H3); [intros s Hs; rewrite Hp in Hs; by apply Hn|].
    destruct H' as (H1' & H2' & H3'); [intros s Hs; rewrite Hp' in Hs; by apply Hn|].
    rewrite Hp in H1. rewrite Hp' in H1'.
    assert (b = b') as <-.
    { destruct (H3 b') as [E|Hlt]; [by rewrite Hp|done|by apply Hinj|].
      destruct (H3' b) as [E|Hlt']; [by rewrite Hp'|done|by apply Hinj|].
      exfalso. eapply st_irrefl, st_trans; [exact Hlt|exact Hlt']. }
    split_and!; [done| |].
    + split; [intros _|done]. pose proof H1 as [i Hi]%elem_of_List. by exists i, b.
    + intros x [= <-]. pose proof H1 as [i Hi]%elem_of_List. rewrite (Hok i b Hi).
      split_and!; [done..|]. intros s Hs Hsr. destruct (H3 s) as [E|Hlt]; [by rewrite Hp|done| |].
      * left. by apply Hinj.
      * right. apply betterMatch_rank; auto.
  - destruct H as (H1 & H2 & _); [intros s Hs; rewrite Hp in Hs; by apply Hn|].
    exfalso. apply (H' ltac:(intros s Hs; rewrite Hp' in Hs; by apply Hn) b); [|done].
    by rewrite Hp', <- Hp.
  - destruct H' as (H1 & H2 & _); [intros s Hs; rewrite Hp' in Hs; by apply Hn|].
    exfalso. apply (H ltac:(intros s Hs; rewrite Hp in Hs; by apply Hn) b'); [|done].
    by rewrite Hp, <- Hp'.
  - split_and!; [done| |done]. split; [done|]. intros (i & s & Hs & Hr). exfalso.
    apply (H ltac:(intros x Hx; rewrite Hp in Hx; by apply Hn) s); [|done].
    rewrite Hp. apply elem_of_List. by exists i.
Qed.

Definition demo_twins : Registry :=
  mkRegistry (<["s_2" := demo_session <| ID := "s_2" |>]> {["s_1" := demo_session]}) None.

Lemma find_deterministic_witness :
  let a := demo_session in
  let b := demo_session <| ID := "s_2" |> in
  FindByResumeID "r-1" [b; a] = Some a ∧ FindByResumeID "r-1" [a; b] = FindByResumeID "r-1" [b; a].
Proof.
  intros a b. split; [vm_compute; reflexivity|].
  assert (List_ demo_twins ≡ₚ [b; a]) as Hl.
  { unfold List_, demo_twins. cbn [sessions]. rewrite map_to_list_insert by done.
    by rewrite map_to_list_singleton. }
  apply (find_deterministic demo_twins "r-1").
  - intros id s Hs. apply elem_of_map_to_list in Hs. unfold demo_twins in Hs. cbn [sessions] in Hs.
    rewrite map_to_list_insert, map_to_list_singleton in Hs by done.
    apply elem_of_cons in Hs as [[= -> ->]|[[= -> ->]|[]%elem_of_nil]%elem_of_cons]; done.
  - discriminate.
  - rewrite Hl. apply perm_swap.
  - by rewrite Hl.
  - intros s. rewrite Hl. intros [->|[->|[]%elem_of_nil]%elem_of_cons]%elem_of_cons; discriminate.
Defined.

(** ** Native discovery *)
Lemma orActivity_view activity s :
  let s' := orActivity activity s in
  name s' = name s ∧ metadataRevision s' = metadataRevision s ∧ resumeID s' = resumeID s ∧
  historicalResumeIDs s' = historicalResumeIDs s ∧ ID s' = ID s ∧ state s' = state s ∧
  mailbox s' = mailbox s ∧ cwd s' = cwd s ∧ backend s' = backend s.
Proof. unfold orActivity. by destruct (f64_ltb _ _). Qed.

(** What a refresh keeps of the session it touches. *)
Record keeps (s s' : Session) : Prop := {
  kp_id : ID s' = ID s;
  kp_name : metadataRevision s ≠ 0 → name s' = name s;
  kp_revision : metadataRevision s' = metadataRevision s;
  kp_resume : resumeID s ≠ "" → resumeID s' = resumeID s;
  kp_history : historicalResumeIDs s `prefix_of` historicalResumeIDs s';
  kp_queue : state s' = state s ∧ mailbox s' = mailbox s }.

Lemma keeps_refl s : keeps s s.
Proof. by split. Qed.

Lemma refreshBound_keeps id nm cw bk activity s : keeps s (refreshBound id nm cw bk activity s).
Proof.
  unfold refreshBound.
  match goal with |- keeps _ (orActivity _ ?x) =>
    destruct (orActivity_view activity x) as (H1 & H2 & H3 & H4 & H5 & H6 & H7 & _); split;
    rewrite ?H1, ?H2, ?H3, ?H4, ?H5, ?H6, ?H7 end; clear; repeat case_match; try done.
  all: intros; exfalso; bool_facts; congruence.
Qed.

Lemma rebind_keeps nm cw bk resume activity s :
  resumeID s = "" ∨ resumeID s = resume → keeps s (rebind nm cw bk resume activity s) ∧
    (resumeID (rebind nm cw bk resume activity s) = resume).
Proof.
  intros Hr. unfold rebind.
  match goal with |- keeps _ (orActivity _ ?x) ∧ _ =>
    destruct (orActivity_view activity x) as (H1 & H2 & H3 & H4 & H5 & H6 & H7 & _); split;
    [split|]; rewrite ?H1, ?H2, ?H3, ?H4, ?H5, ?H6, ?H7 end; clear -Hr; cbn; repeat case_match; try done.
  all: bool_facts; cbn in *; intros; first [done | naive_solver].
Qed.

Lemma archive_keeps resume activity s :
  resume ≠ "" → resumeID s ≠ resume →
  keeps s (archive resume activity s) ∧ resume ∈ historicalResumeIDs (archive resume activity s).
Proof.
  intros Hne Hr. unfold archive.
  match goal with |- context [orActivity _ ?x] =>
    destruct (orActivity_view activity x) as (? & ? & E3 & H4 & ? & ? & ? & _) end.
  cbn in *. split; [split; try done; rewrite H4; apply appendUnique_prefix|].
  rewrite H4. by apply appendUnique_elem.
Qed.

Lemma resume_listed s resume :
  resume ≠ "" → resumeID s = resume ∨ resume ∈ historicalResumeIDs s → resume ∈ ResumeIDs s.
Proof.
  intros Hne H. unfold ResumeIDs, str_empty.
  destruct (bool_decide_reflect (resumeID s = "")) as [E|E]; [destruct H; [congruence|done]|].
  destruct H as [<-|H]; [by apply appendUnique_elem|].
  destruct (appendUnique_prefix (historicalResumeIDs s) (resumeID s) "") as [l ->].
  apply elem_of_app. by left.
Qed.

(** Replacing the session of one id by one that [keeps] it. *)
Lemma insert_keeps r k s s' :
  reg_ok r → sessions r !! k = Some s → keeps s s' →
  let r' := r <| sessions := <[k := s']> (sessions r) |> in
  reg_ok r' ∧ ∀ j x, sessions r !! j = Some x → ∃ x', sessions r' !! j = Some x' ∧ keeps x x'.
Proof.
  intros Hok Hk Hkeep. cbn. split.
  - intros j x. cbn. destruct (decide (k = j)) as [->|].
    + rewrite lookup_insert_eq. intros [= <-]. rewrite (kp_id s s' Hkeep). by apply Hok.
    + rewrite lookup_insert_ne by done. apply Hok.
  - intros j x Hx. destruct (decide (k = j)) as [->|].
    + rewrite lookup_insert_eq. exists s'. split; [done|]. by assert (x = s) as -> by congruence.
    + rewrite lookup_insert_ne by done. exists x. split; [done|]. apply keeps_refl.
Qed.

(** watching native transcripts never takes a
    session away from its owner.  A native observation removes no session,
    never renames one a user has named, never moves one to another
    conversation or touches its queue; it leaves the conversation listed by
    the session it returns, and never binds it to a second session. *)
Theorem discovery_respects_owner nowSec order id nm cw bk resume lastUsed r :
  reg_ok r → (∀ k, k ∈ order ↔ is_Some (sessions r !! k)) → id ≠ "" → resume ≠ "" →
  let '(r', (k, _)) := UpsertExternal nowSec order id nm cw bk resume lastUsed r in
  reg_ok r' ∧
  (∀ j s, sessions r !! j = Some s → ∃ s', sessions r' !! j = Some s' ∧ keeps s s') ∧
  (∃ j s', k = Some j ∧ sessions r' !! j = Some s' ∧ resume ∈ ResumeIDs s') ∧
  (∀ j s', sessions r' !! j = Some s' → resumeID s' = resume →
     (∃ s, sessions r !! j = Some s ∧ resumeID s = resume) ∨
     (k = Some j ∧ ∀ i s, sessions r !! i = Some s → resumeID s ≠ resume)).
Proof.
  intros Hok Hord Hid Hne. unfold UpsertExternal, str_empty.
  rewrite (bool_decide_eq_false_2 (id = "")), (bool_decide_eq_false_2 (resume = "")) by done. simpl orb.
  cbv iota zeta. set (nm' := if bool_decide (nm = "") then _ else nm).
  set (activity := if f64_leb _ _ then _ else _).
  destruct (head (filter _ order)) as [k|] eqn:Hhead.
  - assert (k ∈ filter (λ k, (resumeID <$> sessions r !! k) = Some resume) order) as Hk
      by (destruct (filter _ order); simplify_eq/=; by left).
    apply list_elem_of_filter in Hk as [Hk _]. destruct (sessions r !! k) as [s|] eqn:Es; [|done].
    injection Hk as Hr. pose proof (refreshBound_keeps id nm' cw bk activity s) as Hkeep.
    destruct (insert_keeps r k s _ Hok Es Hkeep) as [H1 H2]. split_and!; [done|done| |].
    + exists k. eexists. split_and!; [done|cbn; by rewrite lookup_insert_eq|].
      apply resume_listed; [done|left]. rewrite (kp_resume _ _ Hkeep); congruence.
    + intros j s' Hj Hjr. left. destruct (decide (k = j)) as [->|]; [by exists s|].
      cbn in Hj. rewrite lookup_insert_ne in Hj by done. by exists s'.
  - assert (∀ i s, sessions r !! i = Some s → resumeID s ≠ resume) as Hnone.
    { intros i s Hi Hr. assert (i ∈ filter (λ k, (resumeID <$> sessions r !! k) = Some resume) order) as Hin.
      { apply list_elem_of_filter. split; [by rewrite Hi; simpl; rewrite Hr|]. apply Hord. by exists s. }
      destruct (filter _ order); [by apply elem_of_nil in Hin|done]. }
    destruct (sessions r !! id) as [s|] eqn:Es.
    + destruct (bool_decide (resumeID s = "") || bool_decide (resumeID s = resume)) eqn:Eb.
      * assert (resumeID s = "" ∨ resumeID s = resume) as Hr
          by (apply orb_true_iff in Eb as [?|?]; bool_facts; auto).
        destruct (rebind_keeps nm' cw bk resume activity s Hr) as [Hkeep Hres].
        destruct (insert_keeps r id s _ Hok Es Hkeep) as [H1 H2]. split_and!; [done|done| |].
        -- exists id. eexists. split_and!; [done|cbn; by rewrite lookup_insert_eq|].
           apply resume_listed; auto.
        -- intros j s' Hj Hjr. destruct (decide (id = j)) as [->|]; [by right|].
           cbn in Hj. rewrite lookup_insert_ne in Hj by done. by destruct (Hnone j s').
      * apply orb_false_iff in Eb as [_ Eb]. bool_facts.
        destruct (archive_keeps resume activity s Hne Eb) as [Hkeep Hres].
        destruct (insert_keeps r id s _ Hok Es Hkeep) as [H1 H2]. split_and!; [done|done| |].
        -- exists id. eexists. split_and!; [done|cbn; by rewrite lookup_insert_eq|].
           apply resume_listed; auto.
        -- intros j s' Hj Hjr. destruct (decide (id = j)) as [->|]; [by right|].
           cbn in Hj. rewrite lookup_insert_ne in Hj by done. by destruct (Hnone j s').
    + split_and!.
      * intros j x. cbn. destruct (decide (id = j)) as [->|];
          [rewrite lookup_insert_eq; by intros [= <-]|rewrite lookup_insert_ne by done; apply Hok].
      * intros j x Hx. cbn. rewrite lookup_insert_ne by congruence. exists x.
        split; [done|apply keeps_refl].
      * exists id. eexists. split_and!; [done|cbn; by rewrite lookup_insert_eq|].
        apply resume_listed; auto.
      * intros j s' Hj Hjr. destruct (decide (id = j)) as [->|]; [by right|].
        cbn in Hj. rewrite lookup_insert_ne in Hj by done. by destruct (Hnone j s').
Qed.

Lemma discovery_respects_owner_witness :
  let '(r', (k, changed)) := UpsertExternal f64_zero ["s_1"] "jl_x_r" "derived" "/tmp" "codex" "r-1" 7 demo_registry in
  k = Some "s_1" ∧ ∃ j s', k = Some j ∧ sessions r' !! j = Some s' ∧ "r-1" ∈ ResumeIDs s'.
Proof.
  pose proof (discovery_respects_owner f64_zero ["s_1"] "jl_x_r" "derived" "/tmp" "codex" "r-1" 7 demo_registry) as H.
  assert ((UpsertExternal f64_zero ["s_1"] "jl_x_r" "derived" "/tmp" "codex" "r-1" 7 demo_registry).2.1
    = Some "s_1") as Hk by (vm_compute; reflexivity).
  destruct (UpsertExternal _ _ _ _ _ _ _ _ _) as [r' [k changed]].
  split; [exact Hk|]. apply H.
  - apply demo_registry_ok.
  - intros j. unfold demo_registry. cbn [sessions]. rewrite list_elem_of_singleton. split.
    + intros ->. by eexists.
    + intros [s Hs]. apply lookup_singleton_Some in Hs as [<- _]. done.
  - discriminate.
  - discriminate.
Defined.

(** ** Pruning *)
Lemma prune_spec io now gone r :
  let '(r', n) := prune io now gone r in
  (∀ id, sessions r' !! id = match sessions r !! id with
                             | Some s => if gone id s then None else Some s
                             | None => None
                             end) ∧
  (n = 0%nat → sessions r' = sessions r).
Proof.
  unfold prune. set (r1 := r <| sessions := _ |>).
  assert (∀ id, sessions r1 !! id = match sessions r !! id with
            | Some s => if gone id s then None else Some s | None => None end) as H1.
  { intros id. cbn. rewrite map_lookup_filter. destruct (sessions r !! id) as [s|]; simpl; [|done].
    destruct (gone id s) eqn:E; [by rewrite option_guard_False|by rewrite option_guard_True]. }
  destruct (Nat.ltb_spec 0 (size (filter (λ kv : string * Session, gone kv.1 kv.2 = true) (sessions r)))) as [Hs|Hs].
  - split; [|lia]. assert (sessions (PersistDurably io now r1).1 = sessions r1) as ->; [|done].
    unfold PersistDurably. destruct (store r1) as [st|]; [|done]. by destruct (Save _ _ _ _).
  - split; [done|]. intros _. apply map_eq. intros id. rewrite H1.
    destruct (sessions r !! id) as [s|] eqn:E; [|done]. destruct (gone id s) eqn:Eg; [|done]. exfalso.
    assert (filter (λ kv : string * Session, gone kv.1 kv.2 = true) (sessions r) = ∅) as He
      by (apply map_size_empty_inv; lia).
    assert (filter (λ kv : string * Session, gone kv.1 kv.2 = true) (sessions r) !! id = Some s) as Hx
      by (by apply map_lookup_filter_Some).
    rewrite He in Hx. by rewrite lookup_empty in Hx.
Qed.

(** retiring sessions whose native conversation is gone
    only forgets sessions confirmed missing that have nothing running,
    queued, reserved or being configured; every other session stays exactly
    as it was. *)
Theorem prune_spares_work io now missing r :
  let '(r', n) := PruneMissingNativeSessions io now (Some missing) r in
  (∀ id s, sessions r !! id = Some s → sessions r' !! id = Some s ∨ sessions r' !! id = None) ∧
  (∀ id s, sessions r !! id = Some s → sessions r' !! id = None →
     missing (snapshotLocked s) = true ∧ state s = Idle ∧ mailbox s = [] ∧ queueHolds s = 0 ∧
     activeQueuedID s = "" ∧ configUpdating s = false ∧ (backend s = "codex" ∨ backend s = "claude")) ∧
  (∀ id, sessions r !! id = None → sessions r' !! id = None) ∧
  (n = 0%nat → sessions r' = sessions r).
Proof.
  unfold PruneMissingNativeSessions. pose proof (prune_spec io now (retirable missing) r) as H.
  destruct (prune io now (retirable missing) r) as [r' n]. destruct H as [H Hn]. split_and!.
  - intros id s Hs. rewrite H, Hs. destruct (retirable missing id s); auto.
  - intros id s Hs Hs'. rewrite H, Hs in Hs'. destruct (retirable missing id s) eqn:E; [|done].
    unfold retirable, quiet in E. cbn in E.
    repeat match goal with E : _ && _ = true |- _ => apply andb_true_iff in E as [? ?] end.
    repeat match goal with
           | H : State_is _ _ = true |- _ => apply bool_decide_eq_true in H
           end. bool_facts.
    split_and!; try done. match goal with H : bool_decide (backend s = "codex") || _ = true |- _ =>
      apply orb_true_iff in H as [?|?]; bool_facts; auto end.
  - intros id Hs. by rewrite H, Hs.
  - done.
Qed.

(** ** Restarting the process *)
Lemma restoreAll_lookup loaded ids m id e :
  id ∈ ids → loaded !! id = Some e → restoreAll loaded ids m !! id = Some (restored id e).
Proof.
  unfold restoreAll. intros Hid He. induction ids as [|j ids IH] using rev_ind; [by apply elem_of_nil in Hid|].
  rewrite fold_left_app. cbn [fold_left]. destruct (decide (j = id)) as [->|Hne].
  - rewrite He. by rewrite lookup_insert_eq.
  - apply elem_of_app in Hid as [Hid| ->%list_elem_of_singleton]; [|done].
    destruct (loaded !! j); [rewrite lookup_insert_ne by done|]; by apply IH.
Qed.

Lemma PersistDurably_sessions io now r : sessions (PersistDurably io now r).1 = sessions r.
Proof. unfold PersistDurably. destruct (store r); [|done]. by destruct (Save _ _ _ _). Qed.

(** The parts of a session that outlive the process. *)
Record survives (s s' : Session) : Prop := {
  sv_id : ID s' = ID s;
  sv_name : name s' = name s ∧ metadataRevision s' = metadataRevision s ∧
    nameUpdatedAt s' = nameUpdatedAt s ∧ nameUpdatedBy s' = nameUpdatedBy s ∧
    lastNameMutationID s' = lastNameMutationID s;
  sv_place : cwd s' = cwd s ∧ pinned s' = pinned s ∧ hidden s' = hidden s;
  sv_threads : resumeID s' = resumeID s ∧ historicalResumeIDs s' = historicalResumeIDs s;
  sv_config : ConfigurationFrom (snapshotLocked s') = ConfigurationFrom (SettingsSnapshot s);
  sv_preview : previewText s ≠ "" → 0 < previewUpdatedAt s → same_preview s s';
  sv_queue : state s' = Idle ∧ mailbox s' = [] ∧ futureConfig s' = None ∧ queueHolds s' = 0 }.

Lemma restored_survives now s :
  survives s (restored (ID s) (normalise (savedRow now (SettingsSnapshot s)))).
Proof.
  assert (∀ e, let s' := restored (ID s) e in
    ID s' = ID s ∧ name s' = eName e ∧ metadataRevision s' = eMetadataRevision e ∧
    nameUpdatedAt s' = eNameUpdatedAt e ∧ nameUpdatedBy s' = eNameUpdatedBy e ∧
    lastNameMutationID s' = eLastNameMutationID e ∧ cwd s' = eCwd e ∧ pinned s' = ePinned e ∧
    hidden s' = eHidden e ∧
    resumeID s' = (if str_empty (eResumeID e) then eClaudeUUID e else eResumeID e) ∧
    historicalResumeIDs s' = eHistoricalResumeIDs e ∧
    ConfigurationFrom (snapshotLocked s') = mkConfiguration (eConfigRevision e) (eBackend e)
      (eModel e) (eSandbox e) (eEffort e) (eServiceTier e) (eCollaborationMode e) (ePersonality e) ∧
    previewText s' = ePreviewText e ∧ previewRole s' = ePreviewRole e ∧
    previewUpdatedAt s' = ePreviewUpdatedAt e ∧ previewRevision s' = ePreviewRevision e ∧
    state s' = Idle ∧ mailbox s' = [] ∧ futureConfig s' = None ∧ queueHolds s' = 0) as Hv.
  { intros e. unfold restored. by destruct (f64_ltb _ _). }
  specialize (Hv (normalise (savedRow now (SettingsSnapshot s)))). cbv zeta in Hv.
  destruct Hv as (V1 & V2 & V3 & V4 & V5 & V6 & V7 & V8 & V9 & V10 & V11 & V12 & V13 & V14 & V15 & V16 & V17).
  set (snap := SettingsSnapshot s) in *.
  assert (snapName snap = name s ∧ snapMetadataRevision snap = metadataRevision s ∧
    snapNameUpdatedAt snap = nameUpdatedAt s ∧ snapNameUpdatedBy snap = nameUpdatedBy s ∧
    snapLastNameMutationID snap = lastNameMutationID s ∧ snapCwd snap = cwd s ∧
    snapPinned snap = pinned s ∧ snapHidden snap = hidden s ∧ snapResumeID snap = resumeID s ∧
    snapHistoricalResumeIDs snap = historicalResumeIDs s ∧ snapPreviewText snap = previewText s ∧
    snapPreviewRole snap = previewRole s ∧ snapPreviewUpdatedAt snap = previewUpdatedAt s ∧
    snapPreviewRevision snap = previewRevision s) as
    (W1 & W2 & W3 & W4 & W5 & W6 & W7 & W8 & W9 & W10 & W11 & W12 & W13 & W14).
  { unfold snap, SettingsSnapshot. by destruct (futureConfig s). }
  unfold normalise, savedRow in *. cbn in *.
  split; [done|..|exact V17]; unfold same_preview;
    rewrite ?V2, ?V3, ?V4, ?V5, ?V6, ?V7, ?V8, ?V9, ?V10, ?V11, ?V12, ?V13, ?V14, ?V15, ?V16.
  all: clear V1 V2 V3 V4 V5 V6 V7 V8 V9 V10 V11 V12 V13 V14 V15 V16 V17.
  all: destruct (str_empty (snapResumeID snap)) eqn:Er; cbn;
    destruct (f64_eqb (snapCreatedAt snap) f64_zero); cbn;
    destruct (negb (str_empty (snapPreviewText snap)) && (0 <? snapPreviewUpdatedAt snap)) eqn:Ep; cbn;
    rewrite ?Er; try done; try (split_and!; congruence).
  all: intros Ht Hu; exfalso; rewrite W11, W13 in Ep; unfold str_empty in Ep;
    rewrite bool_decide_eq_false_2 in Ep by done; simpl in Ep; bool_facts; lia.
Qed.

(** a restart loses no session.  After a successful
    persist, a new process that attaches a store to the same file holds, for
    every session whose row is the one kept for its conversation, a session
    with the same identity, name history, threads, placement and complete
    preview, configured as its settings last showed (a pending next-message
    configuration is in force), idle and with an empty queue. *)
Theorem restart_keeps_sessions now now' saveIO r st id s :
  reg_ok r → ids_text r → store r = Some st → sessions r !! id = Some s →
  (PersistDurably io_ok now r).2 = None → row_ok (savedRow now (SettingsSnapshot s)) →
  ∃ st', store (PersistDurably io_ok now r).1 = Some st' ∧
    let loaded := (Load io_ok (mkStore ∅ (disk st'))).2 in
    let r' := AttachStore io_ok saveIO now' (mkStore ∅ (disk st')) NewRegistry in
    (id ∈ canonicalSavedSessionIDs loaded → ∃ s', sessions r' !! id = Some s' ∧ survives s s').
Proof.
  intros Hok Ht Hst Hs Herr Hrow. unfold PersistDurably in *. rewrite Hst in *.
  pose proof (saved_row_on_disk io_ok now r st id s Hok Ht Hst Hs) as Hd.
  destruct (Save io_ok now (List_ r) st) as [st' err]. simpl in Herr. subst err.
  specialize (Hd eq_refl). cbn [fst] in Hd. exists st'. split; [done|]. cbv zeta.
  set (loaded := (Load io_ok (mkStore ∅ (disk st'))).2).
  set (r' := AttachStore io_ok saveIO now' (mkStore ∅ (disk st')) NewRegistry). intros Hid.
  assert (loaded !! id = Some (normalise (savedRow now (SettingsSnapshot s)))) as Hl.
  { unfold loaded. unfold Load. cbn [lockErr io_ok snd].
    change (loadRawLocked (mkStore ∅ (disk st'))) with (loadRawLocked st').
    rewrite lookup_fmap, Hd.
    change (Some (entryFromRaw (putKnownFields (default ∅ (loadRawLocked st !! id))
      (savedRow now (SettingsSnapshot s)))) = Some (normalise (savedRow now (SettingsSnapshot s)))).
    by rewrite row_roundtrip. }
  exists (restored (ID s) (normalise (savedRow now (SettingsSnapshot s)))).
  split; [|apply restored_survives]. subst r'. unfold AttachStore.
  change (Load io_ok (mkStore ∅ (disk st'))) with
    ((Load io_ok (mkStore ∅ (disk st'))).1, loaded). cbv beta iota zeta.
  rewrite (Hok id s Hs).
  match goal with |- sessions (if ?b then _ else _) !! _ = _ => destruct b end;
    rewrite ?PersistDurably_sessions; cbn [sessions]; by apply restoreAll_lookup.
Qed.

Lemma restart_keeps_sessions_witness :
  let st' := (Save io_ok 5 (List_ demo_registry) demo_store).1 in
  let r' := AttachStore io_ok io_ok 6 (mkStore ∅ (disk st')) NewRegistry in
  ∃ s', sessions r' !! "s_1" = Some s' ∧ survives demo_session s'.
Proof.
  intros st' r'. destruct demo_registry_ok as [Hok Ht].
  destruct (restart_keeps_sessions 5 6 io_ok demo_registry demo_store "s_1" demo_session Hok Ht)
    as (st & Hst & H).
  - reflexivity.
  - reflexivity.
  - vm_compute. reflexivity.
  - unfold row_ok. cbn. repeat split; repeat (apply Forall_cons; split); try apply Forall_nil; try done.
    all: vm_compute; try reflexivity; split; discriminate.
  - assert (st = st') as -> by (vm_compute in Hst |- *; congruence).
    apply H. apply (bool_decide_unpack _). vm_compute. reflexivity.
Defined.
