(* ===== verification/RuntimeJournal.v ===== *)
(** * The runtime journal

    [src/internal/runtimejournal]: the authoritative lifecycle of every
    session (phase, stage, terminal ledger), the delivery and read cursors of
    each device, the owner's shared read state, and their files.

    A store holds its memory and its three files: the canonical snapshot, the
    append-only cursor log and the shared-read ledger.  A file is the value
    last written to it (strings are UTF-8, so JSON keeps them).  The methods
    run under the store mutex.  What a write returns, the clock and the random
    epochs are arguments; SHA-256 is a parameter. *)

From S2P Require Import Prelude.

Definition maxSessions : nat := 2000.

Record Terminal := mkTerminal {
  tRevision : Z;
  tRequestID : string;
  tStatus : string;
  tAt : Z;
  tStartedAt : Z;
  tSource : string }.
#[export] Instance Terminal_eta : Eta Terminal := λ t,
  mkTerminal (tRevision t) (tRequestID t) (tStatus t) (tAt t) (tStartedAt t) (tSource t).
#[global] Instance Terminal_eq_dec : EqDecision Terminal.
Proof. solve_decision. Defined.
Definition zeroTerminal : Terminal := mkTerminal 0 "" "" 0 0 "".

(** The struct [Record]. *)
Record Rec := mkRec {
  SessionID : string;
  Revision : Z;
  Phase : string;
  Stage : string;
  StageMessage : string;
  StageStartedAt : Z;
  ActiveStartedAt : Z;
  ActiveRequestID : string;
  QueueLength : Z;
  LastTerminal : string;
  LastError : string;
  UpdatedAt : Z;
  CompletedAt : Z;
  Terminals : list Terminal;
  AckedByDevice : gmap string Z;
  ReadByDevice : gmap string Z;
  ReadEpoch : string;
  WaitingInteractions : gmap string string }.
#[export] Instance Rec_eta : Eta Rec := λ r,
  mkRec (SessionID r) (Revision r) (Phase r) (Stage r) (StageMessage r) (StageStartedAt r)
    (ActiveStartedAt r) (ActiveRequestID r) (QueueLength r) (LastTerminal r) (LastError r)
    (UpdatedAt r) (CompletedAt r) (Terminals r) (AckedByDevice r) (ReadByDevice r) (ReadEpoch r)
    (WaitingInteractions r).

Record View := mkView {
  vSessionID : string;
  vRevision : Z;
  vPhase : string;
  vStage : string;
  vStageMessage : string;
  vStageStartedAt : Z;
  vActiveStartedAt : Z;
  vActiveRequestID : string;
  vQueueLength : Z;
  vLastTerminal : string;
  vLastError : string;
  vUpdatedAt : Z;
  vCompletedAt : Z;
  vUnread : Z;
  vDeliveryPending : bool;
  vHistoryReconcile : bool;
  vReadEpoch : string;
  vReadRevision : Z;
  vReadVersion : Z;
  vLastCompletedRevision : Z }.
#[export] Instance View_eta : Eta View := λ v,
  mkView (vSessionID v) (vRevision v) (vPhase v) (vStage v) (vStageMessage v) (vStageStartedAt v)
    (vActiveStartedAt v) (vActiveRequestID v) (vQueueLength v) (vLastTerminal v) (vLastError v)
    (vUpdatedAt v) (vCompletedAt v) (vUnread v) (vDeliveryPending v) (vHistoryReconcile v)
    (vReadEpoch v) (vReadRevision v) (vReadVersion v) (vLastCompletedRevision v).
Definition zeroView : View := mkView "" 0 "" "" "" 0 0 "" 0 "" "" 0 0 0 false false "" 0 0 0.

Record cursorEntry := mkCursor {
  cuSessionID : string; cuDeviceID : string; cuAcked : Z; cuRead : Z }.
Record sharedReadRecord := mkShared { shEpoch : string; shRevision : Z; shVersion : Z }.
#[export] Instance sharedReadRecord_eta : Eta sharedReadRecord := λ s,
  mkShared (shEpoch s) (shRevision s) (shVersion s).
Record persistedRuntimeRecord := mkPersisted { peRevision : Z; peEpoch : string; peDurable : bool }.
Definition zeroPersisted : persistedRuntimeRecord := mkPersisted 0 "" false.

(** A shared-read ledger on disk: absent, unreadable, or its contents. *)
Inductive sharedFile := SFAbsent | SFBroken (why : string) | SFData (m : gmap string sharedReadRecord).

Record Store := mkStore {
  persistent : bool;                       (* a data directory was given *)
  sharedReadLoadErr : error;
  sharedReads : gmap string sharedReadRecord;
  persistedRecords : gmap string persistedRuntimeRecord;
  records : gmap string Rec;
  flushTimer : bool;
  dirty : bool;
  writes : Z;
  snapFile : option (gmap string Rec);
  cursorFile : list cursorEntry;
  sharedDisk : sharedFile }.
#[export] Instance Store_eta : Eta Store := λ s,
  mkStore (persistent s) (sharedReadLoadErr s) (sharedReads s) (persistedRecords s) (records s)
    (flushTimer s) (dirty s) (writes s) (snapFile s) (cursorFile s) (sharedDisk s).

(** ** Phases, stages and views *)
Definition isActive (phase : string) : bool :=
  bool_decide (phase = "queued") || bool_decide (phase = "running")
  || bool_decide (phase = "waiting") || bool_decide (phase = "stopping").

Definition defaultStageForPhase (phase : string) : string :=
  if bool_decide (phase = "queued") then "queued"
  else if bool_decide (phase = "running") then "preparing"
  else if bool_decide (phase = "stopping") then "stopping"
  else if bool_decide (phase = "waiting") then "waiting_user"
  else if bool_decide (phase = "completed") then "completed"
  else if bool_decide (phase = "failed") then "failed"
  else if bool_decide (phase = "interrupted") then "interrupted"
  else if bool_decide (phase = "closed") then "closed"
  else "idle".

Definition stageRank (stage : string) : Z :=
  if bool_decide (stage = "transmitting") then 1
  else if bool_decide (stage = "received") then 2
  else if bool_decide (stage = "queued") then 3
  else if bool_decide (stage = "preparing") then 4
  else if bool_decide (stage ∈ ["resuming_thread"; "starting_thread"]) then 5
  else if bool_decide (stage = "submitting_turn") then 6
  else if bool_decide (stage = "waiting_model") then 7
  else if bool_decide (stage ∈ ["thinking"; "composing"; "running_tool"; "waiting_user"]) then 8
  else if bool_decide (stage = "stopping") then 9
  else if bool_decide (stage ∈ ["completed"; "failed"; "interrupted"; "closed"]) then 10
  else 0.

Definition lookupZ (m : gmap string Z) (k : string) : Z := default 0 (m !! k).

Definition completed (t : Terminal) : bool := bool_decide (tStatus t = "completed").
Definition unreadAfter (read : Z) (ts : list Terminal) : Z :=
  Z.of_nat (countb (λ t, completed t && (read <? tRevision t)) ts).
Definition lastCompleted (ts : list Terminal) : Z :=
  fold_left (λ m t, if completed t && (m <? tRevision t) then tRevision t else m) ts 0.

Definition viewLocked (r : Rec) (deviceID : string) : View :=
  let readRevision := lookupZ (ReadByDevice r) deviceID in
  let historyReconcile := existsb (λ t, readRevision <? tRevision t) (Terminals r) in
  let superseded :=
    isActive (Phase r) && negb (str_empty (ActiveRequestID r))
    && match last (Terminals r) with
       | Some t => negb (bool_decide (tRequestID t = ActiveRequestID r)) | None => false end in
  let named := negb (str_empty deviceID) in
  mkView (SessionID r) (Revision r) (Phase r) (Stage r) (StageMessage r) (StageStartedAt r)
    (ActiveStartedAt r) (ActiveRequestID r) (QueueLength r)
    (if superseded then "" else LastTerminal r) (if superseded then "" else LastError r)
    (UpdatedAt r) (if superseded then 0 else CompletedAt r)
    (unreadAfter readRevision (Terminals r))
    (named && (lookupZ (AckedByDevice r) deviceID <? Revision r))
    (named && historyReconcile) "" 0 0 (lastCompleted (Terminals r)).

(** ** Files *)

(** What a write does: it may fail before the file is replaced, or (a durable
    one) after, when the directory cannot be synced. *)
Inductive wres := WOk | WFail (e : string) | WFailAfter (e : string).
Record jio := mkJIO {
  ioSnap : wres; ioCursor : error; ioShared : wres; ioSync : error; ioStat : bool }.
Definition jio_ok : jio := mkJIO WOk None WOk None true.

Definition putRec (r : Rec) (s : Store) : Store :=
  s <| records := <[SessionID r := r]> (records s) |>.

Definition writeRuntimeSnapshotLocked (io : jio) (durable : bool) (s : Store) : Store * error :=
  if negb (persistent s) then (s, None)
  else match ioSnap io with
  | WFail e => (s, Some e)
  | WFailAfter e =>
      if durable then (s <| snapFile := Some (records s) |>, Some e) else (s, Some e)
  | WOk =>
      let s := s <| snapFile := Some (records s) |> <| writes := u64_succ (writes s) |>
                 <| persistedRecords :=
                      (λ r, mkPersisted (Revision r) (ReadEpoch r) durable) <$> records s |> in
      (* the cursors are in the snapshot now; truncating the log may fail *)
      (if ioStat io then s <| cursorFile := [] |> else s, None)
  end.

Definition writeLocked (io : jio) (s : Store) : Store := (writeRuntimeSnapshotLocked io false s).1.

Definition saveLocked (io : jio) (s : Store) : Store :=
  writeLocked io (s <| flushTimer := false |> <| dirty := false |>).

Definition scheduleSaveLocked (s : Store) : Store :=
  let s := s <| dirty := true |> in
  if negb (persistent s) || flushTimer s then s else s <| flushTimer := true |>.

(** The timer started by [scheduleSaveLocked] fires. *)
Definition flushTimerFires (io : jio) (s : Store) : Store :=
  let s := s <| flushTimer := false |> in
  if negb (dirty s) then s else writeLocked io (s <| dirty := false |>).

Definition Flush (io : jio) (s : Store) : Store := if dirty s then saveLocked io s else s.

Definition appendCursorLocked (io : jio) (e : cursorEntry) (s : Store) : Store * error :=
  if negb (persistent s) then (s, Some "invalid argument")
  else match ioCursor io with
       | Some err => (s, Some err)
       | None => (s <| cursorFile := cursorFile s ++ [e] |>, None)
       end.

(** ** Records *)
Definition newRec (epoch id : string) : Rec :=
  mkRec id 0 "idle" "" "" 0 0 "" 0 "" "" 0 0 [] ∅ ∅ epoch ∅.

(** The defaults [ensureLocked] fills in. *)
Definition fillRec (r : Rec) : Rec :=
  let r := if str_empty (Stage r)
           then r <| Stage := defaultStageForPhase (Phase r) |> <| StageStartedAt := UpdatedAt r |>
           else r in
  if (ActiveStartedAt r =? 0) && isActive (Phase r)
  then r <| ActiveStartedAt := if StageStartedAt r =? 0 then UpdatedAt r else StageStartedAt r |>
  else r.

Definition ensureLocked (epoch id : string) (s : Store) : Rec * Store :=
  let r := fillRec (default (newRec epoch id) (records s !! id)) in
  (r, s <| records := <[id := r]> (records s) |>).

(** [sort.Slice] by [UpdatedAt]; records of one instant come in the order of
    the map walk, [order]. *)
Definition older (a b : string * Rec) : Prop := UpdatedAt a.2 ≤ UpdatedAt b.2.
#[global] Instance older_dec : RelDecision older := λ a b, decide (UpdatedAt a.2 ≤ UpdatedAt b.2).

Definition evicted (order : list (string * Rec)) : list (string * Rec) :=
  take (length order - maxSessions) (merge_sort older order).

Definition enforceCapLocked (order : list (string * Rec)) (s : Store) : Store :=
  if (size (records s) <=? maxSessions)%nat then s
  else s <| records := fold_left (λ m kr, delete (SessionID kr.2) m) (evicted order) (records s) |>.

(** ** Lifecycle *)
Definition capTerminals (ts : list Terminal) : list Terminal :=
  if (128 <? length ts)%nat then drop (length ts - 128) ts else ts.

Definition isQueuedOrRunning (phase : string) : bool :=
  bool_decide (phase = "queued") || bool_decide (phase = "running").

(** The assignments of [Update] to the record. *)
Definition updateRec (now : Z) (phase requestID : string) (queueLength : Z)
    (terminal lastError : string) (r : Rec) : Rec :=
  let previousRequestID := ActiveRequestID r in
  let newTurn :=
    str_empty terminal && negb (str_empty requestID)
    && (negb (bool_decide (requestID = previousRequestID)) || bool_decide (Phase r = "interrupted"))
    && isQueuedOrRunning phase in
  let r := r <| Revision := u64_succ (Revision r) |> <| Phase := phase |> in
  let r := if negb (bool_decide (phase = "waiting")) || negb (bool_decide (requestID = previousRequestID))
           then r <| WaitingInteractions := ∅ |> else r in
  let r := r <| Stage := defaultStageForPhase phase |> <| StageMessage := "" |>
             <| StageStartedAt := now |> in
  let r := if newTurn || ((ActiveStartedAt r =? 0) && isActive phase)
           then r <| ActiveStartedAt := now |> else r in
  let r := r <| ActiveRequestID := requestID |> <| QueueLength := queueLength |>
             <| UpdatedAt := now |> in
  if negb (str_empty terminal) then
    r <| LastTerminal := terminal |> <| LastError := lastError |> <| CompletedAt := now |>
      <| Terminals := capTerminals (Terminals r ++
           [mkTerminal (Revision r) requestID terminal now (ActiveStartedAt r) ""]) |>
  else if newTurn then r <| LastTerminal := "" |> <| LastError := "" |> <| CompletedAt := 0 |>
  else if isActive phase then r <| LastError := "" |>
  else r.

Definition Update (io : jio) (now : Z) (epoch : string) (order : Store → list (string * Rec))
    (sessionID phase requestID : string) (queueLength : Z) (terminal lastError : string) (s : Store)
  : Store * (View * bool) :=
  if str_empty sessionID then (s, (zeroView, false))
  else
    let queueLength := if queueLength <? 0 then 0 else queueLength in
    let '(r, s) := ensureLocked epoch sessionID s in
    let phase := if str_empty phase then Phase r else phase in
    if bool_decide (Phase r = phase) && bool_decide (ActiveRequestID r = requestID)
       && (QueueLength r =? queueLength) && bool_decide (LastTerminal r = terminal)
       && bool_decide (LastError r = lastError)
    then (s, (viewLocked r "", false))
    else
      let r := updateRec now phase requestID queueLength terminal lastError r in
      let s := s <| records := <[sessionID := r]> (records s) |> in
      let s := enforceCapLocked (order s) s in
      (saveLocked io s, (viewLocked r "", true)).

Definition UpdateQueueLength (io : jio) (now : Z) (epoch sessionID : string) (queueLength : Z) (s : Store)
  : Store * (View * bool) :=
  if str_empty sessionID then (s, (zeroView, false))
  else
    let queueLength := if queueLength <? 0 then 0 else queueLength in
    let '(r, s) := ensureLocked epoch sessionID s in
    if QueueLength r =? queueLength then (s, (viewLocked r "", false))
    else
      let r := r <| Revision := u64_succ (Revision r) |> <| QueueLength := queueLength |>
                 <| UpdatedAt := now |> in
      (saveLocked io (s <| records := <[sessionID := r]> (records s) |>), (viewLocked r "", true)).

Definition Progress (now : Z) (epoch sessionID requestID stage message : string) (s : Store)
  : Store * (View * bool) :=
  if str_empty sessionID || str_empty stage then (s, (zeroView, false))
  else
    let '(r, s) := ensureLocked epoch sessionID s in
    let named := negb (str_empty requestID) in
    if named && negb (str_empty (ActiveRequestID r)) && negb (bool_decide (requestID = ActiveRequestID r))
    then (s, (viewLocked r "", false))
    else
      let sameRequest := str_empty requestID || str_empty (ActiveRequestID r)
                         || bool_decide (ActiveRequestID r = requestID) in
      if sameRequest && (stageRank stage <? stageRank (Stage r)) then (s, (viewLocked r "", false))
      else if bool_decide (Stage r = stage) && bool_decide (StageMessage r = message)
              && (str_empty requestID || bool_decide (ActiveRequestID r = requestID))
      then (s, (viewLocked r "", false))
      else
        let requestChanged := named && negb (bool_decide (requestID = ActiveRequestID r)) in
        let r := r <| Revision := u64_succ (Revision r) |> in
        let r := if named then r <| ActiveRequestID := requestID |> else r in
        let r := if requestChanged || (ActiveStartedAt r =? 0) then r <| ActiveStartedAt := now |> else r in
        let r := r <| Stage := stage |> <| StageMessage := message |> <| StageStartedAt := now |>
                   <| UpdatedAt := now |> in
        (scheduleSaveLocked (s <| records := <[sessionID := r]> (records s) |>), (viewLocked r "", true)).

Definition Ensure (io : jio) (now : Z) (epoch sessionID phase : string) (queueLength : Z) (s : Store)
  : Store * View :=
  let '(r, s) := ensureLocked epoch sessionID s in
  if Revision r =? 0 then
    let phase := if str_empty phase then "idle" else phase in
    let r := r <| Revision := 1 |> <| Phase := phase |> <| QueueLength := queueLength |>
               <| UpdatedAt := now |> <| Stage := defaultStageForPhase phase |>
               <| StageStartedAt := now |> in
    (saveLocked io (s <| records := <[sessionID := r]> (records s) |>), viewLocked r "")
  else (s, viewLocked r "").

(** ** Recovery *)
Definition restartError : string := "Bridge restarted before the terminal event was observed".

Definition recoverRec (now : Z) (r : Rec) : Rec :=
  let r := r <| Revision := u64_succ (Revision r) |> <| Phase := "interrupted" |>
             <| QueueLength := 0 |> <| LastTerminal := "interrupted" |> <| LastError := restartError |>
             <| UpdatedAt := now |> <| Stage := "interrupted" |> <| StageMessage := restartError |>
             <| StageStartedAt := now |> <| CompletedAt := now |> in
  r <| Terminals := Terminals r ++
         [mkTerminal (Revision r) (ActiveRequestID r) "interrupted" now 0 "bridge_recovery"] |>
    <| ActiveRequestID := "" |> <| ActiveStartedAt := 0 |>.

Definition Recover (io : jio) (now : Z) (epoch sessionID : string) (actuallyActive : bool) (s : Store)
  : Store * (View * bool) :=
  let '(r, s) := ensureLocked epoch sessionID s in
  if negb (isActive (Phase r)) || actuallyActive then (s, (viewLocked r "", false))
  else
    let r := recoverRec now r in
    (saveLocked io (s <| records := <[sessionID := r]> (records s) |>), (viewLocked r "", true)).

(** Each record has its own reading of the clock. *)
Definition RecoverAllStale (io : jio) (now : string → Z) (s : Store) : Store * gmap string View :=
  let stale := filter (λ kr, isActive (Phase kr.2) = true) (records s) in
  let done := map_imap (λ id r, Some (recoverRec (now id) r)) stale in
  let s := s <| records := done ∪ records s |> in
  (if decide (stale = ∅) then s else saveLocked io s, (λ r, viewLocked r "") <$> done).

Definition ReconcileHistoryActivity (io : jio) (now : Z) (epoch sessionID : string)
    (latestAssistantAt : Z) (observedPhase : string) (s : Store) : Store * (View * bool) :=
  if str_empty sessionID || (latestAssistantAt <=? 0) then (s, (zeroView, false))
  else
    let '(r, s) := ensureLocked epoch sessionID s in
    if negb (bool_decide (Phase r = "interrupted")) || negb (bool_decide (LastTerminal r = "interrupted"))
       || negb (bool_decide (LastError r = restartError)) || (CompletedAt r =? 0)
       || (latestAssistantAt <=? CompletedAt r)
    then (s, (viewLocked r "", false))
    else
      let phase := if isActive observedPhase then observedPhase else "idle" in
      let r := r <| Revision := u64_succ (Revision r) |> <| Phase := phase |>
                 <| Stage := defaultStageForPhase phase |> <| StageMessage := "" |>
                 <| StageStartedAt := now |> <| ActiveRequestID := "" |> <| ActiveStartedAt := 0 |>
                 <| QueueLength := 0 |> <| LastTerminal := "" |> <| LastError := "" |>
                 <| CompletedAt := 0 |> <| UpdatedAt := now |> in
      (saveLocked io (s <| records := <[sessionID := r]> (records s) |>), (viewLocked r "", true)).

(** ** Device cursors *)
Definition ackRec (deviceID : string) (revision : Z) (read : bool) (r : Rec) : Rec * bool :=
  let revision := if (revision =? 0) || (Revision r <? revision) then Revision r else revision in
  let '(r, changed) :=
    if lookupZ (AckedByDevice r) deviceID <? revision
    then (r <| AckedByDevice := <[deviceID := revision]> (AckedByDevice r) |>, true) else (r, false) in
  if read && (lookupZ (ReadByDevice r) deviceID <? revision)
  then (r <| ReadByDevice := <[deviceID := revision]> (ReadByDevice r) |>, true) else (r, changed).

Definition Ack (io : jio) (epoch deviceID sessionID : string) (revision : Z) (read : bool) (s : Store)
  : Store * (View * bool) :=
  if str_empty deviceID || str_empty sessionID then (s, (zeroView, false))
  else
    let '(r, s) := ensureLocked epoch sessionID s in
    let '(r, changed) := ackRec deviceID revision read r in
    let s := s <| records := <[sessionID := r]> (records s) |> in
    let s :=
      if changed then
        let entry := mkCursor sessionID deviceID (lookupZ (AckedByDevice r) deviceID)
                       (lookupZ (ReadByDevice r) deviceID) in
        match appendCursorLocked io entry s with
        | (s, None) => s
        | (s, Some _) => saveLocked io s
        end
      else s in
    (s, (viewLocked r deviceID, changed)).

Definition Remove (io : jio) (sessionID : string) (s : Store) : Store :=
  match records s !! sessionID with
  | Some _ => saveLocked io (s <| records := delete sessionID (records s) |>
                               <| sharedReads := delete sessionID (sharedReads s) |>)
  | None => s
  end.

Fixpoint ensureAll (epochs : string → string) (ids : list string) (s : Store) : list Rec * Store :=
  match ids with
  | [] => ([], s)
  | id :: ids =>
      let '(r, s) := ensureLocked (epochs id) id s in
      let '(rs, s) := ensureAll epochs ids s in
      (r :: rs, s)
  end.

Definition by_id (a b : View) : Prop := String.leb (vSessionID a) (vSessionID b) = true.
#[global] Instance by_id_dec : RelDecision by_id := λ a b, decide (String.leb (vSessionID a) (vSessionID b) = true).

Definition Snapshot (epochs : string → string) (deviceID : string) (ids : list string) (s : Store)
  : Store * list View :=
  let '(rs, s) := ensureAll epochs ids s in
  (s, merge_sort by_id (map (λ r, viewLocked r deviceID) rs)).

Definition WidgetTerminals (sessionID : string) (since : Z) (s : Store) : list Terminal :=
  match records s !! sessionID with
  | None => []
  | Some r => filter (λ t, since ≤ tAt t ∧ tRequestID t ≠ "") (Terminals r)
  end.

(** ** Questions and stops *)
Definition WaitForInteraction (io : jio) (now : Z) (sessionID interactionID : string) (s : Store)
  : Store * (View * bool) :=
  match records s !! sessionID with
  | None => (s, (zeroView, false))
  | Some r =>
      if str_empty interactionID
         || (negb (bool_decide (Phase r = "running")) && negb (bool_decide (Phase r = "waiting")))
      then (s, (zeroView, false))
      else if bool_decide (WaitingInteractions r !! interactionID = Some (ActiveRequestID r))
      then (s, (viewLocked r "", false))
      else
        let r := r <| WaitingInteractions := <[interactionID := ActiveRequestID r]> (WaitingInteractions r) |> in
        let changed := negb (bool_decide (Phase r = "waiting")) in
        let r := if changed
                 then r <| Revision := u64_succ (Revision r) |> <| Phase := "waiting" |>
                        <| Stage := "waiting_user" |> <| StageMessage := "" |>
                        <| UpdatedAt := now |> <| StageStartedAt := now |>
                 else r in
        (saveLocked io (s <| records := <[sessionID := r]> (records s) |>), (viewLocked r "", changed))
  end.

Definition ResolveInteraction (io : jio) (now : Z) (sessionID interactionID : string) (s : Store)
  : Store * (View * bool) :=
  match records s !! sessionID with
  | None => (s, (zeroView, false))
  | Some r =>
      if str_empty interactionID || negb (bool_decide (Phase r = "waiting")) then (s, (zeroView, false))
      else if negb (bool_decide (WaitingInteractions r !! interactionID = Some (ActiveRequestID r)))
      then (s, (viewLocked r "", false))
      else
        let r := r <| WaitingInteractions := delete interactionID (WaitingInteractions r) |> in
        if negb (bool_decide (WaitingInteractions r = ∅))
        then (saveLocked io (s <| records := <[sessionID := r]> (records s) |>), (viewLocked r "", false))
        else
          let r := r <| Revision := u64_succ (Revision r) |> <| Phase := "running" |>
                     <| Stage := "thinking" |> <| StageMessage := "" |>
                     <| UpdatedAt := now |> <| StageStartedAt := now |> in
          (saveLocked io (s <| records := <[sessionID := r]> (records s) |>), (viewLocked r "", true))
  end.

(** The message shown while a stop is not confirmed, byte for byte. *)
Definition unconfirmedStop : string := "停止尚未確認，工作仍保持鎖定".

Definition RestoreUnconfirmedStop (io : jio) (now : Z) (sessionID requestID previousPhase : string)
    (s : Store) : Store * (View * bool) :=
  match records s !! sessionID with
  | None => (s, (zeroView, false))
  | Some r =>
      if negb (bool_decide (Phase r = "stopping")) || negb (bool_decide (ActiveRequestID r = requestID))
      then (s, (zeroView, false))
      else
        let phase := if isQueuedOrRunning previousPhase || bool_decide (previousPhase = "waiting")
                     then previousPhase else "running" in
        let r := r <| Phase := phase |> <| Stage := defaultStageForPhase phase |>
                   <| StageMessage := unconfirmedStop |> <| StageStartedAt := now |>
                   <| UpdatedAt := now |> <| Revision := u64_succ (Revision r) |> in
        (saveLocked io (s <| records := <[sessionID := r]> (records s) |>), (viewLocked r "", true))
  end.

(** ** Shared reads *)
Definition ErrSharedReadUnknownSession : string := "shared read session is not initialized".
Definition ErrSharedReadStaleEpoch : string := "stale shared read generation".
Definition ErrSharedReadInvalidRevision : string := "invalid shared read revision".
Definition ErrSharedReadStaleBoundary : string := "shared read history boundary no longer matches".

Record SharedReadState := mkSharedState {
  ssSessionID : string; ssReadEpoch : string; ssReadRevision : Z; ssReadVersion : Z;
  ssRuntimeRevision : Z; ssUnread : Z; ssLastCompletedRevision : Z }.
Definition zeroSharedState : SharedReadState := mkSharedState "" "" 0 0 0 0 0.

Definition sharedReadState (r : Rec) (read : sharedReadRecord) : SharedReadState :=
  mkSharedState (SessionID r) (shEpoch read) (shRevision read) (shVersion read) (Revision r)
    (unreadAfter (shRevision read) (Terminals r)) (lastCompleted (Terminals r)).

(** The loop over the persisted map marks every entry. *)
Definition markDurable (s : Store) : Store :=
  s <| persistedRecords := (λ p, mkPersisted (peRevision p) (peEpoch p) true) <$> persistedRecords s |>.

Definition persistReadBoundaryLocked (io : jio) (r : Rec) (revision : Z) (s : Store) : Store * error :=
  if negb (persistent s) then (s, None)
  else
    let persisted := default zeroPersisted (persistedRecords s !! SessionID r) in
    if bool_decide (peEpoch persisted = ReadEpoch r) && (revision <=? peRevision persisted) then
      if peDurable persisted then (s, None)
      else match ioSync io with
           | Some e => (s, Some e)
           | None => (markDurable s, None)
           end
    else writeRuntimeSnapshotLocked io true s.

Definition writeSharedReadsLocked (io : jio) (m : gmap string sharedReadRecord) (s : Store)
  : Store * error :=
  if negb (persistent s) then (s, None)
  else match ioShared io with
       | WOk => (s <| sharedDisk := SFData m |>, None)
       | WFail e => (s, Some (String.append "persist shared reads: " e))
       | WFailAfter e => (s <| sharedDisk := SFData m |>, Some (String.append "persist shared reads: " e))
       end.

(** Only entries of the current generation of an existing session are kept. *)
Definition copySharedReadsLocked (s : Store) : gmap string sharedReadRecord :=
  map_imap (λ id read, match records s !! id with
                       | Some r => if bool_decide (shEpoch read = ReadEpoch r) then Some read else None
                       | None => None
                       end) (sharedReads s).

Section tokens.
(** SHA-256 of the JSON array of the boundary, in hexadecimal. *)
Context (digest : string → Z → Z → string → string → Z → string).

Definition boundaryTerminal (revision : Z) (ts : list Terminal) : Terminal :=
  fold_left (λ t c, if (tRevision c <=? revision) && (tRevision t <=? tRevision c) then c else t)
  ts zeroTerminal.

Definition readBoundaryTokenLocked (r : Rec) (revision : Z) : string :=
  let t := boundaryTerminal revision (Terminals r) in
  digest (ReadEpoch r) revision (tRevision t) (tRequestID t) (tStatus t) (tAt t).

Definition ReadBoundaryToken (id epoch : string) (revision : Z) (s : Store) : string * error :=
  match records s !! id with
  | None => ("", Some ErrSharedReadUnknownSession)
  | Some r =>
  if str_empty epoch || negb (bool_decide (epoch = ReadEpoch r))
  then ("", Some ErrSharedReadStaleEpoch)
  else if (revision =? 0) || (Revision r <? revision)
  then ("", Some ErrSharedReadInvalidRevision)
  else (readBoundaryTokenLocked r revision, None)
  end.

Definition MarkSharedRead (io : jio) (id epoch : string) (revision : Z) (token : string) (s : Store)
  : Store * (SharedReadState * bool * error) :=
  match records s !! id, sharedReads s !! id with
  | Some r, Some read =>
  if str_empty epoch || negb (bool_decide (epoch = ReadEpoch r))
   || negb (bool_decide (epoch = shEpoch read))
  then (s, (zeroSharedState, false, Some ErrSharedReadStaleEpoch))
  else if (revision =? 0) || (Revision r <? revision)
  then (s, (zeroSharedState, false, Some ErrSharedReadInvalidRevision))
  else if revision <=? shRevision read then (s, (sharedReadState r read, false, None))
  else if str_empty token || negb (bool_decide (token = readBoundaryTokenLocked r revision))
  then (s, (zeroSharedState, false, Some ErrSharedReadStaleBoundary))
  else match persistReadBoundaryLocked io r revision s with
  | (s, Some e) => (s, (zeroSharedState, false, Some e))
  | (s, None) =>
    let read := read <| shRevision := revision |> <| shVersion := u64_succ (shVersion read) |> in
    let candidate := <[id := read]> (copySharedReadsLocked s) in
    match writeSharedReadsLocked io candidate s with
    | (s, Some e) => (s, (zeroSharedState, false, Some e))
    | (s, None) => (s <| sharedReads := candidate |>, (sharedReadState r read, true, None))
    end
  end
  | _, _ => (s, (zeroSharedState, false, Some ErrSharedReadUnknownSession))
  end.
End tokens.

(** The read position imported for a session enrolled for the first time. *)
Definition importRead (epoch : string) (paired : list string) (r : Rec) : sharedReadRecord :=
  let rev := fold_left (λ best d, let rev := lookupZ (ReadByDevice r) d in
                                  if (rev <=? Revision r) && (best <? rev) then rev else best) paired 0 in
  mkShared epoch rev (if 0 <? rev then 1 else 0).

Definition needsShared (s : Store) (id : string) : bool :=
  match records s !! id with
  | None => false
  | Some r => match sharedReads s !! id with
              | Some read => negb (bool_decide (shEpoch read = ReadEpoch r))
              | None => true
              end
  end.

(** The enrolment loop: the records it changed, the candidate ledger, and
    whether anything was added. *)
Fixpoint enrol (io : jio) (epochs : string → string) (paired ids : list string)
    (candidate : gmap string sharedReadRecord) (changed : bool) (s : Store)
  : Store * (gmap string sharedReadRecord * bool * error) :=
  match ids with
  | [] => (s, (candidate, changed, None))
  | id :: ids =>
      match records s !! id with
      | None => enrol io epochs paired ids candidate changed s
      | Some r =>
          if bool_decide ((shEpoch <$> candidate !! id) = Some (ReadEpoch r))
          then enrol io epochs paired ids candidate changed s
          else
            let r := if str_empty (ReadEpoch r) then r <| ReadEpoch := epochs id |> else r in
            let s := s <| records := <[id := r]> (records s) |> in
            let read := importRead (ReadEpoch r) paired r in
            match persistReadBoundaryLocked io r (shRevision read) s with
            | (s, Some e) => (s, (candidate, changed, Some e))
            | (s, None) => enrol io epochs paired ids (<[id := read]> candidate) true s
            end
      end
  end.

Definition ensureSharedReadsLocked (io : jio) (epochs : string → string) (ids paired : list string)
    (s : Store) : Store * error :=
  match sharedReadLoadErr s with
  | Some e => (s, Some e)
  | None =>
      if negb (existsb (needsShared s) ids) then (s, None)
      else match enrol io epochs paired ids (copySharedReadsLocked s) false s with
      | (s, (_, _, Some e)) => (s, Some e)
      | (s, (candidate, changed, None)) =>
          if negb changed then (s, None)
          else match writeSharedReadsLocked io candidate s with
               | (s, Some e) => (s, Some e)
               | (s, None) => (s <| sharedReads := candidate |>, None)
               end
      end
  end.

Definition sharedView (deviceID : string) (r : Rec) (read : sharedReadRecord) : View :=
  (viewLocked r deviceID)
    <| vReadEpoch := shEpoch read |> <| vReadRevision := shRevision read |>
    <| vReadVersion := shVersion read |> <| vUnread := ssUnread (sharedReadState r read) |>.

Definition SharedSnapshot (io : jio) (epochs : string → string) (deviceID : string)
    (ids paired : list string) (s : Store) : Store * (list View * error) :=
  match ensureSharedReadsLocked io epochs ids paired s with
  | (s, Some e) => (s, ([], Some e))
  | (s, None) =>
      (s, (omap (λ id, match records s !! id with
                       | Some r => Some (sharedView deviceID r
                                           (default (mkShared "" 0 0) (sharedReads s !! id)))
                       | None => None
                       end) ids, None))
  end.

Definition SharedReadsAvailable (s : Store) : bool :=
  match sharedReadLoadErr s with None => true | Some _ => false end.

Definition SourceEpoch (io : jio) (epoch id : string) (s : Store) : Store * (string * error) :=
  if str_empty id then (s, ("", Some "session_required"))
  else
    let '(r, s) := ensureLocked epoch id s in
    match persistReadBoundaryLocked io r (Revision r) s with
    | (s, Some e) => (s, ("", Some e))
    | (s, None) => (s, (ReadEpoch r, None))
    end.

(** ** Loading *)
Definition loadCursor (m : gmap string Rec) (e : cursorEntry) : gmap string Rec :=
  if str_empty (cuSessionID e) || str_empty (cuDeviceID e) then m
  else match m !! cuSessionID e with
  | None => m      (* a cursor never brings back a removed session *)
  | Some r =>
      let r := fillRec r in
      let r := if lookupZ (AckedByDevice r) (cuDeviceID e) <? cuAcked e
               then r <| AckedByDevice := <[cuDeviceID e := cuAcked e]> (AckedByDevice r) |> else r in
      let r := if lookupZ (ReadByDevice r) (cuDeviceID e) <? cuRead e
               then r <| ReadByDevice := <[cuDeviceID e := cuRead e]> (ReadByDevice r) |> else r in
      <[cuSessionID e := r]> m
  end.

Definition load (order : list (string * Rec)) (s : Store) : Store :=
  let m := fillRec <$> default ∅ (snapFile s) in
  let s := s <| persistedRecords := (λ r, mkPersisted (Revision r) (ReadEpoch r) true) <$> m |>
             <| records := fold_left loadCursor (cursorFile s) m |> in
  enforceCapLocked order s.

(** A shared read is loaded for the generation it was made in; one that is
    ahead of the lifecycle file rotates the generation. *)
Definition loadSharedRead (epochs : string → string) (s : Store) (entry : string * sharedReadRecord) : Store :=
  let '(id, read) := entry in
  match records s !! id with
  | None => s
  | Some r =>
      if str_empty (ReadEpoch r) || negb (bool_decide (shEpoch read = ReadEpoch r)) then s
      else if Revision r <? shRevision read
      then s <| records := <[id := r <| ReadEpoch := epochs id |>]> (records s) |>
      else s <| sharedReads := <[id := read]> (sharedReads s) |>
  end.

Definition loadSharedReads (epochs : string → string) (s : Store) : Store :=
  match sharedDisk s with
  | SFAbsent => s
  | SFBroken e => s <| sharedReadLoadErr := Some e |>
  | SFData m => fold_left (loadSharedRead epochs) (map_to_list m) s
  end.

(** [New] over the files a previous process left. *)
Definition New (epochs : string → string) (order : list (string * Rec))
    (files : option (gmap string Rec)) (cursors : list cursorEntry) (shared : sharedFile) : Store :=
  loadSharedReads epochs
    (load order (mkStore true None ∅ ∅ ∅ false false 0 files cursors shared)).

(** ** History evidence for a shared read *)
Inductive any := AStr (s : string) | AInt64 (z : Z) | AInt (z : Z) | AFloat (f : f64) | ABool (b : bool) | AOther.
#[global] Instance any_eq_dec : EqDecision any.
Proof. solve_decision. Defined.
  Abbreviation message := (gmap string any).

Definition asString (v : option any) : string := match v with Some (AStr s) => s | _ => "" end.
Definition asTimestamp (v : option any) : Z :=
  match v with
  | Some (AInt64 z) | Some (AInt z) => z
  | Some (AFloat f) => f64_to_i64 f
  | _ => 0
  end.

Definition messageProves (target : Terminal) (m : message) : bool :=
  if negb (bool_decide (m !! "role" = Some (AStr "assistant"))) then false
  else if negb (bool_decide (m !! "history_read_result_verified" = Some (ABool true)))
          || blank (asString (m !! "content")) then false
  else if negb (str_empty (asString (m !! "origin"))) then false
  else if negb (str_empty (asString (m !! "request_id")))
  then bool_decide (asString (m !! "request_id") = tRequestID target)
  else if negb (bool_decide (m !! "source" = Some (AStr "claude")))
          || negb (bool_decide (m !! "history_timestamp_verified" = Some (ABool true)))
          || (tStartedAt target <=? 0) then false
  else (tStartedAt target <? asTimestamp (m !! "timestamp"))
       && (asTimestamp (m !! "timestamp") <=? tAt target).

Definition HistoryMatchesReadBoundary (id epoch : string) (revision : Z) (messages : list message)
    (s : Store) : bool :=
  match records s !! id with
  | None => false
  | Some r =>
      if negb (bool_decide (epoch = ReadEpoch r)) || (revision =? 0) || (Revision r <? revision)
         || bool_decide (messages = [])
      then false
      else
        let target := boundaryTerminal revision (Terminals r) in
        if tRevision target =? 0 then true
        else
          let target := if (tStartedAt target =? 0) && bool_decide (tRequestID target = ActiveRequestID r)
                        then target <| tStartedAt := ActiveStartedAt r |> else target in
          existsb (messageProves target) messages
  end.

(** ** What a step does to a record *)

(** The ledger: revisions are positive, increasing, and not ahead of the
    record; no device has seen more than exists, or read more than it was
    sent. *)
Record rec_ok (r : Rec) : Prop := {
  r_u64 : is_u64 (Revision r);
  r_sorted : StronglySorted Z.lt (map tRevision (Terminals r));
  r_bound : ∀ t, t ∈ Terminals r → 0 < tRevision t ≤ Revision r;
  r_read : ∀ d, 0 ≤ lookupZ (ReadByDevice r) d ≤ lookupZ (AckedByDevice r) d;
  r_acked : ∀ d, lookupZ (AckedByDevice r) d ≤ Revision r }.

(** [r'] continues [r]: the revision does not go back, the ledger loses at
    most its oldest entries and gains at most entries of newer revisions,
    cursors do not go back, and the session and its generation, once it has
    one, are the same. *)
Record continues (r r' : Rec) : Prop := {
  c_id : SessionID r' = SessionID r;
  c_epoch : ReadEpoch r ≠ "" → ReadEpoch r' = ReadEpoch r;
  c_rev : Revision r ≤ Revision r';
  c_ledger : ∃ n new, Terminals r' = drop n (Terminals r ++ new) ∧
    ∀ t, t ∈ new → Revision r < tRevision t;
  c_acked : ∀ d, lookupZ (AckedByDevice r) d ≤ lookupZ (AckedByDevice r') d;
  c_read : ∀ d, lookupZ (ReadByDevice r) d ≤ lookupZ (ReadByDevice r') d }.

Lemma continues_refl r : continues r r.
Proof. split; try done. exists 0%nat, []. rewrite app_nil_r. split; [done|]. by intros t ?%elem_of_nil. Qed.

(** Same revision, ledger and cursors: presentation only. *)
Definition same_ledger (r r' : Rec) : Prop :=
  SessionID r' = SessionID r ∧ ReadEpoch r' = ReadEpoch r ∧ Revision r' = Revision r ∧
  Terminals r' = Terminals r ∧ AckedByDevice r' = AckedByDevice r ∧ ReadByDevice r' = ReadByDevice r.

Lemma same_ledger_ok r r' : same_ledger r r' → (rec_ok r → rec_ok r') ∧ continues r r'.
Proof.
  intros (H1 & H2 & H3 & H4 & H5 & H6). split.
  - intros []. by split; rewrite ?H3, ?H4, ?H5, ?H6.
  - split; rewrite ?H5, ?H6; try done; [lia|]. exists 0%nat, []. rewrite app_nil_r.
    split; [done|]. by intros t ?%elem_of_nil.
Qed.

(** One transition: the next revision, at most one terminal at that revision,
    possibly dropping the oldest, cursors untouched. *)
Record advances (r r' : Rec) : Prop := {
  a_id : SessionID r' = SessionID r;
  a_epoch : ReadEpoch r' = ReadEpoch r;
  a_rev : Revision r' = u64_succ (Revision r);
  a_ledger : Terminals r' = Terminals r ∨
    ∃ n t, tRevision t = Revision r' ∧ Terminals r' = drop n (Terminals r ++ [t]);
  a_acked : AckedByDevice r' = AckedByDevice r;
  a_read : ReadByDevice r' = ReadByDevice r }.

Lemma StronglySorted_snoc (l : list Z) x :
  StronglySorted Z.lt l → (∀ y, y ∈ l → y < x) → StronglySorted Z.lt (l ++ [x]).
Proof.
  induction 1 as [|a l Hl IH Ha]; simpl; intros Hx; [repeat constructor|].
  constructor; [apply IH; intros; apply Hx; by right|].
  apply Forall_app. split; [done|]. repeat constructor. apply Hx. by left.
Qed.

Lemma StronglySorted_drop (l : list Z) n : StronglySorted Z.lt l → StronglySorted Z.lt (drop n l).
Proof. revert l; induction n as [|n IH]; intros l H; [done|]. destruct H; simpl; [constructor|auto]. Qed.

Lemma elem_of_drop {A} (x : A) n l : x ∈ drop n l → x ∈ l.
Proof. intros H. rewrite <- (take_drop n l). apply elem_of_app. by right. Qed.

Lemma advances_ok r r' :
  advances r r' → Revision r < u64_max → rec_ok r → rec_ok r' ∧ continues r r'.
Proof.
  intros [] Hlt []. unfold is_u64 in *. rewrite u64_succ_lt in a_rev0 by lia. split.
  - split; rewrite ?a_acked0, ?a_read0; try done.
    + unfold is_u64. lia.
    + destruct a_ledger0 as [->|(n & t & Ht & ->)]; [done|].
      rewrite <- skipn_map. apply StronglySorted_drop. rewrite map_app.
      apply StronglySorted_snoc; [done|]. intros y (u & -> & Hu)%list_elem_of_fmap.
      specialize (r_bound0 u Hu). lia.
    + intros t Ht. destruct a_ledger0 as [E|(n & u & Hu & E)]; rewrite E in Ht.
      * specialize (r_bound0 t Ht). lia.
      * apply elem_of_drop, elem_of_app in Ht as [Ht| ->%list_elem_of_singleton]; [|lia].
        specialize (r_bound0 t Ht). lia.
    + intros d. specialize (r_acked0 d). lia.
  - split; rewrite ?a_acked0, ?a_read0; try done; [lia|].
    destruct a_ledger0 as [->|(n & t & Ht & ->)].
    + exists 0%nat, []. rewrite app_nil_r. split; [done|]. by intros t ?%elem_of_nil.
    + exists n, [t]. split; [done|]. intros u ->%list_elem_of_singleton. lia.
Qed.

Lemma fillRec_same r : same_ledger r (fillRec r).
Proof. unfold fillRec. repeat case_match; done. Qed.

Lemma capTerminals_drop ts : ∃ n, capTerminals ts = drop n ts.
Proof. unfold capTerminals. case_match; [by eexists|by exists 0%nat]. Qed.

Lemma updateRec_advances now phase req q terminal err r :
  advances r (updateRec now phase req q terminal err r).
Proof.
  unfold updateRec. set (newTurn := _ && isQueuedOrRunning phase).
  destruct (negb (bool_decide (phase = "waiting")) || _);
    destruct (newTurn || _); destruct (negb (str_empty terminal)); cbn.
  all: destruct newTurn; try destruct (isActive phase); split; cbn; try done; try (by left).
  all: right; match goal with |- context [capTerminals ?l] => destruct (capTerminals_drop l) as [n ->] end;
    (eexists n, _; split; [|reflexivity]; done).
Qed.

(** ** The journal as a state machine *)
Inductive op :=
  | OUpdate (order : Store → list (string * Rec)) (id phase requestID : string) (queueLength : Z)
      (terminal lastError : string)
  | OQueueLength (id : string) (queueLength : Z)
  | OProgress (id requestID stage message : string)
  | OEnsure (id phase : string) (queueLength : Z)
  | ORecover (id : string) (actuallyActive : bool)
  | ORecoverAll
  | OReconcile (id : string) (latestAssistantAt : Z) (observedPhase : string)
  | OWait (id interactionID : string)
  | OResolve (id interactionID : string)
  | ORestoreStop (id requestID previousPhase : string)
  | OAck (deviceID id : string) (revision : Z) (read : bool)
  | OSnapshot (deviceID : string) (ids : list string)
  | OSharedSnapshot (deviceID : string) (ids paired : list string)
  | OMarkShared (digest : string → Z → Z → string → string → Z → string)
      (id epoch : string) (revision : Z) (token : string)
  | OSourceEpoch (id : string)
  | ORemove (id : string)
  | OFlush
  | OTimer.

(** [now] and [epochs] give the clock and the random epoch of each session. *)
Definition run (io : jio) (now : string → Z) (epochs : string → string) (o : op) (s : Store) : Store :=
  match o with
  | OUpdate order id phase req q term err =>
      (Update io (now id) (epochs id) order id phase req q term err s).1
  | OQueueLength id q => (UpdateQueueLength io (now id) (epochs id) id q s).1
  | OProgress id req stage msg => (Progress (now id) (epochs id) id req stage msg s).1
  | OEnsure id phase q => (Ensure io (now id) (epochs id) id phase q s).1
  | ORecover id active => (Recover io (now id) (epochs id) id active s).1
  | ORecoverAll => (RecoverAllStale io now s).1
  | OReconcile id at_ phase => (ReconcileHistoryActivity io (now id) (epochs id) id at_ phase s).1
  | OWait id q => (WaitForInteraction io (now id) id q s).1
  | OResolve id q => (ResolveInteraction io (now id) id q s).1
  | ORestoreStop id req phase => (RestoreUnconfirmedStop io (now id) id req phase s).1
  | OAck dev id rev read => (Ack io (epochs id) dev id rev read s).1
  | OSnapshot dev ids => (Snapshot epochs dev ids s).1
  | OSharedSnapshot dev ids paired => (SharedSnapshot io epochs dev ids paired s).1
  | OMarkShared digest id epoch rev token => (MarkSharedRead digest io id epoch rev token s).1
  | OSourceEpoch id => (SourceEpoch io (epochs id) id s).1
  | ORemove id => Remove io id s
  | OFlush => Flush io s
  | OTimer => flushTimerFires io s
  end.

Definition store_ok (s : Store) : Prop :=
  ∀ id r, records s !! id = Some r → rec_ok r ∧ SessionID r = id.
(** Fewer than 2^64 transitions per session so far. *)
Definition room (s : Store) : Prop := ∀ id r, records s !! id = Some r → Revision r < u64_max.

(** The records of [s'] are good, and those that were in [s] continue. *)
Definition moves (s s' : Store) : Prop :=
  ∀ id r', records s' !! id = Some r' →
    rec_ok r' ∧ SessionID r' = id ∧ ∀ r, records s !! id = Some r → continues r r'.

Lemma moves_refl s : store_ok s → moves s s.
Proof.
  intros H id r' Hr. destruct (H id r' Hr) as [H1 H2]. split_and!; [done..|].
  intros r E. assert (r = r') as -> by congruence. apply continues_refl.
Qed.

Lemma moves_records s s1 s2 : records s2 = records s1 → moves s s1 → moves s s2.
Proof. intros E H id r'. rewrite E. apply H. Qed.

Lemma write_records io d s : records (writeRuntimeSnapshotLocked io d s).1 = records s.
Proof. unfold writeRuntimeSnapshotLocked. repeat case_match; done. Qed.
Lemma save_records io s : records (saveLocked io s) = records s.
Proof. unfold saveLocked, writeLocked. by rewrite write_records. Qed.
Lemma persist_records io r rev s : records (persistReadBoundaryLocked io r rev s).1 = records s.
Proof.
  unfold persistReadBoundaryLocked. repeat case_match; try done. apply write_records.
Qed.

Lemma newRec_ok epoch id : rec_ok (newRec epoch id).
Proof. split; cbn; try done; [constructor|by intros t ?%elem_of_nil]. Qed.

(** The record an operation starts from. *)
Lemma ensure_spec epoch id s :
  store_ok s →
  let '(r, s1) := ensureLocked epoch id s in
  records s1 = <[id := r]> (records s) ∧ rec_ok r ∧ SessionID r = id ∧
  (∀ r0, records s !! id = Some r0 → same_ledger r0 r ∧ Phase r = Phase r0) ∧
  (records s !! id = None → Revision r = 0) ∧ s1 = s <| records := <[id := r]> (records s) |>.
Proof.
  intros Hok. unfold ensureLocked.
  set (r0 := default (newRec epoch id) (records s !! id)).
  assert (rec_ok r0 ∧ SessionID r0 = id) as [H1 H2].
  { unfold r0. destruct (records s !! id) as [x|] eqn:E; [by apply Hok|]. split; [apply newRec_ok|done]. }
  pose proof (fillRec_same r0) as Hs. pose proof Hs as (S1 & S2 & S3 & _).
  split_and!; try done.
  - by apply (same_ledger_ok r0).
  - congruence.
  - intros r1 E. unfold r0 in *. rewrite E in *. simpl in *. split; [done|].
    unfold fillRec. repeat case_match; done.
  - intros E. rewrite S3. unfold r0. by rewrite E.
Qed.

Lemma same_continues r0 r r' : same_ledger r0 r → continues r r' → continues r0 r'.
Proof.
  intros (S1 & S2 & S3 & S4 & S5 & S6) []. split.
  - congruence.
  - intros H. rewrite <- S2. apply c_epoch0. congruence.
  - lia.
  - by rewrite S4, S3 in c_ledger0.
  - by rewrite S5 in c_acked0.
  - by rewrite S6 in c_read0.
Qed.

(** Replacing one record by a continuation of it. *)
Lemma moves_put s s1 id r' :
  store_ok s → records s1 = <[id := r']> (records s) → rec_ok r' → SessionID r' = id →
  (∀ r0, records s !! id = Some r0 → continues r0 r') → moves s s1.
Proof.
  intros Hok Hr Hr' Hid Hc j x. rewrite Hr. destruct (decide (id = j)) as [->|Hne].
  - rewrite lookup_insert_eq. intros [= <-]. split_and!; done.
  - rewrite lookup_insert_ne by done. intros Hx. by apply (moves_refl s Hok).
Qed.

(** An operation on one record: nothing but the defaults, or one step. *)
Lemma moves_step epoch id s s1 :
  store_ok s → room s →
  let '(r, s0) := ensureLocked epoch id s in
  (records s1 = records s0 ∨
   ∃ r', records s1 = <[id := r']> (records s0) ∧ (advances r r' ∨ same_ledger r r')) →
  moves s s1.
Proof.
  intros Hok Hroom. pose proof (ensure_spec epoch id s Hok) as H.
  destruct (ensureLocked epoch id s) as [r s0]. destruct H as (H1 & H2 & H3 & H4 & H5 & _).
  intros [E|(r' & E & Hf)].
  - apply (moves_put s s1 id r); try done; [by rewrite E|].
    intros r0 Hr0. by apply same_ledger_ok, H4.
  - rewrite H1, insert_insert_eq in E.
    assert (Revision r < u64_max) as Hlt.
    { destruct (records s !! id) as [r0|] eqn:E0.
      - destruct (H4 r0 eq_refl) as [(_ & _ & -> & _) _]. by eapply Hroom.
      - rewrite H5 by done. done. }
    assert (rec_ok r' ∧ continues r r' ∧ SessionID r' = id) as (F1 & F2 & F3).
    { destruct Hf as [Ha|Hs].
      - destruct (advances_ok r r' Ha Hlt H2). split_and!; try done. by rewrite (a_id _ _ Ha).
      - destruct (same_ledger_ok r r' Hs) as [Hx Hc]. split_and!; [auto|done|].
        by destruct Hs as (-> & _). }
    apply (moves_put s s1 id r'); try done.
    intros r0 Hr0. eapply same_continues; [by apply H4|done].
Qed.

Lemma moves_sub s s1 s2 :
  (∀ id r, records s2 !! id = Some r → records s1 !! id = Some r) → moves s s1 → moves s s2.
Proof. intros Hsub H id r' Hr. by apply H, Hsub. Qed.

Lemma cap_sub order s id r : records (enforceCapLocked order s) !! id = Some r → records s !! id = Some r.
Proof.
  unfold enforceCapLocked. destruct (_ <=? _)%nat; [done|]. cbn. generalize (evicted order). intros l.
  revert r. induction l as [|kr l IH] using rev_ind; intros r; [done|].
  rewrite fold_left_app. cbn. intros [_ H]%lookup_delete_Some. auto.
Qed.

Lemma schedule_records s : records (scheduleSaveLocked s) = records s.
Proof. unfold scheduleSaveLocked. by case_match. Qed.

(** Steps that only change how the turn is presented. *)
Ltac advance := split; cbn; [done|done|done|by left|done|done].

Lemma recoverRec_advances now r : advances r (recoverRec now r).
Proof. split; cbn; try done. right. eexists 0%nat, _. split; [|reflexivity]. done. Qed.

Lemma Update_moves io now epoch order id phase req q term err s :
  store_ok s → room s → moves s (Update io now epoch order id phase req q term err s).1.
Proof.
  intros Hok Hr. unfold Update. destruct (str_empty id); [by apply moves_refl|].
  pose proof (λ s1, moves_step epoch id s s1) as H. destruct (ensureLocked epoch id s) as [r s0].
  cbv zeta. set (phase' := if str_empty phase then Phase r else phase).
  destruct (_ && _ && _ && _ && _); cbn [fst]; [apply H; [done|done|by left]|].
  eapply moves_records; [apply save_records|]. eapply moves_sub; [intros j x; apply cap_sub|].
  apply H; try done. right. eexists. split; [reflexivity|]. left. apply updateRec_advances.
Qed.

Lemma UpdateQueueLength_moves io now epoch id q s :
  store_ok s → room s → moves s (UpdateQueueLength io now epoch id q s).1.
Proof.
  intros Hok Hr. unfold UpdateQueueLength. destruct (str_empty id); [by apply moves_refl|].
  pose proof (λ s1, moves_step epoch id s s1) as H. destruct (ensureLocked epoch id s) as [r s0].
  cbv zeta. destruct (_ =? _); cbn [fst]; [apply H; [done|done|by left]|].
  eapply moves_records; [apply save_records|].
  apply H; try done. right. eexists. split; [reflexivity|]. left. advance.
Qed.

Lemma Progress_moves now epoch id req stage msg s :
  store_ok s → room s → moves s (Progress now epoch id req stage msg s).1.
Proof.
  intros Hok Hr. unfold Progress. destruct (_ || _); [by apply moves_refl|].
  pose proof (λ s1, moves_step epoch id s s1) as H. destruct (ensureLocked epoch id s) as [r s0].
  cbv zeta. repeat (match goal with |- context [if ?b then (s0, _) else _] => destruct b end;
    cbn [fst]; [apply H; [done|done|by left]|]).
  cbn [fst]. eapply moves_records; [apply schedule_records|]. apply H; try done.
  right. eexists. split; [reflexivity|]. left.
  destruct (negb (str_empty req)), (_ || _); advance.
Qed.

Lemma Recover_moves io now epoch id active s :
  store_ok s → room s → moves s (Recover io now epoch id active s).1.
Proof.
  intros Hok Hr. unfold Recover.
  pose proof (λ s1, moves_step epoch id s s1) as H. destruct (ensureLocked epoch id s) as [r s0].
  destruct (_ || _); cbn [fst]; [apply H; [done|done|by left]|].
  eapply moves_records; [apply save_records|]. apply H; try done. right. eexists.
  split; [reflexivity|]. left. apply recoverRec_advances.
Qed.

Lemma Reconcile_moves io now epoch id at_ phase s :
  store_ok s → room s → moves s (ReconcileHistoryActivity io now epoch id at_ phase s).1.
Proof.
  intros Hok Hr. unfold ReconcileHistoryActivity. destruct (_ || _); [by apply moves_refl|].
  pose proof (λ s1, moves_step epoch id s s1) as H. destruct (ensureLocked epoch id s) as [r s0].
  destruct (_ || _); cbn [fst]; [apply H; [done|done|by left]|].
  eapply moves_records; [apply save_records|]. apply H; try done. right. eexists.
  split; [reflexivity|]. left. advance.
Qed.

(** [Ensure] gives a record its first revision. *)
Lemma Ensure_moves io now epoch id phase q s :
  store_ok s → room s → moves s (Ensure io now epoch id phase q s).1.
Proof.
  intros Hok Hr. unfold Ensure. pose proof (λ s1, moves_step epoch id s s1) as H.
  destruct (ensureLocked epoch id s) as [r s0]. destruct (Z.eqb_spec (Revision r) 0) as [E|E]; cbn [fst];
    [|apply H; [done|done|by left]].
  eapply moves_records; [apply save_records|]. apply H; try done. right. eexists.
  split; [reflexivity|]. left. split; cbn; try done; [by rewrite E|by left].
Qed.

(** Operations on a record that must exist. *)
Lemma moves_existing s s1 id r r' :
  store_ok s → room s → records s !! id = Some r → records s1 = <[id := r']> (records s) →
  advances r r' ∨ same_ledger r r' → moves s s1.
Proof.
  intros Hok Hroom Hr E Hf. destruct (Hok id r Hr) as [Hrec Hid].
  assert (rec_ok r' ∧ continues r r' ∧ SessionID r' = id) as (F1 & F2 & F3).
  { destruct Hf as [Ha|Hs].
    - destruct (advances_ok r r' Ha) as [? ?]; [by eapply Hroom|done|].
      split_and!; try done. by rewrite (a_id _ _ Ha).
    - destruct (same_ledger_ok r r' Hs) as [Hx Hc]. split_and!; [auto|done|].
      by destruct Hs as (-> & _). }
  apply (moves_put s s1 id r'); try done. intros r0 Hr0. by assert (r0 = r) as -> by congruence.
Qed.

Lemma Wait_moves io now id q s :
  store_ok s → room s → moves s (WaitForInteraction io now id q s).1.
Proof.
  intros Hok Hr. unfold WaitForInteraction. destruct (records s !! id) as [r|] eqn:E; [|by apply moves_refl].
  destruct (_ || _); [by apply moves_refl|]. destruct (bool_decide _); [by apply moves_refl|].
  cbn [fst]. eapply moves_records; [apply save_records|].
  eapply (moves_existing s _ id r); try done. cbn. destruct (negb _); [left; advance|by right].
Qed.

Lemma Resolve_moves io now id q s :
  store_ok s → room s → moves s (ResolveInteraction io now id q s).1.
Proof.
  intros Hok Hr. unfold ResolveInteraction. destruct (records s !! id) as [r|] eqn:E; [|by apply moves_refl].
  destruct (_ || _); [by apply moves_refl|]. destruct (negb (bool_decide (_ = Some _))); [by apply moves_refl|].
  destruct (negb _); cbn [fst]; (eapply moves_records; [apply save_records|]);
    eapply (moves_existing s _ id r); try done; [by right|left; advance].
Qed.

Lemma RestoreStop_moves io now id req phase s :
  store_ok s → room s → moves s (RestoreUnconfirmedStop io now id req phase s).1.
Proof.
  intros Hok Hr. unfold RestoreUnconfirmedStop. destruct (records s !! id) as [r|] eqn:E; [|by apply moves_refl].
  destruct (_ || _); [by apply moves_refl|]. cbn [fst]. eapply moves_records; [apply save_records|].
  eapply (moves_existing s _ id r); try done. left; advance.
Qed.

(** ** Steps that leave every ledger as it is *)
Definition still (r r' : Rec) : Prop :=
  SessionID r' = SessionID r ∧ (ReadEpoch r ≠ "" → ReadEpoch r' = ReadEpoch r) ∧
  Revision r' = Revision r ∧ Terminals r' = Terminals r ∧ AckedByDevice r' = AckedByDevice r ∧
  ReadByDevice r' = ReadByDevice r.

Definition calm (s s' : Store) : Prop :=
  ∀ id r', records s' !! id = Some r' →
    (∃ r, records s !! id = Some r ∧ still r r') ∨
    (records s !! id = None ∧ rec_ok r' ∧ SessionID r' = id).

Lemma still_continues r r' : still r r' → (rec_ok r → rec_ok r') ∧ continues r r'.
Proof.
  intros (H1 & H2 & H3 & H4 & H5 & H6). split.
  - intros []. by split; rewrite ?H3, ?H4, ?H5, ?H6.
  - split; rewrite ?H5, ?H6; try done; [lia|]. exists 0%nat, []. rewrite app_nil_r.
    split; [done|]. by intros t ?%elem_of_nil.
Qed.

Lemma still_rec_ok r r' id : still r r' → rec_ok r ∧ SessionID r = id → rec_ok r' ∧ SessionID r' = id.
Proof. intros H [H1 H2]. split; [by apply (still_continues r)|]. destruct H as (-> & _). done. Qed.

Lemma calm_records_refl s : calm s s.
Proof. intros id r Hr. left. exists r. by split. Qed.

(** [calm] steps never forget a record. *)
Definition grows (s s' : Store) : Prop := ∀ id, is_Some (records s !! id) → is_Some (records s' !! id).

Lemma calm_records_trans s1 s2 s3 : grows s1 s2 → calm s1 s2 → calm s2 s3 → calm s1 s3.
Proof.
  intros Hg H12 H23 id r3 Hr3. destruct (H23 id r3 Hr3) as [(r2 & Hr2 & S)|(Hn & H)].
  - destruct (H12 id r2 Hr2) as [(r1 & Hr1 & S')|(Hn & H)].
    + left. exists r1. split; [done|].
      destruct S as (A1 & A2 & A3 & A4 & A5 & A6), S' as (B1 & B2 & B3 & B4 & B5 & B6).
      split_and!; try congruence. intros E. rewrite A2; [by apply B2|]. by rewrite B2.
    + right. split; [done|]. by apply (still_rec_ok r2).
  - right. split; [|done]. destruct (records s1 !! id) as [r1|] eqn:E; [|done].
    destruct (Hg id) as [x Hx]; [by rewrite E|]. congruence.
Qed.

Lemma calm_moves s s' : store_ok s → calm s s' → moves s s'.
Proof.
  intros Hok Hc id r' Hr'. destruct (Hc id r' Hr') as [(r & Hr & S)|(Hn & H1 & H2)].
  - destruct (still_rec_ok r r' id S (Hok id r Hr)). split_and!; [done..|].
    intros x Hx. assert (x = r) as -> by congruence. by apply still_continues.
  - split_and!; [done..|]. congruence.
Qed.

Lemma calm_ok s s' : store_ok s → calm s s' → store_ok s'.
Proof. intros Hok Hc id r Hr. destruct (calm_moves s s' Hok Hc id r Hr) as (? & ? & _). done. Qed.

Lemma calm_put s s1 id r' :
  store_ok s → records s1 = <[id := r']> (records s) →
  (∀ r, records s !! id = Some r → still r r') →
  (records s !! id = None → rec_ok r' ∧ SessionID r' = id) → calm s s1 ∧ grows s s1.
Proof.
  intros Hok E Hs Hn. split.
  - intros j x. rewrite E. destruct (decide (id = j)) as [->|].
    + rewrite lookup_insert_eq. intros [= <-].
      destruct (records s !! j) as [r|] eqn:Er; [left; exists r; auto|right; auto].
    + rewrite lookup_insert_ne by done. intros Hx. left. exists x. by repeat split.
  - intros j Hj. rewrite E. destruct (decide (id = j)) as [->|];
      [rewrite lookup_insert_eq; by eexists|by rewrite lookup_insert_ne].
Qed.

Lemma ensure_calm epoch id s :
  store_ok s → calm s (ensureLocked epoch id s).2 ∧ grows s (ensureLocked epoch id s).2.
Proof.
  intros Hok. pose proof (ensure_spec epoch id s Hok) as H.
  destruct (ensureLocked epoch id s) as [r s1]. destruct H as (H1 & H2 & H3 & H4 & _). cbn [snd].
  apply (calm_put s s1 id r); try done. intros r0 Hr0. destruct (H4 r0 Hr0) as [(S1 & S2 & S3 & S4 & S5 & S6) _].
  by repeat split.
Qed.

Lemma ensureAll_calm epochs ids s :
  store_ok s → calm s (ensureAll epochs ids s).2 ∧ grows s (ensureAll epochs ids s).2.
Proof.
  revert s; induction ids as [|id ids IH]; intros s Hok; cbn [ensureAll];
    [split; [apply calm_records_refl|by intros ?]|].
  destruct (ensure_calm (epochs id) id s Hok) as [C1 G1].
  destruct (ensureLocked (epochs id) id s) as [r s1]. cbn [snd] in C1, G1.
  destruct (IH s1) as [C2 G2]; [by eapply calm_ok|].
  destruct (ensureAll epochs ids s1) as [rs s2]. cbn [snd] in *. split.
  - exact (calm_records_trans s s1 s2 G1 C1 C2).
  - intros j Hj. auto.
Qed.

Lemma enrol_calm io epochs paired ids candidate changed s :
  store_ok s → calm s (enrol io epochs paired ids candidate changed s).1 ∧
    grows s (enrol io epochs paired ids candidate changed s).1.
Proof.
  revert candidate changed s. induction ids as [|id ids IH]; intros candidate changed s Hok; cbn [enrol].
  - split; [apply calm_records_refl|by intros ?].
  - destruct (records s !! id) as [r|] eqn:Er; [|by apply IH].
    destruct (bool_decide _); [by apply IH|].
    set (r' := if str_empty (ReadEpoch r) then _ else r).
    set (s1 := s <| records := <[id := r']> (records s) |>).
    assert (calm s s1 ∧ grows s s1) as [C1 G1].
    { apply (calm_put s s1 id r'); try done; [|congruence]. intros x Hx.
      assert (x = r) as -> by congruence. unfold r', str_empty.
      destruct (bool_decide_reflect (ReadEpoch r = "")); by split_and!. }
    pose proof (persist_records io r' (shRevision (importRead (ReadEpoch r') paired r')) s1) as Ep.
    destruct (persistReadBoundaryLocked _ _ _ s1) as [s2 [e|]]; cbn [fst] in Ep |- *.
    + split; [intros j x; rewrite Ep; apply C1|intros j; rewrite Ep; apply G1].
    + assert (calm s s2) as C2 by (intros j x; rewrite Ep; apply C1).
      assert (grows s s2) as G2 by (intros j; rewrite Ep; apply G1).
      destruct (IH (<[id := importRead (ReadEpoch r') paired r']> candidate) true s2) as [C3 G3];
        [by eapply calm_ok|].
      split; [exact (calm_records_trans s s2 _ G2 C2 C3)|]. intros j Hj. auto.
Qed.

Lemma write_shared_records io m s : records (writeSharedReadsLocked io m s).1 = records s.
Proof. unfold writeSharedReadsLocked. repeat case_match; done. Qed.

Lemma ensureShared_calm io epochs ids paired s :
  store_ok s → calm s (ensureSharedReadsLocked io epochs ids paired s).1.
Proof.
  intros Hok. unfold ensureSharedReadsLocked. destruct (sharedReadLoadErr s); [apply calm_records_refl|].
  destruct (negb _); [apply calm_records_refl|].
  destruct (enrol_calm io epochs paired ids (copySharedReadsLocked s) false s Hok) as [C _].
  destruct (enrol _ _ _ _ _ _ s) as [s1 [[cand changed] [e|]]]; cbn [fst] in *; [done|].
  destruct (negb changed); [done|]. pose proof (write_shared_records io cand s1) as E.
  destruct (writeSharedReadsLocked io cand s1) as [s2 [e|]]; cbn [fst] in *; intros j x Hx; apply C;
    by rewrite <- E.
Qed.

Lemma lookupZ_insert m k v d :
  lookupZ (<[k := v]> m) d = if decide (k = d) then v else lookupZ m d.
Proof.
  unfold lookupZ. case_decide; [by subst; rewrite lookup_insert_eq|by rewrite lookup_insert_ne].
Qed.

Lemma ackRec_spec dev rev read r :
  0 ≤ rev → rec_ok r → let r' := (ackRec dev rev read r).1 in
  rec_ok r' ∧ continues r r' ∧ SessionID r' = SessionID r.
Proof.
  intros Hrev Hok. unfold ackRec.
  set (v := if (rev =? 0) || (Revision r <? rev) then Revision r else rev).
  assert (0 ≤ v ≤ Revision r) as Hv.
  { pose proof (r_u64 r Hok) as [? _]. unfold v. destruct (Z.eqb_spec rev 0); simpl; [lia|].
    destruct (Z.ltb_spec (Revision r) rev); lia. }
  clearbody v. destruct Hok.
  destruct (Z.ltb_spec (lookupZ (AckedByDevice r) dev) v) as [H1|H1];
    match goal with |- context [read && ?b] => destruct read, (b) eqn:H2 end; cbn [andb fst];
    cbn in H2; bool_facts.
  all: split_and!; [split; cbn; try done|split; cbn; try done; try lia|done].
  all: try (intros d; rewrite ?lookupZ_insert; pose proof (r_read0 d); pose proof (r_acked0 d);
    repeat case_decide; subst; lia).
  all: exists 0%nat, []; rewrite app_nil_r; split; [done|]; by intros t ?%elem_of_nil.
Qed.

Lemma Ack_moves io epoch dev id rev read s :
  store_ok s → 0 ≤ rev → moves s (Ack io epoch dev id rev read s).1.
Proof.
  intros Hok Hrev. unfold Ack. destruct (_ || _); [by apply moves_refl|].
  pose proof (ensure_spec epoch id s Hok) as H. destruct (ensureLocked epoch id s) as [r s1].
  destruct H as (H1 & H2 & H3 & H4 & H5 & _).
  destruct (ackRec_spec dev rev read r Hrev H2) as (A1 & A2 & A3).
  destruct (ackRec dev rev read r) as [r' changed]. cbn [fst] in *.
  eapply moves_records; [|apply (moves_put s (s1 <| records := <[id := r']> (records s1) |>) id r')]; try done.
  - destruct changed; [|done]. unfold appendCursorLocked. repeat case_match; simplify_eq; try done.
    all: by rewrite save_records.
  - cbn. by rewrite H1, insert_insert_eq.
  - congruence.
  - intros r0 Hr0. eapply same_continues; [by apply H4|done].
Qed.

Lemma RecoverAll_moves io now s : store_ok s → room s → moves s (RecoverAllStale io now s).1.
Proof.
  intros Hok Hroom. unfold RecoverAllStale.
  set (stale := filter _ (records s)). set (done := map_imap _ stale).
  eapply (moves_records s (s <| records := done ∪ records s |>)).
  { cbn [fst]. case_decide; [done|]. by rewrite save_records. }
  intros id r'. cbn. rewrite lookup_union. unfold done, stale. rewrite map_lookup_imap, map_lookup_filter.
  destruct (records s !! id) as [r|] eqn:E; simpl; [|done].
  destruct (decide (isActive (Phase r) = true)) as [Ha|Ha].
  - rewrite option_guard_True by done. simpl. intros [= <-].
    destruct (Hok id r E) as [H1 H2].
    destruct (advances_ok r _ (recoverRec_advances (now id) r)) as [? ?]; [by eapply Hroom|done|].
    split_and!; [done|done|]. by intros x [= <-].
  - rewrite option_guard_False by done. simpl. intros [= <-].
    destruct (Hok id r E) as [H1 H2]. split_and!; [done..|]. intros x [= <-]. apply continues_refl.
Qed.

Definition op_ok (o : op) : Prop :=
  match o with OAck _ _ rev _ => 0 ≤ rev | _ => True end.

Lemma run_moves io now epochs o s :
  store_ok s → room s → op_ok o → moves s (run io now epochs o s).
Proof.
  intros Hok Hroom Ho. destruct o; simpl in *.
  - by apply Update_moves.
  - by apply UpdateQueueLength_moves.
  - by apply Progress_moves.
  - by apply Ensure_moves.
  - by apply Recover_moves.
  - by apply RecoverAll_moves.
  - by apply Reconcile_moves.
  - by apply Wait_moves.
  - by apply Resolve_moves.
  - by apply RestoreStop_moves.
  - by apply Ack_moves.
  - apply calm_moves; [done|]. unfold Snapshot.
    destruct (ensureAll_calm epochs ids s Hok) as [C _]. by destruct (ensureAll epochs ids s).
  - apply calm_moves; [done|]. unfold SharedSnapshot.
    pose proof (ensureShared_calm io epochs ids paired s Hok) as C.
    by destruct (ensureSharedReadsLocked io epochs ids paired s) as [s1 [e|]].
  - eapply moves_records; [|by apply moves_refl]. unfold MarkSharedRead.
    destruct (records s !! id) as [r|]; [|done]. destruct (sharedReads s !! id) as [read|]; [|done].
    destruct (_ || _); [done|]. destruct (_ || _); [done|]. destruct (_ <=? _); [done|].
    destruct (_ || _); [done|]. pose proof (persist_records io r revision s) as E1.
    destruct (persistReadBoundaryLocked io r revision s) as [s1 [e|]]; cbn [fst] in *; [done|].
    match goal with |- context [writeSharedReadsLocked io ?m s1] =>
      pose proof (write_shared_records io m s1) as E2; destruct (writeSharedReadsLocked io m s1) as [s2 [e|]] end;
      cbn [fst] in *; cbn; congruence.
  - unfold SourceEpoch. destruct (str_empty id); [by apply moves_refl|].
    destruct (ensure_calm (epochs id) id s Hok) as [C _]. apply calm_moves; [done|].
    destruct (ensureLocked (epochs id) id s) as [r s1]. cbn [snd] in C.
    pose proof (persist_records io r (Revision r) s1) as E.
    destruct (persistReadBoundaryLocked io r (Revision r) s1) as [s2 [e|]]; cbn [fst] in *;
      intros j x Hx; apply C; by rewrite <- E.
  - unfold Remove. destruct (records s !! id) as [r|]; [|by apply moves_refl].
    eapply moves_records; [apply save_records|]. intros j x. cbn. intros [_ Hx]%lookup_delete_Some.
    by apply (moves_refl s Hok).
  - unfold Flush. destruct (dirty s); [|by apply moves_refl].
    eapply moves_records; [apply save_records|]. by apply moves_refl.
  - unfold flushTimerFires. cbn. destruct (dirty s); cbn;
      (eapply moves_records; [|by apply moves_refl]); [|done]. unfold writeLocked. by rewrite write_records.
Qed.

(** ** Theorems *)

(** the journal is a history.  Every operation of the store,
    whatever the disk does, keeps each session's ledger sorted by revision and
    not ahead of the session, keeps every device's read cursor behind its
    delivery cursor and both behind the revision, and continues each record it
    does not drop: revisions and cursors never go back, terminals are only
    appended (the oldest may be trimmed), and the session keeps its
    generation. *)
Theorem journal_history io now epochs o s :
  store_ok s → room s → op_ok o →
  let s' := run io now epochs o s in
  store_ok s' ∧
  ∀ id r r', records s !! id = Some r → records s' !! id = Some r' → continues r r'.
Proof.
  intros Hok Hroom Ho s'. pose proof (run_moves io now epochs o s Hok Hroom Ho) as H. split.
  - intros id r Hr. by destruct (H id r Hr) as (? & ? & _).
  - intros id r r' Hr Hr'. destruct (H id r' Hr') as (_ & _ & Hc). by apply Hc.
Qed.

(** *** Concrete journals *)
Definition emptyStore : Store := mkStore true None ∅ ∅ ∅ false false 0 None [] SFAbsent.
Definition tick : string → Z := λ _, 1700000000000.
Definition epoch0 : string → string := λ id, String.append "E-" id.
Definition runs (os : list op) : Store := fold_left (λ s o, run jio_ok tick epoch0 o s) os emptyStore.
Definition noOrder : Store → list (string * Rec) := λ _, [].

(** A turn queued, running and completed. *)
Definition demo_turn : list op :=
  [OUpdate noOrder "s1" "queued" "m1" 0 "" ""; OUpdate noOrder "s1" "running" "m1" 0 "" "";
   OProgress "s1" "m1" "thinking" "..."; OUpdate noOrder "s1" "completed" "" 0 "completed" ""].

Lemma empty_ok : store_ok emptyStore ∧ room emptyStore.
Proof. split; intros id r; unfold emptyStore; cbn; rewrite lookup_empty; done. Qed.

Lemma journal_history_witness :
  store_ok (runs [OUpdate noOrder "s1" "queued" "m1" 0 "" ""]) ∧
  is_Some (records (runs [OUpdate noOrder "s1" "queued" "m1" 0 "" ""]) !! "s1").
Proof.
  split; [|vm_compute; by eexists].
  apply (journal_history jio_ok tick epoch0 (OUpdate noOrder "s1" "queued" "m1" 0 "" "") emptyStore).
  - apply empty_ok.
  - apply empty_ok.
  - done.
Defined.

(** a device's acknowledgement concerns that device alone.
    The acknowledging device has been sent, and when it says so has read, up
    to the revision it names and never past the session's own; afterwards its
    unread count is that of the terminals beyond its cursor; every other
    device sees exactly the view it saw before. *)
Theorem ack_isolated io epoch dev id rev read s r :
  store_ok s → 0 ≤ rev → dev ≠ "" → id ≠ "" → records s !! id = Some r → fillRec r = r →
  let upto := if (rev =? 0) || (Revision r <? rev) then Revision r else rev in
  let '(s', (v, changed)) := Ack io epoch dev id rev read s in
  ∃ r', records s' !! id = Some r' ∧
    lookupZ (AckedByDevice r') dev = Z.max (lookupZ (AckedByDevice r) dev) upto ∧
    lookupZ (ReadByDevice r') dev =
      (if read then Z.max (lookupZ (ReadByDevice r) dev) upto else lookupZ (ReadByDevice r) dev) ∧
    vUnread v = unreadAfter (lookupZ (ReadByDevice r') dev) (Terminals r) ∧
    (vDeliveryPending v = true ↔ lookupZ (AckedByDevice r') dev < Revision r) ∧
    (∀ d, d ≠ dev → viewLocked r' d = viewLocked r d) ∧
    (∀ j, j ≠ id → records s' !! j = records s !! j).
Proof.
  intros Hok Hrev Hd Hi Hr Hfill upto. unfold Ack, str_empty.
  rewrite (bool_decide_eq_false_2 (dev = "")), (bool_decide_eq_false_2 (id = "")) by done. simpl orb. cbv iota.
  unfold ensureLocked. rewrite Hr. change (default (newRec epoch id) (Some r)) with r. rewrite Hfill.
  destruct (ackRec dev rev read r) as [r' changed] eqn:Ha.
  set (s1 := (s <| records := _ |>) <| records := _ |>).
  assert (∀ s2, records s2 = records s1 → records s2 !! id = Some r' ∧ ∀ j, j ≠ id → records s2 !! j = records s !! j) as Hrec.
  { intros s2 ->. unfold s1. cbn. split; [by rewrite lookup_insert_eq|].
    intros j Hj. by rewrite !lookup_insert_ne by done. }
  match goal with |- context [if changed then ?x else s1] => assert (records (if changed then x else s1) = records s1) as Hs end.
  { destruct changed; [|done]. unfold appendCursorLocked. repeat case_match; simplify_eq; try done.
    all: by rewrite save_records. }
  destruct (Hrec _ Hs) as [H1 H2]. exists r'. split; [done|].
  assert (AckedByDevice r' = (if lookupZ (AckedByDevice r) dev <? upto then <[dev := upto]> (AckedByDevice r)
                              else AckedByDevice r) ∧
          ReadByDevice r' = (if read && (lookupZ (ReadByDevice r) dev <? upto)
                             then <[dev := upto]> (ReadByDevice r) else ReadByDevice r) ∧
          (∃ a b, r' = r <| AckedByDevice := a |> <| ReadByDevice := b |>)) as (A1 & A2 & a & b & A3).
  { unfold ackRec in Ha. fold upto in Ha. destruct (lookupZ (AckedByDevice r) dev <? upto);
      cbn in Ha; destruct (read && _); simplify_eq; split_and!; try done;
      match goal with |- ∃ a b, ?x = _ => exists (AckedByDevice x), (ReadByDevice x) end;
      match goal with y : Rec |- _ => by destruct y end. }
  assert (lookupZ (AckedByDevice r') dev = Z.max (lookupZ (AckedByDevice r) dev) upto) as B1.
  { rewrite A1. destruct (Z.ltb_spec (lookupZ (AckedByDevice r) dev) upto);
      rewrite ?lookupZ_insert, ?decide_True by done; lia. }
  split_and!; [done| | | | |done].
  - rewrite A2. destruct read; simpl; [|done].
    destruct (Z.ltb_spec (lookupZ (ReadByDevice r) dev) upto);
      rewrite ?lookupZ_insert, ?decide_True by done; lia.
  - rewrite A3. done.
  - cbn [viewLocked vDeliveryPending]. unfold str_empty. rewrite (bool_decide_eq_false_2 (dev = "")) by done.
    simpl. rewrite Z.ltb_lt. by rewrite A3.
  - intros d Hne. unfold viewLocked.
    assert (lookupZ (AckedByDevice r') d = lookupZ (AckedByDevice r) d) as ->.
    { rewrite A1. destruct (lookupZ (AckedByDevice r) dev <? upto); [|done].
      by rewrite lookupZ_insert, decide_False by congruence. }
    assert (lookupZ (ReadByDevice r') d = lookupZ (ReadByDevice r) d) as ->.
    { rewrite A2. destruct (read && _); [|done]. by rewrite lookupZ_insert, decide_False by congruence. }
    by rewrite A3.
Qed.
