(* ===== verification/JournalProps.v ===== *)
(** * Theorems about the runtime journal

    Progress, recovery, questions, stops, the cap on sessions, restarts and
    shared reads, for the definitions of [RuntimeJournal]. *)

From stdpp Require Import pretty.
From S2P Require Import Prelude RuntimeJournal.

Lemma ensure_present epoch id s r :
  records s !! id = Some r → fillRec r = r →
  ensureLocked epoch id s = (r, s <| records := <[id := r]> (records s) |>).
Proof.
  intros Hr Hf. unfold ensureLocked. rewrite Hr. change (default (newRec epoch id) (Some r)) with r.
  by rewrite Hf.
Qed.

Lemma insert_present (m : gmap string Rec) id r : m !! id = Some r → <[id := r]> m = m.
Proof. apply insert_id. Qed.

(** progress belongs to the turn that is running.  A
    report changes only the stage: never the phase, the queue, the ledger or
    the request that occupies the session; the stage never goes back; and a
    report for another request, or of an earlier stage, changes nothing. *)
Theorem progress_in_turn now epoch id req stage msg s r :
  records s !! id = Some r → fillRec r = r →
  let '(s', (v, changed)) := Progress now epoch id req stage msg s in
  (changed = false → records s' = records s) ∧
  (changed = true → ∃ r', records s' !! id = Some r' ∧ Revision r' = u64_succ (Revision r) ∧
     Stage r' = stage ∧ stageRank (Stage r) ≤ stageRank stage ∧ Phase r' = Phase r ∧
     QueueLength r' = QueueLength r ∧ Terminals r' = Terminals r ∧
     (ActiveRequestID r ≠ "" → ActiveRequestID r' = ActiveRequestID r ∧ (req = "" ∨ req = ActiveRequestID r))) ∧
  (ActiveRequestID r ≠ "" → req ≠ "" → req ≠ ActiveRequestID r → changed = false) ∧
  (stageRank stage < stageRank (Stage r) → changed = false).
Proof.
  intros Hr Hf. unfold Progress.
  destruct (str_empty id || str_empty stage); [by split_and!|].
  rewrite (ensure_present epoch id s r Hr Hf). cbv zeta.
  assert (records (s <| records := <[id := r]> (records s) |>) = records s) as E by (cbn; by apply insert_present).
  set (s0 := s <| records := _ |>) in *. clearbody s0. unfold str_empty.
  destruct (decide (req = "" ∨ ActiveRequestID r = "" ∨ req = ActiveRequestID r)) as [Hsame|Hother].
  2: { rewrite (bool_decide_eq_false_2 (req = "")), (bool_decide_eq_false_2 (ActiveRequestID r = "")),
      (bool_decide_eq_false_2 (req = ActiveRequestID r)) by (intros ?; apply Hother; auto). cbn [negb andb]. by split_and!. }
  assert (negb (bool_decide (req = "")) && negb (bool_decide (ActiveRequestID r = "")) &&
          negb (bool_decide (req = ActiveRequestID r)) = false) as -> by
    (rewrite <- not_true_iff_false, !andb_true_iff, !negb_true_iff, !bool_decide_eq_false; tauto).
  assert (bool_decide (req = "") || bool_decide (ActiveRequestID r = "") || bool_decide (ActiveRequestID r = req)
          = true) as -> by
    (rewrite !orb_true_iff, !bool_decide_eq_true; destruct Hsame as [?|[?|?]]; auto).
  cbn [andb]. destruct (Z.ltb_spec (stageRank stage) (stageRank (Stage r))) as [Hs|Hs];
    [split_and!; try done; intros; lia|].
  match goal with |- context [if ?b then (s0, _) else _] => destruct b end;
    [split_and!; try done; intros; lia|].
  split_and!; [done| |intros; tauto|intros; lia]. intros _. eexists.
  split; [rewrite schedule_records; cbn; by rewrite lookup_insert_eq|].
  repeat match goal with |- context [if ?b then _ else _] => destruct b eqn:? end; cbn; bool_facts;
    split_and!; try done; intros; split; try congruence; try tauto;
    destruct Hsame as [?|[?|?]]; first [congruence|by auto].
Qed.

Lemma progress_in_turn_witness :
  let s := runs [OUpdate noOrder "s1" "running" "m1" 0 "" ""] in
  (Progress 5 "" "s1" "m1" "thinking" "" s).2.2 = true ∧
  (Progress 5 "" "s1" "m2" "thinking" "" s).2.2 = false.
Proof.
  split; [vm_compute; reflexivity|].
  destruct (records (runs [OUpdate noOrder "s1" "running" "m1" 0 "" ""]) !! "s1") as [r|] eqn:E;
    [|vm_compute in E; discriminate].
  assert (r = default (newRec "" "") (Some r)) as Hr by done. rewrite <- E in Hr. vm_compute in Hr.
  pose proof (progress_in_turn 5 "" "s1" "m2" "thinking" "" _ r E) as H.
  destruct (Progress _ _ _ _ _ _ _) as [s' [v c]]. subst r.
  destruct H as (_ & _ & H & _); [reflexivity|]. by apply H.
Defined.

(** ** Restarts *)
Lemma unread_snoc read ts t :
  unreadAfter read (ts ++ [t]) = unreadAfter read ts + (if completed t && (read <? tRevision t) then 1 else 0).
Proof. unfold unreadAfter. rewrite countb_app. simpl. destruct (_ && _); simpl; lia. Qed.

(** a restart never invents a result.  Recovery closes every
    session that was active as interrupted, naming the turn that was lost, and
    empties its queue; the number of unread results does not change for any
    device; sessions that were not active are left alone, and recovering again
    finds nothing to do. *)
Theorem recovery_honest io now s :
  let '(s', views) := RecoverAllStale io now s in
  (∀ id r, records s !! id = Some r → isActive (Phase r) = false →
     records s' !! id = Some r ∧ views !! id = None) ∧
  (∀ id r, records s !! id = Some r → isActive (Phase r) = true →
     ∃ r' t, records s' !! id = Some r' ∧ views !! id = Some (viewLocked r' "") ∧
       Phase r' = "interrupted" ∧ ActiveRequestID r' = "" ∧ QueueLength r' = 0 ∧
       Revision r' = u64_succ (Revision r) ∧ Terminals r' = Terminals r ++ [t] ∧
       tStatus t = "interrupted" ∧ tRequestID t = ActiveRequestID r ∧
       ∀ d, vUnread (viewLocked r' d) = vUnread (viewLocked r d)) ∧
  (∀ id, records s !! id = None → records s' !! id = None) ∧
  ∀ io' now', RecoverAllStale io' now' s' = (s', ∅).
Proof.
  unfold RecoverAllStale at 1. set (stale := filter _ (records s)).
  set (done_ := map_imap _ stale). set (s1 := s <| records := _ |>).
  set (s' := if decide (stale = ∅) then s1 else saveLocked io s1).
  assert (records s' = done_ ∪ records s) as Er by
    (unfold s'; case_decide; [done|by rewrite save_records]).
  assert (∀ id, done_ !! id = r ← records s !! id; if isActive (Phase r) then Some (recoverRec (now id) r) else None) as Ed.
  { intros id. unfold done_. rewrite map_lookup_imap. unfold stale. rewrite map_lookup_filter.
    destruct (records s !! id) as [r|]; simpl; [|done].
    destruct (isActive (Phase r)) eqn:Ea; [by rewrite option_guard_True|by rewrite option_guard_False]. }
  assert (∀ id r, records s' !! id = Some r → isActive (Phase r) = false) as Hidle.
  { intros id r. rewrite Er, lookup_union, Ed. destruct (records s !! id) as [x|]; simpl; [|done].
    destruct (isActive (Phase x)) eqn:Ea; simpl; intros [= <-]; [by vm_compute|done]. }
  split_and!.
  - intros id r Hr Ha. rewrite Er, lookup_union, lookup_fmap, Ed, Hr. simpl. by rewrite Ha.
  - intros id r Hr Ha. eexists (recoverRec (now id) r), _.
    rewrite Er, lookup_union, lookup_fmap, Ed, Hr. simpl. rewrite Ha. split_and!; try done.
    intros d. unfold recoverRec. cbn. rewrite unread_snoc. simpl. lia.
  - intros id Hr. rewrite Er, lookup_union, Ed, Hr. done.
  - intros io' now'. unfold RecoverAllStale.
    assert (filter (λ kr : string * Rec, isActive (Phase kr.2) = true) (records s') = ∅) as ->.
    { apply map_empty. intros id. rewrite map_lookup_filter. destruct (records s' !! id) as [r|] eqn:Hr; [|done].
      simpl. rewrite option_guard_False; [done|]. by rewrite (Hidle id r Hr). }
    rewrite map_imap_empty, fmap_empty, map_empty_union, decide_True by done. by destruct s'.
Qed.

(** late history evidence clears one thing only.  A session
    leaves "interrupted" exactly when the interruption is the one a restart
    wrote and the assistant answered after it; the ledger, the cursors and
    every other session stay as they were. *)
Theorem reconcile_narrow io now epoch id at_ observed s r :
  id ≠ "" → records s !! id = Some r → fillRec r = r →
  let '(s', (v, changed)) := ReconcileHistoryActivity io now epoch id at_ observed s in
  (changed = true ↔
     Phase r = "interrupted" ∧ LastTerminal r = "interrupted" ∧ LastError r = restartError ∧
     CompletedAt r ≠ 0 ∧ 0 < at_ ∧ CompletedAt r < at_) ∧
  (changed = false → records s' = records s) ∧
  ∃ r', records s' !! id = Some r' ∧ Terminals r' = Terminals r ∧
    AckedByDevice r' = AckedByDevice r ∧ ReadByDevice r' = ReadByDevice r ∧
    (changed = true → LastTerminal r' = "" ∧ LastError r' = "" ∧
       Phase r' = if isActive observed then observed else "idle") ∧
    ∀ j, j ≠ id → records s' !! j = records s !! j.
Proof.
  intros Hi Hr Hf. unfold ReconcileHistoryActivity, str_empty. rewrite (bool_decide_eq_false_2 (id = "")) by done.
  cbn [orb]. destruct (Z.leb_spec at_ 0) as [Ha|Ha].
  { split; [split; [done|lia]|]. split; [done|]. exists r. by split_and!. }
  rewrite (ensure_present epoch id s r Hr Hf). cbv zeta.
  assert (records (s <| records := <[id := r]> (records s) |>) = records s) as E by (cbn; by apply insert_present).
  set (s0 := s <| records := _ |>) in *. clearbody s0.
  match goal with |- context [if ?b then (s0, _) else _] => destruct b eqn:B end.
  - split; [split; [done|]|].
    + intros (H1 & H2 & H3 & H4 & _ & H6). exfalso.
      rewrite !bool_decide_eq_true_2 in B by done. apply Z.eqb_neq in H4. rewrite H4 in B. cbn in B. bool_facts. lia.
    + split; [done|]. exists r. by rewrite E.
  - bool_facts. split; [split; [done|done]|]. split; [done|]. eexists. rewrite save_records. cbn.
    split; [by rewrite lookup_insert_eq|]. split_and!; try done.
    intros j Hj. by rewrite lookup_insert_ne, E.
Qed.

(** The record of a session in a concrete journal. *)
Definition rec_of (s : Store) (id : string) : Rec := default (newRec "" id) (records s !! id).

Lemma rec_of_some s id : bool_decide (is_Some (records s !! id)) = true → records s !! id = Some (rec_of s id).
Proof. unfold rec_of. intros [x ->]%bool_decide_eq_true. done. Qed.

Definition demo_restart : list op := [OUpdate noOrder "s1" "running" "m1" 0 "" ""; ORecoverAll].

Lemma reconcile_narrow_witness :
  Phase (rec_of (runs demo_restart) "s1") = "interrupted" ∧
  (ReconcileHistoryActivity jio_ok 5 "" "s1" 1800000000000 "running" (runs demo_restart)).2.2 = true.
Proof.
  split; [vm_compute; reflexivity|].
  pose proof (reconcile_narrow jio_ok 5 "" "s1" 1800000000000 "running" (runs demo_restart)
    (rec_of (runs demo_restart) "s1")) as H.
  destruct (ReconcileHistoryActivity _ _ _ _ _ _ _) as [s' [v c]].
  destruct H as (H & _); [done|by apply rec_of_some; vm_compute|vm_compute; reflexivity|].
  apply H. vm_compute. split_and!; done.
Defined.

(** Concrete journals are good, when their revisions stay in range. *)
Fixpoint in_range (os : list op) (s : Store) : bool :=
  match os with
  | [] => true
  | o :: os => bool_decide (map_Forall (λ _ r, Revision r < u64_max) (records s))
               && in_range os (run jio_ok tick epoch0 o s)
  end.

Lemma runs_from_ok os s :
  Forall op_ok os → in_range os s = true → store_ok s → store_ok (fold_left (λ s o, run jio_ok tick epoch0 o s) os s).
Proof.
  revert s. induction os as [|o os IH]; intros s Hos Hr Hok; simpl; [done|].
  simpl in Hr. bool_facts. apply Forall_cons in Hos as [Ho Hos]. apply IH; [done|done|].
  intros id r Hx. destruct (run_moves jio_ok tick epoch0 o s) with (id := id) (r' := r) as (? & ? & _); try done.
Qed.

Lemma runs_ok os : Forall op_ok os → in_range os emptyStore = true → store_ok (runs os).
Proof. intros H1 H2. apply runs_from_ok; [done|done|]. apply empty_ok. Qed.

Lemma ack_isolated_witness :
  lookupZ (AckedByDevice (rec_of (Ack jio_ok "" "phone" "s1" 0 true (runs demo_turn)).1 "s1")) "phone" = 4.
Proof.
  pose proof (ack_isolated jio_ok "" "phone" "s1" 0 true (runs demo_turn) (rec_of (runs demo_turn) "s1")) as H.
  assert (store_ok (runs demo_turn)) as Hok.
  { apply runs_ok; [repeat constructor|vm_compute; reflexivity]. }
  destruct (Ack _ _ _ _ _ _ _) as [s' [v c]].
  destruct H as (r' & E & H & _); [done..|by apply rec_of_some; vm_compute|vm_compute; reflexivity|].
  unfold rec_of at 1. cbn [fst]. rewrite E. simpl. rewrite H. vm_compute. reflexivity.
Defined.

(** ** Questions *)

(** an answer resumes only the turn that asked.
    A session resumes exactly when it waits and the answered question was the
    last one open and was asked by the request that still occupies the
    session; any other answer changes neither phase nor revision, and closes
    at most its own question. *)
Theorem question_resumes_its_turn io now id q s r :
  records s !! id = Some r →
  let '(s', (v, changed)) := ResolveInteraction io now id q s in
  (changed = true ↔ q ≠ "" ∧ Phase r = "waiting" ∧ WaitingInteractions r = {[q := ActiveRequestID r]}) ∧
  ∃ r', records s' !! id = Some r' ∧ ActiveRequestID r' = ActiveRequestID r ∧ Terminals r' = Terminals r ∧
    QueueLength r' = QueueLength r ∧
    (changed = true → Phase r' = "running" ∧ WaitingInteractions r' = ∅ ∧ Revision r' = u64_succ (Revision r)) ∧
    (changed = false → Phase r' = Phase r ∧ Revision r' = Revision r ∧
       (WaitingInteractions r' = WaitingInteractions r ∨
        WaitingInteractions r' = delete q (WaitingInteractions r))) ∧
    ∀ j, j ≠ id → records s' !! j = records s !! j.
Proof.
  intros Hr. unfold ResolveInteraction, str_empty. rewrite Hr.
  destruct (bool_decide_reflect (q = "")) as [Hq|Hq]; cbn [orb].
  { split; [split; [done|tauto]|]. exists r. split_and!; try done; auto. }
  destruct (bool_decide_reflect (Phase r = "waiting")) as [Hp|Hp]; cbn [negb].
  2: { split; [split; [done|tauto]|]. exists r. split_and!; try done; auto. }
  destruct (bool_decide_reflect (WaitingInteractions r !! q = Some (ActiveRequestID r))) as [Hw|Hw]; cbn [negb].
  2: { split; [split; [done|]|]; [|exists r; split_and!; try done; auto].
       intros (_ & _ & E). exfalso. apply Hw. by rewrite E, lookup_singleton_eq. }
  match goal with |- context [bool_decide (?x = ∅)] => change x with (delete q (WaitingInteractions r)) end.
  destruct (bool_decide_reflect (delete q (WaitingInteractions r) = ∅)) as [He|He]; cbn [negb].
  - split; [split; [|done]|].
    + intros _. split_and!; try done. rewrite <- (insert_delete_id _ _ _ Hw), He. done.
    + eexists. rewrite save_records. cbn. split; [by rewrite lookup_insert_eq|]. split_and!; try done.
      intros j Hj. by rewrite lookup_insert_ne.
  - split; [split; [done|]|].
    + intros (_ & _ & E). exfalso. apply He. rewrite E. by rewrite delete_singleton_eq.
    + eexists. rewrite save_records. cbn. split; [by rewrite lookup_insert_eq|]. split_and!; try done; auto.
      intros j Hj. by rewrite lookup_insert_ne.
Qed.

Definition demo_question : list op := [OUpdate noOrder "s1" "running" "m1" 0 "" ""; OWait "s1" "q1"].

Lemma question_resumes_its_turn_witness :
  (ResolveInteraction jio_ok 5 "s1" "q1" (runs demo_question)).2.2 = true ∧
  (ResolveInteraction jio_ok 5 "s1" "q2" (runs demo_question)).2.2 = false.
Proof.
  split; [|vm_compute; reflexivity].
  pose proof (question_resumes_its_turn jio_ok 5 "s1" "q1" (runs demo_question)
    (rec_of (runs demo_question) "s1")) as H.
  destruct (ResolveInteraction _ _ _ _ _) as [s' [v c]].
  destruct H as (H & _); [by apply rec_of_some; vm_compute|]. apply H. vm_compute. split_and!; done.
Defined.

(** a stop that is not confirmed gives nothing away.  The
    phase is restored exactly when this request is the one being stopped, to
    an active phase, keeping the request, the queue and the ledger: the
    session stays locked; otherwise nothing changes. *)
Theorem stop_keeps_lock io now id req prev s r :
  records s !! id = Some r →
  let '(s', (v, changed)) := RestoreUnconfirmedStop io now id req prev s in
  (changed = true ↔ Phase r = "stopping" ∧ ActiveRequestID r = req) ∧
  (changed = false → s' = s) ∧
  (changed = true → ∃ r', records s' !! id = Some r' ∧ isActive (Phase r') = true ∧ Phase r' ≠ "stopping" ∧
     (prev ∈ ["queued"; "running"; "waiting"] → Phase r' = prev) ∧
     ActiveRequestID r' = req ∧ ActiveStartedAt r' = ActiveStartedAt r ∧ QueueLength r' = QueueLength r ∧
     Terminals r' = Terminals r ∧ WaitingInteractions r' = WaitingInteractions r).
Proof.
  intros Hr. unfold RestoreUnconfirmedStop. rewrite Hr.
  destruct (bool_decide_reflect (Phase r = "stopping")) as [Hp|Hp]; cbn [negb orb].
  2: { split_and!; [split; [done|tauto]|done|done]. }
  destruct (bool_decide_reflect (ActiveRequestID r = req)) as [Ha|Ha]; cbn [negb].
  2: { split_and!; [split; [done|tauto]|done|done]. }
  split_and!; [done|done|]. intros _. eexists. rewrite save_records. cbn.
  split; [by rewrite lookup_insert_eq|]. cbn. unfold isQueuedOrRunning.
  destruct (bool_decide_reflect (prev = "queued")) as [->|]; [by split_and!|].
  destruct (bool_decide_reflect (prev = "running")) as [->|]; [by split_and!|].
  destruct (bool_decide_reflect (prev = "waiting")) as [->|]; [by split_and!|].
  split_and!; try done. intros H. exfalso. rewrite !elem_of_cons, elem_of_nil in H. tauto.
Qed.

Definition demo_stop : list op :=
  [OUpdate noOrder "s1" "running" "m1" 2 "" ""; OUpdate noOrder "s1" "stopping" "m1" 2 "" ""].

Lemma stop_keeps_lock_witness :
  (RestoreUnconfirmedStop jio_ok 5 "s1" "m1" "running" (runs demo_stop)).2.2 = true ∧
  QueueLength (rec_of (RestoreUnconfirmedStop jio_ok 5 "s1" "m1" "running" (runs demo_stop)).1 "s1") = 2.
Proof.
  pose proof (stop_keeps_lock jio_ok 5 "s1" "m1" "running" (runs demo_stop) (rec_of (runs demo_stop) "s1")) as H.
  destruct (RestoreUnconfirmedStop _ _ _ _ _ _) as [s' [v c]].
  destruct H as (H1 & _ & H2); [by apply rec_of_some; vm_compute|].
  assert (c = true) as -> by (apply H1; vm_compute; split; done). split; [done|]. cbn [fst].
  destruct (H2 eq_refl) as (r' & E & _ & _ & _ & _ & _ & Hq & _). unfold rec_of at 1. rewrite E. simpl.
  rewrite Hq. vm_compute. reflexivity.
Defined.

(** ** The cap on sessions *)
#[local] Instance older_trans : Transitive older.
Proof. intros [] [] []. unfold older. simpl. lia. Qed.
#[local] Instance older_total : Total older.
Proof. intros [] []. unfold older. simpl. lia. Qed.

Lemma delete_firsts (l : list (string * Rec)) n :
  NoDup l.*1 →
  fold_left (λ m kr, delete kr.1 m) (take n l) (list_to_map l : gmap string Rec) = list_to_map (drop n l).
Proof.
  revert n. induction l as [|[k r] l IH]; intros n; [by destruct n|].
  destruct n as [|n]; [done|]. intros [Hk Hl]%NoDup_cons. cbn. rewrite delete_insert_id; [by apply IH|].
  by apply not_elem_of_list_to_map_1.
Qed.

(** What the cap leaves: the most recently updated records. *)
Lemma cap_spec order s :
  store_ok s → order ≡ₚ map_to_list (records s) → (maxSessions < size (records s))%nat →
  ∃ out kept, records (enforceCapLocked order s) = list_to_map kept ∧ records s = list_to_map (out ++ kept) ∧
    NoDup (out ++ kept).*1 ∧ length kept = maxSessions ∧ ∀ x y, x ∈ out → y ∈ kept → older x y.
Proof.
  intros Hok Hp Hs. unfold enforceCapLocked, evicted.
  rewrite (proj2 (Nat.leb_gt _ _)) by done. cbn [records].
  set (l := merge_sort older order). set (n := (length order - maxSessions)%nat).
  assert (l ≡ₚ map_to_list (records s)) as Hl by (by rewrite <- Hp; apply merge_sort_Permutation).
  assert (length order = size (records s)) as Hlen by (rewrite Hp; apply length_map_to_list).
  assert (length l = size (records s)) as Hlen' by (rewrite Hl; apply length_map_to_list).
  assert (NoDup l.*1) as Hnd by (rewrite Hl; apply NoDup_fst_map_to_list).
  assert (records s = list_to_map l) as Hm.
  { rewrite <- (list_to_map_to_list (records s)). apply list_to_map_proper; [|by symmetry].
    apply NoDup_fst_map_to_list. }
  exists (take n l), (drop n l). rewrite take_drop. split_and!; [|done|done| |].
  - rewrite <- (delete_firsts l n Hnd), <- Hm. cbn.
    assert (∀ kr, kr ∈ take n l → SessionID kr.2 = kr.1) as Hids.
    { intros [k r] Hin. simpl. apply (Hok k r).
      apply elem_of_map_to_list. rewrite <- Hl. rewrite <- (take_drop n l). apply elem_of_app. by left. }
    revert Hids. generalize (take n l) (records s). clear. induction l as [|kr l IH]; intros m H; [done|].
    simpl. rewrite H by (by left). apply IH. intros x Hx. apply H. by right.
  - rewrite length_drop. unfold n. lia.
  - intros x y. apply (StronglySorted_app_1_elem_of older). rewrite take_drop.
    apply (StronglySorted_merge_sort older).
Qed.

(** the journal is bounded and forgets the right sessions.
    After an update that changes anything there are at most [maxSessions]
    records; every session dropped was updated no later than every session
    kept; and a session updated after all others is among the kept. *)
Theorem cap_keeps_newest io now epoch order id phase req q term err s :
  store_ok s → room s → (∀ x, order x ≡ₚ map_to_list (records x)) →
  let '(s', (v, changed)) := Update io now epoch order id phase req q term err s in
  changed = true →
  (size (records s') ≤ maxSessions)%nat ∧
  (∀ j x k r, j ≠ id → records s !! j = Some x → records s' !! j = None →
     records s' !! k = Some r → UpdatedAt x ≤ UpdatedAt r) ∧
  ((∀ j x, j ≠ id → records s !! j = Some x → UpdatedAt x < now) →
     ∃ r, records s' !! id = Some r ∧ UpdatedAt r = now).
Proof.
  intros Hok Hroom Hord. unfold Update. destruct (str_empty id); [done|].
  pose proof (ensure_spec epoch id s Hok) as H. pose proof (λ s1, moves_step epoch id s s1 Hok Hroom) as Hm.
  destruct (ensureLocked epoch id s) as [r s0].
  destruct H as (H1 & H2 & H3 & _). cbv zeta. set (phase' := if str_empty phase then Phase r else phase).
  set (q' := if q <? 0 then 0 else q). destruct (_ && _ && _ && _ && _); [done|]. intros _.
  set (r' := updateRec now phase' req q' term err r).
  set (s1 := s0 <| records := _ |>). rewrite save_records.
  assert (records s1 = <[id := r']> (records s)) as E1 by (unfold s1; cbn; by rewrite H1, insert_insert_eq).
  assert (UpdatedAt r' = now) as Hnow by (unfold r', updateRec; repeat case_match; done).
  assert (store_ok s1) as Hok1.
  { intros k x Hx. destruct (Hm s1) with (id := k) (r' := x) as (? & ? & _); [|done|done].
    right. exists r'. split; [done|]. left. apply updateRec_advances. }
  destruct (le_lt_dec (size (records s1)) maxSessions) as [Hle|Hgt].
  - unfold enforceCapLocked. rewrite (proj2 (Nat.leb_le _ _)) by done. split_and!; [done| |].
    + intros j x k y Hj Hx Hn. exfalso. rewrite E1, lookup_insert_ne in Hn by done. congruence.
    + intros _. exists r'. by rewrite E1, lookup_insert_eq.
  - destruct (cap_spec (order s1) s1 Hok1 (Hord s1) Hgt) as (out & kept & -> & Es & Hnd & Hlen & Hold).
    rewrite fmap_app in Hnd. apply NoDup_app in Hnd as (Hnd1 & Hdis & Hnd2). split_and!.
    + rewrite map_size_list_to_map by done. lia.
    + intros j x k y Hj Hx Hn Hy. apply (Hold (j, x) (k, y)); [|by apply elem_of_list_to_map_2].
      assert (records s1 !! j = Some x) as Hx1 by (by rewrite E1, lookup_insert_ne by done).
      rewrite Es in Hx1. apply elem_of_list_to_map_2, elem_of_app in Hx1 as [?|Hx1]; [done|].
      apply elem_of_list_to_map_1 in Hx1; [congruence|done].
    + intros Hnew. exists r'. split; [|done]. apply elem_of_list_to_map_1; [done|].
      assert (records s1 !! id = Some r') as Hid by (by rewrite E1, lookup_insert_eq).
      rewrite Es in Hid. apply elem_of_list_to_map_2, elem_of_app in Hid as [Hin|?]; [exfalso|done].
      destruct kept as [|[k y] kept]; [done|].
      pose proof (Hold (id, r') (k, y) Hin ltac:(by left)) as Ho. unfold older in Ho. simpl in Ho.
      assert (k ≠ id) as Hk.
      { intros ->. apply (Hdis id); [apply list_elem_of_fmap; by exists (id, r')|simpl; by left]. }
      assert (records s1 !! k = Some y) as Hy.
      { rewrite Es. apply elem_of_list_to_map_1; [rewrite fmap_app; by apply NoDup_app|].
        apply elem_of_app. right. by left. }
      rewrite E1, lookup_insert_ne in Hy by done. specialize (Hnew k y Hk Hy). lia.
Qed.

(** A journal of [n] idle sessions, updated one after the other. *)
Definition crowd_rec (i : nat) : Rec := (newRec "" (pretty i)) <| UpdatedAt := Z.of_nat i |>.
Definition crowd (n : nat) : Store :=
  emptyStore <| records := list_to_map ((λ i, (pretty i, crowd_rec i)) <$> seq 0 n) |>.

Lemma crowd_spec n id r :
  records (crowd n) !! id = Some r → ∃ i : nat, id = pretty i ∧ r = crowd_rec i ∧ (i < n)%nat.
Proof.
  intros H%elem_of_list_to_map_2. apply list_elem_of_fmap in H as (i & [= -> ->] & Hi%elem_of_seq).
  exists i. split_and!; [done|done|lia].
Qed.

Lemma crowd_ok n : store_ok (crowd n) ∧ room (crowd n).
Proof.
  split; intros id r (i & -> & -> & _)%crowd_spec; [|done]. split; [|done].
  split; cbn; try done; [constructor|by intros t ?%elem_of_nil].
Qed.

Lemma cap_keeps_newest_witness :
  let s' := (Update jio_ok 9999 "" (λ s, map_to_list (records s)) "new" "running" "m1" 0 "" "" (crowd 2000)).1 in
  (size (records s') ≤ maxSessions)%nat ∧ ∃ r, records s' !! "new" = Some r.
Proof.
  cbv zeta. pose proof (cap_keeps_newest jio_ok 9999 "" (λ s, map_to_list (records s)) "new" "running" "m1" 0 "" ""
    (crowd 2000) (proj1 (crowd_ok _)) (proj2 (crowd_ok _)) (λ _, Permutation_refl _)) as H.
  assert ((Update jio_ok 9999 "" (λ s, map_to_list (records s)) "new" "running" "m1" 0 "" "" (crowd 2000)).2.2 = true)
    as Hc by (vm_compute; reflexivity).
  destruct (Update _ _ _ _ _ _ _ _ _ _ _) as [s' [v c]]. cbn [fst snd] in *. destruct (H Hc) as (H1 & _ & H2).
  split; [done|]. destruct H2 as (r & -> & _); [|by eexists].
  intros j x _ (i & -> & -> & Hi)%crowd_spec. cbn. lia.
Defined.

(** ** Shared reads across a restart *)

(** The map of persisted records tells the truth: a session it lists in its
    current generation is in the snapshot file, in that generation and at that
    revision or a later one. *)
Definition persisted_true (s : Store) : Prop :=
  ∀ id r p, records s !! id = Some r → persistedRecords s !! id = Some p → peEpoch p = ReadEpoch r →
    peRevision p ≤ Revision r ∧
    ∃ m r0, snapFile s = Some m ∧ m !! id = Some r0 ∧ ReadEpoch r0 = ReadEpoch r ∧ peRevision p ≤ Revision r0.

Lemma write_true io d s : persisted_true s → persisted_true (writeRuntimeSnapshotLocked io d s).1.
Proof.
  intros Hs. unfold writeRuntimeSnapshotLocked. destruct (negb _); [done|].
  destruct (ioSnap io) as [|e|e]; [|done|destruct d; [|done]]; intros id r p.
  - assert (∀ x, (if ioStat io then x <| cursorFile := [] |> else x) = x <| cursorFile := if ioStat io then [] else cursorFile x |>) as ->
      by (intros []; by destruct (ioStat io)).
    cbn. intros Hr Hp _. rewrite lookup_fmap, Hr in Hp. injection Hp as <-. cbn. split; [lia|].
    exists (records s), r. split_and!; [done..|lia].
  - cbn. intros Hr Hp He. destruct (Hs id r p Hr Hp He) as [Hle _]. split; [done|]. exists (records s), r. by split_and!.
Qed.

(** After a boundary is persisted, the file has it. *)
Lemma persist_boundary io r rev s s' :
  persisted_true s → persistent s = true → records s !! SessionID r = Some r → rev ≤ Revision r →
  persistReadBoundaryLocked io r rev s = (s', None) → ReadEpoch r ≠ "" →
  records s' = records s ∧ sharedReads s' = sharedReads s ∧ persisted_true s' ∧ persistent s' = true ∧
  (snapFile s' = snapFile s ∨ snapFile s' = Some (records s)) ∧
  ∃ m r0, snapFile s' = Some m ∧ m !! SessionID r = Some r0 ∧ ReadEpoch r0 = ReadEpoch r ∧ rev ≤ Revision r0.
Proof.
  intros Ht Hp Hr Hle H He. unfold persistReadBoundaryLocked in H. rewrite Hp in H. cbn [negb] in H. cbv zeta in H.
  match type of H with (if ?b then _ else _) = _ => destruct b eqn:Hb end.
  - bool_facts. destruct (persistedRecords s !! SessionID r) as [p|] eqn:Ep; simpl in *; [|congruence].
    destruct (Ht _ r p Hr Ep) as (_ & m & r0 & Hm & Hm0 & E0 & Hrev); [done|].
    assert (∃ b, s' = s <| persistedRecords := (λ p, mkPersisted (peRevision p) (peEpoch p) (b p)) <$> persistedRecords s |>) as [b ->].
    { destruct (peDurable p); [|destruct (ioSync io); [done|]]; injection H as <-.
      - exists peDurable. rewrite (map_fmap_ext _ id _), map_fmap_id; [by destruct s|]. by intros ? [] _.
      - by exists (λ _, true). }
    split_and!; try done; [|by left|exists m, r0; split_and!; [done..|lia]].
    intros j x q. cbn. rewrite lookup_fmap. intros Hx Hq Hj.
    destruct (persistedRecords s !! j) as [p'|] eqn:Ep'; [|done]. simpl in Hq. injection Hq as <-. cbn in *. by apply Ht.
  - pose proof (write_true io true s Ht) as Hw. rewrite H in Hw. cbn [fst] in Hw.
    unfold writeRuntimeSnapshotLocked in H. rewrite Hp in H. cbn [negb] in H.
    destruct (ioSnap io); [|done|done]. injection H as <-.
    destruct (ioStat io); cbn in *; (split_and!; try done; [by right|exists (records s), r; by split_and!]).
Qed.

Lemma fillRec_boundary r : ReadEpoch (fillRec r) = ReadEpoch r ∧ Revision (fillRec r) = Revision r.
Proof. destruct (fillRec_same r) as (_ & ? & ? & _). done. Qed.

Lemma loadCursor_boundary m e id r :
  m !! id = Some r →
  ∃ r', loadCursor m e !! id = Some r' ∧ ReadEpoch r' = ReadEpoch r ∧ Revision r' = Revision r.
Proof.
  intros Hr. unfold loadCursor. destruct (_ || _); [by exists r|].
  destruct (m !! cuSessionID e) as [x|] eqn:Ex; [|by exists r]. cbv zeta.
  destruct (decide (cuSessionID e = id)) as [Hid|Hid]; [|by rewrite lookup_insert_ne; eauto].
  rewrite Hid, lookup_insert_eq. rewrite Hid, Hr in Ex. injection Ex as <-.
  destruct (fillRec_boundary r) as [E1 E2]. eexists. split; [done|].
  repeat match goal with |- context [if ?b then _ else _] => destruct b end; done.
Qed.

Lemma loadCursors_boundary es m id r :
  m !! id = Some r →
  ∃ r', fold_left loadCursor es m !! id = Some r' ∧ ReadEpoch r' = ReadEpoch r ∧ Revision r' = Revision r.
Proof.
  revert m r. induction es as [|e es IH]; intros m r Hr; simpl; [by exists r|].
  destruct (loadCursor_boundary m e id r Hr) as (r1 & H1 & <- & <-). by apply IH.
Qed.

Lemma loadCursors_size es m : size (fold_left loadCursor es m) = size m.
Proof.
  revert m. induction es as [|e es IH]; intros m; simpl; [done|]. rewrite IH. unfold loadCursor.
  destruct (_ || _); [done|]. destruct (m !! cuSessionID e) as [x|] eqn:Ex; [|done]. cbv zeta.
  rewrite map_size_insert, Ex. done.
Qed.

Lemma load_lookup order s m id r :
  snapFile s = Some m → (size m ≤ maxSessions)%nat → m !! id = Some r →
  ∃ r', records (load order s) !! id = Some r' ∧ ReadEpoch r' = ReadEpoch r ∧ Revision r' = Revision r.
Proof.
  intros Hm Hs Hr. unfold load. rewrite Hm. simpl default. unfold enforceCapLocked. cbn.
  rewrite loadCursors_size, map_size_fmap, (proj2 (Nat.leb_le _ _)) by done. cbn.
  destruct (fillRec_boundary r) as [<- <-]. apply loadCursors_boundary. by rewrite lookup_fmap, Hr.
Qed.

Lemma loadShared_other epochs l s id :
  id ∉ l.*1 → records (fold_left (loadSharedRead epochs) l s) !! id = records s !! id ∧
    sharedReads (fold_left (loadSharedRead epochs) l s) !! id = sharedReads s !! id.
Proof.
  revert s. induction l as [|[k read] l IH]; intros s; [done|]. cbn [fold_left].
  intros [Hk Hl]%not_elem_of_cons. cbn in Hk. destruct (IH (loadSharedRead epochs s (k, read)) Hl) as [-> ->].
  unfold loadSharedRead. repeat case_match; cbn; rewrite ?lookup_insert_ne by congruence; done.
Qed.

Lemma loadShared_err epochs l s : sharedReadLoadErr (fold_left (loadSharedRead epochs) l s) = sharedReadLoadErr s.
Proof.
  revert s. induction l as [|[k read] l IH]; intros s; [done|]. cbn [fold_left]. rewrite IH.
  unfold loadSharedRead. by repeat case_match.
Qed.

(** The entry of a session present in its generation is loaded. *)
Lemma loadShared_lookup epochs m s id r read :
  m !! id = Some read → records s !! id = Some r → ReadEpoch r ≠ "" → shEpoch read = ReadEpoch r →
  shRevision read ≤ Revision r →
  let s' := fold_left (loadSharedRead epochs) (map_to_list m) s in
  records s' !! id = Some r ∧ sharedReads s' !! id = Some read.
Proof.
  intros Hm Hr He Hep Hle. apply elem_of_map_to_list, list_elem_of_split in Hm as (l1 & l2 & El).
  pose proof (NoDup_fst_map_to_list m) as Hnd. rewrite El in Hnd |- *. rewrite fmap_app in Hnd. cbn in Hnd.
  apply NoDup_app in Hnd as (_ & Hd & [Hn2 _]%NoDup_cons). cbv zeta. rewrite fold_left_app. cbn [fold_left].
  assert (id ∉ l1.*1) as Hn1 by (intros H; apply (Hd id H); by left).
  destruct (loadShared_other epochs l1 s id Hn1) as [E1 E2]. set (s1 := fold_left _ l1 s) in *.
  match goal with |- context [fold_left _ l2 ?x] => destruct (loadShared_other epochs l2 x id Hn2) as [-> ->] end.
  unfold loadSharedRead. rewrite E1, Hr. unfold str_empty. rewrite bool_decide_eq_false_2, bool_decide_eq_true_2 by done.
  rewrite (proj2 (Z.ltb_ge _ _)) by done. cbn. by rewrite lookup_insert_eq, E1, Hr.
Qed.

(** a shared read that was acknowledged is never lost.
    When [MarkSharedRead] reports success, a process that starts from the files
    as they are at that moment knows the session in the same generation, at a
    revision not before the read, and has that read position: the lifecycle
    boundary reaches the disk before the read that depends on it. *)
Theorem shared_read_survives digest io id epoch rev token s epochs order :
  store_ok s → persisted_true s → persistent s = true →
  (size (default ∅ (snapFile s)) ≤ maxSessions)%nat → (size (records s) ≤ maxSessions)%nat →
  let '(s', (st, changed, err)) := MarkSharedRead digest io id epoch rev token s in
  changed = true → err = None →
  let s2 := New epochs order (snapFile s') (cursorFile s') (sharedDisk s') in
  ∃ r read, records s2 !! id = Some r ∧ sharedReads s2 !! id = Some read ∧ ReadEpoch r = epoch ∧
    shEpoch read = epoch ∧ shRevision read = rev ∧ ssReadRevision st = rev ∧ rev ≤ Revision r ∧
    SharedReadsAvailable s2 = true.
Proof.
  intros Hok Ht Hp Hc1 Hc2. unfold MarkSharedRead.
  destruct (records s !! id) as [r|] eqn:Er; [|done]. destruct (sharedReads s !! id) as [read|] eqn:Ers; [|done].
  destruct (_ || _) eqn:Hb; [done|]. bool_facts. destruct (_ || _) eqn:Hb2; [done|]. bool_facts.
  destruct (_ <=? _); [done|]. destruct (_ || _); [done|].
  destruct (persistReadBoundaryLocked io r rev s) as [s1 [e|]] eqn:Hpb; [done|].
  destruct (Hok id r Er) as [_ Hid].
  destruct (persist_boundary io r rev s s1 Ht Hp) as (E1 & E2 & _ & Hp1 & Hsnap & m & r0 & Hm & Hm0 & Ee & Hrev);
    [by rewrite Hid|lia|done|congruence|].
  rewrite Hid in Hm0. set (read' := read <| shRevision := rev |> <| shVersion := _ |>).
  set (candidate := <[id := read']> (copySharedReadsLocked s1)).
  unfold writeSharedReadsLocked. rewrite Hp1. cbn [negb].
  destruct (ioShared io); [|done|done]. intros _ _. unfold New.
  match goal with |- context [mkStore _ _ _ _ _ _ _ _ ?a ?b ?c] =>
    change a with (snapFile s1); change b with (cursorFile s1); change c with (SFData candidate) end.
  assert (size m ≤ maxSessions)%nat as Hsz.
  { destruct Hsnap as [E|E]; [by rewrite E in Hm; rewrite Hm in Hc1|]. rewrite Hm in E. by injection E as ->. }
  rewrite Hm.
  set (s2 := mkStore true None ∅ ∅ ∅ false false 0 (Some m) (cursorFile s1) (SFData candidate)).
  destruct (load_lookup order s2 m id r0 eq_refl Hsz Hm0) as (r2 & Hl2 & He2 & Hr2).
  unfold loadSharedReads.
  assert (sharedDisk (load order s2) = SFData candidate ∧ sharedReadLoadErr (load order s2) = None) as [-> Herr].
  { unfold load, enforceCapLocked. by case_match. }
  destruct (loadShared_lookup epochs candidate (load order s2) id r2 read') as [Hl3 Hl4]; try done.
  - apply lookup_insert_eq.
  - congruence.
  - cbn. congruence.
  - cbn. lia.
  - exists r2, read'. split_and!; try done; try congruence; try lia; try (cbn; congruence).
    unfold SharedReadsAvailable. by rewrite loadShared_err, Herr.
Qed.

(** A session read on the phone at its last revision. *)
Definition demo_digest : string → Z → Z → string → string → Z → string := λ _ _ _ _ _ _, "token".
Definition demo_shared : Store := runs (demo_turn ++ [OSharedSnapshot "phone" ["s1"] ["phone"]]).

Lemma shared_read_survives_witness :
  let s' := (MarkSharedRead demo_digest jio_ok "s1" "E-s1" 4 "token" demo_shared).1 in
  ∃ read, sharedReads (New epoch0 [] (snapFile s') (cursorFile s') (sharedDisk s')) !! "s1" = Some read ∧
    shRevision read = 4.
Proof.
  assert (store_ok demo_shared) as Hok by (apply runs_ok; [repeat constructor|vm_compute; reflexivity]).
  assert (persisted_true demo_shared) as Ht.
  { assert (records demo_shared = {["s1" := rec_of demo_shared "s1"]}) as E by (vm_compute; reflexivity).
    intros id r p Hr Hp _. rewrite E in Hr. apply lookup_singleton_Some in Hr as [<- <-].
    vm_compute in Hp. injection Hp as <-. split; [vm_compute; done|].
    exists (records demo_shared), (rec_of demo_shared "s1"). split_and!; vm_compute; done. }
  pose proof (shared_read_survives demo_digest jio_ok "s1" "E-s1" 4 "token" demo_shared epoch0 [] Hok Ht) as H.
  destruct (MarkSharedRead _ _ _ _ _ _ _) as [s' [[st c] e]] eqn:E. cbn [fst].
  assert (c = true ∧ e = None) as [-> ->].
  { change (c = true ∧ e = None) with ((s', (st, c, e)).2.1.2 = true ∧ (s', (st, c, e)).2.2 = None).
    rewrite <- E. vm_compute. split; reflexivity. }
  destruct H as (r & read & _ & H1 & _ & _ & H2 & _); [by vm_compute|vm_compute; lia|vm_compute; lia|done|done|].
  exists read. split; [exact H1|exact H2].
Defined.

(** ** The journal across a restart *)

(** What the lifecycle file and the cursor log say together. *)
Definition replay (s : Store) : gmap string Rec :=
  fold_left loadCursor (cursorFile s) (fillRec <$> default ∅ (snapFile s)).

Definition on_disk (s : Store) : Prop :=
  ∀ id r, records s !! id = Some r → Revision r = 0 ∨ replay s !! id = Some (fillRec r).

(** Every session has a generation, the file knows no session that memory has
    forgotten, and what is not waiting for a flush is on disk. *)
Record clean (s : Store) : Prop := {
  cl_persistent : persistent s = true;
  cl_named : ∀ id r, records s !! id = Some r → ReadEpoch r ≠ "";
  cl_dom : dom (default ∅ (snapFile s)) ⊆ dom (records s);
  cl_disk : dirty s = false → on_disk s }.

Definition disk_works (io : jio) : Prop := ioSnap io = WOk ∧ ioStat io = true.

Lemma fillRec_named r :
  str_empty (Stage r) = false → fillRec (fillRec r) = fillRec r ∧ str_empty (Stage (fillRec r)) = false.
Proof.
  intros H1. assert (fillRec r = if (ActiveStartedAt r =? 0) && isActive (Phase r)
    then r <| ActiveStartedAt := if StageStartedAt r =? 0 then UpdatedAt r else StageStartedAt r |> else r) as E
    by (unfold fillRec; by rewrite H1).
  rewrite E. destruct ((ActiveStartedAt r =? 0) && isActive (Phase r)) eqn:Ha; [|by rewrite E]. split; [|done].
  unfold fillRec. cbn. rewrite H1. bool_facts.
  match goal with |- (if ?b then _ else _) = _ => by destruct b end.
Qed.

Lemma fillRec_idem r : fillRec (fillRec r) = fillRec r.
Proof.
  destruct (str_empty (Stage r)) eqn:E; [|by apply fillRec_named].
  assert (fillRec r = fillRec (r <| Stage := defaultStageForPhase (Phase r) |> <| StageStartedAt := UpdatedAt r |>)) as ->.
  { unfold fillRec. rewrite E. cbn. unfold str_empty. rewrite bool_decide_eq_false_2; [done|].
    unfold defaultStageForPhase. repeat case_match; done. }
  apply fillRec_named. cbn. unfold defaultStageForPhase.
  repeat (destruct (bool_decide (Phase r = _)); [reflexivity|]). reflexivity.
Qed.

Lemma write_disk io d s :
  disk_works io → persistent s = true →
  let s' := (writeRuntimeSnapshotLocked io d s).1 in
  records s' = records s ∧ persistent s' = true ∧ dirty s' = dirty s ∧ snapFile s' = Some (records s) ∧
  cursorFile s' = [] ∧ sharedReads s' = sharedReads s.
Proof.
  intros [H1 H2] Hp. unfold writeRuntimeSnapshotLocked. rewrite Hp, H1, H2. by cbn.
Qed.

Lemma clean_of_files s :
  persistent s = true → (∀ id r, records s !! id = Some r → ReadEpoch r ≠ "") →
  snapFile s = Some (records s) → cursorFile s = [] → clean s.
Proof.
  intros Hp Hn Hs Hc. split; [done|done|by rewrite Hs|]. intros _ id r Hr. right.
  unfold replay. rewrite Hs, Hc. cbn. by rewrite lookup_fmap, Hr.
Qed.

Lemma clean_write io d s : disk_works io → clean s → clean (writeRuntimeSnapshotLocked io d s).1.
Proof.
  intros Hio []. destruct (write_disk io d s Hio) as (E1 & E2 & _ & E4 & E5 & _); [done|].
  apply clean_of_files; try done; [by rewrite E1|by rewrite E1].
Qed.

Lemma clean_save io s :
  disk_works io → persistent s = true → (∀ id r, records s !! id = Some r → ReadEpoch r ≠ "") →
  clean (saveLocked io s).
Proof.
  intros Hio Hp Hn. unfold saveLocked, writeLocked. set (s0 := s <| flushTimer := false |> <| dirty := false |>).
  assert (persistent s0 = true) as Hp0 by done.
  destruct (write_disk io false s0 Hio Hp0) as (E1 & E2 & _ & E4 & E5 & _).
  apply clean_of_files; rewrite ?E1; done.
Qed.

Lemma clean_schedule s :
  persistent s = true → (∀ id r, records s !! id = Some r → ReadEpoch r ≠ "") →
  dom (default ∅ (snapFile s)) ⊆ dom (records s) → clean (scheduleSaveLocked s).
Proof. intros Hp Hn Hd. unfold scheduleSaveLocked. destruct (_ || _); by split. Qed.

Lemma clean_put id r s :
  clean s → ReadEpoch r ≠ "" →
  let s' := s <| records := <[id := r]> (records s) |> in
  persistent s' = true ∧ (∀ j x, records s' !! j = Some x → ReadEpoch x ≠ "") ∧
  dom (default ∅ (snapFile s')) ⊆ dom (records s').
Proof.
  intros [] He s'. split_and!; [done| |].
  - intros j x. unfold s'. cbn. intros [[<- <-]|[_ Hx]]%lookup_insert_Some; eauto.
  - unfold s'. cbn. rewrite dom_insert. set_solver.
Qed.

(** Filling in the defaults of a record, or creating one, is not lost. *)
Lemma clean_ensure epoch id s :
  epoch ≠ "" → clean s →
  let '(r, s1) := ensureLocked epoch id s in
  clean s1 ∧ ReadEpoch r ≠ "" ∧ records s1 !! id = Some r ∧ cursorFile s1 = cursorFile s ∧ fillRec r = r.
Proof.
  intros He Hc. unfold ensureLocked. set (r := fillRec _).
  assert (ReadEpoch r ≠ "") as Hr.
  { unfold r. rewrite (proj1 (fillRec_boundary _)). destruct (records s !! id) as [x|] eqn:Ex; [|done].
    simpl. by eapply cl_named. }
  destruct (clean_put id r s Hc Hr) as (H1 & H2 & H3).
  split_and!; [|done|cbn; apply lookup_insert_eq|done|apply fillRec_idem].
  split; [done..|]. intros Hd j x. cbn. intros [[<- <-]|[_ Hx]]%lookup_insert_Some.
  - unfold r. rewrite fillRec_idem, (proj2 (fillRec_boundary _)).
    destruct (records s !! id) as [x|] eqn:Ex; [by apply (cl_disk s Hc Hd)|by left].
  - by apply (cl_disk s Hc Hd).
Qed.

(** Persisting a boundary does not change memory, and leaves the disk right. *)
Lemma clean_persist io r rev s :
  disk_works io → clean s → clean (persistReadBoundaryLocked io r rev s).1.
Proof.
  intros Hio Hc. unfold persistReadBoundaryLocked. destruct (negb _); [done|]. cbv zeta.
  destruct (_ && _); [|by apply clean_write]. destruct (peDurable _); [done|].
  destruct (ioSync io); [done|]. destruct Hc. by split.
Qed.

Lemma clean_shared io m s : clean s → clean (writeSharedReadsLocked io m s).1.
Proof.
  intros Hc. unfold writeSharedReadsLocked. repeat case_match; try done; destruct Hc; by split.
Qed.

Lemma clean_enrol io epochs paired ids candidate changed s :
  disk_works io → clean s → clean (enrol io epochs paired ids candidate changed s).1.
Proof.
  intros Hio. revert candidate changed s. induction ids as [|id ids IH]; intros candidate changed s Hc; cbn [enrol]; [done|].
  destruct (records s !! id) as [r|] eqn:Er; [|by apply IH]. destruct (bool_decide _); [by apply IH|].
  assert (str_empty (ReadEpoch r) = false) as -> by (apply bool_decide_eq_false; by eapply cl_named).
  rewrite insert_present by done.
  assert (s <| records := records s |> = s) as -> by (by destruct s). cbv zeta.
  pose proof (clean_persist io r (shRevision (importRead (ReadEpoch r) paired r)) s Hio Hc) as Hp.
  destruct (persistReadBoundaryLocked _ _ _ s) as [s2 [e|]]; cbn [fst] in *; [done|]. by apply IH.
Qed.

(** The defaults do not depend on the cursors. *)
Lemma fillRec_cursors a b r :
  fillRec r = r → fillRec (r <| AckedByDevice := a |> <| ReadByDevice := b |>) =
    r <| AckedByDevice := a |> <| ReadByDevice := b |>.
Proof.
  intros Hf. assert (fillRec (r <| AckedByDevice := a |> <| ReadByDevice := b |>) =
    (fillRec r) <| AckedByDevice := a |> <| ReadByDevice := b |>) as ->; [|by rewrite Hf].
  unfold fillRec. cbn. destruct (str_empty (Stage r)); cbn; by destruct (_ && _).
Qed.

Lemma ackRec_shape dev rev read r :
  let r' := (ackRec dev rev read r).1 in
  r' = r <| AckedByDevice := AckedByDevice r' |> <| ReadByDevice := ReadByDevice r' |> ∧
  (AckedByDevice r' = AckedByDevice r ∨
   ∃ v, lookupZ (AckedByDevice r) dev < v ∧ AckedByDevice r' = <[dev := v]> (AckedByDevice r)) ∧
  (ReadByDevice r' = ReadByDevice r ∨
   ∃ v, lookupZ (ReadByDevice r) dev < v ∧ ReadByDevice r' = <[dev := v]> (ReadByDevice r)).
Proof.
  unfold ackRec. set (v := if _ : bool then Revision r else rev). clearbody v.
  destruct (Z.ltb_spec (lookupZ (AckedByDevice r) dev) v);
    match goal with |- context [read && ?b] => destruct (read && b) eqn:E end; cbn in *; bool_facts;
    split_and!; try done; try (by left); try (right; eauto); by destruct r.
Qed.

(** A cursor in the log says of the record what memory says. *)
Lemma loadCursor_ack m id dev rev read r :
  m !! id = Some r → fillRec r = r → id ≠ "" → dev ≠ "" →
  let r' := (ackRec dev rev read r).1 in
  loadCursor m (mkCursor id dev (lookupZ (AckedByDevice r') dev) (lookupZ (ReadByDevice r') dev)) = <[id := r']> m
  ∧ fillRec r' = r'.
Proof.
  intros Hm Hf Hi Hd. destruct (ackRec_shape dev rev read r) as (Hs & Ha & Hr). cbv zeta.
  set (r' := (ackRec dev rev read r).1) in *. clearbody r'. split; [|by rewrite Hs; apply fillRec_cursors].
  unfold loadCursor, str_empty. cbn. rewrite !bool_decide_eq_false_2 by done. cbn. rewrite Hm, Hf.
  f_equal. rewrite Hs.
  assert (∀ m v, lookupZ (<[dev := v]> m) dev = v) as Hv by (intros ? ?; by rewrite lookupZ_insert, decide_True).
  destruct Ha as [->|(v & Hv1 & ->)], Hr as [->|(w & Hw & ->)]; cbn;
    rewrite ?Hv, ?Z.ltb_irrefl; try rewrite (proj2 (Z.ltb_lt _ v)) by done; cbn;
    rewrite ?Z.ltb_irrefl; try rewrite (proj2 (Z.ltb_lt _ w)) by done; by destruct r.
Qed.

Lemma clean_put_records id r s :
  clean s → ReadEpoch r ≠ "" → ∀ j x, records (s <| records := <[id := r]> (records s) |>) !! j = Some x → ReadEpoch x ≠ "".
Proof. intros Hc Hr. apply (clean_put id r s Hc Hr). Qed.

(** A synchronous transition: one record changes and everything is written. *)
Lemma clean_save_put io id r s :
  disk_works io → clean s → ReadEpoch r ≠ "" → clean (saveLocked io (s <| records := <[id := r]> (records s) |>)).
Proof. intros Hio Hc Hr. apply clean_save; [done|apply Hc|by apply clean_put_records]. Qed.

Lemma ackRec_unchanged dev rev read r : (ackRec dev rev read r).2 = false → (ackRec dev rev read r).1 = r.
Proof. unfold ackRec. destruct (_ <? _); destruct (read && _); done. Qed.

Lemma loadCursor_other m e j : cuSessionID e ≠ j → loadCursor m e !! j = m !! j.
Proof.
  intros Hj. unfold loadCursor. destruct (_ || _); [done|]. destruct (m !! cuSessionID e); [|done].
  cbv zeta. by rewrite lookup_insert_ne.
Qed.

Lemma clean_ack io epoch dev id rev read s :
  disk_works io → epoch ≠ "" → clean s → clean (Ack io epoch dev id rev read s).1.
Proof.
  intros Hio He Hc. unfold Ack. destruct (_ || _) eqn:Hb; [done|]. bool_facts.
  pose proof (clean_ensure epoch id s He Hc) as H1. destruct (ensureLocked epoch id s) as [r s1].
  destruct H1 as (Hc1 & Hr & Hin & _ & Hf).
  pose proof (ackRec_shape dev rev read r) as Hs. pose proof (ackRec_unchanged dev rev read r) as Hu.
  pose proof (λ m Hm, loadCursor_ack m id dev rev read r Hm Hf) as Hl.
  destruct (ackRec dev rev read r) as [r' changed]. cbn [fst snd] in *. destruct Hs as (Hs & _).
  assert (ReadEpoch r' ≠ "" ∧ Revision r' = Revision r) as [Hr' Hrev] by (by rewrite Hs).
  destruct changed; cbn [fst].
  - unfold appendCursorLocked. destruct (negb _) eqn:Hp; [by apply clean_save_put|].
    destruct (ioCursor io); [by apply clean_save_put|].
    destruct (clean_put id r' s1 Hc1 Hr') as (P1 & P2 & P3). split; [done..|].
    intros Hd j x. pose proof (cl_disk s1 Hc1 Hd) as Hdisk. unfold replay. cbn.
    rewrite fold_left_app. cbn [fold_left].
    change (fold_left loadCursor (cursorFile s1) _) with (replay s1). intros [[<- <-]|[Hj Hx]]%lookup_insert_Some.
    + destruct (Hdisk id r Hin) as [E|E]; [left; congruence|right]. rewrite Hf in E.
      destruct (Hl _ E) as [-> ->]; [done..|]. by rewrite lookup_insert_eq.
    + rewrite loadCursor_other by done. by apply Hdisk.
  - rewrite Hu by done. rewrite insert_present by done. by destruct s1, Hc1.
Qed.

Definition step_ok (io : jio) (epochs : string → string) : Prop :=
  disk_works io ∧ ∀ id, epochs id ≠ "".

Lemma clean_ensureAll epochs ids s :
  (∀ id, epochs id ≠ "") → clean s → clean (ensureAll epochs ids s).2.
Proof.
  intros He. revert s. induction ids as [|id ids IH]; intros s Hc; [done|]. cbn [ensureAll].
  pose proof (clean_ensure (epochs id) id s (He id) Hc) as H. destruct (ensureLocked (epochs id) id s) as [r s1].
  destruct H as [Hc1 _]. specialize (IH s1 Hc1). by destruct (ensureAll epochs ids s1).
Qed.

Lemma updateRec_epoch now phase req q term err r : ReadEpoch (updateRec now phase req q term err r) = ReadEpoch r.
Proof. exact (a_epoch _ _ (updateRec_advances now phase req q term err r)). Qed.

Lemma clean_update io now epoch order id phase req q term err s :
  disk_works io → epoch ≠ "" → clean s → clean (Update io now epoch order id phase req q term err s).1.
Proof.
  intros Hio He Hc. unfold Update. destruct (str_empty id); [done|].
  pose proof (clean_ensure epoch id s He Hc) as H1. destruct (ensureLocked epoch id s) as [r s1].
  destruct H1 as (Hc1 & Hr & _). cbv zeta. destruct (_ && _ && _ && _ && _); [done|]. cbn [fst].
  set (s2 := s1 <| records := _ |>).
  assert (∀ j x, records s2 !! j = Some x → ReadEpoch x ≠ "") as Hn
    by (apply clean_put_records; [done|by rewrite updateRec_epoch]).
  apply clean_save; [done| |].
  - unfold enforceCapLocked. destruct (_ <=? _)%nat; apply Hc1.
  - intros j x Hx%cap_sub. by eapply Hn.
Qed.

Lemma clean_remove io id s : disk_works io → clean s → clean (Remove io id s).
Proof.
  intros Hio Hc. unfold Remove. destruct (records s !! id); [|done]. apply clean_save; [done|apply Hc|].
  intros j x. cbn. intros [_ Hx]%lookup_delete_Some. by eapply cl_named.
Qed.

Lemma clean_recover io now s : disk_works io → clean s → clean (RecoverAllStale io now s).1.
Proof.
  intros Hio Hc. unfold RecoverAllStale. set (stale := filter _ (records s)). set (done_ := map_imap _ stale).
  assert (∀ j x, records (s <| records := done_ ∪ records s |>) !! j = Some x → ReadEpoch x ≠ "") as Hn.
  { intros j x. cbn. rewrite lookup_union_Some_raw. unfold done_, stale. rewrite map_lookup_imap, map_lookup_filter.
    destruct (records s !! j) as [r|] eqn:Er; simpl; [|intros [?|[_ ?]]; done].
    pose proof (cl_named s Hc j r Er) as Hr. case_guard; simpl; intros [?|[_ ?]]; simplify_eq; done. }
  cbn [fst]. case_decide as Hst; [|by apply clean_save; [|apply Hc|]].
  assert (done_ = ∅) as -> by (unfold done_; rewrite Hst; apply map_imap_empty).
  rewrite map_empty_union. by destruct s, Hc.
Qed.

Lemma clean_of_memory s s1 :
  clean s → records s1 = records s → persistent s1 = persistent s → dirty s1 = dirty s →
  snapFile s1 = snapFile s → cursorFile s1 = cursorFile s → clean s1.
Proof. intros [] E1 E2 E3 E4 E5. split; unfold on_disk, replay; by rewrite ?E1, ?E2, ?E3, ?E4, ?E5. Qed.

Lemma clean_progress now epoch id req stage msg s :
  epoch ≠ "" → clean s → clean (Progress now epoch id req stage msg s).1.
Proof.
  intros He Hc. unfold Progress. destruct (_ || _); [done|].
  pose proof (clean_ensure epoch id s He Hc) as H1. destruct (ensureLocked epoch id s) as [r s1].
  destruct H1 as (Hc1 & Hr & _). cbv zeta.
  repeat (match goal with |- context [if ?b then (s1, _) else _] => destruct b end; [done|]). cbn [fst].
  match goal with |- context [<[id := ?x]> _] => assert (ReadEpoch x ≠ "") as Hx by (by repeat case_match) end.
  destruct (clean_put id _ s1 Hc1 Hx) as (? & ? & ?). by apply clean_schedule.
Qed.

Lemma clean_snapshot_source io epochs id s :
  step_ok io epochs → clean s → clean (SourceEpoch io (epochs id) id s).1.
Proof.
  intros [Hio He] Hc. unfold SourceEpoch. destruct (str_empty id); [done|].
  pose proof (clean_ensure (epochs id) id s (He id) Hc) as H1. destruct (ensureLocked (epochs id) id s) as [r s1].
  destruct H1 as (Hc1 & _). pose proof (clean_persist io r (Revision r) s1 Hio Hc1).
  by destruct (persistReadBoundaryLocked io r (Revision r) s1) as [s2 [e|]].
Qed.

Lemma clean_shared_snapshot io epochs dev ids paired s :
  disk_works io → clean s → clean (SharedSnapshot io epochs dev ids paired s).1.
Proof.
  intros Hio Hc. unfold SharedSnapshot, ensureSharedReadsLocked. destruct (sharedReadLoadErr s); [done|].
  destruct (negb _); [done|]. pose proof (clean_enrol io epochs paired ids (copySharedReadsLocked s) false s Hio Hc) as Hen.
  destruct (enrol _ _ _ _ _ _ s) as [s1 [[cand changed] [e|]]]; [done|]. cbn [fst] in Hen.
  destruct (negb changed); [done|]. pose proof (clean_shared io cand s1 Hen) as Hw.
  destruct (writeSharedReadsLocked io cand s1) as [s2 [e|]]; [done|]. cbn [fst] in *.
  by apply (clean_of_memory s2).
Qed.

Lemma clean_mark digest io id epoch rev token s :
  disk_works io → clean s → clean (MarkSharedRead digest io id epoch rev token s).1.
Proof.
  intros Hio Hc. unfold MarkSharedRead. destruct (records s !! id) as [r|]; [|done].
  destruct (sharedReads s !! id) as [read|]; [|done]. destruct (_ || _); [done|]. destruct (_ || _); [done|].
  destruct (_ <=? _); [done|]. destruct (_ || _); [done|]. pose proof (clean_persist io r rev s Hio Hc) as Hp.
  destruct (persistReadBoundaryLocked io r rev s) as [s1 [e|]]; [done|]. cbn [fst] in Hp.
  match goal with |- context [writeSharedReadsLocked io ?m s1] => pose proof (clean_shared io m s1 Hp) as Hw;
    destruct (writeSharedReadsLocked io m s1) as [s2 [e|]] end; [done|]. cbn [fst] in *.
  by apply (clean_of_memory s2).
Qed.

(** The record an operation starts from, then a synchronous write. *)
Ltac clean_via_ensure epoch id s He Hc :=
  let H := fresh in
  pose proof (clean_ensure epoch id s He Hc) as H; destruct (ensureLocked epoch id s) as [? ?];
  destruct H as (? & ? & _); cbv zeta; case_match; [done|]; cbn [fst]; by apply clean_save_put.

Lemma clean_run io now epochs o s : step_ok io epochs → clean s → clean (run io now epochs o s).
Proof.
  intros Hstep Hc. pose proof Hstep as [Hio He]. destruct o; cbn [run].
  - by apply clean_update.
  - unfold UpdateQueueLength. destruct (str_empty id); [done|]. clean_via_ensure (epochs id) id s (He id) Hc.
  - by apply clean_progress.
  - unfold Ensure. pose proof (clean_ensure (epochs id) id s (He id) Hc) as H.
    destruct (ensureLocked (epochs id) id s) as [r s1]. destruct H as (Hc1 & Hr & _).
    destruct (_ =? 0); cbn [fst]; [by apply clean_save_put|done].
  - unfold Recover. clean_via_ensure (epochs id) id s (He id) Hc.
  - by apply clean_recover.
  - unfold ReconcileHistoryActivity. destruct (_ || _); [done|]. clean_via_ensure (epochs id) id s (He id) Hc.
  - unfold WaitForInteraction. destruct (records s !! id) as [r|] eqn:Er; [|done].
    pose proof (cl_named s Hc id r Er). destruct (_ || _); [done|]. destruct (bool_decide _); [done|].
    cbn [fst]. apply clean_save_put; [done|done|]. by destruct (negb _).
  - unfold ResolveInteraction. destruct (records s !! id) as [r|] eqn:Er; [|done].
    pose proof (cl_named s Hc id r Er). destruct (_ || _); [done|]. destruct (negb (bool_decide (_ = Some _))); [done|].
    destruct (negb _); cbn [fst]; by apply clean_save_put.
  - unfold RestoreUnconfirmedStop. destruct (records s !! id) as [r|] eqn:Er; [|done].
    pose proof (cl_named s Hc id r Er). destruct (_ || _); [done|]. cbn [fst]. by apply clean_save_put.
  - by apply clean_ack.
  - unfold Snapshot. pose proof (clean_ensureAll epochs ids s He Hc). by destruct (ensureAll epochs ids s).
  - by apply clean_shared_snapshot.
  - by apply clean_mark.
  - by apply clean_snapshot_source.
  - by apply clean_remove.
  - unfold Flush. destruct (dirty s); [|done]. apply clean_save; [done|apply Hc|apply Hc].
  - unfold flushTimerFires. cbn [dirty]. match goal with |- context [if negb ?b then _ else _] => destruct b eqn:E end; cbn [negb].
    + unfold writeLocked. set (s1 := _ <| dirty := false |>).
      assert (persistent s1 = true) as Hp by apply Hc.
      destruct (write_disk io false s1 Hio Hp) as (E1 & E2 & _ & E4 & E5 & _).
      apply clean_of_files; rewrite ?E1; try done. apply Hc.
    + by apply (clean_of_memory s).
Qed.

Definition step : Type := jio * (string → Z) * (string → string) * op.
Definition run_step (s : Store) (st : step) : Store := let '(io, now, epochs, o) := st in run io now epochs o s.


Definition demo_steps : list step :=
  map (λ o, (jio_ok, tick, epoch0, o)) (demo_turn ++ [OAck "phone" "s1" 4 true; OFlush]).


(** A failed lifecycle write is not tried again: the journal is no longer
    dirty, so neither [Flush] nor the timer writes it, whatever the disk does
    by then. *)
Theorem failed_save_not_retried io io' e s :
  persistent s = true → ioSnap io = WFail e →
  snapFile (Flush io' (saveLocked io s)) = snapFile s ∧
  snapFile (flushTimerFires io' (saveLocked io s)) = snapFile s ∧ records (saveLocked io s) = records s.
Proof.
  intros Hp Hio. assert (saveLocked io s = s <| flushTimer := false |> <| dirty := false |>) as ->; [|done].
  unfold saveLocked, writeLocked, writeRuntimeSnapshotLocked. cbn [persistent]. rewrite Hio. by case_match.
Qed.

Lemma failed_save_not_retried_witness :
  snapFile (Flush jio_ok (saveLocked (mkJIO (WFail "no space left on device") None WOk None true) demo_shared))
    = snapFile demo_shared.
Proof.
  destruct (failed_save_not_retried (mkJIO (WFail "no space left on device") None WOk None true) jio_ok
    "no space left on device" demo_shared) as [H _]; [vm_compute; reflexivity|reflexivity|exact H].
Defined.
