(* ===== verification/Decimal.v ===== *)
(** * Names built from decimal numbers

    Identifiers such as ["p_w07"] or ["pmrun_p_w07_e3"] are read back
    unambiguously: the numeral after a letter mark has only digits, and its
    value is the number printed. *)

From stdpp Require Import pretty.
From S2P Require Import Prelude.

Definition digit (a : Ascii.ascii) : bool :=
  (48 <=? Ascii.nat_of_ascii a)%nat && (Ascii.nat_of_ascii a <=? 57)%nat.
Definition numeral (s : string) : Prop := Forall (λ a, digit a = true) (String.list_ascii_of_string s).

(** The value of a numeral read after [acc]. *)
Fixpoint value (acc : Z) (s : string) : Z :=
  match s with
  | "" => acc
  | String a s => value (acc * 10 + (Z.of_nat (Ascii.nat_of_ascii a) - 48)) s
  end.

Lemma digit_char (d : N) : (d < 10)%N →
  digit (pretty_N_char d) = true ∧ Z.of_nat (Ascii.nat_of_ascii (pretty_N_char d)) - 48 = Z.of_N d.
Proof.
  intros Hd. assert (d ∈ [0;1;2;3;4;5;6;7;8;9]%N) as H.
  { rewrite !elem_of_cons, elem_of_nil. lia. }
  rewrite !elem_of_cons, elem_of_nil in H.
  repeat (destruct H as [->|H]; [by vm_compute|]). done.
Qed.

Lemma pretty_go (x : N) s : numeral s →
  numeral (pretty_N_go x s) ∧ value 0 (pretty_N_go x s) = value (Z.of_N x) s.
Proof.
  revert s. induction (N.lt_wf_0 x) as [x _ IH]. intros s Hs.
  destruct (decide (0 < x)%N) as [Hx|Hx].
  - rewrite pretty_N_go_step by done. destruct (digit_char (x `mod` 10)) as [D1 D2]; [by apply N.mod_lt|].
    destruct (IH (x `div` 10)%N (N.div_lt x 10 Hx eq_refl) (String (pretty_N_char (x `mod` 10)) s)) as [H1 H2].
    { by constructor. }
    split; [done|]. rewrite H2. cbn [value]. rewrite D2. f_equal.
    rewrite N2Z.inj_div, N2Z.inj_mod. change (Z.of_N 10) with 10.
    rewrite (Z.div_mod (Z.of_N x) 10) at 3 by done. lia.
  - assert (x = 0%N) as -> by lia. by rewrite pretty_N_go_0.
Qed.

Lemma decimal_value n : 0 ≤ n → numeral (decimal n) ∧ value 0 (decimal n) = n.
Proof.
  intros Hn. destruct n as [|p|p]; [by split; [repeat constructor|]| |lia].
  change (decimal (Z.pos p)) with (pretty_N_go (N.pos p) "").
  destruct (pretty_go (N.pos p) "") as [H1 H2]; [constructor|]. by split.
Qed.

(** The length of a numeral. *)
Lemma pretty_go_length (k : nat) (x : N) s :
  (x < 10 ^ N.of_nat k)%N → (String.length (pretty_N_go x s) ≤ k + String.length s)%nat.
Proof.
  revert x s. induction k as [|k IH]; intros x s Hx.
  - assert (x = 0%N) as -> by (simpl in Hx; lia). by rewrite pretty_N_go_0.
  - destruct (decide (0 < x)%N) as [Hp|Hp].
    + rewrite pretty_N_go_step by done. etrans; [apply IH|simpl; lia].
      apply N.Div0.div_lt_upper_bound. rewrite Nat2N.inj_succ, N.pow_succ_r' in Hx. lia.
    + assert (x = 0%N) as -> by lia. rewrite pretty_N_go_0. lia.
Qed.
Lemma decimal_length (k : nat) n :
  (1 ≤ k)%nat → 0 ≤ n < 10 ^ Z.of_nat k → (String.length (decimal n) ≤ k)%nat.
Proof.
  intros Hk Hn. destruct n as [|p|p]; [simpl; lia| |lia].
  change (decimal (Z.pos p)) with (pretty_N_go (N.pos p) "").
  etrans; [apply (pretty_go_length k)|simpl; lia].
  apply N2Z.inj_lt. rewrite N2Z.inj_pow. rewrite nat_N_Z. apply Hn.
Qed.

Lemma decimal_inj m n : 0 ≤ m → 0 ≤ n → decimal m = decimal n → m = n.
Proof. intros Hm Hn E. rewrite <- (proj2 (decimal_value m Hm)), E. by apply decimal_value. Qed.

(** *** Splitting at the last mark *)
Lemma append_list s1 s2 :
  String.list_ascii_of_string (String.append s1 s2)
  = String.list_ascii_of_string s1 ++ String.list_ascii_of_string s2.
Proof. induction s1 as [|a s1 IH]; simpl; [done|]. by rewrite IH. Qed.

Lemma list_string_inj s1 s2 : String.list_ascii_of_string s1 = String.list_ascii_of_string s2 → s1 = s2.
Proof.
  intros H. rewrite <- (String.string_of_list_ascii_of_string s1), H.
  apply String.string_of_list_ascii_of_string.
Qed.

Lemma split_mark {A} (x : A) l1 l2 r1 r2 :
  l1 ++ x :: r1 = l2 ++ x :: r2 → x ∉ r1 → x ∉ r2 → l1 = l2 ∧ r1 = r2.
Proof.
  revert l2. induction l1 as [|a l1 IH]; intros [|b l2] H H1 H2; simplify_list_eq.
  - done.
  - exfalso. apply H1. apply elem_of_app. right. by left.
  - exfalso. apply H2. apply elem_of_app. right. by left.
  - destruct (IH l2) as [-> ->]; done.
Qed.

Lemma numeral_mark s a : numeral s → digit a = false → a ∉ String.list_ascii_of_string s.
Proof. intros Hs Ha Hin. unfold numeral in Hs. rewrite Forall_forall in Hs. by rewrite Hs in Ha. Qed.

(** [s1 ++ mark ++ n1 = s2 ++ mark ++ n2] determines both sides, when the mark
    ends with a letter and [n1], [n2] are numerals. *)
Lemma split_name s1 s2 m a n1 n2 :
  numeral n1 → numeral n2 → digit a = false →
  String.append s1 (String.append (String.append m (String a "")) n1)
    = String.append s2 (String.append (String.append m (String a "")) n2) →
  s1 = s2 ∧ n1 = n2.
Proof.
  intros H1 H2 Ha E. apply (f_equal String.list_ascii_of_string) in E.
  rewrite !append_list in E. simpl in E. rewrite <- !app_assoc in E. cbn [app] in E.
  rewrite !(app_assoc (String.list_ascii_of_string _) (String.list_ascii_of_string m)) in E.
  apply split_mark in E as [E1 E2]; [|by apply numeral_mark..].
  apply app_inv_tail in E1. split; by apply list_string_inj.
Qed.

Lemma append_inj s t1 t2 : String.append s t1 = String.append s t2 → t1 = t2.
Proof. induction s as [|a s IH]; simpl; [done|]. intros [= E]. auto. Qed.
