(* ===== verification/CoordTypes.v ===== *)
(** * The data of the PM collaboration policy

    The structs of [src/internal/coordination] ([domain.go] and
    [collaboration_types.go]).  A field [F] of the struct written [x] in the
    comments is the projection whose name is a two-letter prefix followed by
    [F]; integers are [Z], maps are [gmap string], a pointer is an [option].
    A nil map and an empty map are the same value: [Normalize] and
    [NormalizeCollaboration] only tell them apart to be able to write. *)

From S2P Require Import Prelude.

(** A receipt as the file holds it: the result of the operation with the hash
    of its intent ("" in files written before hashes), or text that does not
    decode. *)
Inductive receipt (R : Type) := Receipt (result : R) (intentHash : string) | BadReceipt (why : string).
Arguments Receipt {R} _ _.
Arguments BadReceipt {R} _.

Record Principal := mkPrincipal {
  prHuman : bool; prID : string; prSessionID : string; prRunID : string; prEpoch : Z }.
#[export] Instance Principal_eta : Eta Principal := λ x,
  mkPrincipal (prHuman x) (prID x) (prSessionID x) (prRunID x) (prEpoch x).
Definition zeroPrincipal : Principal :=
  mkPrincipal false "" "" "" 0.
#[global] Instance Principal_eq_dec : EqDecision Principal.
Proof. solve_decision. Defined.

Record Project := mkProject {
  pjEngineVersion : Z; pjNoProgressRounds : Z; pjWakeDispositionCount : Z; pjID : string;
  pjName : string; pjCwd : string; pjCwdAlias : string; pjPMSessionID : string;
  pjProfileID : string; pjProfileVersion : Z; pjMode : string; pjRevision : Z; pjRounds : Z;
  pjMaxRounds : Z; pjMaxTasks : Z; pjPendingThrough : Z; pjProcessedThrough : Z;
  pjWakeRequestID : string; pjWakeThrough : Z; pjWakeState : string; pjNote : string }.
#[export] Instance Project_eta : Eta Project := λ x,
  mkProject (pjEngineVersion x) (pjNoProgressRounds x) (pjWakeDispositionCount x) (pjID x)
    (pjName x) (pjCwd x) (pjCwdAlias x) (pjPMSessionID x) (pjProfileID x) (pjProfileVersion x)
    (pjMode x) (pjRevision x) (pjRounds x) (pjMaxRounds x) (pjMaxTasks x) (pjPendingThrough x)
    (pjProcessedThrough x) (pjWakeRequestID x) (pjWakeThrough x) (pjWakeState x) (pjNote x).
Definition zeroProject : Project :=
  mkProject 0 0 0 "" "" "" "" "" "" 0 "" 0 0 0 0 0 0 "" 0 "" "".

Record Task := mkTask {
  tkID : string; tkProjectID : string; tkNumber : Z; tkTitle : string; tkReason : string;
  tkInstruction : string; tkAcceptance : string; tkBackend : string; tkModel : string;
  tkSandbox : string; tkState : string; tkOwner : string; tkEpoch : Z; tkSessionID : string;
  tkWorkItemID : string; tkRunID : string; tkRequestID : string; tkOriginRequestID : string;
  tkRevision : Z; tkResult : string; tkDecision : string; tkApprovedBy : string;
  tkAcceptedBy : string; tkDispatchEpoch : Z; tkProvisioned : bool }.
#[export] Instance Task_eta : Eta Task := λ x,
  mkTask (tkID x) (tkProjectID x) (tkNumber x) (tkTitle x) (tkReason x) (tkInstruction x)
    (tkAcceptance x) (tkBackend x) (tkModel x) (tkSandbox x) (tkState x) (tkOwner x) (tkEpoch x)
    (tkSessionID x) (tkWorkItemID x) (tkRunID x) (tkRequestID x) (tkOriginRequestID x)
    (tkRevision x) (tkResult x) (tkDecision x) (tkApprovedBy x) (tkAcceptedBy x)
    (tkDispatchEpoch x) (tkProvisioned x).
Definition zeroTask : Task :=
  mkTask "" "" 0 "" "" "" "" "" "" "" "" "" 0 "" "" "" "" "" 0 "" "" "" "" 0 false.

Record Event := mkEvent {
  evID : Z; evProjectID : string; evTaskID : string; evKind : string; evActor : string;
  evSessionID : string; evRequestID : string; evText : string; evAt : Z }.
#[export] Instance Event_eta : Eta Event := λ x,
  mkEvent (evID x) (evProjectID x) (evTaskID x) (evKind x) (evActor x) (evSessionID x)
    (evRequestID x) (evText x) (evAt x).
Definition zeroEvent : Event :=
  mkEvent 0 "" "" "" "" "" "" "" 0.

Record Command := mkCommand {
  cmCwdAlias : string; cmAction : string; cmProjectID : string; cmTaskID : string;
  cmMutationID : string; cmExpectedRevision : Z; cmName : string; cmCwd : string;
  cmModel : string; cmText : string; cmTitle : string; cmReason : string;
  cmInstruction : string; cmAcceptance : string; cmBackend : string; cmSandbox : string;
  cmOriginRequestID : string; cmMaxTasks : Z; cmMaxRounds : Z }.
#[export] Instance Command_eta : Eta Command := λ x,
  mkCommand (cmCwdAlias x) (cmAction x) (cmProjectID x) (cmTaskID x) (cmMutationID x)
    (cmExpectedRevision x) (cmName x) (cmCwd x) (cmModel x) (cmText x) (cmTitle x) (cmReason x)
    (cmInstruction x) (cmAcceptance x) (cmBackend x) (cmSandbox x) (cmOriginRequestID x)
    (cmMaxTasks x) (cmMaxRounds x).
Definition zeroCommand : Command :=
  mkCommand "" "" "" "" "" 0 "" "" "" "" "" "" "" "" "" "" "" 0 0.

Record Result := mkResult {
  rsProjectID : string; rsTaskID : string; rsSessionID : string; rsRevision : Z }.
#[export] Instance Result_eta : Eta Result := λ x,
  mkResult (rsProjectID x) (rsTaskID x) (rsSessionID x) (rsRevision x).
Definition zeroResult : Result :=
  mkResult "" "" "" 0.
#[global] Instance Result_eq_dec : EqDecision Result.
Proof. solve_decision. Defined.

Record Criterion := mkCriterion {
  crID : string; crText : string; crMandatory : bool }.
#[export] Instance Criterion_eta : Eta Criterion := λ x,
  mkCriterion (crID x) (crText x) (crMandatory x).
Definition zeroCriterion : Criterion :=
  mkCriterion "" "" false.

Record SourceRef := mkSourceRef {
  srKind : string; srID : string; srVersion : string; srLabel : string }.
#[export] Instance SourceRef_eta : Eta SourceRef := λ x,
  mkSourceRef (srKind x) (srID x) (srVersion x) (srLabel x).
Definition zeroSourceRef : SourceRef :=
  mkSourceRef "" "" "" "".
#[global] Instance SourceRef_eq_dec : EqDecision SourceRef.
Proof. solve_decision. Defined.

Record TaskContract := mkTaskContract {
  tcID : string; tcProjectID : string; tcTaskID : string; tcRevision : Z; tcOutcome : string;
  tcNonGoals : list string; tcCriteria : list Criterion; tcInputs : list SourceRef;
  tcSources : list SourceRef; tcSandbox : string; tcBackend : string; tcProfileID : string;
  tcHash : string; tcCreatedAt : Z }.
#[export] Instance TaskContract_eta : Eta TaskContract := λ x,
  mkTaskContract (tcID x) (tcProjectID x) (tcTaskID x) (tcRevision x) (tcOutcome x)
    (tcNonGoals x) (tcCriteria x) (tcInputs x) (tcSources x) (tcSandbox x) (tcBackend x)
    (tcProfileID x) (tcHash x) (tcCreatedAt x).
Definition zeroTaskContract : TaskContract :=
  mkTaskContract "" "" "" 0 "" [] [] [] [] "" "" "" "" 0.

Record Grant := mkGrant {
  grID : string; grProjectID : string; grTaskID : string; grContractID : string;
  grContractHash : string; grApprovedBy : string; grMode : string; grMaxRevisions : Z;
  grUsedRevisions : Z; grExpiresAt : Z; grRevokedAt : Z; grCreatedAt : Z }.
#[export] Instance Grant_eta : Eta Grant := λ x,
  mkGrant (grID x) (grProjectID x) (grTaskID x) (grContractID x) (grContractHash x)
    (grApprovedBy x) (grMode x) (grMaxRevisions x) (grUsedRevisions x) (grExpiresAt x)
    (grRevokedAt x) (grCreatedAt x).
Definition zeroGrant : Grant :=
  mkGrant "" "" "" "" "" "" "" 0 0 0 0 0.

Record TaskCoordination := mkTaskCoordination {
  mtID : string; mtProjectID : string; mtRevision : Z; mtContractID : string;
  mtGrantID : string; mtManifestID : string; mtReadiness : string; mtPhase : string;
  mtActiveRunID : string; mtActiveEpoch : Z; mtActiveRequestID : string;
  mtSubmissionID : string; mtAcceptedSubmissionID : string; mtAcceptedContractID : string;
  mtHandoffID : string; mtAssistanceID : string; mtNeedsContext : bool;
  mtNoProgressRounds : Z }.
#[export] Instance TaskCoordination_eta : Eta TaskCoordination := λ x,
  mkTaskCoordination (mtID x) (mtProjectID x) (mtRevision x) (mtContractID x) (mtGrantID x)
    (mtManifestID x) (mtReadiness x) (mtPhase x) (mtActiveRunID x) (mtActiveEpoch x)
    (mtActiveRequestID x) (mtSubmissionID x) (mtAcceptedSubmissionID x) (mtAcceptedContractID x)
    (mtHandoffID x) (mtAssistanceID x) (mtNeedsContext x) (mtNoProgressRounds x).
Definition zeroTaskCoordination : TaskCoordination :=
  mkTaskCoordination "" "" 0 "" "" "" "" "" "" 0 "" "" "" "" "" "" false 0.

Record ContextManifest := mkContextManifest {
  cxID : string; cxProjectID : string; cxTaskID : string; cxContractID : string;
  cxDecisionIDs : list string; cxInputs : list SourceRef; cxRequired : string; cxHash : string;
  cxCreatedAt : Z }.
#[export] Instance ContextManifest_eta : Eta ContextManifest := λ x,
  mkContextManifest (cxID x) (cxProjectID x) (cxTaskID x) (cxContractID x) (cxDecisionIDs x)
    (cxInputs x) (cxRequired x) (cxHash x) (cxCreatedAt x).
Definition zeroContextManifest : ContextManifest :=
  mkContextManifest "" "" "" "" [] [] "" "" 0.

Record ReportInput := mkReportInput {
  riKind : string; riContractID : string; riManifestID : string; riText : string;
  riReadiness : string; riBlocking : bool; riDecisionOwner : string; riReasonCode : string;
  riQuestionID : string; riAnswerID : string; riAdopted : bool; riSources : list SourceRef }.
#[export] Instance ReportInput_eta : Eta ReportInput := λ x,
  mkReportInput (riKind x) (riContractID x) (riManifestID x) (riText x) (riReadiness x)
    (riBlocking x) (riDecisionOwner x) (riReasonCode x) (riQuestionID x) (riAnswerID x)
    (riAdopted x) (riSources x).
Definition zeroReportInput : ReportInput :=
  mkReportInput "" "" "" "" "" false "" "" "" "" false [].

Record WorkerReport := mkWorkerReport {
  wrID : string; wrProjectID : string; wrTaskID : string; wrSessionID : string;
  wrRunID : string; wrEpoch : Z; wrActor : string; wrInput : ReportInput; wrStale : bool;
  wrCreatedAt : Z }.
#[export] Instance WorkerReport_eta : Eta WorkerReport := λ x,
  mkWorkerReport (wrID x) (wrProjectID x) (wrTaskID x) (wrSessionID x) (wrRunID x) (wrEpoch x)
    (wrActor x) (wrInput x) (wrStale x) (wrCreatedAt x).
Definition zeroWorkerReport : WorkerReport :=
  mkWorkerReport "" "" "" "" "" 0 "" zeroReportInput false 0.

Record Actionable := mkActionable {
  acID : string; acProjectID : string; acTaskID : string; acReportID : string;
  acSubmissionID : string; acKind : string; acText : string; acAssignee : string;
  acState : string; acWaitingReason : string; acBlocking : bool; acRevision : Z;
  acAnswerID : string; acAnswer : string; acDueAt : Z; acCreatedAt : Z; acUpdatedAt : Z }.
#[export] Instance Actionable_eta : Eta Actionable := λ x,
  mkActionable (acID x) (acProjectID x) (acTaskID x) (acReportID x) (acSubmissionID x)
    (acKind x) (acText x) (acAssignee x) (acState x) (acWaitingReason x) (acBlocking x)
    (acRevision x) (acAnswerID x) (acAnswer x) (acDueAt x) (acCreatedAt x) (acUpdatedAt x).
Definition zeroActionable : Actionable :=
  mkActionable "" "" "" "" "" "" "" "" "" "" false 0 "" "" 0 0 0.

Record DispositionInput := mkDispositionInput {
  diActionableID : string; diAction : string; diText : string; diSources : list SourceRef }.
#[export] Instance DispositionInput_eta : Eta DispositionInput := λ x,
  mkDispositionInput (diActionableID x) (diAction x) (diText x) (diSources x).
Definition zeroDispositionInput : DispositionInput :=
  mkDispositionInput "" "" "" [].

Record Disposition := mkDisposition {
  dsID : string; dsProjectID : string; dsTaskID : string; dsActionableID : string;
  dsAction : string; dsText : string; dsActor : string; dsSources : list SourceRef;
  dsCreatedAt : Z }.
#[export] Instance Disposition_eta : Eta Disposition := λ x,
  mkDisposition (dsID x) (dsProjectID x) (dsTaskID x) (dsActionableID x) (dsAction x) (dsText x)
    (dsActor x) (dsSources x) (dsCreatedAt x).
Definition zeroDisposition : Disposition :=
  mkDisposition "" "" "" "" "" "" "" [] 0.

Record Coverage := mkCoverage {
  cvCriterionID : string; cvClaim : string; cvEvidenceIDs : list string; cvReason : string }.
#[export] Instance Coverage_eta : Eta Coverage := λ x,
  mkCoverage (cvCriterionID x) (cvClaim x) (cvEvidenceIDs x) (cvReason x).
Definition zeroCoverage : Coverage :=
  mkCoverage "" "" [] "".

Record Artifact := mkArtifact {
  arID : string; arProjectID : string; arTaskID : string; arName : string; arKind : string;
  arDigest : string; arSize : Z; arLocator : string; arContent : string; arSourcePath : string;
  arSourceRoot : string; arCreatedAt : Z }.
#[export] Instance Artifact_eta : Eta Artifact := λ x,
  mkArtifact (arID x) (arProjectID x) (arTaskID x) (arName x) (arKind x) (arDigest x) (arSize x)
    (arLocator x) (arContent x) (arSourcePath x) (arSourceRoot x) (arCreatedAt x).
Definition zeroArtifact : Artifact :=
  mkArtifact "" "" "" "" "" "" 0 "" "" "" "" 0.

Record Evidence := mkEvidence {
  ebID : string; ebProjectID : string; ebTaskID : string; ebArtifactID : string;
  ebText : string; ebTrust : string; ebObserver : string; ebCreatedAt : Z }.
#[export] Instance Evidence_eta : Eta Evidence := λ x,
  mkEvidence (ebID x) (ebProjectID x) (ebTaskID x) (ebArtifactID x) (ebText x) (ebTrust x)
    (ebObserver x) (ebCreatedAt x).
Definition zeroEvidence : Evidence :=
  mkEvidence "" "" "" "" "" "" "" 0.

Record SubmissionInput := mkSubmissionInput {
  siContractID : string; siManifestID : string; siSummary : string; siArtifactIDs : list string;
  siCoverage : list Coverage; siLimitations : list string }.
#[export] Instance SubmissionInput_eta : Eta SubmissionInput := λ x,
  mkSubmissionInput (siContractID x) (siManifestID x) (siSummary x) (siArtifactIDs x)
    (siCoverage x) (siLimitations x).
Definition zeroSubmissionInput : SubmissionInput :=
  mkSubmissionInput "" "" "" [] [] [].

Record Submission := mkSubmission {
  sbID : string; sbProjectID : string; sbTaskID : string; sbRunID : string; sbEpoch : Z;
  sbVersion : Z; sbInput : SubmissionInput; sbStatus : string; sbCreatedAt : Z }.
#[export] Instance Submission_eta : Eta Submission := λ x,
  mkSubmission (sbID x) (sbProjectID x) (sbTaskID x) (sbRunID x) (sbEpoch x) (sbVersion x)
    (sbInput x) (sbStatus x) (sbCreatedAt x).
Definition zeroSubmission : Submission :=
  mkSubmission "" "" "" "" 0 0 zeroSubmissionInput "" 0.

Record Decision := mkDecision {
  dcID : string; dcProjectID : string; dcTaskID : string; dcText : string;
  dcSupersedes : string; dcSources : list SourceRef; dcConfirmedBy : string; dcCreatedAt : Z }.
#[export] Instance Decision_eta : Eta Decision := λ x,
  mkDecision (dcID x) (dcProjectID x) (dcTaskID x) (dcText x) (dcSupersedes x) (dcSources x)
    (dcConfirmedBy x) (dcCreatedAt x).
Definition zeroDecision : Decision :=
  mkDecision "" "" "" "" "" [] "" 0.

Record Handoff := mkHandoff {
  hoID : string; hoProjectID : string; hoTaskID : string; hoEpoch : Z; hoFromEvent : Z;
  hoThroughEvent : Z; hoSummary : string; hoComplete : bool; hoStatus : string;
  hoConfirmedBy : string; hoCreatedAt : Z }.
#[export] Instance Handoff_eta : Eta Handoff := λ x,
  mkHandoff (hoID x) (hoProjectID x) (hoTaskID x) (hoEpoch x) (hoFromEvent x) (hoThroughEvent x)
    (hoSummary x) (hoComplete x) (hoStatus x) (hoConfirmedBy x) (hoCreatedAt x).
Definition zeroHandoff : Handoff :=
  mkHandoff "" "" "" 0 0 0 "" false "" "" 0.

Record Assistance := mkAssistance {
  as_ID : string; as_ProjectID : string; as_RequesterTaskID : string; as_RequesterEpoch : Z;
  as_TargetTaskID : string; as_Mode : string; as_Text : string; as_Inputs : list SourceRef;
  as_Blocking : bool; as_State : string; as_ResultSubmissionID : string; as_Revision : Z;
  as_Deadline : Z; as_CreatedAt : Z }.
#[export] Instance Assistance_eta : Eta Assistance := λ x,
  mkAssistance (as_ID x) (as_ProjectID x) (as_RequesterTaskID x) (as_RequesterEpoch x)
    (as_TargetTaskID x) (as_Mode x) (as_Text x) (as_Inputs x) (as_Blocking x) (as_State x)
    (as_ResultSubmissionID x) (as_Revision x) (as_Deadline x) (as_CreatedAt x).
Definition zeroAssistance : Assistance :=
  mkAssistance "" "" "" 0 "" "" "" [] false "" "" 0 0 0.

Record KnowledgeRule := mkKnowledgeRule {
  krID : string; krProjectID : string; krTaskID : string; krText : string;
  krFailureClass : string; krSources : list SourceRef; krEvaluation : string; krState : string;
  krSupersedes : string; krApprovedBy : string; krRevision : Z; krCreatedAt : Z }.
#[export] Instance KnowledgeRule_eta : Eta KnowledgeRule := λ x,
  mkKnowledgeRule (krID x) (krProjectID x) (krTaskID x) (krText x) (krFailureClass x)
    (krSources x) (krEvaluation x) (krState x) (krSupersedes x) (krApprovedBy x) (krRevision x)
    (krCreatedAt x).
Definition zeroKnowledgeRule : KnowledgeRule :=
  mkKnowledgeRule "" "" "" "" "" [] "" "" "" "" 0 0.

Record CollaborationCommand := mkCollaborationCommand {
  ccCommand : Command; ccAuthorityInstanceID : string; ccEntityID : string;
  ccExpectedEntityRevision : Z; ccExpectedTaskRevision : Z; ccContractID : string;
  ccNonGoals : list string; ccCriteria : list Criterion; ccInputs : list SourceRef;
  ccSources : list SourceRef; ccReport : option ReportInput;
  ccDisposition : option DispositionInput; ccSubmission : option SubmissionInput;
  ccMode : string; ccBlocking : bool; ccComplete : bool; ccSupersedes : string;
  ccWaiver : string; ccEvaluation : string; ccDeadline : Z; ccMaxRevisions : Z }.
#[export] Instance CollaborationCommand_eta : Eta CollaborationCommand := λ x,
  mkCollaborationCommand (ccCommand x) (ccAuthorityInstanceID x) (ccEntityID x)
    (ccExpectedEntityRevision x) (ccExpectedTaskRevision x) (ccContractID x) (ccNonGoals x)
    (ccCriteria x) (ccInputs x) (ccSources x) (ccReport x) (ccDisposition x) (ccSubmission x)
    (ccMode x) (ccBlocking x) (ccComplete x) (ccSupersedes x) (ccWaiver x) (ccEvaluation x)
    (ccDeadline x) (ccMaxRevisions x).
Definition zeroCollaborationCommand : CollaborationCommand :=
  mkCollaborationCommand zeroCommand "" "" 0 0 "" [] [] [] [] None None None "" false false ""
    "" "" 0 0.

Record CollaborationResult := mkCollaborationResult {
  clResult : Result; clEntityID : string; clEntityRevision : Z; clActionableID : string }.
#[export] Instance CollaborationResult_eta : Eta CollaborationResult := λ x,
  mkCollaborationResult (clResult x) (clEntityID x) (clEntityRevision x) (clActionableID x).
Definition zeroCollaborationResult : CollaborationResult :=
  mkCollaborationResult zeroResult "" 0 "".
#[global] Instance CollaborationResult_eq_dec : EqDecision CollaborationResult.
Proof. solve_decision. Defined.

Record CollaborationState := mkCollaborationState {
  csTasks : gmap string TaskCoordination; csContracts : gmap string TaskContract;
  csGrants : gmap string Grant; csManifests : gmap string ContextManifest;
  csReports : gmap string WorkerReport; csActionables : gmap string Actionable;
  csDispositions : gmap string Disposition; csArtifacts : gmap string Artifact;
  csEvidence : gmap string Evidence; csSubmissions : gmap string Submission;
  csDecisions : gmap string Decision; csHandoffs : gmap string Handoff;
  csAssistance : gmap string Assistance; csKnowledge : gmap string KnowledgeRule;
  csReceipts : gmap string (receipt CollaborationResult) }.
#[export] Instance CollaborationState_eta : Eta CollaborationState := λ x,
  mkCollaborationState (csTasks x) (csContracts x) (csGrants x) (csManifests x) (csReports x)
    (csActionables x) (csDispositions x) (csArtifacts x) (csEvidence x) (csSubmissions x)
    (csDecisions x) (csHandoffs x) (csAssistance x) (csKnowledge x) (csReceipts x).
Definition zeroCollaborationState : CollaborationState :=
  mkCollaborationState ∅ ∅ ∅ ∅ ∅ ∅ ∅ ∅ ∅ ∅ ∅ ∅ ∅ ∅ ∅.

Record State := mkState {
  stRevision : Z; stProjects : gmap string Project; stTasks : gmap string Task;
  stEvents : list Event; stReceipts : gmap string (receipt Result);
  stCollaboration : option CollaborationState }.
#[export] Instance State_eta : Eta State := λ x,
  mkState (stRevision x) (stProjects x) (stTasks x) (stEvents x) (stReceipts x)
    (stCollaboration x).
Definition zeroState : State :=
  mkState 0 ∅ ∅ [] ∅ None.
