(* ===== verification/Coordination.v ===== *)
(** * The PM and worker policy

    [src/internal/coordination/domain.go]: projects, tasks, the event log and
    the receipts, and the one entry point [Apply] by which humans and model
    tools change them.

    [Apply] changes the state only after its last check, so an operation is a
    function to the new state and its result, or an error.  The hash of a
    command's intent (SHA-256 of its JSON) is a parameter.  Strings are UTF-8,
    so JSON keeps them.  A range over a map that stops at the first match takes
    the values in the order of the walk. *)

From S2P Require Import Prelude CoordTypes.

Definition outcome (R : Type) : Type := (State * R) + string.

(** [if b { return out, e }] *)
Notation "'refuse' e 'when' b ; k" := (if b then inr e else k)
  (at level 200, e at level 9, b at level 99, k at level 200, right associativity) : bridge_scope.

Definition ErrConflict : string := "pm_revision_conflict".
Definition ErrForbidden : string := "pm_forbidden".

(** ** The state *)
Definition NewState : State := mkState 0 ∅ ∅ [] ∅ None.

Definition project_of (s : State) (id : string) : Project := default zeroProject (stProjects s !! id).
Definition task_of (s : State) (id : string) : Task := default zeroTask (stTasks s !! id).
Definition putProject (p : Project) (id : string) (s : State) : State :=
  s <| stProjects := <[id := p]> (stProjects s) |>.
Definition putTask (t : Task) (id : string) (s : State) : State :=
  s <| stTasks := <[id := t]> (stTasks s) |>.

Definition actor (p : Principal) : string :=
  if bool_decide (prID p = "system") then "system"
  else if prHuman p then String.append "human:" (prID p)
  else String.append "agent:" (prSessionID p).

Definition AddEvent (p : Principal) (projectID taskID kind text requestID : string) (at_ : Z)
    (wake : bool) (s : State) : State :=
  let rev := u64_succ (stRevision s) in
  let s := s <| stRevision := rev |>
             <| stEvents := stEvents s ++
                  [mkEvent rev projectID taskID kind (actor p) (prSessionID p) requestID text at_] |> in
  let project := (project_of s projectID) <| pjRevision := rev |> in
  putProject (if wake then project <| pjPendingThrough := rev |> else project) projectID s.

(** The values of the two maps in the order they are walked. *)
Record walk := mkWalk { wkProjects : list Project; wkTasks : list Task }.
Definition walk_of (w : walk) (s : State) : Prop :=
  wkProjects w ≡ₚ (map_to_list (stProjects s)).*2 ∧ wkTasks w ≡ₚ (map_to_list (stTasks s)).*2.

Definition ProjectForSession (w : walk) (id : string) (s : State) : option (Project * option Task) :=
  match find (λ p, bool_decide (pjPMSessionID p = id)) (wkProjects w) with
  | Some p => Some (p, None)
  | None =>
      match find (λ t, bool_decide (tkSessionID t = id)) (wkTasks w) with
      | Some t => match stProjects s !! tkProjectID t with
                  | Some p => Some (p, Some t)
                  | None => None
                  end
      | None => None
      end
  end.

Definition Authorize (p : Principal) (projectID : string) (s : State) : error :=
  match stProjects s !! projectID with
  | None => Some "pm_project_not_found"
  | Some project =>
      if prHuman p && negb (str_empty (prID p)) then None
      else if bool_decide (prSessionID p = pjPMSessionID project) && negb (str_empty (prID p)) then None
      else Some ErrForbidden
  end.

(** ** Profiles *)
Definition ProfileID : string := "delegation_only_v1".
Definition profileVersion : Z := 1.
Definition profileMaxTasks : Z := 12.
Definition profileMaxRounds : Z := 24.

(** ** The actions *)
Definition cat (l : list string) : string := foldr String.append "" l.
Definition pad2 (n : Z) : string := if n <? 10 then String.append "0" (decimal n) else decimal n.
Definition runID (id : string) (epoch : Z) : string := cat ["wr_"; id; "_e"; decimal epoch].
Definition requestID (id : string) (epoch : Z) : string := cat ["pmrun_"; id; "_e"; decimal epoch].

Definition createProject (p : Principal) (c : Command) (at_ : Z) (s : State) : outcome Result :=
  refuse ErrForbidden when negb (prHuman p);
  refuse "pm_invalid_project" when
    str_empty (cmProjectID c) || str_empty (cmCwd c) || blank (cmName c) || (240 <? str_len (cmName c));
  refuse "pm_project_exists" when bool_decide (is_Some (stProjects s !! cmProjectID c));
  refuse "pm_workspace_already_managed" when
    existsb (λ kp, bool_decide (pjCwd kp.2 = cmCwd c)) (map_to_list (stProjects s));
  let maxTasks := if cmMaxTasks c =? 0 then profileMaxTasks else cmMaxTasks c in
  let maxRounds := if cmMaxRounds c =? 0 then profileMaxRounds else cmMaxRounds c in
  refuse "pm_invalid_limits" when
    (maxTasks <? 1) || (24 <? maxTasks) || (maxRounds <? 1) || (100 <? maxRounds);
  let pmID := String.append "pm_" (cmProjectID c) in
  let project := zeroProject <| pjID := cmProjectID c |> <| pjName := trim_space (cmName c) |>
    <| pjCwd := cmCwd c |> <| pjCwdAlias := cmCwdAlias c |> <| pjPMSessionID := pmID |>
    <| pjProfileID := ProfileID |> <| pjProfileVersion := profileVersion |> <| pjMode := "discussion" |>
    <| pjMaxTasks := maxTasks |> <| pjMaxRounds := maxRounds |> in
  let s := putProject project (cmProjectID c) s in
  let s := AddEvent p (cmProjectID c) "" "project_created" "主對話已建立；目前僅討論，尚未授權派工。" "" at_ false s in
  inl (s, mkResult (cmProjectID c) "" pmID (stRevision s)).

(** The checks every proposal passes; [Some] is the sandbox it will have. *)
Definition proposalSandbox (c : Command) : string + string :=
  refuse "pm_invalid_task" when
    (240 <? str_len (cmTitle c)) || blank (cmTitle c) || blank (cmReason c) || blank (cmInstruction c)
    || blank (cmAcceptance c) || (16000 <? str_len (cmInstruction c)) || (4000 <? str_len (cmReason c))
    || (4000 <? str_len (cmAcceptance c));
  refuse "pm_worker_backend_unsupported" when
    negb (bool_decide (cmBackend c = "codex")) && negb (bool_decide (cmBackend c = "claude"));
  let sandbox := if str_empty (cmSandbox c) then "read-only" else cmSandbox c in
  refuse "pm_worker_sandbox_forbidden" when
    negb (bool_decide (sandbox = "read-only")) && negb (bool_decide (sandbox = "workspace-write"));
  refuse "pm_claude_worker_read_only_use_codex_for_changes" when
    bool_decide (cmBackend c = "claude") && negb (bool_decide (sandbox = "read-only"));
  inl sandbox.

Definition settled (state : string) : bool :=
  bool_decide (state = "review") || bool_decide (state = "failed") || bool_decide (state = "uncertain").

(** The task of a command, when it belongs to the command's project. *)
Definition taskFor (c : Command) (s : State) : Task + string :=
  match stTasks s !! cmTaskID c with
  | Some t => if bool_decide (tkProjectID t = cmProjectID c) then inl t else inr "pm_task_not_found"
  | None => inr "pm_task_not_found"
  end.

(** The result of an operation inside an existing project. *)
Definition resultOf (c : Command) (taskID sessionID : string) (s : State) : outcome Result :=
  inl (s, mkResult (cmProjectID c) taskID sessionID (stRevision s)).

Definition reviseTask (p : Principal) (c : Command) (sandbox : string) (at_ : Z) (s : State) : outcome Result :=
  match taskFor c s with
  | inr e => inr e
  | inl task =>
      refuse "pm_human_controls_task" when negb (bool_decide (tkOwner task = "pm"));
      refuse "pm_result_not_ready" when negb (settled (tkState task));
      refuse "pm_worker_policy_changed" when
        negb (bool_decide (cmBackend c = tkBackend task)) || negb (bool_decide (sandbox = tkSandbox task));
      let epoch := u64_succ (tkEpoch task) in
      let task := task <| tkInstruction := cmInstruction c |> <| tkReason := cmReason c |>
        <| tkAcceptance := cmAcceptance c |> <| tkOriginRequestID := cmOriginRequestID c |>
        <| tkState := "proposed" |> <| tkEpoch := epoch |>
        <| tkRunID := runID (tkID task) epoch |> <| tkRequestID := requestID (tkID task) epoch |> in
      let s := AddEvent p (cmProjectID c) (tkID task) "revision_proposed" (cmReason c)
                 (cmOriginRequestID c) at_ false s in
      let s := putTask (task <| tkRevision := stRevision s |>) (tkID task) s in
      resultOf c (tkID task) (tkSessionID task) s
  end.

Definition tasksOf (projectID : string) (s : State) : gmap string Task :=
  filter (λ kt, tkProjectID kt.2 = projectID) (stTasks s).
Definition unfinished (projectID : string) (s : State) : gmap string Task :=
  filter (λ kt, tkState kt.2 ≠ "done") (tasksOf projectID s).

Definition proposeTask (p : Principal) (c : Command) (sandbox : string) (at_ : Z) (s : State) : outcome Result :=
  let count := Z.of_nat (size (tasksOf (cmProjectID c) s)) in
  refuse "pm_task_limit" when
    pjMaxTasks (project_of s (cmProjectID c)) <=? Z.of_nat (size (unfinished (cmProjectID c) s));
  let id := cat [cmProjectID c; "_w"; pad2 (count + 1)] in
  let t := mkTask id (cmProjectID c) (count + 1) (trim_space (cmTitle c)) (cmReason c) (cmInstruction c)
    (cmAcceptance c) (cmBackend c) (cmModel c) sandbox "proposed" "pm" 1 (String.append "s_" id)
    (String.append "wi_" id) (String.append "wr_" id) (String.append "pmrun_" id) (cmOriginRequestID c)
    0 "" "" "" "" 0 false in
  let s := AddEvent p (cmProjectID c) id "task_proposed" (tkReason t) (cmOriginRequestID c) at_ false s in
  let s := putTask (t <| tkRevision := stRevision s |>) id s in
  resultOf c id "" s.

(** What a human action does to the task, the text of its event, and whether
    the project becomes active; or why it is refused. *)
Definition humanTask (p : Principal) (c : Command) (t : Task) : Task * string + string :=
  let text := cmText c in
  if bool_decide (cmAction c = "approve") then
    refuse "pm_task_not_proposed" when negb (bool_decide (tkState t = "proposed"));
    inl (t <| tkState := "approved" |> <| tkApprovedBy := prID p |>, "使用者批准此版本任務與權限。")
  else if bool_decide (cmAction c = "take_over") then
    refuse "pm_task_not_started" when bool_decide (tkState t = "proposed") || negb (tkProvisioned t);
    inl (t <| tkOwner := "human" |> <| tkEpoch := u64_succ (tkEpoch t) |>,
         "使用者接管；PM 的未執行指令已失效。")
  else if bool_decide (cmAction c = "return_to_pm") then
    refuse "pm_not_human_controlled" when negb (bool_decide (tkOwner t = "human"));
    refuse "pm_handback_summary_required" when blank text;
    inl (t <| tkOwner := "pm" |> <| tkEpoch := u64_succ (tkEpoch t) |> <| tkDecision := text |>, text)
  else if bool_decide (cmAction c = "accept") then
    refuse "pm_result_not_ready" when negb (bool_decide (tkState t = "review"));
    inl (t <| tkState := "done" |> <| tkAcceptedBy := prID p |>, "使用者驗收完成。")
  else (* "rework" *)
    refuse "pm_result_not_ready" when negb (settled (tkState t));
    refuse "pm_rework_reason_required" when blank text;
    let epoch := u64_succ (tkEpoch t) in
    inl (t <| tkState := "approved" |> <| tkApprovedBy := prID p |> <| tkInstruction := text |>
           <| tkDecision := text |> <| tkEpoch := epoch |> <| tkRunID := runID (tkID t) epoch |>
           <| tkRequestID := requestID (tkID t) epoch |> <| tkProvisioned := false |>, text).

Definition humanAction (p : Principal) (c : Command) (at_ : Z) (s : State) : outcome Result :=
  refuse ErrForbidden when negb (prHuman p);
  match taskFor c s with
  | inr e => inr e
  | inl t =>
      match humanTask p c t with
      | inr e => inr e
      | inl (t, text) =>
          let s := if bool_decide (cmAction c = "approve")
                   then putProject ((project_of s (cmProjectID c)) <| pjMode := "active" |>) (cmProjectID c) s
                   else s in
          let s := AddEvent p (cmProjectID c) (tkID t) (cmAction c) text "" at_ true s in
          let s := putTask (t <| tkRevision := stRevision s |>) (tkID t) s in
          resultOf c (tkID t) (tkSessionID t) s
      end
  end.

Definition dispatchTask (p : Principal) (c : Command) (at_ : Z) (s : State) : outcome Result :=
  refuse "pm_execution_not_authorized" when
    negb (bool_decide (pjMode (project_of s (cmProjectID c)) = "active"));
  match taskFor c s with
  | inr e => inr e
  | inl t =>
      refuse "pm_human_controls_task" when negb (bool_decide (tkOwner t = "pm"));
      refuse "pm_task_not_approved" when negb (bool_decide (tkState t = "approved"));
      let t := t <| tkState := "provisioning" |> <| tkDispatchEpoch := tkEpoch t |> in
      let s := AddEvent p (cmProjectID c) (tkID t) "task_delegated" (tkInstruction t) (tkRequestID t) at_ false s in
      let s := putTask (t <| tkRevision := stRevision s |>) (tkID t) s in
      resultOf c (tkID t) (tkSessionID t) s
  end.

Definition setMode (p : Principal) (c : Command) (at_ : Z) (s : State) : outcome Result :=
  refuse ErrForbidden when negb (prHuman p);
  let project := project_of s (cmProjectID c) in
  let pause := bool_decide (cmAction c = "pause") in
  let project := if pause then project <| pjMode := "paused" |>
                 else project <| pjMode := "active" |> <| pjRounds := 0 |> in
  let s := putProject project (cmProjectID c) s in
  let s := AddEvent p (cmProjectID c) "" (cmAction c) (String.append "協調模式：" (pjMode project)) "" at_
             (negb pause) s in
  resultOf c "" "" s.

Definition humanActions : list string := ["approve"; "take_over"; "return_to_pm"; "accept"; "rework"].

Definition applyInProject (p : Principal) (c : Command) (at_ : Z) (s : State) : outcome Result :=
  match Authorize p (cmProjectID c) s with
  | Some e => inr e
  | None =>
      refuse ErrConflict when negb (cmExpectedRevision c =? pjRevision (project_of s (cmProjectID c)));
      if bool_decide (cmAction c = "propose") then
        match proposalSandbox c with
        | inr e => inr e
        | inl sandbox => if str_empty (cmTaskID c) then proposeTask p c sandbox at_ s
                         else reviseTask p c sandbox at_ s
        end
      else if bool_decide (cmAction c ∈ humanActions) then humanAction p c at_ s
      else if bool_decide (cmAction c = "dispatch") then dispatchTask p c at_ s
      else if bool_decide (cmAction c = "pause") || bool_decide (cmAction c = "resume") then setMode p c at_ s
      else inr "pm_unknown_action"
  end.

Definition applyAction (p : Principal) (c : Command) (at_ : Z) (s : State) : outcome Result :=
  if bool_decide (cmAction c = "create") then createProject p c at_ s else applyInProject p c at_ s.

(** ** Receipts *)
Definition maxReceipts : nat := 20000.
(** What the hashed JSON holds: [CwdAlias] is not in it. *)
Definition intent (c : Command) : Command :=
  c <| cmCwdAlias := "" |> <| cmExpectedRevision := 0 |> <| cmMutationID := "" |> <| cmOriginRequestID := "" |>.
Definition receiptKey (p : Principal) (c : Command) : string :=
  cat [prID p; ":"; prSessionID p; ":"; cmMutationID c].

Section apply.
Context (hash : Command → string).

(** [tooLarge] and [anonymous] are the checks made before the receipts. *)
Definition tooLarge (c : Command) : bool :=
  (32000 <? str_len (cmText c)) || (4096 <? str_len (cmCwd c)) || (200 <? str_len (cmModel c)).
Definition anonymous (p : Principal) (c : Command) : bool :=
  str_empty (prID p) || str_empty (cmMutationID c) || (100 <? str_len (cmMutationID c)).

Definition applyLegacy (p : Principal) (c : Command) (at_ : Z) (s : State) : outcome Result :=
  refuse "pm_request_too_large" when tooLarge c;
  refuse "pm_identity_and_mutation_required" when anonymous p c;
  let key := receiptKey p c in
  let intentHash := hash (intent c) in
  match stReceipts s !! key with
  | Some (BadReceipt e) => inr e
  | Some (Receipt result prior) =>
  refuse "pm_mutation_reused_with_different_intent" when
  negb (str_empty prior) && negb (bool_decide (prior = intentHash));
  inl (s, result)
  | None =>
  refuse "pm_receipt_limit" when (maxReceipts <=? size (stReceipts s))%nat;
  match applyAction p c at_ s with
  | inr e => inr e
  | inl (s, result) =>
    inl (s <| stReceipts := <[key := Receipt result intentHash]> (stReceipts s) |>, result)
  end
  end.

Definition Apply (p : Principal) (c : Command) (at_ : Z) (s : State) : outcome Result :=
  refuse "protocol_upgrade_required" when pjEngineVersion (project_of s (cmProjectID c)) =? 2;
  applyLegacy p c at_ s.

(** One call after another; a refused command leaves the state. *)
Definition step (s : State) (call : Principal * Command * Z) : State :=
  let '(p, c, at_) := call in match Apply p c at_ s with inl (s', _) => s' | inr _ => s end.
End apply.

(** ** Admission of a worker's turn *)
Definition WorkerAllowed (w : walk) (sessionID request : string) (s : State) : bool :=
  match ProjectForSession w sessionID s with
  | Some (p, Some t) =>
      if negb (has_prefix "pmrun_" request) then bool_decide (tkOwner t = "human")
      else bool_decide (pjMode p = "active") && bool_decide (tkOwner t = "pm")
           && (tkEpoch t =? tkDispatchEpoch t) && bool_decide (tkRequestID t = request)
           && (bool_decide (tkState t = "provisioning") || bool_decide (tkState t = "queued")
               || bool_decide (tkState t = "running"))
  | _ => true
  end.

(** ** The host's transactions

    [src/internal/core/pm_collaboration.go]: what the Bridge itself records
    about a worker's task.  Each is one [UpdateCollaboration] transaction. *)
Definition system : Principal := zeroPrincipal <| prID := "system" |>.

(** [AdmitTurn], after its checks: the turn was handed to the worker. *)
Definition admitTurn (taskID sessionID request : string) (projectID : string) (at_ : Z) (s : State) : State :=
  let current := (task_of s taskID) <| tkState := "running" |> in
  let s := AddEvent (system <| prSessionID := sessionID |>) projectID taskID "turn_admitted"
             "執行已送入工作對話。" request at_ false s in
  putTask (current <| tkRevision := stRevision s |>) taskID s.

(** [reconcilePM], when the worker's conversation exists. *)
Definition queueTask (t : Task) (projectID : string) (at_ : Z) (s : State) : State :=
  let current := task_of s (tkID t) in
  if negb (bool_decide (tkState current = "provisioning")) then s
  else
    let current := current <| tkProvisioned := true |> <| tkState := "queued" |> in
    let s := AddEvent system projectID (tkID t) "task_queued" "工作對話已建立並排入執行。" (tkRequestID t) at_ false s in
    putTask (current <| tkRevision := stRevision s |>) (tkID t) s.

(** [finishPMTurn] for the turn of a worker of a version 1 project; [text] is
    the answer, cut to 12000 graphemes. *)
Definition finishWorker (w : walk) (sessionID request status text : string) (at_ : Z) (s : State) : State :=
  match ProjectForSession w sessionID s with
  | Some (p, Some t) =>
      if negb (bool_decide (request = tkRequestID t)) && negb (bool_decide (tkOwner t = "human")) then s
      else
        let key := cat ["terminal:"; sessionID; ":"; request] in
        if bool_decide (is_Some (stReceipts s !! key)) then s
        else
          let s := s <| stReceipts := <[key := Receipt zeroResult ""]> (stReceipts s) |> in
          let t := t <| tkResult := text |>
                     <| tkState := if bool_decide (status = "succeeded") then "review" else "failed" |> in
          let s := AddEvent (system <| prSessionID := sessionID |>) (pjID p) (tkID t)
                     (String.append "worker_" status) (tkResult t) request at_ true s in
          putTask (t <| tkRevision := stRevision s |>) (tkID t) s
  | _ => s
  end.

Definition uncertainResult : string :=
  "Bridge 在工作執行期間重新啟動。請先查看原對話與實際成果，再決定是否要求修改；系統不會自動重跑。".

(** [recoverPMCollaboration] at start, for one task of a version 1 project. *)
Definition recoverTask (at_ : Z) (s : State) (id : string) : State :=
  match stTasks s !! id with
  | Some t =>
      if bool_decide (tkState t = "running") && negb (pjEngineVersion (project_of s (tkProjectID t)) =? 2) then
        let t := t <| tkState := "uncertain" |> <| tkEpoch := u64_succ (tkEpoch t) |>
                   <| tkResult := uncertainResult |> in
        let s := AddEvent system (tkProjectID t) id "execution_uncertain" (tkResult t) (tkRequestID t) at_ true s in
        putTask (t <| tkRevision := stRevision s |>) id s
      else s
  | None => s
  end.
