(* ===== verification/CoordProps.v ===== *)
(** * Theorems about the PM and worker policy

    Invariants of the state and guarantees of authority, for the definitions
    of [Coordination] composed with the host's transactions. *)

From S2P Require Import Prelude Decimal CoordTypes Coordination.

(** ** The policy and its host as one machine *)
Inductive event :=
  | ECall (p : Principal) (c : Command) (at_ : Z)
  | EAdmit (w : walk) (sessionID request : string) (at_ : Z)
  | EQueue (id : string) (at_ : Z)
  | EFinish (w : walk) (sessionID request status text : string) (at_ : Z)
  | ERecover (id : string) (at_ : Z).

Section machine.
Context (hash : Command → string).

(** The host admits a turn only when [WorkerAllowed].  It queues a task it saw
being provisioned; of what it saw only the state is looked at again, so
nothing else is assumed here. *)
Definition run (s : State) (e : event) : State :=
  match e with
  | ECall p c at_ => step hash s (p, c, at_)
  | EAdmit w sessionID request at_ =>
  match ProjectForSession w sessionID s with
  | Some (p, Some t) => if WorkerAllowed w sessionID request s
                      then admitTurn (tkID t) sessionID request (pjID p) at_ s else s
  | _ => s
  end
  | EQueue id at_ =>
  match stTasks s !! id with
  | Some t => queueTask t (pjID (project_of s (tkProjectID t))) at_ s
  | None => s
  end
  | EFinish w sessionID request status text at_ => finishWorker w sessionID request status text at_ s
  | ERecover id at_ => recoverTask at_ s id
  end.
End machine.

(** Every map a range walks over holds what the walk says. *)
Definition event_ok (s : State) (e : event) : Prop :=
  match e with
  | EAdmit w _ _ _ | EFinish w _ _ _ _ _ => walk_of w s
  | _ => True
  end.

Fixpoint run_all (hash : Command → string) (evs : list event) (s : State) : State :=
  match evs with [] => s | e :: evs => run_all hash evs (run hash s e) end.
Fixpoint events_ok (hash : Command → string) (evs : list event) (s : State) : Prop :=
  match evs with [] => True | e :: evs => event_ok s e ∧ events_ok hash evs (run hash s e) end.

(** ** Names *)
Definition taskName (projectID : string) (n : Z) : string := cat [projectID; "_w"; pad2 n].

Lemma append_nil s : String.append s "" = s.
Proof. induction s as [|a s IH]; [done|]. change (String a (String.append s "") = String a s). by rewrite IH. Qed.

Lemma pad2_value n : 0 ≤ n → numeral (pad2 n) ∧ value 0 (pad2 n) = n.
Proof.
  intros Hn. destruct (decimal_value n Hn) as [H1 H2]. unfold pad2. destruct (n <? 10); [|done].
  split; [by constructor|]. done.
Qed.

Lemma taskName_inj p q m n : 0 ≤ m → 0 ≤ n → taskName p m = taskName q n → p = q ∧ m = n.
Proof.
  intros Hm Hn E. destruct (pad2_value m Hm) as [M1 M2], (pad2_value n Hn) as [N1 N2].
  unfold taskName, cat in E. cbn [foldr] in E. rewrite !append_nil in E.
  destruct (split_name p q "_" (Ascii.ascii_of_nat 119) (pad2 m) (pad2 n)) as [-> E']; [done..|]. split; [done|]. congruence.
Qed.

Lemma requestID_inj id j k : 0 ≤ j → 0 ≤ k → requestID id j = requestID id k → j = k.
Proof.
  intros Hj Hk E. unfold requestID, cat in E. cbn [foldr] in E. rewrite !append_nil in E.
  apply append_inj, append_inj, append_inj in E. by apply decimal_inj.
Qed.

Lemma string_length_append a b : String.length (String.append a b) = (String.length a + String.length b)%nat.
Proof. induction a as [|c a IH]; simpl; [done|]. by rewrite IH. Qed.

Lemma requestID_not_first id k : requestID id k ≠ String.append "pmrun_" id.
Proof.
  intros E. apply (f_equal String.length) in E. unfold requestID, cat in E. cbn [foldr] in E.
  rewrite !string_length_append in E. simpl in E. lia.
Qed.

(** ** The invariant *)
Record task_ok (s : State) (id : string) (t : Task) : Prop := {
  to_id : tkID t = id;
  to_session : tkSessionID t = String.append "s_" id;
  to_project : is_Some (stProjects s !! tkProjectID t);
  to_epoch : 0 ≤ tkDispatchEpoch t ≤ tkEpoch t;
  to_request : tkRequestID t = String.append "pmrun_" id ∨
    ∃ k, 0 ≤ k ≤ tkEpoch t ∧ tkRequestID t = requestID id k }.

Record project_ok (id : string) (p : Project) : Prop := {
  po_id : pjID p = id;
  po_session : pjPMSessionID p = String.append "pm_" id }.

Record wf (s : State) : Prop := {
  wf_tasks : ∀ id t, stTasks s !! id = Some t → task_ok s id t;
  wf_numbers : ∀ id t, stTasks s !! id = Some t →
    id = taskName (tkProjectID t) (tkNumber t) ∧ 1 ≤ tkNumber t ≤ Z.of_nat (size (tasksOf (tkProjectID t) s));
  wf_projects : ∀ id p, stProjects s !! id = Some p → project_ok id p }.

Definition epochs_below (n : Z) (s : State) : Prop := ∀ id t, stTasks s !! id = Some t → tkEpoch t ≤ n.

(** What one event does to a task that exists. *)
Record evolves (t t' : Task) : Prop := {
  e_id : tkID t' = tkID t;
  e_number : tkNumber t' = tkNumber t;
  e_project : tkProjectID t' = tkProjectID t;
  e_session : tkSessionID t' = tkSessionID t;
  e_policy : tkBackend t' = tkBackend t ∧ tkSandbox t' = tkSandbox t;
  e_epoch : tkEpoch t ≤ tkEpoch t' ≤ tkEpoch t + 1;
  e_request :
    (tkRequestID t' = tkRequestID t ∧
     (tkState t' ∈ ["proposed"; "approved"] → tkState t ∈ ["proposed"; "approved"]) ∧
     (tkDispatchEpoch t' = tkDispatchEpoch t ∨
      tkState t = "approved" ∧ tkEpoch t' = tkEpoch t ∧ tkDispatchEpoch t' = tkEpoch t)) ∨
    (tkRequestID t' = requestID (tkID t) (tkEpoch t') ∧ tkEpoch t' = tkEpoch t + 1 ∧
     tkDispatchEpoch t' = tkDispatchEpoch t) }.

Lemma evolves_refl t : evolves t t.
Proof. split; try done; [lia|]. left. auto. Qed.

(** A task as [propose] makes it. *)
Record fresh_task (id : string) (t : Task) : Prop := {
  ft_id : tkID t = id;
  ft_session : tkSessionID t = String.append "s_" id;
  ft_epoch : tkEpoch t = 1 ∧ tkDispatchEpoch t = 0;
  ft_request : tkRequestID t = String.append "pmrun_" id;
  ft_state : tkState t = "proposed" ∧ tkOwner t = "pm" ∧ tkApprovedBy t = "" ∧ tkAcceptedBy t = "" }.

(** *** Events leave the tasks alone *)
Lemma AddEvent_tasks p pid tid k txt rid at_ w s : stTasks (AddEvent p pid tid k txt rid at_ w s) = stTasks s.
Proof. unfold AddEvent. by destruct w. Qed.
Lemma AddEvent_receipts p pid tid k txt rid at_ w s : stReceipts (AddEvent p pid tid k txt rid at_ w s) = stReceipts s.
Proof. unfold AddEvent. by destruct w. Qed.

Lemma AddEvent_project p pid tid k txt rid at_ w s j :
  ∃ rev thr, stProjects (AddEvent p pid tid k txt rid at_ w s) !! j =
    if decide (j = pid) then Some ((project_of s pid) <| pjRevision := rev |> <| pjPendingThrough := thr |>)
    else stProjects s !! j.
Proof.
  unfold AddEvent, putProject. exists (u64_succ (stRevision s)).
  exists (if w then u64_succ (stRevision s) else pjPendingThrough (project_of s pid)).
  case_decide as E; [subst j|]; destruct w; cbn; rewrite ?lookup_insert_eq, ?lookup_insert_ne by done; try done.
Qed.

Lemma project_of_some s id p : stProjects s !! id = Some p → project_of s id = p.
Proof. unfold project_of. by intros ->. Qed.

(** Projects other than by creation: the same ones, the same identity. *)
Definition same_projects (s s' : State) : Prop :=
  ∀ id, (stProjects s !! id = None → stProjects s' !! id = None) ∧
        (∀ p, stProjects s !! id = Some p → ∃ p', stProjects s' !! id = Some p' ∧
           pjID p' = pjID p ∧ pjPMSessionID p' = pjPMSessionID p ∧ pjMaxTasks p' = pjMaxTasks p ∧
           pjEngineVersion p' = pjEngineVersion p).

Lemma same_projects_refl s : same_projects s s.
Proof. intros id. split; [done|]. intros p Hp. exists p. by split_and!. Qed.

Lemma same_projects_trans s1 s2 s3 : same_projects s1 s2 → same_projects s2 s3 → same_projects s1 s3.
Proof.
  intros H12 H23 id. destruct (H12 id) as [N1 S1], (H23 id) as [N2 S2]. split; [auto|].
  intros p Hp. destruct (S1 p Hp) as (p2 & Hp2 & A1 & A2 & A3 & A4).
  destruct (S2 p2 Hp2) as (p3 & Hp3 & B1 & B2 & B3 & B4). exists p3. split_and!; congruence.
Qed.

Lemma AddEvent_same p pid tid k txt rid at_ w s :
  is_Some (stProjects s !! pid) → same_projects s (AddEvent p pid tid k txt rid at_ w s).
Proof.
  intros [q Hq] id. destruct (AddEvent_project p pid tid k txt rid at_ w s id) as (rev & thr & ->).
  case_decide as E; [subst id|split; [done|]; intros q' Hq'; exists q'; by split_and!].
  split; [congruence|]. intros q' Hq'. rewrite (project_of_some s pid q') by done. eexists. by split_and!.
Qed.

Lemma putProject_same f id s :
  (∀ p, pjID (f p) = pjID p ∧ pjPMSessionID (f p) = pjPMSessionID p ∧ pjMaxTasks (f p) = pjMaxTasks p ∧
        pjEngineVersion (f p) = pjEngineVersion p) →
  is_Some (stProjects s !! id) → same_projects s (putProject (f (project_of s id)) id s).
Proof.
  intros Hf [q Hq] j. unfold putProject. cbn. rewrite (project_of_some s id q Hq).
  destruct (decide (id = j)) as [->|E]; [|rewrite lookup_insert_ne by done; apply same_projects_refl].
  rewrite lookup_insert_eq. split; [congruence|]. intros p Hp. assert (p = q) as -> by congruence.
  destruct (Hf q) as (? & ? & ? & ?). eexists. by split_and!.
Qed.

Definition keeps_project (s : State) (id : string) (p' : Project) : Prop :=
  ∃ p, stProjects s !! id = Some p ∧ pjID p' = pjID p ∧ pjPMSessionID p' = pjPMSessionID p ∧
       pjEngineVersion p' = pjEngineVersion p.
Definition opens_project (s : State) (id : string) (p' : Project) : Prop :=
  stProjects s !! id = None ∧ project_ok id p' ∧ pjEngineVersion p' = 0.

(** What one event does to the tasks: it moves those that exist, keeps them
    all, and adds at most the next one of a project. *)
Record acts (s s' : State) : Prop := {
  a_tasks : ∀ id t', stTasks s' !! id = Some t' →
    (∃ t, stTasks s !! id = Some t ∧ evolves t t') ∨
    (stTasks s !! id = None ∧ fresh_task id t' ∧ is_Some (stProjects s' !! tkProjectID t') ∧
     id = taskName (tkProjectID t') (tkNumber t') ∧
     tkNumber t' = Z.of_nat (size (tasksOf (tkProjectID t') s)) + 1);
  a_keep : ∀ id, is_Some (stTasks s !! id) → is_Some (stTasks s' !! id);
  a_projects : ∀ id p', stProjects s' !! id = Some p' → keeps_project s id p' ∨ opens_project s id p';
  a_project_keep : ∀ id, is_Some (stProjects s !! id) → is_Some (stProjects s' !! id) }.

Lemma same_projects_acts s s' :
  same_projects s s' →
  (∀ id p', stProjects s' !! id = Some p' →
    keeps_project s id p' ∨ opens_project s id p') ∧
  (∀ id, is_Some (stProjects s !! id) → is_Some (stProjects s' !! id)).
Proof.
  intros H. split.
  - intros id p' Hp'. left. destruct (stProjects s !! id) as [p|] eqn:E.
    + destruct (H id) as [_ HS]. destruct (HS p E) as (p2 & H2 & ? & ? & _ & ?). exists p.
      assert (p2 = p') as -> by congruence. done.
    + destruct (H id) as [HN _]. by rewrite HN in Hp'.
  - intros id [p Hp]. destruct (H id) as [_ HS]. destruct (HS p Hp) as (p2 & H2 & _). by exists p2.
Qed.

Lemma acts_same s s' : same_projects s s' → stTasks s' = stTasks s → acts s s'.
Proof.
  intros Hp Ht. destruct (same_projects_acts s s' Hp) as [H1 H2]. split; [|by rewrite Ht|done|done].
  intros id t'. rewrite Ht. intros Ht'. left. exists t'. split; [done|apply evolves_refl].
Qed.

Lemma putTask_tasks t id s : stTasks (putTask t id s) = <[id := t]> (stTasks s).
Proof. done. Qed.
Lemma putTask_keeps t id s : ∀ j, is_Some (stTasks s !! j) → is_Some (stTasks (putTask t id s) !! j).
Proof.
  intros j Hj. rewrite putTask_tasks. destruct (decide (id = j)) as [->|];
    [rewrite lookup_insert_eq; by eexists|by rewrite lookup_insert_ne].
Qed.

(** One task moves. *)
Lemma acts_move s s1 t t' id :
  same_projects s s1 → stTasks s1 = stTasks s → stTasks s !! id = Some t → evolves t t' →
  acts s (putTask t' id s1).
Proof.
  intros Hp Ht Hid He. destruct (same_projects_acts s s1 Hp) as [H1 H2]. split; [| |done|done].
  - intros j x. rewrite putTask_tasks, Ht. intros [[<- <-]|[_ Hx]]%lookup_insert_Some.
    + left. by exists t.
    + left. exists x. split; [done|apply evolves_refl].
  - intros j Hj. apply putTask_keeps. by rewrite Ht.
Qed.

Lemma size_mono (m1 m2 : gmap string Task) : dom m1 ⊆ dom m2 → (size m1 ≤ size m2)%nat.
Proof. intros H. rewrite <- !size_dom. by apply subseteq_size. Qed.

Lemma tasksOf_mono p s s' : acts s s' → dom (tasksOf p s) ⊆ dom (tasksOf p s').
Proof.
  intros Ha id. unfold tasksOf. rewrite !elem_of_dom, !map_lookup_filter.
  intros [x Hx]. destruct (stTasks s !! id) as [t|] eqn:Et; [|done]. simpl in Hx.
  destruct (decide (tkProjectID t = p)) as [E|E]; [|by rewrite option_guard_False in Hx].
  destruct (a_keep s s' Ha id) as [t' Ht']; [by eexists|]. rewrite Ht'. simpl.
  destruct (a_tasks s s' Ha id t' Ht') as [(t0 & H0 & He)|(H0 & _)]; [|congruence].
  assert (t0 = t) as -> by congruence. rewrite option_guard_True; [by eexists|]. by rewrite (e_project _ _ He).
Qed.

Lemma acts_wf s s' : wf s → acts s s' → (∀ id t, stTasks s !! id = Some t → tkEpoch t < u64_max) → wf s'.
Proof.
  intros Hwf Ha Hroom. split.
  - intros id t' Ht'. destruct (a_tasks s s' Ha id t' Ht') as [(t & Ht & He)|(Hn & Hf & Hp & _)].
    + destruct (wf_tasks s Hwf id t Ht) as [E1 E2 E3 E4 E5].
      destruct He as [F1 F2 F3 F4 _ F5 F6]. split.
      * congruence.
      * congruence.
      * rewrite F3. by apply (a_project_keep s s' Ha).
      * destruct F6 as [(_ & _ & [->|(_ & -> & ->)])|(_ & -> & ->)]; lia.
      * destruct F6 as [(-> & _)|(-> & E & _)].
        -- destruct E5 as [?|(k & ? & ?)]; [by left|right; exists k; split; [lia|done]].
        -- right. exists (tkEpoch t'). rewrite E1. split; [lia|done].
    + destruct Hf. split; try done; [lia|by left].
  - intros id t' Ht'. destruct (a_tasks s s' Ha id t' Ht') as [(t & Ht & He)|(Hn & Hf & Hp & E1 & E2)].
    + destruct (wf_numbers s Hwf id t Ht) as [E1 E2]. rewrite (e_project _ _ He), (e_number _ _ He).
      split; [done|]. pose proof (size_mono _ _ (tasksOf_mono (tkProjectID t) s s' Ha)). lia.
    + split; [done|]. rewrite E2. split; [lia|].
      assert (S (size (tasksOf (tkProjectID t') s)) ≤ size (tasksOf (tkProjectID t') s'))%nat; [|lia].
      transitivity (size (<[id := t']> (tasksOf (tkProjectID t') s))).
      * assert (tasksOf (tkProjectID t') s !! id = None) as E by (unfold tasksOf; by rewrite map_lookup_filter, Hn).
        by rewrite map_size_insert, E.
      * apply size_mono. rewrite dom_insert. intros j [->%elem_of_singleton|Hj]%elem_of_union.
        -- unfold tasksOf. rewrite elem_of_dom, map_lookup_filter, Ht'. simpl. rewrite option_guard_True by done. by eexists.
        -- by apply (tasksOf_mono _ s s').
  - intros id p' Hp'. destruct (a_projects s s' Ha id p' Hp') as [(p & Hp & E1 & E2 & _)|(_ & ? & _)]; [|done].
    destruct (wf_projects s Hwf id p Hp). split; congruence.
Qed.

(** ** Every event acts so *)
Ltac unrefuse H :=
  repeat match type of H with
  | (if ?b then inr _ else _) = inl _ => destruct b eqn:?; [discriminate H|]
  end; bool_facts.

Definition roomy (s : State) : Prop := ∀ id t, stTasks s !! id = Some t → tkEpoch t < u64_max.

Lemma next_epoch s id t : wf s → roomy s → stTasks s !! id = Some t → u64_succ (tkEpoch t) = tkEpoch t + 1.
Proof.
  intros Hwf Hr Ht. destruct (wf_tasks s Hwf id t Ht) as [_ _ _ H _]. apply u64_succ_lt.
  specialize (Hr id t Ht). lia.
Qed.

Lemma Authorize_project p id s : Authorize p id s = None → is_Some (stProjects s !! id).
Proof. unfold Authorize. destruct (stProjects s !! id); [by eexists|done]. Qed.

Lemma taskFor_some c s t : taskFor c s = inl t → stTasks s !! cmTaskID c = Some t ∧ tkProjectID t = cmProjectID c.
Proof.
  unfold taskFor. destruct (stTasks s !! cmTaskID c) as [x|]; [|done]. case_bool_decide; [|done]. by intros [= ->].
Qed.

Lemma create_acts p c at_ s s' r : createProject p c at_ s = inl (s', r) → acts s s'.
Proof.
  intros H. unfold createProject in H. unrefuse H. cbv zeta in H. unrefuse H. injection H as <- _.
  match goal with |- acts s (AddEvent ?p ?pid ?tid ?k ?txt ?rid ?a ?w ?s1) => set (s2 := s1);
    pose proof (AddEvent_project p pid tid k txt rid a w s2) as Hpr end.
  assert (project_ok (cmProjectID c) (project_of s2 (cmProjectID c)) ∧
          pjEngineVersion (project_of s2 (cmProjectID c)) = 0) as [Hpo Hev].
  { unfold project_of, s2, putProject. cbn. rewrite lookup_insert_eq. split; [by split|done]. }
  assert (stProjects s !! cmProjectID c = None) as Hnew by (by apply eq_None_not_Some).
  assert (∀ j, j ≠ cmProjectID c → stProjects s2 !! j = stProjects s !! j) as Hother by (intros j ?; by apply lookup_insert_ne).
  split; rewrite ?AddEvent_tasks.
  - intros id t' Ht'. left. exists t'. split; [done|apply evolves_refl].
  - done.
  - intros id p' Hp'. destruct (Hpr id) as (rev & thr & E). rewrite E in Hp'. case_decide as Ei.
    + subst id. right. injection Hp' as <-. destruct Hpo. split_and!; [done|by split|done].
    + left. rewrite Hother in Hp' by done. by exists p'.
  - intros id Hid. destruct (Hpr id) as (rev & thr & E). rewrite E. case_decide; [by eexists|]. by rewrite Hother.
Qed.

(** Events and updates inside an existing project. *)
Lemma event_acts p pid tid k txt rid at_ w s t t' id :
  is_Some (stProjects s !! pid) → stTasks s !! id = Some t → evolves t t' →
  acts s (putTask t' id (AddEvent p pid tid k txt rid at_ w s)).
Proof.
  intros Hp Ht He. eapply acts_move; [by apply AddEvent_same|by apply AddEvent_tasks|done|done].
Qed.

Lemma revise_acts p c sandbox at_ s s' r :
  wf s → roomy s → is_Some (stProjects s !! cmProjectID c) →
  reviseTask p c sandbox at_ s = inl (s', r) → acts s s'.
Proof.
  intros Hwf Hr Hp H. unfold reviseTask in H. destruct (taskFor c s) as [t|e] eqn:Et; [|done].
  apply taskFor_some in Et as [Ht Hpid]. unrefuse H. cbv zeta in H. injection H as <- _.
  pose proof (to_id s _ _ (wf_tasks s Hwf _ _ Ht)) as Hid. rewrite (next_epoch s _ t Hwf Hr Ht).
  match goal with |- acts s (putTask _ ?i _) => change i with (tkID t) end. rewrite Hid at 3.
  eapply event_acts; [done|done|].
  split; try done; cbn; [lia|]. right. by rewrite Hid.
Qed.

Lemma propose_acts p c sandbox at_ s s' r :
  wf s → is_Some (stProjects s !! cmProjectID c) → proposeTask p c sandbox at_ s = inl (s', r) → acts s s'.
Proof.
  intros Hwf Hp H. unfold proposeTask in H. cbv zeta in H. unrefuse H. injection H as <- _.
  set (n := Z.of_nat (size (tasksOf (cmProjectID c) s))). set (id := cat [cmProjectID c; "_w"; pad2 (n + 1)]).
  match goal with |- acts s (putTask _ _ ?s1) => set (s2 := s1) end.
  assert (stTasks s2 = stTasks s) as Ht2 by apply AddEvent_tasks.
  destruct (same_projects_acts s s2) as [P1 P2]; [by apply AddEvent_same|].
  assert (stTasks s !! id = None) as Hnew.
  { destruct (stTasks s !! id) as [t|] eqn:E; [exfalso|done]. destruct (wf_numbers s Hwf id t E) as [E1 E2].
    unfold id in E1. apply taskName_inj in E1 as [E1 E3]; [|lia..]. rewrite <- E1 in E2. lia. }
  split; [| |done|done].
  - intros j x. rewrite putTask_tasks, Ht2. intros [[<- <-]|[_ Hx]]%lookup_insert_Some.
    + right. split_and!; [done|by split|by apply P2|done|done].
    + left. exists x. split; [done|apply evolves_refl].
  - intros j Hj. apply putTask_keeps. by rewrite Ht2.
Qed.

Lemma humanTask_evolves s id p c t t' txt :
  wf s → roomy s → stTasks s !! id = Some t → humanTask p c t = inl (t', txt) → evolves t t'.
Proof.
  intros Hwf Hr Ht H. pose proof (next_epoch s id t Hwf Hr Ht) as He. unfold humanTask in H. cbv zeta in H.
  repeat match type of H with (if bool_decide ?P then _ else _) = _ => destruct (bool_decide P); [unrefuse H|] end;
    unrefuse H; injection H as <- _; split; try done; cbn; rewrite ?He; try lia.
  all: try (right; done).
  all: left; split_and!; [done| |by left]; cbn; intros Hs; try (by rewrite Heqb || set_solver).
  all: rewrite !elem_of_cons, elem_of_nil in Hs |- *; naive_solver.
Qed.

Lemma evolves_revision t t' n : evolves t t' → evolves t (t' <| tkRevision := n |>).
Proof. intros []. by split. Qed.

Lemma evolves_id t t' : evolves t t' → tkID t' = tkID t.
Proof. by intros []. Qed.

Lemma human_acts p c at_ s s' r :
  wf s → roomy s → is_Some (stProjects s !! cmProjectID c) → humanAction p c at_ s = inl (s', r) → acts s s'.
Proof.
  intros Hwf Hr Hp H. unfold humanAction in H. unrefuse H.
  destruct (taskFor c s) as [t|e] eqn:Et; [|done]. apply taskFor_some in Et as [Ht Hpid].
  destruct (humanTask p c t) as [[t' txt]|e] eqn:Eh; [|done]. cbv zeta in H. injection H as <- _.
  pose proof (humanTask_evolves s _ p c t t' txt Hwf Hr Ht Eh) as He.
  rewrite (evolves_id _ _ He), (to_id s _ _ (wf_tasks s Hwf _ _ Ht)).
  eapply acts_move; [| |done|by apply evolves_revision].
  - eapply same_projects_trans; [|apply AddEvent_same].
    + destruct (bool_decide _); [|apply same_projects_refl].
      by apply (putProject_same (λ p, p <| pjMode := "active" |>)).
    + destruct (bool_decide _); [|done]. unfold putProject. cbn. rewrite lookup_insert_eq. by eexists.
  - rewrite AddEvent_tasks. by destruct (bool_decide _).
Qed.

Lemma dispatch_acts p c at_ s s' r :
  wf s → is_Some (stProjects s !! cmProjectID c) → dispatchTask p c at_ s = inl (s', r) → acts s s'.
Proof.
  intros Hwf Hp H. unfold dispatchTask in H. unrefuse H.
  destruct (taskFor c s) as [t|e] eqn:Et; [|done]. apply taskFor_some in Et as [Ht Hpid]. unrefuse H.
  cbv zeta in H. injection H as <- _.
  match goal with |- acts s (putTask _ ?i _) => change i with (tkID t) end.
  rewrite (to_id s _ _ (wf_tasks s Hwf _ _ Ht)).
  eapply event_acts; [done|done|]. split; try done; cbn; [lia|]. left. split_and!; [done| |by right].
  rewrite !elem_of_cons, elem_of_nil. intros [?|[?|?]]; done.
Qed.

Lemma setMode_acts p c at_ s s' r :
  is_Some (stProjects s !! cmProjectID c) → setMode p c at_ s = inl (s', r) → acts s s'.
Proof.
  intros Hp H. unfold setMode in H. unrefuse H. cbv zeta in H. injection H as <- _.
  apply acts_same; [|by rewrite AddEvent_tasks]. eapply same_projects_trans; [|apply AddEvent_same].
  - apply (putProject_same (λ q, if bool_decide (cmAction c = "pause") then q <| pjMode := "paused" |>
                                 else q <| pjMode := "active" |> <| pjRounds := 0 |>)); [|done].
    intros q. by destruct (bool_decide _).
  - unfold putProject. cbn. rewrite lookup_insert_eq. by eexists.
Qed.

Lemma applyAction_acts p c at_ s s' r :
  wf s → roomy s → applyAction p c at_ s = inl (s', r) → acts s s'.
Proof.
  intros Hwf Hr H. unfold applyAction in H. destruct (bool_decide (cmAction c = "create")); [by eapply create_acts|].
  unfold applyInProject in H. destruct (Authorize p (cmProjectID c) s) as [e|] eqn:Ea; [done|].
  apply Authorize_project in Ea. unrefuse H.
  destruct (bool_decide (cmAction c = "propose")).
  { destruct (proposalSandbox c); [|done]. destruct (str_empty _); [by eapply propose_acts|by eapply revise_acts]. }
  destruct (bool_decide (cmAction c ∈ humanActions)); [by eapply human_acts|].
  destruct (bool_decide (cmAction c = "dispatch")); [by eapply dispatch_acts|].
  destruct (_ || _); [by eapply setMode_acts|done].
Qed.

(** Receipts are beside the tasks. *)
Lemma acts_receipts s s' m : acts s s' → acts s (s' <| stReceipts := m |>).
Proof. intros []. by split. Qed.
Lemma acts_refl s : acts s s.
Proof. apply acts_same; [apply same_projects_refl|done]. Qed.

(** Whatever [Apply] returns, the receipts decide between a replay and the action. *)
Lemma Apply_cases hash p c at_ s s' r :
  Apply hash p c at_ s = inl (s', r) →
  (s' = s ∧ ∃ h, stReceipts s !! receiptKey p c = Some (Receipt r h) ∧ (h = "" ∨ h = hash (intent c))) ∨
  (stReceipts s !! receiptKey p c = None ∧ ∃ s1, applyAction p c at_ s = inl (s1, r) ∧
   s' = s1 <| stReceipts := <[receiptKey p c := Receipt r (hash (intent c))]> (stReceipts s1) |>).
Proof.
  intros H. unfold Apply, applyLegacy in H. unrefuse H. cbv zeta in H.
  destruct (stReceipts s !! receiptKey p c) as [[res h|e]|] eqn:Er; [| done|].
  - left. destruct (negb (str_empty h) && negb (bool_decide (h = hash (intent c)))) eqn:Eh; [done|].
    injection H as <- <-. split; [done|]. exists h. split; [done|]. unfold str_empty in Eh.
    destruct (bool_decide_reflect (h = "")); [by left|]. cbn in Eh. bool_facts. by right.
  - right. split; [done|]. unrefuse H. destruct (applyAction p c at_ s) as [[s1 res]|e]; [|done].
    injection H as <- <-. by exists s1.
Qed.

Lemma step_acts hash p c at_ s : wf s → roomy s → acts s (step hash s (p, c, at_)).
Proof.
  intros Hwf Hr. unfold step. destruct (Apply hash p c at_ s) as [[s' r]|e] eqn:E; [|apply acts_refl].
  destruct (Apply_cases _ _ _ _ _ _ _ E) as [[-> _]|(_ & s1 & E1 & ->)]; [apply acts_refl|].
  apply acts_receipts. by eapply applyAction_acts.
Qed.

(** *** Finding the task of a session *)
Lemma walk_task w s id t : wf s → walk_of w s → stTasks s !! id = Some t →
  ProjectForSession w (tkSessionID t) s = (λ p, (p, Some t)) <$> stProjects s !! tkProjectID t.
Proof.
  intros Hwf [W1 W2] Ht. destruct (wf_tasks s Hwf id t Ht) as [Hid Hs _ _ _]. unfold ProjectForSession.
  destruct (find _ (wkProjects w)) as [p|] eqn:Ep.
  { exfalso. apply find_some in Ep as [Hin Hp%bool_decide_eq_true]. apply list_elem_of_In in Hin.
    rewrite W1 in Hin. apply list_elem_of_fmap in Hin as ([j q] & -> & Hq%elem_of_map_to_list).
    simpl in Hp. destruct (wf_projects s Hwf j q Hq) as [_ E]. rewrite E, Hs in Hp. done. }
  destruct (find _ (wkTasks w)) as [x|] eqn:Ex.
  - apply find_some in Ex as [Hin Hx%bool_decide_eq_true]. apply list_elem_of_In in Hin.
    rewrite W2 in Hin. apply list_elem_of_fmap in Hin as ([j y] & -> & Hy%elem_of_map_to_list). simpl in Hx |- *.
    destruct (wf_tasks s Hwf j y Hy) as [_ Hs' _ _ _]. rewrite Hs, Hs' in Hx. apply append_inj in Hx as ->.
    assert (y = t) as -> by congruence. by destruct (stProjects s !! tkProjectID t).
  - exfalso. assert (t ∈ wkTasks w) as Hin.
    { rewrite W2. apply list_elem_of_fmap. exists (id, t). split; [done|by apply elem_of_map_to_list]. }
    apply list_elem_of_In in Hin. apply (find_none _ _ Ex) in Hin. by rewrite bool_decide_eq_true_2 in Hin.
Qed.

Lemma session_task w s sid p t : wf s → walk_of w s → ProjectForSession w sid s = Some (p, Some t) →
  stTasks s !! tkID t = Some t ∧ stProjects s !! tkProjectID t = Some p ∧ tkSessionID t = sid ∧ pjID p = tkProjectID t.
Proof.
  intros Hwf [W1 W2] H. unfold ProjectForSession in H. destruct (find _ (wkProjects w)); [done|].
  destruct (find _ (wkTasks w)) as [x|] eqn:Ex; [|done].
  apply find_some in Ex as [Hin Hx%bool_decide_eq_true]. apply list_elem_of_In in Hin.
  rewrite W2 in Hin. apply list_elem_of_fmap in Hin as ([j y] & -> & Hy%elem_of_map_to_list). simpl in *.
  destruct (stProjects s !! tkProjectID y) as [q|] eqn:Eq; [|done]. injection H as <- <-.
  destruct (wf_tasks s Hwf j y Hy) as [-> _ _ _ _]. split_and!; try done. by destruct (wf_projects s Hwf _ _ Eq).
Qed.

(** *** The host's events *)
Lemma acts_trans_receipts s m s' : acts (s <| stReceipts := m |>) s' → acts s s'.
Proof. intros []. by split. Qed.

Lemma admit_acts w s sid request p t at_ :
  wf s → walk_of w s → ProjectForSession w sid s = Some (p, Some t) →
  WorkerAllowed w sid request s = true → acts s (admitTurn (tkID t) sid request (pjID p) at_ s).
Proof.
  intros Hwf Hw Hf _. destruct (session_task w s sid p t Hwf Hw Hf) as (Ht & Hp & _ & Hpid).
  unfold admitTurn. cbv zeta. eapply event_acts; [rewrite Hpid; by eexists|done|].
  unfold task_of. rewrite Ht. split; try done; cbn; [lia|]. left. split_and!; [done| |by left].
  rewrite !elem_of_cons, elem_of_nil. intros [?|[?|?]]; done.
Qed.

Lemma queue_acts s id t at_ :
  wf s → stTasks s !! id = Some t → acts s (queueTask t (pjID (project_of s (tkProjectID t))) at_ s).
Proof.
  intros Hwf Ht. destruct (wf_tasks s Hwf id t Ht) as [Hid _ [p Hp] _ _].
  unfold queueTask. cbv zeta. destruct (negb _); [apply acts_refl|].
  rewrite (project_of_some s _ p Hp), (po_id _ _ (wf_projects s Hwf _ p Hp)).
  rewrite Hid. unfold task_of. rewrite Ht. cbn [default].
  eapply event_acts; [by eexists|done|]. split; try done; cbn; [lia|]. left. split_and!; [done| |by left].
  rewrite !elem_of_cons, elem_of_nil. intros [?|[?|?]]; done.
Qed.

Lemma finish_acts w s sid request status text at_ :
  wf s → walk_of w s → acts s (finishWorker w sid request status text at_ s).
Proof.
  intros Hwf Hw. unfold finishWorker.
  destruct (ProjectForSession w sid s) as [[p [t|]]|] eqn:Ef; try apply acts_refl.
  destruct (session_task w s sid p t Hwf Hw Ef) as (Ht & Hp & _ & Hpid).
  destruct (_ && _); [apply acts_refl|]. cbv zeta. destruct (bool_decide (is_Some _)); [apply acts_refl|].
  eapply acts_trans_receipts.
  match goal with |- acts _ (putTask _ ?i _) => change i with (tkID t) end.
  eapply event_acts; [rewrite Hpid; cbn; by eexists|exact Ht|].
  split; try done; cbn; [lia|]. left. split_and!; [done| |by left].
  case_bool_decide; rewrite !elem_of_cons, elem_of_nil; intros [?|[?|?]]; done.
Qed.

Lemma recover_acts s id at_ : wf s → roomy s → acts s (recoverTask at_ s id).
Proof.
  intros Hwf Hr. unfold recoverTask. destruct (stTasks s !! id) as [t|] eqn:Ht; [|apply acts_refl].
  destruct (wf_tasks s Hwf id t Ht) as [Hid _ Hp _ _]. destruct (_ && _); [|apply acts_refl]. cbv zeta.
  rewrite (next_epoch s id t Hwf Hr Ht). eapply event_acts; [done|done|].
  split; try done; cbn; [lia|]. left. split_and!; [done| |by left].
  rewrite !elem_of_cons, elem_of_nil. intros [?|[?|?]]; done.
Qed.

Lemma run_acts hash s e : wf s → roomy s → event_ok s e → acts s (run hash s e).
Proof.
  intros Hwf Hr Hok. destruct e as [p c a|w sid rq a|id a|w sid rq st txt a|id a]; simpl in *.
  - by apply step_acts.
  - destruct (ProjectForSession w sid s) as [[p [t|]]|] eqn:Ef; try apply acts_refl.
    destruct (WorkerAllowed w sid rq s) eqn:Ew; [|apply acts_refl]. by eapply admit_acts.
  - destruct (stTasks s !! id) as [t|] eqn:Ht; [|apply acts_refl].
    by eapply queue_acts.
  - by apply finish_acts.
  - by apply recover_acts.
Qed.

(** Every event raises an epoch by at most one. *)
Lemma acts_epochs n s s' : acts s s' → epochs_below n s → 1 ≤ n → epochs_below (n + 1) s'.
Proof.
  intros Ha Hn H1 id t' Ht'. destruct (a_tasks s s' Ha id t' Ht') as [(t & Ht & He)|(_ & Hf & _)].
  - pose proof (e_epoch t t' He). specialize (Hn id t Ht). lia.
  - destruct Hf. lia.
Qed.

Lemma epochs_roomy n s : epochs_below n s → n < u64_max → roomy s.
Proof. intros Hn Hlt id t Ht. specialize (Hn id t Ht). lia. Qed.

Lemma run_all_wf hash evs : ∀ s n, wf s → epochs_below n s → 1 ≤ n → n + Z.of_nat (length evs) ≤ u64_max →
  events_ok hash evs s → wf (run_all hash evs s).
Proof.
  induction evs as [|e evs IH]; intros s n Hwf Hn H1 Hlen Hok; [done|]. destruct Hok as [Hok1 Hok2].
  simpl length in Hlen. assert (roomy s) as Hr by (eapply epochs_roomy; [done|lia]).
  pose proof (run_acts hash s e Hwf Hr Hok1) as Ha.
  apply (IH _ (n + 1)); [by eapply acts_wf|by apply (acts_epochs n s)|lia..|done].
Qed.
