(* ===== verification/CoordSafety.v ===== *)
(** * Guarantees of the PM and worker policy

    What the policy of [Coordination] promises, over every history of calls,
    host transactions and restarts: a replaced instruction never runs, only
    an instruction a human approved runs, an agent has no authority, and a
    mutation is applied once. *)

From S2P Require Import Prelude Decimal CoordTypes Coordination CoordProps.

(** ** Histories from the empty state *)
Lemma run_all_app hash evs1 evs2 s :
  run_all hash (evs1 ++ evs2) s = run_all hash evs2 (run_all hash evs1 s).
Proof. revert s. induction evs1 as [|e evs1 IH]; intros s; simpl; auto. Qed.

Lemma events_ok_app hash evs1 evs2 s :
  events_ok hash (evs1 ++ evs2) s ↔ events_ok hash evs1 s ∧ events_ok hash evs2 (run_all hash evs1 s).
Proof.
  revert s. induction evs1 as [|e evs1 IH]; intros s; simpl; [tauto|]. rewrite IH. tauto.
Qed.

Lemma wf_NewState : wf NewState.
Proof. by split. Qed.

(** What holds at every point of a history that is not absurdly long. *)
Definition history (hash : Command → string) (evs : list event) : Prop :=
  events_ok hash evs NewState ∧ Z.of_nat (length evs) < u64_max.

Lemma history_cut hash evs1 evs2 : history hash (evs1 ++ evs2) → history hash evs1.
Proof. intros [H1 H2]. apply events_ok_app in H1 as [? _]. rewrite length_app in H2. split; [done|lia]. Qed.

Lemma history_wf hash evs : history hash evs → wf (run_all hash evs NewState).
Proof.
  intros [H1 H2]. apply (run_all_wf hash evs NewState 1); [apply wf_NewState| |lia..|done].
  by intros id t Ht.
Qed.

Lemma history_epochs hash evs :
  history hash evs → epochs_below (1 + Z.of_nat (length evs)) (run_all hash evs NewState).
Proof.
  induction evs as [|e evs IH] using rev_ind; intros H.
  - by intros id t Ht.
  - pose proof (history_cut _ _ _ H) as Hc. specialize (IH Hc). destruct H as [H1 H2].
    rewrite run_all_app. apply events_ok_app in H1 as [_ [H1 _]]. rewrite length_app in *. simpl in *.
    replace (1 + Z.of_nat (length evs + 1)) with (1 + Z.of_nat (length evs) + 1) by lia.
    eapply acts_epochs; [|done|lia]. apply run_acts; [by apply history_wf| |done].
    eapply epochs_roomy; [done|lia].
Qed.

(** One more event. *)
Lemma history_step hash evs e : history hash (evs ++ [e]) →
  history hash evs ∧ acts (run_all hash evs NewState) (run hash (run_all hash evs NewState) e).
Proof.
  intros H. pose proof (history_cut _ _ _ H) as Hc. split; [done|]. destruct H as [H1 H2].
  apply events_ok_app in H1 as [_ [H1 _]]. rewrite length_app in H2. simpl in H2.
  apply run_acts; [by apply history_wf| |done]. eapply epochs_roomy; [by apply history_epochs|lia].
Qed.

(** Induction on the events after a given point. *)
Lemma history_ind hash evs0 (P : State → Prop) :
  P (run_all hash evs0 NewState) →
  (∀ s e, wf s → acts s (run hash s e) → P s → P (run hash s e)) →
  ∀ evs, history hash (evs0 ++ evs) → P (run_all hash (evs0 ++ evs) NewState).
Proof.
  intros H0 Hs evs. induction evs as [|e evs IH] using rev_ind; intros H; [by rewrite app_nil_r|].
  rewrite app_assoc in *. apply history_step in H as [Hc Ha]. specialize (IH Hc).
  rewrite run_all_app. apply Hs; [by apply history_wf|done|done].
Qed.

(** ** A request the human replaced is dead *)
Record dead (request id : string) (s : State) : Prop := {
  dd_task : ∃ t, stTasks s !! id = Some t ∧ tkSessionID t = String.append "s_" id ∧
    (request = String.append "pmrun_" id ∨ ∃ k, 0 ≤ k ≤ tkEpoch t ∧ request = requestID id k) ∧
    (tkRequestID t = request →
       tkDispatchEpoch t < tkEpoch t ∧ ¬ tkState t ∈ ["proposed"; "approved"]) }.

Lemma dead_step request id s s' : wf s → acts s s' → dead request id s → dead request id s'.
Proof.
  intros Hwf Ha [(t & Ht & Hs & Hk & Hd)]. destruct (a_keep s s' Ha id) as [t' Ht']; [by eexists|].
  destruct (a_tasks s s' Ha id t' Ht') as [(t0 & Ht0 & He)|(? & _)]; [|congruence].
  assert (t0 = t) as -> by congruence. destruct (wf_tasks s Hwf id t Ht) as [Hid _ _ Hep _].
  destruct He as [F1 F2 F3 F4 _ F5 F6]. split. exists t'. split_and!; [done|congruence| |].
  - destruct Hk as [?|(k & ? & ?)]; [by left|right; exists k; split; [lia|done]].
  - intros Hr. destruct F6 as [(E1 & E2 & E3)|(E1 & E2 & E3)].
    + rewrite E1 in Hr. destruct (Hd Hr) as [D1 D2]. split; [|tauto].
      destruct E3 as [->|(E3 & _)]; [lia|]. exfalso. apply D2. rewrite E3. set_solver.
    + exfalso. rewrite Hr, Hid in E1. destruct Hk as [->|(k & Hk & ->)].
      * by eapply requestID_not_first.
      * apply requestID_inj in E1; lia.
Qed.

Lemma pmrun_prefix id k : has_prefix "pmrun_" (requestID id k) = true.
Proof. unfold requestID, cat. cbn [foldr]. unfold has_prefix, String.append at 1. simpl. by destruct (String.append id _). Qed.

Lemma dead_refused w request id s :
  wf s → walk_of w s → dead request id s → WorkerAllowed w (String.append "s_" id) request s = false.
Proof.
  intros Hwf Hw [(t & Ht & Hs & Hk & Hd)]. unfold WorkerAllowed. rewrite <- Hs.
  rewrite (walk_task w s id t Hwf Hw Ht). destruct (to_project _ _ _ (wf_tasks s Hwf id t Ht)) as [p ->]. simpl.
  assert (has_prefix "pmrun_" request = true) as ->.
  { destruct Hk as [->|(k & _ & ->)]; [|apply pmrun_prefix]. by destruct id. }
  simpl. destruct (bool_decide_reflect (tkRequestID t = request)) as [E|E]; [|by rewrite !andb_false_r].
  destruct (Hd E) as [D _]. assert ((tkEpoch t =? tkDispatchEpoch t) = false) as -> by (apply Z.eqb_neq; lia).
  by rewrite !andb_false_r.
Qed.

Lemma taken_over p c at_ s s' r t :
  wf s → roomy s → cmAction c = "take_over" → stTasks s !! cmTaskID c = Some t → tkState t ≠ "approved" →
  applyAction p c at_ s = inl (s', r) → dead (tkRequestID t) (cmTaskID c) s'.
Proof.
  intros Hwf Hr Ha Ht Hst H. destruct (wf_tasks s Hwf _ t Ht) as [Hid Hs Hp Hep Hrq].
  unfold applyAction, applyInProject in H. rewrite Ha in H. simpl in H.
  destruct (Authorize _ _ _); [done|]. unrefuse H. unfold humanAction in H. unrefuse H.
  destruct (taskFor c s) as [t0|] eqn:Et; [|done]. apply taskFor_some in Et as [Ht0 Hpid].
  assert (t0 = t) as -> by congruence.
  unfold humanTask in H. rewrite Ha in H. simpl in H. cbv zeta in H.
  destruct (bool_decide (tkState t = "proposed") || negb (tkProvisioned t)) eqn:Eg; [done|].
  bool_facts. injection H as <- _. rewrite Hid, (next_epoch s _ t Hwf Hr Ht).
  split. eexists. rewrite putTask_tasks, lookup_insert_eq. split; [done|]. cbn. split_and!; [done| |].
  - destruct Hrq as [?|(k & ? & ?)]; [by left|right; exists k; split; [lia|done]].
  - intros _. split; [lia|]. set_solver.
Qed.


(** ** Only what a human approved runs *)
Definition live (t : Task) : Prop :=
  tkState t = "approved" ∨
  tkOwner t = "pm" ∧ tkEpoch t = tkDispatchEpoch t ∧ tkState t ∈ ["provisioning"; "queued"; "running"].

(** The call of a human that approves an instruction for the task. *)
Definition approves (e : event) (id : string) : Prop :=
  match e with
  | ECall p c _ => prHuman p = true ∧ cmTaskID c = id ∧ cmAction c ∈ ["approve"; "rework"]
  | _ => False
  end.

(** A task that is live either was, with the same instruction, or [ok]. *)
Definition live_from (ok : string → Prop) (s s' : State) : Prop :=
  ∀ id t', stTasks s' !! id = Some t' → live t' →
    (∃ t, stTasks s !! id = Some t ∧ live t ∧ tkInstruction t = tkInstruction t') ∨ ok id.

Lemma live_same ok s s' : stTasks s' = stTasks s → live_from ok s s'.
Proof. intros E id t' Ht' Hl. left. exists t'. by rewrite <- E. Qed.

Lemma live_put (ok : string → Prop) s s1 t' id :
  stTasks s1 = stTasks s →
  (live t' → (∃ t, stTasks s !! id = Some t ∧ live t ∧ tkInstruction t = tkInstruction t') ∨ ok id) →
  live_from ok s (putTask t' id s1).
Proof.
  intros E H j x. rewrite putTask_tasks, E. intros [[<- <-]|[_ Hx]]%lookup_insert_Some Hl; [auto|].
  left. by exists x.
Qed.

Ltac not_live :=
  unfold live; cbn; rewrite !elem_of_cons, elem_of_nil; intros [?|(? & ? & [?|[?|[?|?]]])]; done.

Lemma humanTask_live s id p c t t' txt :
  wf s → roomy s → stTasks s !! id = Some t → cmAction c ∈ humanActions → humanTask p c t = inl (t', txt) →
  tkID t' = tkID t ∧
  (tkInstruction t' = tkInstruction t ∧ (live t' → live t) ∨ cmAction c ∈ ["approve"; "rework"]).
Proof.
  intros Hwf Hr Ht Hc H. pose proof (next_epoch s id t Hwf Hr Ht) as He.
  pose proof (to_epoch s id t (wf_tasks s Hwf id t Ht)) as Hd. unfold humanTask in H. cbv zeta in H.
  destruct (bool_decide_reflect (cmAction c = "approve")) as [E|E1].
  { unrefuse H. injection H as <- _. split; [done|right]. rewrite E. set_solver. }
  destruct (bool_decide_reflect (cmAction c = "take_over")) as [_|E2];
    [unrefuse H; injection H as <- _; split; [done|left; split; [done|]]; intros [?|[? _]]; [by left|done]|].
  destruct (bool_decide_reflect (cmAction c = "return_to_pm")) as [_|E3].
  { unrefuse H; injection H as <- _; split; [done|left; split; [done|]]. intros [?|(_ & E & _)]; [by left|].
    cbn in E. lia. }
  destruct (bool_decide_reflect (cmAction c = "accept")) as [_|E4]; unrefuse H; injection H as <- _; (split; [done|]).
  - left. split; [done|not_live].
  - right. unfold humanActions in Hc. set_solver.
Qed.

Lemma applyAction_live p c at_ s s' r :
  wf s → roomy s → applyAction p c at_ s = inl (s', r) → live_from (approves (ECall p c at_)) s s'.
Proof.
  intros Hwf Hr H. unfold applyAction in H. destruct (bool_decide (cmAction c = "create")).
  { unfold createProject in H. unrefuse H. cbv zeta in H. unrefuse H. injection H as <- _.
    apply live_same. by rewrite AddEvent_tasks. }
  unfold applyInProject in H. destruct (Authorize _ _ _); [done|]. unrefuse H.
  destruct (bool_decide (cmAction c = "propose")).
  { destruct (proposalSandbox c); [|done]. destruct (str_empty _).
    - unfold proposeTask in H. cbv zeta in H. unrefuse H. injection H as <- _.
      apply live_put; [by rewrite AddEvent_tasks|not_live].
    - unfold reviseTask in H. destruct (taskFor c s); [|done]. unrefuse H. cbv zeta in H. injection H as <- _.
      apply live_put; [by rewrite AddEvent_tasks|not_live]. }
  destruct (bool_decide_reflect (cmAction c ∈ humanActions)) as [Hc|_].
  { unfold humanAction in H. unrefuse H. destruct (taskFor c s) as [t|] eqn:Et; [|done].
    apply taskFor_some in Et as [Ht _]. pose proof (to_id _ _ _ (wf_tasks s Hwf _ t Ht)) as Hid.
    destruct (humanTask p c t) as [[t' txt]|] eqn:Eh; [|done]. cbv zeta in H. injection H as <- _.
    destruct (humanTask_live s _ _ _ _ _ _ Hwf Hr Ht Hc Eh) as [-> E]. rewrite Hid.
    apply live_put; [rewrite AddEvent_tasks; by destruct (bool_decide _)|]. intros Hl.
    destruct E as [[E1 E2]|E]; [left|by right]. exists t. split_and!; [done|by apply E2|done]. }
  destruct (bool_decide (cmAction c = "dispatch")).
  { unfold dispatchTask in H. unrefuse H. destruct (taskFor c s) as [t|] eqn:Et; [|done].
    apply taskFor_some in Et as [Ht _]. unrefuse H. cbv zeta in H. injection H as <- _.
    match goal with |- live_from _ s (putTask _ ?i _) => change i with (tkID t) end.
    rewrite (to_id _ _ _ (wf_tasks s Hwf _ t Ht)).
    apply live_put; [by rewrite AddEvent_tasks|]. intros _. left. exists t. split_and!; [done| |done].
    by left. }
  destruct (_ || _); [|done]. unfold setMode in H. unrefuse H. cbv zeta in H. injection H as <- _.
  apply live_same. by rewrite AddEvent_tasks.
Qed.

Lemma run_live hash s e : wf s → roomy s → event_ok s e → live_from (approves e) s (run hash s e).
Proof.
  intros Hwf Hr Hok. destruct e as [p c a|w sid rq a|id a|w sid rq st txt a|id a]; simpl in *.
  - unfold step. destruct (Apply hash p c a s) as [[s' r]|] eqn:E; [|by apply live_same].
    apply Apply_cases in E as [[-> _]|(_ & s1 & E & ->)]; [by apply live_same|].
    exact (applyAction_live p c a s s1 r Hwf Hr E).
  - destruct (ProjectForSession w sid s) as [[p [t|]]|] eqn:Ef; try by apply live_same.
    destruct (WorkerAllowed w sid rq s) eqn:Ew; [|by apply live_same].
    destruct (session_task w s sid p t Hwf Hok Ef) as (Ht & Hp & _ & _).
    unfold admitTurn, task_of. rewrite Ht. cbn [default].
    apply live_put; [by rewrite AddEvent_tasks|]. intros [?|(E1 & E2 & _)]; [done|]. cbn in E1, E2.
    left. exists t. split_and!; [done| |done]. right. split_and!; [done..|].
    unfold WorkerAllowed in Ew. rewrite Ef in Ew. destruct (negb _).
    + apply bool_decide_eq_true in Ew. congruence.
    + bool_facts. rewrite !orb_true_iff, !bool_decide_eq_true in *. rewrite !elem_of_cons. tauto.
  - destruct (stTasks s !! id) as [t|] eqn:Ht; [|by apply live_same].
    pose proof (to_id _ _ _ (wf_tasks s Hwf _ t Ht)) as Hid.
    unfold queueTask, task_of. rewrite Hid, Ht. change (default zeroTask (Some t)) with t. cbv zeta.
    destruct (bool_decide_reflect (tkState t = "provisioning")) as [Est|]; [|by apply live_same]. simpl.
    apply live_put; [by rewrite AddEvent_tasks|]. intros [?|(E1 & E2 & _)]; [done|]. left. exists t.
    split_and!; [done| |done]. right. split_and!; [done..|]. rewrite Est. set_solver.
  - unfold finishWorker. destruct (ProjectForSession w sid s) as [[p [t|]]|] eqn:Ef; try by apply live_same.
    destruct (_ && _); [by apply live_same|]. cbv zeta. destruct (bool_decide (is_Some _)); [by apply live_same|].
    apply live_put; [by rewrite AddEvent_tasks|]. case_bool_decide; not_live.
  - unfold recoverTask. destruct (stTasks s !! id) as [t|] eqn:Ht; [|by apply live_same].
    destruct (_ && _); [|by apply live_same]. cbv zeta. apply live_put; [by rewrite AddEvent_tasks|not_live].
Qed.

(** Some human call of the history approved this instruction for this task. *)
Definition approved_in (hash : Command → string) (evs : list event) (id instruction : string) : Prop :=
  ∃ before e after t, evs = before ++ e :: after ∧ approves e id ∧
    stTasks (run_all hash (before ++ [e]) NewState) !! id = Some t ∧ tkInstruction t = instruction.

Lemma approved_in_more hash evs e id i : approved_in hash evs id i → approved_in hash (evs ++ [e]) id i.
Proof.
  intros (b & x & a & t & -> & H). exists b, x, (a ++ [e]), t. split; [|done]. by rewrite <- app_assoc.
Qed.

Lemma live_approved hash evs : history hash evs → ∀ id t,
  stTasks (run_all hash evs NewState) !! id = Some t → live t → approved_in hash evs id (tkInstruction t).
Proof.
  induction evs as [|e evs IH] using rev_ind; intros Hh id t Ht Hl; [cbn in Ht; done|].
  pose proof (history_cut _ _ _ Hh) as Hc. pose proof Hh as [H1 H2]. rewrite length_app in H2. simpl in H2.
  apply events_ok_app in H1 as [_ [H1 _]].
  assert (roomy (run_all hash evs NewState)) as Hr by (eapply epochs_roomy; [by apply history_epochs|lia]).
  pose proof Ht as Ht'. rewrite run_all_app in Ht'. simpl in Ht'.
  destruct (run_live hash _ e (history_wf hash evs Hc) Hr H1 id t Ht' Hl) as [(t0 & Ht0 & Hl0 & <-)|Ha].
  - by apply approved_in_more, IH.
  - by exists evs, e, [], t.
Qed.

(** C17: A worker is handed an instruction of the PM only when, earlier in the
    history, a human approved exactly that instruction for exactly that task:
    a revised, replaced or merely proposed instruction never runs. *)
Theorem only_approved_runs hash evs w sessionID request p t :
  let s := run_all hash evs NewState in
  history hash evs → walk_of w s → ProjectForSession w sessionID s = Some (p, Some t) →
  has_prefix "pmrun_" request = true → WorkerAllowed w sessionID request s = true →
  pjMode p = "active" ∧ tkRequestID t = request ∧ approved_in hash evs (tkID t) (tkInstruction t).
Proof.
  intros s Hh Hw Hf Hp Ha. pose proof (history_wf hash evs Hh) as Hwf. fold s in Hwf.
  destruct (session_task w s sessionID p t Hwf Hw Hf) as (Ht & _).
  unfold WorkerAllowed in Ha. rewrite Hf, Hp in Ha. simpl in Ha. bool_facts. split_and!; [done..|].
  apply live_approved; [done|done|]. right. split_and!; [done..|].
  rewrite !orb_true_iff, !bool_decide_eq_true in *. rewrite !elem_of_cons. tauto.
Qed.

(** ** What an agent may do *)
Record agent_move (p : Project) (t t' : Task) : Prop := {
  am_owner : tkOwner t' = tkOwner t;
  am_approved : tkApprovedBy t' = tkApprovedBy t ∧ tkAcceptedBy t' = tkAcceptedBy t ∧ tkDecision t' = tkDecision t;
  am_policy : tkBackend t' = tkBackend t ∧ tkModel t' = tkModel t ∧ tkSandbox t' = tkSandbox t;
  am_state : tkState t' = tkState t ∧ tkInstruction t' = tkInstruction t ∨
    tkOwner t = "pm" ∧ settled (tkState t) = true ∧ tkState t' = "proposed" ∨
    tkOwner t = "pm" ∧ pjMode p = "active" ∧ tkState t = "approved" ∧ tkState t' = "provisioning" ∧
      tkInstruction t' = tkInstruction t }.

Definition agent_limits (s s' : State) : Prop :=
  (∀ id q', stProjects s' !! id = Some q' → ∃ q, stProjects s !! id = Some q ∧ pjMode q' = pjMode q ∧
     pjMaxTasks q' = pjMaxTasks q ∧ pjMaxRounds q' = pjMaxRounds q ∧ pjRounds q' = pjRounds q ∧
     pjCwd q' = pjCwd q) ∧
  (∀ id t', stTasks s' !! id = Some t' →
     (∃ t, stTasks s !! id = Some t ∧ agent_move (project_of s (tkProjectID t)) t t') ∨
     stTasks s !! id = None ∧ tkState t' = "proposed" ∧ tkOwner t' = "pm" ∧ tkApprovedBy t' = "" ∧
       tkSandbox t' ∈ ["read-only"; "workspace-write"]).

Lemma agent_move_refl p t : agent_move p t t.
Proof. split; auto. Qed.

Lemma agent_same s s' : stProjects s' = stProjects s → stTasks s' = stTasks s → agent_limits s s'.
Proof.
  intros E1 E2. split.
  - intros id q. rewrite E1. intros H. exists q. by split_and!.
  - intros id t. rewrite E2. intros H. left. exists t. split; [done|apply agent_move_refl].
Qed.

Lemma agent_put p pid tid k txt rid at_ w s t' id :
  is_Some (stProjects s !! pid) →
  ((∃ t, stTasks s !! id = Some t ∧ agent_move (project_of s (tkProjectID t)) t t') ∨
   stTasks s !! id = None ∧ tkState t' = "proposed" ∧ tkOwner t' = "pm" ∧ tkApprovedBy t' = "" ∧
       tkSandbox t' ∈ ["read-only"; "workspace-write"]) →
  agent_limits s (putTask t' id (AddEvent p pid tid k txt rid at_ w s)).
Proof.
  intros [q0 Hq0] Ht. split.
  - intros j q'. destruct (AddEvent_project p pid tid k txt rid at_ w s j) as (rev & thr & E).
    change (stProjects (putTask ?t ?i ?s)) with (stProjects s). rewrite E. case_decide as Ej.
    + subst j. intros [= <-]. exists q0. rewrite (project_of_some s pid q0 Hq0). by split_and!.
    + intros H. exists q'. by split_and!.
  - intros j x. rewrite putTask_tasks, AddEvent_tasks. intros [[<- <-]|[_ Hx]]%lookup_insert_Some; [done|].
    left. exists x. split; [done|apply agent_move_refl].
Qed.

Lemma proposalSandbox_ok c sb : proposalSandbox c = inl sb → sb ∈ ["read-only"; "workspace-write"].
Proof.
  unfold proposalSandbox. intros H. unrefuse H. cbv zeta in H. unrefuse H. injection H as <-.
  apply andb_false_iff in Heqb1. rewrite !elem_of_cons.
  destruct Heqb1 as [E|E]; bool_facts; auto.
Qed.

Lemma new_task_id s c : wf s →
  stTasks s !! cat [cmProjectID c; "_w"; pad2 (Z.of_nat (size (tasksOf (cmProjectID c) s)) + 1)] = None.
Proof.
  intros Hwf. set (n := Z.of_nat _). destruct (stTasks s !! _) as [t|] eqn:E; [exfalso|done].
  destruct (wf_numbers s Hwf _ t E) as [E1 E2]. apply taskName_inj in E1 as [E1 E3]; [|lia..].
  rewrite <- E1 in E2. lia.
Qed.

Lemma applyAction_agent p c at_ s s' r :
  wf s → prHuman p = false → applyAction p c at_ s = inl (s', r) → agent_limits s s'.
Proof.
  intros Hwf Hp H. unfold applyAction in H. destruct (bool_decide (cmAction c = "create")).
  { unfold createProject in H. by rewrite Hp in H. }
  unfold applyInProject in H. destruct (Authorize _ _ _) eqn:Ea; [done|]. apply Authorize_project in Ea. unrefuse H.
  destruct (bool_decide (cmAction c = "propose")).
  { destruct (proposalSandbox c) as [sb|] eqn:Es; [|done]. apply proposalSandbox_ok in Es. destruct (str_empty _).
    - unfold proposeTask in H. cbv zeta in H. unrefuse H. injection H as <- _.
      apply agent_put; [done|]. right. split_and!; [by apply new_task_id|done..].
    - unfold reviseTask in H. destruct (taskFor c s) as [t|] eqn:Et; [|done]. unrefuse H. cbv zeta in H. injection H as <- _.
      apply taskFor_some in Et as [Ht _].
      match goal with |- agent_limits s (putTask _ ?i _) => change i with (tkID t) end.
      rewrite (to_id _ _ _ (wf_tasks s Hwf _ t Ht)). apply agent_put; [done|]. left. exists t. split; [done|].
      split; try done. right. left. done. }
  destruct (bool_decide (cmAction c ∈ humanActions)); [unfold humanAction in H; by rewrite Hp in H|].
  destruct (bool_decide (cmAction c = "dispatch")).
  { unfold dispatchTask in H. unrefuse H. destruct (taskFor c s) as [t|] eqn:Et; [|done].
    apply taskFor_some in Et as [Ht Hpid]. unrefuse H. cbv zeta in H. injection H as <- _.
    match goal with |- agent_limits s (putTask _ ?i _) => change i with (tkID t) end.
    rewrite (to_id _ _ _ (wf_tasks s Hwf _ t Ht)). apply agent_put; [done|]. left. exists t. split; [done|].
    split; try done. right. right. by rewrite Hpid. }
  destruct (_ || _); [|done]. unfold setMode in H. by rewrite Hp in H.
Qed.

(** C22: A caller that is not a human, whatever it sends, never approves, accepts,
    takes over or returns a task, never changes a worker's permissions, the
    project's mode or its limits, and never opens a project: it can propose,
    revise a settled task of its own and dispatch what is approved. *)
Theorem agents_cannot_authorize hash p c at_ s s' r :
  wf s → prHuman p = false → Apply hash p c at_ s = inl (s', r) → agent_limits s s'.
Proof.
  intros Hwf Hp H. apply Apply_cases in H as [[-> _]|(_ & s1 & H & ->)]; [by apply agent_same|].
  by apply (applyAction_agent p c at_ s s1 r) in H.
Qed.

(** ** A mutation is applied once *)
Lemma applyAction_receipts p c at_ s s' r : applyAction p c at_ s = inl (s', r) → stReceipts s' = stReceipts s.
Proof.
  intros E.
  unfold applyAction, applyInProject, createProject, proposeTask, reviseTask, humanAction, dispatchTask, setMode in E.
  repeat (step_guard_in E; try discriminate E); cbv zeta in E; injection E as <- _;
    unfold putTask, putProject; cbn; rewrite ?AddEvent_receipts; done.
Qed.

Lemma put_event_receipts t i p pid tid k txt rid at_ w s :
  stReceipts (putTask t i (AddEvent p pid tid k txt rid at_ w s)) = stReceipts s.
Proof. apply AddEvent_receipts. Qed.

Lemma run_receipts hash s e : stReceipts s ⊆ stReceipts (run hash s e).
Proof.
  destruct e as [p c a|w sid rq a|id a|w sid rq st txt a|id a]; simpl.
  - unfold step. destruct (Apply hash p c a s) as [[s' r]|] eqn:E; [|done].
    apply Apply_cases in E as [[-> _]|(En & s1 & E & ->)]; [done|]. cbn.
    rewrite (applyAction_receipts _ _ _ _ _ _ E). by apply insert_subseteq.
  - destruct (ProjectForSession w sid s) as [[p [t|]]|]; [|done..]. destruct (WorkerAllowed _ _ _ _); [|done].
    unfold admitTurn. cbv zeta. by rewrite put_event_receipts.
  - destruct (stTasks s !! id) as [t|]; [|done]. unfold queueTask.
    cbv zeta. destruct (negb _); [done|]. by rewrite put_event_receipts.
  - unfold finishWorker. destruct (ProjectForSession w sid s) as [[p [t|]]|]; [|done..].
    destruct (_ && _); [done|]. cbv zeta. destruct (bool_decide_reflect (is_Some (stReceipts s !! cat ["terminal:"; sid; ":"; rq]))) as [|Hn]; [done|].
    rewrite put_event_receipts. apply insert_subseteq. by apply eq_None_not_Some.
  - unfold recoverTask. destruct (stTasks s !! id) as [t|]; [|done]. destruct (_ && _); [|done].
    cbv zeta. by rewrite put_event_receipts.
Qed.

(** No event of the policy turns a project into version 2. *)
Definition version1 (id : string) (s : State) : Prop := pjEngineVersion (project_of s id) ≠ 2.

Lemma version1_step id s s' : acts s s' → version1 id s → version1 id s'.
Proof.
  intros Ha. unfold version1, project_of. destruct (stProjects s' !! id) as [p'|] eqn:E; [|done]. simpl.
  destruct (a_projects s s' Ha id p' E) as [(p & -> & _ & _ & ->)|(-> & _ & ->)]; done.
Qed.

Lemma run_all_version1 id hash evs : history hash evs → version1 id (run_all hash evs NewState).
Proof. apply (history_ind hash [] (version1 id)); [done|]. intros s e _. apply version1_step. Qed.

(** A mutation that was applied is applied once: sent again at any later time,
    with whatever revision it expects, it returns the first result and changes
    nothing; sent with another intent it is refused. *)
Theorem mutation_once hash evs0 evs p c at_ s1 r c' at' :
  let s := run_all hash evs0 NewState in
  let evs' := evs0 ++ ECall p c at_ :: evs in
  Apply hash p c at_ s = inl (s1, r) → stReceipts s !! receiptKey p c = None → history hash evs' →
  cmMutationID c' = cmMutationID c → tooLarge c' = false → hash (intent c) ≠ "" →
  Apply hash p c' at' (run_all hash evs' NewState) =
    if bool_decide (hash (intent c') = hash (intent c)) then inl (run_all hash evs' NewState, r)
    else inr "pm_mutation_reused_with_different_intent".
Proof.
  cbv zeta. intros H Hk Hh Hm Hl Hne. rewrite cons_middle, app_assoc in *.
  set (s2 := run_all hash ((evs0 ++ [ECall p c at_]) ++ evs) NewState).
  assert (stReceipts s2 !! receiptKey p c = Some (Receipt r (hash (intent c)))) as Hr.
  { apply (history_ind hash _ (λ s, stReceipts s !! receiptKey p c = Some (Receipt r (hash (intent c))))); [| |done].
    - rewrite run_all_app. simpl. unfold step. rewrite H.
      apply Apply_cases in H as [(_ & h & E & _)|(_ & s0 & E & ->)]; [congruence|]. cbn. apply lookup_insert_eq.
    - intros s0 e _ _ E. by eapply lookup_weaken, run_receipts. }
  assert (receiptKey p c' = receiptKey p c) as Hkk by (unfold receiptKey; by rewrite Hm).
  assert (anonymous p c' = anonymous p c) as Hanon by (unfold anonymous; by rewrite Hm).
  assert (anonymous p c' = false) as Han.
  { rewrite Hanon. unfold Apply, applyLegacy in H. unrefuse H. done. }
  unfold Apply. pose proof (run_all_version1 (cmProjectID c') hash _ Hh) as Hv. fold s2 in Hv.
  unfold version1 in Hv. apply Z.eqb_neq in Hv. rewrite Hv. unfold applyLegacy. rewrite Hl, Han. cbv zeta.
  rewrite Hkk, Hr. assert (str_empty (hash (intent c)) = false) as -> by by apply bool_decide_eq_false_2.
  simpl. destruct (bool_decide_reflect (hash (intent c') = hash (intent c))) as [->|E];
    [by rewrite bool_decide_eq_true_2|]. rewrite bool_decide_eq_false_2; [done|congruence].
Qed.

(** ** A concrete history *)
Module Scenario.
Definition hash (c : Command) : string := cat [cmAction c; "/"; cmTaskID c; "/"; cmText c; "/"; cmInstruction c].
Definition alice : Principal := zeroPrincipal <| prID := "alice" |> <| prHuman := true |>.
Definition pm : Principal := zeroPrincipal <| prID := "pm" |> <| prSessionID := "pm_p1" |>.
Definition act (action mutation : string) (rev : Z) : Command :=
  zeroCommand <| cmAction := action |> <| cmMutationID := mutation |> <| cmProjectID := "p1" |>
    <| cmExpectedRevision := rev |>.
Definition on (c : Command) : Command := c <| cmTaskID := "p1_w01" |>.
Definition propose (c : Command) (instruction : string) : Command :=
  c <| cmTitle := "Fix" |> <| cmReason := "why" |> <| cmInstruction := instruction |> <| cmAcceptance := "tests" |>
    <| cmBackend := "codex" |>.
Definition walk_at (evs : list event) : walk :=
  mkWalk (map_to_list (stProjects (run_all hash evs NewState))).*2
         (map_to_list (stTasks (run_all hash evs NewState))).*2.

(** The project is opened; a task is proposed, approved, dispatched, queued. *)
Definition create : Command := (act "create" "m1" 0) <| cmName := "N" |> <| cmCwd := "/w" |>.
Definition setup : list event :=
  [ECall alice create 1; ECall pm (propose (act "propose" "m2" 1) "do it") 2;
   ECall alice (on (act "approve" "m3" 2)) 3; ECall pm (on (act "dispatch" "m4" 3)) 4; EQueue "p1_w01" 5].
Definition admitted : list event :=
  setup ++ [EAdmit (walk_at setup) "s_p1_w01" "pmrun_p1_w01" 6].
Definition take : Command := on (act "take_over" "m5" 6).
Definition retake : Command := take <| cmExpectedRevision := 3 |>.
Definition mistake : Command := take <| cmText := "other" |>.
Definition give : event := ECall alice ((on (act "return_to_pm" "m6" 7)) <| cmText := "done" |>) 8.
Definition taken : list event := admitted ++ ECall alice take 7 :: [give].

(** The same worker finishes, gets a revised instruction that is approved,
    and is taken over before it is dispatched. *)
Definition finished : list event :=
  admitted ++ [EFinish (walk_at admitted) "s_p1_w01" "pmrun_p1_w01" "succeeded" "ok" 7].
Definition revised : list event :=
  finished ++ [ECall pm (on (propose (act "propose" "m7" 7) "do more")) 8;
               ECall alice (on (act "approve" "m8" 8)) 9].
Definition replaced : list event :=
  revised ++ [ECall alice (on (act "take_over" "m9" 9)) 10;
              ECall alice ((on (act "return_to_pm" "m10" 10)) <| cmText := "stop" |>) 11].
End Scenario.

Definition task_view (id : string) (s : State) : option (string * string * string * Z * Z) :=
  (λ t, (tkState t, tkOwner t, tkInstruction t, tkEpoch t, tkDispatchEpoch t)) <$> stTasks s !! id.

Example scenario_admitted :
  task_view "p1_w01" (run_all Scenario.hash Scenario.admitted NewState) = Some ("running", "pm", "do it", 1, 1).
Proof. vm_compute. reflexivity. Qed.
Example scenario_taken :
  task_view "p1_w01" (run_all Scenario.hash Scenario.taken NewState) = Some ("running", "pm", "do it", 3, 1).
Proof. vm_compute. reflexivity. Qed.
Example scenario_replaced :
  task_view "p1_w01" (run_all Scenario.hash Scenario.replaced NewState) = Some ("approved", "pm", "do more", 4, 1).
Proof. vm_compute. reflexivity. Qed.

(** The human's takeover records that the PM's instructions which were not
    executed are void, but an instruction that was approved and not yet
    dispatched survives the takeover and the return: the PM dispatches it and
    the worker is handed it without a new approval. *)
Theorem takeover_keeps_approval :
  let s := run_all Scenario.hash Scenario.replaced NewState in
  task_view "p1_w01" (run_all Scenario.hash Scenario.revised NewState) = Some ("approved", "pm", "do more", 2, 1) ∧
  ∃ s' r, Apply Scenario.hash Scenario.pm (Scenario.on (Scenario.act "dispatch" "m11" 11)) 12 s = inl (s', r) ∧
    task_view "p1_w01" s' = Some ("provisioning", "pm", "do more", 4, 4).
Proof. vm_compute. split; [reflexivity|]. do 2 eexists. split; reflexivity. Qed.

(** Only admission and completion need a walk. *)
Definition walkless (e : event) : bool :=
  match e with EAdmit _ _ _ _ | EFinish _ _ _ _ _ _ => false | _ => true end.
Lemma walkless_ok hash evs s : forallb walkless evs = true → events_ok hash evs s.
Proof.
  revert s. induction evs as [|e evs IH]; intros s; simpl; [done|]. intros [H1 H2]%andb_true_iff.
  split; [by destruct e|auto].
Qed.

Lemma scenario_walk_ok evs : walk_of (Scenario.walk_at evs) (run_all Scenario.hash evs NewState).
Proof. by split. Qed.

Lemma admitted_ok : events_ok Scenario.hash Scenario.admitted NewState.
Proof. apply events_ok_app. split; [by apply walkless_ok|]. split; [apply scenario_walk_ok|done]. Qed.

Lemma taken_history : history Scenario.hash Scenario.taken.
Proof. split; [|done]. apply events_ok_app. split; [apply admitted_ok|by apply walkless_ok]. Qed.

Lemma finished_history : history Scenario.hash Scenario.finished.
Proof. split; [|done]. apply events_ok_app. split; [apply admitted_ok|]. split; [apply scenario_walk_ok|done]. Qed.

Lemma admitted_history : history Scenario.hash Scenario.admitted.
Proof. split; [apply admitted_ok|done]. Qed.


Lemma only_approved_runs_witness :
  approved_in Scenario.hash Scenario.admitted "p1_w01" "do it".
Proof.
  destruct (ProjectForSession (Scenario.walk_at Scenario.admitted) "s_p1_w01"
    (run_all Scenario.hash Scenario.admitted NewState)) as [[p [t|]]|] eqn:Hf;
    [|vm_compute in Hf; discriminate Hf..].
  assert (tkID t = "p1_w01" ∧ tkInstruction t = "do it") as [E1 E2].
  { vm_compute in Hf. injection Hf as <- <-. split; reflexivity. }
  rewrite <- E1, <- E2.
  refine (proj2 (proj2 (only_approved_runs Scenario.hash Scenario.admitted (Scenario.walk_at Scenario.admitted) "s_p1_w01"
    "pmrun_p1_w01" p t admitted_history (scenario_walk_ok _) Hf _ _))).
  - reflexivity.
  - vm_compute. reflexivity.
Defined.

Lemma agents_cannot_authorize_witness :
  ∃ s' r, Apply Scenario.hash Scenario.pm (Scenario.on (Scenario.act "dispatch" "m4" 3)) 4
            (run_all Scenario.hash (take 3 Scenario.setup) NewState) = inl (s', r) ∧
    agent_limits (run_all Scenario.hash (take 3 Scenario.setup) NewState) s'.
Proof.
  destruct (Apply Scenario.hash Scenario.pm (Scenario.on (Scenario.act "dispatch" "m4" 3)) 4
            (run_all Scenario.hash (take 3 Scenario.setup) NewState)) as [[s' r]|] eqn:E;
    [|vm_compute in E; discriminate E].
  exists s', r. split; [reflexivity|]. refine (agents_cannot_authorize Scenario.hash Scenario.pm _ _ _ _ _ _ eq_refl E).
  apply history_wf. split; [by apply walkless_ok|done].
Defined.

Lemma mutation_once_witness :
  let s := run_all Scenario.hash Scenario.taken NewState in
  ∃ r, Apply Scenario.hash Scenario.alice Scenario.retake 99 s = inl (s, r) ∧
    Apply Scenario.hash Scenario.alice Scenario.mistake 99 s =
      inr "pm_mutation_reused_with_different_intent".
Proof.
  cbv zeta.
  destruct (Apply Scenario.hash Scenario.alice Scenario.take 7 (run_all Scenario.hash Scenario.admitted NewState))
    as [[s1 r]|] eqn:E; [|vm_compute in E; discriminate E].
  exists r.
  assert (stReceipts (run_all Scenario.hash Scenario.admitted NewState) !! receiptKey Scenario.alice Scenario.take = None)
    as Hk by (vm_compute; reflexivity).
  split.
  - exact (mutation_once Scenario.hash Scenario.admitted [Scenario.give] Scenario.alice Scenario.take 7 s1 r
      Scenario.retake 99 E Hk taken_history eq_refl eq_refl ltac:(discriminate)).
  - exact (mutation_once Scenario.hash Scenario.admitted [Scenario.give] Scenario.alice Scenario.take 7 s1 r
      Scenario.mistake 99 E Hk taken_history eq_refl eq_refl ltac:(discriminate)).
Defined.
