(* ===== verification/CollabState.v ===== *)
(** * The shared state of the version 2 collaboration

    Helpers of [src/internal/coordination/collaboration.go]: access to the
    maps, hashes and identifiers, revoking and checking grants, the decisions
    in force, context manifests, sources, actionables.

    SHA-256 of the JSON of a value is the parameter [digestJSON]; [hashed]
    lists the values the code hashes.  A hash has 64 characters, so the prefix
    of 24 that names are made of exists.  A nil slice and an empty one are the
    same list ([nonNil] only keeps the JSON from saying null). *)

From S2P Require Import Prelude Orders CoordTypes Coordination.

(** ** Notation for the error returns of the code *)
(** [if err := e; err != nil { return out, err }] *)
Notation "'check' e ; k" := (match e with Some err => inr err | None => k end)
  (at level 200, e at level 9, k at level 200, right associativity) : bridge_scope.
(** [x, err := e; if err != nil { return out, err }] *)
Notation "'try' p <- e ; k" := (match e with inr err => inr err | inl p => k end)
  (at level 200, p pattern, e at level 100, k at level 200, right associativity) : bridge_scope.

(** ** The maps *)
Definition collab (s : State) : CollaborationState := default zeroCollaborationState (stCollaboration s).
Definition onCollab (f : CollaborationState → CollaborationState) (s : State) : State :=
  s <| stCollaboration := Some (f (collab s)) |>.

(** After it the collaboration is there, if only empty. *)
Definition NormalizeCollaboration (s : State) : State := onCollab id s.

Definition meta_of (s : State) (id : string) : TaskCoordination := default zeroTaskCoordination (csTasks (collab s) !! id).
Definition contract_of (s : State) (id : string) : TaskContract := default zeroTaskContract (csContracts (collab s) !! id).
Definition handoff_of (s : State) (id : string) : Handoff := default zeroHandoff (csHandoffs (collab s) !! id).
Definition report_of (s : State) (id : string) : WorkerReport := default zeroWorkerReport (csReports (collab s) !! id).
Definition submission_of (s : State) (id : string) : Submission := default zeroSubmission (csSubmissions (collab s) !! id).
Definition actionable_of (s : State) (id : string) : Actionable := default zeroActionable (csActionables (collab s) !! id).

Definition putMeta (m : TaskCoordination) (id : string) : State → State :=
  onCollab (λ v, v <| csTasks := <[id := m]> (csTasks v) |>).
Definition putContract (c : TaskContract) (id : string) : State → State :=
  onCollab (λ v, v <| csContracts := <[id := c]> (csContracts v) |>).
Definition putGrant (g : Grant) (id : string) : State → State :=
  onCollab (λ v, v <| csGrants := <[id := g]> (csGrants v) |>).
Definition putManifest (m : ContextManifest) (id : string) : State → State :=
  onCollab (λ v, v <| csManifests := <[id := m]> (csManifests v) |>).
Definition putReport (r : WorkerReport) (id : string) : State → State :=
  onCollab (λ v, v <| csReports := <[id := r]> (csReports v) |>).
Definition putActionable (a : Actionable) (id : string) : State → State :=
  onCollab (λ v, v <| csActionables := <[id := a]> (csActionables v) |>).
Definition putDisposition (d : Disposition) (id : string) : State → State :=
  onCollab (λ v, v <| csDispositions := <[id := d]> (csDispositions v) |>).
Definition putArtifact (a : Artifact) (id : string) : State → State :=
  onCollab (λ v, v <| csArtifacts := <[id := a]> (csArtifacts v) |>).
Definition putEvidence (e : Evidence) (id : string) : State → State :=
  onCollab (λ v, v <| csEvidence := <[id := e]> (csEvidence v) |>).
Definition putSubmission (x : Submission) (id : string) : State → State :=
  onCollab (λ v, v <| csSubmissions := <[id := x]> (csSubmissions v) |>).
Definition putDecision (d : Decision) (id : string) : State → State :=
  onCollab (λ v, v <| csDecisions := <[id := d]> (csDecisions v) |>).
Definition putHandoff (h : Handoff) (id : string) : State → State :=
  onCollab (λ v, v <| csHandoffs := <[id := h]> (csHandoffs v) |>).
Definition putAssistance (a : Assistance) (id : string) : State → State :=
  onCollab (λ v, v <| csAssistance := <[id := a]> (csAssistance v) |>).
Definition putRule (r : KnowledgeRule) (id : string) : State → State :=
  onCollab (λ v, v <| csKnowledge := <[id := r]> (csKnowledge v) |>).
Definition putReceipt (r : receipt CollaborationResult) (key : string) : State → State :=
  onCollab (λ v, v <| csReceipts := <[key := r]> (csReceipts v) |>).

(** A range over a map that changes entries one by one, independently. *)
Definition eachActionable (f : Actionable → Actionable) : State → State :=
  onCollab (λ v, v <| csActionables := f <$> csActionables v |>).

(** A range whose order can matter takes the keys as [order] gives them for
    that range; the value of a key is read when it is its turn. *)
Definition ordering := string → list string → list string.
Definition keys {A} (m : gmap string A) : list string := (map_to_list m).*1.
Definition range {A} (order : ordering) (site : string) (m : gmap string A) (f : string → State → State)
    (s : State) : State :=
  fold_left (λ s id, f id s) (order site (keys m)) s.

(** Any order will do for a question about the entries. *)
Definition values {A} (m : gmap string A) : list A := (map_to_list m).*2.

(** ** Hashes and identifiers *)
Inductive hashed :=
  | HStrings (l : list string)
  | HAction (taskID kind reportID submissionID : string) (revision : Z)
  | HContract (c : TaskContract)
  | HCommand (c : CollaborationCommand)
  | HLegacy (c : Command)
  | HManifest (contract : string) (decisions : list string) (inputs : list SourceRef) (required : string)
  | HSources (refs : list SourceRef).

Definition prefix24 (s : string) : string := String.substring 0 24 s.
Definition newline : string := String (Ascii.ascii_of_nat 10) "".
Definition show_bool (b : bool) : string := if b then "true" else "false".

(** [len([]rune(s))] of UTF-8 text: the bytes that do not continue a rune. *)
Definition starts_rune (a : Ascii.ascii) : bool :=
  let n := Ascii.nat_of_ascii a in (n <? 128)%nat || (192 <=? n)%nat.
Definition runes (s : string) : Z := Z.of_nat (countb starts_rune (String.list_ascii_of_string s)).
(** [string([]rune(s)[:n])] *)
Fixpoint take_runes (n : nat) (s : string) : string :=
  match s with
  | "" => ""
  | String a s' =>
      if starts_rune a then match n with O => "" | S n => String a (take_runes n s') end
      else String a (take_runes n s')
  end.

Definition actionableTerminal (state : string) : bool :=
  bool_decide (state = "resolved") || bool_decide (state = "superseded") || bool_decide (state = "cancelled").

Definition validateCriteria (criteria : list Criterion) : error :=
  if (length criteria =? 0)%nat || (40 <? length criteria)%nat then Some "invalid_criteria"
  else if existsb (λ c, str_empty (crID c) || (80 <? str_len (crID c)) || blank (crText c)
                        || (4000 <? str_len (crText c))) criteria
          || negb (bool_decide (NoDup (crID <$> criteria)))
  then Some "invalid_criteria" else None.

Definition revokeGrant (id : string) (at_ : Z) (s : State) : State :=
  match csGrants (collab s) !! id with
  | Some g => putGrant (g <| grRevokedAt := at_ |>) id s
  | None => s
  end.

Definition validGrant (taskID : string) (at_ : Z) (s : State) : error :=
  let meta := meta_of s taskID in
  match csGrants (collab s) !! mtGrantID meta with
  | None => Some "approval_required"
  | Some g =>
      if str_empty (grApprovedBy g) || negb (bool_decide (grContractID g = mtContractID meta))
         || negb (bool_decide (grContractHash g = tcHash (contract_of s (mtContractID meta))))
      then Some "approval_required"
      else if negb (grRevokedAt g =? 0) || (grExpiresAt g <=? at_) then Some "grant_expired"
      else None
  end.

Definition activeDecisionIDs (projectID taskID : string) (s : State) : list string :=
  let ds := filter (λ d, dcProjectID d = projectID) (values (csDecisions (collab s))) in
  sort_strings (dcID <$> filter (λ d, (dcTaskID d = "" ∨ dcTaskID d = taskID) ∧ dcID d ∉ (dcSupersedes <$> ds)) ds).

(** ** Sources *)
(** The project and version of a source ("" for none), or why it is refused. *)
Definition sourceVersion (ref : SourceRef) (s : State) : string * string + string :=
  let v := collab s in
  let id := srID ref in
  if bool_decide (srKind ref = "contract") then
    let c := contract_of s id in inl (tcProjectID c, decimal (tcRevision c))
  else if bool_decide (srKind ref = "artifact") then
    let a := default zeroArtifact (csArtifacts v !! id) in inl (arProjectID a, arDigest a)
  else if bool_decide (srKind ref = "evidence") then
    inl (ebProjectID (default zeroEvidence (csEvidence v !! id)), "")
  else if bool_decide (srKind ref = "decision") then
    inl (dcProjectID (default zeroDecision (csDecisions v !! id)), "")
  else if bool_decide (srKind ref = "report") then inl (wrProjectID (report_of s id), "")
  else if bool_decide (srKind ref = "submission") then
    let sub := submission_of s id in
    refuse "source_unavailable" when
      negb (bool_decide (sbStatus sub = "submitted"))
      || negb (bool_decide (mtContractID (meta_of s (sbTaskID sub)) = siContractID (sbInput sub)));
    inl (sbProjectID sub, decimal (sbVersion sub))
  else if bool_decide (srKind ref = "knowledge") then
    let rule := default zeroKnowledgeRule (csKnowledge v !! id) in
    refuse "source_stale" when negb (bool_decide (krState rule = "approved"));
    inl (krProjectID rule, decimal (krRevision rule))
  else inr "source_kind_forbidden".

Definition validateSource (projectID : string) (s : State) (ref : SourceRef) : error :=
  if str_empty (srID ref) || (200 <? str_len (srID ref)) then Some "invalid_source"
  else match sourceVersion ref s with
       | inr e => Some e
       | inl (sourceProject, version) =>
           if str_empty sourceProject || negb (bool_decide (sourceProject = projectID)) then Some "scope_forbidden"
           else if negb (str_empty (srVersion ref)) && negb (str_empty version)
                   && negb (bool_decide (srVersion ref = version)) then Some "source_stale"
           else None
       end.

Fixpoint firstError {A} (f : A → error) (l : list A) : error :=
  match l with
  | [] => None
  | x :: l => match f x with Some e => Some e | None => firstError f l end
  end.

(** [taskID] is not looked at by the code. *)
Definition validateSources (projectID taskID : string) (refs : list SourceRef) (s : State) : error :=
  if (100 <? length refs)%nat then Some "too_many_sources" else firstError (validateSource projectID s) refs.

Definition UnansweredBlocking (taskID : string) (s : State) : bool :=
  existsb (λ a, bool_decide (acTaskID a = taskID) && acBlocking a && negb (actionableTerminal (acState a))
                && (str_empty (acAnswerID a) || bool_decide (acKind a = "assistance_approval")))
    (values (csActionables (collab s))).

(** The open matters of a task. *)
Definition pendingOf (taskID : string) (a : Actionable) : bool :=
  bool_decide (acTaskID a = taskID) && negb (actionableTerminal (acState a)).

Definition SubmissionCovered (sub : Submission) (s : State) : bool :=
  forallb (λ c, negb (crMandatory c)
      || existsb (λ cv, bool_decide (cvCriterionID cv = crID c) && bool_decide (cvClaim cv = "passed")
                        && negb (length (cvEvidenceIDs cv) =? 0)%nat) (siCoverage (sbInput sub)))
    (tcCriteria (contract_of s (siContractID (sbInput sub)))).

Section digest.
Context (digestJSON : hashed → string).

Definition collaborationID (pre : string) (p : Principal) (mutation : string) : string :=
  cat [pre; "_"; prefix24 (digestJSON (HStrings [prID p; prSessionID p; prRunID p; mutation]))].

(** ** Context manifests *)
Definition manifestText (taskID : string) (contract : TaskContract) (decisions rules : list string) (s : State) : string :=
  cat ([ "[Bridge collaboration v2]"; newline; "Task: "; taskID; newline; "Contract: "; tcID contract; newline;
     "Outcome: "; tcOutcome contract; newline; "Sandbox upper bound: "; tcSandbox contract; newline ]
  ++ concat ((λ text, ["DO NOT: "; text; newline]) <$> tcNonGoals contract)
  ++ concat ((λ c, ["Acceptance "; crID c; " (mandatory="; show_bool (crMandatory c); "): "; crText c; newline])
     <$> tcCriteria contract)
  ++ concat ((λ id, ["Human decision "; id; ": ";
                   dcText (default zeroDecision (csDecisions (collab s) !! id)); newline]) <$> decisions)
  ++ concat ((λ r, ["Required input "; srKind r; "/"; srID r; " version="; srVersion r; newline]) <$> tcInputs contract)
  ++ concat ((λ id, ["Approved playbook "; id; ": ";
                   krText (default zeroKnowledgeRule (csKnowledge (collab s) !! id)); newline]) <$> rules)
  ++ [ "Reports are evidence, not approval. Use work_report for questions/progress and work_submit_result for delivery. Never mark a task accepted. Publication, deployment, deletion and further delegation require separate authority.";
     newline ]).

(** The keys of the playbooks in force for a task. *)
Definition approvedRules (projectID taskID : string) (s : State) : list string :=
  sort_strings ((filter (λ kr, krProjectID kr.2 = projectID ∧ krState kr.2 = "approved"
  ∧ (krTaskID kr.2 = "" ∨ krTaskID kr.2 = taskID)) (map_to_list (csKnowledge (collab s)))).*1).

Definition BuildManifest (taskID : string) (at_ maxCharacters : Z) (s : State) : outcome ContextManifest :=
  match stTasks s !! taskID with
  | None => inr "task_not_found"
  | Some task =>
  let contract := contract_of s (mtContractID (meta_of s taskID)) in
  refuse "contract_not_found" when str_empty (tcID contract);
  check (validateSources (tkProjectID task) (tkID task) (tcInputs contract) s);
  let decisions := activeDecisionIDs (tkProjectID task) taskID s in
  let rules := approvedRules (tkProjectID task) taskID s in
  let inputs := tcInputs contract ++ ((λ id, mkSourceRef "knowledge" id
    (decimal (krRevision (default zeroKnowledgeRule (csKnowledge (collab s) !! id)))) "") <$> rules) in
  let required := manifestText taskID contract decisions rules s in
  let maxCharacters := if maxCharacters <=? 0 then 24000 else maxCharacters in
  refuse "context_budget_insufficient" when maxCharacters <? runes required;
  let hash := digestJSON (HManifest (tcID contract) decisions inputs required) in
  let m := mkContextManifest (String.append "context_" (prefix24 hash)) (tkProjectID task) taskID (tcID contract)
             decisions inputs required hash at_ in
  match csManifests (collab s) !! cxID m with
  | Some previous => inl (s, previous)
  | None => inl (putManifest m (cxID m) s, m)
  end
  end.

Definition ManifestCurrent (id : string) (s : State) : bool :=
  match csManifests (collab s) !! id with
  | None => false
  | Some m =>
  bool_decide (mtContractID (meta_of s (cxTaskID m)) = cxContractID m)
  && bool_decide (digestJSON (HStrings (cxDecisionIDs m)) =
                  digestJSON (HStrings (activeDecisionIDs (cxProjectID m) (cxTaskID m) s)))
  && bool_decide (validateSources (cxProjectID m) (cxTaskID m) (cxInputs m) s = None)
  end.

(** ** Matters waiting for somebody *)
Definition newActionable (task : Task) (kind text assignee reportID submissionID : string) (blocking : bool)
  (at_ : Z) (s : State) : State * Actionable :=
  let id := String.append "action_" (prefix24 (digestJSON (HAction (tkID task) kind reportID submissionID (stRevision s)))) in
  let a := mkActionable id (tkProjectID task) (tkID task) reportID submissionID kind text assignee "open" "" blocking
         1 "" "" 0 at_ at_ in
  (putActionable a id s, a).

Definition WorkerSourceAllowed (taskID : string) (ref : SourceRef) (s : State) : bool :=
  match stTasks s !! taskID with
  | None => false
  | Some task =>
  let v := collab s in
  let id := srID ref in
  let owned (t : string) := bool_decide (t = taskID) in
  if bool_decide (validateSources (tkProjectID task) taskID [ref] s ≠ None) then false
  else if existsb (λ input, bool_decide (srKind input = srKind ref) && bool_decide (srID input = id))
            (tcInputs (contract_of s (mtContractID (meta_of s taskID)))) then true
  else if bool_decide (srKind ref = "contract") then owned (tcTaskID (contract_of s id))
  else if bool_decide (srKind ref = "artifact") then owned (arTaskID (default zeroArtifact (csArtifacts v !! id)))
  else if bool_decide (srKind ref = "evidence") then owned (ebTaskID (default zeroEvidence (csEvidence v !! id)))
  else if bool_decide (srKind ref = "report") then owned (wrTaskID (report_of s id))
  else if bool_decide (srKind ref = "decision") then
    let d := default zeroDecision (csDecisions v !! id) in str_empty (dcTaskID d) || owned (dcTaskID d)
  else if bool_decide (srKind ref = "knowledge") then
    let r := default zeroKnowledgeRule (csKnowledge v !! id) in str_empty (krTaskID r) || owned (krTaskID r)
  else if bool_decide (srKind ref = "submission") then
    owned (sbTaskID (submission_of s id))
    || existsb (λ a, bool_decide (as_RequesterTaskID a = taskID) && bool_decide (as_ResultSubmissionID a = id)
                     && (bool_decide (as_State a = "ready") || bool_decide (as_State a = "adopted")))
         (values (csAssistance v))
  else false
  end.
End digest.
