(* ===== verification/Collaboration.v ===== *)
(** * Commands on a version 2 task

    [applyTaskCommand], [applyReport], [applyDisposition] and
    [applySubmission] of [src/internal/coordination/collaboration.go].  They
    work on a copy of the state that is dropped when one of them fails, so an
    error carries no state.  [hash] of the version 1 engine is the same
    [digestJSON], of the command's intent. *)

From S2P Require Import Prelude Orders CoordTypes Coordination CollabState.

(** ** The embedded command *)
Definition action (c : CollaborationCommand) : string := cmAction (ccCommand c).
Definition projectOf (c : CollaborationCommand) : string := cmProjectID (ccCommand c).
Definition taskOf (c : CollaborationCommand) : string := cmTaskID (ccCommand c).
Definition textOf (c : CollaborationCommand) : string := cmText (ccCommand c).
Definition withCommand (f : Command → Command) (c : CollaborationCommand) : CollaborationCommand :=
  c <| ccCommand := f (ccCommand c) |>.
Definition setAction (a : string) : CollaborationCommand → CollaborationCommand :=
  withCommand (λ c, c <| cmAction := a |>).
Definition setText (t : string) : CollaborationCommand → CollaborationCommand :=
  withCommand (λ c, c <| cmText := t |>).
Definition isAction (c : CollaborationCommand) (l : list string) : bool := bool_decide (action c ∈ l).

Definition day : Z := 24 * 60 * 60 * 1000.

(** A result about the project and task of the command. *)
Definition resultAt (projectID taskID : string) : CollaborationResult :=
  zeroCollaborationResult <| clResult := zeroResult <| rsProjectID := projectID |> <| rsTaskID := taskID |> |>.

Section digest.
Context (digestJSON : hashed → string).

(** ** The checks of [applyTaskCommand] *)
(** [reopen]: the accepted task is under review again, and is reworked. *)
Definition reopened (p : Principal) (c : CollaborationCommand) (s : State)
  : (State * CollaborationCommand) + string :=
  if negb (isAction c ["reopen"]) then inl (s, c)
  else
  refuse "reopen_requires_human_feedback" when
    negb (prHuman p) || negb (bool_decide (is_Some (stTasks s !! taskOf c)))
    || negb (bool_decide (tkState (task_of s (taskOf c)) = "done")) || blank (textOf c);
  let task := (task_of s (taskOf c)) <| tkState := "review" |> in
  inl (putTask task (tkID task) s, setAction "rework" c).

Definition identityChecks (c : CollaborationCommand) (s : State) : error :=
  let hasTask := bool_decide (is_Some (stTasks s !! taskOf c)) in
  let meta := meta_of s (taskOf c) in
  if negb (isAction c ["propose"; "pause"; "resume"]) && negb hasTask then Some "task_not_found"
  else if hasTask && negb (ccExpectedEntityRevision c =? mtRevision meta) then Some "entity_revision_conflict"
  else if isAction c ["approve"; "accept"; "continue"]
        && (str_empty (ccContractID c) || negb (bool_decide (ccContractID c = mtContractID meta)))
  then Some "contract_stale" else None.

Definition acceptChecks (p : Principal) (c : CollaborationCommand) (s : State) : error :=
  if negb (isAction c ["accept"]) then None
  else
  let meta := meta_of s (taskOf c) in
  let task := task_of s (taskOf c) in
  if negb (prHuman p) then Some ErrForbidden
  else
    let sub := submission_of s (ccEntityID c) in
    if negb (bool_decide (is_Some (csSubmissions (collab s) !! ccEntityID c)))
       || negb (bool_decide (sbID sub = mtSubmissionID meta)) || negb (bool_decide (sbTaskID sub = tkID task))
       || negb (bool_decide (sbStatus sub = "submitted"))
       || negb (bool_decide (siContractID (sbInput sub) = mtContractID meta))
       || negb (ManifestCurrent digestJSON (siManifestID (sbInput sub)) s)
    then Some "submission_stale_or_unsealed"
    else if UnansweredBlocking (tkID task) s then Some "unresolved_blocking_question"
    else if blank (ccWaiver c) && negb (SubmissionCovered sub s) then Some "acceptance_evidence_or_waiver_required"
    else None.

Definition dispatchChecks (c : CollaborationCommand) (at_ : Z) (s : State) : error :=
  if negb (isAction c ["dispatch"]) then None
  else match validGrant (tkID (task_of s (taskOf c))) at_ s with
     | Some e => Some e
     | None => if mtNeedsContext (meta_of s (taskOf c)) then Some "context_incomplete" else None
     end.

(** What a grant may say; the deadline is at most a week away. *)
Definition grantChecks (c : CollaborationCommand) (at_ : Z) (s : State) : error :=
  if negb (isAction c ["approve"; "rework"; "continue"]) then None
  else
  let meta := meta_of s (taskOf c) in
  if negb (bool_decide (ccMode c ∈ [""; "strict_task"; "bounded_plan"])) then Some "invalid_approval_mode"
  else if (ccMaxRevisions c <? 0) || (2 <? ccMaxRevisions c)
          || negb (bool_decide (ccMode c = "bounded_plan")) && negb (ccMaxRevisions c =? 0)
  then Some "invalid_revision_budget"
  else if negb (ccDeadline c =? 0) && ((ccDeadline c <=? at_) || (at_ + 7 * day <? ccDeadline c))
  then Some "invalid_grant_deadline"
  else
    let incompleteHandback := negb (str_empty (mtHandoffID meta)) && negb (hoComplete (handoff_of s (mtHandoffID meta))) in
    if incompleteHandback || mtNeedsContext meta && negb (isAction c ["rework"])
    then Some "context_incomplete" else None.

(** A revised proposal puts the task under review, which version 1 expects. *)
Definition proposeStep (c : CollaborationCommand) (s : State) : State + string :=
  if negb (isAction c ["propose"]) then inl s
  else
  refuse "backend_capability_missing" when negb (bool_decide (cmBackend (ccCommand c) = "codex"));
  try s <- match stTasks s !! taskOf c with
           | None => inl s
           | Some task =>
               refuse "task_not_quiescent" when
                 negb (bool_decide (tkState task ∈ ["proposed"; "approved"; "review"; "failed"; "uncertain"; "waiting"]));
               refuse "pm_human_controls_task" when negb (bool_decide (tkOwner task = "pm"));
               inl (putTask (task <| tkState := "review" |>) (tkID task) s)
           end;
  check (validateSources (projectOf c) (taskOf c) (ccInputs c) s);
  inl s.

Definition revisionMark : string :=
  cat [newline; newline; "Human revision within the original task:"; newline].

Definition reworkStep (p : Principal) (c : CollaborationCommand) (s : State) : (State * CollaborationCommand) + string :=
  if negb (isAction c ["rework"; "continue"]) then inl (s, c)
  else
  refuse ErrForbidden when negb (prHuman p);
  let task := task_of s (taskOf c) in
  refuse "task_not_quiescent" when
    negb (bool_decide (tkOwner task = "pm"))
    || bool_decide (tkState task ∈ ["running"; "queued"; "provisioning"; "done"; "cancelled"]);
  try c <- (if isAction c ["continue"] then
              refuse "unresolved_blocking_question" when UnansweredBlocking (tkID task) s;
              inl (setAction "rework" (setText (tkInstruction task) c))
            else inl (setText (cat [tkInstruction task; revisionMark; textOf c]) c));
  inl (putTask (task <| tkState := "review" |>) (tkID task) s, c).

Definition handbackChecks (c : CollaborationCommand) : error :=
  if isAction c ["return_to_pm"] && blank (textOf c) then Some "handback_summary_required" else None.

(** The version 1 command it becomes. *)
Definition legacyOf (c : CollaborationCommand) : Command :=
  (ccCommand c) <| cmMutationID := String.append "v2-" (cmMutationID (ccCommand c)) |>.

Definition prepareTaskCommand (p : Principal) (c : CollaborationCommand) (at_ : Z) (s : State)
  : (State * CollaborationCommand) + string :=
  let c := withCommand (λ x, x <| cmExpectedRevision := pjRevision (project_of s (cmProjectID x)) |>) c in
  try (s, c) <- reopened p c s;
  check (identityChecks c s);
  check (acceptChecks p c s);
  check (dispatchChecks c at_ s);
  check (grantChecks c at_ s);
  try s <- proposeStep c s;
  try (s, c) <- reworkStep p c s;
  check (handbackChecks c);
  inl (s, c).

(** ** What a command records besides the version 1 transition

Each takes the task and its coordination and gives them back with the
rest of the state. *)
Definition taskUpdate : Type := State * Task * TaskCoordination.

Definition newContract (c : CollaborationCommand) (task : Task) (meta : TaskCoordination) (at_ : Z) (s : State)
  : TaskContract + string :=
  let prior := contract_of s (mtContractID meta) in
  let rework := isAction c ["rework"] in
  let criteria := if (length (ccCriteria c) =? 0)%nat && rework then tcCriteria prior else ccCriteria c in
  let criteria := if (length criteria =? 0)%nat then [mkCriterion "AC01" (tkAcceptance task) true] else criteria in
  check (validateCriteria criteria);
  let inputs := if rework then tcInputs prior else ccInputs c in
  let nonGoals := if rework then tcNonGoals prior else ccNonGoals c in
  let revision := u64_succ (tcRevision prior) in
  let contract := mkTaskContract (cat ["contract_"; tkID task; "_"; decimal revision]) (tkProjectID task) (tkID task)
  revision (tkInstruction task) nonGoals criteria inputs (ccSources c) (tkSandbox task) (tkBackend task)
  "general_delivery_v1" "" at_ in
  inl (contract <| tcHash := digestJSON (HContract contract) |>).

Definition recordContract (c : CollaborationCommand) (task : Task) (meta : TaskCoordination) (at_ : Z) (s : State)
  : taskUpdate + string :=
  try contract <- newContract c task meta at_ s;
  let s := putContract contract (tcID contract) s in
  let s := revokeGrant (mtGrantID meta) at_ s in
  let incomplete := negb (str_empty (mtHandoffID meta)) && negb (hoComplete (handoff_of s (mtHandoffID meta))) in
  let meta := meta <| mtContractID := tcID contract |> <| mtGrantID := "" |> <| mtManifestID := "" |>
  <| mtSubmissionID := "" |> <| mtReadiness := "pending_receipt" |> <| mtPhase := "preflight" |>
  <| mtNeedsContext := incomplete |> in
  inl (s, if isAction c ["rework"] then task <| tkState := "approved" |> else task, meta).

Definition recordTakeover (task : Task) (meta : TaskCoordination) (at_ : Z) (s : State) : taskUpdate :=
  let s := revokeGrant (mtGrantID meta) at_ s in
  let id := cat ["handoff_"; tkID task; "_"; decimal (tkEpoch task)] in
  let meta := meta <| mtReadiness := "stale" |> <| mtHandoffID := id |> in
  (putHandoff (mkHandoff id (tkProjectID task) (tkID task) (tkEpoch task) (stRevision s) (stRevision s) "" false
               "draft" "" at_) id s, task, meta).

Definition recordHandback (p : Principal) (c : CollaborationCommand) (task : Task) (meta : TaskCoordination)
  (at_ : Z) (s : State) : taskUpdate :=
  let handoff := (handoff_of s (mtHandoffID meta)) <| hoSummary := textOf c |> <| hoConfirmedBy := prID p |>
  <| hoComplete := ccComplete c |> <| hoStatus := "confirmed" |> <| hoThroughEvent := stRevision s |> in
  let s := putHandoff handoff (hoID handoff) s in
  let d := mkDecision (collaborationID digestJSON "decision" p (cmMutationID (ccCommand c))) (tkProjectID task)
           (tkID task) (textOf c) "" (ccSources c) (prID p) at_ in
  let s := putDecision d (dcID d) s in
  let meta := meta <| mtReadiness := "stale" |> <| mtNeedsContext := negb (ccComplete c) |> <| mtGrantID := "" |> in
  let task := task <| tkState := "waiting" |> in
  ((newActionable digestJSON task "handback" (textOf c) "pm" "" "" false at_ s).1, task, meta).

Definition closeMatter (state : string) (at_ : Z) (a : Actionable) : Actionable :=
  a <| acState := state |> <| acRevision := u64_succ (acRevision a) |> <| acUpdatedAt := at_ |>.

Definition recordAcceptance (c : CollaborationCommand) (task : Task) (meta : TaskCoordination) (at_ : Z) (s : State)
  : taskUpdate :=
  let meta := meta <| mtAcceptedSubmissionID := ccEntityID c |> <| mtAcceptedContractID := mtContractID meta |> in
  (eachActionable (λ a, if pendingOf (tkID task) a then closeMatter "resolved" at_ a else a) s, task, meta).

Definition recordCommand (p : Principal) (c : CollaborationCommand) (task : Task) (meta : TaskCoordination)
  (at_ : Z) (s : State) : taskUpdate + string :=
  if isAction c ["propose"; "rework"] then recordContract c task meta at_ s
  else if isAction c ["take_over"] then inl (recordTakeover task meta at_ s)
  else if isAction c ["return_to_pm"] then inl (recordHandback p c task meta at_ s)
  else if isAction c ["accept"] then inl (recordAcceptance c task meta at_ s)
  else inl (s, task, meta).

(** Matters a new grant makes moot: about an older basis of the task. *)
Definition mootKinds : list string :=
  ["grant_expired"; "input_version_changed"; "decision_changed"; "handback"; "missing_submission";
   "preflight_incomplete"; "submission"].
Definition moot (taskID contractID : string) (s : State) (a : Actionable) : bool :=
  let oldReport := report_of s (acReportID a) in
  pendingOf taskID a
  && (bool_decide (acKind a ∈ mootKinds)
    || negb (str_empty (wrID oldReport)) && negb (bool_decide (riContractID (wrInput oldReport) = contractID))
       && str_empty (acAnswerID a)).

(** [approve] and [rework] end in a grant, a manifest and a preflight run. *)
Definition recordGrant (p : Principal) (c : CollaborationCommand) (task : Task) (meta : TaskCoordination)
  (at_ : Z) (s : State) : taskUpdate + string :=
  if negb (isAction c ["approve"; "rework"]) then inl (s, task, meta)
  else
  let mode := if str_empty (ccMode c) then "strict_task" else ccMode c in
  let expires := if ccDeadline c =? 0 then at_ + day else ccDeadline c in
  let contract := contract_of s (mtContractID meta) in
  let grant := mkGrant (collaborationID digestJSON "grant" p (cmMutationID (ccCommand c))) (tkProjectID task)
    (tkID task) (tcID contract) (tcHash contract) (prID p) mode (ccMaxRevisions c) 0 expires 0 at_ in
  let s := putGrant grant (grID grant) s in
  let meta := meta <| mtGrantID := grID grant |> <| mtPhase := "preflight" |> <| mtReadiness := "pending_receipt" |> in
  let s := eachActionable (λ a, if moot (tkID task) (mtContractID meta) s a
             then closeMatter "superseded" at_ (a <| acWaitingReason := "new_contract_approved" |>) else a) s in
  let s := putMeta meta (tkID task) s in
  try (s, manifest) <- BuildManifest digestJSON (tkID task) at_ 24000 s;
  let meta := meta <| mtManifestID := cxID manifest |> in
  let task := task <| tkRunID := String.append (runID (tkID task) (tkEpoch task)) "_preflight" |>
    <| tkRequestID := String.append (requestID (tkID task) (tkEpoch task)) "_preflight" |>
    <| tkProvisioned := false |> in
  inl (putTask task (tkID task) (putMeta meta (tkID task) s), task, meta).

Definition newMeta (task : Task) : TaskCoordination :=
  zeroTaskCoordination <| mtID := tkID task |> <| mtProjectID := tkProjectID task |>
  <| mtReadiness := "pending_receipt" |> <| mtPhase := "preflight" |>.

Definition resetProgress (projectID : string) : State → State :=
  onCollab (λ v, v <| csTasks := (λ m, if bool_decide (mtProjectID m = projectID)
                                     then m <| mtNoProgressRounds := 0 |> else m) <$> csTasks v |>).

Definition applyTaskCommand (p : Principal) (c : CollaborationCommand) (at_ : Z) (s : State)
  : outcome CollaborationResult :=
  try (s, c) <- prepareTaskCommand p c at_ s;
  try (s, result) <- applyLegacy (λ x, digestJSON (HLegacy x)) p (legacyOf c) at_ s;
  let out := zeroCollaborationResult <| clResult := result |> in
  if isAction c ["pause"; "resume"] then
  inl (if isAction c ["resume"] then resetProgress (projectOf c) s else s, out)
  else
  let task := task_of s (rsTaskID result) in
  let meta := meta_of s (tkID task) in
  let meta := if str_empty (mtID meta) then newMeta task else meta in
  let meta := meta <| mtRevision := u64_succ (mtRevision meta) |> in
  try (s, task, meta) <- recordCommand p c task meta at_ s;
  let s := putTask task (tkID task) (putMeta meta (tkID task) s) in
  try (s, task, meta) <- recordGrant p c task meta at_ s;
  inl (s, out <| clEntityID := tkID task |> <| clEntityRevision := mtRevision meta |>).
End digest.
