(* ===== verification/CollabReports.v ===== *)
(** * Reports, answers and deliveries of a version 2 task

    [applyReport], [applyDisposition] and [applySubmission] of
    [src/internal/coordination/collaboration.go], and the artifacts a worker
    stores, [saveCollaborationArtifact] of
    [src/internal/core/collaboration_artifacts.go]. *)

From S2P Require Import Prelude CoordTypes Coordination CollabState Collaboration.

Section digest.
Context (digestJSON : hashed → string).

(** ** Reports *)
Definition reportChecks (c : CollaborationCommand) (r : ReportInput) (s : State) : error :=
  let task := task_of s (taskOf c) in
  let meta := meta_of s (taskOf c) in
  if negb (bool_decide (riContractID r = mtContractID meta)) || negb (bool_decide (riManifestID r = mtManifestID meta))
   || negb (ManifestCurrent digestJSON (riManifestID r) s) then Some "contract_stale"
  else if blank (riText r) || (16000 <? str_len (riText r)) then Some "report_invalid"
  else match validateSources (tkProjectID task) (tkID task) (riSources r) s with
     | Some e => Some e
     | None => if existsb (λ ref, negb (WorkerSourceAllowed (tkID task) ref s)) (riSources r)
               then Some "scope_forbidden" else None
     end.

(** What the kind of a report changes before it is stored. *)
Definition reportEffect (c : CollaborationCommand) (r : ReportInput) (at_ : Z) (s : State) : State + string :=
  let task := task_of s (taskOf c) in
  let meta := meta_of s (taskOf c) in
  if bool_decide (riKind r = "received") then
  refuse "invalid_receipt" when
    negb (bool_decide (mtPhase meta = "preflight"))
    || negb (bool_decide (riReadiness r = "confirmed")) && negb (bool_decide (riReadiness r = "needs_clarification"));
  inl (putMeta (meta <| mtReadiness := riReadiness r |> <| mtRevision := u64_succ (mtRevision meta) |>) (tkID task) s)
  else if bool_decide (riKind r ∈ ["progress"; "checkpoint"; "question"; "blocked"; "change_requested"]) then inl s
  else if bool_decide (riKind r = "answer_ack") then
  let a := actionable_of s (riQuestionID r) in
  refuse "answer_stale" when
    negb (bool_decide (is_Some (csActionables (collab s) !! riQuestionID r)))
    || negb (bool_decide (acTaskID a = tkID task)) || str_empty (acAnswerID a)
    || negb (bool_decide (acAnswerID a = riAnswerID r)) || actionableTerminal (acState a);
  let a := if riAdopted r then a <| acState := "resolved" |> <| acWaitingReason := "" |>
           else a <| acState := "open" |> <| acAssignee := "pm" |> <| acWaitingReason := "" |>
                  <| acAnswerID := "" |> <| acAnswer := "" |> in
  inl (putActionable (a <| acRevision := u64_succ (acRevision a) |> <| acUpdatedAt := at_ |>) (acID a) s)
  else inr "report_kind_invalid".

Definition wakes (r : ReportInput) : bool :=
  bool_decide (riKind r ∈ ["question"; "blocked"; "change_requested"; "answer_ack"])
  || bool_decide (riKind r = "received") && bool_decide (riReadiness r = "needs_clarification").

Definition maxPending : nat := 8.
Definition pendingCount (taskID : string) (s : State) : nat :=
  length (List.filter (pendingOf taskID) (values (csActionables (collab s)))).

Definition applyReport (p : Principal) (c : CollaborationCommand) (r : ReportInput) (at_ : Z) (s : State)
  : outcome CollaborationResult :=
  let task := task_of s (taskOf c) in
  let meta := meta_of s (taskOf c) in
  check (reportChecks c r s);
  try s <- reportEffect c r at_ s;
  let id := collaborationID digestJSON "report" p (cmMutationID (ccCommand c)) in
  let s := putReport (mkWorkerReport id (tkProjectID task) (tkID task) (prSessionID p) (prRunID p) (prEpoch p)
           (String.append "agent:" (prSessionID p)) r false at_) id s in
  let opens := wakes r && negb (bool_decide (riKind r = "answer_ack")) in
  refuse "pending_question_limit_resolve_existing_first" when
  opens && (maxPending <=? pendingCount (tkID task) s)%nat;
  let s := AddEvent p (tkProjectID task) (tkID task) (String.append "worker_report_" (riKind r)) (riText r)
           (mtActiveRequestID meta) at_ (wakes r) s in
  let out := zeroCollaborationResult
  <| clResult := mkResult (projectOf c) (tkID task) (tkSessionID task) 0 |>
  <| clEntityID := id |> <| clEntityRevision := 1 |> in
  if opens then
  let assignee := if bool_decide (riDecisionOwner r = "human") then "human" else "pm" in
  let blocking := riBlocking r || bool_decide (riKind r = "blocked") || bool_decide (riKind r = "change_requested")
                  || bool_decide (riReadiness r = "needs_clarification") in
  let '(s, a) := newActionable digestJSON task (riKind r) (riText r) assignee id "" blocking at_ s in
  inl (s, out <| clActionableID := acID a |>)
  else inl (s, out).

(** ** Answers and other dispositions *)
Definition dispositionChecks (p : Principal) (c : CollaborationCommand) (d : DispositionInput) (s : State) : error :=
  let a := actionable_of s (diActionableID d) in
  if negb (bool_decide (is_Some (csActionables (collab s) !! diActionableID d)))
   || negb (bool_decide (acProjectID a = projectOf c)) then Some "scope_forbidden"
  else if negb (acRevision a =? ccExpectedEntityRevision c) then Some "entity_revision_conflict"
  else if actionableTerminal (acState a) then Some "actionable_closed"
  else if blank (diText d) || (16000 <? str_len (diText d)) then Some "disposition_reason_required"
  else if negb (prHuman p) && negb (bool_decide (acAssignee a = "pm")) then Some "actionable_not_assigned"
  else validateSources (projectOf c) (acTaskID a) (diSources d) s.

Definition waitFor (assignee reason : string) (a : Actionable) : Actionable :=
  a <| acState := "waiting" |> <| acAssignee := assignee |> <| acWaitingReason := reason |>.

Definition disposed (p : Principal) (d : DispositionInput) (id : string) (at_ : Z) (s : State) (a : Actionable)
  : Actionable + string :=
  if bool_decide (diAction d = "answer_from_context") then
  refuse "not_a_question" when negb (bool_decide (acKind a ∈ ["question"; "received"; "blocked"]));
  refuse "answer_source_required" when negb (prHuman p) && (length (diSources d) =? 0)%nat;
  inl (waitFor "worker" "answer_ack" (a <| acAnswerID := id |> <| acAnswer := diText d |>))
  else if bool_decide (diAction d = "escalate_to_human") then inl (waitFor "human" "decision" a)
  else if bool_decide (diAction d = "recommend_acceptance") then
  refuse "submission_unsealed" when
    str_empty (acSubmissionID a)
    || negb (bool_decide (sbStatus (submission_of s (acSubmissionID a)) = "submitted"));
  inl (waitFor "human" "acceptance" a)
  else if bool_decide (diAction d ∈ ["ask_for_evidence"; "propose_rework"]) then inl (waitFor "human" "approve_rework" a)
  else if bool_decide (diAction d = "defer") then
  inl ((waitFor (acAssignee a) "deferred" a) <| acDueAt := at_ + 5 * 60 * 1000 |>)
  else inr "disposition_action_invalid".

Definition applyDisposition (p : Principal) (c : CollaborationCommand) (d : DispositionInput) (at_ : Z) (s : State)
  : outcome CollaborationResult :=
  let a := actionable_of s (diActionableID d) in
  check (dispositionChecks p c d s);
  let id := collaborationID digestJSON "disposition" p (cmMutationID (ccCommand c)) in
  try a <- disposed p d id at_ s a;
  let a := a <| acRevision := u64_succ (acRevision a) |> <| acUpdatedAt := at_ |> in
  let s := putActionable a (acID a) s in
  let by_ := if prHuman p then String.append "human:" (prID p) else String.append "agent:" (prSessionID p) in
  let s := putDisposition (mkDisposition id (acProjectID a) (acTaskID a) (acID a) (diAction d) (diText d) by_
           (diSources d) at_) id s in
  let s := AddEvent p (acProjectID a) (acTaskID a) "report_disposed" (diText d) "" at_ (prHuman p) s in
  inl (s, (resultAt (projectOf c) (acTaskID a))
          <| clEntityID := id |> <| clEntityRevision := acRevision a |> <| clActionableID := acID a |>).

(** ** Submissions *)
Definition claims : list string := ["passed"; "failed"; "unknown"; "not_run"].

(** The coverage is read in order; [seen] are the criteria met so far. *)
Fixpoint coverageChecks (taskID : string) (contract : TaskContract) (s : State) (seen : list string)
  (entries : list Coverage) : error :=
  match entries with
  | [] => if existsb (λ c, negb (bool_decide (crID c ∈ seen))) (tcCriteria contract)
        then Some "coverage_incomplete" else None
  | e :: entries =>
    if bool_decide (cvCriterionID e ∈ seen) then Some "coverage_duplicate"
    else if negb (existsb (λ c, bool_decide (crID c = cvCriterionID e)) (tcCriteria contract))
    then Some "criterion_unknown"
    else if negb (bool_decide (cvClaim e ∈ claims)) then Some "coverage_invalid"
    else if existsb (λ id, negb (bool_decide (is_Some (csEvidence (collab s) !! id)))
              || negb (bool_decide (ebTaskID (default zeroEvidence (csEvidence (collab s) !! id)) = taskID)))
              (cvEvidenceIDs e)
    then Some "scope_forbidden"
    else coverageChecks taskID contract s (cvCriterionID e :: seen) entries
  end.

Definition submissionChecks (c : CollaborationCommand) (input : SubmissionInput) (s : State) : error :=
  let meta := meta_of s (taskOf c) in
  let task := task_of s (taskOf c) in
  if negb (bool_decide (mtPhase meta = "execution")) || negb (bool_decide (mtReadiness meta = "confirmed"))
  then Some "task_not_ready"
  else if negb (bool_decide (siContractID input = mtContractID meta))
        || negb (bool_decide (siManifestID input = mtManifestID meta))
        || negb (ManifestCurrent digestJSON (siManifestID input) s) then Some "contract_stale"
  else if blank (siSummary input) || (16000 <? str_len (siSummary input))
        || (length (siArtifactIDs input) =? 0)%nat || (40 <? length (siArtifactIDs input))%nat
  then Some "submission_incomplete"
  else if existsb (λ id, negb (bool_decide (is_Some (csArtifacts (collab s) !! id)))
          || negb (bool_decide (arTaskID (default zeroArtifact (csArtifacts (collab s) !! id)) = tkID task)))
          (siArtifactIDs input)
  then Some "scope_forbidden"
  else coverageChecks (tkID task) (contract_of s (mtContractID meta)) s [] (siCoverage input).

(** One more than every version of the task so far. *)
Definition nextVersion (taskID : string) (s : State) : Z :=
  fold_left (λ version old, if bool_decide (sbTaskID old = taskID) && (version <=? sbVersion old)
                          then u64_succ (sbVersion old) else version)
  (values (csSubmissions (collab s))) 1.

Definition supersede (id : string) (s : State) : State :=
  match csSubmissions (collab s) !! id with
  | Some old => putSubmission (old <| sbStatus := "superseded" |>) (sbID old) s
  | None => s
  end.

Definition applySubmission (p : Principal) (c : CollaborationCommand) (input : SubmissionInput) (at_ : Z) (s : State)
  : outcome CollaborationResult :=
  let meta := meta_of s (taskOf c) in
  let task := task_of s (taskOf c) in
  check (submissionChecks c input s);
  let version := nextVersion (tkID task) s in
  let id := collaborationID digestJSON "submission" p (cmMutationID (ccCommand c)) in
  let sub := mkSubmission id (tkProjectID task) (tkID task) (prRunID p) (prEpoch p) version input "sealing_pending" at_ in
  let s := putSubmission sub id (supersede (mtSubmissionID meta) s) in
  let meta := meta <| mtSubmissionID := id |> <| mtRevision := u64_succ (mtRevision meta) |> in
  let s := putMeta meta (tkID task) s in
  let s := AddEvent p (tkProjectID task) (tkID task) "submission_received" (siSummary input)
           (mtActiveRequestID meta) at_ false s in
  inl (s, (resultAt (projectOf c) (tkID task)) <| clEntityID := id |> <| clEntityRevision := version |>).
End digest.
