(* ===== verification/Cooperation.v ===== *)
(** * Decisions, assistance, playbooks and the runs of a task

    [src/internal/coordination/collaboration_cooperation.go]: the commands of
    [applyCooperation], the admission and the end of a worker's run, the
    queries, and the upgrade of a version 1 project. *)

From S2P Require Import Prelude Orders CoordTypes Coordination CollabState Collaboration CollabReports.

Section digest.
Context (digestJSON : hashed → string) (order : ordering).

Definition minute : Z := 60 * 1000.

(** ** [applyCooperation], one definition per action

Each gives the identifier and the revision of the entity ([0] when the
code leaves it to become 1), and what else goes into the result. *)
Record done_ := mkDone { doID : string; doRevision : Z; doTaskID : string; doSessionID : string; doActionableID : string }.
Definition isPM (p : Principal) (project : Project) : bool :=
  bool_decide (prSessionID p = pjPMSessionID project) && negb (prHuman p).

(** A decision makes the basis of the tasks it concerns stale. *)
Definition decideTask (pid : string) (c : CollaborationCommand) (at_ : Z) (taskID : string) (s : State) : State :=
  match csTasks (collab s) !! taskID with
  | None => s
  | Some m =>
    if negb (bool_decide (mtProjectID m = pid))
       || negb (str_empty (taskOf c)) && negb (bool_decide (taskID = taskOf c)) then s
    else
      let s := putMeta (m <| mtReadiness := "stale" |> <| mtNeedsContext := true |>
                          <| mtRevision := u64_succ (mtRevision m) |>) taskID s in
      let s := revokeGrant (mtGrantID m) at_ s in
      let s := if negb (bool_decide (tkState (task_of s taskID) = "done")) then supersede (mtSubmissionID m) s else s in
      (newActionable digestJSON (task_of s taskID) "decision_changed" (textOf c) "pm" "" "" false at_ s).1
  end.

Definition decision (p : Principal) (c : CollaborationCommand) (id : string) (at_ : Z) (s : State) : outcome done_ :=
  let pid := pjID (project_of s (projectOf c)) in
  refuse ErrForbidden when negb (prHuman p);
  refuse "decision_text_required" when blank (textOf c);
  let previous := csDecisions (collab s) !! ccSupersedes c in
  let d := default zeroDecision previous in
  refuse "decision_scope_conflict" when
  negb (str_empty (ccSupersedes c))
  && (negb (bool_decide (is_Some previous)) || negb (bool_decide (dcProjectID d = pid))
      || negb (bool_decide (dcTaskID d = taskOf c)));
  check (validateSources pid (taskOf c) (ccSources c) s);
  let s := putDecision (mkDecision id pid (taskOf c) (textOf c) (ccSupersedes c) (ccSources c) (prID p) at_) id s in
  inl (range order "decision" (csTasks (collab s)) (decideTask pid c at_) s, mkDone id 0 "" "" "").

Definition eventLine (e : Event) : string := cat ["["; evKind e; "] "; evText e; newline].

Definition prepareHandback (p : Principal) (c : CollaborationCommand) (s : State) : outcome done_ :=
  let project := project_of s (projectOf c) in
  let task := task_of s (taskOf c) in
  let meta := meta_of s (taskOf c) in
  refuse ErrForbidden when negb (prHuman p) && negb (isPM p project);
  refuse "human_control_required" when negb (bool_decide (tkOwner task = "human")) || str_empty (mtHandoffID meta);
  let h := handoff_of s (mtHandoffID meta) in
  let draft := cat (eventLine <$> List.filter (λ e, bool_decide (evTaskID e = tkID task) && (hoFromEvent h <? evID e)) (stEvents s)) in
  let summary := if blank (textOf c) then draft else textOf c in
  let summary := if 16000 <? runes summary then take_runes (Z.to_nat 16000) summary else summary in
  let h := h <| hoThroughEvent := stRevision s |> <| hoSummary := summary |> <| hoComplete := false |> in
  inl (putHandoff h (hoID h) s, mkDone (hoID h) 0 "" "" "").

Definition endTask (task : Task) (s : State) : State :=
  putTask (task <| tkState := "cancelled" |> <| tkEpoch := u64_succ (tkEpoch task) |>) (tkID task) s.

(** The helper's task ends with the assistance it was made for. *)
Definition endHelper (targetID : string) (spared : list string) (at_ : Z) (s : State) : State :=
  match stTasks s !! targetID with
  | None => s
  | Some target =>
    if bool_decide (tkOwner target = "pm") && negb (bool_decide (tkState target ∈ spared))
    then revokeGrant (mtGrantID (meta_of s (tkID target))) at_ (endTask target s) else s
  end.

Definition cancelAssistance (taskID : string) (at_ : Z) (aid : string) (s : State) : State :=
  match csAssistance (collab s) !! aid with
  | None => s
  | Some a =>
    if bool_decide (as_RequesterTaskID a = taskID) && negb (bool_decide (as_State a = "adopted")) then
      let s := putAssistance (a <| as_State := "cancelled" |> <| as_Revision := u64_succ (as_Revision a) |>) aid s in
      endHelper (as_TargetTaskID a) ["done"] at_ s
    else s
  end.

Definition cancel (p : Principal) (c : CollaborationCommand) (id : string) (at_ : Z) (s : State) : outcome done_ :=
  let task := task_of s (taskOf c) in
  let meta := meta_of s (taskOf c) in
  refuse ErrForbidden when negb (prHuman p);
  refuse "entity_revision_conflict" when negb (mtRevision meta =? ccExpectedEntityRevision c);
  refuse "task_not_active" when str_empty (tkID task) || bool_decide (tkState task = "done");
  let s := revokeGrant (mtGrantID meta) at_ s in
  let s := putMeta (meta <| mtRevision := u64_succ (mtRevision meta) |>) (tkID task) (endTask task s) in
  let s := eachActionable (λ a, if pendingOf (tkID task) a then closeMatter "cancelled" at_ a else a) s in
  inl (range order "assistance" (csAssistance (collab s)) (cancelAssistance (tkID task) at_) s, mkDone id 0 "" "" "").

Definition sameRequest (task : Task) (c : CollaborationCommand) (a : Assistance) : bool :=
  bool_decide (as_RequesterTaskID a = tkID task) && (as_RequesterEpoch a =? tkEpoch task)
  && bool_decide (as_Text a = textOf c) && bool_decide (as_Mode a = ccMode c)
  && bool_decide (digestJSON (HSources (as_Inputs a)) = digestJSON (HSources (ccInputs c)))
  && negb (bool_decide (as_State a ∈ ["cancelled"; "expired"])).

(** The first equal request met, if any, answers at once: [inr]. *)
Definition requestAssistance (p : Principal) (c : CollaborationCommand) (id : string) (at_ : Z) (s : State)
  : outcome (done_ + Assistance) :=
  let project := project_of s (projectOf c) in
  let task := task_of s (taskOf c) in
  refuse "recursive_assistance_forbidden" when
  str_empty (tkID task) || negb (str_empty (mtAssistanceID (meta_of s (taskOf c))));
  refuse "assistance_mode_invalid" when negb (bool_decide (ccMode c ∈ ["consult"; "review"]));
  refuse "assistance_question_required" when blank (textOf c) || (8000 <? str_len (textOf c));
  check (validateSources (pjID project) (tkID task) (ccInputs c) s);
  refuse "scope_forbidden" when
  negb (prHuman p) && negb (isPM p project)
  && existsb (λ ref, negb (WorkerSourceAllowed (tkID task) ref s)) (ccInputs c);
  let lookup (aid : string) := default zeroAssistance (csAssistance (collab s) !! aid) in
  match find (λ aid, sameRequest task c (lookup aid)) (order "request" (keys (csAssistance (collab s)))) with
  | Some aid => inl (s, inr (lookup aid))
  | None =>
    let deadline := if ccDeadline c =? 0 then at_ + 30 * minute else ccDeadline c in
    refuse "invalid_assistance_deadline" when (deadline <=? at_) || (at_ + day <? deadline);
    let s := putAssistance (mkAssistance id (pjID project) (tkID task) (tkEpoch task) "" (ccMode c) (textOf c)
               (ccInputs c) (ccBlocking c) "proposed" "" 1 deadline at_) id s in
    let '(s, a) := newActionable digestJSON task "assistance_approval" (textOf c) "human" "" "" (ccBlocking c) at_ s in
    let s := putActionable (a <| acAnswerID := id |>) (acID a) s in
    inl (s, inl (mkDone id 0 "" "" (acID a)))
  end.

Definition assistanceProposal (pid id : string) (a : Assistance) (requester : Task)
  : CollaborationCommand :=
  zeroCollaborationCommand <| ccCommand :=
    zeroCommand <| cmAction := "propose" |> <| cmProjectID := pid |>
      <| cmMutationID := String.append id "-task" |> <| cmTitle := cat [as_Mode a; " · "; tkTitle requester] |>
      <| cmReason := as_Text a |> <| cmInstruction := as_Text a |>
      <| cmAcceptance := "Answer the exact request, cite the supplied sources, and state uncertainty. Do not modify source artifacts or create further agents." |>
      <| cmBackend := "codex" |> <| cmSandbox := "read-only" |> |>
  <| ccInputs := as_Inputs a |>
  <| ccNonGoals := ["Do not modify the requester artifacts."; "Do not delegate or create further sessions."] |>.

Definition internalCommand (pid what taskID mutation : string) (projectRevision revision : Z)
  : CollaborationCommand :=
  zeroCollaborationCommand <| ccCommand :=
    zeroCommand <| cmAction := what |> <| cmProjectID := pid |> <| cmTaskID := taskID |>
      <| cmMutationID := mutation |> <| cmExpectedRevision := projectRevision |> |>
  <| ccExpectedEntityRevision := revision |>.

Definition matterOf (a : Assistance) (x : Actionable) : bool :=
  bool_decide (acKind x = "assistance_approval") && bool_decide (acAnswerID x = as_ID a).

(** The human's approval proposes, approves and dispatches a helper's task. *)
Definition approveAssistance (p : Principal) (c : CollaborationCommand) (id : string) (at_ : Z) (s : State)
  : outcome done_ :=
  let pid := pjID (project_of s (projectOf c)) in
  refuse ErrForbidden when negb (prHuman p);
  let a := default zeroAssistance (csAssistance (collab s) !! ccEntityID c) in
  refuse "scope_forbidden" when
  negb (bool_decide (is_Some (csAssistance (collab s) !! ccEntityID c)))
  || negb (bool_decide (as_ProjectID a = pid));
  refuse "entity_revision_conflict" when negb (as_Revision a =? ccExpectedEntityRevision c);
  let requester := task_of s (as_RequesterTaskID a) in
  refuse "assistance_stale" when
  negb (bool_decide (as_State a = "proposed")) || (as_Deadline a <=? at_)
  || negb (tkEpoch requester =? as_RequesterEpoch a) || negb (bool_decide (tkOwner requester = "pm"))
  || bool_decide (tkState requester = "cancelled");
  refuse "assistance_limit" when
  (2 <=? length (List.filter (λ x, bool_decide (as_RequesterTaskID x = as_RequesterTaskID a)
                              && bool_decide (as_State x = "running")) (values (csAssistance (collab s)))))%nat;
  try (s, created) <- applyTaskCommand digestJSON p (assistanceProposal pid id a requester) at_ s;
  let taskID := rsTaskID (clResult created) in
  let targetMeta := (meta_of s taskID) <| mtAssistanceID := as_ID a |> in
  let s := putMeta targetMeta taskID s in
  try (s, approved) <- applyTaskCommand digestJSON p
  ((internalCommand pid "approve" taskID (String.append id "-approve") (pjRevision (project_of s pid))
      (mtRevision targetMeta)) <| ccContractID := mtContractID targetMeta |>) at_ s;
  try (s, _) <- applyTaskCommand digestJSON p
  (internalCommand pid "dispatch" taskID (String.append id "-dispatch") (pjRevision (project_of s pid))
     (clEntityRevision approved)) at_ s;
  let a := a <| as_TargetTaskID := taskID |> <| as_State := "running" |> <| as_Revision := u64_succ (as_Revision a) |> in
  let s := putAssistance a (as_ID a) s in
  let s := eachActionable (λ x, if bool_decide (acTaskID x = tkID requester) && matterOf a x
           then (waitFor "worker" "assistance" x) <| acRevision := u64_succ (acRevision x) |> else x) s in
  inl (s, mkDone (as_ID a) (as_Revision a) taskID (rsSessionID (clResult created)) "").

Definition adoptAssistance (c : CollaborationCommand) (at_ : Z) (s : State) : outcome done_ :=
  let task := task_of s (taskOf c) in
  let a := default zeroAssistance (csAssistance (collab s) !! ccEntityID c) in
  refuse "scope_forbidden" when
  negb (bool_decide (is_Some (csAssistance (collab s) !! ccEntityID c)))
  || negb (bool_decide (as_ProjectID a = pjID (project_of s (projectOf c))))
  || negb (bool_decide (as_RequesterTaskID a = tkID task));
  refuse "entity_revision_conflict" when negb (as_Revision a =? ccExpectedEntityRevision c);
  refuse "assistance_stale" when
  negb (bool_decide (as_State a = "ready")) || negb (as_RequesterEpoch a =? tkEpoch task) || (as_Deadline a <=? at_);
  let a := a <| as_State := "adopted" |> <| as_Revision := u64_succ (as_Revision a) |> in
  let s := putAssistance a (as_ID a) s in
  let s := eachActionable (λ x, if bool_decide (acTaskID x = tkID task) && matterOf a x
           then x <| acState := "resolved" |> <| acRevision := u64_succ (acRevision x) |> else x) s in
  inl (s, mkDone (as_ID a) (as_Revision a) "" "" "").

(** The PM may run the same contract again within the budget of the grant. *)
Definition retry (p : Principal) (c : CollaborationCommand) (id : string) (at_ : Z) (s : State) : outcome done_ :=
  let task := task_of s (taskOf c) in
  let meta := meta_of s (taskOf c) in
  refuse ErrForbidden when negb (isPM p (project_of s (projectOf c)));
  refuse "task_not_quiescent" when
  negb (bool_decide (tkOwner task = "pm")) || negb (bool_decide (tkState task ∈ ["review"; "waiting"; "failed"]));
  check (validGrant (tkID task) at_ s);
  let g := default zeroGrant (csGrants (collab s) !! mtGrantID meta) in
  refuse "budget_exhausted" when
  negb (bool_decide (grMode g = "bounded_plan")) || (grMaxRevisions g <=? grUsedRevisions g);
  refuse "task_not_ready" when UnansweredBlocking (tkID task) s || negb (ManifestCurrent digestJSON (mtManifestID meta) s);
  refuse "retry_cannot_change_contract" when
  negb (str_empty (textOf c)) || negb (str_empty (cmInstruction (ccCommand c)));
  let s := putGrant (g <| grUsedRevisions := grUsedRevisions g + 1 |>) (grID g) s in
  let epoch := u64_succ (tkEpoch task) in
  let task := task <| tkEpoch := epoch |> <| tkRunID := String.append (runID (tkID task) epoch) "_execute" |>
  <| tkRequestID := String.append (requestID (tkID task) epoch) "_execute" |> <| tkDispatchEpoch := epoch |>
  <| tkState := "provisioning" |> <| tkProvisioned := false |> in
  let meta := meta <| mtPhase := "execution" |> <| mtRevision := u64_succ (mtRevision meta) |> <| mtSubmissionID := "" |> in
  inl (putMeta meta (tkID task) (putTask task (tkID task) s), mkDone id (mtRevision meta) "" "" "").

Definition proposeRule (c : CollaborationCommand) (id : string) (at_ : Z) (s : State) : outcome done_ :=
  refuse "rule_sources_required" when
  blank (textOf c) || (8000 <? str_len (textOf c)) || (length (ccSources c) =? 0)%nat;
  let pid := pjID (project_of s (projectOf c)) in
  check (validateSources pid (tkID (task_of s (taskOf c))) (ccSources c) s);
  inl (putRule (mkKnowledgeRule id pid (taskOf c) (textOf c) (ccMode c) (ccSources c) "" "proposed"
       (ccSupersedes c) "" 1 at_) id s, mkDone id 0 "" "" "").

Definition approvedRule (p : Principal) (c : CollaborationCommand) (rule : KnowledgeRule) (s : State)
  : (State * KnowledgeRule) + string :=
  refuse "rule_evaluation_required" when negb (bool_decide (krState rule = "proposed")) || blank (ccEvaluation c);
  let old := default zeroKnowledgeRule (csKnowledge (collab s) !! krSupersedes rule) in
  refuse "rule_scope_conflict" when
  negb (str_empty (krSupersedes rule))
  && (negb (bool_decide (is_Some (csKnowledge (collab s) !! krSupersedes rule)))
      || negb (bool_decide (krProjectID old = pjID (project_of s (projectOf c)))) || negb (bool_decide (krTaskID old = krTaskID rule)));
  let s := if str_empty (krSupersedes rule) then s
         else putRule (old <| krState := "superseded" |> <| krRevision := u64_succ (krRevision old) |>) (krID old) s in
  inl (s, rule <| krState := "approved" |> <| krEvaluation := ccEvaluation c |> <| krApprovedBy := prID p |>).

Definition decideRule (p : Principal) (c : CollaborationCommand) (s : State) : outcome done_ :=
  refuse ErrForbidden when negb (prHuman p);
  let rule := default zeroKnowledgeRule (csKnowledge (collab s) !! ccEntityID c) in
  refuse "scope_forbidden" when
  negb (bool_decide (is_Some (csKnowledge (collab s) !! ccEntityID c)))
  || negb (bool_decide (krProjectID rule = pjID (project_of s (projectOf c))));
  refuse "entity_revision_conflict" when negb (krRevision rule =? ccExpectedEntityRevision c);
  try (s, rule) <- (if isAction c ["approve_rule"] then approvedRule p c rule s
                  else inl (s, rule <| krState := "revoked" |>));
  let rule := rule <| krRevision := u64_succ (krRevision rule) |> in
  inl (putRule rule (krID rule) s, mkDone (krID rule) (krRevision rule) "" "" "").

(** What every action but a repeated request ends with. *)
Definition concluded (pid : string) (p : Principal) (c : CollaborationCommand) (at_ : Z) (r : State * done_)
  : State * CollaborationResult :=
  let '(s, d) := r in
  let s := AddEvent p pid (taskOf c) (action c) (textOf c) "" at_ true s in
  (s, mkCollaborationResult
      (mkResult (projectOf c) (if str_empty (doTaskID d) then taskOf c else doTaskID d) (doSessionID d) 0)
      (doID d) (if doRevision d =? 0 then 1 else doRevision d) (doActionableID d)).

Definition cooperationStep (p : Principal) (c : CollaborationCommand) (id : string) (at_ : Z) (s : State)
  : outcome done_ :=
  if isAction c ["decision"] then decision p c id at_ s
  else if isAction c ["prepare_handback"] then prepareHandback p c s
  else if isAction c ["cancel"] then cancel p c id at_ s
  else if isAction c ["approve_assistance"] then approveAssistance p c id at_ s
  else if isAction c ["adopt_assistance"] then adoptAssistance c at_ s
  else if isAction c ["retry"] then retry p c id at_ s
  else if isAction c ["propose_rule"] then proposeRule c id at_ s
  else if isAction c ["approve_rule"; "revoke_rule"] then decideRule p c s
  else inr "cooperation_action_invalid".

Definition applyCooperation (p : Principal) (c : CollaborationCommand) (at_ : Z) (s : State)
  : outcome CollaborationResult :=
  let pid := pjID (project_of s (projectOf c)) in
  let id := collaborationID digestJSON (action c) p (cmMutationID (ccCommand c)) in
  if isAction c ["request_assistance"] then
  try (s, r) <- requestAssistance p c id at_ s;
  match r with
  | inr a => inl (s, (resultAt (projectOf c) (taskOf c)) <| clEntityID := as_ID a |> <| clEntityRevision := as_Revision a |>)
  | inl d => inl (concluded pid p c at_ (s, d))
  end
  else try r <- cooperationStep p c id at_ s; inl (concluded pid p c at_ r).
End digest.
