(* ===== verification/CollabRuns.v ===== *)
(** * Runs of a version 2 task, maintenance, and the entry point

    The admission and the end of a worker's run and the queries of
    [collaboration_cooperation.go], the maintenance of
    [collaboration_maintenance.go], and [ApplyCollaboration] of
    [collaboration.go] with its receipts. *)

From S2P Require Import Prelude Orders CoordTypes Coordination CollabState Collaboration CollabReports Cooperation.

Section digest.
Context (digestJSON : hashed → string) (order : ordering).

(** ** Admission and end of a run *)
(** [None] where the session is not a worker of a version 2 project. *)
Definition collaborationTask (w : walk) (sessionID : string) (s : State) : option (Project * Task) :=
  match ProjectForSession w sessionID s with
  | Some (project, Some task) => if pjEngineVersion project =? 2 then Some (project, task) else None
  | _ => None
  end.

Definition admissionChecks (task : Task) (at_ : Z) (s : State) : error :=
  let meta := meta_of s (tkID task) in
  match validGrant (tkID task) at_ s with
  | Some e => Some e
  | None =>
    if negb (ManifestCurrent digestJSON (mtManifestID meta) s) || mtNeedsContext meta then Some "contract_stale"
    else if bool_decide (mtPhase meta = "execution")
            && (negb (bool_decide (mtReadiness meta = "confirmed")) || UnansweredBlocking (tkID task) s)
    then Some "task_not_ready" else None
  end.

Definition humanRun (sessionID request : string) : string :=
  String.append "humanrun_" (prefix24 (digestJSON (HStrings [sessionID; request]))).

Definition AdmitCollaborationRun (w : walk) (sessionID request content : string) (at_ : Z) (s : State) : State + string :=
  let s := NormalizeCollaboration s in
  match collaborationTask w sessionID s with
  | None => inl s
  | Some (project, task) =>
    let meta := meta_of s (tkID task) in
    refuse "task_not_active" when bool_decide (tkState task ∈ ["cancelled"; "done"]);
    try (s, meta) <-
      (if bool_decide (tkOwner task = "pm") then
         check (admissionChecks task at_ s);
         inl (s, meta <| mtActiveRunID := tkRunID task |>)
       else inl (AddEvent system (pjID project) (tkID task) "human_instruction" content request at_ false s,
                 meta <| mtActiveRunID := humanRun sessionID request |> <| mtPhase := "execution" |>));
    inl (putMeta (meta <| mtActiveRequestID := request |> <| mtActiveEpoch := tkEpoch task |>) (tkID task) s)
  end.

(** The end of a preflight of the PM: on to the execution, or wait. *)
Definition finishPreflight (task : Task) (meta : TaskCoordination) (status : string) (at_ : Z) (s : State) : taskUpdate :=
  if bool_decide (status = "succeeded") && bool_decide (mtReadiness meta = "confirmed")
   && ManifestCurrent digestJSON (mtManifestID meta) s && bool_decide (validGrant (tkID task) at_ s = None)
   && negb (UnansweredBlocking (tkID task) s)
  then (s, task <| tkState := "provisioning" |> <| tkProvisioned := false |>
           <| tkRunID := String.append (runID (tkID task) (tkEpoch task)) "_execute" |>
           <| tkRequestID := String.append (requestID (tkID task) (tkEpoch task)) "_execute" |>
           <| tkDispatchEpoch := tkEpoch task |>, meta <| mtPhase := "execution" |>)
  else
  let task := task <| tkState := "waiting" |> in
  (if negb (bool_decide (mtReadiness meta = "needs_clarification"))
   then (newActionable digestJSON task "preflight_incomplete"
           "Worker has not confirmed this task. Review its response before continuing." "pm" "" "" false at_ s).1
   else s, task, meta).

(** The helper delivered: its result is ready, unless the request is over. *)
Definition finishAssistance (assistanceID subID : string) (at_ : Z) (s : State) : State :=
  match csAssistance (collab s) !! assistanceID with
  | None => s
  | Some a =>
    if negb (bool_decide (as_State a = "running")) then s
    else
      let requester := task_of s (as_RequesterTaskID a) in
      let a := if (tkEpoch requester =? as_RequesterEpoch a) && bool_decide (tkOwner requester = "pm")
                  && (at_ <? as_Deadline a)
               then a <| as_State := "ready" |> <| as_ResultSubmissionID := subID |>
               else a <| as_State := "expired" |> in
      putAssistance (a <| as_Revision := u64_succ (as_Revision a) |>) (as_ID a) s
  end.

Definition finishDelivery (task : Task) (meta : TaskCoordination) (at_ : Z) (s : State) : taskUpdate :=
  let sub := submission_of s (mtSubmissionID meta) in
  if bool_decide (is_Some (csSubmissions (collab s) !! mtSubmissionID meta))
   && bool_decide (sbRunID sub = mtActiveRunID meta) && (sbEpoch sub =? tkEpoch task)
   && bool_decide (sbStatus sub = "sealing_pending") && ManifestCurrent digestJSON (siManifestID (sbInput sub)) s
  then
  let s := putSubmission (sub <| sbStatus := "submitted" |>) (sbID sub) s in
  let task := task <| tkState := "review" |> in
  let s := (newActionable digestJSON task "submission" (siSummary (sbInput sub)) "pm" "" (sbID sub) false at_ s).1 in
  (finishAssistance (mtAssistanceID meta) (sbID sub) at_ s, task, meta)
  else
  let task := task <| tkState := "waiting" |> in
  (if bool_decide (tkOwner task = "pm") && negb (UnansweredBlocking (tkID task) s)
   then (newActionable digestJSON task "missing_submission"
           "The model turn ended without a sealed delivery. Request a structured submission; do not treat this as accepted."
           "pm" "" "" false at_ s).1
   else s, task, meta).

Definition finishFailure (task : Task) (meta : TaskCoordination) (status : string) (at_ : Z) (s : State) : taskUpdate :=
  let task := task <| tkState := "failed" |> in
  ((newActionable digestJSON task "execution_failed"
    (cat ["Execution ended: "; status; ". Check the original conversation and side effects before retrying."])
    "pm" "" "" false at_ s).1, task, meta).

Definition terminalKey (sessionID request : string) : string := cat ["terminal:"; sessionID; ":"; request].

Definition FinishCollaborationRun (w : walk) (sessionID request status text : string) (at_ : Z) (s : State)
  : State * bool :=
  match collaborationTask w sessionID s with
  | None => (s, false)
  | Some (project, task) =>
    let s := NormalizeCollaboration s in
    let meta := meta_of s (tkID task) in
    let key := terminalKey sessionID request in
    if bool_decide (is_Some (csReceipts (collab s) !! key)) then (s, true)
    else
      let s := putReceipt (Receipt zeroCollaborationResult "") key s in
      if negb (bool_decide (mtActiveRequestID meta = request)) || negb (mtActiveEpoch meta =? tkEpoch task)
         || bool_decide (tkState task ∈ ["cancelled"; "done"])
      then (AddEvent system (pjID project) (tkID task) "historical_run_finished"
              "Earlier run finished; current task was not changed." request at_ false s, true)
      else
        let task := task <| tkResult := text |> in
        let '(s, task, meta) :=
          (if bool_decide (mtPhase meta = "preflight") && bool_decide (tkOwner task = "pm")
           then finishPreflight task meta status at_ s
           else if bool_decide (status = "succeeded") then finishDelivery task meta at_ s
           else finishFailure task meta status at_ s) in
        let meta := meta <| mtRevision := u64_succ (mtRevision meta) |> <| mtActiveRequestID := "" |>
                      <| mtActiveRunID := "" |> in
        let s := putMeta meta (tkID task) (putTask task (tkID task) s) in
        (AddEvent (system <| prSessionID := sessionID |>) (pjID project) (tkID task)
           (String.append "worker_" status) text request at_ true s, true)
  end.

(** ** Queries *)
Definition before (a b : Actionable) : bool :=
  if negb (bool_decide (acBlocking a = acBlocking b)) then acBlocking a
  else if negb (acCreatedAt a =? acCreatedAt b) then acCreatedAt a <? acCreatedAt b
  else String.ltb (acID a) (acID b).
Definition notAfter (a b : Actionable) : Prop := before b a = false.
#[global] Instance notAfter_dec : RelDecision notAfter := λ a b, decide (before b a = false).

Definition PendingActionables (projectID assignee : string) (s : State) : list Actionable :=
  merge_sort notAfter
  (List.filter (λ a, bool_decide (acProjectID a = projectID) && negb (actionableTerminal (acState a))
                     && (str_empty assignee || bool_decide (acAssignee a = assignee)))
     (values (csActionables (collab s)))).

Definition ProjectDispositionCount (projectID : string) (s : State) : nat :=
  length (List.filter (λ d, bool_decide (dsProjectID d = projectID)) (values (csDispositions (collab s)))).

Definition EffectiveSandbox (w : walk) (sessionID : string) (s : State) : string :=
  match collaborationTask w sessionID s, stCollaboration s with
  | Some (_, task), Some _ =>
    if bool_decide (tkOwner task = "pm") && bool_decide (mtPhase (meta_of s (tkID task)) = "preflight")
    then "read-only" else tkSandbox task
  | _, _ => ""
  end.

(** ** Upgrade of a version 1 project *)
Definition upgradeTask (projectID : string) (at_ : Z) (id : string) (s : State) : State :=
  match stTasks s !! id with
  | None => s
  | Some task =>
    if negb (bool_decide (tkProjectID task = projectID)) then s
    else
      let contract := mkTaskContract (cat ["contract_"; tkID task; "_1"]) projectID (tkID task) 1 (tkInstruction task)
        ["Publication, deployment and deletion require separate approval."] [mkCriterion "AC01" (tkAcceptance task) true]
        [] [] (tkSandbox task) (tkBackend task) "general_delivery_v1" "" at_ in
      let contract := contract <| tcHash := digestJSON (HContract contract) |> in
      let s := putContract contract (tcID contract) s in
      let m := zeroTaskCoordination <| mtID := id |> <| mtProjectID := projectID |> <| mtRevision := 1 |>
        <| mtContractID := tcID contract |> <| mtReadiness := "pending_receipt" |> <| mtPhase := "preflight" |> in
      let task := if negb (bool_decide (tkState task = "done"))
        then task <| tkState := "proposed" |> <| tkEpoch := u64_succ (tkEpoch task) |> <| tkOwner := "pm" |>
                  <| tkApprovedBy := "" |> else task in
      putTask task id (putMeta m id s)
  end.

(** Two errors: which one is met first depends on the walk. *)
Definition upgradeCheck (projectID : string) (s : State) (id : string) : error :=
  let task := task_of s id in
  if bool_decide (tkProjectID task = projectID) && negb (bool_decide (tkState task = "done"))
   && (bool_decide (tkOwner task = "human") || negb (bool_decide (tkBackend task = "codex")))
  then Some "upgrade_requires_supported_workers_and_handback"
  else if bool_decide (tkProjectID task = projectID) && bool_decide (tkState task ∈ ["running"; "queued"; "provisioning"])
  then Some "upgrade_requires_quiescence" else None.

Definition upgradeNote : string := "協作已升級；原對話保留，未完成任務需重新確認版本與批准。".

Definition upgradeCollaboration (p : Principal) (c : CollaborationCommand) (at_ : Z) (s : State)
  : outcome CollaborationResult :=
  let project := project_of s (projectOf c) in
  refuse ErrForbidden when negb (prHuman p) || negb (bool_decide (is_Some (stProjects s !! projectOf c)));
  refuse "already_upgraded" when pjEngineVersion project =? 2;
  check (Authorize p (pjID project) s);
  check (firstError (upgradeCheck (pjID project) s) (order "upgrade check" (keys (stTasks s))));
  let project := project <| pjEngineVersion := 2 |> <| pjMode := "paused" |> <| pjWakeRequestID := "" |>
  <| pjWakeState := "" |> <| pjNote := upgradeNote |> in
  let s := putProject project (pjID project) s in
  let s := range order "upgrade" (stTasks s) (upgradeTask (pjID project) at_) s in
  let s := AddEvent p (pjID project) "" "collaboration_upgraded" upgradeNote "" at_ false s in
  let out := resultAt (projectOf c) "" in
  inl (s, out <| clResult := (clResult out) <| rsSessionID := pjPMSessionID project |> |>).

(** ** Maintenance *)
Definition invalidateTask (at_ : Z) (id : string) (r : State * bool) : State * bool :=
  let '(s, changed) := r in
  match csTasks (collab s) !! id with
  | None => (s, changed)
  | Some m =>
    let t := task_of s id in
    if str_empty (mtManifestID m) || mtNeedsContext m || bool_decide (tkState t ∈ ["done"; "cancelled"])
       || ManifestCurrent digestJSON (mtManifestID m) s then (s, changed)
    else
      let s := putMeta (m <| mtNeedsContext := true |> <| mtReadiness := "stale" |>
                          <| mtRevision := u64_succ (mtRevision m) |>) id s in
      let s := revokeGrant (mtGrantID m) at_ s in
      let s := AddEvent system (tkProjectID t) (tkID t) "input_version_changed"
        "A consumed input or playbook changed. Review the new basis before continuing." "" at_ true s in
      ((newActionable digestJSON t "input_version_changed"
         "相依輸入或工作方法已變更，請核對新版來源後重新提案。" "pm" "" "" false at_ s).1, true)
  end.

Definition InvalidateDependentManifests (at_ : Z) (s : State) : State * bool :=
  fold_left (λ r id, invalidateTask at_ id r) (order "invalidate" (keys (csTasks (collab s)))) (s, false).

Definition sweepActionable (at_ : Z) (id : string) (r : State * bool) : State * bool :=
  let '(s, changed) := r in
  match csActionables (collab s) !! id with
  | None => (s, changed)
  | Some a =>
    if bool_decide (acState a = "waiting") && bool_decide (acWaitingReason a = "deferred")
       && (0 <? acDueAt a) && (acDueAt a <=? at_) then
      let s := putActionable (a <| acState := "open" |> <| acWaitingReason := "" |> <| acDueAt := 0 |>
        <| acRevision := u64_succ (acRevision a) |> <| acUpdatedAt := at_ |>) id s in
      (AddEvent system (acProjectID a) (acTaskID a) "disposition_due" "Deferred action is due for review." "" at_ true s, true)
    else (s, changed)
  end.

Definition expiredText : string := "協助已逾時或原任務已變更；請選擇新路線，不會採用遲到結果。".

Definition sweepAssistance (at_ : Z) (id : string) (r : State * bool) : State * bool :=
  let '(s, changed) := r in
  match csAssistance (collab s) !! id with
  | None => (s, changed)
  | Some a =>
    let requester := task_of s (as_RequesterTaskID a) in
    if bool_decide (as_State a ∈ ["adopted"; "expired"; "cancelled"]) then (s, changed)
    else if (at_ <? as_Deadline a) && (tkEpoch requester =? as_RequesterEpoch a)
            && negb (bool_decide (tkState requester = "cancelled")) then (s, changed)
    else
      let s := putAssistance (a <| as_State := "expired" |> <| as_Revision := u64_succ (as_Revision a) |>) id s in
      let s := endHelper (as_TargetTaskID a) ["done"; "cancelled"] at_ s in
      let s := eachActionable (λ q,
        if matterOf a q && negb (actionableTerminal (acState q))
        then q <| acState := "open" |> <| acAssignee := "human" |> <| acWaitingReason := "assistance_expired" |>
               <| acText := expiredText |> <| acRevision := u64_succ (acRevision q) |> <| acUpdatedAt := at_ |>
        else q) s in
      (AddEvent system (as_ProjectID a) (as_RequesterTaskID a) "assistance_expired"
         "Assistance expired; no stale continuation was dispatched." "" at_ true s, true)
  end.

Definition grantExpiredText (expires : Z) : string :=
  cat ["任務授權已到期（"; decimal expires; "）；請確認已發生的結果，再決定是否續行。"].

Definition sweepGrant (at_ : Z) (id : string) (r : State * bool) : State * bool :=
  let '(s, changed) := r in
  match csTasks (collab s) !! id with
  | None => (s, changed)
  | Some m =>
    let t := task_of s id in
    match csGrants (collab s) !! mtGrantID m with
    | None => (s, changed)
    | Some g =>
        if negb (grRevokedAt g =? 0) || (at_ <? grExpiresAt g) || negb (bool_decide (tkOwner t = "pm"))
           || bool_decide (tkState t ∈ ["done"; "cancelled"]) then (s, changed)
        else
          let s := revokeGrant (grID g) at_ s in
          let t := t <| tkEpoch := u64_succ (tkEpoch t) |> <| tkState := "uncertain" |> in
          let s := putTask t id s in
          let s := putMeta (m <| mtReadiness := "stale" |> <| mtRevision := u64_succ (mtRevision m) |>) id s in
          let s := AddEvent system (tkProjectID t) (tkID t) "grant_expired"
            "Execution grant expired; review results before granting a continuation." "" at_ true s in
          ((newActionable digestJSON t "grant_expired" (grantExpiredText (grExpiresAt g)) "human" "" "" false at_ s).1, true)
    end
  end.

Definition sweep {A} (site : string) (m : gmap string A) (f : string → State * bool → State * bool)
  (r : State * bool) : State * bool :=
  fold_left (λ r id, f id r) (order site (keys m)) r.

Definition SweepCollaboration (at_ : Z) (s : State) : State * bool :=
  if bool_decide (stCollaboration s = None) then (s, false)
  else
  let r := InvalidateDependentManifests at_ s in
  let r := sweep "sweep actionables" (csActionables (collab r.1)) (sweepActionable at_) r in
  let r := sweep "sweep assistance" (csAssistance (collab r.1)) (sweepAssistance at_) r in
  sweep "sweep grants" (csTasks (collab r.1)) (sweepGrant at_) r.

Definition recoveredText : string := "Bridge 在執行期間重啟；請查看原對話與實際成果，系統不會自動重跑。".

Definition RecoverCollaborationTask (taskID : string) (at_ : Z) (s : State) : State :=
  let t := (task_of s taskID) <| tkState := "uncertain" |> <| tkEpoch := u64_succ (tkEpoch (task_of s taskID)) |>
           <| tkResult := recoveredText |> in
  let m := meta_of s taskID in
  let s := revokeGrant (mtGrantID m) at_ s in
  let s := putTask t taskID s in
  let s := putMeta (m <| mtReadiness := "stale" |> <| mtRevision := u64_succ (mtRevision m) |>) taskID s in
  let s := AddEvent system (tkProjectID t) (tkID t) "execution_uncertain" (tkResult t) (tkRequestID t) at_ true s in
  (newActionable digestJSON t "execution_uncertain" (tkResult t) "human" "" "" false at_ s).1.
End digest.
