(* ===== verification/CollabApply.v ===== *)
(** * The entry point of the version 2 collaboration

    [ApplyCollaboration] of [src/internal/coordination/collaboration.go]: the
    identity and size checks, the receipts, the scope of the caller and the
    dispatch of actions.

    The code works on a copy made through JSON and stores it at the end, so
    an error leaves the state: here an error carries none.  The length of the
    command's JSON is the parameter [jsonSize]. *)

From S2P Require Import Prelude Orders CoordTypes Coordination CollabState Collaboration CollabReports Cooperation CollabRuns.

Section digest.
Context (digestJSON : hashed → string) (jsonSize : CollaborationCommand → Z).

(** ** Who may do what *)
Definition taskActions : list string :=
  ["propose"; "approve"; "dispatch"; "pause"; "resume"; "take_over"; "return_to_pm"; "rework"; "reopen"; "accept";
   "continue"].
Definition cooperationActions : list string :=
  ["decision"; "prepare_handback"; "cancel"; "request_assistance"; "approve_assistance"; "adopt_assistance";
   "propose_rule"; "approve_rule"; "revoke_rule"; "retry"].

Definition isWorker (p : Principal) (project : Project) : bool := negb (prHuman p) && negb (isPM p project).

Definition workerScope (p : Principal) (c : CollaborationCommand) (project : Project) (s : State) : error :=
  let task := task_of s (taskOf c) in
  let meta := meta_of s (taskOf c) in
  if negb (bool_decide (is_Some (stTasks s !! taskOf c))) || negb (bool_decide (tkProjectID task = pjID project))
   || negb (bool_decide (tkSessionID task = prSessionID p)) || str_empty (prRunID p)
   || negb (bool_decide (prRunID p = mtActiveRunID meta)) || negb (prEpoch p =? tkEpoch task)
   || negb (mtActiveEpoch meta =? prEpoch p)
  then Some "scope_forbidden"
  else if bool_decide (tkState task ∈ ["done"; "cancelled"]) then Some "task_not_active" else None.

Definition scopeChecks (p : Principal) (c : CollaborationCommand) (s : State) : error :=
  let project := project_of s (projectOf c) in
  if negb (bool_decide (is_Some (stProjects s !! projectOf c))) || negb (pjEngineVersion project =? 2)
  then Some "collaboration_project_not_found"
  else match (if isWorker p project then workerScope p c project s else Authorize p (pjID project) s) with
     | Some e => Some e
     | None => if negb (str_empty (taskOf c)) && negb (bool_decide (tkProjectID (task_of s (taskOf c)) = pjID project))
               then Some "scope_forbidden" else None
     end.

(** [human_answer_continue]: the answer, and the same contract goes on. *)
Definition answerAndContinue (p : Principal) (c : CollaborationCommand) (d : DispositionInput) (at_ : Z) (s : State)
  : outcome CollaborationResult :=
  let a := actionable_of s (diActionableID d) in
  let m := meta_of s (acTaskID a) in
  refuse "entity_revision_conflict" when
  negb (bool_decide (acProjectID a = pjID (project_of s (projectOf c))))
  || negb (mtRevision m =? ccExpectedTaskRevision c) || negb (bool_decide (mtContractID m = ccContractID c));
  try (s, answered) <- applyDisposition digestJSON p c d at_ s;
  let continued := withCommand (λ x, x <| cmAction := "continue" |> <| cmTaskID := acTaskID a |>
    <| cmMutationID := String.append "continue-" (collaborationID digestJSON "answer" p (cmMutationID (ccCommand c))) |>) c in
  try (s, _) <- applyTaskCommand digestJSON p (continued <| ccExpectedEntityRevision := mtRevision m |>) at_ s;
  inl (s, answered).

Definition applyScoped (order : ordering) (p : Principal) (c : CollaborationCommand) (at_ : Z) (s : State)
  : outcome CollaborationResult :=
  let project := project_of s (projectOf c) in
  let worker := isWorker p project in
  let c := withCommand (λ x, x <| cmExpectedRevision := pjRevision project |>) c in
  if isAction c taskActions then
  refuse ErrForbidden when worker;
  applyTaskCommand digestJSON p c at_ s
  else if isAction c ["report"] then
  match ccReport c with
  | Some r => refuse ErrForbidden when negb worker; applyReport digestJSON p c r at_ s
  | None => inr ErrForbidden
  end
  else if isAction c ["dispose"; "human_answer"] then
  match ccDisposition c with
  | Some d => refuse ErrForbidden when worker || isAction c ["human_answer"] && negb (prHuman p);
              applyDisposition digestJSON p c d at_ s
  | None => inr ErrForbidden
  end
  else if isAction c ["human_answer_continue"] then
  match ccDisposition c with
  | Some d => refuse ErrForbidden when negb (prHuman p); answerAndContinue p c d at_ s
  | None => inr ErrForbidden
  end
  else if isAction c ["submit"] then
  match ccSubmission c with
  | Some x => refuse ErrForbidden when negb worker; applySubmission digestJSON p c x at_ s
  | None => inr ErrForbidden
  end
  else if isAction c cooperationActions then applyCooperation digestJSON order p c at_ s
  else inr "collaboration_unknown_action".

Definition createCollaboration (p : Principal) (c : CollaborationCommand) (at_ : Z) (s : State)
  : outcome CollaborationResult :=
  refuse ErrForbidden when negb (prHuman p);
  try (s, result) <- applyLegacy (λ x, digestJSON (HLegacy x)) p (ccCommand c) at_ s;
  let project := (project_of s (rsProjectID result)) <| pjEngineVersion := 2 |> in
  inl (putProject project (pjID project) s, zeroCollaborationResult <| clResult := result |>).

Definition applyCollaboration (order : ordering) (p : Principal) (c : CollaborationCommand) (at_ : Z) (s : State)
  : outcome CollaborationResult :=
  if isAction c ["upgrade"] then upgradeCollaboration digestJSON order p c at_ s
  else if isAction c ["create"] then createCollaboration p c at_ s
  else check (scopeChecks p c s); applyScoped order p c at_ s.

(** ** Receipts *)
Definition maxCollaborationReceipts : nat := 50000.
Definition collabKey (p : Principal) (c : CollaborationCommand) : string :=
  cat [prID p; ":"; prSessionID p; ":"; prRunID p; ":"; cmMutationID (ccCommand c)].
(** What the hashed JSON holds: [CwdAlias] is not in it. *)
Definition collabIntent (c : CollaborationCommand) : CollaborationCommand :=
  (withCommand (λ x, x <| cmExpectedRevision := 0 |> <| cmMutationID := "" |> <| cmCwdAlias := "" |>) c)
  <| ccExpectedEntityRevision := 0 |> <| ccExpectedTaskRevision := 0 |>.

Definition unidentified (p : Principal) (c : CollaborationCommand) : bool :=
  str_empty (prID p) || blank (cmMutationID (ccCommand c)) || (100 <? str_len (cmMutationID (ccCommand c))).
Definition oversized (c : CollaborationCommand) : bool :=
  (128 * 1024 <? jsonSize c) || (32000 <? str_len (textOf c)) || (4096 <? str_len (cmCwd (ccCommand c))).

(** A new command: applied, dependants invalidated, the receipt kept. *)
Definition applyFresh (order : ordering) (p : Principal) (c : CollaborationCommand) (at_ : Z) (s : State)
  : outcome CollaborationResult :=
  try (next, out) <- applyCollaboration order p c at_ s;
  let next := (InvalidateDependentManifests digestJSON order at_ next).1 in
  let out := out <| clResult := (clResult out) <| rsRevision := stRevision next |> |> in
  let next := putReceipt (Receipt out (digestJSON (HCommand (collabIntent c)))) (collabKey p c) next in
  inl (next <| stReceipts := stReceipts s |>, out).

Definition ApplyCollaboration (order : ordering) (p : Principal) (c : CollaborationCommand) (at_ : Z) (s : State)
  : outcome CollaborationResult :=
  refuse "identity_and_mutation_required" when unidentified p c;
  refuse "collaboration_request_too_large" when oversized c;
  let next := NormalizeCollaboration s in
  match csReceipts (collab next) !! collabKey p c with
  | Some (BadReceipt e) => inr e
  | Some (Receipt result prior) =>
    refuse "mutation_intent_conflict" when negb (bool_decide (prior = digestJSON (HCommand (collabIntent c))));
    inl (s, result)
  | None =>
    refuse "receipt_limit_requires_maintenance" when
      (maxCollaborationReceipts <=? size (csReceipts (collab next)))%nat;
    applyFresh order p c at_ next
  end.
End digest.
