(* ===== verification/Host.v ===== *)
(** * The Bridge as the host of the PM and its workers

    [src/internal/core/pm_collaboration.go] and [collaboration.go]: the
    guards around the calls of clients and agents, the admission of a turn,
    its end, the recovery at start, and the cycle that wakes a project's PM.
    The mutex [pmMu] makes the read of the state and the transaction that
    follows it one step, so each takes the state once.  What the host asks of
    other parts is an argument: whether a conversation is [busy] (streaming, or
    turns in its queue), the receipt of a wake's message, whether an artifact's
    file is intact. *)

From S2P Require Import Prelude Orders Decimal CoordTypes Coordination CollabState Collaboration CollabReports.
From S2P Require Import Cooperation CollabRuns CollabApply.

(** A transaction that fails leaves the document ([UpdateCollaboration]). *)
Definition commit {R} (s : State) (r : outcome R) : State := match r with inl (s', _) => s' | inr _ => s end.

Section digest.
Context (digestJSON : hashed → string) (jsonSize : CollaborationCommand → Z).

(** ** Calls *)
Section calls.
Context (busy : string → bool) (verify : Artifact → error).

Definition upgradeBusy (projectID : string) (s : State) : bool :=
  let project := project_of s projectID in
  busy (pjPMSessionID project)
  || existsb (λ t, bool_decide (tkProjectID t = pjID project) && busy (tkSessionID t)) (values (stTasks s)).

Definition quietActions : list string :=
  ["accept"; "rework"; "reopen"; "continue"; "human_answer_continue"; "return_to_pm"; "retry"; "propose"].

Definition taskBusy (id : string) (s : State) : bool :=
  match stTasks s !! id with Some t => busy (tkSessionID t) | None => false end.

Definition artifactChecks (c : CollaborationCommand) (s : State) : error :=
  if bool_decide (stCollaboration s = None) then Some "collaboration_unavailable"
  else match csSubmissions (collab s) !! ccEntityID c with
     | None => Some "submission_not_found"
     | Some sub => firstError (λ id, verify (default zeroArtifact (csArtifacts (collab s) !! id)))
                     (siArtifactIDs (sbInput sub))
     end.

Definition applyCollaborationCall (order : ordering) (p : Principal) (c : CollaborationCommand) (at_ : Z) (s : State)
  : outcome CollaborationResult :=
  refuse "upgrade_requires_quiescence" when isAction c ["upgrade"] && upgradeBusy (projectOf c) s;
  refuse "pm_wait_for_current_turn" when
  negb (str_empty (taskOf c)) && isAction c quietActions && taskBusy (taskOf c) s;
  check (if isAction c ["accept"] then artifactChecks c s else None);
  ApplyCollaboration digestJSON jsonSize order p c at_ s.

Definition applyPM (p : Principal) (c : Command) (at_ : Z) (s : State) : outcome Result :=
  refuse "pm_wait_for_current_turn" when
  bool_decide (cmAction c ∈ ["return_to_pm"; "accept"; "rework"]) && taskBusy (cmTaskID c) s;
  Apply (λ x, digestJSON (HLegacy x)) p c at_ s.
End calls.

(** ** Admission *)
(** [AdmitTurn]'s transaction: the run is recorded, and the task is running. *)
Definition admitRun (w : walk) (sessionID request content : string) (at_ : Z) (s : State) : State + string :=
  match ProjectForSession w sessionID s with
  | Some (p, Some t) =>
    try s <- (if pjEngineVersion p =? 2
              then AdmitCollaborationRun digestJSON w sessionID request content at_ s else inl s);
    inl (admitTurn (tkID t) sessionID request (pjID p) at_ s)
  | _ => inl s
  end.

(** Another conversation is writing in the same directory. *)
Definition writerBusy (streaming : string → bool) (sessionID : string) (p : Project) (s : State) : bool :=
  existsb (λ other, negb (bool_decide (tkSessionID other = sessionID)) && bool_decide (tkSandbox other = "workspace-write")
                  && bool_decide (pjCwd (project_of s (tkProjectID other)) = pjCwd p) && streaming (tkSessionID other))
  (values (stTasks s)).

Definition pmTurnChecks (p : Project) (backend sandbox request : string) : error :=
  if negb (bool_decide (backend ∈ ["codex"; "claude"])) || negb (bool_decide (sandbox = "read-only"))
  then Some "pm_backend_policy_mismatch"
  else if has_prefix "pmwake_" request
        && (negb (bool_decide (pjMode p = "active")) || negb (bool_decide (pjWakeRequestID p = request)))
  then Some "pm_wake_cancelled" else None.

Definition workerTurnChecks (streaming : string → bool) (w : walk) (sessionID backend sandbox request : string)
  (p : Project) (t : Task) (s : State) : error :=
  if negb (WorkerAllowed w sessionID request s) then Some "pm_control_changed"
  else if negb (bool_decide (backend = tkBackend t)) || negb (bool_decide (sandbox = tkSandbox t))
  then Some "pm_worker_policy_changed"
  else if bool_decide (tkSandbox t = "workspace-write") && writerBusy streaming sessionID p s
  then Some "pm_workspace_writer_busy" else None.

Definition AdmitTurn (enabled : bool) (streaming : string → bool) (w : walk)
  (sessionID backend sandbox request content : string) (at_ : Z) (s : State) : State + string :=
  match ProjectForSession w sessionID s with
  | None => refuse "pm_role_missing" when has_prefix "pm_" sessionID; inl s
  | Some (p, role) =>
    refuse "pm_unavailable" when negb enabled;
    match role with
    | None => check (pmTurnChecks p backend sandbox request); inl s
    | Some t => check (workerTurnChecks streaming w sessionID backend sandbox request p t s);
                admitRun w sessionID request content at_ s
    end
  end.

(** ** The end of a turn *)
Definition stalledNote : string := "PM 連續兩回合未處置待辦，已暫停；待處置事項仍保留。".
Definition brokenNote : string := "PM 執行中斷；請檢查後恢復。".

Definition pmUnsettled (p : Project) (s : State) : bool :=
  existsb (λ a, bool_decide (acState a = "open") || bool_decide (acState a = "in_progress"))
  (PendingActionables (pjID p) "pm" s).

(** Only a version 2 project counts rounds without a disposition. *)
Definition countProgress (p : Project) (unsettled : bool) (s : State) : Project :=
  let p := if unsettled && (Z.of_nat (ProjectDispositionCount (pjID p) s) =? pjWakeDispositionCount p)
         then p <| pjNoProgressRounds := pjNoProgressRounds p + 1 |>
         else p <| pjNoProgressRounds := 0 |> in
  if 2 <=? pjNoProgressRounds p then p <| pjMode := "paused" |> <| pjNote := stalledNote |> else p.

Definition pmTurnEnded (p : Project) (request status : string) (at_ : Z) (s : State) : State :=
  if negb (bool_decide (pjWakeRequestID p = request)) then s
  else
  let p := p <| pjProcessedThrough := pjWakeThrough p |> <| pjWakeRequestID := "" |> <| pjWakeState := "" |>
             <| pjWakeThrough := 0 |> in
  let counted := (pjEngineVersion p =? 2) && bool_decide (status = "succeeded") in
  let needsDisposition := counted && pmUnsettled p s in
  let p := if counted then countProgress p needsDisposition s else p in
  let p := if negb (bool_decide (status = "succeeded"))
           then p <| pjMode := "paused" |> <| pjNote := brokenNote |> else p in
  let s := putProject p (pjID p) s in
  let s := AddEvent system (pjID p) "" (String.append "pm_cycle_" status)
             "PM 已處理本次事件；後續仍以原始對話與工作證據為準。" request at_ false s in
  if needsDisposition && bool_decide (pjMode p = "active")
  then AddEvent system (pjID p) "" "pm_actionables_pending" "仍有待處置回報；讀取並明確處置後才算完成。" "" at_ true s
  else s.

(** [text] is the answer; version 1 keeps it cut to 12000 graphemes. *)
Definition finishPMTurn (w : walk) (sessionID request status text : string) (at_ : Z) (s : State) : State :=
  match ProjectForSession w sessionID s with
  | Some (p, None) => pmTurnEnded p request status at_ s
  | Some (p, Some _) =>
    if pjEngineVersion p =? 2 then (FinishCollaborationRun digestJSON w sessionID request status text at_ s).1
    else finishWorker w sessionID request status text at_ s
  | None => s
  end.

(** ** The PM's cycle *)
(** What the receipt store says of the wake's message. *)
Inductive messageReceipt := Unreadable | NotFound | Found (state : string).

Definition budgetNote : string := "已達協調回合上限，請使用者確認後恢復。".
Definition budgetReached (id : string) (at_ : Z) (s : State) : State :=
  let current := (project_of s id) <| pjMode := "paused" |> <| pjNote := budgetNote |> in
  AddEvent system id "" "budget_limit" (pjNote current) "" at_ false (putProject current id s).

Definition wakeID (p : Project) : string := cat ["pmwake_"; pjID p; "_"; decimal (pjPendingThrough p)].

Definition queueWake (id request : string) (at_ : Z) (s : State) : State :=
  let current := project_of s id in
  let current := current <| pjWakeRequestID := request |> <| pjWakeThrough := pjPendingThrough current |>
                 <| pjWakeState := "queued" |> in
  let current := if pjEngineVersion current =? 2
               then current <| pjWakeDispositionCount := Z.of_nat (ProjectDispositionCount id s) |> else current in
  let current := current <| pjRounds := pjRounds current + 1 |> in
  AddEvent system id "" "pm_wake_queued" "已安排 PM 檢查最新事件。" request at_ false (putProject current id s).

Definition recoveredNote : string := "Previous PM turn ended; inspect current project state before continuing.".

(** [wakePM]: the state, and the request whose message is sent to the PM. *)
Definition wakePM (w : walk) (idle : bool) (found : messageReceipt) (p : Project) (at_ : Z) (s : State)
  : State * option string :=
  if negb (bool_decide (pjMode p = "active")) || (pjPendingThrough p <=? pjProcessedThrough p) then (s, None)
  else if negb idle then (s, None)
  else
  let go :=
    if pjMaxRounds p <=? pjRounds p then (budgetReached (pjID p) at_ s, None)
    else if str_empty (pjWakeRequestID p) then (queueWake (pjID p) (wakeID p) at_ s, Some (wakeID p))
    else (s, Some (pjWakeRequestID p)) in
  if str_empty (pjWakeRequestID p) then go
  else match found with
       | Unreadable => (s, None)
       | Found state =>
           if bool_decide (state = "queued") || bool_decide (state = "running") then (s, None)
           else (finishPMTurn w (pjPMSessionID p) (pjWakeRequestID p) "recovered" recoveredNote at_ s, None)
       | NotFound => go
       end.

(** ** Restart and cancellation *)
(** [recoverPMCollaboration] at start, for one task. *)
Definition recoverRun (at_ : Z) (s : State) (id : string) : State :=
  match stTasks s !! id with
  | Some t => if bool_decide (tkState t = "running") && (pjEngineVersion (project_of s (tkProjectID t)) =? 2)
            then RecoverCollaborationTask digestJSON id at_ s else recoverTask at_ s id
  | None => s
  end.

Definition stopKey (t : Task) (m : TaskCoordination) : string := cat ["stop:"; tkSessionID t; ":"; mtActiveRequestID m].

(** The runs that [stopCancelledCollaborationRuns] asks the executor to stop. *)
Definition mustStop (t : Task) (s : State) : bool :=
  let m := meta_of s (tkID t) in
  (pjEngineVersion (project_of s (tkProjectID t)) =? 2)
  && (bool_decide (tkState t = "cancelled")
    || bool_decide (tkOwner t = "pm") && (bool_decide (tkState t = "uncertain") || mtNeedsContext m))
  && negb (str_empty (mtActiveRequestID m))
  && negb (bool_decide (is_Some (csReceipts (collab s) !! stopKey t m))).

Definition stopRequested (t : Task) (at_ : Z) (s : State) : State :=
  let m := meta_of s (tkID t) in
  let s := putReceipt (Receipt zeroCollaborationResult "") (stopKey t m) (NormalizeCollaboration s) in
  AddEvent system (tkProjectID t) (tkID t) "stop_requested" "已向執行器要求停止；停止完成以 runtime 事件為準。"
  (mtActiveRequestID m) at_ false s.
End digest.
