(* ===== verification/Artifacts.v ===== *)
(** * Artifacts a worker saves for a delivery

    [saveCollaborationArtifact] of [src/internal/core/collaboration_artifacts.go]:
    the checks, the receipt, the storage budget of the task, and what is
    recorded.  The file system and the hashes are arguments: [readSource]
    finds and reads a file inside the project's directory, [snapshot] keeps
    the bytes under a name (or finds them there), [locator] is that name,
    [sha] is [bytesDigest], and [inputHash] the digest of the input's JSON.

    A receipt holds the result besides the hash of the input; the result is what
    the artifact recorded under the same key says, so the model's receipt
    holds only the hash. *)

From S2P Require Import Prelude Orders CoordTypes Coordination CollabState.

Record artifactInput := mkArtifactInput {
  aiMutationID : string; aiName : string; aiKind : string; aiText : string; aiPath : string; aiEvidence : string }.
Record artifactResult := mkArtifactResult {
  axArtifactID : string; axEvidenceID : string; axDigest : string; axTrust : string }.

Definition maxArtifactBytes : Z := 10 * 1024 * 1024.
Definition artifactBudget : Z := 64 * 1024 * 1024.

Section files.
Context (sha : string → string) (inputHash : artifactInput → string).
Context (readSource : string → string → (string * string * string) + string).
Context (snapshot : string → string → error) (locator : string → string → string).

Definition artifactKey (p : Principal) (i : artifactInput) : string :=
  cat ["artifact:"; prSessionID p; ":"; prRunID p; ":"; aiMutationID i].
Definition artifactID (key : string) : string := String.append "artifact_" (prefix24 (sha key)).
Definition evidenceID (key : string) : string := String.append "evidence_" (prefix24 (sha key)).

Definition artifactInvalid (i : artifactInput) : bool :=
  str_empty (aiMutationID i) || (100 <? str_len (aiMutationID i)) || blank (aiName i) || (240 <? str_len (aiName i))
  || (8000 <? str_len (aiEvidence i)).

Definition artifactScope (p : Principal) (projectID taskID : string) (s : State) : error :=
  let task := task_of s taskID in
  let meta := meta_of s taskID in
  if negb (bool_decide (mtPhase meta = "execution")) then Some "artifact_execution_phase_required"
  else if negb (bool_decide (is_Some (stTasks s !! taskID))) || negb (bool_decide (tkProjectID task = projectID))
          || negb (bool_decide (tkSessionID task = prSessionID p)) || str_empty (prRunID p)
          || negb (bool_decide (mtActiveRunID meta = prRunID p)) || negb (mtActiveEpoch meta =? tkEpoch task)
          || negb (tkEpoch task =? prEpoch p)
  then Some "scope_forbidden" else None.

(** The path and directory of the source ("" for text) and the bytes. *)
Definition artifactBody (cwd : string) (i : artifactInput) : (string * string * string) + string :=
  if bool_decide (aiKind i = "text") then
    refuse "artifact_invalid" when negb (str_empty (aiPath i)) || blank (aiText i) || (64000 <? str_len (aiText i));
    inl ("", "", aiText i)
  else if bool_decide (aiKind i = "file") then
    refuse "artifact_invalid" when negb (str_empty (aiText i));
    readSource cwd (aiPath i)
  else inr "artifact_kind_invalid".

Definition artifactsOf (taskID : string) (s : State) : list Artifact :=
  List.filter (λ a, bool_decide (arTaskID a = taskID)) (values (csArtifacts (collab s))).
Definition artifactBytes (l : list Artifact) : Z := foldr (λ a n, arSize a + n) 0 l.

Definition artifactResultOf (key : string) (s : State) : artifactResult :=
  mkArtifactResult (artifactID key) (evidenceID key)
    (arDigest (default zeroArtifact (csArtifacts (collab s) !! artifactID key))) "source_linked".

(** The artifact, its evidence, the receipt and the event. *)
Definition recordArtifact (p : Principal) (projectID taskID : string) (i : artifactInput) (key : string)
  (source : string * string * string) (at_ : Z) (s : State) : State :=
  let '(path, root, body) := source in
  let digest := sha body in
  let artifact := mkArtifact (artifactID key) projectID taskID (aiName i) (aiKind i) digest (str_len body)
    (locator (artifactID key) digest) "" path root at_ in
  let text := if str_empty (aiEvidence i) then String.append "Stored delivery artifact: " (aiName i) else aiEvidence i in
  let evidence := mkEvidence (evidenceID key) projectID taskID (artifactID key) text "source_linked"
    (String.append "agent:" (prSessionID p)) at_ in
  let request := mtActiveRequestID (meta_of s taskID) in
  let s := putEvidence evidence (evidenceID key) (putArtifact artifact (artifactID key) s) in
  let s := putReceipt (Receipt zeroCollaborationResult (inputHash i)) key s in
  AddEvent p projectID taskID "artifact_saved" (aiName i) request at_ false s.

Definition saveArtifact (p : Principal) (projectID taskID : string) (i : artifactInput) (at_ : Z) (s : State)
  : outcome artifactResult :=
  refuse "artifact_invalid" when artifactInvalid i;
  let s := NormalizeCollaboration s in
  let key := artifactKey p i in
  check (artifactScope p projectID taskID s);
  match csReceipts (collab s) !! key with
  | Some (BadReceipt e) => inr e
  | Some (Receipt _ prior) =>
      refuse "mutation_intent_conflict" when negb (bool_decide (prior = inputHash i));
      inl (s, artifactResultOf key s)
  | None =>
      try source <- artifactBody (pjCwd (project_of s projectID)) i;
      refuse "artifact_storage_budget_exhausted" when
        (100 <=? length (artifactsOf taskID s))%nat
        || (artifactBudget <? artifactBytes (artifactsOf taskID s) + str_len source.2);
      check (snapshot (artifactID key) (sha source.2));
      let s := recordArtifact p projectID taskID i key source at_ s in
      inl (s, artifactResultOf key s)
  end.
End files.
