(* ===== verification/CollabMoves.v ===== *)
(** * What an operation of the collaboration may change

    Contracts are never rewritten, a grant is only spent or revoked, and a
    finished task stays finished: the relations between the states before
    and after an operation, and that every building block of the
    collaboration keeps them. *)

From S2P Require Import Prelude Orders CoordTypes Coordination CoordProps CollabState Collaboration CollabReports Cooperation CollabRuns.

(** Follows the early returns of the code in [H : _ = inl _]. *)
Ltac follow H :=
  repeat (lazymatch type of H with
  | (if ?b then inr _ else _) = inl _ => destruct b eqn:?; [discriminate H|]
  | match ?e with inl _ => _ | inr _ => inr _ end = inl _ => let E := fresh "E" in destruct e as [?|?] eqn:E; [|discriminate H]
  | match ?e with Some _ => inr _ | None => _ end = inl _ => let E := fresh "E" in destruct e as [?|] eqn:E; [discriminate H|]
  | (match ?p with (_, _) => _ end) = inl _ => first [is_var p; destruct p | let P := fresh "P" in destruct p eqn:P]
  end; cbv beta iota zeta in H).

(** Refutes [H : x ∈ l] for a string and a list of others. *)
Ltac not_listed H :=
  exfalso; repeat (apply elem_of_cons in H as [H|H]; [first [discriminate H|congruence]|]); by apply elem_of_nil in H.

(** Proves [x ∈ l] or [x ∉ l] for concrete strings. *)
Ltac listed := apply (bool_decide_unpack _); vm_compute; exact I.

(** ** Moves of a grant and of a task *)
Record grant_moves (g g' : Grant) : Prop := {
  gm_same : g' = g <| grRevokedAt := grRevokedAt g' |> <| grUsedRevisions := grUsedRevisions g' |>;
  gm_used : grUsedRevisions g ≤ grUsedRevisions g';
  gm_budget : grUsedRevisions g ≤ grMaxRevisions g → grUsedRevisions g' ≤ grMaxRevisions g' }.

Lemma grant_moves_refl g : grant_moves g g.
Proof. split; [by destruct g|lia|done]. Qed.
Lemma grant_moves_trans g1 g2 g3 : grant_moves g1 g2 → grant_moves g2 g3 → grant_moves g1 g3.
Proof.
  intros [E1 L1 B1] [E2 L2 B2]. split; [|lia|auto]. rewrite E2, E1. by destruct g1.
Qed.
Lemma grant_moves_fields g g' : grant_moves g g' →
  grID g' = grID g ∧ grMaxRevisions g' = grMaxRevisions g ∧ grContractID g' = grContractID g ∧
  grContractHash g' = grContractHash g ∧ grApprovedBy g' = grApprovedBy g ∧ grTaskID g' = grTaskID g.
Proof. intros [-> _ _]. by destruct g. Qed.

Definition closed (t : Task) : Prop := tkState t ∈ ["done"; "cancelled"].
#[global] Instance closed_dec t : base.Decision (closed t).
Proof. unfold closed. apply _. Defined.

(** What an operation may do besides: accept these tasks, reopen closed ones
    of these projects. *)
Record allowance := mkAllowance { accepts : string → Prop; reopens : string → Prop }.
Definition nothing : allowance := mkAllowance (λ _, False) (λ _, False).

Section allowance.
Context (al : allowance).

(** A task that exists moves; it is not accepted on the way, and stays closed. *)
Record task_moves (t t' : Task) : Prop := {
  tm_id : tkID t' = tkID t;
  tm_name : tkProjectID t' = tkProjectID t ∧ tkNumber t' = tkNumber t ∧ tkSessionID t' = tkSessionID t;
  tm_done : tkState t' = "done" → tkState t = "done" ∨ accepts al (tkID t);
  tm_closed : closed t → tkState t' = tkState t ∨ reopens al (tkProjectID t) }.

Lemma task_moves_refl t : task_moves t t.
Proof. split; auto. Qed.
Lemma task_moves_trans t1 t2 t3 : task_moves t1 t2 → task_moves t2 t3 → task_moves t1 t3.
Proof.
  intros [A1 (?&?&?) A2 A3] [B1 (?&?&?) B2 B3]. split; [congruence|split_and!; congruence| |].
  - intros E. destruct (B2 E); [auto|right; congruence].
  - intros Hc. destruct (A3 Hc) as [E|]; [|by right].
    destruct B3 as [E2|E2]; [unfold closed; by rewrite E|left|right]; congruence.
Qed.
(** To a state that is not "done", from a task that is not closed. *)
Lemma task_moves_open t t' : tkID t' = tkID t →
  tkProjectID t' = tkProjectID t ∧ tkNumber t' = tkNumber t ∧ tkSessionID t' = tkSessionID t →
  tkState t' ≠ "done" → ¬ closed t → task_moves t t'.
Proof. intros H1 H2 H3 H4. by split. Qed.
End allowance.

(** Tasks are named by their number in the project, so the next name is new. *)
Definition numbered (s : State) : Prop := ∀ id t, stTasks s !! id = Some t →
  tkID t = id ∧ id = taskName (tkProjectID t) (tkNumber t) ∧
  1 ≤ tkNumber t ≤ Z.of_nat (size (tasksOf (tkProjectID t) s)).

Lemma numbered_new s id n : numbered s → n = Z.of_nat (size (tasksOf id s)) + 1 → stTasks s !! taskName id n = None.
Proof.
  intros Hn ->. destruct (stTasks s !! _) as [t|] eqn:E; [exfalso|done].
  destruct (Hn _ t E) as (_ & E1 & E2). apply taskName_inj in E1 as [E1 E3]; [|lia..]. rewrite <- E1 in E2. lia.
Qed.

(** ** Calm: neither contracts nor grants are made *)
Section calm.
Context (al : allowance).

Definition tasks_move (s s' : State) : Prop := numbered s →
  numbered s' ∧
  (∀ id t', stTasks s' !! id = Some t' →
     (∃ t, stTasks s !! id = Some t ∧ task_moves al t t') ∨
     (stTasks s !! id = None ∧ (tkState t' = "done" → accepts al id))) ∧
  (∀ id, is_Some (stTasks s !! id) → is_Some (stTasks s' !! id)).

Definition grants_move (s s' : State) : Prop :=
  ∀ id g', csGrants (collab s') !! id = Some g' →
    ∃ g, csGrants (collab s) !! id = Some g ∧ grant_moves g g'.

Record calm (s s' : State) : Prop := {
  ca_contracts : csContracts (collab s') = csContracts (collab s);
  ca_grants : grants_move s s';
  ca_tasks : tasks_move s s' }.

Lemma tasks_move_same s s' : stTasks s' = stTasks s → tasks_move s s'.
Proof.
  intros E Hn. split; [|split; rewrite E; [|done]].
  - intros id t. rewrite E. unfold tasksOf. rewrite E. apply Hn.
  - intros id t' H. left. exists t'. split; [done|apply task_moves_refl].
Qed.
Lemma tasks_move_trans s1 s2 s3 : tasks_move s1 s2 → tasks_move s2 s3 → tasks_move s1 s3.
Proof.
  intros A B Hn. destruct (A Hn) as (Hn2 & A1 & A2), (B Hn2) as (Hn3 & B1 & B2). split_and!; [done| |auto].
  intros id t3 H3. destruct (B1 id t3 H3) as [(t2 & H2 & M2)|(N2 & D2)].
  - destruct (A1 id t2 H2) as [(t1 & H1 & M1)|(N1 & D1)].
    + left. exists t1. split; [done|by eapply task_moves_trans].
    + right. split; [done|]. intros E. destruct (tm_done _ _ _ M2 E); [auto|].
      by destruct (Hn2 id t2 H2) as [<- _].
  - right. split; [|done]. destruct (stTasks s1 !! id) eqn:E; [|done].
    destruct (A2 id) as [x Hx]; [by eexists|congruence].
Qed.

Lemma tasksOf_put p t t' id s : stTasks s !! id = Some t → tkProjectID t' = tkProjectID t →
  size (tasksOf p (putTask t' id s)) = size (tasksOf p s).
Proof.
  intros Ht Hp. rewrite <- !size_dom. f_equal. apply set_eq. intros j. rewrite !elem_of_dom.
  unfold tasksOf. rewrite !map_lookup_filter, putTask_tasks. destruct (decide (id = j)) as [->|].
  - rewrite lookup_insert_eq, Ht. simpl. rewrite Hp. case_guard; by split.
  - by rewrite lookup_insert_ne.
Qed.

Lemma tasks_move_put t t' id s : stTasks s !! id = Some t → task_moves al t t' → tasks_move s (putTask t' id s).
Proof.
  intros Ht Hm Hn. destruct Hm as [E1 (E2 & E3 & E4) Hd Hc]. split_and!.
  - intros j x. rewrite putTask_tasks. intros [[<- <-]|[_ H]]%lookup_insert_Some.
    + rewrite E1, E2, E3, (tasksOf_put _ t) by done. by apply Hn.
    + rewrite (tasksOf_put _ t) by done. by apply Hn.
  - intros j x. rewrite putTask_tasks. intros [[<- <-]|[_ H]]%lookup_insert_Some.
    + left. by exists t.
    + left. exists x. split; [done|apply task_moves_refl].
  - apply putTask_keeps.
Qed.

(** The next task of a project. *)
Lemma tasks_move_new t' s n :
  n = Z.of_nat (size (tasksOf (tkProjectID t') s)) + 1 → tkNumber t' = n →
  tkID t' = taskName (tkProjectID t') n → tkState t' ≠ "done" → tasks_move s (putTask t' (tkID t') s).
Proof.
  intros Hsz E1 E2 Hd Hn. set (p := tkProjectID t') in *.
  pose proof (numbered_new s p n Hn Hsz) as Hnew. rewrite <- E2 in Hnew.
  assert (∀ q, size (tasksOf q (putTask t' (tkID t') s)) =
    (if bool_decide (q = p) then S (size (tasksOf q s)) else size (tasksOf q s))%nat) as Hq.
  { intros q. unfold tasksOf. rewrite putTask_tasks. case_bool_decide as Eq.
    - rewrite map_filter_insert_True by done. rewrite map_size_insert_None; [done|]. by rewrite map_lookup_filter, Hnew.
    - rewrite map_filter_insert_False by (intros E; apply Eq; symmetry; exact E). by rewrite delete_id. }
  split_and!.
  - intros j x. rewrite putTask_tasks, Hq. intros [[<- <-]|[_ H]]%lookup_insert_Some.
    + fold p. rewrite bool_decide_eq_true_2 by done. split_and!; [done|congruence|lia..].
    + destruct (Hn j x H) as (? & ? & ?). split_and!; [done..|lia|]. case_bool_decide; lia.
  - intros j x. rewrite putTask_tasks. intros [[<- <-]|[_ H]]%lookup_insert_Some; [by right|].
    left. exists x. split; [done|apply task_moves_refl].
  - apply putTask_keeps.
Qed.

Lemma grants_move_same s s' : csGrants (collab s') = csGrants (collab s) → grants_move s s'.
Proof. intros E id g. rewrite E. intros H. exists g. split; [done|apply grant_moves_refl]. Qed.
Lemma grants_move_trans s1 s2 s3 : grants_move s1 s2 → grants_move s2 s3 → grants_move s1 s3.
Proof.
  intros A B id g3 H3. destruct (B id g3 H3) as (g2 & H2 & M2). destruct (A id g2 H2) as (g1 & H1 & M1).
  exists g1. split; [done|by eapply grant_moves_trans].
Qed.

Lemma calm_refl s : calm s s.
Proof. split; [done|by apply grants_move_same|by apply tasks_move_same]. Qed.
Lemma calm_trans s1 s2 s3 : calm s1 s2 → calm s2 s3 → calm s1 s3.
Proof.
  intros [A1 A2 A3] [B1 B2 B3].
  split; [congruence|by eapply grants_move_trans|by eapply tasks_move_trans].
Qed.
#[global] Instance calm_preorder : PreOrder calm.
Proof. split; [exact calm_refl|exact calm_trans]. Qed.
End calm.

(** ** Building blocks *)
Section blocks.
Context (al : allowance).
Lemma calm_onCollab f s :
  (∀ v, csContracts (f v) = csContracts v) → (∀ v, csGrants (f v) = csGrants v) → calm al s (onCollab f s).
Proof.
  intros H1 H2. split; [apply H1|apply grants_move_same, H2|by apply tasks_move_same].
Qed.

Lemma calm_state s s' : stTasks s' = stTasks s → stCollaboration s' = stCollaboration s → calm al s s'.
Proof.
  intros H1 H2. split; [| |by apply tasks_move_same]; [unfold collab; by rewrite H2|].
  apply grants_move_same. unfold collab. by rewrite H2.
Qed.

Lemma AddEvent_collab p pid tid k txt rid at_ w s :
  stCollaboration (AddEvent p pid tid k txt rid at_ w s) = stCollaboration s.
Proof. unfold AddEvent. by destruct w. Qed.
Lemma calm_AddEvent p pid tid k txt rid at_ w s : calm al s (AddEvent p pid tid k txt rid at_ w s).
Proof. apply calm_state; [apply AddEvent_tasks|apply AddEvent_collab]. Qed.

Lemma calm_revoke id at_ s : calm al s (revokeGrant id at_ s).
Proof.
  unfold revokeGrant. destruct (csGrants (collab s) !! id) as [g|] eqn:E; [|reflexivity].
  split; [done| |by apply tasks_move_same]. intros j g' H. unfold putGrant, onCollab, collab in H. cbn in H.
  apply lookup_insert_Some in H as [[<- <-]|[_ H]].
  - exists g. split; [done|]. split; [by destruct g|cbn; lia|done].
  - exists g'. split; [done|apply grant_moves_refl].
Qed.

Lemma calm_putTask t t' id s : stTasks s !! id = Some t → task_moves al t t' → calm al s (putTask t' id s).
Proof. intros Ht Hm. split; [done|by apply grants_move_same|by eapply tasks_move_put]. Qed.

Lemma calm_numbered s s' : calm al s s' → numbered s → numbered s'.
Proof. intros [_ _ H] Hn. by destruct (H Hn). Qed.

(** Ranges, where every step may rely on the names of the tasks. *)
Lemma calm_fold {A} (f : A → State → State) (l : list A) s :
  numbered s → (∀ x s, numbered s → calm al s (f x s)) → calm al s (fold_left (λ s x, f x s) l s).
Proof.
  intros Hn H. revert s Hn. induction l as [|x l IH]; intros s Hn; simpl; [apply calm_refl|].
  eapply calm_trans; [by apply H|apply IH]. by eapply calm_numbered; [apply H|].
Qed.
Lemma calm_range {A} order site (m : gmap string A) f s :
  numbered s → (∀ id s, numbered s → calm al s (f id s)) → calm al s (range order site m f s).
Proof. apply calm_fold. Qed.

Lemma calm_fold_pair {A} (f : A → State * bool → State * bool) (l : list A) r :
  numbered r.1 → (∀ x r, numbered r.1 → calm al r.1 (f x r).1) → calm al r.1 (fold_left (λ r x, f x r) l r).1.
Proof.
  intros Hn H. revert r Hn. induction l as [|x l IH]; intros r Hn; simpl; [apply calm_refl|].
  eapply calm_trans; [by apply H|apply IH]. by eapply calm_numbered; [apply H|].
Qed.

Lemma task_of_some s id t : stTasks s !! id = Some t → task_of s id = t.
Proof. unfold task_of. by intros ->. Qed.

(** A task put back under its own name. *)
Lemma calm_put_own id t t' s :
  numbered s → stTasks s !! id = Some t → task_moves al t t' → calm al s (putTask t' (tkID t') s).
Proof.
  intros Hn Ht Hm. assert (tkID t' = id) as ->; [|by eapply calm_putTask].
  rewrite (tm_id _ _ _ Hm). by destruct (Hn id t Ht).
Qed.

End blocks.

Create HintDb calm.
#[export] Hint Resolve calm_refl calm_AddEvent calm_revoke : calm.
#[export] Hint Extern 2 (calm _ _ (putMeta _ _ _)) => (by apply calm_onCollab) : calm.
#[export] Hint Extern 2 (calm _ _ (putManifest _ _ _)) => (by apply calm_onCollab) : calm.
#[export] Hint Extern 2 (calm _ _ (putArtifact _ _ _)) => (by apply calm_onCollab) : calm.
#[export] Hint Extern 2 (calm _ _ (putEvidence _ _ _)) => (by apply calm_onCollab) : calm.
#[export] Hint Extern 2 (calm _ _ (putReport _ _ _)) => (by apply calm_onCollab) : calm.
#[export] Hint Extern 2 (calm _ _ (putActionable _ _ _)) => (by apply calm_onCollab) : calm.
#[export] Hint Extern 2 (calm _ _ (putDisposition _ _ _)) => (by apply calm_onCollab) : calm.
#[export] Hint Extern 2 (calm _ _ (putSubmission _ _ _)) => (by apply calm_onCollab) : calm.
#[export] Hint Extern 2 (calm _ _ (putDecision _ _ _)) => (by apply calm_onCollab) : calm.
#[export] Hint Extern 2 (calm _ _ (putHandoff _ _ _)) => (by apply calm_onCollab) : calm.
#[export] Hint Extern 2 (calm _ _ (putAssistance _ _ _)) => (by apply calm_onCollab) : calm.
#[export] Hint Extern 2 (calm _ _ (putRule _ _ _)) => (by apply calm_onCollab) : calm.
#[export] Hint Extern 2 (calm _ _ (putReceipt _ _ _)) => (by apply calm_onCollab) : calm.
#[export] Hint Extern 2 (calm _ _ (eachActionable _ _)) => (by apply calm_onCollab) : calm.
#[export] Hint Extern 2 (calm _ _ (resetProgress _ _)) => (by apply calm_onCollab) : calm.
#[export] Hint Extern 2 (calm _ _ (NormalizeCollaboration _)) => (by apply calm_onCollab) : calm.

Lemma calm_putProject al p id s : calm al s (putProject p id s).
Proof. by apply calm_state. Qed.
#[export] Hint Resolve calm_putProject : calm.

Lemma numbered_same s s' : stTasks s' = stTasks s → numbered s → numbered s'.
Proof. intros E Hn. by destruct (tasks_move_same nothing s s' E Hn). Qed.
Lemma numbered_AddEvent p pid tid k txt rid at_ w s : numbered s → numbered (AddEvent p pid tid k txt rid at_ w s).
Proof. apply numbered_same, AddEvent_tasks. Qed.

(** Peels the last building block off the state on the right. *)
Ltac calm_step :=
  match goal with
  | |- calm _ ?s ?s => apply calm_refl
  | |- calm _ _ (if ?b then _ else _) => destruct b eqn:?
  | |- calm ?al ?s (newActionable ?dg ?t ?k ?x ?w ?r ?sb ?b ?a ?s1).1 =>
      apply (calm_trans al s s1); [|solve [auto with calm]]
  | |- calm _ _ (putTask _ _ ?s1) => fail 1
  | |- calm ?al ?s (_ ?s1) => apply (calm_trans al s s1); [|solve [auto with calm]]
  end.
Ltac calm_steps := repeat calm_step.

Section digest.
Context (al : allowance) (digestJSON : hashed → string).

Lemma calm_newActionable t k txt who r sub b at_ s : calm al s (newActionable digestJSON t k txt who r sub b at_ s).1.
Proof. unfold newActionable. simpl. auto with calm. Qed.

Lemma calm_supersede id s : calm al s (supersede id s).
Proof. unfold supersede. destruct (csSubmissions (collab s) !! id); auto with calm. Qed.

Lemma calm_BuildManifest id at_ n s s' m : BuildManifest digestJSON id at_ n s = inl (s', m) → calm al s s'.
Proof.
  intros H. unfold BuildManifest in H. destruct (stTasks s !! id); [|done]. cbv zeta in H. follow H.
  destruct (csManifests (collab s) !! _); injection H as <- _; auto with calm.
Qed.
End digest.
#[export] Hint Resolve calm_newActionable calm_supersede : calm.

(** ** Contracts are only added, with their hash *)
Definition bare (k : TaskContract) : TaskContract := k <| tcHash := "" |>.
Section drawn.
Context (digestJSON : hashed → string) (al : allowance).

Definition contract_ok (id : string) (k : TaskContract) : Prop :=
  tcID k = id ∧ tcHash k = digestJSON (HContract (bare k)).
Definition contracts_ok (s : State) : Prop := ∀ id k, csContracts (collab s) !! id = Some k → contract_ok id k.

Record drawn (s s' : State) : Prop := {
  dr_contracts : ∀ id k, csContracts (collab s') !! id = Some k →
    csContracts (collab s) !! id = Some k ∨ contract_ok id k;
  dr_grants : grants_move s s';
  dr_tasks : tasks_move al s s' }.

Lemma calm_drawn s s' : calm al s s' → drawn s s'.
Proof. intros [A1 A2 A3]. split; [|done..]. intros id k. rewrite A1. by left. Qed.
Lemma drawn_trans s1 s2 s3 : drawn s1 s2 → drawn s2 s3 → drawn s1 s3.
Proof.
  intros [A1 A2 A3] [B1 B2 B3]. split; [|by eapply grants_move_trans|by eapply tasks_move_trans].
  intros id k H. destruct (B1 id k H) as [H2|]; [|by right]. by apply A1.
Qed.
Lemma drawn_ok s s' : drawn s s' → contracts_ok s → contracts_ok s'.
Proof. intros [H _ _] Hok id k Hk. destruct (H id k Hk) as [?|?]; [by apply Hok|done]. Qed.
Lemma drawn_numbered s s' : drawn s s' → numbered s → numbered s'.
Proof. intros [_ _ H] Hn. by destruct (H Hn). Qed.

Lemma drawn_putContract k id s : contract_ok id k → drawn s (putContract k id s).
Proof.
  intros Hk. split; [|by apply grants_move_same|by apply tasks_move_same].
  intros j x. unfold putContract, onCollab, collab. cbn. intros [[<- <-]|[_ H]]%lookup_insert_Some; [by right|by left].
Qed.

(** ** A grant is made by a human, on a contract that is there *)
Record granted (p : Principal) (s' : State) (id : string) (g : Grant) : Prop := {
  gt_id : grID g = id;
  gt_human : prHuman p = true;
  gt_by : grApprovedBy g = prID p;
  gt_budget : 0 ≤ grUsedRevisions g ≤ grMaxRevisions g ∧ grMaxRevisions g ≤ 2;
  gt_contract : ∃ k, csContracts (collab s') !! grContractID g = Some k ∧ grContractHash g = tcHash k }.

Record commands (p : Principal) (s s' : State) : Prop := {
  co_contracts : ∀ id k, csContracts (collab s') !! id = Some k →
    csContracts (collab s) !! id = Some k ∨ contract_ok id k;
  co_grants : ∀ id g', csGrants (collab s') !! id = Some g' →
    (∃ g, csGrants (collab s) !! id = Some g ∧ grant_moves g g') ∨ granted p s' id g';
  co_tasks : tasks_move al s s' }.

Lemma drawn_commands p s s' : drawn s s' → commands p s s'.
Proof. intros [A1 A2 A3]. split; [done| |done]. intros id g H. left. by apply A2. Qed.
Lemma drawn_then_commands p s1 s2 s3 : drawn s1 s2 → commands p s2 s3 → commands p s1 s3.
Proof.
  intros [A1 A2 A3] [B1 B2 B3]. split; [| |by eapply tasks_move_trans].
  - intros id k H. destruct (B1 id k H) as [H2|]; [by apply A1|by right].
  - intros id g3 H3. destruct (B2 id g3 H3) as [(g2 & H2 & M2)|?]; [|by right]. left.
    destruct (A2 id g2 H2) as (g1 & H1 & M1). exists g1. split; [done|by eapply grant_moves_trans].
Qed.

Lemma granted_moves p s s' id g g' :
  granted p s id g → grant_moves g g' → csContracts (collab s') = csContracts (collab s) → granted p s' id g'.
Proof.
  intros [E1 E2 E3 E4 E5] Hm Hc. destruct (grant_moves_fields _ _ Hm) as (F1 & F2 & F3 & F4 & F5 & _).
  destruct Hm as [_ Hu Hb]. split; [congruence|done|congruence|rewrite F2; lia|]. by rewrite F3, F4, Hc.
Qed.
Lemma commands_then_calm p s1 s2 s3 : commands p s1 s2 → calm al s2 s3 → commands p s1 s3.
Proof.
  intros [A1 A2 A3] [B1 B2 B3]. split; [by rewrite B1| |by eapply tasks_move_trans].
  intros id g3 H3. destruct (B2 id g3 H3) as (g2 & H2 & M2). destruct (A2 id g2 H2) as [(g1 & H1 & M1)|Hg].
  - left. exists g1. split; [done|by eapply grant_moves_trans].
  - right. by eapply granted_moves.
Qed.
End drawn.

(** Allowed less, moves as well. *)
Definition allows (al al' : allowance) : Prop := 
  (∀ id, accepts al id → accepts al' id) ∧ (∀ pid, reopens al pid → reopens al' pid).
Lemma tasks_move_mono al al' s s' : allows al al' → tasks_move al s s' → tasks_move al' s s'.
Proof.
  intros [H1 H2] H Hn. destruct (H Hn) as (A & B & C). split_and!; [done| |done].
  intros id t' Ht'. destruct (B id t' Ht') as [(t & Ht & [M1 M2 M3 M4])|[N D]]; [left|right; auto].
  exists t. split; [done|]. split; [done|done| |]; [intros E; destruct (M3 E); auto|intros E; destruct (M4 E); auto].
Qed.
Lemma calm_mono al al' s s' : allows al al' → calm al s s' → calm al' s s'.
Proof. intros Ha [A1 A2 A3]. split; [done..|by eapply tasks_move_mono]. Qed.
Lemma drawn_mono dg al al' s s' : allows al al' → drawn dg al s s' → drawn dg al' s s'.
Proof. intros Ha [A1 A2 A3]. split; [done..|by eapply tasks_move_mono]. Qed.
Lemma commands_mono dg al al' p s s' : allows al al' → commands dg al p s s' → commands dg al' p s s'.
Proof. intros Ha [A1 A2 A3]. split; [done..|by eapply tasks_move_mono]. Qed.
Lemma nothing_allows al : allows nothing al.
Proof. split; intros; done. Qed.
