(* ===== verification/CollabOps.v ===== *)
(** * Every operation of the collaboration moves the state soundly

    For each operation of version 2: which of contracts, grants and tasks it
    may change ([calm], with what it is allowed besides). *)

From S2P Require Import Prelude Orders CoordTypes Coordination CoordProps CoordSafety CollabState Collaboration CollabReports.
From S2P Require Import Cooperation CollabRuns CollabMoves.

(** ** The version 1 transition inside a version 2 command *)
Lemma settled_open t : settled (tkState t) = true → ¬ closed t.
Proof.
  unfold settled, closed. rewrite !orb_true_iff, !bool_decide_eq_true, !elem_of_cons, elem_of_nil.
  intros [[->| ->]| ->] [?|[?|?]]; done.
Qed.
Lemma state_open t x : tkState t = x → x ∉ ["done"; "cancelled"] → ¬ closed t.
Proof. unfold closed. intros ->. done. Qed.

Definition accepting (c : Command) : allowance :=
  mkAllowance (λ id, cmAction c = "accept" ∧ id = cmTaskID c) (λ _, False).

Lemma humanTask_moves p c t t' txt :
  tkID t = cmTaskID c → humanTask p c t = inl (t', txt) → cmAction c ∈ humanActions → task_moves (accepting c) t t'.
Proof.
  intros Hid H Hc. unfold humanTask in H. cbv zeta in H.
  destruct (bool_decide_reflect (cmAction c = "approve")) as [_|N1].
  { unrefuse H. injection H as <- _. apply task_moves_open; [done..|]. by eapply state_open; [exact Heqb|listed]. }
  destruct (bool_decide (cmAction c = "take_over")); [unrefuse H; injection H as <- _; by split; auto|].
  destruct (bool_decide (cmAction c = "return_to_pm")); [unrefuse H; injection H as <- _; by split; auto|].
  destruct (bool_decide_reflect (cmAction c = "accept")) as [Ea|N4]; unrefuse H; injection H as <- _.
  - split; [done..| |]; [intros _; right; by split|]. intros Hcl. exfalso. revert Hcl.
    by eapply state_open; [exact Heqb|listed].
  - apply task_moves_open; [done..|]. by apply settled_open.
Qed.

Lemma applyAction_calm p c at_ s s' r :
  numbered s → applyAction p c at_ s = inl (s', r) → calm (accepting c) s s'.
Proof.
  intros Hn H. unfold applyAction in H. destruct (bool_decide (cmAction c = "create")).
  { unfold createProject in H. unrefuse H. cbv zeta in H. unrefuse H. injection H as <- _.
    etrans; [|apply calm_AddEvent]. apply calm_putProject. }
  unfold applyInProject in H. destruct (Authorize _ _ _); [done|]. unrefuse H.
  destruct (bool_decide (cmAction c = "propose")).
  { destruct (proposalSandbox c); [|done]. destruct (str_empty _).
    - unfold proposeTask in H. cbv zeta in H. unrefuse H. injection H as <- _.
      match goal with |- calm _ _ (putTask _ _ ?s1) => transitivity s1; [apply calm_AddEvent|] end.
      split; [done|by apply grants_move_same|].
      match goal with |- tasks_move _ ?s1 (putTask ?t ?i _) => change i with (tkID t); set (t1 := t); set (s2 := s1) end.
      eapply (tasks_move_new _ t1 s2); [|done|done|done].
      unfold t1, s2, tasksOf. cbn [tkProjectID tkNumber field_set]. by rewrite AddEvent_tasks.
    - unfold reviseTask in H. destruct (taskFor c s) as [t|] eqn:Et; [|done]. unrefuse H. cbv zeta in H. injection H as <- _.
      apply taskFor_some in Et as [Ht _]. etrans; [apply calm_AddEvent|].
      match goal with |- calm _ _ (putTask ?t1 ?i _) => change i with (tkID t1) end.
      eapply calm_put_own; [by apply numbered_AddEvent|by rewrite AddEvent_tasks|].
      apply task_moves_open; [done..|by apply settled_open]. }
  destruct (bool_decide_reflect (cmAction c ∈ humanActions)) as [Hc|_].
  { unfold humanAction in H. unrefuse H. destruct (taskFor c s) as [t|] eqn:Et; [|done].
    apply taskFor_some in Et as [Ht _]. destruct (humanTask p c t) as [[t' txt]|] eqn:Eh; [|done].
    cbv zeta in H. injection H as <- _.
    assert (tkID t = cmTaskID c) as Hid by (by destruct (Hn _ t Ht)).
    pose proof (humanTask_moves p c t t' txt Hid Eh Hc) as Hm.
    set (s1 := if bool_decide (cmAction c = "approve") then _ else s).
    assert (calm (accepting c) s s1 ∧ stTasks s1 = stTasks s) as [C1 T1].
    { unfold s1. destruct (bool_decide _); [split; [apply calm_putProject|done]|split; [reflexivity|done]]. }
    etrans; [exact C1|]. etrans; [apply calm_AddEvent|].
    match goal with |- calm _ _ (putTask ?t1 ?i _) => change i with (tkID t1) end.
    eapply (calm_put_own _ (cmTaskID c) t).
    - apply numbered_AddEvent. by eapply calm_numbered.
    - by rewrite AddEvent_tasks, T1.
    - by destruct Hm; split. }
  destruct (bool_decide (cmAction c = "dispatch")).
  { unfold dispatchTask in H. unrefuse H. destruct (taskFor c s) as [t|] eqn:Et; [|done].
    apply taskFor_some in Et as [Ht _]. unrefuse H. cbv zeta in H. injection H as <- _.
    etrans; [apply calm_AddEvent|].
    match goal with |- calm _ _ (putTask ?t1 ?i _) => change i with (tkID t1) end.
    eapply calm_put_own; [by apply numbered_AddEvent|by rewrite AddEvent_tasks|].
    apply task_moves_open; [done..|]. by eapply state_open; [exact Heqb2|listed]. }
  destruct (_ || _); [|done]. unfold setMode in H. unrefuse H. cbv zeta in H. injection H as <- _.
  etrans; [|apply calm_AddEvent]. apply calm_putProject.
Qed.

Lemma calm_receipts al m s : calm al s (s <| stReceipts := m |>).
Proof. by apply calm_state. Qed.

Lemma applyLegacy_cases h p c at_ s s' r : applyLegacy h p c at_ s = inl (s', r) →
  (s' = s ∧ is_Some (stReceipts s !! receiptKey p c)) ∨
  (stReceipts s !! receiptKey p c = None ∧ ∃ s1, applyAction p c at_ s = inl (s1, r) ∧
   s' = s1 <| stReceipts := <[receiptKey p c := Receipt r (h (intent c))]> (stReceipts s1) |>).
Proof.
  intros H. unfold applyLegacy in H. cbv zeta in H. unrefuse H.
  destruct (stReceipts s !! receiptKey p c) as [[res x|e]|] eqn:Er; [|done|].
  - left. unrefuse H. injection H as <- _. split; [done|by eexists].
  - right. split; [done|]. unrefuse H. destruct (applyAction p c at_ s) as [[s1 res]|]; [|done].
    injection H as <- <-. by exists s1.
Qed.

Lemma applyLegacy_calm h p c at_ s s' r :
  numbered s → applyLegacy h p c at_ s = inl (s', r) → calm (accepting c) s s'.
Proof.
  intros Hn H. apply applyLegacy_cases in H as [[-> _]|(_ & s1 & H & ->)]; [reflexivity|].
  etrans; [by eapply applyAction_calm|apply calm_receipts].
Qed.

(** The task a version 1 action reports. *)
Lemma applyAction_task p c at_ s s' r :
  numbered s → applyAction p c at_ s = inl (s', r) → cmAction c ∉ ["create"; "pause"; "resume"] →
  is_Some (stTasks s' !! rsTaskID r).
Proof.
  intros Hn H Hc. unfold applyAction in H.
  destruct (bool_decide_reflect (cmAction c = "create")) as [E|_]; [set_solver|].
  unfold applyInProject in H. destruct (Authorize _ _ _); [done|]. unrefuse H.
  destruct (bool_decide (cmAction c = "propose")).
  { destruct (proposalSandbox c); [|done]. destruct (str_empty _).
    - unfold proposeTask in H. cbv zeta in H. unrefuse H. injection H as <- <-.
      rewrite putTask_tasks. cbn [rsTaskID]. rewrite lookup_insert_eq. by eexists.
    - unfold reviseTask in H. destruct (taskFor c s) as [t|] eqn:Et; [|done]. unrefuse H. cbv zeta in H. injection H as <- <-.
      rewrite putTask_tasks. cbn [rsTaskID tkID]. rewrite lookup_insert_eq. by eexists. }
  destruct (bool_decide (cmAction c ∈ humanActions)).
  { unfold humanAction in H. unrefuse H. destruct (taskFor c s) as [t|] eqn:Et; [|done].
    destruct (humanTask p c t) as [[t' txt]|]; [|done]. cbv zeta in H. injection H as <- <-.
    rewrite putTask_tasks. cbn [rsTaskID]. rewrite lookup_insert_eq. by eexists. }
  destruct (bool_decide (cmAction c = "dispatch")).
  { unfold dispatchTask in H. unrefuse H. destruct (taskFor c s) as [t|] eqn:Et; [|done]. unrefuse H.
    cbv zeta in H. injection H as <- <-. rewrite putTask_tasks. cbn [rsTaskID tkID]. rewrite lookup_insert_eq. by eexists. }
  destruct (bool_decide_reflect (cmAction c = "pause")) as [E|_]; [set_solver|].
  destruct (bool_decide_reflect (cmAction c = "resume")) as [E|_]; [set_solver|]. done.
Qed.

Lemma humanAction_human p c at_ s x : humanAction p c at_ s = inl x → prHuman p = true.
Proof. unfold humanAction. by destruct (prHuman p). Qed.

Lemma applyAction_human p c at_ s s' r :
  applyAction p c at_ s = inl (s', r) → cmAction c ∈ humanActions → prHuman p = true.
Proof.
  intros H Hc. unfold applyAction in H.
  destruct (bool_decide_reflect (cmAction c = "create")) as [E|_]; [rewrite E in Hc; not_listed Hc|].
  unfold applyInProject in H. destruct (Authorize _ _ _); [done|]. unrefuse H.
  destruct (bool_decide_reflect (cmAction c = "propose")) as [E|_]; [rewrite E in Hc; not_listed Hc|].
  rewrite bool_decide_eq_true_2 in H by done. by eapply humanAction_human.
Qed.

(** ** [applyTaskCommand] *)
Definition allowed (p : Principal) (c : CollaborationCommand) : allowance :=
  mkAllowance (λ id, action c = "accept" ∧ id = taskOf c) (λ _, prHuman p = true).

Section digest.
Context (digestJSON : hashed → string).

Lemma isAction_true c l : isAction c l = true ↔ action c ∈ l.
Proof. unfold isAction. apply bool_decide_eq_true. Qed.
Lemma isAction_false c l : isAction c l = false ↔ action c ∉ l.
Proof. unfold isAction. apply bool_decide_eq_false. Qed.

(** What the checks leave of the command. *)
Record prepared (p : Principal) (c : CollaborationCommand) (at_ : Z) (s : State) (s' : State) (c' : CollaborationCommand) : Prop := {
  pp_calm : calm (allowed p c) s s';
  pp_task : taskOf c' = taskOf c;
  pp_project : projectOf c' = projectOf c;
  pp_mutation : cmMutationID (ccCommand c') = cmMutationID (ccCommand c);
  pp_receipts : stReceipts s' = stReceipts s;
  pp_action : action c' = action c ∨ action c' = "rework" ∧ action c ∈ ["reopen"; "continue"];
  pp_human : action c' ∈ ["rework"; "accept"] → prHuman p = true;
  pp_budget : action c' ∈ ["approve"; "rework"] → 0 ≤ ccMaxRevisions c' ≤ 2 }.

Lemma reopened_ok p c s s' c' : numbered s → reopened p c s = inl (s', c') →
  calm (allowed p c) s s' ∧ stReceipts s' = stReceipts s ∧
  (s' = s ∧ c' = c ∧ action c ≠ "reopen" ∨ c' = setAction "rework" c ∧ action c = "reopen" ∧ prHuman p = true).
Proof.
  intros Hn H. unfold reopened in H. destruct (isAction c ["reopen"]) eqn:Ea; simpl in H.
  - apply isAction_true, list_elem_of_singleton in Ea. unrefuse H. injection H as <- <-.
    match goal with H : is_Some _ |- _ => destruct H as [t Ht] end.
    rewrite (task_of_some _ _ _ Ht) in *. split_and!; [|done|by right].
    match goal with |- calm _ _ (putTask ?t1 ?i _) => change i with (tkID t1) end.
    eapply calm_put_own; [done|done|]. split; [done|done|done|]. intros _. by right.
  - injection H as <- <-. apply isAction_false in Ea. split_and!; [reflexivity|done|left]. split_and!; [done..|set_solver].
Qed.

Lemma proposeStep_ok al c s s' : numbered s → proposeStep c s = inl s' →
  calm al s s' ∧ stReceipts s' = stReceipts s.
Proof.
  intros Hn H. unfold proposeStep in H. destruct (negb _); [injection H as <-; by split|]. follow H.
  injection H as <-. destruct (stTasks s !! taskOf c) as [t|] eqn:Ht; [|injection E as <-; by split].
  follow E. injection E as <-. split; [|done].
  match goal with |- calm _ _ (putTask ?t1 ?i _) => change i with (tkID t1) end.
  eapply calm_put_own; [done|done|]. apply task_moves_open; [done..|]. bool_facts.
  match goal with H : tkState t ∈ _ |- _ => revert H end. unfold closed. rewrite !elem_of_cons, elem_of_nil.
  intros Ho [E|[E|[]]]; rewrite E in Ho; naive_solver.
Qed.

Lemma reworkStep_ok p c s s' c' : numbered s → is_Some (stTasks s !! taskOf c) ∨ action c ∉ ["rework"; "continue"] →
  reworkStep p c s = inl (s', c') →
  calm (allowed p c) s s' ∧ stReceipts s' = stReceipts s ∧ taskOf c' = taskOf c ∧ projectOf c' = projectOf c ∧
  cmMutationID (ccCommand c') = cmMutationID (ccCommand c) ∧ ccMaxRevisions c' = ccMaxRevisions c ∧
  (c' = c ∧ action c ∉ ["rework"; "continue"] ∨ action c' = "rework" ∧ action c ∈ ["rework"; "continue"] ∧ prHuman p = true).
Proof.
  intros Hn Ht H. unfold reworkStep in H. destruct (isAction c ["rework"; "continue"]) eqn:Ea; simpl in H.
  - apply isAction_true in Ea. destruct Ht as [[t Ht]|?]; [|done]. rewrite (task_of_some _ _ _ Ht) in *. follow H.
    injection H as <- <-. bool_facts.
    assert (taskOf c0 = taskOf c ∧ projectOf c0 = projectOf c ∧
      cmMutationID (ccCommand c0) = cmMutationID (ccCommand c) ∧ ccMaxRevisions c0 = ccMaxRevisions c ∧
      action c0 = "rework") as (? & ? & ? & ? & ?).
    { destruct (isAction c ["continue"]) eqn:Ec; [unrefuse E|]; injection E as <-; split_and!; try done.
      apply isAction_false in Ec. apply elem_of_cons in Ea as [Ea|Ea]; done. }
    split_and!; [|done..|by right].
    match goal with |- calm _ _ (putTask ?t1 ?i _) => change i with (tkID t1) end.
    eapply calm_put_own; [done|done|]. split; [done|done|done|]. intros _. by right.
  - injection H as <- <-. apply isAction_false in Ea. split_and!; [reflexivity|done..|by left].
Qed.

Lemma prepare_ok p c at_ s s' c' : numbered s → prepareTaskCommand digestJSON p c at_ s = inl (s', c') →
  prepared p c at_ s s' c'.
Proof.
  intros Hn H. unfold prepareTaskCommand in H. cbv zeta in H.
  set (c0 := withCommand _ c) in H.
  assert (action c0 = action c ∧ taskOf c0 = taskOf c ∧ projectOf c0 = projectOf c ∧
    cmMutationID (ccCommand c0) = cmMutationID (ccCommand c)) as (A0 & T0 & P0 & M0) by by split_and!.
  assert (ccMaxRevisions c0 = ccMaxRevisions c) as X0 by done. clearbody c0. follow H.
  injection H as <- <-.
  assert (∀ x, action x = action c ∨ action x = "rework" → taskOf x = taskOf c → allows (allowed p x) (allowed p c)) as Hal.
  { intros x Hx Htx. split; [|done]. intros id [Hy ->]. split; [destruct Hx; congruence|congruence]. }
  apply reopened_ok in E as (C1 & R1 & D1); [|done].
  assert (taskOf c1 = taskOf c ∧ projectOf c1 = projectOf c ∧ cmMutationID (ccCommand c1) = cmMutationID (ccCommand c) ∧
    ccMaxRevisions c1 = ccMaxRevisions c ∧
    (action c1 = action c ∨ action c1 = "rework" ∧ action c = "reopen" ∧ prHuman p = true)) as (T1 & P1 & M1 & X1 & A1).
  { destruct D1 as [(_ & -> & _)|(-> & ? & ?)]; [by split_and!; auto|]. split_and!; try done. right. by split_and!; [|congruence|]. }
  assert (numbered s0) as Hn0 by (by eapply calm_numbered).
  apply (proposeStep_ok (allowed p c)) in E4 as [C2 R2]; [|done].
  assert (numbered s1) as Hn1 by (by eapply calm_numbered).
  assert (is_Some (stTasks s1 !! taskOf c1) ∨ action c1 ∉ ["rework"; "continue"]) as Hex.
  { destruct (decide (action c1 ∈ ["rework"; "continue"])) as [Hr|Hr]; [left|by right].
    unfold identityChecks in E0. destruct (bool_decide_reflect (is_Some (stTasks s0 !! taskOf c1))) as [Hs|Hs].
    - destruct C2 as [_ _ C2]. destruct (C2 Hn0) as (_ & _ & Hk). by apply Hk.
    - exfalso. simpl in E0. destruct (isAction c1 ["propose"; "pause"; "resume"]) eqn:Ep; [|done].
      apply isAction_true in Ep. repeat (apply elem_of_cons in Hr as [Hr|Hr]; [rewrite Hr in Ep; not_listed Ep|]).
      by apply elem_of_nil in Hr. }
  apply reworkStep_ok in E5 as (C3 & R3 & T2 & P2 & M2 & X2 & D2); [|done|done].
  assert (calm (allowed p c) s0 s2) as C02.
  { etrans; [exact C2|]. eapply calm_mono; [|exact C3]. apply Hal; [|done]. destruct A1 as [?|(? & _)]; auto. }
  assert (action c2 = action c ∨ action c2 = "rework" ∧ action c ∈ ["reopen"; "continue"] ∧ prHuman p = true) as A2.
  { destruct D2 as [[-> _]|(Ea & Eb & Eh)].
    - destruct A1 as [?|(? & Er & ?)]; [by left|right]. split_and!; [done|rewrite Er; listed|done].
    - destruct A1 as [E|(E & Er & ?)].
      + rewrite E in Eb. apply elem_of_cons in Eb as [Eb|Eb]; [left; congruence|]. apply list_elem_of_singleton in Eb.
        right. split_and!; [done|rewrite Eb; listed|done].
      + right. split_and!; [done|rewrite Er; listed|done]. }
  split; [|congruence..| | |].
  - etrans; [|exact C02]. eapply calm_mono; [|exact C1]. apply Hal; [by left|done].
  - destruct A2 as [?|(? & ? & _)]; [by left|by right].
  - intros Hx. destruct D2 as [[-> Hnr]|(_ & _ & ?)]; [|done].
    apply elem_of_cons in Hx as [Hx|Hx]; [rewrite Hx in Hnr; exfalso; apply Hnr; set_solver|].
    apply list_elem_of_singleton in Hx. unfold acceptChecks in E1.
    assert (isAction c1 ["accept"] = true) as Hac by (apply isAction_true; rewrite Hx; listed).
    rewrite Hac in E1. simpl in E1. by destruct (prHuman p).
  - intros Hx. rewrite X2. unfold grantChecks in E3.
    assert (isAction c1 ["approve"; "rework"; "continue"] = true) as Hg.
    { apply isAction_true. destruct D2 as [[-> Hnr]|(_ & Eb & _)].
      - apply elem_of_cons in Hx as [->|Hx]; [listed|]. exfalso. apply Hnr. apply list_elem_of_singleton in Hx as ->. listed.
      - apply elem_of_cons in Eb as [->|Eb]; [listed|]. apply list_elem_of_singleton in Eb as ->. listed. }
    rewrite Hg in E3. simpl in E3. destruct (negb _); [done|].
    destruct ((ccMaxRevisions c1 <? 0) || (2 <? ccMaxRevisions c1) || _) eqn:Eb; [done|]. bool_facts. lia.
Qed.

(** ** What is recorded besides the transition *)
Lemma revokeGrant_tasks id at_ s : stTasks (revokeGrant id at_ s) = stTasks s.
Proof. unfold revokeGrant. by destruct (csGrants (collab s) !! id). Qed.
Lemma revokeGrant_receipts id at_ s : stReceipts (revokeGrant id at_ s) = stReceipts s.
Proof. unfold revokeGrant. by destruct (csGrants (collab s) !! id). Qed.
Lemma revokeGrant_contracts id at_ s : csContracts (collab (revokeGrant id at_ s)) = csContracts (collab s).
Proof. unfold revokeGrant. by destruct (csGrants (collab s) !! id). Qed.

Lemma BuildManifest_keeps id at_ n s s' m : BuildManifest digestJSON id at_ n s = inl (s', m) →
  stTasks s' = stTasks s ∧ stReceipts s' = stReceipts s ∧
  str_empty (tcID (contract_of s (mtContractID (meta_of s id)))) = false.
Proof.
  intros H. unfold BuildManifest in H. destruct (stTasks s !! id); [|done]. cbv zeta in H.
  destruct (str_empty (tcID (contract_of s (mtContractID (meta_of s id))))) eqn:Ee; [done|]. follow H.
  destruct (csManifests (collab s) !! _); by injection H as <- _.
Qed.

Lemma newContract_ok c task meta at_ s k :
  newContract digestJSON c task meta at_ s = inl k → contract_ok digestJSON (tcID k) k.
Proof. intros H. unfold newContract in H. cbv zeta in H. follow H. by injection H as <-. Qed.

Lemma recordCommand_ok al p c task meta at_ s s' task' meta' :
  recordCommand digestJSON p c task meta at_ s = inl (s', task', meta') →
  (action c ∈ ["rework"; "return_to_pm"] → ∀ pid, reopens al pid) →
  drawn digestJSON al s s' ∧ stTasks s' = stTasks s ∧ stReceipts s' = stReceipts s ∧ task_moves al task task' ∧
  (action c ∉ ["propose"; "rework"] → calm al s s').
Proof.
  intros H Hal. unfold recordCommand in H. destruct (isAction c ["propose"; "rework"]) eqn:E1.
  { apply isAction_true in E1. unfold recordContract in H. follow H. injection H as <- <- _. apply newContract_ok in E.
    split_and!; [|by rewrite revokeGrant_tasks|by rewrite revokeGrant_receipts| |done].
    - eapply drawn_trans; [by apply drawn_putContract|]. apply calm_drawn. auto with calm.
    - destruct (isAction c ["rework"]) eqn:E2; [|apply task_moves_refl]. apply isAction_true in E2.
      split; [done..|]. intros _. right. apply Hal. apply list_elem_of_singleton in E2. rewrite E2. listed. }
  assert (∀ s', calm al s s' → drawn digestJSON al s s' ∧ (action c ∉ ["propose"; "rework"] → calm al s s')) as Hcd
    by (intros s1 ?; split; [by apply calm_drawn|done]).
  destruct (isAction c ["take_over"]).
  { unfold recordTakeover in H. injection H as <- <- _.
    match goal with |- drawn _ _ _ ?s1 ∧ _ => destruct (Hcd s1) as [? ?]; [calm_steps|] end.
    split_and!; [done|apply revokeGrant_tasks|apply revokeGrant_receipts|apply task_moves_refl|done]. }
  destruct (isAction c ["return_to_pm"]) eqn:E3.
  { unfold recordHandback in H. injection H as <- <- _.
    match goal with |- drawn _ _ _ ?s1 ∧ _ => destruct (Hcd s1) as [? ?]; [calm_steps|] end.
    split_and!; [done..| |done]. apply isAction_true, list_elem_of_singleton in E3. split; [done..|]. intros _. right. apply Hal. rewrite E3. listed. }
  destruct (isAction c ["accept"]); injection H as <- <- _.
  all: match goal with |- drawn _ _ _ ?s1 ∧ _ => destruct (Hcd s1) as [? ?]; [calm_steps; apply calm_refl|] end.
  all: split_and!; [done..|apply task_moves_refl|done].
Qed.

Lemma putGrant_commands al p g s :
  granted p s (grID g) g → commands digestJSON al p s (putGrant g (grID g) s).
Proof.
  intros Hg. split; [by left| |by apply tasks_move_same].
  intros id g'. unfold putGrant, onCollab, collab. cbn. intros [[<- <-]|[_ H]]%lookup_insert_Some.
  - right. by destruct Hg.
  - left. exists g'. split; [done|apply grant_moves_refl].
Qed.

Lemma meta_put m id s : meta_of (putMeta m id s) id = m.
Proof. unfold meta_of, putMeta, onCollab, collab. cbn. by rewrite lookup_insert_eq. Qed.

Lemma recordGrant_ok al p c task meta at_ s s' task' meta' :
  numbered s → contracts_ok digestJSON s → stTasks s !! tkID task = Some task →
  (action c ∈ ["approve"; "rework"] → prHuman p = true ∧ 0 ≤ ccMaxRevisions c ≤ 2) →
  recordGrant digestJSON p c task meta at_ s = inl (s', task', meta') →
  commands digestJSON al p s s' ∧ stReceipts s' = stReceipts s.
Proof.
  intros Hn Hk Ht Hh H. unfold recordGrant in H. destruct (isAction c ["approve"; "rework"]) eqn:Ea; simpl in H.
  2:{ injection H as <- _ _. split; [|done]. apply drawn_commands, calm_drawn. reflexivity. }
  apply isAction_true in Ea. destruct (Hh Ea) as [Hp Hm]. follow H. injection H as <- _ _. revert E.
  set (g := mkGrant _ _ _ _ _ _ _ _ _ _ _ _).
  change (collaborationID digestJSON "grant" p (cmMutationID (ccCommand c))) with (grID g). set (s1 := putGrant g (grID g) s).
  match goal with |- BuildManifest _ _ _ _ (putMeta ?m _ (eachActionable ?f _)) = _ → _ =>
    set (m1 := m); set (s2 := eachActionable f s1) end.
  set (s3 := putMeta m1 (tkID task) s2). intros E.
  destruct (BuildManifest_keeps _ _ _ _ _ _ E) as (T4 & R4 & Hne). unfold s3 in Hne at 2. rewrite meta_put in Hne.
  change (contract_of s3 (mtContractID m1)) with (contract_of s (mtContractID meta)) in Hne.
  split; [|exact R4].
  assert (granted p s (grID g) g) as Hg.
  { unfold contract_of in Hne. destruct (csContracts (collab s) !! mtContractID meta) as [k|] eqn:Ek; [|done].
    assert (contract_of s (mtContractID meta) = k) as Ec by (unfold contract_of; by rewrite Ek).
    split; [done|done|done|unfold g; cbn [grUsedRevisions grMaxRevisions]; lia|].
    unfold g. cbn [grContractID grContractHash]. rewrite Ec. exists k. split; [|done]. destruct (Hk _ _ Ek) as [-> _]. done. }
  eapply commands_then_calm; [by apply putGrant_commands|]. fold s1.
  apply (calm_trans _ _ s0).
  - apply (calm_trans _ _ s3); [|by eapply calm_BuildManifest]. unfold s3, s2. calm_steps.
  - match goal with |- calm _ _ (putTask ?t1 ?i ?s5) => change i with (tkID t1); apply (calm_trans _ _ s5) end; [calm_steps|].
    eapply (calm_put_own _ (tkID task) task); [|etrans; [exact (f_equal (λ m, m !! tkID task) T4)|exact Ht]|by split; auto].
    eapply numbered_same; [exact T4|exact Hn].
Qed.

(** ** The whole command *)
Lemma prepared_action p c at_ s s' c' : prepared p c at_ s s' c' →
  (action c' = action c ∨ action c' = "rework") ∧ (action c ∈ ["propose"; "dispatch"] → action c' = action c).
Proof.
  intros [_ _ _ _ _ Ha _ _]. split; [destruct Ha as [?|[? _]]; auto|].
  intros Hc. destruct Ha as [?|[_ Hr]]; [done|].
  repeat (apply elem_of_cons in Hc as [Hc|Hc]; [rewrite Hc in Hr; not_listed Hr|]). by apply elem_of_nil in Hc.
Qed.

Lemma applyTaskCommand_split p c at_ s s' r :
  numbered s → action c ≠ "create" → stReceipts s !! receiptKey p (legacyOf c) = None →
  applyTaskCommand digestJSON p c at_ s = inl (s', r) →
  ∃ s2, drawn digestJSON (allowed p c) s s2 ∧ (action c = "dispatch" → calm (allowed p c) s s2) ∧
    (∃ x, stReceipts s2 = <[receiptKey p (legacyOf c) := x]> (stReceipts s)) ∧
    (s' = s2 ∨ ∃ c' task meta task' meta', stTasks s2 !! tkID task = Some task ∧
       (action c' = action c ∨ action c' = "rework") ∧ (action c ∈ ["propose"; "dispatch"] → action c' = action c) ∧
       (action c' ∈ ["approve"; "rework"] → prHuman p = true ∧ 0 ≤ ccMaxRevisions c' ≤ 2) ∧
       recordGrant digestJSON p c' task meta at_ s2 = inl (s', task', meta')).
Proof.
  intros Hn Hcr Hk H. unfold applyTaskCommand in H. follow H. apply prepare_ok in E as Hp; [|done].
  destruct (prepared_action _ _ _ _ _ _ Hp) as [Ha1 Ha2]. destruct Hp as [C1 T1 P1 M1 R1 _ Hh Hb].
  assert (numbered s0) as Hn0 by (by eapply calm_numbered).
  assert (receiptKey p (legacyOf c0) = receiptKey p (legacyOf c)) as Ek.
  { unfold receiptKey, legacyOf. cbn. by rewrite M1. }
  apply applyLegacy_cases in E0 as [[-> [x Hx]]|(_ & sl & Hl & ->)]; [rewrite R1, Ek in Hx; congruence|].
  assert (calm (allowed p c) s0 sl) as C2.
  { eapply calm_mono; [|by eapply applyAction_calm]. split; [|done]. intros id [Ea ->]. unfold legacyOf in *. cbn in Ea |- *.
    change (action c0 = "accept") in Ea. split; [|exact T1]. destruct Ha1 as [<-|Er]; [done|congruence]. }
  assert (stReceipts sl = stReceipts s) as Rl by (rewrite (applyAction_receipts _ _ _ _ _ _ Hl); done).
  set (sL := sl <| stReceipts := _ |>) in *.
  assert (calm (allowed p c) s sL) as C3 by (etrans; [exact C1|]; etrans; [exact C2|apply calm_receipts]).
  assert (∃ x, stReceipts sL = <[receiptKey p (legacyOf c) := x]> (stReceipts s)) as RL.
  { eexists. rewrite <- Ek, <- Rl. reflexivity. }
  destruct (isAction c0 ["pause"; "resume"]) eqn:Ep.
  { injection H as <- _. exists (if isAction c0 ["resume"] then resetProgress (projectOf c0) sL else sL).
    assert (calm (allowed p c) s (if isAction c0 ["resume"] then resetProgress (projectOf c0) sL else sL)).
    { destruct (isAction c0 ["resume"]); [|done]. etrans; [exact C3|auto with calm]. }
    split_and!; [by apply calm_drawn|done|destruct (isAction c0 ["resume"]); exact RL|by left]. }
  apply isAction_false in Ep. follow H. injection H as <- _.
  match goal with E : recordCommand _ _ _ ?t0 ?m0 _ _ = _ |- _ => set (task0 := t0) in E; set (meta0 := m0) in E; rename E into Er end.
  rename s1 into s3, t0 into task1, t into meta1, E1 into Eg.
  assert (prHuman p = true ∨ action c0 ∉ ["rework"; "return_to_pm"; "approve"]) as Hhum.
  { destruct (decide (action c0 ∈ ["rework"; "return_to_pm"; "approve"])) as [Hx|?]; [left|by right].
    eapply applyAction_human; [exact Hl|]. change (action c0 ∈ humanActions).
    repeat (apply elem_of_cons in Hx as [->|Hx]; [listed|]). by apply elem_of_nil in Hx. }
  assert (is_Some (stTasks sL !! rsTaskID r0)) as [t0 Ht0].
  { change (stTasks sL) with (stTasks sl). eapply applyAction_task; [exact Hn0|exact Hl|].
    change (action c0 ∉ ["create"; "pause"; "resume"]). intros Hx. apply elem_of_cons in Hx as [Hx|Hx]; [|done].
    destruct Ha1 as [E2|E2]; congruence. }
  assert (task0 = t0) as Et0 by (by apply task_of_some).
  assert (numbered sL) as HnL by (by eapply calm_numbered).
  assert (tkID t0 = rsTaskID r0) as Hid by (by destruct (HnL _ _ Ht0)).
  apply (recordCommand_ok (allowed p c)) in Er as (D3 & T3 & R3 & Tm & C4).
  2:{ intros Hx. destruct Hhum as [?|Hh']; [done|]. exfalso. apply Hh'.
      apply elem_of_cons in Hx as [->|Hx]; [listed|]. apply list_elem_of_singleton in Hx as ->. listed. }
  rewrite Et0 in Tm. assert (tkID task1 = tkID t0) as Hid1 by (by destruct Tm).
  exists (putTask task1 (tkID task1) (putMeta meta1 (tkID task1) s3)).
  assert (calm (allowed p c) s3 (putTask task1 (tkID task1) (putMeta meta1 (tkID task1) s3))) as C5.
  { apply (calm_trans _ _ (putMeta meta1 (tkID task1) s3)); [calm_steps|].
    eapply (calm_put_own _ (rsTaskID r0) t0); [|by rewrite <- Ht0, <- T3|done].
    eapply numbered_same; [exact T3|done]. }
  split_and!.
  - eapply drawn_trans; [by apply calm_drawn|]. eapply drawn_trans; [exact D3|by apply calm_drawn].
  - intros Ed. etrans; [exact C3|]. etrans; [|exact C5]. apply C4. rewrite (Ha2 ltac:(rewrite Ed; listed)), Ed. listed.
  - destruct RL as [x Hx]. exists x. rewrite <- Hx. exact R3.
  - right. exists c0, task1, meta1, t2, t1. split_and!; [|done|done| |done].
    + rewrite putTask_tasks. by rewrite lookup_insert_eq.
    + intros Hx. split; [|by apply Hb]. destruct Hhum as [?|Hh']; [done|]. exfalso. apply Hh'.
      apply elem_of_cons in Hx as [->|Hx]; [listed|]. apply list_elem_of_singleton in Hx as ->. listed.
Qed.

Lemma applyTaskCommand_ok p c at_ s s' r :
  numbered s → contracts_ok digestJSON s → action c ≠ "create" → stReceipts s !! receiptKey p (legacyOf c) = None →
  applyTaskCommand digestJSON p c at_ s = inl (s', r) →
  commands digestJSON (allowed p c) p s s' ∧ ∃ x, stReceipts s' = <[receiptKey p (legacyOf c) := x]> (stReceipts s).
Proof.
  intros Hn Hk Hc Hr H. apply applyTaskCommand_split in H as (s2 & D & _ & R & H); [|done..].
  destruct H as [->|(c' & task & meta & task' & meta' & Ht & _ & _ & Hh & Hg)].
  - split; [by apply drawn_commands|done].
  - apply (recordGrant_ok (allowed p c)) in Hg as [Hg Rg]; [|by eapply drawn_numbered|by eapply drawn_ok|done|done].
    split; [by eapply drawn_then_commands|]. destruct R as [x Rx]. exists x. by rewrite Rg.
Qed.

(** Proposing and dispatching make no grant. *)
Lemma applyTaskCommand_drawn p c at_ s s' r :
  numbered s → action c ∈ ["propose"; "dispatch"] → stReceipts s !! receiptKey p (legacyOf c) = None →
  applyTaskCommand digestJSON p c at_ s = inl (s', r) →
  drawn digestJSON (allowed p c) s s' ∧ (action c = "dispatch" → calm (allowed p c) s s') ∧
  ∃ x, stReceipts s' = <[receiptKey p (legacyOf c) := x]> (stReceipts s).
Proof.
  intros Hn Hc Hr H. apply applyTaskCommand_split in H as (s2 & D & Cd & R & H); [|done| |done].
  2:{ intros E. rewrite E in Hc. not_listed Hc. }
  destruct H as [->|(c' & task & meta & task' & meta' & Ht & _ & Ha & _ & Hg)]; [done|].
  unfold recordGrant in Hg. assert (isAction c' ["approve"; "rework"] = false) as E.
  { apply isAction_false. rewrite (Ha Hc). intros Hx.
    repeat (apply elem_of_cons in Hc as [Hc|Hc]; [rewrite Hc in Hx; not_listed Hx|]). by apply elem_of_nil in Hc. }
  rewrite E in Hg. simpl in Hg. injection Hg as <- _ _. done.
Qed.
End digest.
