(* ===== verification/CollabRest.v ===== *)
(** * The other operations, and the entry point

    Reports, dispositions, submissions, assistance, playbooks, runs and
    maintenance make neither contracts nor grants and close no task; then
    what a whole [ApplyCollaboration] may change. *)

From S2P Require Import Prelude Orders Decimal CoordTypes Coordination CoordProps CoordSafety CollabState Collaboration CollabReports.
From S2P Require Import Cooperation CollabRuns CollabApply CollabMoves CollabOps.

Section digest.
Context (digestJSON : hashed → string) (order : ordering).

(** ** Reports *)
Lemma calm_pair_action al s t k x w r sb b a s1 s' y :
  newActionable digestJSON t k x w r sb b a s1 = (s', y) → calm al s s1 → calm al s s'.
Proof. intros E H. apply (calm_trans _ _ s1); [done|]. pose proof (calm_newActionable al digestJSON t k x w r sb b a s1) as C. by rewrite E in C. Qed.

Lemma applyReport_calm al p c r at_ s s' x : applyReport digestJSON p c r at_ s = inl (s', x) → calm al s s'.
Proof.
  intros H. unfold applyReport in H. cbv zeta in H. follow H.
  assert (calm al s s0) as C0.
  { unfold reportEffect in E0. destruct (bool_decide _); [follow E0; injection E0 as <-; calm_steps|].
    destruct (bool_decide _); [injection E0 as <-; reflexivity|]. destruct (bool_decide _); [|done]. cbv zeta in E0.
    follow E0. injection E0 as <-. calm_steps. }
  destruct (wakes r && _).
  - destruct (newActionable _ _ _ _ _ _ _ _ _ _) as [s1 a] eqn:En. injection H as <- _.
    eapply calm_pair_action; [exact En|]. etrans; [exact C0|]. calm_steps.
  - injection H as <- _. etrans; [exact C0|]. calm_steps.
Qed.

Lemma applyDisposition_calm al p c d at_ s s' x : applyDisposition digestJSON p c d at_ s = inl (s', x) → calm al s s'.
Proof. intros H. unfold applyDisposition in H. cbv zeta in H. follow H. injection H as <- _. calm_steps. Qed.

Lemma applySubmission_calm al p c i at_ s s' x : applySubmission digestJSON p c i at_ s = inl (s', x) → calm al s s'.
Proof. intros H. unfold applySubmission in H. cbv zeta in H. follow H. injection H as <- _. calm_steps. Qed.

(** ** Cooperation *)
Lemma decideTask_calm al pid c at_ id s : calm al s (decideTask digestJSON pid c at_ id s).
Proof.
  unfold decideTask. destruct (csTasks (collab s) !! id) as [m|]; [|reflexivity].
  destruct (_ || _); [reflexivity|]. cbv zeta.
  match goal with |- calm _ _ (newActionable _ _ _ _ _ _ _ _ _ ?s1).1 => apply (calm_trans _ _ s1); [|apply calm_newActionable] end.
  destruct (negb _); calm_steps.
Qed.

Lemma endTask_calm al id t s : numbered s → stTasks s !! id = Some t → tkState t ≠ "done" → calm al s (endTask t s).
Proof.
  intros Hn Ht Hd. unfold endTask.
  match goal with |- calm _ _ (putTask ?t1 ?i _) => change i with (tkID t1) end.
  eapply calm_put_own; [done|done|]. split; [done|done|done|]. unfold closed. cbn.
  intros Hc. apply elem_of_cons in Hc as [|Hc]; [done|]. apply list_elem_of_singleton in Hc. by left.
Qed.

Lemma endHelper_calm al id l at_ s : numbered s → "done" ∈ l → calm al s (endHelper id l at_ s).
Proof.
  intros Hn Hl. unfold endHelper. destruct (stTasks s !! id) as [t|] eqn:Ht; [|reflexivity].
  destruct (_ && _) eqn:E; [|reflexivity]. bool_facts.
  apply (calm_trans _ _ (endTask t s)); [|auto with calm]. eapply endTask_calm; [done|done|]. intros Hd. by rewrite Hd in *.
Qed.

Lemma cancelAssistance_calm al task at_ id s : numbered s → calm al s (cancelAssistance task at_ id s).
Proof.
  intros Hn. unfold cancelAssistance. destruct (csAssistance (collab s) !! id); [|reflexivity].
  destruct (_ && _); [|reflexivity]. cbv zeta.
  match goal with |- calm _ _ (endHelper _ _ _ ?s1) => apply (calm_trans _ _ s1); [calm_steps|] end.
  apply endHelper_calm; [done|listed].
Qed.

Lemma prefixed_legacy c : has_prefix "v2-" (cmMutationID (legacyOf c)) = true.
Proof. unfold legacyOf. cbn. by destruct (cmMutationID (ccCommand c)). Qed.

(** No receipt of version 1 is under a name that version 2 gives. *)
Definition unclaimed (p : Principal) (s : State) : Prop :=
  ∀ x : Command, has_prefix "v2-" (cmMutationID x) = true → stReceipts s !! receiptKey p x = None.

Lemma receiptKey_inj p x y : receiptKey p x = receiptKey p y → cmMutationID x = cmMutationID y.
Proof.
  unfold receiptKey, cat. cbn [foldr]. intros H. do 4 apply append_inj in H. by rewrite !append_nil in H.
Qed.

Definition grants_ok (s : State) : Prop := ∀ id g, csGrants (collab s) !! id = Some g →
  grID g = id ∧ 0 ≤ grUsedRevisions g ≤ grMaxRevisions g ∧ grMaxRevisions g ≤ 2.

Lemma validGrant_some id at_ s : validGrant id at_ s = None →
  ∃ g, csGrants (collab s) !! mtGrantID (meta_of s id) = Some g ∧ grApprovedBy g ≠ "" ∧
    grContractID g = mtContractID (meta_of s id) ∧
    grContractHash g = tcHash (contract_of s (mtContractID (meta_of s id))) ∧ grRevokedAt g = 0 ∧ at_ < grExpiresAt g.
Proof.
  unfold validGrant. cbv zeta. destruct (csGrants (collab s) !! mtGrantID (meta_of s id)) as [g|] eqn:Eg; [|done]. intros H.
  destruct (str_empty (grApprovedBy g) || _ || _) eqn:E1; [done|]. bool_facts. destruct (negb (grRevokedAt g =? 0) || _) eqn:E2; [done|].
  bool_facts. exists g. by split_and!.
Qed.

Lemma retry_calm al p c id at_ s s' d :
  numbered s → grants_ok s → retry digestJSON p c id at_ s = inl (s', d) → calm al s s'.
Proof.
  intros Hn Hg H. unfold retry in H. cbv zeta in H. follow H. injection H as <- _.
  destruct (stTasks s !! taskOf c) as [t|] eqn:Ht.
  2:{ exfalso. unfold task_of in Heqb0. by rewrite Ht in Heqb0. }
  rewrite (task_of_some _ _ _ Ht) in *. assert (tkID t = taskOf c) as Hid by by destruct (Hn _ _ Ht).
  rewrite Hid in E. destruct (validGrant_some _ _ _ E) as (g & Hgl & _). rewrite Hgl in *.
  change (default zeroGrant (Some g)) with g in *. destruct (Hg _ _ Hgl) as (Hgid & Hu & Hm). bool_facts.
  match goal with |- calm _ _ (putMeta _ _ (putTask ?t1 ?i ?s1)) => change i with (tkID t1); set (t2 := t1); set (s2 := s1) end.
  assert (calm al s s2) as C2.
  { split; [done| |by apply tasks_move_same]. intros j g'. unfold s2, putGrant, onCollab, collab. cbn.
    rewrite Hgid. intros [[<- <-]|[_ Hj]]%lookup_insert_Some.
    - exists g. split; [done|]. split; [by destruct g|cbn; lia|cbn; lia].
    - exists g'. split; [done|apply grant_moves_refl]. }
  etrans; [exact C2|]. apply (calm_trans _ _ (putTask t2 (tkID t2) s2)); [|calm_steps; apply calm_refl].
  eapply (calm_put_own _ (taskOf c) t); [by eapply calm_numbered|done|]. apply task_moves_open; [done..|].
  unfold closed. intros Hc. apply elem_of_cons in Hc as [Hc|Hc]; [|apply list_elem_of_singleton in Hc];
    match goal with H : tkState t ∈ _ |- _ => rewrite Hc in H; not_listed H end.
Qed.

Lemma allowed_allows al p c : action c ≠ "accept" → (prHuman p = true → ∀ pid, reopens al pid) → allows (allowed p c) al.
Proof. intros Ha Hr. split; [by intros id [? _]|intros pid H; by apply Hr]. Qed.

Lemma unclaimed_key p s c : unclaimed p s → stReceipts s !! receiptKey p (legacyOf c) = None.
Proof. intros H. apply H, prefixed_legacy. Qed.

Lemma legacy_keys p c c' id x y : cmMutationID (ccCommand c) = String.append id x →
  cmMutationID (ccCommand c') = String.append id y → x ≠ y →
  receiptKey p (legacyOf c) ≠ receiptKey p (legacyOf c').
Proof.
  intros H1 H2 Hne E. apply receiptKey_inj in E. unfold legacyOf in E. cbn [cmMutationID field_set] in E.
  apply append_inj in E. rewrite H1, H2 in E. by apply append_inj in E.
Qed.

(** Propose, approve, dispatch: what [approve_assistance] does in one go. *)
Lemma helper_task_ok al p id cA cB cC m i at_ s s0 s1 s2 rA rB rC :
  numbered s → contracts_ok digestJSON s → unclaimed p s → (prHuman p = true → ∀ pid, reopens al pid) →
  (action cA = "propose" ∧ cmMutationID (ccCommand cA) = String.append id "-task") →
  (action cB = "approve" ∧ cmMutationID (ccCommand cB) = String.append id "-approve") →
  (action cC = "dispatch" ∧ cmMutationID (ccCommand cC) = String.append id "-dispatch") →
  applyTaskCommand digestJSON p cA at_ s = inl (s0, rA) →
  applyTaskCommand digestJSON p cB at_ (putMeta m i s0) = inl (s1, rB) →
  applyTaskCommand digestJSON p cC at_ s1 = inl (s2, rC) → commands digestJSON al p s s2.
Proof.
  intros Hn Hk Hu Hal [A1 A2] [B1 B2] [C1 C2] HA HB HC.
  apply applyTaskCommand_drawn in HA as (DA & _ & [xA RA]); [|done|rewrite A1; listed|by apply unclaimed_key].
  assert (drawn digestJSON (allowed p cA) s (putMeta m i s0)) as DA'.
  { eapply drawn_trans; [exact DA|]. apply calm_drawn. calm_steps. }
  assert (numbered (putMeta m i s0)) as Hn0 by (by eapply drawn_numbered).
  assert (contracts_ok digestJSON (putMeta m i s0)) as Hk0 by (by eapply drawn_ok).
  assert (stReceipts (putMeta m i s0) = stReceipts s0) as R0 by done.
  apply applyTaskCommand_ok in HB as (CB & [xB RB]); [|done|done|by rewrite B1|].
  2:{ rewrite R0, RA, lookup_insert_ne; [by apply unclaimed_key|]. by eapply legacy_keys. }
  assert (numbered s1) as Hn1 by (destruct CB as [_ _ H]; by destruct (H Hn0)).
  apply applyTaskCommand_drawn in HC as (_ & CC & _); [|done|rewrite C1; listed|].
  2:{ rewrite RB, R0, RA, !lookup_insert_ne; [by apply unclaimed_key|by eapply legacy_keys..]. }
  eapply drawn_then_commands; [eapply drawn_mono; [|exact DA']; apply allowed_allows; [by rewrite A1|done]|].
  eapply commands_then_calm.
  - eapply commands_mono; [|exact CB]. apply allowed_allows; [by rewrite B1|done].
  - eapply calm_mono; [|by apply CC]. apply allowed_allows; [by rewrite C1|done].
Qed.

Lemma approveAssistance_ok al p c id at_ s s' d :
  numbered s → contracts_ok digestJSON s → unclaimed p s → (prHuman p = true → ∀ pid, reopens al pid) →
  approveAssistance digestJSON p c id at_ s = inl (s', d) → commands digestJSON al p s s'.
Proof.
  intros Hn Hk Hu Hal H. unfold approveAssistance in H. cbv zeta in H. follow H. injection H as <- _.
  apply (commands_then_calm _ _ _ _ s2); [|calm_steps].
  refine (helper_task_ok al p id _ _ _ _ _ at_ s _ _ _ _ _ _ Hn Hk Hu Hal _ _ _ E E0 E1); by split.
Qed.

Lemma cooperationStep_ok al p c id at_ s s' d :
  numbered s → contracts_ok digestJSON s → grants_ok s → unclaimed p s → (prHuman p = true → ∀ pid, reopens al pid) →
  cooperationStep digestJSON order p c id at_ s = inl (s', d) → commands digestJSON al p s s'.
Proof.
  intros Hn Hk Hg Hu Hal H. unfold cooperationStep in H.
  assert (∀ s', calm al s s' → commands digestJSON al p s s') as Hc by (intros; by apply drawn_commands, calm_drawn).
  destruct (isAction c ["decision"]).
  { apply Hc. unfold decision in H. cbv zeta in H. follow H. injection H as <- _.
    match goal with |- calm _ _ (range _ _ _ _ ?s1) => apply (calm_trans _ _ s1); [calm_steps|] end.
    apply calm_range; [by apply (numbered_same s)|]. intros. apply decideTask_calm. }
  destruct (isAction c ["prepare_handback"]).
  { apply Hc. unfold prepareHandback in H. cbv zeta in H. follow H. injection H as <- _. calm_steps. }
  destruct (isAction c ["cancel"]).
  { apply Hc. unfold cancel in H. cbv zeta in H. follow H. injection H as <- _. bool_facts.
    destruct (stTasks s !! taskOf c) as [t|] eqn:Et.
    2:{ exfalso. match goal with H : tkID (task_of s _) ≠ "" |- _ => apply H end. unfold task_of. by rewrite Et. }
    rewrite (task_of_some _ _ _ Et) in *.
    match goal with |- calm _ _ (range _ _ _ _ ?s1) => set (s2 := s1) end.
    assert (calm al s s2) as C2.
    { unfold s2. match goal with |- calm _ _ (eachActionable _ (putMeta _ _ (endTask _ ?s1))) => apply (calm_trans _ _ (endTask t s1)); [apply (calm_trans _ _ s1); [calm_steps|]|calm_steps] end.
      eapply endTask_calm; [by eapply numbered_same; [apply revokeGrant_tasks|]|by rewrite revokeGrant_tasks|done]. }
    etrans; [exact C2|]. apply calm_range; [by eapply calm_numbered|]. intros. by apply cancelAssistance_calm. }
  destruct (isAction c ["approve_assistance"]); [by eapply approveAssistance_ok|].
  destruct (isAction c ["adopt_assistance"]).
  { apply Hc. unfold adoptAssistance in H. cbv zeta in H. follow H. injection H as <- _. calm_steps. }
  destruct (isAction c ["retry"]) .
  { apply Hc. by eapply retry_calm. }
  destruct (isAction c ["propose_rule"]).
  { apply Hc. unfold proposeRule in H. cbv zeta in H. follow H. injection H as <- _. calm_steps. }
  destruct (isAction c ["approve_rule"; "revoke_rule"]); [|done]. apply Hc. unfold decideRule in H. cbv zeta in H. follow H.
  injection H as <- _. destruct (isAction c ["approve_rule"]).
  - unfold approvedRule in E. cbv zeta in E. follow E. injection E as <- _.
    match goal with |- calm _ _ (putRule _ _ ?s1) => apply (calm_trans _ _ s1); [|calm_steps] end.
    destruct (str_empty _); calm_steps.
  - injection E as <- _. calm_steps.
Qed.

Lemma applyCooperation_ok al p c at_ s s' r :
  numbered s → contracts_ok digestJSON s → grants_ok s → unclaimed p s → (prHuman p = true → ∀ pid, reopens al pid) →
  applyCooperation digestJSON order p c at_ s = inl (s', r) → commands digestJSON al p s s'.
Proof.
  intros Hn Hk Hg Hu Hal H. unfold applyCooperation in H. cbv zeta in H. destruct (isAction c ["request_assistance"]).
  - follow H. unfold requestAssistance in E. cbv zeta in E. follow E. apply drawn_commands, calm_drawn.
    destruct (find _ _).
    + injection E as <- <-. injection H as <- _. reflexivity.
    + follow E. rename P into En. injection E as <- <-. injection H as <- _.
      match goal with |- calm _ _ (AddEvent _ _ _ _ _ _ _ _ ?s1) => apply (calm_trans _ _ s1); [|calm_steps] end.
      match goal with |- calm _ _ (putActionable _ _ ?s1) => apply (calm_trans _ _ s1); [|calm_steps] end.
      eapply calm_pair_action; [exact En|]. calm_steps.
  - follow H. destruct p0 as [s2 d]. injection H as <- _.
    apply (commands_then_calm _ _ _ _ s2); [by eapply cooperationStep_ok|]. calm_steps.
Qed.

(** ** Maintenance *)
Lemma invalidateTask_calm al at_ id r : calm al r.1 (invalidateTask digestJSON at_ id r).1.
Proof.
  destruct r as [s b]. unfold invalidateTask. destruct (csTasks (collab s) !! id); [|reflexivity]. cbv zeta.
  destruct (_ || _); [reflexivity|]. cbn [fst]. calm_steps.
Qed.

Lemma Invalidate_calm al at_ s : numbered s → calm al s (InvalidateDependentManifests digestJSON order at_ s).1.
Proof. intros Hn. apply (calm_fold_pair al _ _ (s, false)); [done|]. intros. apply invalidateTask_calm. Qed.

Lemma sweepGrant_calm al at_ id r : numbered r.1 → calm al r.1 (sweepGrant digestJSON at_ id r).1.
Proof.
  destruct r as [s b]. cbn [fst]. intros Hn. unfold sweepGrant. destruct (csTasks (collab s) !! id) as [m|]; [|reflexivity]. cbv zeta.
  destruct (csGrants (collab s) !! mtGrantID m) as [g|]; [|reflexivity]. destruct (_ || _) eqn:E; [reflexivity|]. bool_facts.
  cbn [fst]. destruct (stTasks s !! id) as [t|] eqn:Ht.
  2:{ exfalso. match goal with H : tkOwner (task_of s id) = "pm" |- _ => unfold task_of in H; by rewrite Ht in H end. }
  rewrite (task_of_some _ _ _ Ht) in *.
  match goal with |- context [putTask ?t1 id ?s1] => apply (calm_trans _ _ (putTask t1 id s1)); [apply (calm_trans _ _ s1); [calm_steps|]|] end.
  - eapply calm_putTask; [rewrite revokeGrant_tasks; exact Ht|]. by apply task_moves_open.
  - calm_steps; apply calm_refl.
Qed.

Lemma sweepAssistance_calm al at_ id r : numbered r.1 → calm al r.1 (sweepAssistance at_ id r).1.
Proof.
  destruct r as [s b]. cbn [fst]. intros Hn. unfold sweepAssistance. destruct (csAssistance (collab s) !! id) as [a|]; [|reflexivity].
  cbv zeta. destruct (bool_decide _); [reflexivity|]. destruct (_ && _); [reflexivity|]. cbn [fst].
  match goal with |- context [endHelper ?x ?l ?a1 ?s1] => apply (calm_trans _ _ (endHelper x l a1 s1)); [apply (calm_trans _ _ s1); [calm_steps|]|calm_steps] end.
  apply endHelper_calm; [by apply (numbered_same s)|listed].
Qed.

Lemma sweepActionable_calm al at_ id r : calm al r.1 (sweepActionable at_ id r).1.
Proof.
  destruct r as [s b]. unfold sweepActionable. destruct (csActionables (collab s) !! id); [|reflexivity].
  destruct (_ && _); [|reflexivity]. cbv zeta. cbn [fst]. calm_steps.
Qed.

Lemma Sweep_calm al at_ s : numbered s → calm al s (SweepCollaboration digestJSON order at_ s).1.
Proof.
  intros Hn. unfold SweepCollaboration. destruct (bool_decide _); [reflexivity|]. cbv zeta.
  pose proof (Invalidate_calm al at_ s Hn) as C1. set (r1 := InvalidateDependentManifests _ _ _ _) in *.
  assert (numbered r1.1) as Hn1 by (by eapply calm_numbered).
  etrans; [exact C1|]. unfold sweep.
  set (r2 := fold_left _ (order "sweep actionables" _) r1).
  assert (calm al r1.1 r2.1) as C2 by (apply calm_fold_pair; [done|intros; apply sweepActionable_calm]).
  assert (numbered r2.1) as Hn2 by (by eapply calm_numbered).
  etrans; [exact C2|]. set (r3 := fold_left _ (order "sweep assistance" _) r2).
  assert (calm al r2.1 r3.1) as C3 by (apply calm_fold_pair; [done|intros; by apply sweepAssistance_calm]).
  assert (numbered r3.1) as Hn3 by (by eapply calm_numbered).
  etrans; [exact C3|]. apply calm_fold_pair; [done|]. intros. by apply sweepGrant_calm.
Qed.

Lemma Recover_calm al id t at_ s : numbered s → stTasks s !! id = Some t → ¬ closed t →
  calm al s (RecoverCollaborationTask digestJSON id at_ s).
Proof.
  intros Hn Ht Hc. unfold RecoverCollaborationTask. cbv zeta. rewrite (task_of_some _ _ _ Ht).
  match goal with |- context [putTask ?t1 id ?s1] => apply (calm_trans _ _ (putTask t1 id s1)); [apply (calm_trans _ _ s1); [calm_steps|]|calm_steps; apply calm_refl] end.
  eapply calm_putTask; [rewrite revokeGrant_tasks; exact Ht|]. by apply task_moves_open.
Qed.
End digest.
