(* ===== verification/CollabCalls.v ===== *)
(** * What a call, a run and a restart may change

    The relations of [CollabMoves] for [ApplyCollaboration] and for the
    host's transactions. *)

From S2P Require Import Prelude Orders Decimal CoordTypes Coordination CoordProps CoordSafety CollabState Collaboration.
From S2P Require Import CollabReports Cooperation CollabRuns CollabApply Host CollabMoves CollabOps CollabRest.

Section digest.
Context (digestJSON : hashed → string) (jsonSize : CollaborationCommand → Z) (order : ordering).

(** ** Upgrade and creation *)
Lemma upgradeTask_drawn al pid at_ id s : (∀ x, reopens al x) → numbered s →
  drawn digestJSON al s (upgradeTask digestJSON pid at_ id s).
Proof.
  intros Hal Hn. unfold upgradeTask. destruct (stTasks s !! id) as [t|] eqn:Ht; [|apply calm_drawn; reflexivity].
  destruct (negb _); [apply calm_drawn; reflexivity|]. cbv zeta.
  match goal with |- drawn _ _ _ (putTask ?t1 _ (putMeta ?m _ ?s1)) => set (t2 := t1); set (m1 := m); set (s2 := s1) end.
  assert (drawn digestJSON al s s2) as D by by apply drawn_putContract.
  eapply drawn_trans; [exact D|]. apply calm_drawn. apply (calm_trans _ _ (putMeta m1 id s2)); [calm_steps|].
  eapply calm_putTask; [exact Ht|]. unfold t2. destruct (bool_decide_reflect (tkState t = "done")); simpl.
  - apply task_moves_refl.
  - split; [done|done|done|]. intros _. right. apply Hal.
Qed.

Lemma drawn_fold {A} al (f : A → State → State) (l : list A) s :
  numbered s → (∀ x s, numbered s → drawn digestJSON al s (f x s)) → drawn digestJSON al s (fold_left (λ s x, f x s) l s).
Proof.
  intros Hn H. revert s Hn. induction l as [|x l IH]; intros s Hn; simpl; [apply calm_drawn; reflexivity|].
  eapply drawn_trans; [by apply H|apply IH]. by eapply drawn_numbered; [apply H|].
Qed.

Lemma upgrade_drawn al p c at_ s s' r : numbered s → (prHuman p = true → ∀ x, reopens al x) →
  upgradeCollaboration digestJSON order p c at_ s = inl (s', r) → drawn digestJSON al s s'.
Proof.
  intros Hn Hal H. unfold upgradeCollaboration in H. cbv zeta in H. follow H. injection H as <- _. bool_facts.
  match goal with |- drawn _ _ _ (AddEvent _ _ _ _ _ _ _ _ ?s1) => apply (drawn_trans _ _ _ s1); [|apply calm_drawn; calm_steps] end.
  match goal with |- drawn _ _ _ (range _ _ _ _ ?s1) => apply (drawn_trans _ _ _ s1); [apply calm_drawn; calm_steps|] end.
  apply drawn_fold; [by apply (numbered_same s)|]. intros. apply upgradeTask_drawn; [by apply Hal|done].
Qed.

Lemma create_calm al p c at_ s s' r : numbered s → action c = "create" →
  createCollaboration digestJSON p c at_ s = inl (s', r) → calm al s s'.
Proof.
  intros Hn Ha H. unfold createCollaboration in H. follow H. injection H as <- _.
  apply applyLegacy_calm in E; [|done]. etrans; [|apply calm_putProject].
  eapply calm_mono; [|exact E]. split; [|done]. intros id [Hx _]. change (action c = "accept") in Hx. congruence.
Qed.

(** ** The entry point *)
Lemma applyScoped_ok p c at_ s s' r :
  numbered s → contracts_ok digestJSON s → grants_ok s → unclaimed p s →
  applyScoped digestJSON order p c at_ s = inl (s', r) → commands digestJSON (allowed p c) p s s'.
Proof.
  intros Hn Hk Hg Hu H. unfold applyScoped in H. cbv zeta in H. set (c1 := withCommand _ c) in H.
  change (allowed p c) with (allowed p c1).
  assert (∀ s', calm (allowed p c1) s s' → commands digestJSON (allowed p c1) p s s') as Hc
    by (intros; by apply drawn_commands, calm_drawn).
  destruct (isAction c1 taskActions) eqn:E1.
  { follow H. apply isAction_true in E1.
    refine (proj1 (applyTaskCommand_ok digestJSON p c1 at_ s s' r Hn Hk _ (unclaimed_key p s c1 Hu) H)).
    intros E. rewrite E in E1. not_listed E1. }
  destruct (isAction c1 ["report"]).
  { destruct (ccReport c1); [|done]. follow H. by eapply Hc, applyReport_calm. }
  destruct (isAction c1 ["dispose"; "human_answer"]).
  { destruct (ccDisposition c1); [|done]. follow H. by eapply Hc, applyDisposition_calm. }
  destruct (isAction c1 ["human_answer_continue"]).
  { destruct (ccDisposition c1) as [d|]; [|done]. follow H. unfold answerAndContinue in H. cbv zeta in H. follow H.
    injection H as <- _. pose proof (applyDisposition_calm digestJSON (allowed p c1) _ _ _ _ _ _ _ E) as C1.
    match type of E0 with applyTaskCommand _ _ ?x _ _ = _ => set (continued := x) in E0 end.
    assert (numbered s0) as Hn0 by (by eapply calm_numbered).
    assert (contracts_ok digestJSON s0) as Hk0 by (by eapply drawn_ok; [apply calm_drawn|]).
    assert (stReceipts s0 !! receiptKey p (legacyOf continued) = None) as Hr.
    { assert (stReceipts s0 = stReceipts s) as ->; [|by apply unclaimed_key].
      unfold applyDisposition in E. cbv zeta in E. follow E. injection E as <- _. rewrite AddEvent_receipts. done. }
    apply applyTaskCommand_ok in E0 as [E2 _]; [|done..].
    eapply drawn_then_commands; [by apply calm_drawn|]. eapply commands_mono; [|exact E2].
    apply allowed_allows; [done|]. intros ? ?. done. }
  destruct (isAction c1 ["submit"]).
  { destruct (ccSubmission c1); [|done]. follow H. by eapply Hc, applySubmission_calm. }
  destruct (isAction c1 cooperationActions); [|done]. eapply applyCooperation_ok; [done..| |exact H].
  intros ? ?. done.
Qed.

Lemma applyCollaboration_ok p c at_ s s' r :
  numbered s → contracts_ok digestJSON s → grants_ok s → unclaimed p s →
  applyCollaboration digestJSON order p c at_ s = inl (s', r) → commands digestJSON (allowed p c) p s s'.
Proof.
  intros Hn Hk Hg Hu H. unfold applyCollaboration in H. destruct (isAction c ["upgrade"]).
  { apply drawn_commands. eapply upgrade_drawn; [done| |exact H]. intros ? ?. done. }
  destruct (isAction c ["create"]) eqn:E.
  { apply drawn_commands, calm_drawn. eapply create_calm; [done| |exact H]. by apply isAction_true, list_elem_of_singleton in E. }
  follow H. by eapply applyScoped_ok.
Qed.

(** A call either repeats an answer, or is what its action does. *)
Lemma ApplyCollaboration_cases p c at_ s s' r :
  ApplyCollaboration digestJSON jsonSize order p c at_ s = inl (s', r) →
  (s' = s ∧ ∃ prior, csReceipts (collab s) !! collabKey p c = Some (Receipt r prior) ∧
     prior = digestJSON (HCommand (collabIntent c))) ∨
  (csReceipts (collab s) !! collabKey p c = None ∧
   applyFresh digestJSON order p c at_ (NormalizeCollaboration s) = inl (s', r)).
Proof.
  intros H. unfold ApplyCollaboration in H. cbv zeta in H. follow H.
  change (csReceipts (collab (NormalizeCollaboration s))) with (csReceipts (collab s)) in H.
  destruct (csReceipts (collab s) !! collabKey p c) as [[res prior|e]|] eqn:Er; [|done|].
  - left. follow H. injection H as <- <-. bool_facts. split; [done|]. by exists prior.
  - right. follow H. done.
Qed.

Theorem call_ok p c at_ s s' r :
  numbered s → contracts_ok digestJSON s → grants_ok s → unclaimed p s →
  ApplyCollaboration digestJSON jsonSize order p c at_ s = inl (s', r) → commands digestJSON (allowed p c) p s s'.
Proof.
  intros Hn Hk Hg Hu H. apply ApplyCollaboration_cases in H as [[-> _]|[_ H]].
  { apply drawn_commands, calm_drawn. reflexivity. }
  unfold applyFresh in H. follow H. injection H as <- _.
  apply applyCollaboration_ok in E as Hc; [|done..].
  apply (drawn_then_commands _ _ _ _ (NormalizeCollaboration s)); [apply calm_drawn; auto with calm|].
  eapply commands_then_calm; [exact Hc|]. etrans; [|apply calm_receipts].
  match goal with |- calm _ _ (putReceipt _ _ ?s1) => apply (calm_trans _ _ s1); [|calm_steps] end.
  apply Invalidate_calm. destruct Hc as [_ _ H]. by destruct (H Hn).
Qed.

(** ** Runs *)
(** The tasks of a version 1 project. *)
Definition version1_tasks (s : State) : allowance :=
  mkAllowance (λ _, False) (λ pid, pjEngineVersion (project_of s pid) ≠ 2).

Lemma session_task2 w s sid p t : numbered s → walk_of w s → ProjectForSession w sid s = Some (p, Some t) →
  stTasks s !! tkID t = Some t ∧ stProjects s !! tkProjectID t = Some p ∧ tkSessionID t = sid.
Proof.
  intros Hn [W1 W2] H. unfold ProjectForSession in H. destruct (find _ (wkProjects w)); [done|].
  destruct (find _ (wkTasks w)) as [x|] eqn:Ex; [|done].
  apply find_some in Ex as [Hin Hx%bool_decide_eq_true]. apply list_elem_of_In in Hin.
  rewrite W2 in Hin. apply list_elem_of_fmap in Hin as ([j y] & -> & Hy%elem_of_map_to_list). simpl in *.
  destruct (stProjects s !! tkProjectID y) as [q|] eqn:Eq; [|done]. injection H as <- <-.
  destruct (Hn j y Hy) as [-> _]. by split_and!.
Qed.

Lemma Admit_calm al w sid rq content at_ s s' :
  AdmitCollaborationRun digestJSON w sid rq content at_ s = inl s' → calm al s s'.
Proof.
  intros H. unfold AdmitCollaborationRun in H. cbv zeta in H.
  apply (calm_trans _ _ (NormalizeCollaboration s)); [calm_steps|]. revert H.
  set (s0 := NormalizeCollaboration s). intros H. destruct (collaborationTask w sid s0) as [[project t]|].
  2:{ injection H as <-. reflexivity. }
  follow H. injection H as <-. apply (calm_trans _ _ s1); [|calm_steps].
  destruct (bool_decide (tkOwner t = "pm")); [follow E; injection E as <- _; reflexivity|].
  injection E as <- _. calm_steps.
Qed.

Lemma admitRun_calm w sid rq content at_ s s' :
  numbered s → walk_of w s → admitRun digestJSON w sid rq content at_ s = inl s' → calm (version1_tasks s) s s'.
Proof.
  intros Hn Hw H. unfold admitRun in H. destruct (ProjectForSession w sid s) as [[p [t|]]|] eqn:Ef;
    [|injection H as <-; reflexivity..].
  destruct (session_task2 w s sid p t Hn Hw Ef) as (Ht & Hp & _). follow H. injection H as <-.
  assert (calm (version1_tasks s) s s0 ∧ stTasks s0 = stTasks s ∧
    (pjEngineVersion p ≠ 2 ∨ ¬ closed t)) as (C & T & Hcl).
  { destruct (pjEngineVersion p =? 2) eqn:Ev.
    - split_and!; [by eapply Admit_calm|..].
      + unfold AdmitCollaborationRun in E. cbv zeta in E. destruct (collaborationTask _ _ _) as [[q x]|]; [|by injection E as <-].
        follow E. injection E as <-. destruct (bool_decide (tkOwner x = "pm")); [follow E0|];
          injection E0 as <- _; [done|]. etrans; [apply AddEvent_tasks|done].
      + right. unfold AdmitCollaborationRun in E. cbv zeta in E. unfold collaborationTask in E.
        change (ProjectForSession w sid (NormalizeCollaboration s)) with (ProjectForSession w sid s) in E.
        rewrite Ef, Ev in E. follow E. bool_facts. unfold closed. intros Hc.
        match goal with H : tkState t ∉ _ |- _ => apply H end.
        apply elem_of_cons in Hc as [->|Hc]; [listed|]. apply list_elem_of_singleton in Hc as ->. listed.
    - injection E as <-. split_and!; [reflexivity|done|]. left. by apply Z.eqb_neq. }
  etrans; [exact C|]. unfold admitTurn. cbv zeta.
  match goal with |- calm _ _ (putTask ?t1 ?i ?s1) => apply (calm_trans _ _ s1); [calm_steps|] end.
  assert (task_of s0 (tkID t) = t) as Et by (apply task_of_some; by rewrite T). rewrite Et.
  eapply calm_putTask; [rewrite AddEvent_tasks, T; exact Ht|]. split; [done|done|done|].
  intros Hc. right. cbn. rewrite (project_of_some s _ p Hp). destruct Hcl as [?|Hcl]; [done|]. done.
Qed.

(** ** The end of a run *)
Definition finish_moves (task task' : Task) : Prop :=
  tkID task' = tkID task ∧
  (tkProjectID task' = tkProjectID task ∧ tkNumber task' = tkNumber task ∧ tkSessionID task' = tkSessionID task) ∧
  tkState task' ≠ "done".

Lemma finishPreflight_ok al task m status at_ s s' t' m' :
  finishPreflight digestJSON task m status at_ s = (s', t', m') → calm al s s' ∧ stTasks s' = stTasks s ∧ finish_moves task t'.
Proof.
  intros H. unfold finishPreflight in H. cbv zeta in H. destruct (_ && _) in H.
  - injection H as <- <- _. by split_and!; [reflexivity|..].
  - destruct (negb _) in H; injection H as <- <- _; (split; [calm_steps|done]).
Qed.

Lemma finishAssistance_calm al a sub at_ s : calm al s (finishAssistance a sub at_ s).
Proof.
  unfold finishAssistance. destruct (csAssistance (collab s) !! a); [|reflexivity].
  destruct (negb _); [reflexivity|]. cbv zeta. calm_steps.
Qed.

Lemma finishAssistance_tasks a sub at_ s : stTasks (finishAssistance a sub at_ s) = stTasks s.
Proof. unfold finishAssistance. destruct (csAssistance (collab s) !! a); [|done]. by destruct (negb _). Qed.

Lemma finishDelivery_ok al task m at_ s s' t' m' :
  finishDelivery digestJSON task m at_ s = (s', t', m') → calm al s s' ∧ stTasks s' = stTasks s ∧ finish_moves task t'.
Proof.
  intros H. unfold finishDelivery in H. cbv zeta in H. destruct (_ && _) in H.
  - injection H as <- <- _. rewrite finishAssistance_tasks. split; [|done].
    match goal with |- calm _ _ (finishAssistance _ _ _ ?s1) => apply (calm_trans _ _ s1) end;
      [calm_steps|apply finishAssistance_calm].
  - destruct (_ && _) in H; injection H as <- <- _; (split; [calm_steps|done]).
Qed.

Lemma finishFailure_ok al task m status at_ s s' t' m' :
  finishFailure digestJSON task m status at_ s = (s', t', m') → calm al s s' ∧ stTasks s' = stTasks s ∧ finish_moves task t'.
Proof. intros H. unfold finishFailure in H. cbv zeta in H. injection H as <- <- _. split; [calm_steps|done]. Qed.

Lemma Finish_calm al w sid rq status text at_ s : numbered s → walk_of w s →
  calm al s (FinishCollaborationRun digestJSON w sid rq status text at_ s).1.
Proof.
  intros Hn Hw. unfold FinishCollaborationRun. unfold collaborationTask.
  destruct (ProjectForSession w sid s) as [[p [t|]]|] eqn:Ef; [|reflexivity..].
  destruct (session_task2 w s sid p t Hn Hw Ef) as (Ht & _). destruct (_ =? 2); [|reflexivity]. cbv zeta.
  set (s0 := NormalizeCollaboration s). assert (calm al s s0) as C0 by (unfold s0; auto with calm).
  destruct (bool_decide _); [exact C0|]. set (s1 := putReceipt _ _ s0).
  assert (calm al s s1) as C1 by (apply (calm_trans _ _ s0); [exact C0|unfold s1; auto with calm]).
  destruct (_ || _) eqn:E; [cbn [fst]; apply (calm_trans _ _ s1); [exact C1|calm_steps]|]. bool_facts.
  assert (¬ closed t) as Ho.
  { unfold closed. intros Hc. match goal with H : tkState t ∉ _ |- _ => apply H end.
    apply elem_of_cons in Hc as [->|Hc]; [listed|]. apply list_elem_of_singleton in Hc as ->. listed. }
  set (x := t <| tkResult := text |>) in *.
  destruct (if _ && _ then _ else _) as [[s2 t'] m'] eqn:Eu.
  assert (calm al s1 s2 ∧ stTasks s2 = stTasks s1 ∧ finish_moves x t') as (C2 & T2 & I1 & I2 & I3).
  { destruct (_ && _) in Eu; [by eapply finishPreflight_ok|].
    destruct (bool_decide _) in Eu; [by eapply finishDelivery_ok|by eapply finishFailure_ok]. }
  cbn [fst]. apply (calm_trans _ _ s1); [exact C1|]. apply (calm_trans _ _ s2); [exact C2|].
  assert (stTasks s2 !! tkID t = Some t) as Ht2 by (rewrite T2; exact Ht).
  apply (calm_trans _ _ (putTask t' (tkID t') s2)); [|calm_steps].
  eapply calm_put_own; [by eapply calm_numbered; [|exact (numbered_same s s1 eq_refl Hn)]|exact Ht2|].
  by apply task_moves_open.
Qed.
End digest.
