(* ===== verification/HostMoves.v ===== *)
(** * The version 2 collaboration and its host as one machine

    Every event of the Bridge on the collaboration document: calls of both
    versions, admission and end of turns, the wake cycle, maintenance,
    cancellation and restart; and that each moves the document as
    [CollabMoves] says. *)

From S2P Require Import Prelude Orders Decimal CoordTypes Coordination CoordProps CoordSafety CollabState Collaboration.
From S2P Require Import CollabReports Cooperation CollabRuns CollabApply Host Artifacts CollabMoves CollabOps CollabRest CollabCalls.

Inductive event2 :=
  | VCall (busy : string → bool) (verify : Artifact → error) (order : ordering)
      (p : Principal) (c : CollaborationCommand) (at_ : Z)
  | VLegacy (busy : string → bool) (p : Principal) (c : Command) (at_ : Z)
  | VArtifact (sha : string → string) (inputHash : artifactInput → string)
      (readSource : string → string → (string * string * string) + string)
      (snapshot : string → string → error) (locator : string → string → string)
      (p : Principal) (projectID taskID : string) (i : artifactInput) (at_ : Z)
  | VAdmit (enabled : bool) (streaming : string → bool) (w : walk)
      (sessionID backend sandbox request content : string) (at_ : Z)
  | VQueue (id : string) (at_ : Z)
  | VFinish (w : walk) (sessionID request status text : string) (at_ : Z)
  | VWake (w : walk) (idle : bool) (found : messageReceipt) (id : string) (at_ : Z)
  | VSweep (order : ordering) (at_ : Z)
  | VStop (id : string) (at_ : Z)
  | VRecover (id : string) (at_ : Z).

Section machine.
Context (digestJSON : hashed → string) (jsonSize : CollaborationCommand → Z).

Definition run2 (s : State) (e : event2) : State :=
  match e with
  | VCall busy verify order p c at_ =>
      commit s (applyCollaborationCall digestJSON jsonSize busy verify order p c at_ s)
  | VLegacy busy p c at_ => commit s (applyPM digestJSON busy p c at_ s)
  | VArtifact sha inputHash readSource snapshot locator p pid tid i at_ =>
      commit s (saveArtifact sha inputHash readSource snapshot locator p pid tid i at_ s)
  | VAdmit enabled streaming w sid backend sandbox rq content at_ =>
      match AdmitTurn digestJSON enabled streaming w sid backend sandbox rq content at_ s with
      | inl s' => s' | inr _ => s end
  | VQueue id at_ =>
      match stTasks s !! id with
      | Some t => queueTask t (pjID (project_of s (tkProjectID t))) at_ s
      | None => s
      end
  | VFinish w sid rq status text at_ => finishPMTurn digestJSON w sid rq status text at_ s
  | VWake w idle found id at_ => (wakePM digestJSON w idle found (project_of s id) at_ s).1
  | VSweep order at_ => (SweepCollaboration digestJSON order at_ s).1
  | VStop id at_ =>
      match stTasks s !! id with
      | Some t => if mustStop t s then stopRequested t at_ s else s
      | None => s
      end
  | VRecover id at_ => recoverRun digestJSON at_ s id
  end.

(** A range walks over what its map holds; and no receipt of version 1 is under
    a name that version 2 gives to this caller. *)
Definition event2_ok (s : State) (e : event2) : Prop :=
  match e with
  | VCall _ _ _ p _ _ => unclaimed p s
  | VAdmit _ _ w _ _ _ _ _ _ | VFinish w _ _ _ _ _ | VWake w _ _ _ _ => walk_of w s
  | _ => True
  end.

Fixpoint run2_all (evs : list event2) (s : State) : State :=
  match evs with [] => s | e :: evs => run2_all evs (run2 s e) end.
Fixpoint events2_ok (evs : list event2) (s : State) : Prop :=
  match evs with [] => True | e :: evs => event2_ok s e ∧ events2_ok evs (run2 s e) end.

(** ** What each event is allowed *)
Definition legacyAllowed (c : Command) (s : State) : allowance :=
  mkAllowance (λ id, cmAction c = "accept" ∧ id = cmTaskID c ∧
    ∃ t, stTasks s !! id = Some t ∧ pjEngineVersion (project_of s (tkProjectID t)) ≠ 2) (λ _, False).

Definition event_allowance (s : State) (e : event2) : allowance :=
  match e with
  | VCall _ _ _ p c _ => allowed p c
  | VLegacy _ _ c _ => legacyAllowed c s
  | _ => version1_tasks s
  end.

Lemma applyAction_accepts p c at_ s s' r : applyAction p c at_ s = inl (s', r) → cmAction c = "accept" →
  ∃ t, stTasks s !! cmTaskID c = Some t ∧ tkProjectID t = cmProjectID c.
Proof.
  intros H Ha. unfold applyAction, applyInProject in H. rewrite Ha in H. simpl in H.
  destruct (Authorize _ _ _); [done|]. unrefuse H. unfold humanAction in H. unrefuse H.
  destruct (taskFor c s) as [t|] eqn:Et; [|done]. exists t. by apply taskFor_some.
Qed.

Lemma applyPM_calm busy p c at_ s s' r :
  numbered s → applyPM digestJSON busy p c at_ s = inl (s', r) → calm (legacyAllowed c s) s s'.
Proof.
  intros Hn H. unfold applyPM in H. unrefuse H. unfold Apply in H. destruct (_ =? 2) eqn:Ev; [done|].
  apply Z.eqb_neq in Ev. apply applyLegacy_cases in H as [[-> _]|(_ & s1 & H & ->)]; [reflexivity|].
  etrans; [|apply calm_receipts]. eapply calm_mono; [|by eapply applyAction_calm]. split; [|done].
  intros id [Ha ->]. split_and!; [done..|]. destruct (applyAction_accepts _ _ _ _ _ _ H Ha) as (t & Ht & Hp).
  exists t. by rewrite Hp.
Qed.

Lemma saveArtifact_calm al sha ih rs sn lo p pid tid i at_ s s' r :
  saveArtifact sha ih rs sn lo p pid tid i at_ s = inl (s', r) → calm al s s'.
Proof.
  intros H. unfold saveArtifact in H. cbv zeta in H. destruct (artifactInvalid i); [done|].
  apply (calm_trans _ _ (NormalizeCollaboration s)); [auto with calm|]. revert H. set (s0 := NormalizeCollaboration s).
  intros H. follow H. destruct (csReceipts (collab s0) !! _) as [[res prior|e]|]; [|done|].
  - follow H. injection H as <- _. reflexivity.
  - follow H. injection H as <- _. unfold recordArtifact. destruct p0 as [[path root] body]. cbv zeta. calm_steps.
Qed.

Lemma AdmitTurn_calm enabled streaming w sid backend sandbox rq content at_ s s' :
  numbered s → walk_of w s → AdmitTurn digestJSON enabled streaming w sid backend sandbox rq content at_ s = inl s' →
  calm (version1_tasks s) s s'.
Proof.
  intros Hn Hw H. unfold AdmitTurn in H. destruct (ProjectForSession w sid s) as [[p [t|]]|]; follow H.
  - by eapply admitRun_calm.
  - injection H as <-. reflexivity.
  - injection H as <-. reflexivity.
Qed.

Lemma queueTask_calm al t pid at_ s : numbered s → calm al s (queueTask t pid at_ s).
Proof.
  intros Hn. unfold queueTask. cbv zeta. destruct (negb _) eqn:E; [reflexivity|]. bool_facts.
  destruct (stTasks s !! tkID t) as [x|] eqn:Ht; [|unfold task_of in E; by rewrite Ht in E].
  rewrite (task_of_some _ _ _ Ht) in *.
  match goal with |- calm _ _ (putTask ?t1 _ ?s1) => apply (calm_trans _ _ s1); [calm_steps|] end.
  eapply calm_putTask; [rewrite AddEvent_tasks; exact Ht|].
  apply task_moves_open; [done..|]. by eapply state_open; [exact E|listed].
Qed.

Lemma finishWorker_calm w sid rq status text at_ s : numbered s → walk_of w s →
  (∀ p t, ProjectForSession w sid s = Some (p, Some t) → pjEngineVersion p ≠ 2) →
  calm (version1_tasks s) s (finishWorker w sid rq status text at_ s).
Proof.
  intros Hn Hw Hv. unfold finishWorker. destruct (ProjectForSession w sid s) as [[p [t|]]|] eqn:Ef; [|reflexivity..].
  destruct (session_task2 w s sid p t Hn Hw Ef) as (Ht & Hp & _). specialize (Hv p t eq_refl).
  destruct (_ && _); [reflexivity|]. cbv zeta. destruct (bool_decide _); [reflexivity|].
  match goal with |- calm _ _ (putTask ?t1 _ ?s1) => apply (calm_trans _ _ s1) end.
  - match goal with |- calm _ _ (AddEvent _ _ _ _ _ _ _ _ ?s1) => apply (calm_trans _ _ s1); [apply calm_receipts|calm_steps] end.
  - eapply calm_putTask; [rewrite AddEvent_tasks; exact Ht|]. split; [done|done| |].
    + cbn. case_bool_decide; discriminate.
    + intros _. right. cbn. by rewrite (project_of_some s _ p Hp).
Qed.

Lemma pmTurnEnded_calm al p rq status at_ s : calm al s (pmTurnEnded p rq status at_ s).
Proof.
  unfold pmTurnEnded. cbv zeta. destruct (negb _); [reflexivity|].
  match goal with |- context [putProject ?q ?i s] => set (q1 := q); assert (calm al s (putProject q1 i s)) as C by apply calm_putProject end.
  calm_steps; exact C.
Qed.

Lemma finishPMTurn_calm w sid rq status text at_ s : numbered s → walk_of w s →
  calm (version1_tasks s) s (finishPMTurn digestJSON w sid rq status text at_ s).
Proof.
  intros Hn Hw. unfold finishPMTurn. destruct (ProjectForSession w sid s) as [[p [t|]]|] eqn:Ef; [| |reflexivity].
  - destruct (_ =? 2) eqn:Ev; [by apply Finish_calm|]. apply finishWorker_calm; [done..|].
    intros p' t' H. rewrite Ef in H. injection H as <- _. by apply Z.eqb_neq.
  - apply pmTurnEnded_calm.
Qed.

Lemma wakePM_calm w idle found p at_ s : numbered s → walk_of w s →
  calm (version1_tasks s) s (wakePM digestJSON w idle found p at_ s).1.
Proof.
  intros Hn Hw. unfold wakePM. cbv zeta. destruct (_ || _); [reflexivity|]. destruct (negb idle); [reflexivity|].
  assert (calm (version1_tasks s) s (if pjMaxRounds p <=? pjRounds p then (budgetReached (pjID p) at_ s, None)
    else if str_empty (pjWakeRequestID p) then (queueWake (pjID p) (wakeID p) at_ s, Some (wakeID p))
    else (s, Some (pjWakeRequestID p))).1) as G.
  { destruct (_ <=? _); [unfold budgetReached; cbv zeta; cbn [fst]; calm_steps|].
    destruct (str_empty _); [|reflexivity]. unfold queueWake. cbv zeta. cbn [fst]. calm_steps. }
  destruct (str_empty (pjWakeRequestID p)); [exact G|]. destruct found as [| |st]; [reflexivity|exact G|].
  destruct (_ || _); [reflexivity|]. by apply finishPMTurn_calm.
Qed.

Lemma recoverRun_calm al id at_ s : numbered s → calm al s (recoverRun digestJSON at_ s id).
Proof.
  intros Hn. unfold recoverRun. destruct (stTasks s !! id) as [t|] eqn:Ht; [|reflexivity]. destruct (_ && _) eqn:E.
  - bool_facts. eapply Recover_calm; [done|exact Ht|]. by eapply state_open; [eassumption|listed].
  - unfold recoverTask. rewrite Ht. destruct (_ && negb _) eqn:E2; [|reflexivity]. bool_facts. cbv zeta.
    match goal with |- calm _ _ (putTask ?t1 _ ?s1) => apply (calm_trans _ _ s1); [calm_steps|] end.
    eapply calm_putTask; [rewrite AddEvent_tasks; exact Ht|].
    apply task_moves_open; [done..|]. by eapply state_open; [eassumption|listed].
Qed.

Lemma stopRequested_calm al t at_ s : calm al s (stopRequested t at_ s).
Proof. unfold stopRequested. cbv zeta. calm_steps. Qed.

(** Every event but a call of version 2 makes neither contracts nor grants. *)
Lemma run2_calm s e : numbered s → event2_ok s e → (∀ b v o p c a, e ≠ VCall b v o p c a) →
  calm (event_allowance s e) s (run2 s e).
Proof.
  intros Hn Hok Hne. destruct e as [b v o p c a|b p c a|sha ih rs sn lo p pid tid i a|en st w sid be sb rq x a|id a|w sid rq st x a|w i f id a|o a|id a|id a];
    [by destruct (Hne b v o p c a)|..]; cbn [run2 event_allowance].
  - destruct (applyPM _ _ _ _ _ _) as [[s' r]|] eqn:E; [|reflexivity]. by eapply applyPM_calm.
  - destruct (saveArtifact _ _ _ _ _ _ _ _ _ _ _) as [[s' r]|] eqn:E; [|reflexivity]. by eapply saveArtifact_calm.
  - destruct (AdmitTurn _ _ _ _ _ _ _ _ _ _ _) as [s'|] eqn:E; [|reflexivity]. by eapply AdmitTurn_calm.
  - destruct (stTasks s !! id); [|reflexivity]. by apply queueTask_calm.
  - by apply finishPMTurn_calm.
  - by apply wakePM_calm.
  - by apply Sweep_calm.
  - destruct (stTasks s !! id) as [t|]; [|reflexivity]. destruct (mustStop t s); [apply stopRequested_calm|reflexivity].
  - by apply recoverRun_calm.
Qed.

Lemma call2_ok s b v o p c a : numbered s → contracts_ok digestJSON s → grants_ok s → unclaimed p s →
  commands digestJSON (allowed p c) p s (run2 s (VCall b v o p c a)).
Proof.
  intros Hn Hk Hg Hu. cbn [run2]. destruct (applyCollaborationCall _ _ _ _ _ _ _ _ _) as [[s' r]|] eqn:E.
  - unfold applyCollaborationCall in E. follow E. by eapply call_ok.
  - apply drawn_commands, calm_drawn. reflexivity.
Qed.
End machine.
