(* ===== verification/CollabScenario.v ===== *)
(** * A project of version 2 from its creation to a delivery

    Concrete histories of the machine of [HostMoves]: the inputs at which the
    guarantees of [CollabSafety] are applied. *)

From S2P Require Import Prelude Orders CoordTypes Coordination CoordProps CoordSafety CollabState Collaboration.
From S2P Require Import CollabReports Cooperation CollabRuns CollabApply Host Artifacts CollabMoves CollabOps CollabRest HostMoves.

Module Delivery.
(** A digest that can be read; never empty. *)
Definition digest (v : hashed) : string :=
  cat ["h"; match v with
            | HStrings l => cat (rev l)
            | HAction t k r s n => cat [k; decimal n; t; r; s]
            | HContract c => cat [tcID c; "/"; tcOutcome c]
            | HCommand c => cat [action c; "/"; taskOf c; "/"; textOf c]
            | HLegacy c => cat [cmAction c; "/"; cmTaskID c; "/"; cmText c]
            | HManifest c d i r => cat (c :: d)
            | HSources l => cat (map srID l)
            end].
Definition jsonSize (c : CollaborationCommand) : Z := 100.
Definition order : ordering := λ _ l, l.
Definition idle : string → bool := λ _, false.
Definition intact : Artifact → error := λ _, None.

Definition alice : Principal := zeroPrincipal <| prID := "alice" |> <| prHuman := true |>.
Definition pm : Principal := zeroPrincipal <| prID := "pm" |> <| prSessionID := "pm_p1" |>.
Definition worker (run : string) : Principal :=
  zeroPrincipal <| prID := "w" |> <| prSessionID := "s_p1_w01" |> <| prRunID := run |> <| prEpoch := 1 |>.

Definition command (name mutation : string) (rev : Z) (contract : string) : CollaborationCommand :=
  zeroCollaborationCommand <| ccCommand := zeroCommand <| cmAction := name |> <| cmProjectID := "p1" |>
      <| cmTaskID := "p1_w01" |> <| cmMutationID := mutation |> |>
    <| ccExpectedEntityRevision := rev |> <| ccContractID := contract |>.
Definition call (p : Principal) (c : CollaborationCommand) (at_ : Z) : event2 := VCall idle intact order p c at_.

Definition create : CollaborationCommand :=
  withCommand (λ c, c <| cmTaskID := "" |> <| cmName := "N" |> <| cmCwd := "/w" |>) (command "create" "m1" 0 "").
Definition propose : CollaborationCommand :=
  withCommand (λ c, c <| cmTaskID := "" |> <| cmTitle := "T" |> <| cmReason := "R" |> <| cmInstruction := "do it" |>
    <| cmAcceptance := "it is done" |> <| cmBackend := "codex" |> <| cmSandbox := "read-only" |>) (command "propose" "m2" 0 "").
Definition contract : string := "contract_p1_w01_1".
Definition approve : CollaborationCommand :=
  (command "approve" "m3" 1 contract) <| ccMode := "bounded_plan" |> <| ccMaxRevisions := 2 |>.
Definition dispatch : CollaborationCommand := command "dispatch" "m4" 2 "".

Definition walk_at (s : State) : walk :=
  mkWalk (values (stProjects s)) (values (stTasks s)).
Definition admission (evs : list event2) (request : string) (at_ : Z) : event2 :=
  VAdmit true idle (walk_at (run2_all digest jsonSize evs NewState)) "s_p1_w01" "codex" "read-only" request "go" at_.
Definition finish (evs : list event2) (request status : string) (at_ : Z) : event2 :=
  VFinish (walk_at (run2_all digest jsonSize evs NewState)) "s_p1_w01" request status "ok" at_.

Definition queued : list event2 :=
  [call alice create 1; call pm propose 2; call alice approve 3; call pm dispatch 4; VQueue "p1_w01" 5].

(** The preflight: the worker has read the contract, and confirms. *)
Definition preflight : string := "pmrun_p1_w01_e1_preflight".
Definition admitted : list event2 := queued ++ [admission queued preflight 6].
Definition manifest : string := "context_hcontract_p1_w01_1".
Definition received : CollaborationCommand := (command "report" "m5" 0 "") <| ccReport := Some (zeroReportInput
  <| riKind := "received" |> <| riContractID := contract |> <| riManifestID := manifest |> <| riText := "clear" |>
  <| riReadiness := "confirmed" |>) |>.
Definition confirmed : list event2 := admitted ++ [call (worker "wr_p1_w01_e1_preflight") received 7].
Definition ready : list event2 := confirmed ++ [finish confirmed preflight "succeeded" 8; VQueue "p1_w01" 9].

(** The execution: an artifact with its evidence, and the submission. *)
Definition execute : string := "pmrun_p1_w01_e1_execute".
Definition running : list event2 := ready ++ [admission ready execute 10].
Definition sha (s : string) : string := String.append "h" s.
Definition report : artifactInput := mkArtifactInput "a1" "report.txt" "text" "all tests pass" "" "".
Definition save : event2 :=
  VArtifact sha aiMutationID (λ _ _, inr "no_files") (λ _ _, None) String.append (worker "wr_p1_w01_e1_execute")
    "p1" "p1_w01" report 11.
Definition saved : string := "hartifact:s_p1_w01:wr_p1".
Definition submission : CollaborationCommand := (command "submit" "m6" 0 "") <| ccSubmission := Some
  (mkSubmissionInput contract manifest "done" [String.append "artifact_" (prefix24 saved)]
     [mkCoverage "AC01" "passed" [String.append "evidence_" (prefix24 saved)] ""] []) |>.
Definition submitted : list event2 := running ++ [save; call (worker "wr_p1_w01_e1_execute") submission 12].
Definition delivered : list event2 := submitted ++ [finish submitted execute "succeeded" 13].

(** The human accepts; or nobody looks at it for a day. *)
Definition delivery : string := "submission_hm6wr_p1_w01_e1_executes".
Definition acceptAt (rev : Z) : CollaborationCommand := (command "accept" "m7" rev contract) <| ccEntityID := delivery |>.
Definition accepted : list event2 := delivered ++ [call alice (acceptAt 7) 14].
Definition tomorrow : Z := 24 * 60 * 60 * 1000 + 3.
Definition overnight : list event2 := delivered ++ [VSweep order tomorrow].
(** Somebody presses stop in an idle conversation: the executor reports the end
of a turn that has no name. *)
Definition stopped (sessionID : string) : event2 := VFinish (walk_at (run2_all digest jsonSize delivered NewState)) sessionID "" "interrupted" "" 14.

Notation after evs := (run2_all digest jsonSize evs NewState).
Notation happens evs := (events2_ok digest jsonSize evs NewState).
Definition task_view (evs : list event2) : option (string * string * string) :=
  (λ t, (tkState t, tkOwner t, tkRequestID t)) <$> stTasks (after evs) !! "p1_w01".
End Delivery.
Import Delivery.

Example delivery_running : task_view running = Some ("running", "pm", "pmrun_p1_w01_e1_execute").
Proof. vm_compute. reflexivity. Qed.
Example delivery_delivered : task_view delivered = Some ("review", "pm", "pmrun_p1_w01_e1_execute").
Proof. vm_compute. reflexivity. Qed.
Example delivery_accepted : task_view accepted = Some ("done", "pm", "pmrun_p1_w01_e1_execute").
Proof. vm_compute. reflexivity. Qed.

(** ** The histories are possible *)
Lemma unclaimed_empty p s : stReceipts s = ∅ → unclaimed p s.
Proof. intros E x _. by rewrite E, lookup_empty. Qed.
Lemma walk_at_ok s : walk_of (walk_at s) s.
Proof. by split. Qed.
Lemma happens_snoc evs e : happens evs → event2_ok (after evs) e → happens (evs ++ [e]).
Proof.
  intros H1 H2. revert H1 H2. generalize NewState. induction evs as [|x evs IH]; intros s; simpl; [by split|].
  intros [Hx H1] H2. split; [done|]. by apply IH.
Qed.
Lemma digest_some v : digest v ≠ "".
Proof. done. Qed.

Ltac possible := first [exact I | apply walk_at_ok | apply unclaimed_empty; vm_compute; reflexivity].

Lemma queued_ok : happens queued.
Proof.
  change queued with ((((([] ++ [call alice create 1]) ++ [call pm propose 2]) ++ [call alice approve 3])
    ++ [call pm dispatch 4]) ++ [VQueue "p1_w01" 5]).
  repeat (apply happens_snoc; [|possible]). exact I.
Qed.
Lemma ready_ok : happens ready.
Proof.
  change ready with ((confirmed ++ [finish confirmed preflight "succeeded" 8]) ++ [VQueue "p1_w01" 9]).
  repeat (apply happens_snoc; [|possible]). exact queued_ok.
Qed.
Lemma delivered_ok : happens delivered.
Proof.
  apply happens_snoc; [|possible]. change submitted with ((running ++ [save]) ++ [call (worker "wr_p1_w01_e1_execute") submission 12]).
  repeat (apply happens_snoc; [|possible]). exact ready_ok.
Qed.
Lemma accepted_ok : happens accepted.
Proof. apply happens_snoc; [exact delivered_ok|possible]. Qed.
