(* ===== verification/CollabSafety.v ===== *)
(** * Guarantees of the version 2 collaboration

    Over every history of the machine of [HostMoves] from the empty document:
    a run of the PM is admitted only under a live grant of a human on the
    current contract; a grant's retries stay within what was approved; a task is
    done only when a human accepts a sealed delivery; a closed task is reopened
    only by a human. *)

From S2P Require Import Prelude Orders Decimal CoordTypes Coordination CoordProps CoordSafety CollabState Collaboration.
From S2P Require Import CollabReports Cooperation CollabRuns CollabApply Host Artifacts CollabMoves CollabOps CollabRest CollabCalls HostMoves CollabScenario.

Section safety.
Context (digestJSON : hashed → string) (jsonSize : CollaborationCommand → Z).
Notation after evs := (run2_all digestJSON jsonSize evs NewState).
Notation happens evs := (events2_ok digestJSON jsonSize evs NewState).

(** ** Histories *)
Lemma run2_all_app evs1 evs2 s :
  run2_all digestJSON jsonSize (evs1 ++ evs2) s = run2_all digestJSON jsonSize evs2 (run2_all digestJSON jsonSize evs1 s).
Proof. revert s. induction evs1 as [|e evs1 IH]; intros s; simpl; auto. Qed.

Lemma events2_ok_app evs1 evs2 s : events2_ok digestJSON jsonSize (evs1 ++ evs2) s ↔
  events2_ok digestJSON jsonSize evs1 s ∧ events2_ok digestJSON jsonSize evs2 (run2_all digestJSON jsonSize evs1 s).
Proof. revert s. induction evs1 as [|e evs1 IH]; intros s; simpl; [tauto|]. rewrite IH. tauto. Qed.

(** What holds at every point. *)
Record sound (s : State) : Prop := {
  so_numbered : numbered s;
  so_contracts : contracts_ok digestJSON s;
  so_grants : grants_ok s }.

Lemma sound_NewState : sound NewState.
Proof. split; intros id x H; cbn in H; by rewrite lookup_empty in H. Qed.

(** A step makes a grant only when a human calls, and on a contract. *)
Record moves (s : State) (e : event2) (s' : State) : Prop := {
  mv_contracts : ∀ id k, csContracts (collab s') !! id = Some k →
    csContracts (collab s) !! id = Some k ∨ contract_ok digestJSON id k;
  mv_grants : ∀ id g', csGrants (collab s') !! id = Some g' →
    (∃ g, csGrants (collab s) !! id = Some g ∧ grant_moves g g') ∨
    (∃ b v o p c a, e = VCall b v o p c a ∧ granted p s' id g');
  mv_tasks : tasks_move (event_allowance s e) s s' }.

Lemma run2_moves s e : sound s → event2_ok s e → moves s e (run2 digestJSON jsonSize s e).
Proof.
  intros [Hn Hk Hg] Hok.
  assert ((∀ b v o p c a, e ≠ VCall b v o p c a) → moves s e (run2 digestJSON jsonSize s e)) as Hcalm.
  { intros Hne. destruct (run2_calm digestJSON jsonSize s e Hn Hok Hne) as [A1 A2 A3].
    split; [intros id k; rewrite A1; by left| |done]. intros id g' H. left. by apply A2. }
  destruct e as [b v o p c a| | | | | | | | |]; [|by apply Hcalm..].
  destruct (call2_ok digestJSON jsonSize s b v o p c a Hn Hk Hg Hok) as [A1 A2 A3]. split; [done| |done].
  intros id g' H. destruct (A2 id g' H) as [?|?]; [by left|right]. by exists b, v, o, p, c, a.
Qed.

Lemma moves_sound s e s' : sound s → moves s e s' → sound s'.
Proof.
  intros [Hn Hk Hg] [M1 M2 M3]. split; [by destruct (M3 Hn)| |].
  - intros id k H. destruct (M1 id k H) as [?|?]; [by apply Hk|done].
  - intros id g' H. destruct (M2 id g' H) as [(g & H1 & Hm)|(b & v & o & p & c & a & _ & [G1 _ _ G2 _])]; [|done].
    destruct (Hg id g H1) as (E1 & E2 & E3). destruct (grant_moves_fields _ _ Hm) as (F1 & F2 & _).
    destruct Hm as [_ Hu Hb]. split_and!; [congruence|lia| |lia]. apply Hb. lia.
Qed.

Lemma happens_sound evs : happens evs → sound (after evs).
Proof.
  induction evs as [|e evs IH] using rev_ind; intros H; [exact sound_NewState|].
  apply events2_ok_app in H as [H1 [H2 _]]. rewrite run2_all_app. simpl.
  eapply moves_sound; [by apply IH|]. by apply run2_moves; [apply IH|].
Qed.

Lemma happens_moves evs e : happens (evs ++ [e]) → sound (after evs) ∧ moves (after evs) e (after (evs ++ [e])).
Proof.
  intros H. apply events2_ok_app in H as [H1 [H2 _]]. pose proof (happens_sound evs H1) as Hs.
  split; [done|]. rewrite run2_all_app. simpl. by apply run2_moves.
Qed.

(** ** Where a grant comes from *)
(** A human called before [evs] ended, and the call left a grant by that
    human on a contract whose digest is the one the grant names. *)
Definition approved_by_call (evs : list event2) (g : Grant) : Prop :=
  ∃ evs1 evs2 b v o p c a, evs = evs1 ++ VCall b v o p c a :: evs2 ∧
    prHuman p = true ∧ grApprovedBy g = prID p ∧
    ∃ k, csContracts (collab (after (evs1 ++ [VCall b v o p c a]))) !! grContractID g = Some k ∧
      contract_ok digestJSON (grContractID g) k ∧ grContractHash g = tcHash k.

Lemma approved_by_call_more evs e g : approved_by_call evs g → approved_by_call (evs ++ [e]) g.
Proof.
  intros (evs1 & evs2 & b & v & o & p & c & a & -> & H). exists evs1, (evs2 ++ [e]), b, v, o, p, c, a.
  split; [by rewrite <- app_assoc|done].
Qed.

Lemma grants_approved evs : happens evs → ∀ id g, csGrants (collab (after evs)) !! id = Some g → approved_by_call evs g.
Proof.
  induction evs as [|e evs IH] using rev_ind; intros H id g Hg; [cbn in Hg; by rewrite lookup_empty in Hg|].
  destruct (happens_moves evs e H) as [Hs Hm]. pose proof (moves_sound _ _ _ Hs Hm) as [_ Hk _].
  destruct (mv_grants _ _ _ Hm id g Hg) as [(g0 & H0 & Hg0)|(b & v & o & p & c & a & -> & Hgr)].
  - apply events2_ok_app in H as [H _]. apply approved_by_call_more.
    destruct (IH H id g0 H0) as (evs1 & evs2 & b & v & o & p & c & a & Hx).
    destruct (grant_moves_fields _ _ Hg0) as (_ & _ & E3 & E4 & E5 & _).
    exists evs1, evs2, b, v, o, p, c, a. by rewrite E3, E4, E5.
  - destruct Hgr as [_ G2 G3 _ (k & G4 & G5)]. exists evs, [], b, v, o, p, c, a. split_and!; [done..|].
    exists k. split_and!; [done|by apply Hk|done].
Qed.

(** ** Runs *)
Lemma AdmitTurn_grant en st w sid be sb rq x a s s' p t : walk_of w s → numbered s →
  AdmitTurn digestJSON en st w sid be sb rq x a s = inl s' →
  ProjectForSession w sid s = Some (p, Some t) → pjEngineVersion p = 2 → tkOwner t = "pm" →
  validGrant (tkID t) a s = None.
Proof.
  intros Hw Hn H Hf Hv Ho. unfold AdmitTurn in H. rewrite Hf in H. follow H. unfold admitRun in H. rewrite Hf, Hv in H.
  change (2 =? 2) with true in H. cbn match in H. follow H. rename E0 into Ea. unfold AdmitCollaborationRun in Ea.
  cbv zeta in Ea. unfold collaborationTask in Ea.
  change (ProjectForSession w sid (NormalizeCollaboration s)) with (ProjectForSession w sid s) in Ea.
  rewrite Hf, Hv in Ea. change (2 =? 2) with true in Ea. cbn match in Ea. follow Ea. rewrite Ho in *.
  match goal with K : (if bool_decide ("pm" = "pm") then _ else _) = _ |- _ => rename K into Eg end.
  rewrite bool_decide_eq_true_2 in Eg by done. follow Eg.
  match goal with K : admissionChecks _ _ _ _ = None |- _ => rename K into Ec end.
  unfold admissionChecks in Ec. cbv zeta in Ec. change (validGrant (tkID t) a (NormalizeCollaboration s)) with (validGrant (tkID t) a s) in Ec.
  by destruct (validGrant (tkID t) a s).
Qed.

(** C18: A run of the PM in a version 2 project is admitted only under a grant that is
    not revoked and not expired, on the task's current contract, and the
    grant was left by an earlier call of a human who then had a contract of the
    same digest before them. *)
Theorem admitted_runs_were_approved evs en st w sid be sb rq x a s' p t :
  (∀ v, digestJSON v ≠ "") → happens evs → walk_of w (after evs) →
  AdmitTurn digestJSON en st w sid be sb rq x a (after evs) = inl s' →
  ProjectForSession w sid (after evs) = Some (p, Some t) → pjEngineVersion p = 2 → tkOwner t = "pm" →
  let s := after evs in let m := meta_of s (tkID t) in
  ∃ g k, csGrants (collab s) !! mtGrantID m = Some g ∧ grRevokedAt g = 0 ∧ a < grExpiresAt g ∧
    csContracts (collab s) !! mtContractID m = Some k ∧ grContractID g = mtContractID m ∧
    grContractHash g = digestJSON (HContract (bare k)) ∧ approved_by_call evs g.
Proof.
  cbv zeta. intros Hd Hh Hw H Hf Hv Ho. destruct (happens_sound evs Hh) as [Hn Hk Hg].
  destruct (validGrant_some _ _ _ (AdmitTurn_grant _ _ _ _ _ _ _ _ _ _ _ _ _ Hw Hn H Hf Hv Ho))
    as (g & G1 & G2 & G3 & G4 & G5 & G6).
  pose proof (grants_approved evs Hh _ _ G1) as Hap.
  destruct (csContracts (collab (after evs)) !! mtContractID (meta_of (after evs) (tkID t))) as [k|] eqn:Ek.
  - destruct (Hk _ _ Ek) as [_ Hh2]. exists g, k. unfold contract_of in G4. rewrite Ek in G4.
    split_and!; [done..|by rewrite <- Hh2|done].
  - exfalso. unfold contract_of in G4. rewrite Ek in G4. destruct Hap as (? & ? & ? & ? & ? & ? & ? & ? & _ & _ & _ & k & _ & [_ Hk1] & Hk2).
    change (tcHash (default zeroTaskContract None)) with "" in G4. apply (Hd (HContract (bare k))). congruence.
Qed.

(** At every point of a history a grant has spent between none and all of the
    retries its human allowed, and a human can allow two at most. *)
Theorem retries_within_grant evs id g : happens evs → csGrants (collab (after evs)) !! id = Some g →
  grID g = id ∧ 0 ≤ grUsedRevisions g ≤ grMaxRevisions g ∧ grMaxRevisions g ≤ 2.
Proof. intros Hh. by apply (so_grants _ (happens_sound evs Hh)). Qed.

(** ** Acceptance *)
Record acceptable (verify : Artifact → error) (p : Principal) (c : CollaborationCommand) (s : State) : Prop := {
  ac_human : prHuman p = true;
  ac_sub : ∃ sub, csSubmissions (collab s) !! ccEntityID c = Some sub ∧
    sbID sub = mtSubmissionID (meta_of s (taskOf c)) ∧ sbStatus sub = "submitted" ∧
    siContractID (sbInput sub) = mtContractID (meta_of s (taskOf c)) ∧
    ManifestCurrent digestJSON (siManifestID (sbInput sub)) s = true ∧
    (blank (ccWaiver c) = false ∨ SubmissionCovered sub s = true) ∧
    (∀ id, id ∈ siArtifactIDs (sbInput sub) → verify (default zeroArtifact (csArtifacts (collab s) !! id)) = None) }.

Lemma firstError_none {A} (f : A → error) l : firstError f l = None → ∀ x, x ∈ l → f x = None.
Proof.
  induction l as [|y l IH]; simpl; intros H x Hx; [by apply elem_of_nil in Hx|].
  destruct (f y) eqn:E; [done|]. apply elem_of_cons in Hx as [->|Hx]; auto.
Qed.

Lemma applyTaskCommand_accepts p c a s s' r : action c = "accept" →
  applyTaskCommand digestJSON p c a s = inl (s', r) → acceptChecks digestJSON p c s = None.
Proof.
  intros Ha H. unfold applyTaskCommand in H. follow H. rename E into Ep. unfold prepareTaskCommand in Ep. cbv zeta in Ep.
  follow Ep. rename E into Er. unfold reopened, isAction in Er. change (action (withCommand _ c)) with (action c) in Er.
  rewrite Ha in Er. change (bool_decide ("accept" ∈ ["reopen"])) with false in Er. simpl in Er. injection Er as <- <-.
  match goal with K : acceptChecks _ _ _ _ = None |- _ => exact K end.
Qed.

Lemma call_accepts b v o p c a s : action c = "accept" → run2 digestJSON jsonSize s (VCall b v o p c a) ≠ s →
  acceptable v p c s.
Proof.
  intros Ha H. cbn [run2] in H. destruct (applyCollaborationCall _ _ _ _ _ _ _ _ _) as [[s' r]|] eqn:E; [|done].
  cbn [commit] in H. unfold applyCollaborationCall in E. follow E. rename E0 into Ev, E into Ec.
  unfold isAction in Ev. rewrite Ha in Ev. change (bool_decide ("accept" ∈ ["accept"])) with true in Ev. cbn match in Ev.
  apply ApplyCollaboration_cases in Ec as [[-> _]|[_ Ec]]; [done|]. unfold applyFresh in Ec. follow Ec. rename E into Ed.
  unfold applyCollaboration, isAction in Ed. rewrite Ha in Ed.
  change (bool_decide ("accept" ∈ ["upgrade"])) with false in Ed. change (bool_decide ("accept" ∈ ["create"])) with false in Ed.
  cbn match in Ed. follow Ed. unfold applyScoped in Ed. cbv zeta in Ed. unfold isAction in Ed.
  change (action (withCommand _ c)) with (action c) in Ed. rewrite Ha in Ed.
  change (bool_decide ("accept" ∈ taskActions)) with true in Ed. cbn match in Ed. follow Ed.
  apply applyTaskCommand_accepts in Ed; [|exact Ha].
  change (acceptChecks digestJSON p c s = None) in Ed. unfold acceptChecks, isAction in Ed. rewrite Ha in Ed.
  change (negb (bool_decide ("accept" ∈ ["accept"]))) with false in Ed. cbv zeta in Ed. cbn match in Ed.
  destruct (prHuman p) eqn:Eh; [|done]. cbn [negb] in Ed. destruct (_ || _) eqn:E1 in Ed; [done|].
  destruct (UnansweredBlocking _ _); [done|]. destruct (_ && _) eqn:E2 in Ed; [done|]. bool_facts.
  unfold artifactChecks in Ev. destruct (bool_decide _); [done|].
  destruct (csSubmissions (collab s) !! ccEntityID c) as [sub|] eqn:Es; [|done].
  unfold submission_of in *. rewrite Es in *. change (default zeroSubmission (Some sub)) with sub in *.
  split; [done|]. exists sub. split_and!; [done..| |by apply firstError_none].
  apply andb_false_iff in E2 as [?|E2]; [by left|right]. by apply negb_false_iff in E2.
Qed.

(** What an event may accept, it did accept in a version 2 project only as such a call. *)
Lemma accepts_call s e id t' : accepts (event_allowance s e) id →
  stTasks (run2 digestJSON jsonSize s e) !! id = Some t' → tkState t' = "done" →
  (∀ t, stTasks s !! id = Some t → tkState t ≠ "done" ∧ pjEngineVersion (project_of s (tkProjectID t)) = 2) →
  ∃ b v o p c a, e = VCall b v o p c a ∧ action c = "accept" ∧ taskOf c = id ∧ acceptable v p c s.
Proof.
  intros Hacc Ht Hd Ho. destruct e as [b v o p c a|b p c a| | | | | | | |]; [| |done..].
  - destruct Hacc as [Ha Hid]. exists b, v, o, p, c, a. split_and!; [done..|].
    apply (call_accepts b v o p c a s Ha). intros E. rewrite E in Ht. by destruct (Ho t' Ht).
  - destruct Hacc as (_ & _ & t & H1 & H2). by destruct (Ho t H1).
Qed.

(** C19: In a version 2 project a task becomes done only by the call of a human who
    accepts it, naming the task's current submission: sealed by the run that
    made it, for the current contract, on inputs that are still current, with its
    artifacts intact, and with every mandatory criterion covered by
    evidence unless the human waives it. *)
Theorem done_needs_acceptance evs e id t' :
  happens (evs ++ [e]) → stTasks (after (evs ++ [e])) !! id = Some t' → tkState t' = "done" →
  pjEngineVersion (project_of (after evs) (tkProjectID t')) = 2 →
  (∀ t, stTasks (after evs) !! id = Some t → tkState t ≠ "done") →
  ∃ b v o p c a, e = VCall b v o p c a ∧ action c = "accept" ∧ taskOf c = id ∧ acceptable v p c (after evs).
Proof.
  intros Hh Ht Hd Hv Ho. destruct (happens_moves evs e Hh) as [[Hn _ _] [_ _ Hm]].
  destruct (Hm Hn) as (_ & Hmv & _). rewrite run2_all_app in *. cbn [run2_all] in *.
  destruct (Hmv id t' Ht) as [(t & H1 & [_ (Hp & _) Hdone _])|[Hnew Hacc]].
  - destruct (Hdone Hd) as [Hx|Hx]; [by destruct (Ho t H1)|]. assert (tkID t = id) as Hid by by destruct (Hn id t H1).
    rewrite Hid in Hx. eapply accepts_call; [exact Hx|exact Ht|exact Hd|]. intros x Hxt. split; [by apply Ho|].
    assert (x = t) as -> by congruence. by rewrite <- Hp.
  - eapply accepts_call; [exact (Hacc Hd)|exact Ht|exact Hd|]. intros x Hx. congruence.
Qed.

(** A done or cancelled task of a version 2 project keeps its state whatever an
    agent, the host, maintenance or a restart does; only a call of a human
    can change it. *)
Theorem closed_tasks_stay evs e id t :
  happens (evs ++ [e]) → stTasks (after evs) !! id = Some t → closed t →
  pjEngineVersion (project_of (after evs) (tkProjectID t)) = 2 →
  (∀ b v o p c a, e = VCall b v o p c a → prHuman p = false) →
  ∃ t', stTasks (after (evs ++ [e])) !! id = Some t' ∧ tkState t' = tkState t.
Proof.
  intros Hh Ht Hc Hv Hp. destruct (happens_moves evs e Hh) as [[Hn _ _] [_ _ Hm]].
  destruct (Hm Hn) as (_ & Hmv & Hk). destruct (Hk id) as [t' Ht']; [by eexists|]. exists t'. split; [done|].
  destruct (Hmv id t' Ht') as [(x & H1 & [_ _ _ Hcl])|[Hnew _]]; [|congruence].
  assert (x = t) as -> by congruence. destruct (Hcl Hc) as [?|Hr]; [done|exfalso].
  destruct e as [b v o p c a|b p c a| | | | | | | |]; cbn in Hr; [|done|congruence..].
  by rewrite (Hp b v o p c a eq_refl) in Hr.
Qed.
End safety.

(** ** At the delivery of [CollabScenario] *)
Import Delivery.

Lemma admitted_runs_were_approved_witness :
  task_view running = Some ("running", "pm", execute) ∧ ∃ g, approved_by_call digest jsonSize ready g ∧ 10 < grExpiresAt g.
Proof.
  split; [vm_compute; reflexivity|].
  edestruct (admitted_runs_were_approved digest jsonSize ready true idle (walk_at (Delivery.after ready)) "s_p1_w01"
      "codex" "read-only" execute "go" 10) as (g & k & _ & _ & H & _ & _ & _ & Hg);
    [exact digest_some|exact ready_ok|apply walk_at_ok|vm_compute; reflexivity|vm_compute; reflexivity|vm_compute; reflexivity..|].
  exists g. by split.
Defined.

Lemma retries_within_grant_witness :
  ∃ g, csGrants (collab (Delivery.after delivered)) !! "grant_hm3alice" = Some g ∧ grMaxRevisions g = 2 ∧
    0 ≤ grUsedRevisions g ≤ grMaxRevisions g.
Proof.
  eexists. split; [vm_compute; reflexivity|]. split; [reflexivity|].
  apply (retries_within_grant digest jsonSize delivered "grant_hm3alice"); [exact delivered_ok|vm_compute; reflexivity].
Defined.

Lemma done_needs_acceptance_witness :
  task_view accepted = Some ("done", "pm", execute) ∧ acceptable digest intact alice (acceptAt 7) (Delivery.after delivered).
Proof.
  split; [vm_compute; reflexivity|].
  edestruct (done_needs_acceptance digest jsonSize delivered (call alice (acceptAt 7) 14) "p1_w01")
    as (b & v & o & p & c & a & E & _ & _ & H);
    [exact accepted_ok|vm_compute; reflexivity|vm_compute; reflexivity|vm_compute; reflexivity| |].
  - intros t Ht. vm_compute in Ht. injection Ht as <-. vm_compute. discriminate.
  - injection E as _ <- _ <- <- _. exact H.
Defined.

Lemma closed_tasks_stay_witness :
  ∃ t', stTasks (Delivery.after (accepted ++ [VRecover "p1_w01" 15])) !! "p1_w01" = Some t' ∧ tkState t' = "done".
Proof.
  edestruct (closed_tasks_stay digest jsonSize accepted (VRecover "p1_w01" 15) "p1_w01") as (t' & H1 & H2);
    [apply happens_snoc; [exact accepted_ok|exact I]|vm_compute; reflexivity|listed|vm_compute; reflexivity|discriminate|].
  exists t'. split; [exact H1|exact H2].
Defined.

(** A sealed delivery that waits for its human until the grant of the run has
    expired can no longer be accepted: maintenance revokes the grant and turns
    the task in review into an uncertain one, and the acceptance that was
    possible before is refused, though submission, contract and artifacts are
    unchanged. *)
Theorem expiry_loses_delivery :
  task_view delivered = Some ("review", "pm", execute) ∧ task_view accepted = Some ("done", "pm", execute) ∧
  task_view overnight = Some ("uncertain", "pm", execute) ∧
  csSubmissions (collab (Delivery.after overnight)) = csSubmissions (collab (Delivery.after delivered)) ∧
  applyCollaborationCall digest jsonSize idle intact order alice (acceptAt 8) (tomorrow + 1) (Delivery.after overnight)
    = inr "pm_result_not_ready".
Proof. do 4 (split; [vm_compute; reflexivity|]). vm_compute. reflexivity. Qed.

(** The end of a turn without a request id, which the executors report when an
    idle conversation is stopped, is taken for the end of the current run: a
    delivered task in review becomes failed and its acceptance is refused, though
    no run of it was active; and the idle PM's project is paused. *)
Theorem idle_stop_ends_a_run :
  let evs := delivered ++ [stopped "s_p1_w01"] in
  task_view delivered = Some ("review", "pm", execute) ∧
  mtActiveRequestID (meta_of (Delivery.after delivered) "p1_w01") = "" ∧
  task_view evs = Some ("failed", "pm", execute) ∧
  applyCollaborationCall digest jsonSize idle intact order alice (acceptAt 8) 15 (Delivery.after evs) = inr "pm_result_not_ready" ∧
  pjMode (project_of (Delivery.after delivered) "p1") = "active" ∧
  pjMode (project_of (Delivery.after (delivered ++ [stopped "pm_p1"])) "p1") = "paused".
Proof. cbv zeta. do 5 (split; [vm_compute; reflexivity|]). vm_compute. reflexivity. Qed.
