(* ===== verification/HostProps.v ===== *)
(** * What the host's cycle and its receipts promise

    A PM that settles nothing is paused after two rounds; an artifact is
    stored once; and a mutation id that the entry
    point lets pass may be too long for the commands below it. *)

From S2P Require Import Prelude Orders Decimal CoordTypes Coordination CoordProps CoordSafety CollabState Collaboration.
From S2P Require Import CollabReports Cooperation CollabRuns CollabApply Host Artifacts CollabMoves CollabOps CollabRest HostMoves CollabScenario.

(** ** The project behind an event *)
Lemma project_put p id s : project_of (putProject p id s) id = p.
Proof. unfold project_of, putProject. cbn. by rewrite lookup_insert_eq. Qed.

Lemma project_event p id tid k txt rid at_ w s :
  project_of (AddEvent p id tid k txt rid at_ w s) id =
    let rev := u64_succ (stRevision s) in let q := (project_of s id) <| pjRevision := rev |> in
    if w then q <| pjPendingThrough := rev |> else q.
Proof. unfold AddEvent. cbv zeta. by rewrite project_put. Qed.

Lemma AddEvent_revision p id tid k txt rid at_ w s :
  stRevision (AddEvent p id tid k txt rid at_ w s) = u64_succ (stRevision s).
Proof. unfold AddEvent. by destruct w. Qed.

(** The matters and dispositions of a project, all the PM's progress depends on. *)
Lemma pmUnsettled_same p q s s' : pjID q = pjID p → stCollaboration s' = stCollaboration s → pmUnsettled q s' = pmUnsettled p s.
Proof. unfold pmUnsettled, PendingActionables, collab. by intros -> ->. Qed.
Lemma dispositions_same id s s' : stCollaboration s' = stCollaboration s →
  ProjectDispositionCount id s' = ProjectDispositionCount id s.
Proof. unfold ProjectDispositionCount, collab. by intros ->. Qed.

Section cycle.
Context (digestJSON : hashed → string) (w : walk) (id : string) (at_ : Z).

(** The PM is idle and its project has news: it is woken; and its turn ends. *)
Definition woken (s : State) : State * option string := wakePM digestJSON w true NotFound (project_of s id) at_ s.
Definition pmDone (s : State) : State :=
  pmTurnEnded (project_of s id) (pjWakeRequestID (project_of s id)) "succeeded" at_ s.

(** A version 2 project whose PM may be woken. *)
Record awake (rounds : Z) (stalled : Z) (s : State) : Prop := {
  aw_id : pjID (project_of s id) = id;
  aw_v2 : pjEngineVersion (project_of s id) = 2;
  aw_mode : pjMode (project_of s id) = "active";
  aw_free : pjWakeRequestID (project_of s id) = "";
  aw_stalled : pjNoProgressRounds (project_of s id) = stalled;
  aw_budget : pjRounds (project_of s id) + rounds < pjMaxRounds (project_of s id);
  aw_news : pjProcessedThrough (project_of s id) < pjPendingThrough (project_of s id) ≤ stRevision s;
  aw_revision : 0 ≤ stRevision s }.

Lemma wakeID_some p : wakeID p ≠ "".
Proof. done. Qed.

Lemma woken_queued rounds stalled s : awake rounds stalled s → 0 ≤ rounds → stRevision s < u64_max →
  woken s = (queueWake id (wakeID (project_of s id)) at_ s, Some (wakeID (project_of s id))).
Proof.
  intros [H1 H2 H3 H4 H5 H6 H7 H8] Hr Hu. unfold woken, wakePM. cbv zeta. rewrite H3, H4, H1.
  rewrite bool_decide_eq_true_2 by done. cbn [negb orb]. destruct (Z.leb_spec (pjPendingThrough (project_of s id)) (pjProcessedThrough (project_of s id))); [lia|].
  change (str_empty "") with true. cbv iota. destruct (Z.leb_spec (pjMaxRounds (project_of s id)) (pjRounds (project_of s id))); [lia|]. done.
Qed.

Lemma queued_project request s : pjEngineVersion (project_of s id) = 2 → project_of (queueWake id request at_ s) id =
  (project_of s id) <| pjWakeRequestID := request |> <| pjWakeThrough := pjPendingThrough (project_of s id) |>
    <| pjWakeState := "queued" |> <| pjWakeDispositionCount := Z.of_nat (ProjectDispositionCount id s) |>
    <| pjRounds := pjRounds (project_of s id) + 1 |> <| pjRevision := u64_succ (stRevision s) |>.
Proof. intros Hv. unfold queueWake. cbv zeta. rewrite project_event, project_put. cbn. by rewrite Hv. Qed.

Lemma queued_rest request s : stRevision (queueWake id request at_ s) = u64_succ (stRevision s) ∧
  stCollaboration (queueWake id request at_ s) = stCollaboration s.
Proof. unfold queueWake. cbv zeta. rewrite AddEvent_revision, AddEvent_collab. by split. Qed.

(** A round without a disposition. *)
Lemma round_stalls rounds stalled s : awake rounds stalled s → 0 ≤ rounds → 0 ≤ stalled → stRevision s + 4 < u64_max →
  pmUnsettled (project_of s id) s = true →
  let s' := pmDone (woken s).1 in
  (woken s).2 = Some (wakeID (project_of s id)) ∧ stCollaboration s' = stCollaboration s ∧
  stRevision s ≤ stRevision s' ≤ stRevision s + 3 ∧
  (stalled = 0 → awake (rounds - 1) 1 s') ∧
  (1 ≤ stalled → pjMode (project_of s' id) = "paused" ∧ pjNote (project_of s' id) = stalledNote).
Proof.
  intros Ha Hr Hs Hu Hun. rewrite (woken_queued _ _ _ Ha Hr) by lia. cbn [fst snd]. cbv zeta.
  destruct Ha as [H1 H2 H3 H4 H5 H6 H7 H8]. set (s1 := queueWake id _ at_ s).
  destruct (queued_rest (wakeID (project_of s id)) s) as [R1 C1]. fold s1 in R1, C1. rewrite u64_succ_lt in R1 by lia.
  pose proof (queued_project (wakeID (project_of s id)) s H2) as P1. fold s1 in P1.
  unfold pmDone. rewrite P1. unfold pmTurnEnded. cbv zeta.
  match goal with |- context [pjWakeRequestID ?q] => set (p1 := q) in * end.
  rewrite bool_decide_eq_true_2 by done. cbn [negb].
  match goal with |- context [countProgress ?q] => set (p2 := q) end.
  assert (pmUnsettled p2 s1 = true) as Hun1 by (rewrite <- Hun; by apply pmUnsettled_same).
  change (pjEngineVersion p2) with (pjEngineVersion (project_of s id)). rewrite H2, Hun1.
  rewrite (bool_decide_eq_true_2 ("succeeded" = "succeeded")) by done. change (2 =? 2) with true. cbn [andb negb].
  assert (countProgress p2 true s1 = let q := p2 <| pjNoProgressRounds := stalled + 1 |> in
    if 2 <=? stalled + 1 then q <| pjMode := "paused" |> <| pjNote := stalledNote |> else q) as Ec.
  { unfold countProgress. change (pjID p2) with (pjID (project_of s id)). rewrite H1.
    rewrite (dispositions_same id s s1 C1). cbn. by rewrite Z.eqb_refl, H5. }
  rewrite Ec. cbv zeta. set (q := if 2 <=? stalled + 1 then _ else _).
  assert (pjID q = id) as Iq by (unfold q; destruct (2 <=? _); exact H1). rewrite Iq.
  set (s2 := AddEvent system id "" _ _ _ at_ false _).
  assert (stRevision s2 = stRevision s + 2) as R2.
  { unfold s2. rewrite AddEvent_revision. change (stRevision (putProject q id s1)) with (stRevision s1).
    rewrite R1, u64_succ_lt; lia. }
  assert (stCollaboration s2 = stCollaboration s) as C2 by (unfold s2; rewrite AddEvent_collab; exact C1).
  assert (project_of s2 id = q <| pjRevision := stRevision s + 2 |>) as P2.
  { unfold s2. rewrite project_event, project_put. cbv zeta. change (stRevision (putProject q id s1)) with (stRevision s1).
    rewrite R1, u64_succ_lt by lia. f_equal. lia. }
  split; [done|]. destruct (Z.leb_spec 2 (stalled + 1)) as [Hge|Hlt].
  - assert (bool_decide (pjMode q = "active") = false) as -> by done. split_and!; [exact C2|lia..|lia|].
    intros _. by rewrite P2.
  - assert (bool_decide (pjMode q = "active") = true) as -> by (by apply bool_decide_eq_true_2).
    set (s3 := AddEvent system id "" _ _ _ at_ true s2).
    assert (stRevision s3 = stRevision s + 3) as R3 by (unfold s3; rewrite AddEvent_revision, R2, u64_succ_lt; lia).
    assert (project_of s3 id = q <| pjRevision := stRevision s + 3 |> <| pjPendingThrough := stRevision s + 3 |>) as P3.
    { unfold s3. rewrite project_event, P2, R2, u64_succ_lt by lia. cbv zeta.
      replace (stRevision s + 2 + 1) with (stRevision s + 3) by lia. reflexivity. }
    split_and!; [unfold s3; by rewrite AddEvent_collab|lia..| |lia]. intros ->.
    assert (q = p2 <| pjNoProgressRounds := 1 |>) as Eq by reflexivity. clearbody q.
    split; rewrite ?P3, ?R3; [exact Iq|by subst q..|subst q; cbn; lia|subst q; cbn; lia|lia].
Qed.

(** A PM of a version 2 project that is woken twice and answers twice without
    settling any of the matters that wait for it is paused with a note, keeps
    these matters, and is not woken again while it is paused. *)
Theorem stalled_pm_is_paused s : awake 1 0 s → stRevision s + 7 < u64_max → pmUnsettled (project_of s id) s = true →
  let s1 := pmDone (woken s).1 in let s2 := pmDone (woken s1).1 in
  is_Some (woken s).2 ∧ is_Some (woken s1).2 ∧
  pjMode (project_of s2 id) = "paused" ∧ pjNote (project_of s2 id) = stalledNote ∧
  pmUnsettled (project_of s1 id) s2 = true ∧
  ∀ idle found at', wakePM digestJSON w idle found (project_of s2 id) at' s2 = (s2, None).
Proof.
  intros Ha Hu Hun. cbv zeta.
  destruct (round_stalls 1 0 s Ha) as (W1 & C1 & R1 & A1 & _); [lia..|done|]. specialize (A1 eq_refl).
  set (s1 := pmDone (woken s).1) in *.
  assert (pmUnsettled (project_of s1 id) s1 = true) as Hun1.
  { rewrite <- Hun. apply pmUnsettled_same; [|done]. by rewrite (aw_id _ _ _ A1), (aw_id _ _ _ Ha). }
  destruct (round_stalls 0 1 s1 A1) as (W2 & C2 & _ & _ & P2); [lia..|done|]. destruct (P2 ltac:(lia)) as [M2 N2].
  set (s2 := pmDone (woken s1).1) in *. split_and!; [by rewrite W1|by rewrite W2|done|done| |].
  - rewrite <- Hun1. by apply pmUnsettled_same.
  - intros idle found at'. unfold wakePM. cbv zeta. by rewrite M2.
Qed.
End cycle.

(** ** Artifacts *)
Section files.
Context (sha : string → string) (inputHash : artifactInput → string).
Context (readSource : string → string → (string * string * string) + string).
Context (snapshot : string → string → error) (locator : string → string → string).
Notation save := (saveArtifact sha inputHash readSource snapshot locator).

Lemma recordArtifact_receipt p pid tid i key src at_ s :
  csReceipts (collab (recordArtifact sha inputHash locator p pid tid i key src at_ s)) !! key
    = Some (Receipt zeroCollaborationResult (inputHash i)).
Proof.
  unfold recordArtifact. destruct src as [[path root] body]. cbv zeta. unfold collab. rewrite AddEvent_collab.
  cbn. by rewrite lookup_insert_eq.
Qed.

(** An artifact is stored once.  As long as its record is there, the same
    input saved again gives the first result and changes nothing, from any
    task the run may still write to, and another input under the same mutation
    is refused. *)
Theorem artifact_saved_once p pid tid i at_ s s' r pid2 tid2 i2 at2 s2 :
  save p pid tid i at_ s = inl (s', r) → aiMutationID i2 = aiMutationID i →
  csReceipts (collab s2) !! artifactKey p i = csReceipts (collab s') !! artifactKey p i →
  csArtifacts (collab s2) !! axArtifactID r = csArtifacts (collab s') !! axArtifactID r →
  artifactInvalid i2 = false → artifactScope p pid2 tid2 s2 = None →
  save p pid2 tid2 i2 at2 s2 =
    if decide (inputHash i2 = inputHash i) then inl (NormalizeCollaboration s2, r) else inr "mutation_intent_conflict".
Proof.
  intros H Hm Hr Ha Hi Hs. assert (artifactKey p i2 = artifactKey p i) as Ek by (unfold artifactKey; by rewrite Hm).
  assert ((∃ x, csReceipts (collab s') !! artifactKey p i = Some (Receipt x (inputHash i))) ∧
    r = artifactResultOf sha (artifactKey p i) s') as [[x Hx] ->].
  { unfold saveArtifact in H. cbv zeta in H. destruct (artifactInvalid i); [done|].
    set (s0 := NormalizeCollaboration s) in *. follow H. destruct (csReceipts (collab s0) !! _) as [[res prior|e]|] eqn:Er; [|done|].
    - follow H. bool_facts. injection H as <- <-. split; [|done]. exists res. congruence.
    - follow H. injection H as <- <-. split; [|done]. eexists. apply recordArtifact_receipt. }
  unfold saveArtifact. cbv zeta. rewrite Hi. change (artifactScope p pid2 tid2 (NormalizeCollaboration s2)) with (artifactScope p pid2 tid2 s2).
  rewrite Hs, Ek. change (csReceipts (collab (NormalizeCollaboration s2))) with (csReceipts (collab s2)). rewrite Hr, Hx.
  destruct (decide (inputHash i2 = inputHash i)) as [->|Hne].
  - rewrite bool_decide_eq_true_2 by done. cbn [negb]. f_equal. f_equal. unfold artifactResultOf.
    change (csArtifacts (collab (NormalizeCollaboration s2))) with (csArtifacts (collab s2)).
    cbn [axArtifactID artifactResultOf] in Ha. by rewrite Ha.
  - rewrite bool_decide_eq_false_2; [done|congruence].
Qed.
End files.

(** ** Names of mutations *)
Lemma prepare_mutation digestJSON p c at_ s s' c' : prepareTaskCommand digestJSON p c at_ s = inl (s', c') →
  cmMutationID (ccCommand c') = cmMutationID (ccCommand c).
Proof.
  intros H. unfold prepareTaskCommand in H. cbv zeta in H. follow H. injection H as _ <-.
  transitivity (cmMutationID (ccCommand c0)).
  - unfold reworkStep in E5. cbv zeta in E5. destruct (negb _) in E5; [by injection E5 as _ <-|]. follow E5. injection E5 as _ <-.
    match goal with K : (if isAction c0 ["continue"] then _ else _) = _ |- _ => destruct (isAction c0 ["continue"]) in K; follow K; by injection K as <- end.
  - unfold reopened in E. destruct (negb _) in E; [by injection E as _ <-|]. cbv zeta in E. follow E. by injection E as _ <-.
Qed.

(** A mutation id of 98 to 100 characters passes the limit of the entry point,
    but every command on a task made under it is refused, because the
    version 1 command it becomes has three characters more. *)
Theorem long_mutation_refused digestJSON p c at_ s x :
  97 < str_len (cmMutationID (ccCommand c)) → applyTaskCommand digestJSON p c at_ s ≠ inl x.
Proof.
  intros Hl H. unfold applyTaskCommand in H. destruct x as [s' r]. follow H.
  match goal with K : applyLegacy _ _ (legacyOf ?y) _ _ = _ |- _ => rename K into El; set (c1 := y) in El end.
  assert (cmMutationID (ccCommand c1) = cmMutationID (ccCommand c)) as Em.
  { match goal with K : prepareTaskCommand _ _ _ _ _ = _ |- _ => by eapply prepare_mutation end. }
  unfold applyLegacy in El. destruct (tooLarge _); [done|]. destruct (anonymous p (legacyOf c1)) eqn:Ea; [done|].
  unfold anonymous in Ea. apply orb_false_iff in Ea as [_ Ea]. apply Z.ltb_ge in Ea.
  assert (str_len (cmMutationID (legacyOf c1)) = 3 + str_len (cmMutationID (ccCommand c))) as E3.
  { rewrite <- Em. unfold str_len.
    change (cmMutationID (legacyOf c1)) with (String.append "v2-" (cmMutationID (ccCommand c1))).
    rewrite string_length_append. change (String.length "v2-") with 3%nat. lia. }
  lia.
Qed.

(** ** At the delivery of [CollabScenario] *)
Import Delivery.

Lemma delivered_awake : awake "p1" 1 0 (Delivery.after delivered).
Proof. split; vm_compute; try reflexivity; try (split; [reflexivity|discriminate]); discriminate. Qed.

Lemma stalled_pm_is_paused_witness :
  let s1 := pmDone "p1" 20 (woken digest (mkWalk [] []) "p1" 20 (Delivery.after delivered)).1 in
  pjMode (project_of (pmDone "p1" 20 (woken digest (mkWalk [] []) "p1" 20 s1).1) "p1") = "paused".
Proof.
  cbv zeta.
  apply (stalled_pm_is_paused digest (mkWalk [] []) "p1" 20 (Delivery.after delivered) delivered_awake);
    vm_compute; reflexivity.
Defined.

Definition saving (i : artifactInput) (s : State) : outcome artifactResult :=
  saveArtifact sha aiText (λ _ _, inr "no_files") (λ _ _, None) String.append (worker "wr_p1_w01_e1_execute") "p1" "p1_w01" i 11 s.
Definition savedState : State := commit (Delivery.after running) (saving report (Delivery.after running)).
Definition savedReply : artifactResult :=
  mkArtifactResult (String.append "artifact_" (prefix24 saved)) (String.append "evidence_" (prefix24 saved))
    "hall tests pass" "source_linked".
Definition other : artifactInput := mkArtifactInput "a1" "report.txt" "text" "some tests fail" "" "".

Lemma artifact_saved_once_witness :
  saving report savedState = inl (NormalizeCollaboration savedState, savedReply) ∧
  saving other savedState = inr "mutation_intent_conflict".
Proof.
  assert (saving report (Delivery.after running) = inl (savedState, savedReply)) as H by (vm_compute; reflexivity).
  assert (artifactScope (worker "wr_p1_w01_e1_execute") "p1" "p1_w01" savedState = None) as Hs by (vm_compute; reflexivity).
  pose proof (artifact_saved_once sha aiText (λ _ _, inr "no_files") (λ _ _, None) String.append
    (worker "wr_p1_w01_e1_execute") "p1" "p1_w01" report 11 (Delivery.after running) savedState savedReply "p1" "p1_w01") as T.
  split.
  - exact (T report 11 savedState H eq_refl eq_refl eq_refl eq_refl Hs).
  - exact (T other 11 savedState H eq_refl eq_refl eq_refl eq_refl Hs).
Defined.

Definition longName : string := cat (repeat "0123456789" 10).
Definition longPropose : CollaborationCommand := withCommand (λ c, c <| cmMutationID := longName |>) propose.

Lemma long_mutation_refused_witness :
  unidentified pm longPropose = false ∧
  ∀ x, applyTaskCommand digest pm longPropose 2 (Delivery.after queued) ≠ inl x.
Proof.
  split; [vm_compute; reflexivity|]. intros x. apply (long_mutation_refused digest). vm_compute. reflexivity.
Defined.
