(* ===== verification/OfflineBuffer.v ===== *)
(** * The offline buffer

    [src/internal/governance/offline.go]: the events emitted while no client
    is connected, compacted as they arrive, and the batches a reconnecting
    client is sent.

    An event of [protocol/wire.go] is its constructor with the fields of its
    struct (the field [Type] is the constructor).  Events the buffer does not
    look into are [OtherEvent] with their encoding.  The length of an event's
    JSON encoding is a parameter, [None] when it cannot be encoded.  The
    methods run under the buffer's mutex, one at a time. *)

From S2P Require Import Prelude.

Definition offlineCap : Z := 10000.

Record TodoItem := mkTodoItem {
  ID : string;
  Content : string;
  Status : string;
  ActiveForm : option string }.
#[export] Instance TodoItem_eta : Eta TodoItem := λ i,
  mkTodoItem (ID i) (Content i) (Status i) (ActiveForm i).
#[global] Instance TodoItem_eq_dec : EqDecision TodoItem.
Proof. solve_decision. Defined.

Record Goal := mkGoal {
  ThreadID : string;
  Objective : string;
  gStatus : string;
  TokenBudget : option Z;
  TokensUsed : Z;
  TimeUsedSeconds : Z;
  gCreatedAt : Z;
  gUpdatedAt : Z }.
#[global] Instance Goal_eq_dec : EqDecision Goal.
Proof. solve_decision. Defined.

Record UsageWindow := mkUsageWindow {
  Utilization : option f64;
  ResetsAt : option string;
  wUnit : string;
  Label : string;
  DurationMinutes : Z }.
#[global] Instance UsageWindow_eq_dec : EqDecision UsageWindow.
Proof. solve_decision. Defined.

(** The first two arguments of most events are session and request. *)
Inductive event :=
  | TextChunk (sid rid content sourceItem : string)
  | ThinkingChunk (sid rid content : string)
  | ToolStart (sid rid toolUse name command : string)
  | ToolResult (sid rid toolUse output : string)
  | ToolEnd (sid rid toolUse : string)
  | TodoUpdate (sid rid : string) (todos : list TodoItem)
  | UsageReport (backendID source : string) (collectedAt : Z)
      (fiveHour sevenDay sevenDaySonnet : option UsageWindow)
  | GoalUpdate (sid : string) (goal : Goal)
  | GoalCleared (sid : string)
  | Done (sid rid : string)
  | Stopped (sid rid : string)
  | Error (commandType sid rid code message : string)
  | OtherEvent (encoding : string).
#[global] Instance event_eq_dec : EqDecision event.
Proof. solve_decision. Defined.

Definition goalSession (e : event) : option string :=
  match e with
  | GoalUpdate sid _ => Some sid
  | GoalCleared sid => Some sid
  | _ => None
  end.

Definition streamingContentEvent (e : event) : option (string * string) :=
  match e with
  | TextChunk sid rid _ _ => Some (sid, rid)
  | ThinkingChunk sid rid _ => Some (sid, rid)
  | ToolStart sid rid _ _ _ => Some (sid, rid)
  | ToolResult sid rid _ _ => Some (sid, rid)
  | ToolEnd sid rid _ => Some (sid, rid)
  | TodoUpdate sid rid _ => Some (sid, rid)
  | _ => None
  end.

Definition terminalEvent (e : event) : option (string * string) :=
  match e with
  | Done sid rid => Some (sid, rid)
  | Stopped sid rid => Some (sid, rid)
  | Error _ sid rid _ _ => Some (sid, rid)
  | _ => None
  end.

Definition removeAt (i : nat) (events : list event) : list event := delete i events.

(** The loops of this file walk from the newest event to the oldest and act
    on the first match: [lastIndex] is the position they stop at. *)
Fixpoint lastIndexFrom (p : event → bool) (i : nat) (events : list event) : option nat :=
  match i with
  | O => None
  | S n =>
      match events !! n with
      | Some e => if p e then Some n else lastIndexFrom p n events
      | None => lastIndexFrom p n events
      end
  end.
Definition lastIndex (p : event → bool) (events : list event) : option nat :=
  lastIndexFrom p (length events) events.

Definition removeLast (p : event → bool) (events : list event) : list event :=
  match lastIndex p events with
  | Some i => removeAt i events
  | None => events
  end.

Definition isGoalOf (sid : string) (e : event) : bool :=
  bool_decide (goalSession e = Some sid).
Definition isTextOf (sid rid : string) (e : event) : bool :=
  match e with
  | TextChunk s r _ _ => bool_decide (s = sid) && bool_decide (r = rid)
  | _ => false
  end.
Definition isThinkingOf (sid rid : string) (e : event) : bool :=
  match e with
  | ThinkingChunk s r _ => bool_decide (s = sid) && bool_decide (r = rid)
  | _ => false
  end.
Definition isTodoOf (sid rid : string) (e : event) : bool :=
  match e with
  | TodoUpdate s r _ => bool_decide (s = sid) && bool_decide (r = rid)
  | _ => false
  end.
Definition isUsageReport (e : event) : bool :=
  match e with UsageReport _ _ _ _ _ _ => true | _ => false end.
Definition isToolStartOf (sid toolUse : string) (e : event) : bool :=
  match e with
  | ToolStart s _ t _ _ => bool_decide (s = sid) && bool_decide (t = toolUse)
  | _ => false
  end.
Definition isToolOutputOf (sid toolUse : string) (e : event) : bool :=
  match e with
  | ToolResult s _ t _ => bool_decide (s = sid) && bool_decide (t = toolUse)
  | ToolEnd s _ t => bool_decide (s = sid) && bool_decide (t = toolUse)
  | _ => false
  end.

Definition takeTextContent (sid rid : string) (events : list event)
  : string * list event :=
  match lastIndex (isTextOf sid rid) events with
  | Some i =>
      (match events !! i with Some (TextChunk _ _ c _) => c | _ => "" end, removeAt i events)
  | None => ("", events)
  end.

Definition takeThinkingContent (sid rid : string) (events : list event)
  : string * list event :=
  match lastIndex (isThinkingOf sid rid) events with
  | Some i =>
      (match events !! i with Some (ThinkingChunk _ _ c) => c | _ => "" end, removeAt i events)
  | None => ("", events)
  end.

(** The loop of [removeToolEvents] from position [i-1] down. *)
Fixpoint removeToolEventsFrom (i : nat) (sid toolUse : string) (includeStart : bool)
    (events : list event) : list event :=
  match i with
  | O => events
  | S n =>
      match events !! n with
      | None => removeToolEventsFrom n sid toolUse includeStart events
      | Some e =>
          let stop := includeStart && isToolStartOf sid toolUse e in
          if stop || isToolOutputOf sid toolUse e
          then if negb includeStart || stop then removeAt n events
               else removeToolEventsFrom n sid toolUse includeStart (removeAt n events)
          else removeToolEventsFrom n sid toolUse includeStart events
      end
  end.
Definition removeToolEvents (sid toolUse : string) (includeStart : bool) (events : list event)
  : list event :=
  removeToolEventsFrom (length events) sid toolUse includeStart events.

Definition removeTodoUpdate (sid rid : string) (events : list event) : list event :=
  removeLast (isTodoOf sid rid) events.
Definition removeUsageReports (events : list event) : list event :=
  removeLast isUsageReport events.

Definition collapseTurnContent (sid rid : string) (events : list event) : list event :=
  filter (λ e, streamingContentEvent e ≠ Some (sid, rid)) events.

(** The replacement of the older goal transition of the session. *)
Definition replaceGoal (e : event) (events : list event) : list event :=
  match goalSession e with
  | Some sid => removeLast (isGoalOf sid) events
  | None => events
  end.

(** The switch on the event: the event to store, [None] when it is only
    applied, and the buffer it is stored into. *)
Definition mergeEvent (e : event) (events : list event) : option event * list event :=
  match e with
  | TextChunk sid rid c src =>
      let '(old, events) := takeTextContent sid rid events in
      (Some (TextChunk sid rid (old +:+ c) src), events)
  | ThinkingChunk sid rid c =>
      let '(old, events) := takeThinkingContent sid rid events in
      (Some (ThinkingChunk sid rid (old +:+ c)), events)
  | ToolResult sid _ tool _ => (Some e, removeToolEvents sid tool false events)
  | ToolEnd sid _ tool => (None, removeToolEvents sid tool true events)
  | TodoUpdate sid rid _ => (Some e, removeTodoUpdate sid rid events)
  | UsageReport _ _ _ _ _ _ => (Some e, removeUsageReports events)
  | _ => (Some e, events)
  end.

Definition collapseOnTerminal (e : event) (events : list event) : list event :=
  match terminalEvent e with
  | Some (sid, rid) =>
      if negb (str_empty sid) && negb (str_empty rid)
      then collapseTurnContent sid rid events else events
  | None => events
  end.

(** The drop of the oldest event at the cap, and the append. *)
Definition pushCapped (e : event) (events : list event) : list event :=
  (if offlineCap <=? Z.of_nat (length events) then tail events else events) ++ [e].

Definition Append (e : event) (events : list event) : list event :=
  match mergeEvent e (replaceGoal e events) with
  | (None, events) => events
  | (Some e, events) => pushCapped e (collapseOnTerminal e events)
  end.

(** [Drain] gives [nil] for an empty buffer, as for an empty result. *)
Definition Drain (events : list event) : list event * list event := (events, []).

Definition Peek (limit : Z) (events : list event) : list event :=
  if limit <=? 0 then [] else take (Z.to_nat limit) events.

Definition Commit (count : Z) (events : list event) : Z * list event :=
  if (count <=? 0) || bool_decide (events = []) then (0, events)
  else
    let count := Z.min count (Z.of_nat (length events)) in
    (count, drop (Z.to_nat count) events).

Definition Len (events : list event) : Z := Z.of_nat (length events).

Section Sized.
Context (encodedLen : event → option N).

Definition eventSize (e : event) : Z := Z.of_N (default 0%N (encodedLen e)).

(** The loop of [PeekSized]: [out] is the batch so far, [used] its bytes. *)
Fixpoint peekLoop (maxBytes used : Z) (out events : list event) : list event :=
  match events with
  | [] => out
  | e :: rest =>
      if negb (bool_decide (out = [])) && (maxBytes <? used + eventSize e) then out
      else peekLoop maxBytes (used + eventSize e) (out ++ [e]) rest
  end.

Definition PeekSized (limit maxBytes : Z) (events : list event) : list event :=
  if (limit <=? 0) || (maxBytes <=? 0) then []
  else peekLoop maxBytes 0 [] (take (Z.to_nat limit) events).
End Sized.
