(* ===== verification/OfflineProps.v ===== *)
(** * Correctness of the offline buffer

    The bounded size, the batches of a replay, and the equivalence of the
    compacted buffer with the raw event stream for the client that replays
    it. *)

From S2P Require Import Prelude OfflineBuffer.

(** ** What the removals keep *)

Lemma lastIndexFrom_spec p i events :
  (i ≤ length events)%nat →
  match lastIndexFrom p i events with
  | Some n => ∃ e, events !! n = Some e ∧ p e = true ∧ (n < i)%nat
  | None => Forall (λ e, p e = false) (take i events)
  end.
Proof.
  induction i as [|n IH]; intros Hi; simpl; [rewrite take_0; constructor|].
  destruct (lookup_lt_is_Some_2 events n) as [e He]; [lia|].
  rewrite He. destruct (p e) eqn:Ep.
  - exists e. split_and!; [done|done|lia].
  - specialize (IH ltac:(lia)). destruct (lastIndexFrom p n events) as [m|].
    + destruct IH as (e' & ? & ? & ?). exists e'. split_and!; [done|done|lia].
    + rewrite (take_S_r _ _ _ He), Forall_app. auto.
Qed.

Lemma lastIndex_cases p events :
  (Forall (λ e, p e = false) events ∧ lastIndex p events = None) ∨
  ∃ n e, lastIndex p events = Some n ∧ events !! n = Some e ∧ p e = true.
Proof.
  unfold lastIndex. pose proof (lastIndexFrom_spec p (length events) events (le_n _)) as H.
  destruct (lastIndexFrom p (length events) events) as [n|].
  - right. destruct H as (e & He & Hp & _). eauto.
  - left. by rewrite firstn_all in H.
Qed.

(** [removeLast] takes one matching event out, or finds none. *)
Lemma removeLast_cases p events :
  (Forall (λ e, p e = false) events ∧ removeLast p events = events) ∨
  ∃ l1 e l2, events = l1 ++ e :: l2 ∧ p e = true ∧ removeLast p events = l1 ++ l2.
Proof.
  unfold removeLast, removeAt.
  destruct (lastIndex_cases p events) as [[? ->]|(n & e & -> & He & Hp)]; [by left|right].
  exists (take n events), e, (drop (S n) events).
  by rewrite (take_drop_middle _ _ _ He), delete_take_drop.
Qed.

Lemma take_text_remove sid rid events :
  (takeTextContent sid rid events).2 = removeLast (isTextOf sid rid) events.
Proof. unfold takeTextContent, removeLast. by destruct (lastIndex _ _). Qed.
Lemma take_thinking_remove sid rid events :
  (takeThinkingContent sid rid events).2 = removeLast (isThinkingOf sid rid) events.
Proof. unfold takeThinkingContent, removeLast. by destruct (lastIndex _ _). Qed.

Lemma removeToolEventsFrom_sublist i sid tool start events :
  removeToolEventsFrom i sid tool start events `sublist_of` events.
Proof.
  revert events; induction i as [|n IH]; intros events; simpl; [done|].
  assert (removeAt n events `sublist_of` events) as Hd by apply sublist_delete.
  repeat (case_match; auto). etrans; [apply IH|done].
Qed.

Lemma removeLast_sublist p events : removeLast p events `sublist_of` events.
Proof. unfold removeLast. case_match; [apply sublist_delete|done]. Qed.

Lemma collapse_sublist sid rid events : collapseTurnContent sid rid events `sublist_of` events.
Proof. apply sublist_filter. Qed.

(** ** Events of one kind pass untouched by the removal of another kind *)
Section Views.
Context (q : event → bool).
Notation only := (filter (λ e, q e = true)).

Lemma only_drop e l1 l2 : q e = false → only (l1 ++ e :: l2) = only (l1 ++ l2).
Proof. intros H. by rewrite !filter_app, filter_cons_False by (rewrite H; done). Qed.

Lemma only_removeAt n events :
  (∀ e, events !! n = Some e → q e = false) → only (removeAt n events) = only events.
Proof.
  unfold removeAt. intros H. destruct (events !! n) as [e|] eqn:E.
  - rewrite delete_take_drop. transitivity (only (take n events ++ e :: drop (S n) events)).
    + symmetry. by apply only_drop, H.
    + by rewrite take_drop_middle.
  - rewrite delete_take_drop. apply lookup_ge_None in E.
    by rewrite take_ge, drop_ge, app_nil_r by lia.
Qed.

Lemma only_removeLast p events :
  (∀ e, p e = true → q e = false) → only (removeLast p events) = only events.
Proof.
  intros H. destruct (removeLast_cases p events) as [[_ ->]|(l1 & e & l2 & -> & Hp & ->)]; [done|].
  symmetry. by apply only_drop, H.
Qed.

Lemma only_removeTool i sid tool start events :
  (∀ e, isToolStartOf sid tool e || isToolOutputOf sid tool e = true → q e = false) →
  only (removeToolEventsFrom i sid tool start events) = only events.
Proof.
  intros H. revert events; induction i as [|n IH]; intros events; simpl; [done|].
  destruct (events !! n) as [e|] eqn:E; [|done].
  destruct (start && isToolStartOf sid tool e || isToolOutputOf sid tool e) eqn:Em; [|done].
  assert (only (removeAt n events) = only events) as Hr.
  { apply only_removeAt. intros e' He'. rewrite E in He'. injection He' as <-. apply H.
    destruct start, (isToolStartOf sid tool e), (isToolOutputOf sid tool e); done. }
  case_match; [done|]. by rewrite IH.
Qed.

Lemma only_collapse sid rid events :
  (∀ e, streamingContentEvent e = Some (sid, rid) → q e = false) →
  only (collapseTurnContent sid rid events) = only events.
Proof.
  intros H. unfold collapseTurnContent. induction events as [|e l IH]; [done|].
  destruct (decide (streamingContentEvent e = Some (sid, rid))) as [Hs|Hs].
  - rewrite (filter_cons_False (λ e, streamingContentEvent e ≠ _)) by tauto.
    rewrite IH, filter_cons_False by (rewrite H by done; done). done.
  - rewrite (filter_cons_True (λ e, streamingContentEvent e ≠ _)) by done.
    destruct (q e) eqn:Eq; [rewrite !filter_cons_True by done; by f_equal|].
    by rewrite !filter_cons_False by (rewrite Eq; done).
Qed.
End Views.

Lemma merge_sublist e events o l :
  mergeEvent e (replaceGoal e events) = (o, l) → l `sublist_of` events.
Proof.
  intros E. transitivity (replaceGoal e events).
  2: { unfold replaceGoal. case_match; auto using removeLast_sublist. }
  unfold mergeEvent, takeTextContent, takeThinkingContent, removeToolEvents, removeTodoUpdate,
    removeUsageReports, removeAt in E.
  repeat case_match; simplify_eq/=;
    auto using removeLast_sublist, sublist_delete, removeToolEventsFrom_sublist.
Qed.

Lemma terminal_sublist e events : collapseOnTerminal e events `sublist_of` events.
Proof. unfold collapseOnTerminal. repeat case_match; auto using collapse_sublist. Qed.

(** Below the cap an event is merged, collapses its turn and comes last. *)
Lemma Append_below_cap e events :
  Len events < offlineCap →
  Append e events =
    match mergeEvent e (replaceGoal e events) with
    | (None, l) => l
    | (Some e', l) => collapseOnTerminal e' l ++ [e']
    end.
Proof.
  intros Hlen. unfold Append.
  destruct (mergeEvent e (replaceGoal e events)) as [[e'|] l] eqn:E; [|done].
  apply merge_sublist, sublist_length in E.
  pose proof (sublist_length _ _ (terminal_sublist e' l)). unfold pushCapped, Len in *.
  by rewrite (proj2 (Z.leb_gt _ _)) by lia.
Qed.

(** ** A slot: the one thing a client shows of a stream of updates

    [isSlot] are the events that update the slot, [val] what they put in it,
    [merge] how it combines with what is there, [term] the events that clear
    it. *)
Section Slot.
Context {V : Type} (isSlot term : event → bool) (val : event → V) (merge : option V → V → V).
Context (disjoint : ∀ e, isSlot e = true → term e = false).
Context (merge_None : ∀ v, merge None v = v).

Definition slotStep (acc : option V) (e : event) : option V :=
  if isSlot e then Some (merge acc (val e)) else if term e then None else acc.
Definition slotView (events : list event) : option V := foldl slotStep None events.

Definition watched (e : event) : bool := isSlot e || term e.
Notation only := (filter (λ e, watched e = true)).

(** What a buffer holds of a slot: the events that cleared it, then at most
    one update. *)
Definition slotWf (events : list event) : Prop :=
  ∃ ts o, only events = ts ++ option_list o ∧
    Forall (λ e, term e = true) ts ∧ (∀ e, o = Some e → isSlot e = true).

Lemma foldl_watched acc events :
  foldl slotStep acc events = foldl slotStep acc (only events).
Proof.
  revert acc; induction events as [|e l IH]; intros acc; [done|]. simpl.
  destruct (watched e) eqn:E.
  - rewrite filter_cons_True by done. apply IH.
  - rewrite filter_cons_False by (rewrite E; done). rewrite IH. f_equal.
    unfold watched in E. apply orb_false_iff in E as [E1 E2]. unfold slotStep. by rewrite E1, E2.
Qed.

Lemma foldl_terms ts : Forall (λ e, term e = true) ts → foldl slotStep None ts = None.
Proof.
  induction 1 as [|e l He _ IH]; [done|]. simpl. unfold slotStep at 2. rewrite He.
  destruct (isSlot e) eqn:E; [by rewrite disjoint in He|done].
Qed.

Lemma view_wf ts o events :
  only events = ts ++ option_list o → Forall (λ e, term e = true) ts →
  (∀ e, o = Some e → isSlot e = true) →
  slotView events = val <$> o.
Proof.
  intros He Ht Ho. unfold slotView. rewrite foldl_watched, He, foldl_app, foldl_terms by done.
  destruct o as [e|]; [|done]. simpl. unfold slotStep.
  by rewrite (Ho e eq_refl), merge_None.
Qed.

(** The update [removeLast] finds is the one the slot shows. *)
Lemma slot_found events e :
  slotWf events → e ∈ events → isSlot e = true → slotView events = Some (val e).
Proof.
  intros (ts & o & Hon & Ht & Ho) Hin He. rewrite (view_wf _ _ _ Hon Ht Ho).
  assert (e ∈ only events) as Hin'.
  { apply list_elem_of_filter. unfold watched. by rewrite He. }
  rewrite Hon in Hin'. apply elem_of_app in Hin' as [Hts|Hop].
  - rewrite Forall_forall in Ht. apply Ht in Hts. by rewrite disjoint in Hts.
  - destruct o as [x|]; simpl in Hop; [|by apply elem_of_nil in Hop].
    by apply list_elem_of_singleton in Hop as ->.
Qed.

Lemma slot_none events :
  slotWf events → Forall (λ e, isSlot e = false) events → slotView events = None.
Proof.
  intros (ts & o & Hon & Ht & Ho) Hno. rewrite (view_wf _ _ _ Hon Ht Ho).
  destruct o as [x|]; [|done]. exfalso.
  assert (x ∈ only events) as Hin by (rewrite Hon; apply elem_of_app; right; by left).
  apply list_elem_of_filter in Hin as [_ Hin]. rewrite Forall_forall in Hno.
  specialize (Hno x Hin). by rewrite (Ho x eq_refl) in Hno.
Qed.

(** An event the slot does not watch. *)
Lemma slot_same events events' e :
  slotWf events → only events' = only events → watched e = false →
  slotWf events' ∧ slotView events' = slotStep (slotView events) e.
Proof.
  intros Hwf Hon He. split; [unfold slotWf; by rewrite Hon|].
  unfold slotView. rewrite (foldl_watched _ events'), Hon, <- foldl_watched.
  unfold watched in He. apply orb_false_iff in He as [E1 E2]. unfold slotStep at 2.
  by rewrite E1, E2.
Qed.

(** An update: the previous one is taken out and merged into it. *)
Lemma slot_update events e e' :
  slotWf events → isSlot e = true → isSlot e' = true →
  val e' = merge (slotView events) (val e) →
  slotWf (removeLast isSlot events ++ [e']) ∧
  slotView (removeLast isSlot events ++ [e']) = slotStep (slotView events) e.
Proof.
  intros (ts & o & Hon & Ht & Ho) He He' Hv.
  assert (only (removeLast isSlot events) = ts) as Hts.
  { destruct (removeLast_cases isSlot events) as [[Hno ->]|(l1 & x & l2 & Hev & Hx & ->)].
    - destruct o as [x|]; simpl in Hon; [|by rewrite app_nil_r in Hon]. exfalso.
      assert (x ∈ only events) as Hin by (rewrite Hon; apply elem_of_app; right; simpl; apply list_elem_of_singleton; done).
      apply list_elem_of_filter in Hin as [_ Hin]. rewrite Forall_forall in Hno.
      specialize (Hno x Hin). rewrite (Ho x eq_refl) in Hno. done.
    - subst events. rewrite filter_app, filter_cons_True in Hon by (unfold watched; by rewrite Hx).
      rewrite filter_app. destruct o as [y|]; simpl in Hon.
      + destruct (only l2) as [|z k] using rev_ind.
        * apply app_inj_tail in Hon as [-> _]. by rewrite app_nil_r.
        * exfalso. rewrite app_comm_cons, app_assoc in Hon. apply app_inj_tail in Hon as [Hon _].
          rewrite <- Hon, Forall_app, Forall_cons in Ht. destruct Ht as (_ & Hx' & _).
          by rewrite disjoint in Hx'.
      + exfalso. rewrite app_nil_r in Hon. rewrite <- Hon, Forall_app, Forall_cons in Ht.
        destruct Ht as (_ & Hx' & _). by rewrite disjoint in Hx'. }
  assert (only (removeLast isSlot events ++ [e']) = ts ++ option_list (Some e')) as Hnew.
  { rewrite filter_app, Hts, filter_cons_True by (unfold watched; by rewrite He'). done. }
  split; [exists ts, (Some e'); split_and!; [done|done|by intros ? [= <-]]|].
  rewrite (view_wf _ _ _ Hnew Ht) by (by intros ? [= <-]). simpl.
  unfold slotStep. by rewrite He, Hv.
Qed.

(** A terminal event: the updates before it were taken out. *)
Lemma slot_term events events' e :
  slotWf events → term e = true →
  only events' = filter (λ x, term x = true) (only events) →
  slotWf (events' ++ [e]) ∧ slotView (events' ++ [e]) = slotStep (slotView events) e.
Proof.
  intros (ts & o & Hon & Ht & Ho) He Hf.
  assert (isSlot e = false) as Hs by (destruct (isSlot e) eqn:E; [by rewrite disjoint in He|done]).
  assert (only (events' ++ [e]) = (ts ++ [e]) ++ option_list None) as Hnew.
  { rewrite filter_app, Hf, Hon, filter_app, filter_cons_True
      by (unfold watched; by rewrite He, orb_true_r).
    rewrite (filter_all _ ts) by done. simpl. rewrite app_nil_r. f_equal.
    destruct o as [x|]; simpl; [|by rewrite app_nil_r].
    rewrite filter_cons_False, app_nil_r; [done|]. rewrite disjoint by auto. done. }
  assert (Forall (λ e, term e = true) (ts ++ [e])) as Ht'.
  { apply Forall_app. auto using Forall_cons, Forall_nil. }
  split; [by exists (ts ++ [e]), None|].
  rewrite (view_wf _ _ _ Hnew Ht') by done. unfold slotStep. by rewrite Hs, He.
Qed.
End Slot.

(** ** What a client shows of a stream of events *)

(** The end of the turn [sid], [rid], when its events say which turn it is. *)
Definition clears (sid rid : string) (e : event) : bool :=
  bool_decide (terminalEvent e = Some (sid, rid)) && negb (str_empty sid) && negb (str_empty rid).

Definition chunkText (e : event) : string :=
  match e with TextChunk _ _ c _ | ThinkingChunk _ _ c => c | _ => "" end.
Definition joined (old : option string) (new : string) : string := default "" old +:+ new.
Definition replaced {V} (old : option V) (new : V) : V := new.
Definition never (e : event) : bool := false.

(** The text and the thinking of an unfinished turn: all its chunks joined. *)
Definition textView (sid rid : string) : list event → option string :=
  slotView (isTextOf sid rid) (clears sid rid) chunkText joined.
Definition thinkingView (sid rid : string) : list event → option string :=
  slotView (isThinkingOf sid rid) (clears sid rid) chunkText joined.
(** The last task list of an unfinished turn. *)
Definition todoView (sid rid : string) : list event → option (list TodoItem) :=
  slotView (isTodoOf sid rid) (clears sid rid)
    (λ e, match e with TodoUpdate _ _ todos => todos | _ => [] end) replaced.
(** The last goal transition of a session, and the last usage report. *)
Definition goalView (sid : string) : list event → option event :=
  slotView (isGoalOf sid) never id replaced.
Definition usageView : list event → option event :=
  slotView isUsageReport never id replaced.
(** The events a client must see every one of. *)
Definition reliable (e : event) : bool :=
  match e with
  | Done _ _ | Stopped _ _ | Error _ _ _ _ _ | OtherEvent _ => true
  | _ => false
  end.

Definition buffered (evs : list event) : list event := foldl (λ b e, Append e b) [] evs.

(** ** One event into the buffer, for each slot *)

Ltac event_cases :=
  intros []; unfold watched, clears, never, isGoalOf; simpl; intros; simplify_eq; bool_facts; subst;
  repeat match goal with
  | |- context [bool_decide ?P] => destruct (bool_decide_reflect P)
  end; simplify_eq/=; try done; try congruence.

Lemma take_text_val sid rid events e l :
  takeTextContent sid rid events = (e, l) → l = removeLast (isTextOf sid rid) events.
Proof. intros E. by rewrite <- take_text_remove, E. Qed.
Lemma take_thinking_val sid rid events e l :
  takeThinkingContent sid rid events = (e, l) → l = removeLast (isThinkingOf sid rid) events.
Proof. intros E. by rewrite <- take_thinking_remove, E. Qed.

(** The end of another turn, for the slots of this one. *)
Lemma other_turn (isSlot : event → bool) sid rid b e :
  (∀ x, isSlot x = true → streamingContentEvent x = Some (sid, rid)) →
  clears sid rid e = false →
  filter (λ x, watched isSlot (clears sid rid) x = true) (collapseOnTerminal e b) =
  filter (λ x, watched isSlot (clears sid rid) x = true) b.
Proof.
  intros Hs Hc. unfold collapseOnTerminal.
  destruct (terminalEvent e) as [[s r]|] eqn:Ee; [|done].
  destruct (negb (str_empty s) && negb (str_empty r)) eqn:En; [|done].
  apply only_collapse. intros x Hx. unfold watched. apply orb_false_iff. split.
  - destruct (isSlot x) eqn:Ex; [|done]. apply Hs in Ex. rewrite Hx in Ex. simplify_eq.
    unfold clears in Hc. rewrite Ee, bool_decide_eq_true_2, <- andb_assoc, En in Hc; done.
  - by destruct x.
Qed.

Lemma any_turn (q : event → bool) b e :
  (∀ x, q x = true → streamingContentEvent x = None) →
  filter (λ x, q x = true) (collapseOnTerminal e b) = filter (λ x, q x = true) b.
Proof.
  intros Hq. unfold collapseOnTerminal. repeat case_match; try done.
  apply only_collapse. intros x Hx. destruct (q x) eqn:E; [|done].
  by rewrite (Hq x E) in Hx.
Qed.

(** [only] of the buffer an event leaves, when the slot does not watch it. *)
Ltac untouched :=
  simpl; unfold replaceGoal, removeTodoUpdate, removeUsageReports,
    removeToolEvents; simpl;
  repeat case_match; simplify_eq/=;
  repeat match goal with
  | H : takeTextContent _ _ _ = (_, _) |- _ => apply take_text_val in H; subst
  | H : takeThinkingContent _ _ _ = (_, _) |- _ => apply take_thinking_val in H; subst
  end;
  repeat first
    [ rewrite other_turn by (assumption || auto)
    | rewrite any_turn by event_cases
    | rewrite filter_app
    | rewrite filter_cons_False by (unfold watched;
        match goal with H : clears _ _ _ = false |- _ => rewrite H end; done)
    | rewrite filter_cons_False by (unfold watched, clears, never, isGoalOf; simpl;
        repeat case_bool_decide; simplify_eq/=; first [done|congruence|tauto])
    | rewrite filter_nil
    | rewrite app_nil_r
    | rewrite only_removeLast by event_cases
    | rewrite only_removeTool by event_cases
    | rewrite only_collapse by event_cases ]; try done.

Lemma goal_step sid b e :
  Len b < offlineCap → slotWf (isGoalOf sid) never b →
  slotWf (isGoalOf sid) never (Append e b) ∧
  goalView sid (Append e b) = slotStep (isGoalOf sid) never id replaced (goalView sid b) e.
Proof.
  intros Hlen Hwf. rewrite Append_below_cap by done. unfold goalView.
  destruct (isGoalOf sid e) eqn:Eg.
  - destruct e; try (by unfold isGoalOf in Eg; simpl in Eg; bool_facts); simpl; unfold replaceGoal; simpl;
      unfold isGoalOf in Eg; simpl in Eg; bool_facts; simplify_eq;
      (apply slot_update; [done|done|done| | |done]; apply bool_decide_eq_true_2; done).
  - destruct e; (apply slot_same; [done| |unfold watched; by rewrite Eg]);
      unfold isGoalOf in Eg; simpl in Eg; bool_facts; untouched.
Qed.

Lemma usage_step b e :
  Len b < offlineCap → slotWf isUsageReport never b →
  slotWf isUsageReport never (Append e b) ∧
  usageView (Append e b) = slotStep isUsageReport never id replaced (usageView b) e.
Proof.
  intros Hlen Hwf. rewrite Append_below_cap by done. unfold usageView.
  destruct (isUsageReport e) eqn:Eg.
  - destruct e; try done; simpl. by apply slot_update.
  - destruct e; try done; (apply slot_same; [done| |done]); untouched.
Qed.

Lemma text_not_clears sid rid e : isTextOf sid rid e = true → clears sid rid e = false.
Proof. by destruct e. Qed.
Lemma thinking_not_clears sid rid e : isThinkingOf sid rid e = true → clears sid rid e = false.
Proof. by destruct e. Qed.
Lemma todo_not_clears sid rid e : isTodoOf sid rid e = true → clears sid rid e = false.
Proof. by destruct e. Qed.
Lemma joined_None v : joined None v = v.
Proof. done. Qed.

Lemma take_text_view sid rid b :
  slotWf (isTextOf sid rid) (clears sid rid) b →
  takeTextContent sid rid b = (default "" (textView sid rid b), removeLast (isTextOf sid rid) b).
Proof.
  intros Hwf. rewrite <- take_text_remove. unfold takeTextContent, textView.
  destruct (lastIndex_cases (isTextOf sid rid) b) as [[Hno ->]|(n & e & -> & He & Hp)].
  - erewrite slot_none; eauto using text_not_clears.
  - rewrite He. erewrite slot_found; eauto using text_not_clears, list_elem_of_lookup_2.
    by destruct e.
Qed.
Lemma take_thinking_view sid rid b :
  slotWf (isThinkingOf sid rid) (clears sid rid) b →
  takeThinkingContent sid rid b =
    (default "" (thinkingView sid rid b), removeLast (isThinkingOf sid rid) b).
Proof.
  intros Hwf. rewrite <- take_thinking_remove. unfold takeThinkingContent, thinkingView.
  destruct (lastIndex_cases (isThinkingOf sid rid) b) as [[Hno ->]|(n & e & -> & He & Hp)].
  - erewrite slot_none; eauto using thinking_not_clears.
  - rewrite He. erewrite slot_found; eauto using thinking_not_clears, list_elem_of_lookup_2.
    by destruct e.
Qed.

(** The collapse of a turn leaves the terminal events of its slots. *)
Lemma collapse_terms (isSlot : event → bool) sid rid b :
  (∀ e, isSlot e = true → streamingContentEvent e = Some (sid, rid)) →
  (∀ e, clears sid rid e = true → streamingContentEvent e ≠ Some (sid, rid)) →
  filter (λ e, watched isSlot (clears sid rid) e = true) (collapseTurnContent sid rid b) =
  filter (λ e, clears sid rid e = true)
    (filter (λ e, watched isSlot (clears sid rid) e = true) b).
Proof.
  intros H1 H2. unfold collapseTurnContent. rewrite !list_filter_filter.
  apply list_filter_iff. intros e. unfold watched.
  destruct (clears sid rid e) eqn:Ec; [split; intros [? ?]; [by rewrite orb_true_r|]|].
  - split; [by rewrite orb_true_r|by apply H2].
  - rewrite orb_false_r. split; [|by intros [? ?]].
    intros [Hs Hn]. by apply H1 in Hs.
Qed.

Lemma clears_collapse sid rid e b :
  clears sid rid e = true → collapseOnTerminal e b = collapseTurnContent sid rid b.
Proof.
  unfold clears, collapseOnTerminal. intros H. bool_facts.
  match goal with H : terminalEvent e = _ |- _ => rewrite H end.
  unfold str_empty. by rewrite !bool_decide_eq_false_2.
Qed.

Lemma clears_terminal sid rid e :
  clears sid rid e = true → ∀ b, mergeEvent e (replaceGoal e b) = (Some e, b).
Proof. by destruct e. Qed.

(** A terminal event of the turn, for the slots of the turn. *)
Lemma turn_slot_cleared {V} (isSlot : event → bool) (val : event → V) merge sid rid b e :
  (∀ x, isSlot x = true → clears sid rid x = false) →
  (∀ v, merge None v = v) →
  (∀ x, isSlot x = true → streamingContentEvent x = Some (sid, rid)) →
  Len b < offlineCap → slotWf isSlot (clears sid rid) b → clears sid rid e = true →
  slotWf isSlot (clears sid rid) (Append e b) ∧
  slotView isSlot (clears sid rid) val merge (Append e b) =
    slotStep isSlot (clears sid rid) val merge (slotView isSlot (clears sid rid) val merge b) e.
Proof.
  intros Hd Hm Hs Hlen Hwf He.
  rewrite Append_below_cap, (clears_terminal _ _ _ He), (clears_collapse _ _ _ _ He) by done.
  apply slot_term; [done|done|done|done|]. apply collapse_terms; [done|].
  intros x Hx. by destruct x.
Qed.

Lemma isTextOf_true sid rid e :
  isTextOf sid rid e = true → ∃ c src, e = TextChunk sid rid c src.
Proof. destruct e; simpl; intros; try done. bool_facts. subst. eauto. Qed.
Lemma isThinkingOf_true sid rid e :
  isThinkingOf sid rid e = true → ∃ c, e = ThinkingChunk sid rid c.
Proof. destruct e; simpl; intros; try done. bool_facts. subst. eauto. Qed.
Lemma isTodoOf_true sid rid e :
  isTodoOf sid rid e = true → ∃ l, e = TodoUpdate sid rid l.
Proof. destruct e; simpl; intros; try done. bool_facts. subst. eauto. Qed.

Lemma isTextOf_turn sid rid e :
  isTextOf sid rid e = true → streamingContentEvent e = Some (sid, rid).
Proof. by intros (? & ? & ->)%isTextOf_true. Qed.
Lemma isThinkingOf_turn sid rid e :
  isThinkingOf sid rid e = true → streamingContentEvent e = Some (sid, rid).
Proof. by intros (? & ->)%isThinkingOf_true. Qed.
Lemma isTodoOf_turn sid rid e :
  isTodoOf sid rid e = true → streamingContentEvent e = Some (sid, rid).
Proof. by intros (? & ->)%isTodoOf_true. Qed.

Lemma same_key (sid rid : string) : bool_decide (sid = sid) && bool_decide (rid = rid) = true.
Proof. by rewrite !bool_decide_eq_true_2. Qed.

Lemma text_step sid rid b e :
  Len b < offlineCap → slotWf (isTextOf sid rid) (clears sid rid) b →
  slotWf (isTextOf sid rid) (clears sid rid) (Append e b) ∧
  textView sid rid (Append e b) =
    slotStep (isTextOf sid rid) (clears sid rid) chunkText joined (textView sid rid b) e.
Proof.
  intros Hlen Hwf. destruct (clears sid rid e) eqn:Ec.
  { apply turn_slot_cleared; auto using text_not_clears.
    apply isTextOf_turn. }
  unfold textView. rewrite Append_below_cap by done. destruct (isTextOf sid rid e) eqn:Es.
  - apply isTextOf_true in Es as (c & src & ->). simpl. rewrite take_text_view by done. simpl.
    apply slot_update; [apply text_not_clears|done|done|apply same_key|apply same_key|done].
  - pose proof (isTextOf_turn sid rid) as Ht.
    destruct e; (apply slot_same; [done| |unfold watched; by rewrite Es, Ec]); simpl in Es; untouched.
Qed.

Lemma thinking_step sid rid b e :
  Len b < offlineCap → slotWf (isThinkingOf sid rid) (clears sid rid) b →
  slotWf (isThinkingOf sid rid) (clears sid rid) (Append e b) ∧
  thinkingView sid rid (Append e b) =
    slotStep (isThinkingOf sid rid) (clears sid rid) chunkText joined (thinkingView sid rid b) e.
Proof.
  intros Hlen Hwf. destruct (clears sid rid e) eqn:Ec.
  { apply turn_slot_cleared; auto using thinking_not_clears. apply isThinkingOf_turn. }
  unfold thinkingView. rewrite Append_below_cap by done. destruct (isThinkingOf sid rid e) eqn:Es.
  - apply isThinkingOf_true in Es as (c & ->). simpl. rewrite take_thinking_view by done. simpl.
    apply slot_update; [apply thinking_not_clears|done|done|apply same_key|apply same_key|done].
  - pose proof (isThinkingOf_turn sid rid) as Ht.
    destruct e; (apply slot_same; [done| |unfold watched; by rewrite Es, Ec]); simpl in Es; untouched.
Qed.

Lemma todo_step sid rid b e :
  Len b < offlineCap → slotWf (isTodoOf sid rid) (clears sid rid) b →
  slotWf (isTodoOf sid rid) (clears sid rid) (Append e b) ∧
  todoView sid rid (Append e b) =
    slotStep (isTodoOf sid rid) (clears sid rid)
      (λ e, match e with TodoUpdate _ _ todos => todos | _ => [] end) replaced
      (todoView sid rid b) e.
Proof.
  intros Hlen Hwf. destruct (clears sid rid e) eqn:Ec.
  { apply turn_slot_cleared; auto using todo_not_clears. apply isTodoOf_turn. }
  unfold todoView. rewrite Append_below_cap by done. destruct (isTodoOf sid rid e) eqn:Es.
  - apply isTodoOf_true in Es as (c & ->). simpl.
    apply slot_update; [apply todo_not_clears|done|done|apply same_key|apply same_key|done].
  - pose proof (isTodoOf_turn sid rid) as Ht.
    destruct e; (apply slot_same; [done| |unfold watched; by rewrite Es, Ec]); simpl in Es; untouched.
Qed.

Lemma reliable_step b e :
  Len b < offlineCap →
  filter (λ x, reliable x = true) (Append e b) =
  filter (λ x, reliable x = true) b ++ filter (λ x, reliable x = true) [e].
Proof.
  intros Hlen. rewrite Append_below_cap by done. destruct e; untouched; simpl; by rewrite ?app_nil_r.
Qed.

(** ** The size of the buffer *)
Lemma Append_len e b :
  Len (Append e b) ≤ Len b + 1 ∧ (Len b ≤ offlineCap → Len (Append e b) ≤ offlineCap).
Proof.
  unfold Append. destruct (mergeEvent e (replaceGoal e b)) as [[e'|] l] eqn:E;
    apply merge_sublist, sublist_length in E; [|unfold Len; lia].
  pose proof (sublist_length _ _ (terminal_sublist e' l)).
  unfold pushCapped, Len. rewrite length_app. simpl.
  destruct (offlineCap <=? _) eqn:Ec; bool_facts; [|lia].
  destruct (collapseOnTerminal e' l) eqn:El; simpl in *; unfold offlineCap in *; lia.
Qed.

Lemma buffered_snoc evs e : buffered (evs ++ [e]) = Append e (buffered evs).
Proof. unfold buffered. by rewrite foldl_app. Qed.

Lemma buffered_len evs : Len (buffered evs) ≤ Len evs ∧ Len (buffered evs) ≤ offlineCap.
Proof.
  induction evs as [|e evs [IH1 IH2]] using rev_ind; [by vm_compute|].
  rewrite buffered_snoc. pose proof (Append_len e (buffered evs)) as [? H].
  specialize (H IH2). split; [|done]. unfold Len in *. rewrite length_app. simpl. lia.
Qed.

(** A slot all of whose steps are followed by the buffer. *)
Lemma slot_buffered {V} (isSlot term : event → bool) (val : event → V) merge evs :
  (∀ b e, Len b < offlineCap → slotWf isSlot term b →
     slotWf isSlot term (Append e b) ∧
     slotView isSlot term val merge (Append e b) =
       slotStep isSlot term val merge (slotView isSlot term val merge b) e) →
  Len evs ≤ offlineCap →
  slotWf isSlot term (buffered evs) ∧
  slotView isSlot term val merge (buffered evs) = slotView isSlot term val merge evs.
Proof.
  intros Hstep. induction evs as [|e evs IH] using rev_ind; intros Hlen.
  { split; [|done]. by exists [], None. }
  unfold Len in Hlen. rewrite length_app in Hlen. simpl in Hlen.
  destruct IH as [Hwf Hv]; [unfold Len; lia|]. rewrite buffered_snoc.
  destruct (buffered_len evs) as [Hb _].
  destruct (Hstep (buffered evs) e) as [Hwf' Hv']; [unfold Len in *; lia|done|].
  split; [done|]. rewrite Hv', Hv. unfold slotView. by rewrite foldl_app.
Qed.

Lemma reliable_buffered evs :
  Len evs ≤ offlineCap →
  filter (λ x, reliable x = true) (buffered evs) = filter (λ x, reliable x = true) evs.
Proof.
  induction evs as [|e evs IH] using rev_ind; intros Hlen; [done|].
  unfold Len in Hlen. rewrite length_app in Hlen. simpl in Hlen.
  destruct (buffered_len evs) as [Hb _].
  rewrite buffered_snoc, reliable_step, filter_app, IH; [done|unfold Len; lia|unfold Len in *; lia].
Qed.


(** However many events arrive, the buffer holds at most [offlineCap]. *)
Theorem buffer_bounded evs : Len (buffered evs) ≤ offlineCap.
Proof. apply buffered_len. Qed.

(** ** Batches *)
Section Batches.
Context (encodedLen : event → option N).

Definition totalSize (events : list event) : Z :=
  foldr (λ e n, eventSize encodedLen e + n) 0 events.

Lemma eventSize_nonneg e : 0 ≤ eventSize encodedLen e.
Proof. unfold eventSize. lia. Qed.

Lemma totalSize_app l1 l2 : totalSize (l1 ++ l2) = totalSize l1 + totalSize l2.
Proof. induction l1; simpl; lia. Qed.

Lemma totalSize_nonneg l : 0 ≤ totalSize l.
Proof. induction l as [|e l IH]; simpl; [lia|]. pose proof (eventSize_nonneg e). lia. Qed.

Lemma peekLoop_spec maxBytes out events :
  (out = [] ∨ length out = 1%nat ∨ totalSize out ≤ maxBytes) →
  ∃ k, (k ≤ length events)%nat ∧
    peekLoop encodedLen maxBytes (totalSize out) out events = out ++ take k events ∧
    (out = [] → events ≠ [] → 1 ≤ k)%nat ∧
    ((length (out ++ take k events) ≤ 1)%nat ∨ totalSize (out ++ take k events) ≤ maxBytes).
Proof.
  revert out; induction events as [|e l IH]; intros out Hout; simpl.
  { exists 0%nat. rewrite app_nil_r. split_and!; [lia|done|done|].
    destruct Hout as [->|[?|?]]; simpl; [left|left|right]; lia. }
  destruct (negb (bool_decide (out = [])) && (maxBytes <? totalSize out + eventSize encodedLen e))
    eqn:E.
  { exists 0%nat. bool_facts. rewrite take_0, app_nil_r. split_and!; [lia|done|done|].
    destruct Hout as [->|[?|?]]; [done|left; lia|by right]. }
  replace (totalSize out + eventSize encodedLen e) with (totalSize (out ++ [e]))
    by (rewrite totalSize_app; simpl; lia).
  destruct (IH (out ++ [e])) as (k & Hk & -> & _ & Hs).
  { right. destruct (decide (out = [])) as [->|Hne]; [by left|right].
    rewrite totalSize_app. simpl. apply andb_false_iff in E as [E|E]; bool_facts; [done|lia]. }
  exists (S k). rewrite <- app_assoc in *. split_and!; [lia|done|lia|done].
Qed.

(** A batch is a prefix of the buffer, not empty unless the buffer is, and
    within both bounds, but for one event that is too large by itself. *)
Lemma PeekSized_prefix limit maxBytes events :
  0 < limit → 0 < maxBytes →
  ∃ k, PeekSized encodedLen limit maxBytes events = take k events ∧
    (k ≤ length events)%nat ∧ Z.of_nat k ≤ limit ∧ (events ≠ [] → 1 ≤ k)%nat ∧
    ((k ≤ 1)%nat ∨ totalSize (take k events) ≤ maxBytes).
Proof.
  intros Hl Hm. unfold PeekSized. rewrite !(proj2 (Z.leb_gt _ _)) by lia. simpl.
  destruct (peekLoop_spec maxBytes [] (take (Z.to_nat limit) events)) as (k & Hk & Heq & Hne & Hs);
    [by left|].
  change (totalSize []) with 0 in Heq. rewrite Heq. simpl in *.
  rewrite take_take in *. rewrite length_take in *.
  exists (k `min` Z.to_nat limit)%nat. split_and!; [done|lia|lia| |].
  - intros He. assert (take (Z.to_nat limit) events ≠ []) as Ht.
    { destruct events; [done|]. destruct (Z.to_nat limit) eqn:E; [lia|done]. }
    specialize (Hne eq_refl Ht). lia.
  - destruct Hs as [Hs|Hs]; [left; lia|by right].
Qed.

Lemma Commit_drop n events :
  (n ≤ length events)%nat → Commit (Z.of_nat n) events = (Z.of_nat n, drop n events).
Proof.
  intros Hn. unfold Commit. destruct n as [|n]; [by rewrite drop_0|].
  destruct events as [|e l]; [simpl in Hn; lia|].
  destruct (Z.of_nat (S n) <=? 0) eqn:E; bool_facts; [lia|].
  case_bool_decide; [done|]. rewrite orb_false_r, Z.min_l by lia. by rewrite Nat2Z.id.
Qed.

(** The batches a client is sent when it acknowledges each in turn. *)
Fixpoint batches (fuel : nat) (limit maxBytes : Z) (events : list event) : list (list event) :=
  match fuel with
  | O => []
  | S n =>
      let batch := PeekSized encodedLen limit maxBytes events in
      if bool_decide (batch = []) then []
      else batch :: batches n limit maxBytes (Commit (Len batch) events).2
  end.

(** C39: Peeking and committing in turn sends every buffered event once and in
    order, in as many rounds as there are events at most. *)
Theorem batches_deliver_all limit maxBytes events :
  0 < limit → 0 < maxBytes →
  concat (batches (length events) limit maxBytes events) = events.
Proof.
  intros Hl Hm. remember (length events) as n eqn:Hn.
  assert (length events ≤ n)%nat as Hle by lia. clear Hn.
  revert events Hle; induction n as [|n IH]; intros events Hle; simpl.
  { destruct events; [done|simpl in Hle; lia]. }
  destruct (PeekSized_prefix limit maxBytes events Hl Hm) as (k & Hp & Hk & _ & Hne & _).
  rewrite Hp. case_bool_decide as He.
  - destruct events as [|e l]; [done|]. specialize (Hne ltac:(done)).
    destruct k; [lia|done].
  - simpl. unfold Len. rewrite length_take, Nat.min_l, Commit_drop by lia. simpl.
    rewrite IH, take_drop; [done|]. rewrite length_drop.
    destruct k; [by rewrite take_0 in He|lia].
Qed.
End Batches.

(** A turn that ends while another one streams. *)
Definition sampleStream : list event :=
  [TextChunk "s" "r1" "Hel" ""; ToolStart "s" "r1" "t" "sh" "ls"; TextChunk "s" "r1" "lo" "";
   TextChunk "s" "r2" "wor" ""; Done "s" "r1"; GoalCleared "s"; TextChunk "s" "r2" "ld" "";
   OtherEvent "question"].

Example sample_buffered :
  buffered sampleStream =
    [Done "s" "r1"; GoalCleared "s"; TextChunk "s" "r2" "world" ""; OtherEvent "question"].
Proof. vm_compute; reflexivity. Qed.


Definition tenBytes (e : event) : option N := Some 10%N.

Lemma batches_deliver_all_witness :
  batches tenBytes 4 2 25 (buffered sampleStream) =
    [take 2 (buffered sampleStream); drop 2 (buffered sampleStream)] ∧
  concat (batches tenBytes 4 2 25 (buffered sampleStream)) = buffered sampleStream.
Proof.
  split; [vm_compute; reflexivity|].
  exact (batches_deliver_all tenBytes 2 25 (buffered sampleStream) eq_refl eq_refl).
Defined.
