(* ===== verification/Replay.v ===== *)
(** * Replay of the offline buffer over connections

    [src/internal/core/replay.go], the registration of clients and the fan-out
    of [Emit] in [hub.go], the replacement of a device's client in [storm.go]
    and the send queue of [client.go].

    The hub is shared by the readers of all connections, the goroutines of
    [Emit], the legacy replayers and the retry timers.  A handler is split at
    the points where another goroutine can run: [Emit] between counting the
    clients and appending, an acknowledgement between giving the lease back
    and committing, a legacy replayer between peeking, sending and committing.
    An [action] is one such piece.  Which way a Go [select] goes when a full
    teardown leaves two cases ready is a coin of the action, and so are random
    identifiers.  The frame filter of shared rooms is a parameter. *)

From S2P Require Import Prelude OfflineBuffer.

Definition replayBatchSize : Z := 64.
Definition replayBatchMaxBytes : Z := 256 * 1024.
Definition sendQueue : nat := 1024.

(** Client identities are the addresses of the [Client] structs. *)
Definition cid := nat.

Inductive Frame :=
  | ReplayBatch (batchID : string) (events : list event) (remaining : Z)
  | EventFrame (e : event).
#[global] Instance Frame_eq_dec : EqDecision Frame.
Proof. solve_decision. Defined.

(** [send] is the channel of the client, [written] what its write pump has
    put on the wire, [quit] whether its quit channel is closed. *)
Record Client := mkClient {
  deviceID : string;
  supportsReplayAck : bool;
  send : list Frame;
  written : list Frame;
  quit : bool }.
#[export] Instance Client_eta : Eta Client := λ c,
  mkClient (deviceID c) (supportsReplayAck c) (send c) (written c) (quit c).

Record replayLease := mkLease {
  owner : cid;
  batchID : string;
  lEvents : list event;
  lCount : Z }.
#[global] Instance replayLease_eq_dec : EqDecision replayLease.
Proof. solve_decision. Defined.

(** Where a legacy replayer is: at the top of its loop, about to send the
    event it peeked, about to commit, or returned. *)
Inductive LegacyAt := AtTop | Holding (e : event) | Sent | Returned.
#[global] Instance LegacyAt_eq_dec : EqDecision LegacyAt.
Proof. solve_decision. Defined.

(** [emitting] are the events whose [Emit] saw no client and has not appended
    yet, [acking] the leases given back whose events are not committed yet. *)
Record Hub := mkHub {
  offline : list event;
  conns : gmap cid Client;
  clients : gset cid;
  latestByDevice : gmap string cid;
  lease : option replayLease;
  emitting : list event;
  acking : list replayLease;
  legacy : list (cid * LegacyAt) }.
#[export] Instance Hub_eta : Eta Hub := λ h,
  mkHub (offline h) (conns h) (clients h) (latestByDevice h) (lease h) (emitting h) (acking h)
    (legacy h).

Definition newHub : Hub := mkHub [] ∅ ∅ ∅ None [] [] [].

Section Replay.
Context (encodedLen : event → option N).
Context (frameAllowed : cid → Frame → bool).

(** A batch marshals only when each of its events does. *)
Definition marshals (f : Frame) : bool :=
  match f with
  | ReplayBatch _ events _ => forallb (λ e, bool_decide (is_Some (encodedLen e))) events
  | EventFrame e => bool_decide (is_Some (encodedLen e))
  end.

Definition setClient (c : cid) (k : Client) (h : Hub) : Hub := h <| conns := <[c:=k]> (conns h) |>.

Definition shutdown (c : cid) (h : Hub) : Hub :=
  match conns h !! c with
  | Some k => setClient c (k <| quit := true |>) h
  | None => h
  end.

(** [enqueue]: with room and a closed quit channel Go picks a case at random
    ([coin]); a full channel with quit open drops the client. *)
Definition enqueue (coin : bool) (f : Frame) (c : cid) (h : Hub) : Hub :=
  match conns h !! c with
  | None => h
  | Some k =>
      if (length (send k) <? sendQueue)%nat
      then if quit k && coin then h else setClient c (k <| send := send k ++ [f] |>) h
      else if quit k then h else shutdown c h
  end.

Definition enqueueEvent (coin : bool) (f : Frame) (c : cid) (h : Hub) : Hub :=
  if marshals f && frameAllowed c f then enqueue coin f c h else h.

Definition quitClosed (c : cid) (h : Hub) : bool :=
  match conns h !! c with Some k => quit k | None => true end.

Definition isCurrent (c : cid) (h : Hub) : bool :=
  match conns h !! c with
  | Some k => str_empty (deviceID k) || bool_decide (latestByDevice h !! deviceID k = Some c)
  | None => false
  end.

Definition live (c : cid) (h : Hub) : bool := negb (quitClosed c h) && isCurrent c h.

Definition releaseReplayLease (c : cid) (h : Hub) : Hub :=
  match lease h with
  | Some l => if bool_decide (owner l = c) then h <| lease := None |> else h
  | None => h
  end.

(** The lease a reliable client finds: its own or a live owner's blocks it,
    one whose owner is gone is dropped. *)
Definition leaseBlocks (c : cid) (h : Hub) : bool :=
  match lease h with
  | Some l => bool_decide (owner l = c) || negb (quitClosed (owner l) h)
  | None => false
  end.

Definition startOfflineReplay (coin : bool) (random : string) (c : cid) (h : Hub) : Hub :=
  match conns h !! c with
  | None => h
  | Some k =>
      if negb (supportsReplayAck k) then
        match lease h with
        | Some _ => h
        | None =>
            h <| lease := Some (mkLease c ("legacy-" +:+ random) [] 0) |>
              <| legacy := legacy h ++ [(c, AtTop)] |>
        end
      else if leaseBlocks c h then h
      else
        let h := h <| lease := None |> in
        let events := PeekSized encodedLen replayBatchSize replayBatchMaxBytes (offline h) in
        if bool_decide (events = []) then h
        else
          let l := mkLease c random events (Len events) in
          let remaining := Len (offline h) - Len events in
          enqueueEvent coin (ReplayBatch random events remaining) c (h <| lease := Some l |>)
  end.

(** The timer of a batch; it sends the batch again. *)
Definition retryOfflineReplay (coin : bool) (c : cid) (batch : string) (h : Hub) : Hub :=
  match lease h with
  | Some l =>
      if negb (bool_decide (owner l = c)) || negb (bool_decide (batchID l = batch)) then h
      else if quitClosed c h then h <| lease := None |>
      else enqueueEvent coin
             (ReplayBatch batch (lEvents l) (Z.max 0 (Len (offline h) - lCount l))) c h
  | None => h
  end.

(** [ackOfflineReplay] up to the release of the mutex. *)
Definition ackLease (c : cid) (batch : string) (h : Hub) : Hub :=
  match lease h with
  | Some l =>
      if str_empty batch || has_prefix "attachment-" batch ||
         negb (bool_decide (owner l = c)) || negb (bool_decide (batchID l = batch))
      then h
      else h <| lease := None |> <| acking := acking h ++ [l] |>
  | None => h
  end.

(** Its rest, for the [i]-th lease given back: the commit and the next batch. *)
Definition ackCommit (coin : bool) (random : string) (i : nat) (h : Hub) : Hub :=
  match acking h !! i with
  | Some l =>
      startOfflineReplay coin random (owner l)
        (h <| offline := (Commit (lCount l) (offline h)).2 |> <| acking := delete i (acking h) |>)
  | None => h
  end.

Definition addClient (c : cid) (k : Client) (h : Hub) : Hub :=
  setClient c k h <| clients := {[c]} ∪ clients h |>.

(** The device's previous client is replaced and torn down. *)
Definition registerLatest (c : cid) (h : Hub) : Hub :=
  match conns h !! c with
  | None => h
  | Some k =>
      if str_empty (deviceID k) then h
      else
        let prev := latestByDevice h !! deviceID k in
        let h := h <| latestByDevice := <[deviceID k := c]> (latestByDevice h) |> in
        match prev with
        | Some p => if bool_decide (p = c) then h else shutdown p (releaseReplayLease p h)
        | None => h
        end
  end.

(** The end of a connection: [removeClient], then the shutdown. *)
Definition removeClient (c : cid) (h : Hub) : Hub :=
  let h := h <| clients := clients h ∖ {[c]} |> in
  let h :=
    match conns h !! c with
    | Some k =>
        if negb (str_empty (deviceID k)) && bool_decide (latestByDevice h !! deviceID k = Some c)
        then h <| latestByDevice := delete (deviceID k) (latestByDevice h) |> else h
    | None => h
    end in
  releaseReplayLease c h.

(** [Emit] up to the decision: without clients the event is to be buffered. *)
Definition emitCheck (coin : cid → bool) (e : event) (h : Hub) : Hub :=
  if bool_decide (clients h = ∅) then h <| emitting := emitting h ++ [e] |>
  else foldr (λ c, enqueueEvent (coin c) (EventFrame e) c) h (elements (clients h)).

Definition emitAppend (i : nat) (h : Hub) : Hub :=
  match emitting h !! i with
  | Some e => h <| offline := Append e (offline h) |> <| emitting := delete i (emitting h) |>
  | None => h
  end.

Definition setLegacy (i : nat) (at_ : LegacyAt) (h : Hub) : Hub :=
  match legacy h !! i with
  | Some (c, _) => h <| legacy := <[i:=(c, at_)]> (legacy h) |>
  | None => h
  end.

(** The replayer returns and its deferred release runs. *)
Definition legacyExit (i : nat) (c : cid) (h : Hub) : Hub :=
  releaseReplayLease c (setLegacy i Returned h).

(** One piece of the loop of [replayOfflineLegacy] of the [i]-th replayer. *)
Definition legacyStep (coin : bool) (i : nat) (h : Hub) : Hub :=
  match legacy h !! i with
  | None => h
  | Some (c, AtTop) =>
      if negb (live c h) then legacyExit i c h
      else
        match Peek 1 (offline h) with
        | e :: _ =>
            if marshals (EventFrame e) then setLegacy i (Holding e) h
            else h <| offline := (Commit 1 (offline h)).2 |>
        | [] => legacyExit i c h
        end
  | Some (c, Holding e) =>
      match conns h !! c with
      | Some k =>
          if quit k && coin then legacyExit i c h
          else if (length (send k) <? sendQueue)%nat
          then setLegacy i Sent (setClient c (k <| send := send k ++ [EventFrame e] |>) h)
          else if quit k then legacyExit i c h
          else h
      | None => h
      end
  | Some (c, Sent) => setLegacy i AtTop (h <| offline := (Commit 1 (offline h)).2 |>)
  | Some (_, Returned) => h
  end.

(** The write pump takes one frame off the channel. *)
Definition writePump (c : cid) (h : Hub) : Hub :=
  match conns h !! c with
  | Some k =>
      if quit k then h
      else
        match send k with
        | f :: rest => setClient c (k <| send := rest |> <| written := written k ++ [f] |>) h
        | [] => h
        end
  | None => h
  end.

(** What can happen next.  Only a registered connection says hello or
    acknowledges, and it acknowledges batches it was sent. *)
Inductive action :=
  | Connect (c : cid) (device : string) (ack : bool)
  | Hello (c : cid)
  | StartReplay (coin : bool) (random : string) (c : cid)
  | AckLease (c : cid) (batch : string)
  | AckCommit (coin : bool) (random : string) (i : nat)
  | Retry (coin : bool) (c : cid) (batch : string)
  | EmitCheck (coin : cid → bool) (e : event)
  | EmitAppend (i : nat)
  | LegacyStep (coin : bool) (i : nat)
  | WritePump (c : cid)
  | Remove (c : cid)
  | Shutdown (c : cid).

Definition wasSent (batch : string) (c : cid) (h : Hub) : bool :=
  match conns h !! c with
  | Some k =>
      existsb (λ f, match f with ReplayBatch b _ _ => bool_decide (b = batch) | _ => false end)
        (written k)
  | None => false
  end.

(** The identifier names no batch sent so far, and no legacy lease. *)
Definition freshID (random : string) (h : Hub) : bool :=
  negb (has_prefix "legacy-" random) &&
  forallb (λ '(_, k), forallb (λ f,
    match f with ReplayBatch b _ _ => negb (bool_decide (b = random)) | _ => true end)
    (send k ++ written k)) (map_to_list (conns h)).

(** [None] when the action cannot happen.  [randomID] gives 64 random bits in
    hexadecimal: they are new, and never begin like a legacy identifier. *)
Definition step (a : action) (h : Hub) : option Hub :=
  match a with
  | Connect c device ack =>
      if bool_decide (conns h !! c = None)
      then Some (addClient c (mkClient device ack [] [] false) h) else None
  | Hello c => if bool_decide (c ∈ clients h) then Some (registerLatest c h) else None
  | StartReplay coin random c =>
      if bool_decide (c ∈ clients h) && freshID random h
      then Some (startOfflineReplay coin random c h) else None
  | AckLease c batch =>
      if bool_decide (c ∈ clients h) && wasSent batch c h then Some (ackLease c batch h) else None
  | AckCommit coin random i =>
      if freshID random h then Some (ackCommit coin random i h) else None
  | Retry coin c batch =>
      if has_prefix "legacy-" batch then None else Some (retryOfflineReplay coin c batch h)
  | EmitCheck coin e => Some (emitCheck coin e h)
  | EmitAppend i => Some (emitAppend i h)
  | LegacyStep coin i => Some (legacyStep coin i h)
  | WritePump c => Some (writePump c h)
  | Remove c => if bool_decide (c ∈ clients h) then Some (removeClient c h) else None
  | Shutdown c => Some (shutdown c h)
  end.

Fixpoint steps (l : list action) (h : Hub) : option Hub :=
  match l with
  | [] => Some h
  | a :: rest => match step a h with Some h' => steps rest h' | None => None end
  end.

(** ** Undisturbed handlers: the pieces of each run without another in between *)
Inductive handler :=
  | OnConnect (c : cid) (device : string) (ack : bool)
  | OnHello (coin : bool) (random : string) (c : cid)
  | OnAck (coin : bool) (random : string) (c : cid) (batch : string)
  | OnRetry (coin : bool) (c : cid) (batch : string)
  | OnEmit (coin : cid → bool) (e : event)
  | OnLegacy (i : nat)
  | OnWrite (c : cid)
  | OnDisconnect (c : cid)
  | OnShutdown (c : cid).

Definition legacyHolds (i : nat) (h : Hub) : bool :=
  match legacy h !! i with Some (_, Holding _) => true | _ => false end.

(** The send channel of the replayer's client has room. *)
Definition legacyRoom (i : nat) (h : Hub) : bool :=
  match legacy h !! i with
  | Some (c, _) =>
      match conns h !! c with
      | Some k => (length (send k) <? sendQueue)%nat
      | None => false
      end
  | None => false
  end.

Definition handle (a : handler) (h : Hub) : option Hub :=
  match a with
  | OnConnect c device ack => steps [Connect c device ack] h
  | OnHello coin random c => steps [Hello c; StartReplay coin random c] h
  | OnAck coin random c batch => steps [AckLease c batch; AckCommit coin random 0] h
  | OnRetry coin c batch => steps [Retry coin c batch] h
  | OnEmit coin e => steps [EmitCheck coin e; EmitAppend 0] h
  | OnLegacy i =>
      let h1 := legacyStep false i h in
      if legacyHolds i h1
      then if legacyRoom i h then steps [LegacyStep false i; LegacyStep false i] h1 else None
      else Some h1
  | OnWrite c => steps [WritePump c] h
  | OnDisconnect c => steps [Remove c; Shutdown c] h
  | OnShutdown c => steps [Shutdown c] h
  end.

Fixpoint handleAll (l : list handler) (h : Hub) : option Hub :=
  match l with
  | [] => Some h
  | a :: rest => match handle a h with Some h' => handleAll rest h' | None => None end
  end.
End Replay.
