(* ===== verification/ReplayProps.v ===== *)
(** * Correctness of the replay

    What undisturbed handlers guarantee, and what is lost when the pieces of
    two of them interleave. *)

From S2P Require Import Prelude OfflineBuffer.
From S2P Require Import OfflineProps Replay.

Section Safety.
Context (encodedLen : event → option N).
Context (frameAllowed : cid → Frame → bool).

Definition frames (k : Client) : list Frame := send k ++ written k.

(** The state between undisturbed handlers: the leased batch is what the
    buffer begins with, whoever holds the lease is registered, a batch a
    client was sent under the identifier of the lease is the leased one, and
    only one legacy replayer of a connection that is not torn down runs, under
    the lease. *)
Record quiet (h : Hub) : Prop := mkQuiet {
  q_emit : emitting h = [];
  q_ack : acking h = [];
  q_at : ∀ i c at_, legacy h !! i = Some (c, at_) → at_ = AtTop ∨ at_ = Returned;
  q_conn : ∀ i c at_, legacy h !! i = Some (c, at_) → is_Some (conns h !! c);
  q_clients : ∀ c, c ∈ clients h → is_Some (conns h !! c);
  q_owner : ∀ l, lease h = Some l → owner l ∈ clients h;
  q_prefix : ∀ l, lease h = Some l →
    lCount l = Len (lEvents l) ∧ ∃ rest, offline h = lEvents l ++ rest;
  q_batch : ∀ c k b evs r, conns h !! c = Some k → ReplayBatch b evs r ∈ frames k →
    has_prefix "legacy-" b = false ∧ (∀ l, lease h = Some l → batchID l = b → evs = lEvents l);
  q_running : ∀ i c, legacy h !! i = Some (c, AtTop) → quitClosed c h = false →
    ∃ l, lease h = Some l ∧ owner l = c ∧ lEvents l = [] ∧
      has_prefix "legacy-" (batchID l) = true;
  q_single : ∀ i j c, legacy h !! i = Some (c, AtTop) → legacy h !! j = Some (c, AtTop) →
    quitClosed c h = false → i = j }.

Lemma quiet_new : quiet newHub.
Proof. split; try done; try (intros; set_solver). Qed.

Lemma quitClosed_setClient c k h d :
  quitClosed d (setClient c k h) = if bool_decide (d = c) then quit k else quitClosed d h.
Proof.
  unfold quitClosed, setClient; simpl. case_bool_decide as E.
  - subst. by rewrite lookup_insert_eq.
  - by rewrite lookup_insert_ne.
Qed.

Definition frameOk (f : Frame) (h : Hub) : Prop :=
  match f with
  | ReplayBatch b evs _ => has_prefix "legacy-" b = false ∧
      (∀ l, lease h = Some l → batchID l = b → evs = lEvents l)
  | EventFrame _ => True
  end.

(** A client that is not revived and gets only frames that fit the lease. *)
Lemma quiet_setClient c k k' h :
  quiet h → conns h !! c = Some k → (quit k = true → quit k' = true) →
  (∀ f, f ∈ frames k' → f ∈ frames k ∨ frameOk f h) →
  quiet (setClient c k' h).
Proof.
  intros [He Ha Hat Hco Hcl Ho Hp Hb Hr Hs] Hk Hq Hf.
  assert (∀ d, quitClosed d (setClient c k' h) = false → quitClosed d h = false) as Hqc.
  { intros d. rewrite quitClosed_setClient. case_bool_decide; [subst|done].
    unfold quitClosed. rewrite Hk. destruct (quit k); [by rewrite Hq|done]. }
  assert (∀ d, is_Some (conns h !! d) → is_Some (conns (setClient c k' h) !! d)) as Hd.
  { intros d Hs'. simpl. destruct (decide (d = c)) as [->|];
      [by rewrite lookup_insert_eq|by rewrite lookup_insert_ne]. }
  split; simpl; eauto.
  intros d k'' b evs r. destruct (decide (d = c)) as [->|].
  - rewrite lookup_insert_eq. intros [= <-] Hin. apply Hf in Hin as [Hin|Hin]; eauto.
  - rewrite lookup_insert_ne by done. eauto.
Qed.

Lemma quiet_shutdown c h : quiet h → quiet (shutdown c h).
Proof.
  intros Hq. unfold shutdown. destruct (conns h !! c) as [k|] eqn:Ek; [|done].
  eapply quiet_setClient; eauto.
Qed.

Lemma quiet_enqueue coin f c h : quiet h → frameOk f h → quiet (enqueue coin f c h).
Proof.
  intros Hq Hf. unfold enqueue. destruct (conns h !! c) as [k|] eqn:Ek; [|done].
  repeat case_match; try done; [|by apply quiet_shutdown].
  eapply quiet_setClient; [done|done|done|]. unfold frames; simpl.
  intros f'. rewrite !elem_of_app, list_elem_of_singleton. intros [[? | ->] | ?]; auto.
Qed.

Lemma quiet_enqueueEvent coin f c h :
  quiet h → frameOk f h → quiet (enqueueEvent encodedLen frameAllowed coin f c h).
Proof. intros. unfold enqueueEvent. case_match; [by apply quiet_enqueue|done]. Qed.

Lemma enqueue_same coin f c h :
  let h' := enqueueEvent encodedLen frameAllowed coin f c h in
  offline h' = offline h ∧ lease h' = lease h ∧ clients h' = clients h ∧
  emitting h' = emitting h ∧ acking h' = acking h ∧ legacy h' = legacy h.
Proof.
  unfold enqueueEvent, enqueue, shutdown, setClient.
  repeat case_match; done.
Qed.

Lemma quiet_writePump c h : quiet h → quiet (writePump c h).
Proof.
  intros Hq. unfold writePump. destruct (conns h !! c) as [k|] eqn:Ek; [|done].
  destruct (quit k) eqn:Equ; [done|]. destruct (send k) as [|f rest] eqn:Es; [done|].
  eapply quiet_setClient; [done|done| |]; simpl; [by rewrite Equ|]. intros f'. left.
  unfold frames in *. rewrite Es. simpl in *. set_solver.
Qed.

(** A connection that ends or is replaced: its lease is given back and it is
    torn down. *)
Lemma quiet_teardown c X L h :
  quiet h → X ⊆ clients h → (∀ x, x ∈ clients h → x ≠ c → x ∈ X) →
  quiet (shutdown c (releaseReplayLease c (h <| clients := X |> <| latestByDevice := L |>))).
Proof.
  intros [He Ha Hat Hco Hcl Ho Hp Hb Hr Hs] HX Hkeep.
  set (h1 := releaseReplayLease c _).
  assert (offline h1 = offline h ∧ conns h1 = conns h ∧ clients h1 = X ∧
    emitting h1 = emitting h ∧ acking h1 = acking h ∧ legacy h1 = legacy h) as
    (E1 & E2 & E3 & E4 & E5 & E6).
  { subst h1. unfold releaseReplayLease. simpl. repeat case_match; done. }
  assert (∀ l, lease h1 = Some l ↔ lease h = Some l ∧ owner l ≠ c) as El.
  { intros l. subst h1. unfold releaseReplayLease. simpl. destruct (lease h) as [l'|] eqn:E; simpl.
    - case_bool_decide; simpl; rewrite ?E; naive_solver.
    - rewrite E. naive_solver. }
  clearbody h1.
  assert (∀ d, is_Some (conns (shutdown c h1) !! d) ↔ is_Some (conns h !! d)) as Hd.
  { intros d. unfold shutdown. rewrite E2. destruct (conns h !! c) as [k|] eqn:Ek; simpl; rewrite ?E2.
    2: done. destruct (decide (d = c)) as [->|]; [rewrite lookup_insert_eq, Ek|by rewrite lookup_insert_ne].
    split; intros; by eexists. }
  assert (∀ d, quitClosed d (shutdown c h1) = false → quitClosed d h = false ∧ d ≠ c) as Hqc.
  { intros d. unfold shutdown. rewrite E2. destruct (conns h !! c) as [k|] eqn:Ek.
    - rewrite quitClosed_setClient. case_bool_decide; [done|]. unfold quitClosed. by rewrite E2.
    - unfold quitClosed. rewrite E2. intros H. split; [done|]. intros ->. by rewrite Ek in H. }
  assert (∀ A (f : Hub → A), (∀ k, f (setClient c k h1) = f h1) → f (shutdown c h1) = f h1) as Hsh.
  { intros A f Hf. unfold shutdown. by case_match. }
  split; rewrite ?(Hsh _ emitting), ?(Hsh _ acking), ?(Hsh _ offline), ?(Hsh _ clients),
    ?(Hsh _ lease), ?(Hsh _ legacy), ?E1, ?E3, ?E4, ?E5, ?E6 by done; try done.
  - intros i d at_ H. apply Hd. eauto.
  - intros d Hin. apply Hd, Hcl, HX, Hin.
  - intros l [Hl Hne]%El. eauto.
  - intros l [Hl _]%El. eauto.
  - intros d k b evs r Hk Hin. assert (∃ k0, conns h !! d = Some k0 ∧ frames k0 = frames k) as (k0 & Hk0 & Hf).
    { unfold shutdown in Hk. rewrite E2 in Hk. destruct (conns h !! c) as [k1|] eqn:Ek; simpl in Hk;
        rewrite E2 in Hk; [|by exists k].
      destruct (decide (d = c)) as [->|]; [rewrite lookup_insert_eq in Hk|rewrite lookup_insert_ne in Hk by done].
      - simplify_eq. by exists k1.
      - by exists k. }
    rewrite <- Hf in Hin. destruct (Hb _ _ _ _ _ Hk0 Hin) as [? Hev].
    split; [done|]. intros l [Hl _]%El. eauto.
  - intros i d Hi [Hq Hne]%Hqc. destruct (Hr _ _ Hi Hq) as (l & Hl & Hol & ?).
    exists l. split; [|done]. apply El. split; [done|]. by subst.
  - intros i j d Hi Hj [Hq _]%Hqc. eauto.
Qed.

Lemma quiet_registerLatest c h : quiet h → quiet (registerLatest c h).
Proof.
  intros Hq. unfold registerLatest. destruct (conns h !! c) as [k|]; [|done].
  destruct (str_empty (deviceID k)); [done|].
  assert (∀ L, quiet (h <| latestByDevice := L |>)) as HL by (intros L; by destruct Hq).
  destruct (latestByDevice h !! deviceID k) as [p|]; [|apply HL].
  case_bool_decide; [apply HL|].
  pose proof (quiet_teardown p (clients h) (<[deviceID k := c]> (latestByDevice h)) h Hq) as H1.
  replace (h <| clients := clients h |>) with h in H1 by by destruct h. apply H1; set_solver.
Qed.

Lemma quiet_disconnect c h : quiet h → quiet (shutdown c (removeClient c h)).
Proof.
  intros Hq. unfold removeClient. simpl.
  assert (∀ L, quiet (shutdown c (releaseReplayLease c
    (h <| clients := clients h ∖ {[c]} |> <| latestByDevice := L |>)))) as HL.
  { intros L. apply quiet_teardown; [done|set_solver|set_solver]. }
  destruct (conns h !! c) as [k|]; [case_match; [apply HL|]|]; exact (HL (latestByDevice h)).
Qed.

Lemma quiet_addClient c device ack h :
  quiet h → conns h !! c = None → quiet (addClient c (mkClient device ack [] [] false) h).
Proof.
  intros [He Ha Hat Hco Hcl Ho Hp Hb Hr Hs] Hn.
  assert (∀ d, is_Some (conns h !! d) → d ≠ c) as Hne.
  { intros d [k Hk] ->. by rewrite Hn in Hk. }
  assert (∀ i d at_, legacy h !! i = Some (d, at_) →
    quitClosed d (addClient c (mkClient device ack [] [] false) h) = quitClosed d h) as Hqc.
  { intros i d at_ Hi. unfold addClient.
    change (quitClosed d (setClient c (mkClient device ack [] [] false) h) = quitClosed d h).
    rewrite quitClosed_setClient, bool_decide_eq_false_2; [done|]. apply Hne. eauto. }
  split; simpl; try done.
  - intros i d at_ Hi. rewrite lookup_insert_ne; [eauto|]. intros ->. apply (Hne d); eauto.
  - intros d [->%elem_of_singleton|Hin]%elem_of_union; [by rewrite lookup_insert_eq|].
    rewrite lookup_insert_ne; [eauto|]. intros ->. apply (Hne d); eauto.
  - intros l Hl. apply elem_of_union_r. eauto.
  - intros d k b evs r Hk Hin. destruct (decide (d = c)) as [->|].
    + rewrite lookup_insert_eq in Hk. simplify_eq. by apply elem_of_nil in Hin.
    + rewrite lookup_insert_ne in Hk by done. eauto.
  - intros i d Hi. rewrite (Hqc _ _ _ Hi). eauto.
  - intros i j d Hi Hj. rewrite (Hqc _ _ _ Hi). eauto.
Qed.

(** A fresh identifier fits no frame sent so far. *)
Lemma freshID_frames random h c k b evs r :
  freshID random h = true → conns h !! c = Some k → ReplayBatch b evs r ∈ frames k → b ≠ random.
Proof.
  unfold freshID. intros [_ H]%andb_true_iff Hk Hin ->.
  assert (In (c, k) (map_to_list (conns h))) as Hc
    by (apply list_elem_of_In; by apply elem_of_map_to_list).
  pose proof (proj1 (forallb_forall _ _) H _ Hc) as H1.
  apply list_elem_of_In in Hin. pose proof (proj1 (forallb_forall _ _) H1 _ Hin) as H2.
  simpl in H2. by rewrite bool_decide_eq_true_2 in H2.
Qed.

Lemma freshID_prefix random h :
  freshID random h = true → has_prefix "legacy-" random = false.
Proof. unfold freshID. intros H. by bool_facts. Qed.

Lemma legacy_prefix random : has_prefix "legacy-" ("legacy-" +:+ random) = true.
Proof. unfold has_prefix. simpl. by destruct random. Qed.

(** Nothing is leased, and no replayer of a live connection runs. *)
Lemma quiet_unlease h :
  quiet h → (∀ i c, legacy h !! i = Some (c, AtTop) → quitClosed c h = true) →
  quiet (h <| lease := None |>).
Proof.
  intros [He Ha Hat Hco Hcl Ho Hp Hb Hr Hs] Hq.
  assert (∀ d, quitClosed d (h <| lease := None |>) = quitClosed d h) as Hqc by done.
  split; simpl; try done; eauto.
  - intros c k b evs r Hk Hin. split; [by eapply Hb|done].
  - intros i c Hi. rewrite Hqc, (Hq _ _ Hi). done.
Qed.

Lemma quiet_noblock c h :
  quiet h → leaseBlocks c h = false →
  ∀ i d, legacy h !! i = Some (d, AtTop) → quitClosed d h = true.
Proof.
  intros Hq Hl i d Hi. destruct (quitClosed d h) eqn:E; [done|].
  destruct (q_running _ Hq _ _ Hi E) as (l & Hl' & Ho & _).
  unfold leaseBlocks in Hl. rewrite Hl' in Hl. apply orb_false_iff in Hl as [_ Hl].
  rewrite Ho, E in Hl. done.
Qed.

(** A new batch: the buffer begins with it and its identifier is new. *)
Lemma quiet_newLease c random k rest h :
  quiet h → c ∈ clients h → lease h = None → offline h = k ++ rest → freshID random h = true →
  quiet (h <| lease := Some (mkLease c random k (Len k)) |>).
Proof.
  intros [He Ha Hat Hco Hcl Ho Hp Hb Hr Hs] Hc Hn Hoff Hf.
  split; simpl; try done; eauto.
  - intros l [= <-]. done.
  - intros l [= <-]. simpl. eauto.
  - intros d kk b evs r Hk Hin. split; [by eapply Hb|]. intros l [= <-]. simpl. intros Hbb.
    by destruct (freshID_frames _ _ _ _ _ _ _ Hf Hk Hin).
  - intros i d Hi Hq. change (quitClosed d h = false) in Hq.
    destruct (Hr _ _ Hi Hq) as (l & Hl & _). by rewrite Hn in Hl.
Qed.

Lemma quiet_newLegacy c random h :
  quiet h → c ∈ clients h → lease h = None →
  quiet (h <| lease := Some (mkLease c ("legacy-" +:+ random) [] 0) |>
           <| legacy := legacy h ++ [(c, AtTop)] |>).
Proof.
  intros [He Ha Hat Hco Hcl Ho Hp Hb Hr Hs] Hc Hn.
  assert (∀ i d at_, (legacy h ++ [(c, AtTop)]) !! i = Some (d, at_) →
    legacy h !! i = Some (d, at_) ∨ i = length (legacy h) ∧ d = c ∧ at_ = AtTop) as Hleg.
  { intros i d at_ H. apply lookup_snoc_Some in H as [[_ ?]|[-> [= <- <-]]]; auto. }
  assert (∀ i d, legacy h !! i = Some (d, AtTop) → quitClosed d h = true) as Hgone.
  { intros i d Hi. destruct (quitClosed d h) eqn:E; [done|].
    destruct (Hr _ _ Hi E) as (l & Hl & _). by rewrite Hn in Hl. }
  split; simpl; try done; eauto.
  - intros i d at_ [Hi|(_ & _ & ->)]%Hleg; eauto.
  - intros i d at_ [Hi|(_ & -> & _)]%Hleg; eauto.
  - intros l [= <-]. done.
  - intros l [= <-]. simpl. eauto.
  - intros d k b evs r Hk Hin. destruct (Hb _ _ _ _ _ Hk Hin) as [Hpre _]. split; [done|].
    intros l [= <-]. simpl. intros <-. by rewrite legacy_prefix in Hpre.
  - intros i d Hi Hq. change (quitClosed d h = false) in Hq.
    apply Hleg in Hi as [Hi|(_ & -> & _)]; [by rewrite (Hgone _ _ Hi) in Hq|].
    eexists; split_and!; [done|done|done|]. apply legacy_prefix.
  - intros i j d Hi Hj Hq. change (quitClosed d h = false) in Hq.
    apply Hleg in Hi as [Hi|(-> & -> & _)]; [by rewrite (Hgone _ _ Hi) in Hq|].
    by apply Hleg in Hj as [Hj|(-> & _)]; [rewrite (Hgone _ _ Hj) in Hq|].
Qed.

Lemma quiet_startOfflineReplay coin random c h :
  quiet h → c ∈ clients h → freshID random h = true →
  let h' := startOfflineReplay encodedLen frameAllowed coin random c h in
  quiet h' ∧ offline h' = offline h.
Proof.
  intros Hq Hc Hf. unfold startOfflineReplay. destruct (conns h !! c) as [k|] eqn:Ek; [|done].
  destruct (supportsReplayAck k); simpl.
  - destruct (leaseBlocks c h) eqn:El; [done|].
    pose proof (quiet_unlease h Hq (quiet_noblock c h Hq El)) as Hn.
    destruct (PeekSized_prefix encodedLen replayBatchSize replayBatchMaxBytes (offline h))
      as (n & Hn' & _); [done|done|].
    case_bool_decide; [done|]. rewrite Hn'.
    set (h1 := h <| lease := None |>) in *.
    pose proof (quiet_newLease c random (take n (offline h)) (drop n (offline h)) h1 Hn Hc
      eq_refl (eq_sym (take_drop _ _)) Hf) as H1.
    split; [|exact (proj1 (enqueue_same _ _ _ _))].
    apply quiet_enqueueEvent; [exact H1|]. split; [by eapply freshID_prefix|].
    intros l [= <-] _. done.
  - destruct (lease h) eqn:El; [done|]. split; [by apply quiet_newLegacy|done].
Qed.

Lemma quiet_retry coin c batch h :
  quiet h → has_prefix "legacy-" batch = false →
  let h' := retryOfflineReplay encodedLen frameAllowed coin c batch h in
  quiet h' ∧ offline h' = offline h.
Proof.
  intros Hq Hb. unfold retryOfflineReplay. destruct (lease h) as [l|] eqn:El; [|done].
  destruct (negb _ || negb _) eqn:E; [done|]. bool_facts.
  destruct (quitClosed c h) eqn:Eq.
  - split; [|done]. apply quiet_unlease; [done|]. intros i d Hi.
    destruct (quitClosed d h) eqn:Ed; [done|].
    destruct (q_running _ Hq _ _ Hi Ed) as (l' & Hl' & Ho & _).
    rewrite El in Hl'. injection Hl' as <-. congruence.
  - split; [|exact (proj1 (enqueue_same _ _ _ _))]. apply quiet_enqueueEvent; [done|].
    split; [done|]. intros l' Hl' _. rewrite El in Hl'. by injection Hl' as <-.
Qed.

Lemma quiet_offline o h : quiet h → lease h = None → quiet (h <| offline := o |>).
Proof.
  intros [He Ha Hat Hco Hcl Ho Hp Hb Hr Hs] Hn.
  split; simpl; try done; eauto. intros l Hl. by rewrite Hn in Hl.
Qed.

(** The leased batch a client acknowledges is the one it was sent. *)
Lemma quiet_ack coin random c batch h h' :
  quiet h → handle encodedLen frameAllowed (OnAck coin random c batch) h = Some h' →
  quiet h' ∧
  (offline h' = offline h ∨
   ∃ l k rem, lease h = Some l ∧ conns h !! c = Some k ∧
     ReplayBatch batch (lEvents l) rem ∈ written k ∧ offline h = lEvents l ++ offline h').
Proof.
  intros Hq. unfold handle, steps, step.
  destruct (bool_decide (c ∈ clients h) && wasSent batch c h) eqn:Eg; [|done]. bool_facts.
  destruct (freshID random (ackLease c batch h)) eqn:Ef; [|done]. intros [= <-].
  assert (∃ k evs rem, conns h !! c = Some k ∧ ReplayBatch batch evs rem ∈ written k)
    as (k & evs & rem & Hk & Hin).
  { unfold wasSent in *. destruct (conns h !! c) as [k|]; [|done].
    match goal with H : existsb _ _ = true |- _ => apply existsb_exists in H as ([b evs rem|] & Hin & Hb) end;
      [|done]. bool_facts. subst. apply list_elem_of_In in Hin. eauto 6. }
  assert (ReplayBatch batch evs rem ∈ frames k) as Hfr by (apply elem_of_app; by right).
  destruct (q_batch _ Hq _ _ _ _ _ Hk Hfr) as [Hpre Hev].
  pose proof (q_ack _ Hq) as Hack. unfold ackLease in *.
  destruct (lease h) as [l|] eqn:El.
  2: { unfold ackCommit. rewrite Hack. auto. }
  destruct (str_empty batch || has_prefix "attachment-" batch || negb (bool_decide (owner l = c)) ||
    negb (bool_decide (batchID l = batch))) eqn:Em.
  { unfold ackCommit. rewrite Hack. auto. }
  bool_facts. specialize (Hev l eq_refl ltac:(done)). subst evs.
  destruct (q_prefix _ Hq l El) as [Hcount [rest Hoff]].
  assert (quiet (h <| lease := None |>)) as Hq1.
  { apply quiet_unlease; [done|]. intros i d Hi. destruct (quitClosed d h) eqn:Ed; [done|].
    destruct (q_running _ Hq _ _ Hi Ed) as (l' & Hl' & _ & _ & Hp').
    rewrite El in Hl'. injection Hl' as <-. congruence. }
  pose proof (quiet_offline (Commit (lCount l) (offline h)).2 _ Hq1 eq_refl) as Hq2.
  set (h2 := h <| lease := None |> <| offline := (Commit (lCount l) (offline h)).2 |>) in *.
  assert (ackCommit encodedLen frameAllowed coin random 0
    (h <| lease := None |> <| acking := acking h ++ [l] |>) =
    startOfflineReplay encodedLen frameAllowed coin random (owner l) h2) as ->.
  { subst h2. destruct h; simpl in *; subst. done. }
  destruct (quiet_startOfflineReplay coin random (owner l) h2) as [Hq3 Hoff3];
    [done|by apply (q_owner _ Hq)|exact Ef|].
  split; [done|]. right. exists l, k, rem. split_and!; [done|done|done|].
  rewrite Hoff3. subst h2. simpl. rewrite Hcount, Hoff at 1. rewrite Hoff. unfold Len.
  rewrite Commit_drop by (rewrite length_app; lia). simpl. by rewrite drop_app_length.
Qed.

Lemma quiet_fanout coin e l h :
  quiet h →
  let h' := foldr (λ c, enqueueEvent encodedLen frameAllowed (coin c) (EventFrame e) c) h l in
  quiet h' ∧ offline h' = offline h ∧ emitting h' = emitting h.
Proof.
  intros Hq. induction l as [|c l (IH1 & IH2 & IH3)]; [done|]. simpl.
  set (h1 := foldr _ h l) in *.
  destruct (enqueue_same (coin c) (EventFrame e) c h1) as (E1 & _ & _ & E2 & _).
  split_and!; [by apply quiet_enqueueEvent|congruence|congruence].
Qed.

Lemma quiet_emit coin e h h' :
  quiet h → handle encodedLen frameAllowed (OnEmit coin e) h = Some h' →
  quiet h' ∧ (offline h' = offline h ∨ clients h = ∅ ∧ offline h' = Append e (offline h)).
Proof.
  intros Hq. unfold handle, steps, step. intros [= <-]. pose proof (q_emit _ Hq) as He.
  unfold emitCheck. case_bool_decide as Hc.
  - assert (lease h = None) as Hn.
    { destruct (lease h) as [l|] eqn:El; [|done]. pose proof (q_owner _ Hq l El). set_solver. }
    replace (emitAppend 0 _) with (h <| offline := Append e (offline h) |>)
      by (destruct h; simpl in *; subst; done).
    split; [by apply quiet_offline|by right].
  - destruct (quiet_fanout coin e (elements (clients h)) h Hq) as (Hq1 & Ho & He1).
    unfold emitAppend. rewrite He1, He. auto.
Qed.

Lemma quiet_legacyExit i c h :
  quiet h → legacy h !! i = Some (c, AtTop) → quiet (legacyExit i c h).
Proof.
  intros [He Ha Hat Hco Hcl Ho Hp Hb Hr Hs] Hi. unfold legacyExit, setLegacy. rewrite Hi.
  set (leg := <[i:=(c, Returned)]> (legacy h)).
  assert (∀ j d at_, leg !! j = Some (d, at_) →
    legacy h !! j = Some (d, at_) ∧ j ≠ i ∨ at_ = Returned ∧ d = c) as Hleg.
  { intros j d at_ Hj. unfold leg in Hj. destruct (decide (j = i)) as [->|Hne].
    - rewrite list_lookup_insert_eq in Hj by (by eapply lookup_lt_Some). naive_solver.
    - rewrite list_lookup_insert_ne in Hj by done. auto. }
  set (h1 := releaseReplayLease c (h <| legacy := leg |>)).
  assert (offline h1 = offline h ∧ conns h1 = conns h ∧ clients h1 = clients h ∧
    emitting h1 = emitting h ∧ acking h1 = acking h ∧ legacy h1 = leg) as
    (E1 & E2 & E3 & E4 & E5 & E6).
  { subst h1. unfold releaseReplayLease. simpl. repeat case_match; done. }
  assert (∀ l, lease h1 = Some l ↔ lease h = Some l ∧ owner l ≠ c) as El.
  { intros l. subst h1. unfold releaseReplayLease. simpl. destruct (lease h) as [l'|] eqn:E; simpl.
    - case_bool_decide; simpl; rewrite ?E; naive_solver.
    - rewrite E. naive_solver. }
  clearbody h1.
  assert (∀ d, quitClosed d h1 = quitClosed d h) as Hqc by (intros d; unfold quitClosed; by rewrite E2).
  split; rewrite ?E1, ?E3, ?E4, ?E5, ?E6; try done.
  - intros j d at_ [[Hj _]|[-> _]]%Hleg; eauto.
  - intros j d at_ [[Hj _]|[_ ->]]%Hleg; rewrite E2; eauto.
  - intros d. rewrite E2. eauto.
  - intros l [Hl _]%El. eauto.
  - intros l [Hl _]%El. eauto.
  - intros d k b evs r. rewrite E2. intros Hk Hin. destruct (Hb _ _ _ _ _ Hk Hin).
    split; [done|]. intros l [Hl _]%El. eauto.
  - intros j d [[Hj Hne]|[? _]]%Hleg; [|done]. rewrite Hqc. intros Hq.
    destruct (Hr _ _ Hj Hq) as (l & Hl & Hol & ?). exists l. split; [|done]. apply El.
    split; [done|]. rewrite Hol. intros ->. by apply Hne, (Hs _ _ c).
  - intros j j' d [[Hj _]|[? _]]%Hleg [[Hj' _]|[? _]]%Hleg; try done. rewrite Hqc. eauto.
Qed.

(** Under a legacy lease any event may leave the buffer. *)
Lemma quiet_legacy_offline o i c h :
  quiet h → legacy h !! i = Some (c, AtTop) → quitClosed c h = false →
  quiet (h <| offline := o |>).
Proof.
  intros Hq Hi Hc. destruct (q_running _ Hq _ _ Hi Hc) as (l & Hl & _ & Hnil & _).
  destruct Hq as [He Ha Hat Hco Hcl Ho Hp Hb Hr Hs].
  split; simpl; try done; eauto. intros l' Hl'. rewrite Hl in Hl'. injection Hl' as <-.
  split; [by apply Hp|]. exists o. by rewrite Hnil.
Qed.

Lemma legacyExit_same i c h :
  legacy h !! i = Some (c, AtTop) →
  legacyHolds i (legacyExit i c h) = false ∧ offline (legacyExit i c h) = offline h.
Proof.
  intros Hi. pose proof (lookup_lt_Some _ _ _ Hi).
  unfold legacyExit, setLegacy, legacyHolds, releaseReplayLease. rewrite Hi.
  destruct (lease h) as [l|] eqn:El; simpl; rewrite El; simpl.
  - case_bool_decide; simpl; by rewrite list_lookup_insert_eq.
  - by rewrite list_lookup_insert_eq.
Qed.

(** One undisturbed round of a replayer that has an event to send. *)
Lemma legacy_round i c e rest k h :
  legacy h !! i = Some (c, AtTop) → live c h = true → offline h = e :: rest →
  conns h !! c = Some k → (length (send k) <? sendQueue)%nat = true →
  legacyStep encodedLen false i (legacyStep encodedLen false i (setLegacy i (Holding e) h)) =
  setClient c (k <| send := send k ++ [EventFrame e] |>) h <| offline := rest |>.
Proof.
  intros Hi Hl Hoff Hk Hroom. pose proof (lookup_lt_Some _ _ _ Hi) as Hlen.
  unfold setLegacy at 1. rewrite Hi. unfold legacyStep at 2. simpl.
  rewrite list_lookup_insert_eq, Hk, andb_false_r, Hroom by done.
  unfold setLegacy at 1. simpl. rewrite list_lookup_insert_eq by done.
  unfold legacyStep. simpl. rewrite list_lookup_insert_eq by (by rewrite length_insert).
  unfold setLegacy. simpl. rewrite list_lookup_insert_eq by (by rewrite length_insert).
  rewrite !list_insert_insert_eq, list_insert_id by done.
  rewrite Hoff, (Commit_drop 1) by (simpl; lia). by destruct h.
Qed.

(** A legacy replayer sends the oldest event, or drops it when it cannot be
    encoded. *)
Lemma quiet_legacy i h h' :
  quiet h → handle encodedLen frameAllowed (OnLegacy i) h = Some h' →
  quiet h' ∧
  (offline h' = offline h ∨
   ∃ e c k, offline h = e :: offline h' ∧ conns h' !! c = Some k ∧
     (encodedLen e = None ∨ last (send k) = Some (EventFrame e))).
Proof.
  intros Hq. unfold handle. destruct (legacy h !! i) as [[c at_]|] eqn:Ei.
  2: { unfold legacyStep, legacyHolds. rewrite Ei, Ei. intros [= <-]. auto. }
  destruct (q_at _ Hq _ _ _ Ei) as [-> | ->].
  2: { unfold legacyStep, legacyHolds. rewrite Ei, Ei. intros [= <-]. auto. }
  destruct (legacyExit_same i c h Ei) as [Hh Ho].
  assert (∀ h1, legacyStep encodedLen false i h = h1 → h1 = legacyExit i c h →
    (if legacyHolds i h1 then if legacyRoom i h then steps encodedLen frameAllowed
        [LegacyStep false i; LegacyStep false i] h1 else None else Some h1) = Some h' →
    quiet h' ∧ (offline h' = offline h ∨ ∃ e c k, offline h = e :: offline h' ∧
      conns h' !! c = Some k ∧ (encodedLen e = None ∨ last (send k) = Some (EventFrame e))))
    as Hexit.
  { intros h1 _ ->. rewrite Hh. intros [= <-]. split; [by apply quiet_legacyExit|by left]. }
  remember (legacyStep encodedLen false i h) as h1 eqn:E1. symmetry in E1.
  pose proof E1 as E1'. unfold legacyStep in E1. rewrite Ei in E1.
  destruct (negb (live c h)) eqn:Elive; [by apply (Hexit h1)|].
  destruct (offline h) as [|e rest] eqn:Eoff; [by apply (Hexit h1)|].
  bool_facts. assert (quitClosed c h = false) as Hqc.
  { unfold live in *. by bool_facts. }
  destruct (q_conn _ Hq _ _ _ Ei) as [k Hk]. simpl in E1. destruct (bool_decide _) eqn:Em.
  - subst h1. unfold legacyHolds. unfold setLegacy at 1. rewrite Ei. simpl.
    rewrite list_lookup_insert_eq by (by eapply lookup_lt_Some).
    unfold legacyRoom. rewrite Ei, Hk.
    destruct (length (send k) <? sendQueue)%nat eqn:Er; [|done].
    intros [= <-]. erewrite legacy_round by done.
    set (h2 := setClient c (k <| send := send k ++ [EventFrame e] |>) h).
    assert (quiet h2) as Hq2.
    { eapply quiet_setClient; [done|done|done|]. unfold frames; simpl.
      intros f'. rewrite !elem_of_app, list_elem_of_singleton. intros [[? | ->] | ?]; auto. right. done. }
    assert (quitClosed c h2 = false) as Hqc2.
    { unfold h2. rewrite quitClosed_setClient, bool_decide_eq_true_2 by done. simpl.
      unfold quitClosed in Hqc. by rewrite Hk in Hqc. }
    split; [by apply (quiet_legacy_offline rest i c h2)|]. right. exists e, c.
    eexists. split_and!; [done|apply lookup_insert_eq|]. right. simpl. by rewrite last_snoc.
  - subst h1. unfold legacyHolds. simpl. rewrite Ei. intros [= <-].
    split; [by apply (quiet_legacy_offline _ i c h)|]. right. exists e, c, k.
    split_and!; [|done|left].
    + change (e :: rest = e :: (Commit (Z.of_nat 1) (e :: rest)).2).
      by rewrite Commit_drop by (simpl; lia).
    + bool_facts. by apply eq_None_not_Some.
Qed.

Lemma quiet_handle a h h' :
  quiet h → handle encodedLen frameAllowed a h = Some h' →
  quiet h' ∧
  (offline h' = offline h ∨
   (∃ coin e, a = OnEmit coin e ∧ clients h = ∅ ∧ offline h' = Append e (offline h)) ∨
   (∃ coin random c batch l k rem, a = OnAck coin random c batch ∧ lease h = Some l ∧
      conns h !! c = Some k ∧ ReplayBatch batch (lEvents l) rem ∈ written k ∧
      offline h = lEvents l ++ offline h') ∨
   (∃ i e c k, a = OnLegacy i ∧ offline h = e :: offline h' ∧ conns h' !! c = Some k ∧
      (encodedLen e = None ∨ last (send k) = Some (EventFrame e)))).
Proof.
  intros Hq. destruct a as [c device ack|coin random c|coin random c batch|coin c batch|coin e|i|c|c|c];
    intros Ha.
  - simpl in Ha. case_bool_decide; [|done]. injection Ha as <-.
    split; [by apply quiet_addClient|by left].
  - simpl in Ha. case_bool_decide; [|done].
    destruct (bool_decide _ && freshID _ _) eqn:Ef; [|done]. bool_facts. injection Ha as <-.
    destruct (quiet_startOfflineReplay coin random c (registerLatest c h)) as [Hq1 Ho];
      [by apply quiet_registerLatest|done|done|]. split; [done|left]. rewrite Ho.
    unfold registerLatest, shutdown, releaseReplayLease. by repeat case_match.
  - apply quiet_ack in Ha as [? [?|(l & k & rem & ?)]]; [by auto| |done].
    split; [done|]. do 2 right. left. naive_solver.
  - simpl in Ha. destruct (has_prefix "legacy-" batch) eqn:Ep; [done|]. injection Ha as <-.
    destruct (quiet_retry coin c batch h); auto.
  - apply quiet_emit in Ha as [? [?|[? ?]]]; [by auto| |done]. split; [done|]. naive_solver.
  - apply quiet_legacy in Ha as [? [?|(e & c & k & ?)]]; [by auto| |done].
    split; [done|]. do 3 right. naive_solver.
  - simpl in Ha. injection Ha as <-. split; [by apply quiet_writePump|left].
    unfold writePump. by repeat case_match.
  - simpl in Ha. case_bool_decide; [|done]. injection Ha as <-.
    split; [by apply quiet_disconnect|left].
    unfold shutdown, removeClient, releaseReplayLease. by repeat case_match.
  - simpl in Ha. injection Ha as <-. split; [by apply quiet_shutdown|left].
    unfold shutdown. by case_match.
Qed.

Lemma quiet_handleAll l h h' :
  quiet h → handleAll encodedLen frameAllowed l h = Some h' → quiet h'.
Proof.
  revert h; induction l as [|a l IH]; intros h Hq Hr; simpl in Hr; [by injection Hr as <-|].
  destruct (handle encodedLen frameAllowed a h) as [h1|] eqn:E; [|done].
  eapply IH; [|done]. by eapply quiet_handle in E as [? _].
Qed.

(** C24: As long as handlers run one at a time, an event leaves the buffer only
    when a later event is merged while no client is connected, when a client
    acknowledges a batch that held exactly the events removed, or when a
    legacy client's channel took it (or it cannot be encoded at all). *)
Theorem replay_loses_nothing history a h h' :
  handleAll encodedLen frameAllowed history newHub = Some h →
  handle encodedLen frameAllowed a h = Some h' →
  offline h' = offline h ∨
  (∃ coin e, a = OnEmit coin e ∧ clients h = ∅ ∧ offline h' = Append e (offline h)) ∨
  (∃ coin random c batch l k rem, a = OnAck coin random c batch ∧ lease h = Some l ∧
     conns h !! c = Some k ∧ ReplayBatch batch (lEvents l) rem ∈ written k ∧
     offline h = lEvents l ++ offline h') ∨
  (∃ i e c k, a = OnLegacy i ∧ offline h = e :: offline h' ∧ conns h' !! c = Some k ∧
     (encodedLen e = None ∨ last (send k) = Some (EventFrame e))).
Proof.
  intros Hh Ha. apply (quiet_handle a h h'); [|done].
  by eapply quiet_handleAll; [apply quiet_new|].
Qed.
End Safety.

(** ** What interleaved handlers lose *)

Definition frameEvents (f : Frame) : list event :=
  match f with ReplayBatch _ events _ => events | EventFrame e => [e] end.

(** No client was sent [e]: it is in no frame of any connection, alone or in a
    batch. *)
Definition neverSent (e : event) (h : Hub) : Prop :=
  map_Forall (λ _ k, Forall (λ f, e ∉ frameEvents f) (frames k)) (conns h).
#[global] Instance neverSent_dec e h : base.Decision (neverSent e h).
Proof. unfold neverSent. apply _. Defined.

(** Events so large that a batch holds one. *)
Definition large (e : event) : option N := Some 200000%N.
Definition anyFrame (c : cid) (f : Frame) : bool := true.

Definition firstEvent : event := TextChunk "s" "r" "one" "".
Definition secondEvent : event := OtherEvent "question".
Definition laterEvent : event := TextChunk "s" "r" "two" "".

Definition phone : cid := 1%nat.
Definition desktop : cid := 2%nat.

(** Two clients: the second leases the batch again while the acknowledgement
    of the first is between giving the lease back and committing. *)
Definition racingAcks : list action :=
  [EmitCheck (λ _, false) firstEvent; EmitAppend 0%nat;
   EmitCheck (λ _, false) secondEvent; EmitAppend 0%nat;
   Connect phone "" true; Connect desktop "" true;
   StartReplay false "b1" phone; WritePump phone; AckLease phone "b1";
   StartReplay false "b2" desktop; WritePump desktop;
   AckCommit false "b3" 0%nat; AckLease desktop "b2"; AckCommit false "b4" 0%nat].

(** One client: an event whose emitter saw no client is merged into the
    leased batch, so that the acknowledgement removes the event behind it. *)
Definition racingEmit : list action :=
  [EmitCheck (λ _, false) firstEvent; EmitAppend 0%nat;
   EmitCheck (λ _, false) secondEvent; EmitAppend 0%nat;
   EmitCheck (λ _, false) laterEvent;
   Connect phone "" true; StartReplay false "b1" phone; WritePump phone;
   EmitAppend 0%nat; AckLease phone "b1"; AckCommit false "b2" 0%nat].

(** When two acknowledgements interleave, or an acknowledgement with a
    late emission, an event leaves the buffer that no client was ever sent. *)
Theorem racing_replay_loses_event :
  (∃ h, steps large anyFrame racingAcks newHub = Some h ∧
     offline h = [] ∧ neverSent secondEvent h) ∧
  (∃ h, steps large anyFrame racingEmit newHub = Some h ∧
     secondEvent ∉ offline h ∧ neverSent secondEvent h).
Proof.
  split.
  - destruct (steps large anyFrame racingAcks newHub) as [h|] eqn:E;
      vm_compute in E; [|done]. injection E as <-.
    eexists. split_and!; [done|done|]. by apply (bool_decide_eq_true_1 _).
  - destruct (steps large anyFrame racingEmit newHub) as [h|] eqn:E;
      vm_compute in E; [|done]. injection E as <-.
    eexists. split_and!; [done|..]; by apply (bool_decide_eq_true_1 _).
Qed.

(** A leased batch with an event that cannot be encoded is never sent: its
    timer changes nothing, and no other client is given a lease. *)
Theorem malformed_batch_blocks encodedLen frameAllowed h l e coin :
  lease h = Some l → quitClosed (owner l) h = false →
  e ∈ lEvents l → encodedLen e = None →
  retryOfflineReplay encodedLen frameAllowed coin (owner l) (batchID l) h = h ∧
  ∀ random c, startOfflineReplay encodedLen frameAllowed coin random c h = h.
Proof.
  intros Hl Hq He Hn. split.
  - unfold retryOfflineReplay. rewrite Hl, !bool_decide_eq_true_2, Hq by done. simpl.
    unfold enqueueEvent. destruct (marshals encodedLen _) eqn:Em; [|done]. exfalso.
    simpl in Em. apply list_elem_of_In in He.
    pose proof (proj1 (forallb_forall _ _) Em e He) as H. simpl in H. bool_facts.
    destruct H as [? H]. by rewrite Hn in H.
  - intros random c. unfold startOfflineReplay, leaseBlocks. rewrite Hl, Hq, orb_true_r.
    by repeat case_match.
Qed.

(** A hub that reached the point the witnesses start from. *)
Definition leasedHub : Hub :=
  default newHub (handleAll large anyFrame
    [OnEmit (λ _, false) firstEvent; OnEmit (λ _, false) secondEvent;
     OnConnect phone "p1" true; OnHello false "b1" phone; OnWrite phone] newHub).

(** The phone acknowledges the batch it was sent. *)
Lemma replay_loses_nothing_witness :
  let h := default newHub (handle large anyFrame (OnAck false "b2" phone "b1") leasedHub) in
  offline h = [secondEvent] ∧
  (offline h = offline leasedHub ∨
   (∃ coin e, OnAck false "b2" phone "b1" = OnEmit coin e ∧ clients leasedHub = ∅ ∧
      offline h = Append e (offline leasedHub)) ∨
   (∃ coin random c batch l k rem, OnAck false "b2" phone "b1" = OnAck coin random c batch ∧
      lease leasedHub = Some l ∧ conns leasedHub !! c = Some k ∧
      ReplayBatch batch (lEvents l) rem ∈ written k ∧ offline leasedHub = lEvents l ++ offline h) ∨
   (∃ i e c k, OnAck false "b2" phone "b1" = OnLegacy i ∧ offline leasedHub = e :: offline h ∧
      conns h !! c = Some k ∧ (large e = None ∨ last (send k) = Some (EventFrame e)))).
Proof.
  split; [vm_compute; reflexivity|].
  apply (replay_loses_nothing large anyFrame
    [OnEmit (λ _, false) firstEvent; OnEmit (λ _, false) secondEvent;
     OnConnect phone "p1" true; OnHello false "b1" phone; OnWrite phone]).
  - vm_compute; reflexivity.
  - vm_compute; reflexivity.
Defined.

(** The encoder refuses the first event only. *)
Definition partlyMalformed (e : event) : option N :=
  if bool_decide (e = firstEvent) then None else Some 10%N.
Definition blockedHub : Hub :=
  default newHub (handleAll partlyMalformed anyFrame
    [OnEmit (λ _, false) firstEvent; OnEmit (λ _, false) secondEvent;
     OnConnect phone "p1" true; OnHello false "b1" phone; OnConnect desktop "p2" true] newHub).

Lemma malformed_batch_blocks_witness :
  neverSent secondEvent blockedHub ∧
  retryOfflineReplay partlyMalformed anyFrame false phone "b1" blockedHub = blockedHub ∧
  ∀ random c, startOfflineReplay partlyMalformed anyFrame false random c blockedHub = blockedHub.
Proof.
  split; [by apply (bool_decide_eq_true_1 _)|].
  apply (malformed_batch_blocks partlyMalformed anyFrame blockedHub
    (mkLease phone "b1" [firstEvent; secondEvent] 2) firstEvent false).
  - vm_compute; reflexivity.
  - vm_compute; reflexivity.
  - simpl. left.
  - vm_compute; reflexivity.
Defined.
