(* ===== verification/Governance.v ===== *)
(** * Pairing, access, session control and goals

    [src/internal/governance]: the credentials of trusted devices
    ([pairing.go]), who may write to a conversation ([session_control.go]) and
    the latest goal of every session ([goals.go]), with the gate of the
    handshake and of the router ([client.go], [hub.go], [router.go] of
    [src/internal/core]).

    Times are milliseconds; the zero [time.Time] is [None], which no instant
    is before.  A file is the value last renamed into place (strings are
    UTF-8, so JSON keeps them); what a write or a removal returns is an
    argument, nil when it succeeds. *)

From S2P Require Import Prelude Orders OfflineBuffer.

(** ** [pairing.go] *)
Module Pairing.

Definition ErrClaimedByAnother : string :=
  "Bridge pairing is closed; open a pairing window from a trusted device".
Definition ErrTokenMismatch : string := "Unauthorized: token mismatch".
Definition pairingSchemaVersion : Z := 2.
Definition initialEnrollmentDuration : Z := 10 * 60 * 1000.

Record pairedDevice := mkDevice {
  Token : string;
  DeviceID : string;
  PairedAt : Z }.
#[export] Instance pairedDevice_eta : Eta pairedDevice := λ d,
  mkDevice (Token d) (DeviceID d) (PairedAt d).
#[global] Instance pairedDevice_eq_dec : EqDecision pairedDevice.
Proof. solve_decision. Defined.

(** The last three fields are those of version 1, read and never written. *)
Record pairingFile := mkFile {
  Version : Z;
  Devices : list pairedDevice;
  PairedToken : string;
  PairedDeviceID : string;
  fPairedAt : Z }.

Record Pairing := mkPairing {
  path : string;
  devices : gmap string pairedDevice;
  enrollUntil : option Z;
  file : option pairingFile }.
#[export] Instance Pairing_eta : Eta Pairing := λ p,
  mkPairing (path p) (devices p) (enrollUntil p) (file p).

Definition loadDevices (f : option pairingFile) : gmap string pairedDevice :=
  match f with
  | None => ∅
  | Some f =>
      let ds := foldl (λ m d, if str_empty (Token d) then m else <[Token d := d]> m) ∅ (Devices f) in
      if bool_decide (ds = ∅) && negb (str_empty (PairedToken f))
      then {[PairedToken f := mkDevice (PairedToken f) (PairedDeviceID f) (fPairedAt f)]}
      else ds
  end.

(** [disk] is the file at [p], [None] when it is missing or does not parse. *)
Definition NewPairing (p : string) (disk : option pairingFile) (now : Z) : Pairing :=
  let ds := loadDevices disk in
  mkPairing p ds
    (if bool_decide (ds = ∅) then Some (now + initialEnrollmentDuration) else None) disk.

Definition IsLocked (p : Pairing) : bool := negb (bool_decide (devices p = ∅)).
Definition LockedTo (token : string) (p : Pairing) : bool :=
  negb (str_empty token) && bool_decide (is_Some (devices p !! token)).
Definition MatchesDevice (token deviceID : string) (p : Pairing) : bool :=
  match devices p !! token with
  | Some d => negb (str_empty token) && negb (str_empty deviceID) && bool_decide (DeviceID d = deviceID)
  | None => false
  end.
Definition EnrollmentOpen (now : Z) (p : Pairing) : bool :=
  match enrollUntil p with Some t => now <? t | None => false end.

Definition OpenEnrollment (duration now : Z) (p : Pairing) : Z * Pairing :=
  let duration := if duration <=? 0 then 2 * 60 * 1000 else duration in
  (now + duration, p <| enrollUntil := Some (now + duration) |>).

Definition token_le (a b : pairedDevice) : Prop := str_le (Token a) (Token b).
#[global] Instance token_le_dec : RelDecision token_le := λ a b, str_le_dec (Token a) (Token b).

Definition saveLocked (io : error) (p : Pairing) : error * Pairing :=
  if str_empty (path p) then (None, p)
  else
    match io with
    | Some e => (Some e, p)
    | None =>
        let ds := merge_sort token_le (map_to_list (devices p)).*2 in
        (None, p <| file := Some (mkFile pairingSchemaVersion ds "" "" 0) |>)
    end.

Definition closeEnrollmentLocked (p : Pairing) : Pairing := p <| enrollUntil := None |>.

Definition Claim (token deviceID : string) (now : Z) (io : error) (p : Pairing) : error * Pairing :=
  if str_empty token then (Some ErrTokenMismatch, p)
  else
    match devices p !! token with
    | Some existing =>
        saveLocked io (p <| devices := <[token := existing <| DeviceID := deviceID |>]> (devices p) |>)
    | None =>
        if IsLocked p && negb (EnrollmentOpen now p) then (Some ErrClaimedByAnother, p)
        else
          saveLocked io (closeEnrollmentLocked
            (p <| devices := <[token := mkDevice token deviceID (now / 1000)]> (devices p) |>))
    end.

(** What [os.Remove] returns is ignored. *)
Definition Unclaim (token : string) (now : Z) (io : error) (p : Pairing) : error * Pairing :=
  match devices p !! token with
  | None => (Some ErrTokenMismatch, p)
  | Some _ =>
      let p := p <| devices := delete token (devices p) |> in
      if bool_decide (devices p = ∅) then
        let p := p <| enrollUntil := Some (now + initialEnrollmentDuration) |> in
        (None, if str_empty (path p) then p
               else match io with None => p <| file := None |> | Some _ => p end)
      else saveLocked io p
  end.
End Pairing.

(** ** Who may connect and issue commands

    A connection is what the handshake and the claims left of it. *)
Module Access.
Import Pairing.

(** [env] is BRIDGE_AUTH_TOKEN, trimmed. *)
Definition authValid (env provided : string) (p : Pairing) : bool :=
  if negb (str_empty env) then negb (str_empty provided) && bool_decide (provided = env)
  else if IsLocked p then LockedTo provided p
  else false.

(** The decision of the handshake: [None] refuses, otherwise whether the
    connection may only enroll.  [eligible]: the transport is a direct private
    connection. *)
Definition handshake (env provided : string) (eligible : bool) (now : Z) (p : Pairing)
  : option bool :=
  if authValid env provided p then Some false
  else if str_empty env && negb (str_empty provided) && EnrollmentOpen now p && eligible
  then Some true
  else None.

(** The first gate of [route]. *)
Definition mayRoute (enrollmentOnly : bool) (kind : string) : bool :=
  negb enrollmentOnly || bool_decide (kind ∈ ["hello"; "claim_bridge"; "ping"]).

(** The commands of [route] that concern trust; [AppCommand] is any other. *)
Inductive command :=
  | ClaimBridge (token deviceID : string)
  | OpenPairingWindow
  | UnclaimBridge (token : string)
  | AppCommand (kind : string).

Definition kindOf (c : command) : string :=
  match c with
  | ClaimBridge _ _ => "claim_bridge"
  | OpenPairingWindow => "open_pairing_window"
  | UnclaimBridge _ => "unclaim_bridge"
  | AppCommand kind => kind
  end.

(** The bridge: its pairing, the open connections with their [enrollmentOnly]
    flag, and the application commands that passed the gate. *)
Record Bridge := mkBridge {
  pairing : Pairing;
  open : gmap nat bool;
  executed : list (nat * string) }.
#[export] Instance Bridge_eta : Eta Bridge := λ b, mkBridge (pairing b) (open b) (executed b).

Definition connect (env provided : string) (eligible : bool) (now : Z) (c : nat) (b : Bridge)
  : Bridge :=
  match handshake env provided eligible now (pairing b) with
  | Some enrollmentOnly => b <| open := <[c := enrollmentOnly]> (open b) |>
  | None => b
  end.

Definition disconnect (c : nat) (b : Bridge) : Bridge := b <| open := delete c (open b) |>.

Definition route (now : Z) (io : error) (c : nat) (cmd : command) (b : Bridge) : Bridge :=
  match open b !! c with
  | None => b
  | Some enrollmentOnly =>
      if negb (mayRoute enrollmentOnly (kindOf cmd)) then b
      else
        match cmd with
        | ClaimBridge token deviceID =>
            if str_empty token then b
            else
              let '(err, p) := Claim token deviceID now io (pairing b) in
              let b := b <| pairing := p |> in
              match err with
              | Some _ => b
              | None => b <| open := <[c := false]> (open b) |>
              end
        | OpenPairingWindow => b <| pairing := (OpenEnrollment (2 * 60 * 1000) now (pairing b)).2 |>
        | UnclaimBridge token => b <| pairing := (Unclaim token now io (pairing b)).2 |>
        | AppCommand kind =>
            if bool_decide (kind ∈ ["hello"; "claim_bridge"; "ping"]) then b
            else b <| executed := executed b ++ [(c, kind)] |>
        end
  end.

Inductive step :=
  | Connect (provided : string) (eligible : bool) (now : Z) (c : nat)
  | Disconnect (c : nat)
  | Route (now : Z) (io : error) (c : nat) (cmd : command).

Definition exec (env : string) (s : step) (b : Bridge) : Bridge :=
  match s with
  | Connect provided eligible now c => connect env provided eligible now c b
  | Disconnect c => disconnect c b
  | Route now io c cmd => route now io c cmd b
  end.
Definition run (env : string) (l : list step) (b : Bridge) : Bridge :=
  foldl (λ b s, exec env s b) b l.
End Access.

(** ** [session_control.go] *)
Module Control.
Definition ControlMobile : string := "mobile".
Definition ControlDesktop : string := "desktop".
Definition ControlActive : string := "active".
Definition ControlPending : string := "pending_handoff".

Record SessionControl := mkControl {
  SessionID : string;
  ThreadID : string;
  Owner : string;
  State : string;
  UpdatedAt : Z }.
#[export] Instance SessionControl_eta : Eta SessionControl := λ s,
  mkControl (SessionID s) (ThreadID s) (Owner s) (State s) (UpdatedAt s).
#[global] Instance SessionControl_eq_dec : EqDecision SessionControl.
Proof. solve_decision. Defined.
Definition zeroControl : SessionControl := mkControl "" "" "" "" 0.

(** [file] is the JSON map, [None] without a path or before the first save. *)
Record SessionControlStore := mkStore {
  path : string;
  entries : gmap string SessionControl;
  file : option (gmap string SessionControl) }.
#[export] Instance SessionControlStore_eta : Eta SessionControlStore := λ s,
  mkStore (path s) (entries s) (file s).

Definition NewSessionControlStore (path : string) (disk : option (gmap string SessionControl))
  : SessionControlStore :=
  mkStore path (if str_empty path then ∅ else default ∅ disk) disk.

Definition saveLocked (io : error) (s : SessionControlStore) : SessionControlStore :=
  if str_empty (path s) then s
  else match io with None => s <| file := Some (entries s) |> | Some _ => s end.

Definition put (io : error) (id : string) (e : SessionControl) (s : SessionControlStore)
  : SessionControlStore :=
  saveLocked io (s <| entries := <[id := e]> (entries s) |>).

Definition Get (id : string) (s : SessionControlStore) : SessionControl :=
  default (mkControl id "" ControlMobile ControlActive 0) (entries s !! id).

Definition errControlRequired : string := "session and Codex thread are required".
Definition errControlTaken : string := "session is already handed off or handoff is pending".

Definition BeginDesktopHandoff (id threadID : string) (now : Z) (io : error) (s : SessionControlStore)
  : SessionControl * error * SessionControlStore :=
  if str_empty id || str_empty threadID then (zeroControl, Some errControlRequired, s)
  else
    let current := default zeroControl (entries s !! id) in
    if bool_decide (Owner current = ControlDesktop) || bool_decide (State current = ControlPending)
    then (current, Some errControlTaken, s)
    else
      let e := mkControl id threadID ControlMobile ControlPending now in
      (e, None, put io id e s).

Definition CompleteDesktopHandoff (id : string) (now : Z) (io : error) (s : SessionControlStore)
  : SessionControl * SessionControlStore :=
  let e := (default zeroControl (entries s !! id))
    <| SessionID := id |> <| Owner := ControlDesktop |> <| State := ControlActive |>
    <| UpdatedAt := now |> in
  (e, put io id e s).

Definition MarkDesktopOwner (id threadID : string) (now : Z) (io : error) (s : SessionControlStore)
  : SessionControl * bool * SessionControlStore :=
  let current := default zeroControl (entries s !! id) in
  if bool_decide (Owner current = ControlDesktop) && bool_decide (State current = ControlActive) &&
     bool_decide (ThreadID current = threadID)
  then (current, false, s)
  else
    let e := mkControl id threadID ControlDesktop ControlActive now in
    (e, true, put io id e s).

Definition CancelPending (id : string) (now : Z) (io : error) (s : SessionControlStore)
  : SessionControl * SessionControlStore :=
  let e := (default zeroControl (entries s !! id))
    <| SessionID := id |> <| Owner := ControlMobile |> <| State := ControlActive |>
    <| UpdatedAt := now |> in
  (e, put io id e s).

Definition Reclaim (id threadID : string) (now : Z) (io : error) (s : SessionControlStore)
  : SessionControl * SessionControlStore :=
  let e := mkControl id threadID ControlMobile ControlActive now in
  (e, put io id e s).

Definition MobileMayWrite (id : string) (s : SessionControlStore) : bool :=
  negb (bool_decide (Owner (Get id s) = ControlDesktop)) &&
  negb (bool_decide (State (Get id s) = ControlPending)).

Inductive op :=
  | Begin (id threadID : string) (now : Z) (io : error)
  | Complete (id : string) (now : Z) (io : error)
  | MarkDesktop (id threadID : string) (now : Z) (io : error)
  | Cancel (id : string) (now : Z) (io : error)
  | ReclaimOp (id threadID : string) (now : Z) (io : error).

Definition exec (o : op) (s : SessionControlStore) : SessionControlStore :=
  match o with
  | Begin id t now io => (BeginDesktopHandoff id t now io s).2
  | Complete id now io => (CompleteDesktopHandoff id now io s).2
  | MarkDesktop id t now io => (MarkDesktopOwner id t now io s).2
  | Cancel id now io => (CancelPending id now io s).2
  | ReclaimOp id t now io => (Reclaim id t now io s).2
  end.
Definition run (l : list op) (s : SessionControlStore) : SessionControlStore :=
  foldl (λ s o, exec o s) s l.
End Control.

(** ** [goals.go] *)
Module Goals.
Record goalRecord := mkRecord {
  goal : option Goal;
  Revision : Z }.
#[global] Instance goalRecord_eq_dec : EqDecision goalRecord.
Proof. solve_decision. Defined.

Record goalStateFile := mkFile {
  fRevision : Z;
  fItems : option (gmap string goalRecord) }.

Record GoalStateStore := mkStore {
  path : string;
  revision : Z;
  items : gmap string goalRecord;
  file : option goalStateFile }.
#[export] Instance GoalStateStore_eta : Eta GoalStateStore := λ s,
  mkStore (path s) (revision s) (items s) (file s).

Definition NewGoalStateStore (path : string) (disk : option goalStateFile) : GoalStateStore :=
  match disk with
  | Some f =>
      if str_empty path then mkStore path 0 ∅ disk
      else mkStore path (fRevision f) (default ∅ (fItems f)) disk
  | None => mkStore path 0 ∅ None
  end.

Definition persistLocked (io : error) (s : GoalStateStore) : GoalStateStore :=
  if str_empty (path s) then s
  else match io with
       | None => s <| file := Some (mkFile (revision s) (Some (items s))) |>
       | Some _ => s
       end.

(** The session and the new goal of a goal transition. *)
Definition goalOf (e : event) : option (string * option Goal) :=
  match e with
  | GoalUpdate sid g => Some (sid, Some g)
  | GoalCleared sid => Some (sid, None)
  | _ => None
  end.

(** A goal older than the one known, or equal to it, is ignored. *)
Definition outdated (current next : option Goal) : bool :=
  match current, next with
  | Some c, Some n => gUpdatedAt n <? gUpdatedAt c
  | _, _ => false
  end || bool_decide (current = next).

Definition Apply (e : event) (io : error) (s : GoalStateStore) : bool * GoalStateStore :=
  match goalOf e with
  | None => (false, s)
  | Some (sid, next) =>
      if str_empty sid then (false, s)
      else if match items s !! sid with Some r => outdated (goal r) next | None => false end
      then (false, s)
      else
        let rev := u64_succ (revision s) in
        (true, persistLocked io (s <| revision := rev |>
                 <| items := <[sid := mkRecord next rev]> (items s) |>))
  end.

(** The items of the snapshot, by session identifier. *)
Definition Snapshot (s : GoalStateStore) : Z * list (string * goalRecord) :=
  (revision s,
   omap (λ id, r ← items s !! id; Some (id, r)) (sort_strings (map_to_list (items s)).*1)).
End Goals.
