(* ===== verification/GovernanceProps.v ===== *)
(** * Correctness of pairing, access, session control and goals *)

From S2P Require Import Prelude Orders OfflineBuffer.
From S2P Require Import Governance.

(** ** Access *)
Module AccessProps.
Import Pairing Access.

Lemma run_snoc env l s b : run env (l ++ [s]) b = exec env s (run env l b).
Proof. unfold run. by rewrite foldl_app. Qed.

(** The moments at which trust is given: a connection that presents a trusted
    credential, or one that claims the bridge. *)
Definition trustedAt (env : string) (b : Bridge) (s : step) (c : nat) : Prop :=
  match s with
  | Connect provided _ _ c' => c' = c ∧ authValid env provided (pairing b) = true
  | Route now io c' (ClaimBridge token deviceID) =>
      c' = c ∧ is_Some (open b !! c) ∧ (Claim token deviceID now io (pairing b)).1 = None
  | _ => False
  end.

Definition earnedTrust (env : string) (b0 : Bridge) (l : list step) (c : nat) : Prop :=
  ∃ l1 s l2, l = l1 ++ s :: l2 ∧ trustedAt env (run env l1 b0) s c.

Lemma earned_snoc env b0 l s c : earnedTrust env b0 l c → earnedTrust env b0 (l ++ [s]) c.
Proof.
  intros (l1 & s' & l2 & -> & H). exists l1, s', (l2 ++ [s]). by rewrite <- app_assoc.
Qed.

Lemma earned_now env b0 l s c :
  trustedAt env (run env l b0) s c → earnedTrust env b0 (l ++ [s]) c.
Proof. intros H. by exists l, s, []. Qed.

Lemma trust_invariant env b0 l :
  open b0 = ∅ → executed b0 = [] →
  (∀ c, open (run env l b0) !! c = Some false → earnedTrust env b0 l c) ∧
  (∀ c kind, (c, kind) ∈ executed (run env l b0) → earnedTrust env b0 l c).
Proof.
  intros Ho He. induction l as [|s l [IH1 IH2]] using rev_ind.
  { simpl. rewrite Ho, He. split; [by intros|]. intros c kind Hin. by apply elem_of_nil in Hin. }
  rewrite run_snoc. set (b := run env l b0) in *.
  assert (∀ c, open b !! c = Some false → earnedTrust env b0 (l ++ [s]) c) as K1
    by eauto using earned_snoc.
  assert (∀ c kind, (c, kind) ∈ executed b → earnedTrust env b0 (l ++ [s]) c) as K2
    by eauto using earned_snoc.
  destruct s as [provided eligible now c|c|now io c cmd]; simpl.
  - unfold connect, handshake. fold b.
    destruct (authValid env provided (pairing b)) eqn:Ea; simpl.
    + split; [|done]. intros d. destruct (decide (d = c)) as [->|];
        [intros _; by apply earned_now|rewrite lookup_insert_ne by done; auto].
    + destruct (_ && eligible); [|done]. simpl. split; [|done]. intros d.
      destruct (decide (d = c)) as [->|]; [by rewrite lookup_insert_eq|].
      rewrite lookup_insert_ne by done. auto.
  - split; [|done]. intros d [_ Hd]%lookup_delete_Some. auto.
  - unfold route. destruct (open b !! c) as [eo|] eqn:Ec; [|done].
    destruct (negb (mayRoute eo (kindOf cmd))) eqn:Em; [done|].
    destruct cmd as [token dev| |token|kind]; simpl; [|done|done|].
    + destruct (str_empty token); [done|].
      destruct (Claim token dev now io (pairing b)) as [[err|] p] eqn:Ecl; simpl; [done|].
      split; [|done]. intros d. destruct (decide (d = c)) as [->|].
      * intros _. apply earned_now. simpl. split_and!; [done|by eexists|]. fold b. by rewrite Ecl.
      * rewrite lookup_insert_ne by done. auto.
    + case_bool_decide; [done|]. simpl. split; [done|].
      intros d k [Hin|Hin]%elem_of_app; [by eapply K2|].
      apply list_elem_of_singleton in Hin. injection Hin as -> ->.
      apply negb_false_iff in Em. unfold mayRoute in Em. simpl in Em.
      destruct eo; simpl in Em; [by bool_facts|by apply K1].
Qed.

(** C25: Over every history of connections and commands, an application command
    runs only on a connection that presented a trusted credential when it
    connected, or that claimed the bridge itself; a connection let in to
    enroll runs nothing before. *)
Theorem commands_need_trust env b0 l c kind :
  open b0 = ∅ → executed b0 = [] →
  (c, kind) ∈ executed (run env l b0) → earnedTrust env b0 l c.
Proof. intros Ho He. by apply (trust_invariant env b0 l Ho He). Qed.

(** ** Tokens *)

(** What a successful save changes: the file, nothing else. *)
Lemma saveLocked_devices io p :
  devices (saveLocked io p).2 = devices p ∧ enrollUntil (saveLocked io p).2 = enrollUntil p ∧
  path (saveLocked io p).2 = path p.
Proof. unfold saveLocked. by repeat case_match. Qed.

Lemma Claim_tokens token dev now io p :
  let p' := (Claim token dev now io p).2 in
  (dom (devices p') = dom (devices p) ∧ enrollUntil p' = enrollUntil p) ∨
  (token ∉ dom (devices p) ∧ token ≠ "" ∧ (IsLocked p = false ∨ EnrollmentOpen now p = true) ∧
   dom (devices p') = {[token]} ∪ dom (devices p) ∧ enrollUntil p' = None).
Proof.
  unfold Claim. destruct (str_empty token) eqn:Et; [by left|]. bool_facts.
  destruct (devices p !! token) as [d|] eqn:Ed.
  - left. set (p1 := p <| devices := _ |>). destruct (saveLocked_devices io p1) as (-> & -> & _).
    subst p1. simpl. split; [|done]. apply dom_insert_lookup_L. by eexists.
  - destruct (IsLocked p && negb (EnrollmentOpen now p)) eqn:Eg; [by left|right].
    set (p1 := closeEnrollmentLocked _). destruct (saveLocked_devices io p1) as (-> & -> & _).
    subst p1. simpl. split_and!; [by apply not_elem_of_dom|done| |apply dom_insert_L|done].
    apply andb_false_iff in Eg as [Eg|Eg]; bool_facts; auto.
Qed.

Lemma Unclaim_tokens token now io p :
  let p' := (Unclaim token now io p).2 in
  dom (devices p') = dom (devices p) ∖ (if bool_decide (token ∈ dom (devices p)) then {[token]} else ∅).
Proof.
  unfold Unclaim. destruct (devices p !! token) as [d|] eqn:Ed.
  - rewrite (bool_decide_eq_true_2 (token ∈ dom (devices p))) by (apply elem_of_dom; by eexists).
    case_bool_decide as Hemp; simpl in Hemp.
    + simpl. repeat case_match; simpl; rewrite dom_delete_L; set_solver.
    + destruct (saveLocked_devices io (p <| devices := delete token (devices p) |>)) as (-> & _).
      simpl. rewrite dom_delete_L. set_solver.
  - rewrite (bool_decide_eq_false_2 (token ∈ dom (devices p))) by (by apply not_elem_of_dom). set_solver.
Qed.

(** A token becomes trusted only when an open connection claims it while no
    device is paired or an enrollment window is open. *)
Definition enrolled (env : string) (b0 : Bridge) (l : list step) (token : string) : Prop :=
  ∃ l1 now io c dev l2, l = l1 ++ Route now io c (ClaimBridge token dev) :: l2 ∧
    let b := run env l1 b0 in
    is_Some (open b !! c) ∧ (IsLocked (pairing b) = false ∨ EnrollmentOpen now (pairing b) = true).

(** Over every history, a trusted token was trusted from the start, or an
    open connection claimed it at a moment when no device was paired or an
    enrollment window stood open. *)
Theorem tokens_are_enrolled env b0 l token :
  token ∈ dom (devices (pairing (run env l b0))) →
  token ∈ dom (devices (pairing b0)) ∨ enrolled env b0 l token.
Proof.
  induction l as [|s l IH] using rev_ind; [by left|]. rewrite run_snoc.
  set (b := run env l b0) in *.
  assert (token ∈ dom (devices (pairing b)) →
    token ∈ dom (devices (pairing b0)) ∨ enrolled env b0 (l ++ [s]) token) as K.
  { intros [?|(l1 & now & io & c & dev & l2 & -> & H)]%IH; [by left|right].
    exists l1, now, io, c, dev, (l2 ++ [s]). by rewrite <- app_assoc. }
  destruct s as [provided eligible now c|c|now io c cmd]; simpl.
  - unfold connect. destruct (handshake _ _ _ _ _); apply K.
  - apply K.
  - unfold route. destruct (open b !! c) as [eo|] eqn:Ec; [|apply K].
    destruct (negb (mayRoute eo (kindOf cmd))) eqn:Em; [apply K|].
    destruct cmd as [t dev| |t|kind]; simpl; [|apply K| |case_bool_decide; apply K].
    + destruct (str_empty t); [apply K|].
      pose proof (Claim_tokens t dev now io (pairing b)) as Hcl.
      destruct (Claim t dev now io (pairing b)) as [err p]. simpl in Hcl.
      assert (token ∈ dom (devices p) →
        token ∈ dom (devices (pairing b0)) ∨ enrolled env b0 (l ++ [Route now io c (ClaimBridge t dev)]) token).
      { destruct Hcl as [[-> _]|(_ & _ & Hw & -> & _)]; [done|].
        intros [->%elem_of_singleton|?]%elem_of_union; [right|by apply K].
        exists l, now, io, c, dev, []. split; [done|]. fold b. split; [by eexists|done]. }
      destruct err; done.
    + pose proof (Unclaim_tokens t now io (pairing b)) as Hu.
      simpl in Hu. rewrite Hu. intros Hin. apply K. set_solver.
Qed.

(** The steps that open an enrollment window: a client asks for one, or a
    credential is revoked (the last one reopens enrollment). *)
Definition reopens (s : step) : bool :=
  match s with
  | Route _ _ _ OpenPairingWindow | Route _ _ _ (UnclaimBridge _) => true
  | _ => false
  end.

Definition enrolledAll (b : Bridge) : Prop :=
  IsLocked (pairing b) = true ∧ enrollUntil (pairing b) = None.

(** A claim that makes a new token trusted closes the enrollment window:
    until a client opens another or a credential is revoked, no further token
    becomes trusted, whatever connects and claims. *)
Theorem one_device_per_window env token dev now io c b l :
  token ∉ dom (devices (pairing b)) →
  let b1 := route now io c (ClaimBridge token dev) b in
  token ∈ dom (devices (pairing b1)) →
  Forall (λ s, reopens s = false) l →
  dom (devices (pairing (run env l b1))) = dom (devices (pairing b1)).
Proof.
  intros Hnew b1 Hin Hl.
  assert (enrolledAll b1) as Hall.
  { subst b1. unfold route in *. destruct (open b !! c); [|done].
    destruct (negb _); [done|]. destruct (str_empty token); [done|].
    pose proof (Claim_tokens token dev now io (pairing b)) as Hcl.
    destruct (Claim token dev now io (pairing b)) as [err p].
    simpl in Hcl. assert (token ∈ dom (devices p)) as Hp by (destruct err; done).
    destruct Hcl as [[Hd _]|(_ & _ & _ & Hd & He)]; [by rewrite Hd in Hp|].
    assert (enrolledAll (b <| pairing := p |>)) as H; [|destruct err; exact H].
    split; [|done]. unfold IsLocked. simpl. rewrite bool_decide_eq_false_2; [done|].
    intros E. rewrite E, dom_empty_L in Hp. set_solver. }
  enough (enrolledAll (run env l b1) ∧ dom (devices (pairing (run env l b1))) = dom (devices (pairing b1)))
    by tauto.
  induction l as [|s l IH] using rev_ind; [done|].
  apply Forall_app in Hl as [Hl Hs]. rewrite Forall_singleton in Hs.
  destruct (IH Hl) as [[Hlock Hnone] Hdom]. rewrite run_snoc, <- Hdom.
  set (b2 := run env l b1) in *. clearbody b2. clear -Hlock Hnone Hs.
  destruct s as [provided eligible t d|d|t io' d cmd]; simpl; [|done|].
  { unfold connect. by destruct (handshake _ _ _ _ _). }
  unfold route. destruct (open b2 !! d) as [eo|]; [|done]. destruct (negb _); [done|].
  destruct cmd as [tok dv| |tok|kind]; simpl in *; [|done|done|by case_bool_decide].
  destruct (str_empty tok); [done|].
  pose proof (Claim_tokens tok dv t io' (pairing b2)) as Hcl.
  destruct (Claim tok dv t io' (pairing b2)) as [err p]. simpl in Hcl.
  destruct Hcl as [[Hd He]|(_ & _ & [Hw|Hw] & _)].
  - assert (enrolledAll (b2 <| pairing := p |>) ∧ dom (devices p) = dom (devices (pairing b2)))
      as H; [|destruct err; exact H].
    split; [|done]. split; [|simpl; by rewrite He]. unfold IsLocked in *. simpl.
    apply negb_true_iff, bool_decide_eq_false_2. apply negb_true_iff, bool_decide_eq_false in Hlock.
    intros E. apply Hlock. apply dom_empty_iff_L. rewrite <- Hd, E. apply dom_empty_L.
  - by rewrite Hlock in Hw.
  - unfold EnrollmentOpen in Hw. by rewrite Hnone in Hw.
Qed.

(** ** Restart *)
Definition stepDisk (s : step) : error :=
  match s with Route _ io _ _ => io | _ => None end.

Definition addDevice (m : gmap string pairedDevice) (d : pairedDevice) : gmap string pairedDevice :=
  if str_empty (Token d) then m else <[Token d := d]> m.

Lemma fold_out l m t : t ∉ (Token <$> l) → foldl addDevice m l !! t = m !! t.
Proof.
  revert m; induction l as [|d l IH]; intros m Ht; [done|]. simpl in *.
  apply not_elem_of_cons in Ht as [Hne Ht]. rewrite IH by done.
  unfold addDevice. case_match; [done|]. by rewrite lookup_insert_ne.
Qed.

Lemma fold_in l m d :
  NoDup (Token <$> l) → Token d ≠ "" → d ∈ l → foldl addDevice m l !! Token d = Some d.
Proof.
  revert m; induction l as [|e l IH]; intros m Hn Hne Hin; [by apply elem_of_nil in Hin|].
  simpl in *. apply NoDup_cons in Hn as [He Hn].
  apply elem_of_cons in Hin as [->|Hin]; [|by apply IH].
  rewrite fold_out by done. unfold addDevice, str_empty. rewrite bool_decide_eq_false_2 by done.
  apply lookup_insert_eq.
Qed.

(** The map of a pairing: every device under its own token. *)
Definition wfDevices (m : gmap string pairedDevice) : Prop :=
  ∀ t d, m !! t = Some d → Token d = t ∧ t ≠ "".

Lemma fold_wf l m : wfDevices m → wfDevices (foldl addDevice m l).
Proof.
  revert m; induction l as [|d l IH]; intros m Hm; [done|]. simpl. apply IH.
  unfold addDevice. destruct (str_empty (Token d)) eqn:E; [done|]. bool_facts.
  intros t e. destruct (decide (t = Token d)) as [->|].
  - rewrite lookup_insert_eq. by intros [= <-].
  - rewrite lookup_insert_ne by done. apply Hm.
Qed.

Lemma load_wf f : wfDevices (loadDevices f).
Proof.
  destruct f as [f|]; simpl; [|by intros t d; rewrite lookup_empty].
  change (foldl _ ∅ (Devices f)) with (foldl addDevice ∅ (Devices f)).
  destruct (bool_decide _ && _) eqn:E.
  - bool_facts. intros t d. rewrite lookup_singleton_Some. by intros [<- <-].
  - apply fold_wf. intros t d. by rewrite lookup_empty.
Qed.

(** Loading what a save wrote gives the devices back. *)
Lemma load_saved m :
  wfDevices m →
  loadDevices (Some (mkFile pairingSchemaVersion (merge_sort token_le (map_to_list m).*2) "" "" 0)) = m.
Proof.
  intros Hwf. simpl. change (foldl _ ∅ ?l) with (foldl addDevice ∅ l).
  set (l := merge_sort token_le (map_to_list m).*2).
  assert (l ≡ₚ (map_to_list m).*2) as Hperm by apply merge_sort_Permutation.
  assert (∀ d, d ∈ l ↔ m !! Token d = Some d) as Hin.
  { intros d. rewrite Hperm, list_elem_of_fmap. split.
    - intros ([t e] & -> & He). apply elem_of_map_to_list in He. simpl. by destruct (Hwf _ _ He) as [-> _].
    - intros Hd. exists (Token d, d). split; [done|]. by apply elem_of_map_to_list. }
  assert (Token <$> l ≡ₚ (map_to_list m).*1) as Htok.
  { rewrite Hperm, <- list_fmap_compose.
    replace (Token ∘ snd <$> map_to_list m) with (fst <$> map_to_list m); [done|].
    apply list_fmap_ext. intros i [t d] Hi. simpl.
    apply list_elem_of_lookup_2, elem_of_map_to_list in Hi. by destruct (Hwf _ _ Hi). }
  assert (NoDup (Token <$> l)) as Hnd by (rewrite Htok; apply NoDup_fst_map_to_list).
  rewrite andb_false_r. apply map_eq. intros t. destruct (m !! t) as [d|] eqn:Et.
  - destruct (Hwf _ _ Et) as [<- Hne]. apply fold_in; [done|done|]. by apply Hin.
  - rewrite fold_out; [apply lookup_empty|]. rewrite Htok.
    intros ([t' d] & -> & Hi)%list_elem_of_fmap. apply elem_of_map_to_list in Hi.
    simpl in Et. by rewrite Et in Hi.
Qed.

Definition durable (p : Pairing) : Prop :=
  path p ≠ "" ∧ wfDevices (devices p) ∧ loadDevices (file p) = devices p.

Lemma save_durable p : path p ≠ "" → wfDevices (devices p) → durable (saveLocked None p).2.
Proof.
  intros Hp Hwf. unfold saveLocked, str_empty. rewrite bool_decide_eq_false_2 by done.
  split_and!; [done|done|]. by apply load_saved.
Qed.

Lemma Claim_durable token dev now p : durable p → durable (Claim token dev now None p).2.
Proof.
  intros (Hp & Hwf & Hl). unfold Claim. destruct (str_empty token) eqn:Et; [done|]. bool_facts.
  assert (∀ d, Token d = token → wfDevices (<[token:=d]> (devices p))) as Hins.
  { intros d Hd t e. destruct (decide (t = token)) as [->|].
    - rewrite lookup_insert_eq. by intros [= <-].
    - rewrite lookup_insert_ne by done. apply Hwf. }
  destruct (devices p !! token) as [d|] eqn:Ed.
  - apply save_durable; [done|]. simpl. apply Hins. simpl. by apply (Hwf token d).
  - destruct (_ && _); [done|]. apply save_durable; [done|]. by apply Hins.
Qed.

Lemma Unclaim_durable token now p : durable p → durable (Unclaim token now None p).2.
Proof.
  intros (Hp & Hwf & Hl). unfold Unclaim. destruct (devices p !! token) as [d|] eqn:Ed; [|done].
  assert (wfDevices (delete token (devices p))) as Hdel.
  { intros t e [_ He]%lookup_delete_Some. by apply Hwf. }
  case_bool_decide as He; simpl in He.
  - simpl. unfold str_empty. rewrite bool_decide_eq_false_2 by done.
    split_and!; [done|done|]. simpl. by rewrite He.
  - by apply save_durable.
Qed.

(** After any history in which every write and removal of the pairing
    file succeeded, a restarted bridge trusts exactly the credentials, bound
    to exactly the devices, that it trusted before. *)
Theorem restart_keeps_pairing env path disk now0 l now :
  path ≠ "" → Forall (λ s, stepDisk s = None) l →
  let p := pairing (run env l (mkBridge (NewPairing path disk now0) ∅ [])) in
  devices (NewPairing path (file p) now) = devices p.
Proof.
  intros Hp Hl. simpl.
  enough (durable (pairing (run env l (mkBridge (NewPairing path disk now0) ∅ [])))) as H by apply H.
  induction l as [|s l IH] using rev_ind.
  { split_and!; [done|apply load_wf|done]. }
  apply Forall_app in Hl as [Hl Hs]. rewrite Forall_singleton in Hs. specialize (IH Hl).
  rewrite run_snoc. set (b := run env l _) in *. clearbody b.
  destruct s as [provided eligible t d|d|t io d cmd]; simpl in *; [|done|].
  { unfold connect. by destruct (handshake _ _ _ _ _). }
  subst io. unfold route. destruct (open b !! d) as [eo|]; [|done]. destruct (negb _); [done|].
  destruct cmd as [tok dv| |tok|kind]; simpl; [|done|by apply Unclaim_durable|by case_bool_decide].
  destruct (str_empty tok); [done|]. pose proof (Claim_durable tok dv t _ IH) as Hc.
  destruct (Claim tok dv t None (pairing b)) as [err p]. by destruct err.
Qed.

(** ** Failing disks *)

Lemma LockedTo_some token p : LockedTo token p = true ↔ token ≠ "" ∧ is_Some (devices p !! token).
Proof.
  unfold LockedTo, str_empty. split; intros H.
  - by bool_facts.
  - destruct H. by rewrite bool_decide_eq_false_2, bool_decide_eq_true_2.
Qed.
Lemma LockedTo_none token p : devices p !! token = None → LockedTo token p = false.
Proof.
  intros H. destruct (LockedTo token p) eqn:E; [|done].
  apply LockedTo_some in E as [_ [d Hd]]. congruence.
Qed.

Lemma delete_last (m : gmap string pairedDevice) t :
  is_Some (m !! t) → delete t m = ∅ ↔ dom m = {[t]}.
Proof.
  intros Ht. apply elem_of_dom in Ht. rewrite <- dom_empty_iff_L, dom_delete_L. split.
  - intros H. apply set_eq. intros x. split; [|by intros ->%elem_of_singleton].
    intros Hx. destruct (decide (x = t)) as [->|]; [by apply elem_of_singleton|].
    assert (x ∈ dom m ∖ {[t]}) as Hin by (apply elem_of_difference; by rewrite elem_of_singleton).
    rewrite H in Hin. by apply elem_of_empty in Hin.
  - intros ->. apply difference_diag_L.
Qed.

(** What a failing disk does to pairing: a claim that reports an error
    nevertheless trusts the token until a restart; a revocation holds until a
    restart only, and for the last device it is even reported as a success. *)
Theorem pairing_disk_failures token dev now io p later :
  durable p → token ≠ "" →
  (devices p !! token = None → IsLocked p = false ∨ EnrollmentOpen now p = true →
   let r := Claim token dev now (Some io) p in
   r.1 = Some io ∧ LockedTo token r.2 = true ∧
   LockedTo token (NewPairing (path p) (file r.2) later) = false) ∧
  (is_Some (devices p !! token) →
   let r := Unclaim token now (Some io) p in
   r.1 = (if bool_decide (dom (devices p) = {[token]}) then None else Some io) ∧
   LockedTo token r.2 = false ∧
   LockedTo token (NewPairing (path p) (file r.2) later) = true).
Proof.
  intros (Hp & Hwf & Hl) Hne. assert (str_empty (path p) = false) as Hpe by (by apply bool_decide_eq_false_2).
  split.
  - intros Hn Hw. unfold Claim, saveLocked, closeEnrollmentLocked.
    assert (str_empty token = false) as -> by (by apply bool_decide_eq_false_2). rewrite Hn.
    assert (IsLocked p && negb (EnrollmentOpen now p) = false) as ->.
    { destruct Hw as [-> | ->]; [done|apply andb_false_r]. }
    simpl. rewrite Hpe. simpl. split_and!; [done| |].
    + apply LockedTo_some. split; [done|]. simpl. rewrite lookup_insert_eq. by eexists.
    + apply LockedTo_none. simpl. by rewrite Hl.
  - intros [d Hd]. unfold Unclaim, saveLocked. rewrite Hd. simpl. rewrite Hpe.
    assert (devices (NewPairing (path p) (file p) later) = devices p) as Hre by done.
    assert (LockedTo token (NewPairing (path p) (file p) later) = true) as Hlock.
    { apply LockedTo_some. split; [done|]. rewrite Hre. by eexists. }
    assert (delete token (devices p) = ∅ ↔ dom (devices p) = {[token]}) as Hiff.
    { apply delete_last. by eexists. }
    case_bool_decide as He; simpl.
    + rewrite bool_decide_eq_true_2 by by apply Hiff. split_and!; [done| |done].
      apply LockedTo_none. simpl. apply lookup_delete_eq.
    + rewrite bool_decide_eq_false_2 by (by rewrite <- Hiff). split_and!; [done| |done].
      apply LockedTo_none. simpl. apply lookup_delete_eq.
Qed.

(** Revoking a credential does not end the connections it opened. *)
Lemma revoked_connection_runs_commands b c token now kind :
  open b !! c = Some false → kind ∉ ["hello"; "claim_bridge"; "ping"] →
  (c, kind) ∈ executed (route now None c (AppCommand kind) (route now None c (UnclaimBridge token) b)).
Proof.
  intros Ho Hk. unfold route at 2. rewrite Ho. simpl. unfold route. simpl. rewrite Ho.
  unfold mayRoute. simpl. rewrite bool_decide_eq_false_2 by done. simpl.
  apply elem_of_app. right. by apply list_elem_of_singleton.
Qed.

(** The owner's phone pairs in the first window, opens a second one for a
    tablet, and a third device comes too late. *)
Definition pairingHistory : list step :=
  [Connect "tok1" true 1000 1; Route 2000 None 1 (ClaimBridge "tok1" "phone");
   Route 3000 None 1 OpenPairingWindow; Connect "tok2" true 4000 2; Connect "tok3" true 4000 3;
   Route 5000 None 2 (ClaimBridge "tok2" "tablet"); Route 6000 None 3 (ClaimBridge "tok3" "stranger");
   Route 7000 None 3 (AppCommand "kill_process"); Route 8000 None 2 (AppCommand "new_session")].
Definition newBridge : Bridge := mkBridge (NewPairing "pairing.json" None 0) ∅ [].

Example pairing_history_result :
  let b := run "" pairingHistory newBridge in
  executed b = [(2%nat, "new_session")] ∧ dom (devices (pairing b)) = {["tok1"; "tok2"]}.
Proof. split; vm_compute; reflexivity. Qed.

Lemma commands_need_trust_witness :
  executed (run "" pairingHistory newBridge) = [(2%nat, "new_session")] ∧
  earnedTrust "" newBridge pairingHistory 2.
Proof.
  split; [vm_compute; reflexivity|].
  apply (commands_need_trust "" newBridge pairingHistory 2 "new_session").
  - reflexivity.
  - reflexivity.
  - replace (executed (run "" pairingHistory newBridge)) with [(2%nat, "new_session")]
      by (vm_compute; reflexivity). by left.
Defined.

Lemma tokens_are_enrolled_witness :
  devices (pairing newBridge) = ∅ ∧
  ("tok2" ∈ dom (devices (pairing newBridge)) ∨ enrolled "" newBridge pairingHistory "tok2").
Proof.
  split; [vm_compute; reflexivity|].
  apply (tokens_are_enrolled "" newBridge pairingHistory "tok2").
  apply elem_of_dom. vm_compute. eexists; reflexivity.
Defined.

Lemma one_device_per_window_witness :
  let b := run "" (take 5 pairingHistory) newBridge in
  let b1 := route 5000 None 2 (ClaimBridge "tok2" "tablet") b in
  dom (devices (pairing b1)) = {["tok1"; "tok2"]} ∧
  dom (devices (pairing (run "" (drop 6 pairingHistory) b1))) = dom (devices (pairing b1)).
Proof.
  intros b b1. split; [vm_compute; reflexivity|].
  apply (one_device_per_window "" "tok2" "tablet" 5000 None 2 b (drop 6 pairingHistory)).
  - apply not_elem_of_dom. vm_compute. reflexivity.
  - apply elem_of_dom. vm_compute. eexists; reflexivity.
  - repeat constructor.
Defined.

Lemma restart_keeps_pairing_witness :
  let p := pairing (run "" pairingHistory newBridge) in
  dom (devices p) = {["tok1"; "tok2"]} ∧
  devices (NewPairing "pairing.json" (file p) 9000) = devices p.
Proof.
  intros p. split; [vm_compute; reflexivity|].
  apply (restart_keeps_pairing "" "pairing.json" None 0 pairingHistory 9000).
  - discriminate.
  - repeat constructor.
Defined.

(** A phone paired on a working disk. *)
Definition pairedPhone : Pairing :=
  (Claim "tok1" "phone" 1000 None (NewPairing "pairing.json" None 0)).2.

Lemma pairing_disk_failures_witness :
  (Unclaim "tok1" 2000 (Some "permission denied") pairedPhone).1 = None ∧
  LockedTo "tok1" (NewPairing "pairing.json"
    (file (Unclaim "tok1" 2000 (Some "permission denied") pairedPhone).2) 3000) = true.
Proof.
  assert (durable pairedPhone) as Hd.
  { apply Claim_durable. split_and!; [discriminate|apply load_wf|reflexivity]. }
  destruct (pairing_disk_failures "tok1" "phone" 2000 "permission denied" pairedPhone 3000 Hd)
    as [_ H]; [discriminate|].
  destruct H as (H1 & _ & H2); [eexists; vm_compute; reflexivity|].
  split; [|exact H2]. rewrite H1. vm_compute. reflexivity.
Defined.
End AccessProps.

(** ** Session control *)
Module ControlProps.
Import Control.

Definition frees (id : string) (o : op) : bool :=
  match o with
  | Cancel i _ _ | ReclaimOp i _ _ _ => bool_decide (i = id)
  | _ => false
  end.
Lemma put_entries io id e s :
  entries (put io id e s) = <[id := e]> (entries s) ∧ path (put io id e s) = path s.
Proof. unfold put, saveLocked. by repeat case_match. Qed.

Lemma may_not_write id s :
  MobileMayWrite id s = false ↔
  ∃ e, entries s !! id = Some e ∧ (Owner e = ControlDesktop ∨ State e = ControlPending).
Proof.
  unfold MobileMayWrite, Get. destruct (entries s !! id) as [e|] eqn:E; simpl.
  - rewrite andb_false_iff, !negb_false_iff, !bool_decide_eq_true. naive_solver.
  - split; [intros H; vm_compute in H; done|naive_solver].
Qed.

Lemma locked_step id o s :
  MobileMayWrite id s = false → frees id o = false → MobileMayWrite id (exec o s) = false.
Proof.
  rewrite !may_not_write. intros (e & He & Hor) Hf.
  assert (∀ io i e', (i = id → Owner e' = ControlDesktop ∨ State e' = ControlPending) →
    ∃ e0, entries (put io i e' s) !! id = Some e0 ∧ (Owner e0 = ControlDesktop ∨ State e0 = ControlPending))
    as Hput.
  { intros io i e' Hi. destruct (put_entries io i e' s) as [-> _].
    destruct (decide (i = id)) as [->|]; [rewrite lookup_insert_eq|rewrite lookup_insert_ne by done]; eauto. }
  destruct o as [i t now io|i now io|i t now io|i now io|i t now io]; simpl in *.
  - unfold BeginDesktopHandoff. case_match; simpl; [by exists e|].
    case_match; simpl; [by exists e|]. apply Hput. by right.
  - unfold CompleteDesktopHandoff. simpl. apply Hput. by left.
  - unfold MarkDesktopOwner. case_match; simpl; [by exists e|]. apply Hput. by left.
  - bool_facts. by apply Hput.
  - bool_facts. by apply Hput.
Qed.

(** Once a conversation is handed to the desktop, or a handoff is pending,
    the phone may not write until that handoff is cancelled or the
    conversation is reclaimed, whatever else happens in between, and no second
    handoff begins. *)
Theorem control_is_exclusive id l s :
  MobileMayWrite id s = false → Forall (λ o, frees id o = false) l →
  MobileMayWrite id (run l s) = false ∧
  ∀ t now io, t ≠ "" → id ≠ "" →
    (BeginDesktopHandoff id t now io (run l s)).1.2 = Some errControlTaken.
Proof.
  intros Hs Hl.
  assert (MobileMayWrite id (run l s) = false) as Hend.
  { unfold run. revert s Hs. induction Hl as [|o l Ho _ IH]; intros s Hs; [done|].
    simpl. apply IH. by apply locked_step. }
  split; [done|]. intros t now io Ht Hid.
  apply may_not_write in Hend as (e & He & Hor). unfold BeginDesktopHandoff, str_empty.
  rewrite !(bool_decide_eq_false_2 (_ = "")) by done. simpl. rewrite He. simpl.
  destruct Hor as [-> | ->]; [by rewrite bool_decide_eq_true_2|].
  by rewrite (bool_decide_eq_true_2 (ControlPending = ControlPending)), orb_true_r.
Qed.

(** A handoff that runs to its end and is then reclaimed. *)
Definition handedOff : SessionControlStore :=
  run [Begin "s" "thread" 1000 None] (NewSessionControlStore "control.json" None).
Definition duringHandoff : list op :=
  [Complete "s" 2000 None; MarkDesktop "s" "other" 3000 None; Cancel "t" 4000 None].

Lemma control_is_exclusive_witness :
  MobileMayWrite "s" (NewSessionControlStore "control.json" None) = true ∧
  MobileMayWrite "s" (run duringHandoff handedOff) = false ∧
  ∀ t now io, t ≠ "" → "s" ≠ "" →
    (BeginDesktopHandoff "s" t now io (run duringHandoff handedOff)).1.2 = Some errControlTaken.
Proof.
  split; [vm_compute; reflexivity|].
  apply (control_is_exclusive "s" duringHandoff handedOff); [vm_compute; reflexivity|repeat constructor].
Defined.
End ControlProps.

(** ** Goals *)
Module GoalProps.
Import Goals.

(** Revisions are given once, in order. *)
Definition goalsWf (s : GoalStateStore) : Prop :=
  (∀ id r, items s !! id = Some r → Revision r ≤ revision s) ∧
  (∀ id id' r r', items s !! id = Some r → items s !! id' = Some r' →
     Revision r = Revision r' → id = id').

Lemma persist_same io s :
  items (persistLocked io s) = items s ∧ revision (persistLocked io s) = revision s.
Proof. unfold persistLocked. by repeat case_match. Qed.

(** A goal transition is either ignored or becomes the session's goal under a
    revision above every other; a goal is never replaced by an older one. *)
Lemma goal_advances e io s b s' :
  goalsWf s → 0 ≤ revision s < u64_max → Apply e io s = (b, s') →
  goalsWf s' ∧
  if b then
    revision s' = revision s + 1 ∧
    ∃ sid next, goalOf e = Some (sid, next) ∧
      items s' = <[sid := mkRecord next (revision s')]> (items s) ∧
      (∀ r c n, items s !! sid = Some r → goal r = Some c → next = Some n →
         gUpdatedAt c ≤ gUpdatedAt n)
  else s' = s.
Proof.
  intros [Hle Hdis] Hrev. unfold Apply. destruct (goalOf e) as [[sid next]|]; [|by intros [= <- <-]].
  destruct (str_empty sid); [by intros [= <- <-]|].
  destruct (match items s !! sid with Some r => outdated (goal r) next | None => false end) eqn:Eo;
    [by intros [= <- <-]|].
  intros [= <- <-]. set (s1 := s <| revision := _ |> <| items := _ |>).
  destruct (persist_same io s1) as [Ei Er]. unfold goalsWf. rewrite Ei, Er. subst s1. simpl.
  rewrite u64_succ_lt by done. split.
  - split.
    + intros id r. destruct (decide (id = sid)) as [->|].
      * rewrite lookup_insert_eq. intros [= <-]. simpl. lia.
      * rewrite lookup_insert_ne by done. intros H. specialize (Hle _ _ H). lia.
    + intros id id' r r'. destruct (decide (id = sid)) as [->|]; destruct (decide (id' = sid)) as [->|];
        rewrite ?lookup_insert_eq, ?lookup_insert_ne by done; try done.
      * intros [= <-] H Heq. specialize (Hle _ _ H). simpl in Heq. lia.
      * intros H [= <-] Heq. specialize (Hle _ _ H). simpl in Heq. lia.
      * apply Hdis.
  - split; [done|]. exists sid, next. split_and!; [done|done|].
    intros r c n Hr Hc ->. rewrite Hr in Eo. unfold outdated in Eo. rewrite Hc in Eo.
    apply orb_false_iff in Eo as [Eo _]. by bool_facts.
Qed.
End GoalProps.
