(* ===== verification/Permission.v ===== *)
(** * Human approval of dangerous operations

    [src/internal/governance/permission.go]: a request blocks its goroutine
    until the device that asked answers or its time runs out.  The goroutines
    of the requests, of the answers and of the timers share the manager, so
    they are steps of one machine: an answer takes the waiter under the mutex
    and, in a later step, publishes the result and sends the decision on the
    waiter's channel of capacity one.

    Times are milliseconds.  Request identifiers are 12 random hexadecimal
    digits, taken to be new. *)

From S2P Require Import Prelude.

Definition ttl : Z := 60 * 1000.

Inductive mode := Off | Warn | Enforce.
#[global] Instance mode_eq_dec : EqDecision mode.
Proof. solve_decision. Defined.

(** The mode of the environment: anything but off and warn prompts. *)
Definition parseMode (m : string) : mode :=
  let m := to_lower (trim_space m) in
  if bool_decide (m = "off") then Off
  else if bool_decide (m = "warn") then Warn else Enforce.

(** A pending request: whose answer it takes, what it is about, until when. *)
Record waiter := mkWaiter {
  requester : string;
  sessionID : string;
  action : string;
  expires : Z }.

(** The goroutine of a request: in its select, waiting for the winner after
    its timer lost, or returned. *)
Inductive call := Selecting | AfterTimer | Returned (approved : bool).
#[global] Instance call_eq_dec : EqDecision call.
Proof. solve_decision. Defined.

Inductive message :=
  | PermissionRequest (rid sid action title justification preview risk : string) (expires : Z)
  | PermissionResult (rid sid action decision reason : string).
#[global] Instance message_eq_dec : EqDecision message.
Proof. solve_decision. Defined.

(** [finishing]: the waiters taken, whose result is not published yet. *)
Record Manager := mkManager {
  mmode : mode;
  waiters : gmap string waiter;
  calls : gmap string call;
  deadlines : gmap string Z;
  channel : gmap string bool;
  finishing : list (string * waiter * string);
  emitted : list message }.
#[export] Instance Manager_eta : Eta Manager := λ m,
  mkManager (mmode m) (waiters m) (calls m) (deadlines m) (channel m) (finishing m) (emitted m).

Definition newManager (m : mode) : Manager := mkManager m ∅ ∅ ∅ ∅ [] [].

Definition emit (e : message) (m : Manager) : Manager := m <| emitted := emitted m ++ [e] |>.

(** [Request] up to its select; [Some] is an immediate answer. *)
Definition Request (rid device action title justification preview risk sid : string) (now : Z)
    (m : Manager) : option bool * Manager :=
  match mmode m with
  | Off => (Some true, m)
  | Warn =>
      (Some true, emit (PermissionResult "" sid action "warn_auto_approved" "permission mode=warn") m)
  | Enforce =>
      let preview := if 500 <? str_len preview then String.substring 0 500 preview else preview in
      let deadline := now + ttl in
      (None, emit (PermissionRequest rid sid action title justification preview risk deadline)
        (m <| waiters := <[rid := mkWaiter device sid action deadline]> (waiters m) |>
           <| deadlines := <[rid := deadline]> (deadlines m) |>
           <| calls := <[rid := Selecting]> (calls m) |>))
  end.

(** [finish] up to the release of the mutex. *)
Definition finish (rid decision responder : string) (timeout : bool) (now : Z) (m : Manager)
  : error * Manager :=
  match waiters m !! rid with
  | None => (Some "permission no longer pending", m)
  | Some w =>
      if negb timeout && negb (str_empty (requester w)) && negb (bool_decide (responder = requester w))
      then (Some "permission response device mismatch", m)
      else
        let decision := if expires w <=? now then "expired" else decision in
        (None, m <| waiters := delete rid (waiters m) |>
                 <| finishing := finishing m ++ [(rid, w, decision)] |>)
  end.

(** Its rest: the result is published, then the decision is sent. *)
Definition publish (i : nat) (m : Manager) : Manager :=
  match finishing m !! i with
  | Some (rid, w, decision) =>
      emit (PermissionResult rid (sessionID w) (action w) decision "")
        (m <| finishing := delete i (finishing m) |>
           <| channel := <[rid := bool_decide (decision = "approve")]> (channel m) |>)
  | None => m
  end.

Definition Resolve (rid decision responder : string) (now : Z) (m : Manager) : error * Manager :=
  if bool_decide (decision = "approve") || bool_decide (decision = "deny")
  then finish rid decision responder false now m
  else (Some "invalid permission decision", m).

(** The timer's case of the select, at or after the deadline. *)
Definition timerFires (rid : string) (now : Z) (m : Manager) : Manager :=
  match calls m !! rid, deadlines m !! rid with
  | Some Selecting, Some d =>
      if now <? d then m
      else (finish rid "expired" "" true now m).2 <| calls := <[rid := AfterTimer]> (calls m) |>
  | _, _ => m
  end.

(** The receive of the select, or the one after a lost timer. *)
Definition receive (rid : string) (m : Manager) : Manager :=
  match calls m !! rid, channel m !! rid with
  | Some Selecting, Some b | Some AfterTimer, Some b =>
      m <| calls := <[rid := Returned b]> (calls m) |> <| channel := delete rid (channel m) |>
  | _, _ => m
  end.

Inductive step :=
  | SRequest (rid device action title justification preview risk sid : string) (now : Z)
  | SResolve (rid decision responder : string) (now : Z)
  | SPublish (i : nat)
  | STimer (rid : string) (now : Z)
  | SReceive (rid : string).

(** A request identifier is never given twice. *)
Definition exec (s : step) (m : Manager) : Manager :=
  match s with
  | SRequest rid device action title justification preview risk sid now =>
      match calls m !! rid with
      | None => (Request rid device action title justification preview risk sid now m).2
      | Some _ => m
      end
  | SResolve rid decision responder now => (Resolve rid decision responder now m).2
  | SPublish i => publish i m
  | STimer rid now => timerFires rid now m
  | SReceive rid => receive rid m
  end.
Definition run (l : list step) (m : Manager) : Manager := foldl (λ m s, exec s m) m l.

(** ** What a history contains *)

(** A request of a device that is still waiting for its answer. *)
Definition requested (l : list step) (rid : string) (w : waiter) : Prop :=
  ∃ device action title justification preview risk sid now,
    SRequest rid device action title justification preview risk sid now ∈ l ∧
    w = mkWaiter device sid action (now + ttl).

(** The approval that takes a waiter: by the device that asked (any device
    when the request named none), before the request expires. *)
Definition approved (l : list step) (rid : string) : Prop :=
  ∃ l1 responder now l2 w,
    l = l1 ++ SResolve rid "approve" responder now :: l2 ∧ requested l1 rid w ∧
    (requester w = "" ∨ responder = requester w) ∧ now < expires w.

Lemma perm_run_snoc l s m : run (l ++ [s]) m = exec s (run l m).
Proof. unfold run. by rewrite foldl_app. Qed.

Lemma requested_snoc l s rid w : requested l rid w → requested (l ++ [s]) rid w.
Proof.
  intros (d & a & t & j & p & r & sid & n & Hin & ->). exists d, a, t, j, p, r, sid, n.
  split; [|done]. apply elem_of_app. by left.
Qed.

Lemma approved_snoc l s rid : approved l rid → approved (l ++ [s]) rid.
Proof.
  intros (l1 & d & n & l2 & w & -> & Hr). exists l1, d, n, (l2 ++ [s]), w.
  split; [by rewrite <- app_assoc|done].
Qed.

Definition resultOf (rid decision : string) (e : message) : Prop :=
  match e with PermissionResult r _ _ d _ => r = rid ∧ d = decision | _ => False end.

(** What holds of a request at every point of a history. *)
Record traced (l : list step) (m : Manager) : Prop := mkTraced {
  t_mode : mmode m = Enforce;
  t_waiter : ∀ rid w, waiters m !! rid = Some w → requested l rid w;
  t_finishing : ∀ rid w d, (rid, w, d) ∈ finishing m → d = "approve" → approved l rid;
  t_channel : ∀ rid b, channel m !! rid = Some b →
    (b = true → approved l rid) ∧
    ∃ d, (b = true ↔ d = "approve") ∧ ∃ e, e ∈ emitted m ∧ resultOf rid d e;
  t_returned : ∀ rid b, calls m !! rid = Some (Returned b) →
    (b = true → approved l rid) ∧
    ∃ d, (b = true ↔ d = "approve") ∧ ∃ e, e ∈ emitted m ∧ resultOf rid d e;
  t_pending : ∀ rid c, calls m !! rid = Some c → (∀ b, c ≠ Returned b) →
    is_Some (deadlines m !! rid) ∧
    (c = Selecting ∧ is_Some (waiters m !! rid) ∨
     (∃ w d, (rid, w, d) ∈ finishing m) ∨ is_Some (channel m !! rid));
  t_known : ∀ rid, calls m !! rid = None →
    waiters m !! rid = None ∧ channel m !! rid = None ∧ (∀ w d, (rid, w, d) ∉ finishing m) }.

Lemma traced_new : traced [] (newManager Enforce).
Proof.
  split; simpl; try done; try (intros; by rewrite lookup_empty in *).
  - intros rid w d Hin. by apply elem_of_nil in Hin.
  - intros rid _. split_and!; [done|done|]. intros w d Hin. by apply elem_of_nil in Hin.
Qed.

(** More history and more messages keep a trace. *)
Lemma traced_step l s m : traced l m → traced (l ++ [s]) m.
Proof.
  intros [H1 H2 H3 H4 H5 H6 H7]. split; eauto using requested_snoc, approved_snoc.
  - intros rid b Hb. destruct (H4 _ _ Hb). eauto using approved_snoc.
  - intros rid b Hb. destruct (H5 _ _ Hb). eauto using approved_snoc.
Qed.

Lemma traced_request l m rid device action title justification preview risk sid now :
  traced l m → calls m !! rid = None →
  let s := SRequest rid device action title justification preview risk sid now in
  traced (l ++ [s]) (Request rid device action title justification preview risk sid now m).2.
Proof.
  intros Ht Hn s. destruct (t_known _ _ Ht _ Hn) as (Hw & Hch & Hf).
  unfold Request. rewrite (t_mode _ _ Ht). simpl.
  pose proof (traced_step l s m Ht) as [H1 H2 H3 H4 H5 H6 H7].
  split; simpl; try done.
  - intros r w. destruct (decide (r = rid)) as [->|Hne].
    + rewrite lookup_insert_eq. intros [= <-].
      exists device, action, title, justification, preview, risk, sid, now.
      split; [apply elem_of_app; right; apply list_elem_of_singleton; done|done].
    + rewrite lookup_insert_ne by done. eauto.
  - intros r b Hb. destruct (H4 _ _ Hb) as (? & d & Hd & e & He & Hr).
    split; [done|]. exists d. split; [done|]. exists e. split; [apply elem_of_app; by left|done].
  - intros r b. destruct (decide (r = rid)) as [->|Hne]; [by rewrite lookup_insert_eq|].
    rewrite lookup_insert_ne by done. intros Hb. destruct (H5 _ _ Hb) as (? & d & Hd & e & He & Hr).
    split; [done|]. exists d. split; [done|]. exists e. split; [apply elem_of_app; by left|done].
  - intros r c. destruct (decide (r = rid)) as [->|Hne].
    + rewrite !lookup_insert_eq. intros [= <-] _. split; [by eexists|left]. split; [done|by eexists].
    + rewrite !lookup_insert_ne by done. eauto.
  - intros r. destruct (decide (r = rid)) as [->|Hne]; [by rewrite lookup_insert_eq|].
    rewrite !lookup_insert_ne by done. eauto.
Qed.

(** A waiter is taken, or the answer is refused and nothing changes. *)
Lemma traced_finish l s m rid decision responder timeout now :
  traced l m →
  (∀ w, waiters m !! rid = Some w → decision = "approve" → now < expires w →
     negb timeout && negb (str_empty (requester w)) && negb (bool_decide (responder = requester w))
       = false → approved (l ++ [s]) rid) →
  traced (l ++ [s]) (finish rid decision responder timeout now m).2.
Proof.
  intros Ht Happ. unfold finish. destruct (waiters m !! rid) as [w|] eqn:Ew;
    [|by apply traced_step].
  destruct (negb timeout && _ && _) eqn:Eg; [by apply traced_step|]. simpl.
  pose proof (traced_step l s m Ht) as [H1 H2 H3 H4 H5 H6 H7].
  split; simpl; try done.
  - intros r w' Hr. apply lookup_delete_Some in Hr as [_ Hr]. eauto.
  - intros r w' d [Hin|Hin]%elem_of_app Hd; [eauto|].
    apply list_elem_of_singleton in Hin. injection Hin as -> -> ->.
    destruct (expires w <=? now) eqn:Ee; [done|]. bool_facts. by apply (Happ w).
  - intros r c Hc Hnr. destruct (H6 _ _ Hc Hnr) as [Hd Hcase]. split; [done|].
    destruct Hcase as [[-> Hw']|[(w' & d & Hin)|Hch]].
    + destruct (decide (r = rid)) as [->|Hne].
      * right. left. eexists w, _. apply elem_of_app. right. by apply list_elem_of_singleton.
      * left. split; [done|]. by rewrite lookup_delete_ne.
    + right. left. exists w', d. apply elem_of_app. by left.
    + by right; right.
  - intros r Hr. destruct (H7 _ Hr) as (Hw' & Hch & Hf). assert (r ≠ rid) by congruence.
    split_and!; [by rewrite lookup_delete_ne|done|]. intros w' d [Hin|Hin]%elem_of_app; [by eapply Hf|].
    apply list_elem_of_singleton in Hin. congruence.
Qed.

Lemma traced_publish l s m i : traced l m → traced (l ++ [s]) (publish i m).
Proof.
  intros Ht. unfold publish. destruct (finishing m !! i) as [[[rid w] d]|] eqn:Ei;
    [|by apply traced_step].
  pose proof (traced_step l s m Ht) as [H1 H2 H3 H4 H5 H6 H7].
  assert ((rid, w, d) ∈ finishing m) as Hin by (by eapply list_elem_of_lookup_2).
  assert (∀ r w' d', (r, w', d') ∈ finishing m → (r, w', d') ∈ delete i (finishing m) ∨ r = rid) as Hdel.
  { intros r w' d' H. apply list_elem_of_lookup in H as [j Hj].
    destruct (decide (j = i)) as [->|Hne]; [right; congruence|left].
    rewrite delete_take_drop. apply elem_of_app.
    destruct (decide (j < i)%nat).
    - left. apply list_elem_of_lookup. exists j. by rewrite lookup_take_lt by lia.
    - right. apply list_elem_of_lookup. exists (j - S i)%nat. rewrite lookup_drop.
      by replace (S i + (j - S i))%nat with j by lia. }
  split; simpl; try done.
  - intros r w' d' Hr. eapply H3. by apply list_elem_of_delete_inv in Hr.
  - intros r b. destruct (decide (r = rid)) as [->|Hne].
    + rewrite lookup_insert_eq. intros [= <-]. split; [intros Hb; bool_facts; eauto|].
      exists d. split; [by rewrite bool_decide_eq_true|].
      eexists. split; [apply elem_of_app; right; by left|done].
    + rewrite lookup_insert_ne by done. intros Hb. destruct (H4 _ _ Hb) as (? & d' & Hd & e & He & Hr).
      split; [done|]. exists d'. split; [done|]. exists e. split; [apply elem_of_app; by left|done].
  - intros r b Hb. destruct (H5 _ _ Hb) as (? & d' & Hd & e & He & Hr).
    split; [done|]. exists d'. split; [done|]. exists e. split; [apply elem_of_app; by left|done].
  - intros r c Hc Hnr. destruct (H6 _ _ Hc Hnr) as [Hd Hcase]. split; [done|].
    destruct (decide (r = rid)) as [->|Hne]; [right; right; rewrite lookup_insert_eq; by eexists|].
    rewrite lookup_insert_ne by done. destruct Hcase as [?|[(w' & d' & Hf)|?]]; [by left| |by right; right].
    apply Hdel in Hf as [Hf|?]; [|done]. right. left. eauto.
  - intros r Hr. destruct (H7 _ Hr) as (Hw' & Hch & Hf).
    assert (r ≠ rid) as Hne by (intros ->; by eapply Hf).
    split_and!; [done|by rewrite lookup_insert_ne|]. intros w' d' Hd.
    apply list_elem_of_delete_inv in Hd. by eapply Hf.
Qed.

Lemma traced_timer l s m rid now : traced l m → traced (l ++ [s]) (timerFires rid now m).
Proof.
  intros Ht. unfold timerFires.
  destruct (calls m !! rid) as [c|] eqn:Ec; [|by apply traced_step].
  destruct c; try by apply traced_step.
  destruct (deadlines m !! rid) as [d|] eqn:Ed; [|by apply traced_step].
  destruct (now <? d) eqn:En; [by apply traced_step|].
  assert (traced (l ++ [s]) (finish rid "expired" "" true now m).2) as Hf.
  { apply traced_finish; [done|]. by intros. }
  assert (waiters (finish rid "expired" "" true now m).2 !! rid = None ∧
    calls (finish rid "expired" "" true now m).2 = calls m) as [Hw Hc].
  { unfold finish. destruct (waiters m !! rid) as [w|] eqn:Ew; simpl; [|done].
    split; [apply lookup_delete_eq|done]. }
  set (m1 := (finish rid "expired" "" true now m).2) in *. clearbody m1.
  destruct Hf as [H1 H2 H3 H4 H5 H6 H7]. rewrite Hc in H5, H6, H7. split; simpl; try done.
  - intros r b. destruct (decide (r = rid)) as [->|Hne]; [by rewrite lookup_insert_eq|].
    rewrite lookup_insert_ne by done. eauto.
  - intros r c. destruct (decide (r = rid)) as [->|Hne].
    + rewrite lookup_insert_eq. intros [= <-] _.
      destruct (H6 rid Selecting) as [Hd [[_ [w Hw']]|Hrest]];
        [done|done|by rewrite Hw in Hw'|]. split; [done|by right].
    + rewrite lookup_insert_ne by done. eauto.
  - intros r. destruct (decide (r = rid)) as [->|Hne]; [by rewrite lookup_insert_eq|].
    rewrite lookup_insert_ne by done. eauto.
Qed.

Lemma traced_receive l s m rid : traced l m → traced (l ++ [s]) (receive rid m).
Proof.
  intros Ht. pose proof (traced_step l s m Ht) as Hs.
  assert (∀ c b, calls m !! rid = Some c → channel m !! rid = Some b →
    traced (l ++ [s]) (m <| calls := <[rid := Returned b]> (calls m) |>
      <| channel := delete rid (channel m) |>)) as Hdone.
  { intros c b Hc Hb. destruct Hs as [H1 H2 H3 H4 H5 H6 H7]. split; simpl; try done.
    - intros r b'. intros Hr. apply lookup_delete_Some in Hr as [_ Hr]. eauto.
    - intros r b'. destruct (decide (r = rid)) as [->|Hne].
      + rewrite lookup_insert_eq. intros [= <-]. eauto.
      + rewrite lookup_insert_ne by done. eauto.
    - intros r c'. destruct (decide (r = rid)) as [->|Hne].
      + rewrite lookup_insert_eq. intros [= <-] Hnr. by destruct (Hnr b).
      + rewrite lookup_insert_ne, lookup_delete_ne by done. eauto.
    - intros r. destruct (decide (r = rid)) as [->|Hne]; [by rewrite lookup_insert_eq|].
      rewrite lookup_insert_ne, lookup_delete_ne by done. eauto. }
  unfold receive. destruct (calls m !! rid) as [[]|] eqn:Ec; try done;
    destruct (channel m !! rid) as [b|] eqn:Eb; try done; by eapply Hdone.
Qed.

Lemma traced_run l : traced l (run l (newManager Enforce)).
Proof.
  induction l as [|s l IH] using rev_ind; [apply traced_new|].
  rewrite perm_run_snoc. destruct s as [rid device action title justification preview risk sid now|
    rid decision responder now|i|rid now|rid]; simpl.
  - destruct (calls _ !! rid) as [c|] eqn:Ec; [by apply traced_step|by apply traced_request].
  - unfold Resolve. destruct (bool_decide _ || bool_decide _); [|by apply traced_step].
    apply traced_finish; [done|]. intros w Hw -> Hnow Hg.
    exists l, responder, now, [], w. split_and!; [done|by eapply t_waiter| |done].
    simpl in Hg. apply andb_false_iff in Hg as [Hg|Hg]; bool_facts; auto.
  - by apply traced_publish.
  - by apply traced_timer.
  - by apply traced_receive.
Qed.


(** A request whose answer is decided returns. *)
Lemma decided_returns m rid c :
  calls m !! rid = Some c → (∀ b, c ≠ Returned b) →
  (∃ w d, (rid, w, d) ∈ finishing m) ∨ is_Some (channel m !! rid) →
  ∃ more b, (length more ≤ 2)%nat ∧ calls (run more m) !! rid = Some (Returned b).
Proof.
  intros Hc Hnr Hcase.
  assert (∀ m' b, calls m' !! rid = Some c → channel m' !! rid = Some b →
    calls (receive rid m') !! rid = Some (Returned b)) as Hrecv.
  { intros m' b Hc' Hb. unfold receive. rewrite Hc', Hb.
    destruct c as [| |b']; [| |by destruct (Hnr b')]; simpl; apply lookup_insert_eq. }
  destruct Hcase as [(w & d & Hin)|[b Hb]].
  - apply list_elem_of_lookup in Hin as [i Hi].
    exists [SPublish i; SReceive rid], (bool_decide (d = "approve")). split; [simpl; lia|].
    change (calls (receive rid (publish i m)) !! rid = Some (Returned (bool_decide (d = "approve")))).
    apply Hrecv; unfold publish; rewrite Hi; simpl; [done|apply lookup_insert_eq].
  - exists [SReceive rid], b. split; [simpl; lia|by apply Hrecv].
Qed.

(** C28: Every request returns: once its deadline has passed, from any point of
    any history, at most three steps of its own timer, the winner's publication
    and its receive end it. *)
Theorem permission_returns l rid c now :
  let m := run l (newManager Enforce) in
  calls m !! rid = Some c → (∀ d, deadlines m !! rid = Some d → d ≤ now) →
  ∃ more b, (length more ≤ 3)%nat ∧ calls (run more m) !! rid = Some (Returned b).
Proof.
  intros m Hc Hnow.
  assert ((∃ b, c = Returned b) ∨ ∀ b, c ≠ Returned b) as [[b ->]|Hnr]
    by (destruct c; eauto; by right).
  { exists [], b. split; [simpl; lia|done]. }
  destruct (t_pending _ _ (traced_run l) _ _ Hc Hnr) as [[d Hd] Hcase]. fold m in Hd, Hcase.
  destruct Hcase as [[-> [w Hw]]|Hdecided].
  - destruct (decided_returns (timerFires rid now m) rid AfterTimer) as (more & b & Hlen & Hret).
    + unfold timerFires. rewrite Hc, Hd, (proj2 (Z.ltb_ge now d)) by by apply Hnow.
      apply lookup_insert_eq.
    + done.
    + left. unfold timerFires. rewrite Hc, Hd, (proj2 (Z.ltb_ge now d)) by by apply Hnow.
      unfold finish. rewrite Hw. simpl. eexists w, _. apply elem_of_app. right.
      by apply list_elem_of_singleton.
    + exists (STimer rid now :: more), b. split; [simpl; lia|done].
  - destruct (decided_returns m rid c Hc Hnr Hdecided) as (more & b & Hlen & Hret).
    exists more, b. split; [lia|done].
Qed.

(** A kill that its own phone approves, after the tablet was turned away. *)
Definition sampleHistory : list step :=
  [SRequest "perm_1" "phone" "kill_process" "Allow process kill?" "" "pid=7" "high" "" 1000;
   SResolve "perm_1" "approve" "tablet" 1500; SResolve "perm_1" "approve" "phone" 2000;
   STimer "perm_1" 61000; SPublish 0; SReceive "perm_1"].


Lemma permission_returns_witness :
  calls (run (take 1 sampleHistory) (newManager Enforce)) !! "perm_1" = Some Selecting ∧
  ∃ more b, (length more ≤ 3)%nat ∧
    calls (run more (run (take 1 sampleHistory) (newManager Enforce))) !! "perm_1" =
      Some (Returned b).
Proof.
  split; [vm_compute; reflexivity|].
  apply (permission_returns (take 1 sampleHistory) "perm_1" Selecting 61000).
  - vm_compute; reflexivity.
  - intros d Hd. vm_compute in Hd. injection Hd as <-. lia.
Defined.
