(* ===== verification/Sql.v ===== *)
(** * Transactions of the SQLite stores

    A store keeps its tables in one database, and every operation is one
    transaction: a sequence of statements of which each may fail (a full disk,
    an i/o error, a lock that is not released), ended by a commit that may fail
    too.  What the code relies on is that a transaction without a successful
    commit leaves the database as it was.

    [Tx D A] runs over a list of fault decisions, one per statement, [false]
    when the list is used up; it ends with a value and the working copy of the
    database, or with an error.  [atomically] begins, runs and ends one.  The
    triples [wp] hold for every list of faults. *)
From S2P Require Import Prelude.

(** ** Errors

    [SqlError]: a statement failed.  [ConstraintError]: a UNIQUE or PRIMARY
    KEY constraint.  [FullError]: an AUTOINCREMENT column has used the largest
    key.  [APIError]: a [*taskapi.APIError], by its code, acceptance and
    recommended action.  [Plain]: another error, by its text. *)
Inductive Err :=
  | SqlError
  | ConstraintError
  | FullError
  | APIError (code acceptance action : string)
  | Plain (text : string).
#[global] Instance Err_eq_dec : EqDecision Err.
Proof. solve_decision. Defined.

Definition Tx (D A : Type) : Type := list bool → D → list bool * (A * D + Err).

Section Monad.
Context {D : Type}.

#[export] Instance tx_ret : MRet (Tx D) := λ A a fs d, (fs, inl (a, d)).
Definition tx_fail {A} (e : Err) : Tx D A := λ fs _, (fs, inr e).
#[export] Instance tx_bind : MBind (Tx D) := λ A B f m fs d,
  match m fs d with
  | (fs, inl (a, d)) => f a fs d
  | (fs, inr e) => (fs, inr e)
  end.

(** Whether the next statement fails, and the decisions left. *)
Definition fault (fs : list bool) : bool * list bool :=
  match fs with b :: rest => (b, rest) | [] => (false, []) end.

(** A statement that reads. *)
Definition query {A} (f : D → A) : Tx D A := λ fs d,
  let '(bad, fs) := fault fs in
  if bad then (fs, inr SqlError) else (fs, inl (f d, d)).

(** A statement that writes; it may violate a constraint. *)
Definition exec {A} (f : D → A * D + Err) : Tx D A := λ fs d,
  let '(bad, fs) := fault fs in
  if bad then (fs, inr SqlError) else (fs, f d).

Definition exec_ (f : D → D) : Tx D () := exec (λ d, inl (tt, f d)).

(** [Begin], the body, and its [Commit]: the body says whether it reaches it
    (otherwise the deferred [Rollback] runs), and [failed e] is what the
    operation returns on an error. *)
Definition atomically {R} (failed : Err → R) (m : Tx D (bool * R)) (fs : list bool) (d : D)
  : R * D * list bool :=
  let '(bad, fs) := fault fs in
  if bad then (failed SqlError, d, fs)
  else
    match m fs d with
    | (fs, inl ((true, r), d')) =>
        let '(bad, fs) := fault fs in
        if bad then (failed SqlError, d, fs) else (r, d', fs)
    | (fs, inl ((false, r), _)) => (r, d, fs)
    | (fs, inr e) => (failed e, d, fs)
    end.

(** A statement outside a transaction commits by itself. *)
Definition single {R} (failed : Err → R) (m : Tx D R) (fs : list bool) (d : D)
  : R * D * list bool :=
  match m fs d with
  | (fs, inl (r, d')) => (r, d', fs)
  | (fs, inr e) => (failed e, d, fs)
  end.

(** ** Triples *)
Definition wp {A} (m : Tx D A) (Q : A → D → Prop) (d : D) : Prop :=
  ∀ fs, match (m fs d).2 with inl (a, d') => Q a d' | inr _ => True end.

Lemma wp_ret {A} (a : A) (Q : A → D → Prop) d : Q a d → wp (mret a) Q d.
Proof. intros H fs. exact H. Qed.
Lemma wp_fail {A} e (Q : A → D → Prop) d : wp (tx_fail e) Q d.
Proof. by intros fs. Qed.
Lemma wp_bind {A B} (m : Tx D A) (f : A → Tx D B) Q d :
  wp m (λ a, wp (f a) Q) d → wp (m ≫= f) Q d.
Proof.
  intros H fs. specialize (H fs). unfold mbind, tx_bind.
  destruct (m fs d) as [fs' [[a d']|e]]; simpl in *; [apply H|done].
Qed.
Lemma wp_query {A} (f : D → A) (Q : A → D → Prop) d : Q (f d) d → wp (query f) Q d.
Proof. intros H fs. unfold query. by destruct (fault fs) as [[] ?]. Qed.
Lemma wp_exec {A} (f : D → A * D + Err) (Q : A → D → Prop) d :
  match f d with inl (a, d') => Q a d' | inr _ => True end → wp (exec f) Q d.
Proof. intros H fs. unfold exec. by destruct (fault fs) as [[] ?]. Qed.
Lemma wp_exec_ (f : D → D) (Q : () → D → Prop) d : Q tt (f d) → wp (exec_ f) Q d.
Proof. intros H. by apply wp_exec. Qed.
Lemma wp_mono {A} (m : Tx D A) (P Q : A → D → Prop) d :
  wp m P d → (∀ a d', P a d' → Q a d') → wp m Q d.
Proof. intros H HPQ fs. specialize (H fs). destruct (m fs d).2 as [[a d']|]; auto. Qed.

(** What a transaction may have done to the database when it has returned:
    nothing, or what its body does and commits. *)
Lemma atomically_elim {R} (failed : Err → R) (m : Tx D (bool * R)) fs d (P : R → D → Prop) :
  wp m (λ x d', P x.2 (if x.1 then d' else d)) d → (∀ e, P (failed e) d) →
  let '(r, d', _) := atomically failed m fs d in P r d'.
Proof.
  intros Hm Hf. unfold atomically. destruct (fault fs) as [[] fs1]; [apply Hf|].
  specialize (Hm fs1). destruct (m fs1 d) as [fs2 [[[[] r] d']|e]]; simpl in *; [|done|apply Hf].
  by destruct (fault fs2) as [[] fs3]; [apply Hf|].
Qed.

Lemma single_elim {R} (failed : Err → R) (m : Tx D R) fs d (P : R → D → Prop) :
  wp m P d → (∀ e, P (failed e) d) →
  let '(r, d', _) := single failed m fs d in P r d'.
Proof.
  intros Hm Hf. unfold single. specialize (Hm fs).
  by destruct (m fs d) as [fs' [[a d']|e]].
Qed.
(** A predicate of the database that holds before and after the body. *)
Lemma atomically_keeps {R} (failed : Err → R) (m : Tx D (bool * R)) fs d (P : D → Prop) :
  P d → wp m (λ _ d', P d') d → P (atomically failed m fs d).1.2.
Proof.
  intros Hd Hm. pose proof (atomically_elim failed m fs d (λ _ d', P d')) as H.
  destruct (atomically failed m fs d) as [[r d'] fs']. apply H; [|done].
  eapply wp_mono; [exact Hm|]. intros [[] r'] d1 H1; done.
Qed.
Lemma single_keeps {R} (failed : Err → R) (m : Tx D R) fs d (P : D → Prop) :
  P d → wp m (λ _ d', P d') d → P (single failed m fs d).1.2.
Proof.
  intros Hd Hm. pose proof (single_elim failed m fs d (λ _ d', P d')) as H.
  destruct (single failed m fs d) as [[r d'] fs']. by apply H.
Qed.
End Monad.

(** Symbolic execution of a body under [wp]. *)
Create HintDb tx.
Ltac wp_step :=
  cbv beta iota zeta;
  lazymatch goal with
  | |- wp (mret _) _ _ => apply wp_ret
  | |- wp (tx_fail _) _ _ => apply wp_fail
  | |- wp (_ ≫= _) _ _ => apply wp_bind
  | |- wp (query _) _ _ => apply wp_query
  | |- wp (exec_ _) _ _ => apply wp_exec_
  | |- wp (exec _) _ _ => apply wp_exec
  end.

(** ** Tables

    A table with a primary key is a [gmap]; one whose rowid orders its rows is
    a list, oldest first; one with an AUTOINCREMENT key also keeps the last
    key ever given, which a rollback restores with everything else. *)
Section Tables.
Context {K V : Type} `{Countable K}.

(** [INSERT]. *)
Definition insertRow (k : K) (v : V) (t : gmap K V) : option (gmap K V) :=
  match t !! k with Some _ => None | None => Some (<[k:=v]> t) end.
(** [INSERT OR IGNORE]. *)
Definition insertOrIgnore (k : K) (v : V) (t : gmap K V) : gmap K V :=
  match t !! k with Some _ => t | None => <[k:=v]> t end.

Lemma insertOrIgnore_lookup k v t k' :
  insertOrIgnore k v t !! k' =
  match t !! k' with Some x => Some x | None => if decide (k' = k) then Some v else None end.
Proof.
  unfold insertOrIgnore. destruct (t !! k) eqn:E.
  - destruct (t !! k') eqn:E'; [done|]. case_decide; [congruence|done].
  - destruct (decide (k' = k)) as [->|].
    + by rewrite lookup_insert_eq, E.
    + rewrite lookup_insert_ne by done. by destruct (t !! k').
Qed.
Lemma insertOrIgnore_keeps k v t k' x :
  t !! k' = Some x → insertOrIgnore k v t !! k' = Some x.
Proof. intros H1. by rewrite insertOrIgnore_lookup, H1. Qed.
End Tables.

(** The next AUTOINCREMENT key. *)
Definition nextKey (last : Z) : Z + Err :=
  if last <? i64_max then inl (last + 1) else inr FullError.
