(* ===== verification/TaskJournal.v ===== *)
(** * The task journal: [taskapi/journal.go]

    Intents, outbox, change feed, outcomes and frozen snapshots of task
    commands, attached to the database of an existing store.  [tables] is what
    [InstallJournal] creates; every operation is a transaction body over it,
    and [Journaled] is the interface by which a store embeds it.  Readings of
    the clock within one transaction are one argument, [now] (milliseconds).
    What [encoding/json] produces is a parameter. *)
From S2P Require Import Prelude Orders Sql.

(** ** Data *)
Record IntentRecord := mkIntent {
  Key : string; Hash : string; ReceiptID : string; TaskID : string; NativeID : string;
  iSession : string; iRequest : string; ScopeID : string; Generation : Z; Path : string;
  Metadata : option string; CreatedAt : Z }.
#[export] Instance IntentRecord_eta : Eta IntentRecord := λ r,
  mkIntent (Key r) (Hash r) (ReceiptID r) (TaskID r) (NativeID r) (iSession r) (iRequest r)
    (ScopeID r) (Generation r) (Path r) (Metadata r) (CreatedAt r).
#[global] Instance IntentRecord_eq_dec : EqDecision IntentRecord.
Proof. solve_decision. Defined.

(** The field [Expired] is [Metadata == nil]. *)
Definition Expired (r : IntentRecord) : bool := bool_decide (Metadata r = None).

Record Change := mkChange {
  Sequence : Z; cSession : string; cRequest : string; Kind : string; At : Z }.
#[global] Instance Change_eq_dec : EqDecision Change.
Proof. solve_decision. Defined.

Record Namespace := mkNamespace {
  Authority : string; StableScopeID : string; nsGeneration : Z;
  nsPath : string; nsOperation : string; nsTaskID : string }.

(** The fields of [AuthorizedCommand] that a store reads. *)
Record AuthorizedCommand := mkCommand {
  cNamespace : Namespace; IdempotencyKey : string; Operation : string; IntentHash : string;
  callerScope : string; callerGeneration : Z; locatorPath : string }.

Record Watermark := mkWatermark { Store : string; wSequence : Z }.
Record ReadScope := mkScope {
  rsAuthority : string; rsScopeID : string; FilterHash : string; rsGeneration : Z }.
Record Freeze := mkFreeze { fID : string; ExpiresAt : Z; Watermarks : list Watermark }.
(** A row with the JSON text of its value. *)
Record SnapshotRow := mkRow { rowKey : string; rowValue : string }.

Record frozenRow := mkFrozen {
  fzScope : string; fzGeneration : Z; fzFilter : string; fzExpires : Z;
  fzWatermarks : string; fzRows : string }.

(** The tables; [outbox] has state and time, [outcomes] the JSON of the
    failure, or NULL for a success. *)
Record Tables := mkTables {
  intents : list IntentRecord;
  outbox : gmap string (string * Z);
  changes : list Change; lastChange : Z;
  revisions : gmap (string * string) Z;
  floor : Z;
  outcomes : gmap string (option string);
  freezes : gmap string frozenRow }.
#[export] Instance Tables_eta : Eta Tables := λ t,
  mkTables (intents t) (outbox t) (changes t) (lastChange t) (revisions t) (floor t)
    (outcomes t) (freezes t).

Definition InstallJournal : Tables := mkTables [] ∅ [] 0 ∅ 0 ∅ ∅.

Definition idempotencyConflict : Err := APIError "idempotency_conflict" "known_receipt" "lookup_original".
Definition keyExpired : Err := APIError "key_expired" "known_receipt" "lookup_original".
Definition notFound : Err := APIError "not_found" "known_none" "lookup_original".
Definition cursorExpired : Err := APIError "cursor_expired" "known_none" "refresh_snapshot".
Definition busy : Err := APIError "busy" "known_none" "wait".

(** ** The change feed *)
Definition ChangeTx (session request kind : string) (now : Z) : Tx Tables () :=
  sequence ← exec (λ t,
    match nextKey (lastChange t) with
    | inl n => inl (n, t <| changes := changes t ++ [mkChange n session request kind now] |>
                         <| lastChange := n |>)
    | inr e => inr e
    end);
  if str_empty request then mret tt
  else exec_ (λ t,
    t <| revisions := <[(session, request) :=
           match revisions t !! (session, request) with
           | Some r => Z.max r sequence
           | None => sequence
           end]> (revisions t) |>).

(** [Changes] is two statements outside a transaction: the floor, then the
    rows; [limit] is the SQL limit, none when negative. *)
Definition changesFloor (after : Z) : Tx Tables Z :=
  floor ← query floor;
  if after <? floor then tx_fail cursorExpired else mret floor.
Definition changesRead (after limit : Z) : Tx Tables (list Change) :=
  query (λ t,
    let rows := filter (λ c, after < Sequence c) (changes t) in
    if limit <? 0 then rows else take (Z.to_nat limit) rows).
Definition Changes (after limit : Z) : Tx Tables (list Change * Z) :=
  floor ← changesFloor after;
  rows ← changesRead after limit;
  mret (rows, floor).

Definition maxSequence (l : list Change) : Z := foldr (λ c m, Z.max (Sequence c) m) 0 l.

Definition watermark (t : Tables) : Z := Z.max (maxSequence (changes t)) (floor t).
Definition JWatermark : Tx Tables Z := query watermark.

(** ** Intents *)
Section Intents.
(** [Namespace.Key]: the JSON array of the namespace and the key. *)
Context (keyJSON : Namespace → string → string).

Definition intentOf (key : string) (t : Tables) : option IntentRecord :=
  snd <$> list_find (λ r, Key r = key) (intents t).

(** PRIMARY KEY on the key, UNIQUE on the receipt. *)
Definition insertIntent (r : IntentRecord) (t : Tables) : () * Tables + Err :=
  if existsb (λ r', bool_decide (Key r' = Key r) || bool_decide (ReceiptID r' = ReceiptID r))
       (intents t)
  then inr ConstraintError
  else inl (tt, t <| intents := intents t ++ [r] |>).

Definition ClaimTx (c : AuthorizedCommand) (r : IntentRecord) (now : Z)
  : Tx Tables (IntentRecord * bool) :=
  let key := keyJSON (cNamespace c) (IdempotencyKey c) in
  found ← query (intentOf key);
  match found with
  | Some previous =>
      if negb (bool_decide (Hash previous = IntentHash c)) then tx_fail idempotencyConflict
      else if Expired previous then tx_fail keyExpired
      else mret (previous, false)
  | None =>
      let r := r <| Key := key |> <| Hash := IntentHash c |> <| ScopeID := callerScope c |>
                 <| Generation := callerGeneration c |> <| Path := locatorPath c |>
                 <| CreatedAt := now |> in
      exec (insertIntent r);;
      exec (λ t, match insertRow key ("prepared", now) (outbox t) with
                 | Some o => inl (tt, t <| outbox := o |>)
                 | None => inr ConstraintError
                 end);;
      ChangeTx (iSession r) (iRequest r) "intent_prepared" now;;
      mret (r, true)
  end.

Definition Lookup (n : Namespace) (key : string) : Tx Tables IntentRecord :=
  found ← query (intentOf (keyJSON n key));
  match found with
  | None => tx_fail notFound
  | Some r => if Expired r then tx_fail keyExpired else mret r
  end.
End Intents.

(** [ORDER BY created_at]; [task_id] first in the lists of tasks. *)
Definition created_le (a b : IntentRecord) : Prop := CreatedAt a ≤ CreatedAt b.
#[global] Instance created_le_dec : RelDecision created_le := λ a b, decide (CreatedAt a ≤ CreatedAt b).
Definition task_le (a b : IntentRecord) : Prop :=
  str_lt (TaskID a) (TaskID b) ∨ TaskID a = TaskID b ∧ CreatedAt a ≤ CreatedAt b.
#[global] Instance task_le_dec : RelDecision task_le.
Proof. intros a b. unfold task_le, str_lt. apply _. Defined.

Definition firstBy (p : IntentRecord → bool) (t : Tables) : option IntentRecord :=
  head (merge_sort created_le (filter (λ r, p r = true) (intents t))).

Definition orNotFound (found : option IntentRecord) : Tx Tables IntentRecord :=
  match found with Some r => mret r | None => tx_fail notFound end.

Definition inScope (scope : string) (generation : Z) (r : IntentRecord) : bool :=
  bool_decide (ScopeID r = scope) && bool_decide (Generation r = generation).

Definition Task (scope : string) (generation : Z) (id : string) : Tx Tables IntentRecord :=
  found ← query (firstBy (λ r, inScope scope generation r && bool_decide (TaskID r = id)));
  orNotFound found.
Definition FindTask (id : string) : Tx Tables IntentRecord :=
  found ← query (firstBy (λ r, bool_decide (TaskID r = id)));
  orNotFound found.
Definition Receipt (scope : string) (generation : Z) (id : string) : Tx Tables IntentRecord :=
  found ← query (λ t, snd <$> list_find (λ r, inScope scope generation r = true ∧ ReceiptID r = id)
                                (intents t));
  orNotFound found.

(** The first row of each task. *)
Fixpoint firstOfTask (seen : list string) (l : list IntentRecord) : list IntentRecord :=
  match l with
  | [] => []
  | r :: rest =>
      if Expired r || bool_decide (TaskID r ∈ seen) then firstOfTask seen rest
      else r :: firstOfTask (TaskID r :: seen) rest
  end.
Definition List_ (scope : string) (generation : Z) : Tx Tables (list IntentRecord) :=
  query (λ t, firstOfTask []
    (merge_sort task_le (filter (λ r, inScope scope generation r = true) (intents t)))).
Definition All : Tx Tables (list IntentRecord) :=
  query (λ t, firstOfTask [] (merge_sort task_le (filter (λ r, Expired r = false) (intents t)))).
Definition TaskCommands (task : string) : Tx Tables (list IntentRecord) :=
  query (λ t, merge_sort created_le (filter (λ r, TaskID r = task) (intents t))).
Definition Pending : Tx Tables (list IntentRecord) :=
  query (λ t, merge_sort created_le (filter (λ r,
    from_option (λ s, bool_decide (s.1 ∈ ["prepared"; "queued"])) false (outbox t !! Key r) = true)
    (intents t))).
Definition OriginalCommandForRequest (session request : string) : Tx Tables (option IntentRecord) :=
  query (λ t, snd <$> list_find (λ r, iSession r = session ∧ iRequest r = request) (intents t)).

(** ** Outbox and outcomes *)
Definition setOutbox (key state : string) (now : Z) (t : Tables) : Tables :=
  match outbox t !! key with
  | Some _ => t <| outbox := <[key := (state, now)]> (outbox t) |>
  | None => t
  end.
Definition Outbox (key state : string) (now : Z) : Tx Tables () := exec_ (setOutbox key state now).
Definition OutboxState (key : string) : Tx Tables (option string) :=
  query (λ t, fst <$> outbox t !! key).

(** [failure] is the JSON of the error, [None] for [nil]. *)
Definition SaveOutcomeTx (key : string) (failure : option string) (now : Z) : Tx Tables () :=
  exec_ (λ t, t <| outcomes := insertOrIgnore key failure (outcomes t) |>);;
  exec_ (setOutbox key "resolved" now).
Definition Outcome (key : string) : Tx Tables (option (option string)) :=
  query (λ t, outcomes t !! key).

(** ** Frozen snapshots *)
Section Freezes.
Context (marksJSON : list Watermark → string) (rowsJSON : list SnapshotRow → string)
        (parseRows : string → option (list SnapshotRow)).

Definition insertFreeze (scope : ReadScope) (f : Freeze) (rows : list SnapshotRow) (t : Tables)
  : () * Tables + Err :=
  match insertRow (fID f)
          (mkFrozen (rsScopeID scope) (rsGeneration scope) (FilterHash scope) (ExpiresAt f)
             (marksJSON (Watermarks f)) (rowsJSON rows)) (freezes t) with
  | Some fs => inl (tt, t <| freezes := fs |>)
  | None => inr ConstraintError
  end.
Definition JFreeze (scope : ReadScope) (f : Freeze) (rows : list SnapshotRow) : Tx Tables () :=
  exec (insertFreeze scope f rows).
Definition FreezeChecked (scope : ReadScope) (f : Freeze) (rows : list SnapshotRow) (expected : Z)
  : Tx Tables () :=
  n ← JWatermark;
  if negb (n =? expected) then tx_fail busy else exec (insertFreeze scope f rows).

Definition Frozen (scope : ReadScope) (f : Freeze) (now : Z) : Tx Tables (list SnapshotRow) :=
  found ← query (λ t,
    z ← freezes t !! fID f;
    if bool_decide (fzScope z = rsScopeID scope) && bool_decide (fzGeneration z = rsGeneration scope)
       && bool_decide (fzFilter z = FilterHash scope) && (now <? fzExpires z)
    then Some z else None);
  match found with
  | None => tx_fail cursorExpired
  | Some z =>
      if negb (bool_decide (marksJSON (Watermarks f) = fzWatermarks z)) then tx_fail cursorExpired
      else match parseRows (fzRows z) with
           | Some rows => mret rows
           | None => tx_fail (Plain "json")
           end
  end.
End Freezes.

(** ** Retention *)
Definition day : Z := 24 * 60 * 60 * 1000.

(** The sequence up to which changes are dropped. *)
Definition expiredUpTo (now : Z) (l : list Change) : Z :=
  maxSequence (filter (λ c, At c < now - 30 * day ∨ Sequence c ≤ maxSequence l - 100000) l).

Definition expires (now : Z) (t : Tables) (r : IntentRecord) : bool :=
  negb (Expired r) && (CreatedAt r <? now - 90 * day) &&
  from_option (λ s, bool_decide (s.1 = "resolved")) false (outbox t !! Key r).

Definition raiseFloor (n : Z) (t : Tables) : Tables := t <| floor := Z.max (floor t) n |>.

Definition Prune (now : Z) : Tx Tables () :=
  upTo ← query (λ t, expiredUpTo now (changes t));
  exec_ (λ t, t <| changes := filter (λ c, upTo < Sequence c) (changes t) |>);;
  exec_ (raiseFloor upTo);;
  n ← exec (λ t,
    inl (length (filter (λ r, expires now t r = true) (intents t)),
         t <| intents := map (λ r, if expires now t r then r <| Metadata := None |> else r)
                (intents t) |>));
  (if (0 <? n)%nat
   then ChangeTx "" "" "receipt_expired" now;;
        exec_ (λ t, raiseFloor (maxSequence (changes t)) t)
   else mret tt);;
  exec_ (λ t, t <| freezes := filter (λ kv, now < fzExpires kv.2) (freezes t) |>).

(** ** The interface: a store that carries the journal *)
Class Journaled (D : Type) := {
  journal : D → Tables;
  setJournal : Tables → D → D;
  journal_set t d : journal (setJournal t d) = t }.

(** [j.Transaction(ctx, body)] is [atomically]; within it, an operation of the
    journal on the store's own transaction: *)
Definition onJournal `{Journaled D} {A} (m : Tx Tables A) : Tx D A := λ fs d,
  match m fs (journal d) with
  | (fs, inl (a, t)) => (fs, inl (a, setJournal t d))
  | (fs, inr e) => (fs, inr e)
  end.

Lemma wp_onJournal `{Journaled D} {A} (m : Tx Tables A) (Q : A → D → Prop) d :
  wp m (λ a t, Q a (setJournal t d)) (journal d) → wp (onJournal m) Q d.
Proof.
  intros Hm fs. specialize (Hm fs). unfold onJournal.
  by destruct (m fs (journal d)) as [fs' [[a t]|e]].
Qed.
