(* ===== verification/TaskFeed.v ===== *)
(** * What every operation of the task journal keeps

    [logged L t]: [L] is the list of all changes ever committed, and the tables
    hold what retention left of it.  [kept t t']: no claim and no outcome of
    [t] is gone or different in [t'] (the metadata of a claim may expire).
    [since L t0 t]: the journal went from [t0], with the changes [L], to [t].
    Each operation goes from such a state to such a state, whatever fails. *)
From S2P Require Import Prelude Orders Sql TaskJournal.

(** ** Lists of changes *)
Lemma maxSequence_nonneg l : 0 ≤ maxSequence l.
Proof. induction l; simpl; lia. Qed.
Lemma maxSequence_ge l c : c ∈ l → Sequence c ≤ maxSequence l.
Proof. induction 1; simpl; lia. Qed.
Lemma maxSequence_in l : maxSequence l = 0 ∨ ∃ c, c ∈ l ∧ Sequence c = maxSequence l.
Proof.
  induction l as [|c l IH]; simpl; [by left|].
  destruct (Z.max_spec (Sequence c) (maxSequence l)) as [[? ->]|[? ->]].
  - destruct IH as [->|(d & ? & ?)]; [by left|]. right. exists d. split; [by right|done].
  - right. exists c. split; [left|done].
Qed.
Lemma maxSequence_le l b : 0 ≤ b → (∀ c, c ∈ l → Sequence c ≤ b) → maxSequence l ≤ b.
Proof.
  intros Hb H. destruct (maxSequence_in l) as [->|(c & Hc & <-)]; [done|by apply H].
Qed.

(** The sequences 1, 2, ... of the changes [L]. *)
Definition numbered (L : list Change) (n : Z) : Prop :=
  map Sequence L = seqZ 1 n ∧ Z.of_nat (length L) = n.

Lemma numbered_lookup L n i c : numbered L n → L !! i = Some c → Sequence c = 1 + Z.of_nat i.
Proof.
  intros [H _] Hi.
  assert (map Sequence L !! i = Some (Sequence c)) as E by (by rewrite list_lookup_fmap, Hi).
  rewrite H in E. apply lookup_seqZ in E. lia.
Qed.
Lemma numbered_bound L n c : numbered L n → c ∈ L → 1 ≤ Sequence c ≤ n.
Proof.
  intros H [i Hi]%list_elem_of_lookup. rewrite (numbered_lookup L n i c H Hi).
  apply lookup_lt_Some in Hi. destruct H as [_ <-]. lia.
Qed.
Lemma numbered_snoc L n c : numbered L n → Sequence c = n + 1 → numbered (L ++ [c]) (n + 1).
Proof.
  intros [H1 H2] Hc. split.
  - rewrite map_app, H1. simpl. rewrite Hc, (seqZ_app 1 n 1) by lia.
    by replace (1 + n) with (n + 1) by lia.
  - rewrite length_app. simpl. lia.
Qed.

(** The changes after a cursor are the list without as many elements. *)
Lemma after_drop L n after :
  numbered L n → 0 ≤ after → filter (λ c, after < Sequence c) L = drop (Z.to_nat after) L.
Proof.
  revert n after. induction L as [|c L IH] using rev_ind; intros n after Hn Ha.
  { by rewrite drop_nil. }
  assert (numbered L (n - 1)) as HL.
  { destruct Hn as [H1 H2]. rewrite length_app in H2. simpl in H2. split; [|lia].
    rewrite map_app in H1. simpl in H1.
    replace n with ((n - 1) + 1) in H1 by lia. rewrite seqZ_app in H1 by lia.
    apply app_inj_tail in H1 as [? _]. done. }
  assert (Sequence c = 1 + Z.of_nat (length L)) as Hc.
  { apply (numbered_lookup (L ++ [c]) n (length L)); [done|]. by apply list_lookup_middle. }
  rewrite filter_app, (IH _ _ HL) by done. rewrite filter_cons, filter_nil.
  destruct (decide (after < Sequence c)).
  - rewrite drop_app_le by lia. done.
  - rewrite !drop_ge; [done|rewrite length_app; simpl; lia|lia].
Qed.

(** ** The log *)
Definition retained (t : Tables) : list Change := filter (λ c, floor t < Sequence c) (changes t).

(** The last change of a request. *)
Definition lastOf (s r : string) (L : list Change) : option Z :=
  Sequence <$> last (filter (λ c, cSession c = s ∧ cRequest c = r) L).

Record logged (L : list Change) (t : Tables) : Prop := mkLogged {
  lg_numbered : numbered L (lastChange t);
  lg_retained : retained t = filter (λ c, floor t < Sequence c) L;
  lg_subset : ∀ c, c ∈ changes t → c ∈ L;
  lg_floor : 0 ≤ floor t ≤ lastChange t;
  lg_bound : lastChange t ≤ i64_max;
  lg_revision : ∀ s r, revisions t !! (s, r) = if str_empty r then None else lastOf s r L }.

Lemma logged_install : logged [] InstallJournal.
Proof.
  split; try done.
  - intros s r. simpl. rewrite lookup_empty. by case_match.
Qed.

(** ** Claims and outcomes *)
Definition same_claim (r r' : IntentRecord) : Prop := r' = r ∨ r' = r <| Metadata := None |>.

Record kept (t t' : Tables) : Prop := mkKept {
  kp_claim : ∀ i r, intents t !! i = Some r → ∃ r', intents t' !! i = Some r' ∧ same_claim r r';
  kp_outcome : ∀ k x, outcomes t !! k = Some x → outcomes t' !! k = Some x;
  kp_revision : ∀ k n, revisions t !! k = Some n → ∃ n', revisions t' !! k = Some n' ∧ n ≤ n';
  kp_last : lastChange t ≤ lastChange t';
  kp_floor : floor t ≤ floor t' }.

(** The parts of [kept] that concern tables left alone. *)
Ltac keep :=
  split; simpl; try done; try lia;
  [try (let r := fresh in let H := fresh in intros ? r H; exists r; split; [exact H|by left])
  |try (let n := fresh in let H := fresh in intros ? n H; exists n; split; [exact H|apply Z.le_refl])..].

(** Tables that differ in nothing that is kept. *)
Lemma kept_same t t' :
  intents t' = intents t → outcomes t' = outcomes t → revisions t' = revisions t →
  lastChange t' = lastChange t → floor t ≤ floor t' → kept t t'.
Proof.
  intros E1 E2 E3 E4 E5. split; rewrite ?E1, ?E2, ?E3, ?E4; try done.
  - intros i r ?. exists r. split; [done|by left].
  - intros k n ?. exists n. split; [done|lia].
Qed.
Lemma kept_refl t : kept t t.
Proof. by apply kept_same. Qed.
Lemma kept_trans t1 t2 t3 : kept t1 t2 → kept t2 t3 → kept t1 t3.
Proof.
  intros [C1 O1 R1 L1 F1] [C2 O2 R2 L2 F2]. split; [|by auto| |lia|lia]; cycle 1.
  { intros k n (n2 & H2 & ?)%R1. destruct (R2 _ _ H2) as (n3 & ? & ?). exists n3. split; [done|lia]. }
  intros i r (r2 & H2 & S2)%C1. destruct (C2 _ _ H2) as (r3 & H3 & S3).
  exists r3. split; [done|]. destruct S2 as [-> | ->], S3 as [-> | ->]; [by left|by right|by right|by right].
Qed.

Definition since (L : list Change) (t0 t : Tables) : Prop :=
  ∃ new, logged (L ++ new) t ∧ kept t0 t.

Lemma since_refl L t : logged L t → since L t t.
Proof. intros H. exists []. rewrite app_nil_r. split; [done|apply kept_refl]. Qed.
Lemma since_step L t0 t t' new' :
  since L t0 t → (∀ L', logged L' t → logged (L' ++ new') t') → kept t t' → since L t0 t'.
Proof.
  intros (new & Hl & Hk) HL Hk'. exists (new ++ new'). rewrite app_assoc.
  split; [by apply HL|by eapply kept_trans].
Qed.
Lemma since_quiet L t0 t t' :
  since L t0 t → (∀ L', logged L' t → logged L' t') → kept t t' → since L t0 t'.
Proof. intros H HL. apply (since_step L t0 t t' []); [done|]. intros L'. rewrite app_nil_r. auto. Qed.

(** Tables that differ only beside the change feed. *)
Lemma logged_same L t t' :
  logged L t → changes t' = changes t → lastChange t' = lastChange t →
  revisions t' = revisions t → floor t' = floor t → logged L t'.
Proof. intros [? H ? ? ? ?] E1 E2 E3 E4. unfold retained in *. split; unfold retained; by rewrite ?E1, ?E2, ?E3, ?E4. Qed.
(** ** A change *)
Definition logChange (c : Change) (t : Tables) : Tables :=
  t <| changes := changes t ++ [c] |> <| lastChange := Sequence c |>.
Definition bumpRevision (c : Change) (t : Tables) : Tables :=
  if str_empty (cRequest c) then t
  else t <| revisions := <[(cSession c, cRequest c) :=
         match revisions t !! (cSession c, cRequest c) with
         | Some r => Z.max r (Sequence c) | None => Sequence c end]> (revisions t) |>.

Lemma lastOf_bound L n s r k : numbered L n → lastOf s r L = Some k → k ≤ n.
Proof.
  unfold lastOf. intros Hn H. apply fmap_Some in H as (c & Hc & ->).
  apply last_Some_elem_of, list_elem_of_filter in Hc as [_ Hc]. by eapply numbered_bound.
Qed.

Lemma logged_change L t c :
  logged L t → Sequence c = lastChange t + 1 → lastChange t < i64_max →
  logged (L ++ [c]) (bumpRevision c (logChange c t)).
Proof.
  intros [Hn Hr Hsub Hf Hb Hrev] Hc Hlt.
  assert (changes (bumpRevision c (logChange c t)) = changes t ++ [c] ∧
    lastChange (bumpRevision c (logChange c t)) = lastChange t + 1 ∧
    floor (bumpRevision c (logChange c t)) = floor t) as (E1 & E2 & E3).
  { unfold bumpRevision. destruct (str_empty _); simpl; by rewrite ?Hc. }
  split; unfold retained; rewrite ?E1, ?E2, ?E3; [|..|lia|lia|].
  - by apply numbered_snoc.
  - rewrite !filter_app. unfold retained in Hr. by rewrite Hr.
  - intros d [?|?]%elem_of_app; apply elem_of_app; [left; auto|by right].
  - intros s r. unfold bumpRevision, lastOf. destruct (str_empty (cRequest c)) eqn:Ee; simpl.
    + rewrite Hrev. destruct (str_empty r) eqn:Er; [done|]. unfold lastOf.
      rewrite filter_app, filter_cons, filter_nil. bool_facts.
      rewrite decide_False, app_nil_r by (intros [_ ?]; congruence). done.
    + bool_facts. rewrite filter_app, filter_cons, filter_nil.
      destruct (decide (cSession c = s ∧ cRequest c = r)) as [[<- <-]|Hne].
      * rewrite lookup_insert_eq, Hrev, last_snoc. unfold str_empty.
        rewrite bool_decide_eq_false_2 by done. simpl.
        destruct (lastOf (cSession c) (cRequest c) L) as [k|] eqn:Ek; [|done].
        pose proof (lastOf_bound _ _ _ _ _ Hn Ek). f_equal. lia.
      * rewrite lookup_insert_ne by naive_solver. by rewrite app_nil_r, Hrev.
Qed.

Lemma ChangeTx_run t session request kind now (Q : () → Tables → Prop) :
  (lastChange t < i64_max →
   let c := mkChange (lastChange t + 1) session request kind now in
   Q tt (bumpRevision c (logChange c t))) →
  wp (ChangeTx session request kind now) Q t.
Proof.
  intros HQ. unfold ChangeTx. wp_step. wp_step. unfold nextKey.
  destruct (lastChange t <? i64_max) eqn:E; [|done]. bool_facts.
  specialize (HQ E). unfold bumpRevision in HQ. simpl in HQ.
  destruct (str_empty request); wp_step; exact HQ.
Qed.

Lemma since_change L t0 t c :
  since L t0 t → Sequence c = lastChange t + 1 → lastChange t < i64_max →
  since L t0 (bumpRevision c (logChange c t)).
Proof.
  intros H Hc Hlt. apply (since_step L t0 t _ [c]); [done|intros; by apply logged_change|].
  unfold bumpRevision. case_match; [keep|]. keep.
  intros k n Hk. destruct (decide (k = (cSession c, cRequest c))) as [->|].
  - rewrite lookup_insert_eq, Hk. eexists. split; [done|lia].
  - rewrite lookup_insert_ne by done. exists n. split; [done|lia].
Qed.

(** ** The operations *)
Section Operations.
Context (L : list Change) (t0 : Tables).

Lemma ChangeTx_since t session request kind now :
  since L t0 t → wp (ChangeTx session request kind now) (λ _ t', since L t0 t') t.
Proof. intros H. apply ChangeTx_run. intros Hlt. by apply since_change. Qed.

Lemma since_setOutbox t key state now : since L t0 t → since L t0 (setOutbox key state now t).
Proof.
  intros H. apply (since_quiet L t0 t); [done|intros L' HL'; apply (logged_same L' t)|apply kept_same];
    try done; unfold setOutbox; by case_match.
Qed.

Lemma Outbox_since t key state now :
  since L t0 t → wp (Outbox key state now) (λ _ t', since L t0 t') t.
Proof. intros H. unfold Outbox. wp_step. by apply since_setOutbox. Qed.

Lemma SaveOutcomeTx_since t key failure now :
  since L t0 t → wp (SaveOutcomeTx key failure now) (λ _ t', since L t0 t') t.
Proof.
  intros H. unfold SaveOutcomeTx. repeat wp_step. apply since_setOutbox.
  apply (since_quiet L t0 t); [done|intros L' HL'; by apply (logged_same L' t)|].
  keep. intros k x Hk. by apply insertOrIgnore_keeps.
Qed.

Lemma insertFreeze_since t marksJSON rowsJSON scope f rows :
  since L t0 t →
  match insertFreeze marksJSON rowsJSON scope f rows t with
  | inl (_, t') => since L t0 t' | inr _ => True end.
Proof.
  intros H. unfold insertFreeze. destruct (insertRow _ _ _) as [fs|]; [|done].
  apply (since_quiet L t0 t); [done|intros L' HL'; by apply (logged_same L' t)|by apply kept_same].
Qed.

Lemma FreezeChecked_since t marksJSON rowsJSON scope f rows expected :
  since L t0 t →
  wp (FreezeChecked marksJSON rowsJSON scope f rows expected) (λ _ t', since L t0 t') t.
Proof.
  intros H. unfold FreezeChecked, JWatermark. wp_step. wp_step.
  destruct (negb _); wp_step. by apply insertFreeze_since.
Qed.

(** *** Claims *)
Lemma intentOf_snoc key r t :
  intentOf key t = None → intentOf key (t <| intents := intents t ++ [r] |>) =
  if decide (Key r = key) then Some r else None.
Proof.
  unfold intentOf. simpl. intros H. apply fmap_None in H.
  rewrite list_find_app_r by done. simpl. by case_decide.
Qed.

Lemma intentOf_change key c t : intentOf key (bumpRevision c (logChange c t)) = intentOf key t.
Proof. unfold intentOf, bumpRevision. by case_match. Qed.

Lemma ClaimTx_since keyJSON t c r now :
  since L t0 t →
  wp (ClaimTx keyJSON c r now) (λ x t',
    let key := keyJSON (cNamespace c) (IdempotencyKey c) in
    since L t0 t' ∧ Hash x.1 = IntentHash c ∧
    if x.2 then intentOf key t = None ∧ intentOf key t' = Some x.1
    else t' = t ∧ intentOf key t = Some x.1 ∧ Metadata x.1 ≠ None) t.
Proof.
  intros H. unfold ClaimTx. set (key := keyJSON _ _). wp_step. wp_step.
  destruct (intentOf key t) as [prev|] eqn:Ek.
  - destruct (negb _) eqn:Eh; [wp_step|]. destruct (Expired prev) eqn:Ee; wp_step. simpl.
    unfold Expired in Ee. bool_facts. by split_and!.
  - set (r1 := field_set _ _ _). wp_step. wp_step. unfold insertIntent.
    destruct (existsb _ _); [done|]. wp_step. wp_step. unfold insertRow. simpl.
    destruct (outbox t !! key) eqn:Eo; [done|]. wp_step. apply ChangeTx_run. intros Hlt. wp_step.
    split_and!; simpl; try done.
    + apply since_change; [|done|done].
      apply (since_quiet L t0 t); [done|intros L' HL'; by apply (logged_same L' t)|].
      keep. intros i r' Hi. exists r'. split; [by apply lookup_app_l_Some|by left].
    + rewrite intentOf_change. set (t1 := field_set outbox _ _).
      change (intentOf key t1) with (intentOf key (t <| intents := intents t ++ [r1] |>)).
      rewrite intentOf_snoc by done. by rewrite decide_True.
Qed.

(** *** Retention *)
Lemma logged_raise L' t n :
  logged L' t → 0 ≤ n ≤ lastChange t → logged L' (raiseFloor n t).
Proof.
  intros [Hn Hr Hs Hf Hb Hrev] Hle. split; simpl; try done; [|lia].
  unfold retained in *. simpl.
  rewrite <- (list_filter_filter_l _ (λ c, floor t < Sequence c) (changes t)), Hr by lia.
  apply list_filter_filter_l. lia.
Qed.

Lemma logged_drop L' t n :
  logged L' t → 0 ≤ n ≤ lastChange t →
  logged L' (raiseFloor n (t <| changes := filter (λ c, n < Sequence c) (changes t) |>)).
Proof.
  intros H Hle. destruct (logged_raise L' t n H Hle) as [Hn Hr Hs Hf Hb Hrev].
  split; try done.
  - etrans; [|exact Hr]. unfold retained. simpl. apply list_filter_filter_l. lia.
  - simpl. intros c [_ Hc]%list_elem_of_filter. by apply Hs.
Qed.

Lemma kept_expire t now :
  kept t (t <| intents := map (λ r, if expires now t r then r <| Metadata := None |> else r)
                            (intents t) |>).
Proof.
  keep. intros i r Hi.
  eexists. split; [by rewrite list_lookup_fmap, Hi|]. case_match; [by right|by left].
Qed.

Lemma maxSequence_last L' t : logged L' t → maxSequence (changes t) ≤ lastChange t.
Proof.
  intros [Hn _ Hs Hf _ _]. apply maxSequence_le; [lia|].
  intros c Hc%Hs. by eapply numbered_bound.
Qed.
Lemma expiredUpTo_range L' t now :
  logged L' t → 0 ≤ expiredUpTo now (changes t) ≤ lastChange t.
Proof.
  intros H. unfold expiredUpTo. split; [apply maxSequence_nonneg|].
  apply maxSequence_le; [destruct H; lia|]. intros c [_ Hc]%list_elem_of_filter.
  etrans; [by apply maxSequence_ge|by eapply maxSequence_last].
Qed.

Lemma Prune_since t now : since L t0 t → wp (Prune now) (λ _ t', since L t0 t') t.
Proof.
  intros H. unfold Prune. do 6 wp_step. wp_step. wp_step.
  set (upTo := expiredUpTo now (changes t)).
  set (t1 := raiseFloor upTo _).
  assert (since L t0 t1) as H1.
  { destruct H as (new & Hl & Hk). exists new. split.
    - apply logged_drop; [done|by eapply expiredUpTo_range].
    - eapply kept_trans; [done|]. apply kept_same; simpl; try done; lia. }
  clearbody t1. set (t2 := field_set intents _ _). set (n := length _). clearbody n.
  assert (since L t0 t2) as H2.
  { apply (since_quiet L t0 t1); [done|intros L' HL'; by apply (logged_same L' t1)|apply kept_expire]. }
  clearbody t2. wp_step.
  apply (wp_mono _ (λ _ t', since L t0 t')).
  - destruct (0 <? n)%nat; [|by wp_step]. wp_step. eapply wp_mono; [by apply ChangeTx_since|].
    intros [] t3 (new & Hl & Hk). wp_step. exists new. split.
    + apply logged_raise; [done|]. split; [apply maxSequence_nonneg|by eapply maxSequence_last].
    + eapply kept_trans; [done|]. apply kept_same; simpl; try done; lia.
  - intros [] t3 H3. wp_step.
    apply (since_quiet L t0 t3); [done|intros L' HL'; by apply (logged_same L' t3)|by apply kept_same].
Qed.
End Operations.

(** ** Reading the feed *)

(** At or above the floor a reader sees the changes after its cursor, all of
    them, up to its limit. *)
Lemma changesRead_log L t after limit :
  logged L t → floor t ≤ after → 0 ≤ limit →
  (changesRead after limit [] t).2 = inl (take (Z.to_nat limit) (drop (Z.to_nat after) L), t).
Proof.
  intros [Hn Hr _ Hf _ _] Ha Hlim. unfold changesRead, query. simpl. do 2 f_equal.
  rewrite (proj2 (Z.ltb_ge limit 0)) by done.
  rewrite <- (list_filter_filter_l _ (λ c, floor t < Sequence c) (changes t)) by lia.
  unfold retained in Hr. rewrite Hr, list_filter_filter_l by lia.
  by rewrite (after_drop L _ after Hn) by lia.
Qed.

Lemma watermark_log L t : logged L t → watermark t = lastChange t.
Proof.
  intros H. pose proof (maxSequence_last L t H). destruct H as [Hn Hr Hs Hf Hb Hrev].
  unfold watermark. destruct (decide (floor t = lastChange t)) as [->|Hne]; [lia|].
  enough (lastChange t ≤ maxSequence (changes t)) by lia.
  destruct L as [|c L' _] using rev_ind.
  { destruct Hn as [_ Hn]. simpl in Hn. lia. }
  assert (Sequence c = lastChange t) as Ec.
  { destruct (Hn) as [_ Hlen]. rewrite length_app in Hlen. simpl in Hlen.
    rewrite (numbered_lookup _ _ (length L') c Hn); [lia|by apply list_lookup_middle]. }
  rewrite <- Ec. apply maxSequence_ge.
  assert (c ∈ retained t) as Hc.
  { rewrite Hr. apply list_elem_of_filter. split; [lia|]. apply elem_of_app. right. left. }
  unfold retained in Hc. by apply list_elem_of_filter in Hc as [_ ?].
Qed.
