(* ===== verification/MessageQueue.v ===== *)
(** * The message queue store: [src/internal/messagequeue]

    Durable receipts and payloads of chat messages, with the evidence the
    agents leave about them: [store.go], [task_evidence.go],
    [provider_evidence.go], [task_seals.go], [steer_proof.go] and
    [task_api.go], over the tables of [Open] and the journal of [taskapi].
    [encoding/json] and SHA-256 are parameters; strings are valid UTF-8, so
    that the column of file names gives back the list that was stored.

    The operations are transaction bodies of [Sql]: they end with whether the
    code commits, and with what it returns.  The zero [Entry] that the code
    returns where it has none is [None]. *)
From S2P Require Import Prelude Orders Sql TaskJournal.

(** ** Data *)
Inductive State := Queued | Running | Steering | Steered | Cancelled | Completed | Failed | Uncertain.
#[global] Instance State_eq_dec : EqDecision State.
Proof. solve_decision. Defined.

Definition stateText (s : State) : string :=
  match s with
  | Queued => "queued" | Running => "running" | Steering => "steering" | Steered => "steered"
  | Cancelled => "cancelled" | Completed => "completed" | Failed => "failed"
  | Uncertain => "uncertain"
  end.

Definition ErrConflict : Err := Plain "request ID already belongs to different message content".
Definition ErrRejected (reason : string) : Err :=
  Plain ("message request was permanently rejected: " +:+ reason).
Definition ErrNativeConflict : Err := Plain "native_acceptance_conflict".
Definition refreshIdentity : Err := APIError "permission" "known_none" "refresh_identity".

Record Entry := mkEntry {
  qSequence : Z; SessionID : string; RequestID : string; eState : State; Content : string;
  ImageCount : Z; FileNames : list string; Payload : string; PayloadHash : string;
  Message : string; ActiveRequestID : string; TurnID : string;
  eCreatedAt : Z; UpdatedAt : Z }.
#[export] Instance Entry_eta : Eta Entry := λ e,
  mkEntry (qSequence e) (SessionID e) (RequestID e) (eState e) (Content e) (ImageCount e)
    (FileNames e) (Payload e) (PayloadHash e) (Message e) (ActiveRequestID e) (TurnID e)
    (eCreatedAt e) (UpdatedAt e).
#[global] Instance Entry_eq_dec : EqDecision Entry.
Proof. solve_decision. Defined.

(** [API] of an entry; the two answers of [CanCommit], which is asked at the
    beginning and before the commit ([true] without one). *)
Record APIAdmission := mkAPI {
  Command : AuthorizedCommand; apiRecord : IntentRecord;
  canBegin : bool; canCommit : bool }.

Record ProviderEvidence := mkEvidence {
  Backend : string; ConversationID : string; Token : string; TokenKind : string;
  MessageID : string; Text : string; Status : string }.
#[export] Instance ProviderEvidence_eta : Eta ProviderEvidence := λ r,
  mkEvidence (Backend r) (ConversationID r) (Token r) (TokenKind r) (MessageID r) (Text r) (Status r).
#[global] Instance ProviderEvidence_eq_dec : EqDecision ProviderEvidence.
Proof. solve_decision. Defined.

Record TaskSeal := mkSeal { sealID : string; sealHash : string; sealText : string; Anchor : string }.
#[global] Instance TaskSeal_eq_dec : EqDecision TaskSeal.
Proof. solve_decision. Defined.

(** The fields of a payload that the store reads, raw JSON where it keeps it. *)
Record rawAdmission := mkRaw {
  MessagePurpose : string; CallbackOnComplete : option bool; CallbackBinding : string;
  OwnerDevice : string; Origin : string; Target : string; rawContent : string }.

Record admission := mkAdmission {
  aSession : string; aRequest : string; originInstance : string; originSession : string;
  aMetadata : string }.
#[global] Instance admission_eq_dec : EqDecision admission.
Proof. solve_decision. Defined.

(** A message is named by its conversation and its request. *)
Notation mid := (string * string)%type.

Record Db := mkDb {
  tables : Tables;
  sessions : gmap string Z;
  commands : list Entry; lastSeq : Z;
  admissions : list admission;
  seals : gmap mid TaskSeal;
  evidence : gmap mid ProviderEvidence;
  cancelOrigins : gmap mid State;
  providerConflicts : gset mid;
  nativeConflicts : gmap mid (string * string);
  conflictEvidence : gset (mid * (string * string));
  acceptance : gmap mid (string * string);
  steerProofs : gmap mid (string * string * string);
  rejections : gmap mid (string * Z) }.
#[export] Instance Db_eta : Eta Db := λ d,
  mkDb (tables d) (sessions d) (commands d) (lastSeq d) (admissions d) (seals d) (evidence d)
    (cancelOrigins d) (providerConflicts d) (nativeConflicts d) (conflictEvidence d)
    (acceptance d) (steerProofs d) (rejections d).

Definition Open : Db := mkDb InstallJournal ∅ [] 0 [] ∅ ∅ ∅ ∅ ∅ ∅ ∅ ∅ ∅.

#[export] Instance Db_journaled : Journaled Db := {|
  journal := tables; setJournal := λ t d, d <| tables := t |>; journal_set := λ t d, eq_refl |}.

(** ** Rows *)
Definition isMessage (sid rid : string) (e : Entry) : Prop := SessionID e = sid ∧ RequestID e = rid.
#[global] Instance isMessage_dec sid rid e : base.Decision (isMessage sid rid e).
Proof. unfold isMessage. apply _. Defined.

Definition lookup (sid rid : string) (d : Db) : option Entry :=
  snd <$> list_find (isMessage sid rid) (commands d).
Definition Get (sid rid : string) : Tx Db (option Entry) := query (lookup sid rid).

(** [UPDATE queue_commands ... WHERE session_id=? AND request_id=?]. *)
Definition updateMessage (sid rid : string) (f : Entry → Entry) (d : Db) : Db :=
  d <| commands := map (λ e, if bool_decide (isMessage sid rid e) then f e else e) (commands d) |>.

Definition insertMessage (e : Entry) (d : Db) : () * Db + Err :=
  match lookup (SessionID e) (RequestID e) d with
  | Some _ => inr ConstraintError
  | None =>
      match nextKey (lastSeq d) with
      | inl n => inl (tt, d <| commands := commands d ++ [e <| qSequence := n |>] |>
                            <| lastSeq := n |>)
      | inr err => inr err
      end
  end.

Definition bump (sid : string) (now : Z) : Tx Db () :=
  onJournal (ChangeTx sid "" "snapshot" now);;
  exec_ (λ d, d <| sessions := <[sid := default 0 (sessions d !! sid) + 1]> (sessions d) |>).

Definition change (sid rid kind : string) (now : Z) : Tx Db () :=
  onJournal (ChangeTx sid rid kind now).

Definition Touch (sid : string) (now : Z) : Tx Db (bool * error) :=
  bump sid now;; mret (true, None).

(** ** Admission *)
Definition isHex (a : Ascii.ascii) : bool :=
  let n := Z.of_nat (Ascii.nat_of_ascii a) in
  ((48 <=? n) && (n <=? 57)) || ((97 <=? n) && (n <=? 102)) || ((65 <=? n) && (n <=? 70)).
(** [hex.DecodeString] gives 32 bytes. *)
Definition validHash (h : string) : bool :=
  (str_len h =? 64) && forallb isHex (String.list_ascii_of_string h).

Section Admission.
Context (sha256Hex : string → string) (keyJSON : Namespace → string → string)
        (decodePayload : string → option rawAdmission)
        (decodeOrigin : string → option (string * string))
        (encodeAdmission : rawAdmission → string).

Definition saveTaskAdmission (e : Entry) : Tx Db () :=
  match decodePayload (Payload e) with
  | None => mret tt
  | Some raw =>
      if str_empty (OwnerDevice raw) && str_empty (Origin raw) && str_empty (MessagePurpose raw)
      then mret tt
      else
        match (if str_empty (Origin raw) then Some ("", "") else decodeOrigin (Origin raw)) with
        | None => tx_fail (Plain "json")
        | Some (instance_, session) =>
            exec (λ d,
              if existsb (λ a, bool_decide (aSession a = SessionID e ∧ aRequest a = RequestID e))
                   (admissions d)
              then inr ConstraintError
              else inl (tt, d <| admissions := admissions d ++
                     [mkAdmission (SessionID e) (RequestID e) instance_ session (encodeAdmission raw)] |>))
        end
  end.

Definition Result : Type := option Entry * bool * option Err.
Definition failed (e : Err) : Result := (None, false, Some e).
Definition noCommit (r : Result) : Tx Db (bool * Result) := mret (false, r).

Definition hashOf (e : Entry) : string :=
  if str_empty (PayloadHash e) then sha256Hex (Payload e) else PayloadHash e.

(** The statements after the checks. *)
Definition insertNew (api : option APIAdmission) (e : Entry) (now : Z) : Tx Db (bool * Result) :=
  exec (insertMessage (e <| eState := Queued |> <| PayloadHash := hashOf e |>
          <| Message := "" |> <| ActiveRequestID := "" |> <| TurnID := "" |>
          <| eCreatedAt := now |> <| UpdatedAt := now |>));;
  change (SessionID e) (RequestID e) "admission" now;;
  saveTaskAdmission e;;
  bump (SessionID e) now;;
  inserted ← Get (SessionID e) (RequestID e);
  if negb (from_option canCommit true api) then noCommit (failed refreshIdentity)
  else mret (true, (inserted, true, None)).

(** The rejection and the earlier message. *)
Definition admitNew (api : option APIAdmission) (e : Entry) (now : Z) : Tx Db (bool * Result) :=
  rejected ← query (λ d, rejections d !! (SessionID e, RequestID e));
  match rejected with
  | Some (reason, _) => noCommit (failed (ErrRejected reason))
  | None =>
      found ← Get (SessionID e) (RequestID e);
      match found with
      | Some previous =>
          if from_option (λ a, bool_decide (Operation (Command a) = "intake")) false api
             || negb (bool_decide (PayloadHash previous = hashOf e))
          then noCommit (Some previous, false, Some ErrConflict)
          else noCommit (Some previous, false, None)
      | None => insertNew api e now
      end
  end.

Definition enqueueBody (api : option APIAdmission) (e : Entry) (now : Z) : Tx Db (bool * Result) :=
  match api with
  | None => admitNew api e now
  | Some a =>
      if negb (canBegin a) then noCommit (failed refreshIdentity)
      else
        '(original, created) ← onJournal (ClaimTx keyJSON (Command a) (apiRecord a) now);
        if created : bool then admitNew api e now
        else
          prior ← Get (iSession original) (iRequest original);
          noCommit (prior, false, None)
  end.

Definition Enqueue (api : option APIAdmission) (e : Entry) (now : Z) (fs : list bool) (d : Db)
  : Result * Db * list bool :=
  if negb (str_empty (PayloadHash e)) && negb (validHash (PayloadHash e))
  then (failed ErrConflict, d, fs)
  else atomically failed (enqueueBody api e now) fs d.
End Admission.

Definition Reject (sid rid reason : string) (now : Z) (fs : list bool) (d : Db)
  : option Err * Db * list bool :=
  if str_empty sid || str_empty rid then (Some (Plain "missing rejection identity"), d, fs)
  else
    atomically Some
      (found ← Get sid rid;
       match found with
       | Some _ => mret (false, None)
       | None =>
           exec_ (λ d, d <| rejections := insertOrIgnore (sid, rid) (reason, now) (rejections d) |>);;
           mret (true, None)
       end) fs d.

(** ** Transitions *)
Definition clears (to : State) : bool :=
  bool_decide (to ∈ [Completed; Cancelled; Steered; Failed]).

Definition recordOrigin (sid rid : string) (to : State) (e : Entry) : Tx Db () :=
  if bool_decide (to = Cancelled)
  then exec_ (λ d, d <| cancelOrigins := insertOrIgnore (sid, rid) (eState e) (cancelOrigins d) |>)
  else mret tt.

Definition recordProof (sid rid activeRequestID turnID : string) (to : State) (strictACK : bool)
    (e : Entry) : Tx Db () :=
  if bool_decide (to = Steered) && strictACK then
    if str_empty activeRequestID || bool_decide (activeRequestID = rid) || str_empty turnID
    then tx_fail (Plain "invalid strict steer tuple")
    else exec (λ d,
      match insertRow (sid, rid) (PayloadHash e, activeRequestID, turnID) (steerProofs d) with
      | Some ps => inl (tt, d <| steerProofs := ps |>)
      | None => inr ConstraintError
      end)
  else mret tt.

Definition moved (to : State) (message activeRequestID turnID : string) (now : Z) (e : Entry) : Entry :=
  e <| eState := to |> <| Message := message |> <| ActiveRequestID := activeRequestID |>
    <| TurnID := turnID |> <| UpdatedAt := now |>
    <| Payload := if clears to then "" else Payload e |>.

Definition Transition (sid rid : string) (from : list State) (to : State)
    (message activeRequestID turnID : string) (strictACK : bool) (now : Z) : Tx Db (bool * Result) :=
  found ← Get sid rid;
  match found with
  | None => noCommit (None, false, None)
  | Some e =>
      if negb (bool_decide (eState e ∈ from)) then noCommit (Some e, false, None)
      else
        recordOrigin sid rid to e;;
        recordProof sid rid activeRequestID turnID to strictACK e;;
        exec_ (updateMessage sid rid (moved to message activeRequestID turnID now));;
        bump sid now;;
        change sid rid (stateText to) now;;
        after ← Get sid rid;
        mret (true, (after, true, None))
  end.

Definition unsettled (s : State) : bool := bool_decide (s ∈ [Queued; Running; Steering; Uncertain]).

Definition HasUnsettled (sid : string) : Tx Db bool :=
  query (λ d, existsb (λ e, bool_decide (SessionID e = sid) && unsettled (eState e)) (commands d)).

(** ** Queries *)
Record Snapshot := mkSnapshot { Revision : Z; Items : list Entry }.

(** The unsettled messages of a session and its last 100, without payloads. *)
Definition takeSnapshot (sid : string) : Tx Db Snapshot :=
  revision ← query (λ d, default 0 (sessions d !! sid));
  items ← query (λ d,
    let mine := filter (λ e, SessionID e = sid) (commands d) in
    let recent := drop (length mine - 100) mine in
    map (λ e, e <| Payload := "" |>)
      (filter (λ e, unsettled (eState e) = true ∨ qSequence e ∈ map qSequence recent) mine));
  mret (mkSnapshot revision items).

Definition QueuedMessages : Tx Db (list Entry) :=
  query (λ d, filter (λ e, eState e = Queued) (commands d)).

Definition OriginEntries (instance_ parent : string) : Tx Db (list Entry) :=
  query (λ d, take 100 (rev (filter (λ e, existsb (λ a,
    bool_decide (aSession a = SessionID e ∧ aRequest a = RequestID e ∧
                 originInstance a = instance_ ∧ originSession a = parent)) (admissions d) = true)
    (commands d)))).
Definition TaskAdmission (sid rid : string) : Tx Db (option string) :=
  query (λ d, aMetadata <$> (snd <$> list_find (λ a, aSession a = sid ∧ aRequest a = rid) (admissions d))).
Definition CancelOrigin (sid rid : string) : Tx Db (option State) :=
  query (λ d, cancelOrigins d !! (sid, rid)).

(** ** Restart *)
Definition restartMessage : string :=
  "Bridge restarted before the result was confirmed; this message will not be sent again automatically".

Definition interrupted (e : Entry) : bool := bool_decide (eState e ∈ [Running; Steering]).

Fixpoint announce (ids : list mid) (now : Z) : Tx Db () :=
  match ids with
  | [] => mret tt
  | (sid, rid) :: rest => change sid rid "uncertain" now;; bump sid now;; announce rest now
  end.

Definition Recover (now : Z) : Tx Db (bool * option Err) :=
  ids ← query (λ d, map (λ e, (SessionID e, RequestID e)) (filter (λ e, interrupted e = true) (commands d)));
  exec_ (λ d, d <| commands := map (λ e,
    if interrupted e
    then e <| eState := Uncertain |> <| Message := restartMessage |> <| UpdatedAt := now |>
    else e) (commands d) |>);;
  announce ids now;;
  mret (true, None).

(** ** Cancellation *)
Definition mayCancel (sid rid hash : string) (expectedRevision : option Z) (d : Db) (e : Entry) : bool :=
  bool_decide (eState e = Queued) && bool_decide (PayloadHash e = hash) &&
  match expectedRevision with
  | None => true
  | Some r => bool_decide (sessions d !! sid = Some r)
  end &&
  bool_decide (acceptance d !! (sid, rid) = None) &&
  bool_decide (nativeConflicts d !! (sid, rid) = None) &&
  bool_decide ((sid, rid) ∉ providerConflicts d).

Definition CancelWaitingAPI (sid rid hash : string) (expectedRevision : option Z)
    (outcomeKey : string) (now : Z) : Tx Db (bool * Result) :=
  count ← exec (λ d,
    match lookup sid rid d with
    | Some e =>
        if mayCancel sid rid hash expectedRevision d e
        then inl (1, updateMessage sid rid
               (λ e, e <| eState := Cancelled |> <| UpdatedAt := now |> <| Payload := "" |>) d)
        else inl (0, d)
    | None => inl (0, d)
    end);
  if bool_decide (count = 0) then
    e ← Get sid rid;
    noCommit (e, false, None)
  else
    exec_ (λ d, d <| cancelOrigins := insertOrIgnore (sid, rid) Queued (cancelOrigins d) |>);;
    change sid rid "cancelled" now;;
    (if str_empty outcomeKey then mret tt else onJournal (SaveOutcomeTx outcomeKey None now));;
    bump sid now;;
    e ← Get sid rid;
    mret (true, (e, true, None)).

(** ** Evidence *)
Definition RecordNativeAcceptance (sid rid thread turn : string) (now : Z) (fs : list bool) (d : Db)
  : option Err * Db * list bool :=
  if str_empty sid || str_empty rid || str_empty thread || str_empty turn
  then (Some (Plain "invalid native acceptance"), d, fs)
  else
    atomically Some
      (old ← query (λ d, acceptance d !! (sid, rid));
       match old with
       | Some (oldThread, oldTurn) =>
           if bool_decide (oldThread = thread) && bool_decide (oldTurn = turn)
           then mret (true, None)
           else
             exec_ (λ d, d <| nativeConflicts :=
               insertOrIgnore (sid, rid) (thread, turn) (nativeConflicts d) |>);;
             count ← exec (λ d,
               let k := ((sid, rid), (thread, turn)) in
               inl (if bool_decide (k ∈ conflictEvidence d) then 0 else 1,
                    d <| conflictEvidence := {[k]} ∪ conflictEvidence d |>));
             (if bool_decide (count = 0) then mret tt
              else change sid rid "native_conflict" now);;
             mret (true, Some ErrNativeConflict)
       | None =>
           exec (λ d, match insertRow (sid, rid) (thread, turn) (acceptance d) with
                      | Some a => inl (tt, d <| acceptance := a |>)
                      | None => inr ConstraintError
                      end);;
           change sid rid "native_acceptance" now;;
           mret (true, None)
       end) fs d.

Definition conflicted (sid rid : string) (d : Db) : bool :=
  negb (bool_decide (nativeConflicts d !! (sid, rid) = None)) ||
  bool_decide ((sid, rid) ∈ providerConflicts d).
Definition NativeConflict (sid rid : string) : Tx Db bool := query (conflicted sid rid).

Definition ExactNativeAcceptance (sid rid : string) : Tx Db (option (string * string)) :=
  '(found, conflict) ← query (λ d, (acceptance d !! (sid, rid), conflicted sid rid d));
  if conflict : bool then tx_fail ErrNativeConflict
  else
    match found with
    | None => mret None
    | Some (thread, turn) =>
        if str_empty thread || str_empty turn then tx_fail (Plain "invalid canonical native tuple")
        else mret (Some (thread, turn))
    end.

(** The readers that answer nothing on an error. *)
Definition NativeAcceptance (sid rid thread : string) (fs : list bool) (d : Db) : string :=
  match (ExactNativeAcceptance sid rid fs d).2 with
  | inl (Some (t, turn), _) => if bool_decide (t = thread) then turn else ""
  | _ => ""
  end.
Definition NativeExecution (sid rid : string) (fs : list bool) (d : Db) : string * string * bool :=
  match NativeConflict sid rid fs d with
  | (fs, inl (false, _)) =>
      match (query (λ d, acceptance d !! (sid, rid)) fs d).2 with
      | inl (Some (thread, turn), _) => (thread, turn, negb (str_empty thread) && negb (str_empty turn))
      | _ => ("", "", false)
      end
  | _ => ("", "", false)
  end.
Definition readEvidence (sid rid : string) : Tx Db (option ProviderEvidence) :=
  query (λ d, evidence d !! (sid, rid)).

(** [old] contradicts [r]. *)
Definition contradicts (old r : ProviderEvidence) : bool :=
  negb (bool_decide (Backend old = Backend r)) ||
  negb (bool_decide (ConversationID old = ConversationID r)) ||
  negb (bool_decide (Token old = Token r)) ||
  negb (str_empty (Status old)) &&
    (negb (str_empty (Status r)) &&
       (negb (bool_decide (Status old = Status r)) || negb (bool_decide (Text old = Text r))) ||
     negb (str_empty (MessageID r)) && negb (bool_decide (MessageID old = MessageID r))).

Definition sameEvidence (old r : ProviderEvidence) : bool :=
  str_empty (Status r) ||
  bool_decide (Status old = Status r) && bool_decide (MessageID old = MessageID r) &&
  bool_decide (Text old = Text r).

(** [INSERT ... ON CONFLICT DO UPDATE SET message_id, text, status]. *)
Definition upsertEvidence (sid rid : string) (r : ProviderEvidence) (d : Db) : Db :=
  d <| evidence := <[(sid, rid) :=
         match evidence d !! (sid, rid) with
         | Some old => old <| MessageID := MessageID r |> <| Text := Text r |> <| Status := Status r |>
         | None => r
         end]> (evidence d) |>.

Definition providerConflictError : Err := Plain "provider_evidence_conflict".

Definition RecordProviderEvidence (sid rid : string) (r : ProviderEvidence) (now : Z)
    (fs : list bool) (d : Db) : option Err * Db * list bool :=
  if negb (bool_decide (Backend r = "claude")) || str_empty (ConversationID r) ||
     str_empty (Token r) || negb (bool_decide (TokenKind r = "message_uuid"))
  then (Some (Plain "invalid provider evidence"), d, fs)
  else
    atomically Some
      (old ← query (λ d, evidence d !! (sid, rid));
       let record :=
         exec_ (upsertEvidence sid rid r);;
         change sid rid "provider_evidence" now;;
         mret (true, None) in
       match old with
       | None => record
       | Some old =>
           if contradicts old r then
             exec_ (λ d, d <| providerConflicts := {[(sid, rid)]} ∪ providerConflicts d |>);;
             change sid rid "provider_conflict" now;;
             mret (true, Some providerConflictError)
           else if sameEvidence old r then mret (true, None)
           else record
       end) fs d.

Section Seals.
Context (sha256Hex : string → string).

Definition SealTask (sid rid : string) (s : TaskSeal) (now : Z) (fs : list bool) (d : Db)
  : (TaskSeal + Err) * Db * list bool :=
  if negb (bool_decide (sha256Hex (sealText s) = sealHash s))
  then (inr (Plain "seal content hash mismatch"), d, fs)
  else
    atomically inr
      (conflict ← NativeConflict sid rid;
       if conflict : bool then tx_fail (Plain "native evidence quarantined")
       else
         stored ← query (λ d, seals d !! (sid, rid));
         match stored with
         | Some stored =>
             if negb (bool_decide (sealHash stored = sealHash s)) ||
                negb (bool_decide (Anchor stored = Anchor s))
             then tx_fail (Plain "immutable seal conflict")
             else mret (true, inl stored)
         | None =>
             exec_ (λ d, d <| seals := <[(sid, rid) := s]> (seals d) |>);;
             change sid rid "final_sealed" now;;
             mret (true, inl s)
         end) fs d.
End Seals.

Definition findSeal (sid rid id : string) : Tx Db TaskSeal :=
  found ← query (λ d, seals d !! (sid, rid));
  match found with
  | Some s => if str_empty id || bool_decide (sealID s = id) then mret s
              else tx_fail (APIError "result_not_ready" "known_none" "wait")
  | None => tx_fail (APIError "result_not_ready" "known_none" "wait")
  end.
Definition TaskRevision (sid rid : string) : Tx Db Z :=
  query (λ d, default 0 (revisions (tables d) !! (sid, rid))).

Definition StrictSteerProven (e : Entry) (d : Db) : bool :=
  bool_decide (steerProofs d !! (SessionID e, RequestID e) =
               Some (PayloadHash e, ActiveRequestID e, TurnID e)) &&
  bool_decide (eState e = Steered).
