(* ===== verification/QueueStore.v ===== *)
(** * What every operation of the message queue keeps

    [wf]: the invariant of the database.  [evolves d d']: what [d'] may not
    have forgotten of [d].  [reaches L d0 d]: the store went from [d0], with
    the changes [L], to [d].  Every operation goes from such a state to such a
    state, whatever fails and wherever it returns. *)
From S2P Require Import Prelude Orders Sql TaskJournal TaskFeed MessageQueue.

(** ** Rows *)
Definition key (e : Entry) : mid := (SessionID e, RequestID e).

(** What never changes of a message, and that a payload is only cleared. *)
Record sameMessage (e e' : Entry) : Prop := mkSame {
  sm_sequence : qSequence e' = qSequence e;
  sm_key : key e' = key e;
  sm_content : Content e' = Content e;
  sm_hash : PayloadHash e' = PayloadHash e;
  sm_created : eCreatedAt e' = eCreatedAt e;
  sm_payload : Payload e' = Payload e ∨ Payload e' = "" }.

Lemma sameMessage_refl e : sameMessage e e.
Proof. split; auto. Qed.
Lemma sameMessage_trans e1 e2 e3 : sameMessage e1 e2 → sameMessage e2 e3 → sameMessage e1 e3.
Proof.
  intros [] []. split; try congruence.
  destruct sm_payload0 as [H1|H1], sm_payload1 as [H2|H2]; rewrite H2; auto.
Qed.

Lemma lookup_spec sid rid d e :
  lookup sid rid d = Some e →
  e ∈ commands d ∧ key e = (sid, rid).
Proof.
  unfold lookup. intros ([i e'] & Hf & ->)%fmap_Some.
  apply list_find_Some in Hf as (Hi & [H1 H2] & _). simpl in *.
  split; [by eapply list_elem_of_lookup_2|unfold key; by rewrite H1, H2].
Qed.
Lemma lookup_none sid rid d e : lookup sid rid d = None → e ∈ commands d → key e ≠ (sid, rid).
Proof.
  unfold lookup. intros H He Hk. apply fmap_None, list_find_None in H.
  rewrite Forall_forall in H. apply (H e He). injection Hk as H1 H2. by split.
Qed.
Lemma lookup_unique sid rid d e :
  NoDup (map key (commands d)) → e ∈ commands d → key e = (sid, rid) → lookup sid rid d = Some e.
Proof.
  intros Hnd He Hk. destruct (lookup sid rid d) as [e'|] eqn:E.
  - apply lookup_spec in E as [He' Hk']. f_equal.
    apply list_elem_of_lookup in He as [i Hi], He' as [j Hj].
    assert (i = j) as ->; [|congruence].
    eapply NoDup_lookup; [done| |]; rewrite list_lookup_fmap.
    + by rewrite Hi.
    + rewrite Hj. simpl. by rewrite Hk, Hk'.
  - by destruct (lookup_none _ _ _ _ E He).
Qed.
Lemma lookup_map sid rid d f :
  NoDup (map key (commands d)) → (∀ e, key (f e) = key e) →
  lookup sid rid (d <| commands := map f (commands d) |>) = f <$> lookup sid rid d.
Proof.
  intros Hnd Hf.
  assert (map key (map f (commands d)) = map key (commands d)) as Hm.
  { rewrite map_map. by apply map_ext. }
  destruct (lookup sid rid d) as [e|] eqn:E; simpl.
  - apply lookup_spec in E as [He Hk]. apply lookup_unique; simpl; [by rewrite Hm| |by rewrite Hf].
    by apply (list_elem_of_fmap_2 f).
  - destruct (lookup sid rid (d <| commands := map f (commands d) |>)) as [e'|] eqn:E'; [|done].
    apply lookup_spec in E' as [He' Hk']. simpl in He'.
    apply list_elem_of_fmap in He' as (e & -> & He). rewrite Hf in Hk'.
    by destruct (lookup_none _ _ _ _ E He).
Qed.

(** ** The invariant *)
Record wf (d : Db) : Prop := mkWf {
  wf_keys : NoDup (map key (commands d));
  wf_sequence : StronglySorted Z.lt (map qSequence (commands d));
  wf_last : ∀ e, e ∈ commands d → 0 < qSequence e ≤ lastSeq d;
  wf_bound : 0 ≤ lastSeq d ≤ i64_max;
  wf_cleared : ∀ e, e ∈ commands d → clears (eState e) = true → Payload e = "";
  wf_rejected : ∀ k x, rejections d !! k = Some x → lookup k.1 k.2 d = None;
  wf_origin : ∀ e, e ∈ commands d → eState e = Cancelled → is_Some (cancelOrigins d !! key e);
  wf_proof : ∀ k h a t, steerProofs d !! k = Some (h, a, t) →
    a ≠ "" ∧ a ≠ k.2 ∧ t ≠ "" ∧ ∃ e, lookup k.1 k.2 d = Some e ∧ PayloadHash e = h;
  wf_conflict : ∀ k x, (k, x) ∈ conflictEvidence d →
    is_Some (nativeConflicts d !! k) ∧ ∃ y, acceptance d !! k = Some y ∧ y ≠ x;
  wf_revision : ∀ s n, sessions d !! s = Some n → 0 < n ≤ lastChange (tables d) }.

(** ** What is never forgotten *)
Record evolves (d d' : Db) : Prop := mkEvolves {
  ev_message : ∀ sid rid e, lookup sid rid d = Some e →
    ∃ e', lookup sid rid d' = Some e' ∧ sameMessage e e';
  ev_rejected : ∀ k x, rejections d !! k = Some x → rejections d' !! k = Some x;
  ev_accepted : ∀ k x, acceptance d !! k = Some x → acceptance d' !! k = Some x;
  ev_origin : ∀ k x, cancelOrigins d !! k = Some x → cancelOrigins d' !! k = Some x;
  ev_proof : ∀ k x, steerProofs d !! k = Some x → steerProofs d' !! k = Some x;
  ev_seal : ∀ k x, seals d !! k = Some x → seals d' !! k = Some x;
  ev_native : ∀ k x, nativeConflicts d !! k = Some x → nativeConflicts d' !! k = Some x;
  ev_provider : providerConflicts d ⊆ providerConflicts d';
  ev_last : lastSeq d ≤ lastSeq d';
  ev_revision : ∀ s n, sessions d !! s = Some n → ∃ n', sessions d' !! s = Some n' ∧ n ≤ n' }.

Lemma forgets_nothing_refl d : evolves d d.
Proof.
  split; eauto using sameMessage_refl; try done; try lia.
  intros s n ?. exists n. split; [done|lia].
Qed.
Lemma evolves_trans d1 d2 d3 : evolves d1 d2 → evolves d2 d3 → evolves d1 d3.
Proof.
  intros [M1 R1 A1 O1 P1 S1 N1 C1 L1 V1] [M2 R2 A2 O2 P2 S2 N2 C2 L2 V2].
  split; eauto; [|set_solver|lia|].
  - intros sid rid e (e2 & H2 & Hs2)%M1. destruct (M2 _ _ _ H2) as (e3 & H3 & Hs3).
    exists e3. split; [done|by eapply sameMessage_trans].
  - intros s n (n2 & H2 & Hle)%V1. destruct (V2 _ _ H2) as (n3 & H3 & Hle3). exists n3. split; [done|lia].
Qed.

Definition reaches (L : list Change) (d0 d : Db) : Prop :=
  wf d ∧ since L (tables d0) (tables d) ∧ evolves d0 d.

Lemma reaches_refl L d : wf d → logged L (tables d) → reaches L d d.
Proof. intros. split_and!; [done|by apply since_refl|apply forgets_nothing_refl]. Qed.
Lemma reaches_step L d0 d d' :
  reaches L d0 d → wf d' → since L (tables d0) (tables d') → evolves d d' → reaches L d0 d'.
Proof. intros (_ & _ & He) ???. split_and!; [done..|by eapply evolves_trans]. Qed.

Lemma wf_open : wf Open.
Proof.
  split; simpl; try done.
  - constructor.
  - constructor.
  - intros e H. by apply elem_of_nil in H.
  - intros e H. by apply elem_of_nil in H.
  - intros e H. by apply elem_of_nil in H.
Qed.

(** Closes the parts of [wf] and [evolves] that concern other tables. *)
Ltac untouched := split; simpl; eauto using sameMessage_refl; try done; try lia.

Lemma evolves_same d d' :
  commands d' = commands d → rejections d' = rejections d → acceptance d' = acceptance d →
  cancelOrigins d' = cancelOrigins d → steerProofs d' = steerProofs d → seals d' = seals d →
  nativeConflicts d' = nativeConflicts d → providerConflicts d' = providerConflicts d →
  lastSeq d' = lastSeq d → sessions d' = sessions d → evolves d d'.
Proof.
  intros E1 E2 E3 E4 E5 E6 E7 E8 E9 E10.
  split; rewrite ?E2, ?E3, ?E4, ?E5, ?E6, ?E7, ?E8, ?E9, ?E10; try done.
  - intros sid rid e He. exists e. split; [|apply sameMessage_refl].
    unfold lookup in *. by rewrite E1.
  - intros s n ?. exists n. split; [done|lia].
Qed.

(** ** What the change feed announces

    [view k d]: everything the store says about message [k] apart from its
    admission.  [named k n t]: the last change of [k] is later than [n]. *)
Definition view (k : mid) (d : Db) :=
  (lookup k.1 k.2 d, cancelOrigins d !! k, steerProofs d !! k, acceptance d !! k,
   (nativeConflicts d !! k, bool_decide (k ∈ providerConflicts d), evidence d !! k, seals d !! k)).

Lemma view_lookup k d d' : view k d' = view k d → lookup k.1 k.2 d' = lookup k.1 k.2 d.
Proof. by intros [=]. Qed.
Lemma view_origin k d d' : view k d' = view k d → cancelOrigins d' !! k = cancelOrigins d !! k.
Proof. by intros [=]. Qed.

Definition named (k : mid) (n : Z) (t : Tables) : Prop :=
  ∃ m, revisions t !! k = Some m ∧ n < m.

Lemma named_kept k n t t' : named k n t → kept t t' → named k n t'.
Proof. intros (m & Hm & ?) Hk. destruct (kp_revision _ _ Hk _ _ Hm) as (m' & ? & ?). exists m'. split; [done|lia]. Qed.
Lemma named_le k n n' t : named k n t → n' ≤ n → named k n' t.
Proof. intros (m & ? & ?) ?. exists m. split; [done|lia]. Qed.

(** Every message whose view changed from [d] to [d'] was named in between. *)
Definition announced (d d' : Db) : Prop :=
  ∀ k, k.2 ≠ "" → view k d' ≠ view k d → named k (lastChange (tables d)) (tables d').

Lemma announced_refl d : announced d d.
Proof. by intros k _ []. Qed.
Lemma announced_trans d1 d2 d3 :
  announced d1 d2 → announced d2 d3 →
  kept (tables d1) (tables d2) → kept (tables d2) (tables d3) → announced d1 d3.
Proof.
  intros H1 H2 K1 K2 k Hk Hne.
  assert (view k d3 ≠ view k d2 ∨ view k d2 ≠ view k d1) as [H|H].
  { destruct (bool_decide (view k d3 = view k d2)) eqn:E; bool_facts; [right; congruence|by left]. }
  - eapply named_le; [by apply H2|apply K1].
  - eapply named_kept; [by apply H1|done].
Qed.
(** A transaction that changes one message and names it. *)
Lemma announced_one sid rid d d' :
  (∀ k, k ≠ (sid, rid) → view k d' = view k d) →
  (rid ≠ "" → named (sid, rid) (lastChange (tables d)) (tables d')) → announced d d'.
Proof.
  intros Hv Hn k Hk Hne. destruct (decide (k = (sid, rid))) as [->|]; [by apply Hn|by destruct Hne; apply Hv].
Qed.

Section Keeps.
Context (L : list Change) (d0 : Db).
Notation good := (reaches L d0).

(** ** The journal and the revision of a session *)
Lemma journal_good {A} (m : Tx Tables A) (P : A → Tables → Prop) (Q : A → Db → Prop) d :
  good d →
  (∀ L' t0, since L' t0 (tables d) → wp m (λ a t, since L' t0 t ∧ P a t) (tables d)) →
  (∀ a t, P a t → kept (tables d) t → good (d <| tables := t |>) →
     Q a (d <| tables := t |>)) →
  wp (onJournal m) Q d.
Proof.
  intros Hg Hm HQ. pose proof Hg as (Hwf & (new & Hl & Hk) & _).
  apply wp_onJournal. eapply wp_mono; [apply (Hm (L ++ new)), (since_refl _ _ Hl)|].
  intros a t [(new' & Hl' & Hk') HP].
  apply HQ; [done|done|]. apply (reaches_step L d0 d); [done| | |by apply evolves_same].
  - destruct Hwf. split; simpl; try done. intros s n H. destruct Hk', (wf_revision0 s n H). lia.
  - exists (new ++ new'). simpl. rewrite app_assoc. split; [done|by eapply kept_trans].
Qed.

Lemma change_good sid rid kind now (Q : () → Db → Prop) d :
  good d →
  (∀ t, kept (tables d) t → lastChange t = lastChange (tables d) + 1 →
     (rid ≠ "" → named (sid, rid) (lastChange (tables d)) t) → good (d <| tables := t |>) →
     Q tt (d <| tables := t |>)) →
  wp (change sid rid kind now) Q d.
Proof.
  intros Hg HQ. apply (journal_good _ (λ _ t, lastChange t = lastChange (tables d) + 1 ∧
    (rid ≠ "" → named (sid, rid) (lastChange (tables d)) t))); [done| |].
  - intros L' t0 H. apply ChangeTx_run. intros Hlt c. split; [by apply since_change|].
    subst c. unfold bumpRevision, str_empty. simpl. case_bool_decide as Hr; split; try done.
    intros _. eexists. split; [apply lookup_insert_eq|]. destruct (revisions _ !! _); lia.
  - intros [] t [? ?] ??. by apply HQ.
Qed.

Lemma bump_good sid now (Q : () → Db → Prop) d :
  good d →
  (∀ d', kept (tables d) (tables d') → (∀ k, view k d' = view k d) → good d' → Q tt d') →
  wp (bump sid now) Q d.
Proof.
  intros Hg HQ. unfold bump. wp_step. apply change_good; [done|]. intros t Hk Hlast _ Hg1.
  wp_step. apply HQ; [done|done|]. apply (reaches_step L d0 (d <| tables := t |>)); [done| |apply Hg1|].
  - assert (0 ≤ lastChange (tables d)) as H0.
    { destruct Hg as (_ & (new & [] & _) & _). lia. }
    destruct Hg as ([] & _). destruct Hg1 as ([] & _). split; simpl in *; try done.
    intros s n Hn. destruct (decide (s = sid)) as [->|].
    + rewrite lookup_insert_eq in Hn. injection Hn as <-.
      destruct (sessions d !! sid) as [m|] eqn:Em; simpl; [|lia].
      destruct (wf_revision0 sid m Em). lia.
    + rewrite lookup_insert_ne in Hn by done. eauto.
  - split; simpl; eauto using sameMessage_refl; try done; try lia. intros s n Hn.
    destruct (decide (s = sid)) as [->|].
    + rewrite lookup_insert_eq, Hn. simpl. eexists. split; [done|lia].
    + rewrite lookup_insert_ne by done. exists n. split; [done|lia].
Qed.

(** ** Messages *)
Lemma map_good f d :
  good d → (∀ e, e ∈ commands d → sameMessage e (f e)) → (∀ e, key (f e) = key e) →
  (∀ e, e ∈ commands d → clears (eState (f e)) = true → Payload (f e) = "") →
  (∀ e, e ∈ commands d → eState (f e) = Cancelled → is_Some (cancelOrigins d !! key e)) →
  good (d <| commands := map f (commands d) |>).
Proof.
  intros Hg Hsame Hkey Hclear Horigin. pose proof Hg as (Hwf & Hs & _).
  set (d' := d <| commands := map f (commands d) |>).
  assert (∀ s r, lookup s r d' = f <$> lookup s r d) as Hl.
  { intros s r. apply lookup_map; [apply Hwf|done]. }
  assert (map qSequence (map f (commands d)) = map qSequence (commands d)) as Hseq.
  { rewrite map_map. apply map_ext_in. intros e He%list_elem_of_In. by apply Hsame. }
  apply (reaches_step L d0 d); [done| |done|].
  - destruct Hwf. split; subst d'; simpl; try done.
    + by rewrite map_map, (map_ext _ key).
    + by rewrite Hseq.
    + intros e (e0 & -> & He)%list_elem_of_fmap. rewrite (sm_sequence _ _ (Hsame e0 He)). eauto.
    + intros e (e0 & -> & He)%list_elem_of_fmap. eauto.
    + intros k x Hk. rewrite Hl. by rewrite (wf_rejected0 _ _ Hk).
    + intros e (e0 & -> & He)%list_elem_of_fmap ?. rewrite Hkey. eauto.
    + intros k h a0 t0 Hk. destruct (wf_proof0 _ _ _ _ Hk) as (? & ? & ? & e & He & Hh).
      split_and!; try done. exists (f e). rewrite Hl, He. split; [done|].
      apply lookup_spec in He as [He _]. by rewrite (sm_hash _ _ (Hsame e He)).
  - split; simpl; eauto; try done; [|intros s n ?; exists n; split; [done|lia]].
    intros s r e He. exists (f e). rewrite Hl, He. split; [done|].
    apply lookup_spec in He as [He _]. by apply Hsame.
Qed.

Lemma update_good sid rid f d :
  good d → (∀ e, e ∈ commands d → key e = (sid, rid) → sameMessage e (f e)) → (∀ e, key (f e) = key e) →
  (∀ e, e ∈ commands d → clears (eState (f e)) = true → Payload (f e) = "") →
  (∀ e, e ∈ commands d → key e = (sid, rid) → eState (f e) = Cancelled →
     is_Some (cancelOrigins d !! (sid, rid))) →
  good (updateMessage sid rid f d) ∧
  (∀ s r, lookup s r (updateMessage sid rid f d) =
         if decide ((s, r) = (sid, rid)) then f <$> lookup s r d else lookup s r d) ∧
  ∀ k, k ≠ (sid, rid) → view k (updateMessage sid rid f d) = view k d.
Proof.
  intros Hg Hsame Hkey Hclear Horigin. pose proof Hg as ([] & _).
  assert (∀ e, isMessage sid rid e ↔ key e = (sid, rid)) as Hm.
  { intros e. unfold isMessage, key. split; [by intros [-> ->]|by intros [= -> ->]]. }
  assert (∀ s r, lookup s r (updateMessage sid rid f d) =
         if decide ((s, r) = (sid, rid)) then f <$> lookup s r d else lookup s r d) as Hl.
  { intros s r. unfold updateMessage. rewrite lookup_map; [|done|intros e; by case_bool_decide].
    destruct (lookup s r d) as [e|] eqn:E; simpl; [|by case_decide].
    apply lookup_spec in E as [He Hk].
    case_bool_decide as H1; destruct (decide ((s, r) = (sid, rid))) as [H2|H2]; try done.
    - apply Hm in H1. congruence.
    - destruct H1. apply Hm. congruence. }
  split_and!; [|exact Hl|].
  - apply map_good; [done|..].
    + intros e He. case_bool_decide as Hk; [|apply sameMessage_refl]. by apply Hsame, Hm.
    + intros e. by case_bool_decide.
    + intros e He. case_bool_decide; [by apply Hclear|by apply wf_cleared0].
    + intros e He. case_bool_decide as Hk; [|by apply wf_origin0].
      apply Hm in Hk. rewrite Hk. by apply Horigin.
  - intros [s r] Hk. unfold view. simpl. rewrite Hl, decide_False by done. done.
Qed.

Lemma insert_good e d (Q : () → Db → Prop) :
  good d → rejections d !! key e = None → eState e = Queued →
  (∀ d' n, good d' → tables d' = tables d → (∀ k, k ≠ key e → view k d' = view k d) →
     lookup (SessionID e) (RequestID e) d = None →
     lookup (SessionID e) (RequestID e) d' = Some (e <| qSequence := n |>) → Q tt d') →
  wp (exec (insertMessage e)) Q d.
Proof.
  intros Hg Hrej Hst HQ. pose proof Hg as (Hwf & Hs & _).
  wp_step. unfold insertMessage. destruct (lookup _ _ d) as [e0|] eqn:El; [done|].
  unfold nextKey. destruct (lastSeq d <? i64_max) eqn:Eb; [|done]. bool_facts.
  set (e' := e <| qSequence := lastSeq d + 1 |>). set (d' := field_set lastSeq _ _).
  assert (key e' = key e) as Hkey by done.
  assert (NoDup (map key (commands d'))) as Hnd.
  { subst d'. simpl. rewrite map_app. apply NoDup_app. split_and!; [apply Hwf| |apply NoDup_singleton].
    intros k Hk ->%list_elem_of_singleton. apply list_elem_of_fmap in Hk as (x & Hx & Hin).
    by apply (lookup_none _ _ _ _ El Hin). }
  assert (lookup (SessionID e) (RequestID e) d' = Some e') as Hnew.
  { apply lookup_unique; [done| |done]. subst d'. simpl. apply elem_of_app. right. by left. }
  assert (∀ s r x, lookup s r d = Some x → lookup s r d' = Some x) as Hold.
  { intros s r x Hx. apply lookup_spec in Hx as [Hx Hk]. apply lookup_unique; [done| |done].
    subst d'. simpl. apply elem_of_app. by left. }
  assert (∀ k, k ≠ key e → lookup k.1 k.2 d = None → lookup k.1 k.2 d' = None) as Hnone.
  { intros k Hk Hn. destruct (lookup k.1 k.2 d') as [x|] eqn:Ex; [|done].
    apply lookup_spec in Ex as [Hx Hkx]. subst d'. simpl in Hx.
    apply elem_of_app in Hx as [Hx|Hx%list_elem_of_singleton].
    - by destruct (lookup_none _ _ _ _ Hn Hx).
    - subst x. destruct Hk. by rewrite <- Hkey, Hkx, <- surjective_pairing. }
  assert (∀ k, k ≠ key e → view k d' = view k d) as Hview.
  { intros k Hk. unfold view.
    assert (lookup k.1 k.2 d' = lookup k.1 k.2 d) as ->; [|done].
    destruct (lookup k.1 k.2 d) as [x|] eqn:Ex; [by apply Hold|by apply Hnone]. }
  apply (HQ d' (lastSeq d + 1)); [|done..]. apply (reaches_step L d0 d); [done| |done|].
  - destruct Hwf. split; [exact Hnd|..]; try done.
    + subst d'. simpl. rewrite map_app. apply StronglySorted_app_2; [|done|by repeat constructor].
      intros x y Hx Hy. apply list_elem_of_singleton in Hy as ->. simpl.
      apply list_elem_of_fmap in Hx as (z & -> & Hz). destruct (wf_last0 z Hz). simpl. lia.
    + subst d'. simpl. intros x [Hx| ->%list_elem_of_singleton]%elem_of_app; simpl; [|lia].
      destruct (wf_last0 x Hx). lia.
    + subst d'. simpl. lia.
    + subst d'. simpl. intros x [Hx| ->%list_elem_of_singleton]%elem_of_app; [by apply wf_cleared0|].
      simpl. by rewrite Hst.
    + intros k x Hk. apply Hnone; [|by eapply wf_rejected0]. intros ->. subst d'. simpl in Hk. congruence.
    + subst d'. simpl. intros x [Hx| ->%list_elem_of_singleton]%elem_of_app; [by apply wf_origin0|].
      simpl. by rewrite Hst.
    + intros k h a t Hk. destruct (wf_proof0 _ _ _ _ Hk) as (? & ? & ? & x & Hx & ?).
      split_and!; try done. exists x. split; [by apply Hold|done].
  - split; eauto using sameMessage_refl; try done; subst d'; simpl; try lia.
    intros s n ?. exists n. split; [done|lia].
Qed.

(** ** The other tables *)
Lemma side_good d d' :
  good d → wf d' → tables d' = tables d → evolves d d' → good d'.
Proof.
  intros Hg Hwf Ht He. apply (reaches_step L d0 d); [done..| |done]. rewrite Ht. by destruct Hg as (_ & ? & _).
Qed.

Ltac side Hg :=
  eapply (side_good _ _ Hg); [|done|]; destruct Hg as ([] & _);
  [split; simpl; try done
  |split; simpl; eauto using sameMessage_refl, insertOrIgnore_keeps; try done; try lia;
   try (let n := fresh "n" in intros ? n ?; exists n; split; [done|lia])].

Lemma reject_good sid rid x d :
  good d → lookup sid rid d = None →
  good (d <| rejections := insertOrIgnore (sid, rid) x (rejections d) |>).
Proof.
  intros Hg Hn. side Hg. intros k y. rewrite insertOrIgnore_lookup.
  destruct (rejections d !! k) eqn:E; [intros _; by eapply wf_rejected0|].
  case_decide as Hk; [|done]. by subst k.
Qed.

Lemma origin_good k s d :
  good d → good (d <| cancelOrigins := insertOrIgnore k s (cancelOrigins d) |>).
Proof.
  intros Hg. side Hg. intros e He Hst. destruct (wf_origin0 e He Hst) as [o Ho].
  exists o. by apply insertOrIgnore_keeps.
Qed.

Lemma proof_good sid rid h a t ps d e :
  good d → insertRow (sid, rid) (h, a, t) (steerProofs d) = Some ps →
  lookup sid rid d = Some e → PayloadHash e = h → a ≠ "" → a ≠ rid → t ≠ "" →
  good (d <| steerProofs := ps |>).
Proof.
  intros Hg Hins He Hh Ha Har Ht. unfold insertRow in Hins.
  destruct (steerProofs d !! (sid, rid)) eqn:E; [done|]. injection Hins as <-. side Hg.
  - intros k h' a' t'. destruct (decide (k = (sid, rid))) as [->|Hk].
    + rewrite lookup_insert_eq. intros [= <- <- <-]. split_and!; try done. by exists e.
    + rewrite lookup_insert_ne by done. apply wf_proof0.
  - intros k x Hk. rewrite lookup_insert_ne; [done|congruence].
Qed.

Lemma accept_good k x acc d :
  good d → insertRow k x (acceptance d) = Some acc → good (d <| acceptance := acc |>).
Proof.
  intros Hg Hins. unfold insertRow in Hins.
  destruct (acceptance d !! k) eqn:E; [done|]. injection Hins as <-.
  assert (∀ k' y, acceptance d !! k' = Some y → <[k:=x]> (acceptance d) !! k' = Some y) as Hk.
  { intros k' y Hk'. rewrite lookup_insert_ne; [done|congruence]. }
  side Hg. intros k' y Hc. destruct (wf_conflict0 k' y Hc) as (? & z & Hz & ?).
  split; [done|]. exists z. split; [by apply Hk|done].
Qed.

Lemma native_good k x d :
  good d → good (d <| nativeConflicts := insertOrIgnore k x (nativeConflicts d) |>).
Proof.
  intros Hg. side Hg. intros k' y Hc. destruct (wf_conflict0 k' y Hc) as ([z Hz] & Hy).
  split; [exists z; by apply insertOrIgnore_keeps|done].
Qed.

Lemma conflictEvidence_good k x y d :
  good d → is_Some (nativeConflicts d !! k) → acceptance d !! k = Some y → y ≠ x →
  good (d <| conflictEvidence := {[(k, x)]} ∪ conflictEvidence d |>).
Proof.
  intros Hg Hn Ha Hne. side Hg. intros k' x' [Hin%elem_of_singleton|Hin]%elem_of_union.
  - injection Hin as -> ->. split; [done|by exists y].
  - by apply wf_conflict0.
Qed.

Lemma provider_good k d :
  good d → good (d <| providerConflicts := {[k]} ∪ providerConflicts d |>).
Proof. intros Hg. side Hg. set_solver. Qed.
Lemma evidence_good sid rid r d : good d → good (upsertEvidence sid rid r d).
Proof. intros Hg. side Hg. Qed.
Lemma admission_good a d : good d → good (d <| admissions := admissions d ++ [a] |>).
Proof. intros Hg. side Hg. Qed.
Lemma seal_good k s d :
  good d → seals d !! k = None → good (d <| seals := <[k := s]> (seals d) |>).
Proof.
  intros Hg Hn. side Hg. intros k' x Hk. rewrite lookup_insert_ne; [done|congruence].
Qed.
End Keeps.

(** ** The operations *)
Section Operations.
Context (sha256Hex : string → string) (keyJSON : Namespace → string → string)
        (decodePayload : string → option rawAdmission)
        (decodeOrigin : string → option (string * string))
        (encodeAdmission : rawAdmission → string).
Context (L : list Change) (d0 : Db).
Notation good := (reaches L d0).

Lemma saveTaskAdmission_good e d (Q : () → Db → Prop) :
  good d →
  (∀ d', good d' → tables d' = tables d → (∀ k, view k d' = view k d) → Q tt d') →
  wp (saveTaskAdmission decodePayload decodeOrigin encodeAdmission e) Q d.
Proof.
  intros Hg HQ. unfold saveTaskAdmission.
  destruct (decodePayload (Payload e)) as [raw|]; [|wp_step; by apply HQ].
  destruct (_ && _); [wp_step; by apply HQ|].
  destruct (if str_empty (Origin raw) then _ else _) as [[i s]|]; [|wp_step].
  wp_step. destruct (existsb _ _); [done|]. apply HQ; [by apply admission_good|done..].
Qed.

(** Where a transaction that began in [d] may end: in a good state, with every
    message it changed announced. *)
Definition fine (d d' : Db) : Prop := good d' ∧ announced d d'.

Lemma fine_refl d : good d → fine d d.
Proof. intros. split; [done|apply announced_refl]. Qed.
#[local] Hint Resolve fine_refl : core.

(** The body of a transaction whose result [r] means [P r d'']. *)
Definition ends (P : Result → Db → Prop) (d : Db) (x : bool * Result) (d' : Db) : Prop :=
  let d'' := if x.1 then d' else d in fine d d'' ∧ P x.2 d''.

Lemma ends_spec (P : Result → Db → Prop) m fs d :
  good d → wp m (ends P d) d → (∀ e, P (failed e) d) →
  let '(r, d', _) := atomically failed m fs d in fine d d' ∧ P r d'.
Proof.
  intros Hg Hm Hf. apply (atomically_elim _ _ _ _ (λ r d', fine d d' ∧ P r d')); [exact Hm|auto].
Qed.

Lemma atomically_fine {R} (failed : Err → R) (m : Tx Db (bool * R)) fs d :
  good d → wp m (λ x d', x.1 = true → fine d d') d → fine d (atomically failed m fs d).1.2.
Proof.
  intros Hg Hm. pose proof (atomically_elim failed m fs d (λ _ d', fine d d')) as H.
  destruct (atomically failed m fs d) as [[r d'] fs']. apply H; [|auto].
  eapply wp_mono; [exact Hm|]. intros [[] x] d'' Hd; simpl in *; auto.
Qed.

(** *** Admission *)

(** What an [Enqueue] that returns [r] did to the store. *)
Definition enqueued (e : Entry) (d : Db) (r : Result) (d' : Db) : Prop :=
  (r.1.2 = false ∧ d' = d) ∨
  (∃ e', r = (Some e', true, None) ∧
     lookup (SessionID e) (RequestID e) d = None ∧ rejections d !! key e = None ∧
     lookup (SessionID e) (RequestID e) d' = Some e' ∧
     eState e' = Queued ∧ Payload e' = Payload e ∧ PayloadHash e' = hashOf sha256Hex e ∧
     ∀ k, k ≠ key e → lookup k.1 k.2 d' = lookup k.1 k.2 d).

Lemma insertNew_ends api e now d1 d :
  good d1 → good d → (∀ k, view k d = view k d1) → kept (tables d1) (tables d) →
  rejections d1 !! key e = None → rejections d !! key e = None →
  wp (insertNew sha256Hex decodePayload decodeOrigin encodeAdmission api e now)
     (ends (enqueued e d1) d1) d.
Proof.
  intros Hg1 Hg Hv Hk Hr1 Hr. unfold insertNew. wp_step. eapply insert_good; [done|done|done|].
  intros d2 n Hg2 Ht2 Hv2 Hn Hnew. simpl in Hn, Hnew, Hv2. wp_step. apply (change_good L d0); [done|].
  intros t Hk3 _ Hnam Hg3. simpl in Hnam. wp_step. apply saveTaskAdmission_good; [done|].
  intros d4 Hg4 Ht4 Hv4. wp_step. apply (bump_good L d0); [done|]. intros d5 Hk5 Hv5 Hg5.
  wp_step. unfold Get. wp_step.
  destruct (negb _); unfold noCommit; wp_step; [split; [auto|by left]|].
  rewrite Ht4 in Hk5. rewrite Ht2 in *.
  assert (∀ k, view k d5 = view k d2) as H52 by (intros k; rewrite Hv5, Hv4; done).
  split; [split; [done|]|right]; simpl.
  - apply (announced_one (SessionID e) (RequestID e)).
    + intros k Hne. rewrite H52, Hv2, Hv by done. done.
    + intros Hq. eapply named_kept; [|exact Hk5]. eapply named_le; [by apply Hnam|apply Hk].
  - pose proof (view_lookup (key e) _ _ (H52 (key e))) as Hl. simpl in Hl. rewrite Hl, Hnew.
    eexists. split; [done|]. pose proof (view_lookup (key e) _ _ (Hv (key e))) as Hl1. simpl in Hl1.
    rewrite <- Hl1. split_and!; try done. intros k Hne.
    rewrite (view_lookup k _ _ (H52 k)), (view_lookup k _ _ (Hv2 k Hne)). apply (view_lookup k _ _ (Hv k)).
Qed.

Lemma admitNew_ends api e now d1 d :
  good d1 → good d → (∀ k, view k d = view k d1) → kept (tables d1) (tables d) →
  rejections d = rejections d1 →
  wp (admitNew sha256Hex decodePayload decodeOrigin encodeAdmission api e now)
     (ends (enqueued e d1) d1) d.
Proof.
  intros Hg1 Hg Hv Hk Hr. unfold admitNew, noCommit, Get. wp_step. wp_step.
  destruct (rejections d !! (SessionID e, RequestID e)) as [[reason z]|] eqn:E.
  { wp_step. split; [auto|by left]. }
  wp_step. wp_step. destruct (lookup _ _ d) as [prev|] eqn:El.
  - destruct (_ || _); wp_step; (split; [auto|by left]).
  - apply insertNew_ends; try done. by rewrite <- Hr.
Qed.

Lemma Enqueue_spec api e now fs d :
  good d →
  let '(r, d', _) :=
    Enqueue sha256Hex keyJSON decodePayload decodeOrigin encodeAdmission api e now fs d in
  fine d d' ∧ enqueued e d r d'.
Proof.
  intros Hg. unfold Enqueue. destruct (_ && _); [split; [auto|by left]|].
  apply (ends_spec (enqueued e d)); [done| |by left].
  unfold enqueueBody. destruct api as [a|]; [|apply admitNew_ends; try done; apply kept_refl].
  destruct (negb _); [unfold noCommit; wp_step; split; [auto|by left]|]. wp_step.
  eapply (journal_good L d0 _ (λ _ _, True)); [done| |].
  { intros L' t0 H. eapply wp_mono; [by apply ClaimTx_since|]. by intros x t [? _]. }
  intros [original created] t _ Hk Hg1. destruct created; [by apply admitNew_ends|].
  wp_step. unfold Get, noCommit. wp_step. wp_step. split; [auto|by left].
Qed.

Lemma Reject_fine sid rid reason now fs d :
  good d → fine d (Reject sid rid reason now fs d).1.2.
Proof.
  intros Hg. unfold Reject. destruct (_ || _); [auto|]. apply atomically_fine; [done|].
  unfold Get. wp_step. wp_step. destruct (lookup sid rid d) eqn:El; [by wp_step|].
  repeat wp_step. intros _. split; [by apply reject_good|]. by intros k _ [].
Qed.

Lemma Touch_fine sid now fs d :
  good d → fine d (atomically Some (Touch sid now;; mret (true, None)) fs d).1.2.
Proof.
  intros Hg. apply atomically_fine; [done|]. unfold Touch. wp_step. wp_step.
  apply (bump_good L d0); [done|]. intros d' _ Hv Hd'. repeat wp_step. intros _.
  split; [done|]. intros k _ []. apply Hv.
Qed.

(** *** Transitions *)
Lemma moved_same to m a t now e : sameMessage e (moved to m a t now e).
Proof. split; try done. simpl. destruct (clears to); auto. Qed.

(** What a [Transition] that returns [r] did. *)
Definition transitioned (sid rid : string) (from : list State) (to : State) (m a t : string) (now : Z)
    (d : Db) (r : Result) (d' : Db) : Prop :=
  (r.1.2 = false ∧ d' = d) ∨
  (∃ e, lookup sid rid d = Some e ∧ eState e ∈ from ∧
     r = (Some (moved to m a t now e), true, None) ∧
     (∀ s q, lookup s q d' = if decide ((s, q) = (sid, rid)) then moved to m a t now <$> lookup s q d
                             else lookup s q d)).

Lemma recordOrigin_good sid rid to e d (Q : () → Db → Prop) :
  good d →
  (∀ d', good d' → tables d' = tables d → commands d' = commands d →
     (∀ k, k ≠ (sid, rid) → view k d' = view k d) →
     (to = Cancelled → is_Some (cancelOrigins d' !! (sid, rid))) → Q tt d') →
  wp (recordOrigin sid rid to e) Q d.
Proof.
  intros Hg HQ. unfold recordOrigin. case_bool_decide; wp_step; [|by apply HQ].
  apply HQ; [by apply origin_good|done|done| |].
  - intros k Hk. unfold view. simpl. rewrite insertOrIgnore_lookup, decide_False by done.
    by destruct (cancelOrigins d !! k).
  - intros _. simpl. rewrite insertOrIgnore_lookup, decide_True by done.
    by destruct (cancelOrigins d !! (sid, rid)).
Qed.

Lemma recordProof_good sid rid a t to strictACK e d (Q : () → Db → Prop) :
  good d → lookup sid rid d = Some e →
  (∀ d', good d' → tables d' = tables d → commands d' = commands d →
     (∀ k, k ≠ (sid, rid) → view k d' = view k d) → cancelOrigins d' = cancelOrigins d → Q tt d') →
  wp (recordProof sid rid a t to strictACK e) Q d.
Proof.
  intros Hg He HQ. unfold recordProof. destruct (_ && _); [|wp_step; by apply HQ].
  destruct (_ || _) eqn:Eo; [wp_step|]. bool_facts. wp_step.
  destruct (insertRow _ _ _) as [ps|] eqn:Ei; [|done].
  apply HQ; [by eapply proof_good|done|done| |done].
  intros k Hk. unfold view. simpl. unfold insertRow in Ei.
  destruct (steerProofs d !! (sid, rid)); [done|]. injection Ei as <-. by rewrite lookup_insert_ne.
Qed.

Lemma Transition_ends sid rid from to m a t strictACK now d :
  good d →
  wp (Transition sid rid from to m a t strictACK now) (ends (transitioned sid rid from to m a t now d) d) d.
Proof.
  intros Hg. unfold Transition, Get, noCommit. wp_step. wp_step.
  destruct (lookup sid rid d) as [e|] eqn:Ee; [|wp_step; split; [auto|by left]].
  destruct (negb _) eqn:Ef; [wp_step; split; [auto|by left]|]. bool_facts. wp_step.
  apply recordOrigin_good; [done|]. intros d1 Hg1 Ht1 Hc1 Hv1 Ho1. wp_step.
  apply recordProof_good; [done|unfold lookup in *; by rewrite Hc1|]. intros d2 Hg2 Ht2 Hc2 Hv2 Ho2.
  do 2 wp_step.
  destruct (update_good L d0 sid rid (moved to m a t now) d2) as (Hg3 & Hl3 & Hv3); try done.
  { intros; apply moved_same. }
  { intros x _. simpl. by destruct (clears to). }
  { intros x _ _. simpl. rewrite Ho2. apply Ho1. }
  wp_step. apply (bump_good L d0); [done|]. intros d4 Hk4 Hv4 Hg4. wp_step.
  apply (change_good L d0); [done|]. intros tb Hk5 _ Hnam Hg5. wp_step. wp_step. wp_step.
  assert (∀ s q, lookup s q (d4 <| tables := tb |>) =
    if decide ((s, q) = (sid, rid)) then moved to m a t now <$> lookup s q d else lookup s q d) as Hl.
  { intros s q. etrans; [apply (view_lookup (s, q) _ d4 eq_refl)|].
    etrans; [apply (view_lookup (s, q) _ _ (Hv4 (s, q)))|]. simpl. rewrite Hl3.
    unfold lookup. by rewrite Hc2, Hc1. }
  split; [split; [done|]|right].
  - apply (announced_one sid rid); simpl.
    + intros k Hne. etrans; [apply (Hv4 k)|]. by rewrite Hv3, Hv2, Hv1.
    + intros Hq. eapply named_le; [by apply Hnam|]. etrans; [|apply Hk4].
      simpl. by rewrite Ht2, Ht1.
  - exists e. split_and!; [done..| |exact Hl]. simpl. rewrite (Hl sid rid), decide_True, Ee by done. done.
Qed.

Lemma Transition_spec sid rid from to m a t strictACK now fs d :
  good d →
  let '(r, d', _) := atomically failed (Transition sid rid from to m a t strictACK now) fs d in
  fine d d' ∧ transitioned sid rid from to m a t now d r d'.
Proof. intros Hg. apply ends_spec; [done|by apply Transition_ends|by left]. Qed.

(** *** Restart *)
Definition recovered (now : Z) (e : Entry) : Entry :=
  if interrupted e
  then e <| eState := Uncertain |> <| Message := restartMessage |> <| UpdatedAt := now |>
  else e.

Lemma announce_good ids now d (Q : () → Db → Prop) :
  good d →
  (∀ d', good d' → kept (tables d) (tables d') → (∀ k, view k d' = view k d) →
     (∀ k, k ∈ ids → k.2 ≠ "" → named k (lastChange (tables d)) (tables d')) → Q tt d') →
  wp (announce ids now) Q d.
Proof.
  revert d. induction ids as [|[s q] ids IH]; intros d Hg HQ; simpl.
  { wp_step. apply HQ; [done|apply kept_refl|done|]. intros k H. by apply elem_of_nil in H. }
  wp_step. apply (change_good L d0); [done|]. intros t Hk1 _ Hn1 Hg1. wp_step.
  apply (bump_good L d0); [done|]. intros d2 Hk2 Hv2 Hg2. simpl in Hk2. apply IH; [done|].
  intros d3 Hg3 Hk3 Hv3 Hn3. apply HQ; [done|by do 2 (eapply kept_trans; [done|])| |].
  - intros k. by rewrite Hv3, Hv2.
  - intros k [->|Hk]%elem_of_cons Hq.
    + eapply named_kept; [|done]. eapply named_kept; [|done]. by apply Hn1.
    + eapply named_le; [by apply Hn3|]. etrans; [apply Hk1|apply Hk2].
Qed.

Lemma recovered_same now e : sameMessage e (recovered now e).
Proof. unfold recovered. destruct (interrupted e); [|apply sameMessage_refl]. split; auto. Qed.

Lemma Recover_spec now fs d :
  good d →
  let '(r, d', _) := atomically Some (Recover now) fs d in
  fine d d' ∧ (r ≠ None ∧ d' = d ∨
               r = None ∧ ∀ s q, lookup s q d' = recovered now <$> lookup s q d).
Proof.
  intros Hg.
  apply (atomically_elim _ _ _ _ (λ r d', fine d d' ∧ (r ≠ None ∧ d' = d ∨
     r = None ∧ ∀ s q, lookup s q d' = recovered now <$> lookup s q d))); [|intros; split; [auto|by left]].
  unfold Recover. do 4 wp_step.
  set (d1 := d <| commands := map (recovered now) (commands d) |>).
  assert (∀ s q, lookup s q d1 = recovered now <$> lookup s q d) as Hl1.
  { intros s q. apply (lookup_map s q d (recovered now)); [apply Hg|].
    intros e. unfold recovered. by destruct (interrupted e). }
  wp_step. apply announce_good.
  - apply (map_good L d0 (recovered now)); [done|intros; apply recovered_same|..].
    + intros e. apply recovered_same.
    + destruct Hg as ([] & _). intros e He. unfold recovered. destruct (interrupted e); auto; done.
    + destruct Hg as ([] & _). intros e He. unfold recovered. destruct (interrupted e); auto; done.
  - intros d2 Hg2 Hk2 Hv2 Hn2. wp_step. split; [split; [done|]|right; split; [done|]]; simpl.
    + intros k Hq Hne. apply Hn2; [|done]. rewrite Hv2 in Hne.
      destruct (lookup k.1 k.2 d) as [e|] eqn:Ee.
      * destruct (interrupted e) eqn:Ei.
        -- apply lookup_spec in Ee as [He Hke]. apply list_elem_of_fmap. exists e.
           rewrite (surjective_pairing k), <- Hke. split; [done|]. by apply list_elem_of_filter.
        -- destruct Hne. unfold view. pose proof (Hl1 k.1 k.2) as Hx. rewrite Ee in Hx. simpl in Hx.
           unfold recovered in Hx. rewrite Ei in Hx.
           change (map (λ e0, _) (commands d)) with (map (recovered now) (commands d)).
           fold d1. by rewrite Hx, Ee.
      * destruct Hne. unfold view. pose proof (Hl1 k.1 k.2) as Hx. rewrite Ee in Hx. simpl in Hx.
        change (map (λ e0, _) (commands d)) with (map (recovered now) (commands d)).
        fold d1. by rewrite Hx, Ee.
    + intros s q. pose proof (view_lookup (s, q) _ _ (Hv2 (s, q))) as Hx. simpl in Hx. rewrite Hx. apply Hl1.
Qed.

(** *** Cancellation *)
Definition cancelledAt (now : Z) (e : Entry) : Entry :=
  e <| eState := Cancelled |> <| UpdatedAt := now |> <| Payload := "" |>.

Definition cancelledBy (sid rid hash : string) (rev : option Z) (now : Z)
    (d : Db) (r : Result) (d' : Db) : Prop :=
  (r.1.2 = false ∧ d' = d) ∨
  (∃ e, lookup sid rid d = Some e ∧ mayCancel sid rid hash rev d e = true ∧
     r = (Some (cancelledAt now e), true, None) ∧
     (∀ s q, lookup s q d' = if decide ((s, q) = (sid, rid)) then cancelledAt now <$> lookup s q d
                             else lookup s q d)).

Lemma Cancel_ends sid rid hash rev outcomeKey now d :
  good d →
  wp (CancelWaitingAPI sid rid hash rev outcomeKey now) (ends (cancelledBy sid rid hash rev now d) d) d.
Proof.
  intros Hg. unfold CancelWaitingAPI, Get, noCommit. do 2 wp_step.
  assert (wp (e ← query (lookup sid rid); mret (false, (e, false, None)))
    (ends (cancelledBy sid rid hash rev now d) d) d)
    as Hno by (wp_step; wp_step; wp_step; split; [auto|by left]).
  destruct (lookup sid rid d) as [e|] eqn:Ee; [|by rewrite bool_decide_eq_true_2].
  destruct (mayCancel sid rid hash rev d e) eqn:Em; [|by rewrite bool_decide_eq_true_2].
  clear Hno. rewrite (bool_decide_eq_false_2 (1 = 0)) by done.
  fold (cancelledAt now). change (λ e0, cancelledAt now e0) with (cancelledAt now).
  do 2 wp_step.
  set (d1 := d <| cancelOrigins := insertOrIgnore (sid, rid) Queued (cancelOrigins d) |>).
  assert (is_Some (cancelOrigins d1 !! (sid, rid))) as Ho.
  { subst d1. simpl. rewrite insertOrIgnore_lookup, decide_True by done.
    by destruct (cancelOrigins d !! (sid, rid)). }
  assert (∀ k, k ≠ (sid, rid) → view k d1 = view k d) as Hv1.
  { intros k Hk. unfold view. subst d1. simpl. rewrite insertOrIgnore_lookup, decide_False by done.
    by destruct (cancelOrigins d !! k). }
  destruct (update_good L d0 sid rid (cancelledAt now) d1) as (Hg2 & Hl2 & Hv2); try done.
  { by apply origin_good. }
  { intros x _ _. split; auto. }
  set (d2 := field_set cancelOrigins _ _).
  change d2 with (updateMessage sid rid (cancelledAt now) d1). clear d2. wp_step.
  apply (change_good L d0); [done|]. intros t Hk3 _ Hn3 Hg3. wp_step.
  set (d3 := field_set tables t _) in *.
  assert (∀ d4, good d4 → (∀ k, view k d4 = view k d3) → kept (tables d3) (tables d4) →
    wp (bump sid now ≫= λ _, e ← query (lookup sid rid); mret (true, (e, true, None)))
      (ends (cancelledBy sid rid hash rev now d) d) d4) as Hfin.
  { intros d4 Hg4 Hv4 Hk4. wp_step. apply (bump_good L d0); [done|]. intros d5 Hk5 Hv5 Hg5.
    assert (∀ k, view k d5 = view k d3) as Hv by (intros k; by rewrite Hv5, Hv4).
    assert (∀ s q, lookup s q d5 = if decide ((s, q) = (sid, rid))
      then cancelledAt now <$> lookup s q d else lookup s q d) as Hl.
    { intros s q. etrans; [apply (view_lookup (s, q) _ _ (Hv (s, q)))|]. apply Hl2. }
    do 3 wp_step. split; [split; [done|]|right].
    - apply (announced_one sid rid); simpl.
      + intros k Hne. rewrite Hv. etrans; [apply (Hv2 k Hne)|by apply Hv1].
      + intros Hq. eapply named_kept; [|exact Hk5]. eapply named_kept; [|exact Hk4]. by apply Hn3.
    - exists e. split_and!; try done. simpl. by rewrite (Hl sid rid), decide_True, Ee. }
  destruct (str_empty outcomeKey).
  - wp_step. apply Hfin; [done|done|apply kept_refl].
  - eapply (journal_good L d0 _ (λ _ _, True)); [done| |].
    { intros L' t0 H. eapply wp_mono; [by apply SaveOutcomeTx_since|]. by intros []. }
    intros [] t' _ Hk4 Hg4. by apply Hfin.
Qed.

Lemma CancelWaiting_spec sid rid hash rev outcomeKey now fs d :
  good d →
  let '(r, d', _) := atomically failed (CancelWaitingAPI sid rid hash rev outcomeKey now) fs d in
  fine d d' ∧ cancelledBy sid rid hash rev now d r d'.
Proof. intros Hg. apply ends_spec; [done|by apply Cancel_ends|by left]. Qed.

(** *** Evidence *)

(** The last step of most operations: the change that names the message. *)
Lemma change_fine {R} sid rid kind now (r : R) d d1 :
  good d → good d1 → tables d1 = tables d → (∀ k, k ≠ (sid, rid) → view k d1 = view k d) →
  wp (change sid rid kind now;; mret (true, r)) (λ x d', x.1 = true → fine d d') d1.
Proof.
  intros Hg Hg1 Ht Hv. wp_step. apply (change_good L d0); [done|]. intros t Hk _ Hn Hg2.
  wp_step. intros _. split; [done|]. apply (announced_one sid rid); [|by rewrite <- Ht].
  intros k Hne. etrans; [|by apply Hv]. done.
Qed.

Lemma RecordNativeAcceptance_fine sid rid thread turn now fs d :
  good d → fine d (RecordNativeAcceptance sid rid thread turn now fs d).1.2.
Proof.
  intros Hg. unfold RecordNativeAcceptance. destruct (_ || _ || _ || _); [auto|].
  apply atomically_fine; [done|]. do 2 wp_step.
  destruct (acceptance d !! (sid, rid)) as [[ot ou]|] eqn:Ea.
  - destruct (_ && _) eqn:Eq; [wp_step; auto|]. do 4 wp_step.
    set (d1 := field_set nativeConflicts _ _).
    assert (good d1) as Hg1 by by apply native_good.
    set (d2 := field_set conflictEvidence _ _).
    assert (good d2) as Hg2.
    { apply (conflictEvidence_good L d0 (sid, rid) (thread, turn) (ot, ou) d1); [done| |done|].
      - subst d1. simpl. rewrite insertOrIgnore_lookup, decide_True by done.
        by destruct (nativeConflicts d !! (sid, rid)).
      - intros [= -> ->]. by rewrite !bool_decide_eq_true_2 in Eq by done. }
    destruct (bool_decide ((sid, rid, (thread, turn)) ∈ conflictEvidence d1)) eqn:Ec.
    + (* known already, with its conflict *)
      rewrite bool_decide_eq_true_2 by done. repeat wp_step. intros _. split; [done|].
      intros k _ []. destruct Hg as ([] & _). bool_facts.
      destruct (wf_conflict0 _ _ Ec) as [[x Hx] _]. unfold view. subst d2 d1. simpl.
      rewrite insertOrIgnore_lookup. destruct (decide (k = (sid, rid))) as [->|].
      * by rewrite Hx.
      * by destruct (nativeConflicts d !! k).
    + rewrite bool_decide_eq_false_2 by done. apply change_fine; [done|done|done|].
      intros k Hk. unfold view. subst d2 d1. simpl. rewrite insertOrIgnore_lookup, decide_False by done.
      by destruct (nativeConflicts d !! k).
  - do 2 wp_step. destruct (insertRow _ _ _) as [acc|] eqn:Ei; [|done].
    apply change_fine; [done|by eapply accept_good|done|].
    intros k Hk. unfold view. simpl. unfold insertRow in Ei. rewrite Ea in Ei. injection Ei as <-.
    by rewrite lookup_insert_ne.
Qed.

Lemma RecordProviderEvidence_fine sid rid r now fs d :
  good d → fine d (RecordProviderEvidence sid rid r now fs d).1.2.
Proof.
  intros Hg. unfold RecordProviderEvidence. destruct (_ || _ || _ || _); [auto|].
  apply atomically_fine; [done|]. do 2 wp_step. cbv zeta.
  set (m := exec_ (upsertEvidence sid rid r) ≫= _).
  assert (wp m (λ (x : bool * option Err) d', x.1 = true → fine d d') d) as Hm.
  { subst m. do 2 wp_step. apply change_fine; [done|by apply evidence_good|done|].
    intros k Hk. unfold view, upsertEvidence. simpl. by rewrite lookup_insert_ne. }
  destruct (evidence d !! (sid, rid)) as [old|]; [|done].
  destruct (contradicts old r); [|destruct (sameEvidence old r); [wp_step; auto|done]].
  do 2 wp_step. apply change_fine; [done|by apply provider_good|done|].
  intros k Hk. unfold view. simpl. repeat f_equal. apply bool_decide_ext. set_solver.
Qed.

Lemma SealTask_fine sid rid s now fs d :
  good d → fine d (SealTask sha256Hex sid rid s now fs d).1.2.
Proof.
  intros Hg. unfold SealTask. destruct (negb _); [auto|].
  apply atomically_fine; [done|]. unfold NativeConflict. do 2 wp_step.
  destruct (conflicted sid rid d); [by wp_step|]. do 2 wp_step.
  destruct (seals d !! (sid, rid)) as [st|] eqn:Es.
  - destruct (_ || _); wp_step; auto.
  - do 2 wp_step. apply change_fine; [done|by apply seal_good|done|].
    intros k Hk. unfold view. simpl. by rewrite lookup_insert_ne.
Qed.

(** *** The journal's own transactions *)
Lemma journalOp_fine {A} (m : Tx Tables A) fs d :
  (∀ L' t0 t, since L' t0 t → wp m (λ _ t', since L' t0 t') t) →
  good d → fine d (atomically Some (onJournal m;; mret (true, None)) fs d).1.2.
Proof.
  intros Hm Hg. apply atomically_fine; [done|]. wp_step.
  eapply (journal_good L d0 _ (λ _ _, True)); [done| |].
  - intros L' t0 H. eapply wp_mono; [by apply Hm|]. by intros.
  - intros a t _ _ Hg'. wp_step. intros _. split; [done|]. by intros k _ [].
Qed.
End Operations.

(** ** Histories

    Every operation that writes, each with the faults of its statements. *)
Section History.
Context (sha256Hex : string → string) (keyJSON : Namespace → string → string)
        (decodePayload : string → option rawAdmission)
        (decodeOrigin : string → option (string * string))
        (encodeAdmission : rawAdmission → string)
        (marksJSON : list Watermark → string) (rowsJSON : list SnapshotRow → string).

Inductive op :=
  | OEnqueue (api : option APIAdmission) (e : Entry) (now : Z)
  | OReject (sid rid reason : string) (now : Z)
  | OTouch (sid : string) (now : Z)
  | OTransition (sid rid : string) (from : list State) (to : State)
      (message activeRequestID turnID : string) (strictACK : bool) (now : Z)
  | ORecover (now : Z)
  | OCancel (sid rid hash : string) (expectedRevision : option Z) (outcomeKey : string) (now : Z)
  | OAccept (sid rid thread turn : string) (now : Z)
  | OEvidence (sid rid : string) (r : ProviderEvidence) (now : Z)
  | OSeal (sid rid : string) (s : TaskSeal) (now : Z)
  | OClaim (c : AuthorizedCommand) (r : IntentRecord) (now : Z)
  | OOutbox (key state : string) (now : Z)
  | OOutcome (key : string) (failure : option string) (now : Z)
  | OFreeze (scope : ReadScope) (f : Freeze) (rows : list SnapshotRow) (expected : Z)
  | OPrune (now : Z).

Definition journalOp {A} (m : Tx Tables A) (fs : list bool) (d : Db) : Db :=
  (atomically Some (onJournal m;; mret (true, None)) fs d).1.2.

Definition perform (o : op) (fs : list bool) (d : Db) : Db :=
  match o with
  | OEnqueue api e now =>
      (Enqueue sha256Hex keyJSON decodePayload decodeOrigin encodeAdmission api e now fs d).1.2
  | OReject sid rid reason now => (Reject sid rid reason now fs d).1.2
  | OTouch sid now => (atomically Some (Touch sid now;; mret (true, None)) fs d).1.2
  | OTransition sid rid from to m a t strictACK now =>
      (atomically failed (Transition sid rid from to m a t strictACK now) fs d).1.2
  | ORecover now => (atomically Some (Recover now) fs d).1.2
  | OCancel sid rid hash rev outcomeKey now =>
      (atomically failed (CancelWaitingAPI sid rid hash rev outcomeKey now) fs d).1.2
  | OAccept sid rid thread turn now => (RecordNativeAcceptance sid rid thread turn now fs d).1.2
  | OEvidence sid rid r now => (RecordProviderEvidence sid rid r now fs d).1.2
  | OSeal sid rid s now => (SealTask sha256Hex sid rid s now fs d).1.2
  | OClaim c r now => journalOp (ClaimTx keyJSON c r now) fs d
  | OOutbox key state now => journalOp (Outbox key state now) fs d
  | OOutcome key failure now => journalOp (SaveOutcomeTx key failure now) fs d
  | OFreeze scope f rows expected => journalOp (FreezeChecked marksJSON rowsJSON scope f rows expected) fs d
  | OPrune now => journalOp (Prune now) fs d
  end.

Definition run (l : list (op * list bool)) (d : Db) : Db := foldl (λ d x, perform x.1 x.2 d) d l.

Lemma perform_fine L d0 o fs d : reaches L d0 d → fine L d0 d (perform o fs d).
Proof.
  intros Hg. destruct o; simpl.
  - pose proof (Enqueue_spec sha256Hex keyJSON decodePayload decodeOrigin encodeAdmission L d0 api e now fs d Hg) as H.
    destruct (Enqueue _ _ _ _ _ _ _ _ _ _) as [[? ?] ?]. apply H.
  - by apply Reject_fine.
  - by apply Touch_fine.
  - pose proof (Transition_spec L d0 sid rid from to message activeRequestID turnID strictACK now fs d Hg) as H.
    destruct (atomically _ _ _ _) as [[? ?] ?]. apply H.
  - pose proof (Recover_spec L d0 now fs d Hg) as H.
    destruct (atomically _ _ _ _) as [[? ?] ?]. apply H.
  - pose proof (CancelWaiting_spec L d0 sid rid hash expectedRevision outcomeKey now fs d Hg) as H.
    destruct (atomically _ _ _ _) as [[? ?] ?]. apply H.
  - by apply RecordNativeAcceptance_fine.
  - by apply RecordProviderEvidence_fine.
  - by apply SealTask_fine.
  - apply journalOp_fine; [|done]. intros. eapply wp_mono; [by apply ClaimTx_since|]. by intros ? ? [? _].
  - apply journalOp_fine; [|done]. intros. by apply Outbox_since.
  - apply journalOp_fine; [|done]. intros. by apply SaveOutcomeTx_since.
  - apply journalOp_fine; [|done]. intros. by apply FreezeChecked_since.
  - apply journalOp_fine; [|done]. intros. by apply Prune_since.
Qed.

Lemma since_kept L t0 t : since L t0 t → kept t0 t.
Proof. by intros (new & _ & ?). Qed.

(** From any good point of a history: what happened after it. *)
Lemma run_from l d :
  wf d → (∃ L, logged L (tables d)) →
  evolves d (run l d) ∧ wf (run l d) ∧ (∃ L, logged L (tables (run l d))) ∧
  kept (tables d) (tables (run l d)) ∧ announced d (run l d).
Proof.
  unfold run. induction l as [|[o fs] l IH] using rev_ind; intros Hwf Hl.
  { split_and!; [apply forgets_nothing_refl|done|done|apply kept_refl|apply announced_refl]. }
  destruct (IH Hwf Hl) as (He & Hwf1 & [L1 Hl1] & Hk & Ha). rewrite foldl_app. simpl.
  set (d1 := foldl _ d l) in *. clearbody d1.
  destruct (perform_fine L1 d1 o fs d1) as ((Hwf2 & Hs2 & He2) & Ha2); [by apply reaches_refl|].
  pose proof (since_kept _ _ _ Hs2). split_and!.
  - by eapply evolves_trans.
  - done.
  - destruct Hs2 as (new & ? & _). by eexists.
  - by eapply kept_trans.
  - by eapply announced_trans.
Qed.

Lemma run_open l : wf (run l Open) ∧ ∃ L, logged L (tables (run l Open)).
Proof.
  destruct (run_from l Open) as (_ & ? & ? & _); [apply wf_open|exists []; apply logged_install|done].
Qed.
Lemma run_app l1 l2 d : run (l1 ++ l2) d = run l2 (run l1 d).
Proof. apply foldl_app. Qed.
End History.
