(* ===== verification/QueueProps.v ===== *)
(** * Theorems of the message queue store and its change feed *)
From S2P Require Import Prelude Orders Sql TaskJournal TaskFeed MessageQueue QueueStore.

Section Props.
Context (sha256Hex : string → string) (keyJSON : Namespace → string → string)
        (decodePayload : string → option rawAdmission)
        (decodeOrigin : string → option (string * string))
        (encodeAdmission : rawAdmission → string)
        (marksJSON : list Watermark → string) (rowsJSON : list SnapshotRow → string).
Notation run := (run sha256Hex keyJSON decodePayload decodeOrigin encodeAdmission marksJSON rowsJSON).
Notation Enqueue := (Enqueue sha256Hex keyJSON decodePayload decodeOrigin encodeAdmission).

(** After every history of operations, whatever statements and commits
    failed in it: a message has one row; a settled message keeps no payload; no
    message is both accepted and permanently rejected; every cancellation
    knows the state it cancelled; a strict steering proof names another request
    and belongs to the message it was recorded for; and no revision or sequence
    passes the largest 64-bit integer. *)
Theorem queue_invariant l :
  let d := run l Open in
  NoDup (map key (commands d)) ∧
  (∀ e, e ∈ commands d → eState e ∈ [Completed; Cancelled; Steered; Failed] → Payload e = "") ∧
  (∀ k, is_Some (rejections d !! k) → lookup k.1 k.2 d = None) ∧
  (∀ e, e ∈ commands d → eState e = Cancelled → is_Some (cancelOrigins d !! key e)) ∧
  (∀ k h a t, steerProofs d !! k = Some (h, a, t) →
     a ≠ "" ∧ a ≠ k.2 ∧ t ≠ "" ∧ ∃ e, lookup k.1 k.2 d = Some e ∧ PayloadHash e = h) ∧
  (∀ s n, sessions d !! s = Some n → 0 < n ≤ lastChange (tables d)) ∧
  lastChange (tables d) ≤ i64_max ∧ lastSeq d ≤ i64_max.
Proof.
  intros d.
  assert (wf d ∧ ∃ L, logged L (tables d)) as [[] [L []]] by apply run_open.
  split_and!; try done; [| |lia].
  - intros e He Hs. apply wf_cleared; [done|]. by apply bool_decide_eq_true_2.
  - intros k [x Hx]. eauto.
Qed.

(** ** Verdicts *)
Definition hashOk (e : Entry) : Prop := PayloadHash e = "" ∨ validHash (PayloadHash e) = true.

Lemma Enqueue_ordinary e now fs d :
  hashOk e → rejections d !! key e = None → ∀ prev, lookup (SessionID e) (RequestID e) d = Some prev →
  let '(r, d', _) := Enqueue None e now fs d in
  d' = d ∧ (r = failed SqlError ∨
    r = (Some prev, false, if bool_decide (PayloadHash prev = hashOf sha256Hex e)
                           then None else Some ErrConflict)).
Proof.
  intros Hh Hr prev Hp. unfold MessageQueue.Enqueue.
  assert (negb (str_empty (PayloadHash e)) && negb (validHash (PayloadHash e)) = false) as ->.
  { destruct Hh as [-> | ->]; [done|by rewrite andb_false_r]. }
  unfold atomically, enqueueBody, admitNew, Get, query, mbind, tx_bind.
  destruct (fault fs) as [[] fs1]; [by split; [|left]|].
  destruct (fault fs1) as [[] fs2]; [by split; [|left]|].
  unfold key in Hr. rewrite Hr.
  destruct (fault fs2) as [[] fs3]; [by split; [|left]|]. rewrite Hp. simpl.
  case_bool_decide; simpl; (split; [done|by right]).
Qed.

Lemma Enqueue_rejected e now fs d reason z :
  hashOk e → rejections d !! key e = Some (reason, z) →
  let '(r, d', _) := Enqueue None e now fs d in
  d' = d ∧ (r = failed SqlError ∨ r = failed (ErrRejected reason)).
Proof.
  intros Hh Hr. unfold MessageQueue.Enqueue.
  assert (negb (str_empty (PayloadHash e)) && negb (validHash (PayloadHash e)) = false) as ->.
  { destruct Hh as [-> | ->]; [done|by rewrite andb_false_r]. }
  unfold atomically, enqueueBody, admitNew, query, mbind, tx_bind.
  destruct (fault fs) as [[] fs1]; [by split; [|left]|].
  destruct (fault fs1) as [[] fs2]; [by split; [|left]|].
  unfold key in Hr. rewrite Hr. by split; [|right].
Qed.

Lemma Reject_accepted sid rid reason now fs d e :
  lookup sid rid d = Some e → (Reject sid rid reason now fs d).1.2 = d.
Proof.
  intros He. unfold Reject. destruct (_ || _); [done|].
  unfold atomically, Get, query, mbind, tx_bind. destruct (fault fs) as [[] fs1]; [done|].
  destruct (fault fs1) as [[] fs2]; [done|]. by rewrite He.
Qed.

(** The first durable verdict on a message is the only one.  Once it was
    accepted, whatever happens later, sending it again changes nothing and
    returns the original row, or a conflict if its content differs (or the
    error of a failed statement), and rejecting it changes nothing; once it was
    rejected, sending it again never stores it. *)
Theorem verdict_is_final h later e now fs reason2 :
  let d := run h Open in
  let d' := run later d in
  hashOk e →
  (∀ first, lookup (SessionID e) (RequestID e) d = Some first →
     (let '(r, d'', _) := Enqueue None e now fs d' in
      d'' = d' ∧ (r = failed SqlError ∨ ∃ row, sameMessage first row ∧
        lookup (SessionID e) (RequestID e) d' = Some row ∧
        r = (Some row, false, if bool_decide (PayloadHash first = hashOf sha256Hex e)
                              then None else Some ErrConflict))) ∧
     (Reject (SessionID e) (RequestID e) reason2 now fs d').1.2 = d') ∧
  (∀ reason z, rejections d !! key e = Some (reason, z) →
     let '(r, d'', _) := Enqueue None e now fs d' in
     d'' = d' ∧ (r = failed SqlError ∨ r = failed (ErrRejected reason))).
Proof.
  intros d d' Hh.
  assert (wf d ∧ ∃ L, logged L (tables d)) as [Hwf HL] by apply run_open.
  destruct (run_from sha256Hex keyJSON decodePayload decodeOrigin encodeAdmission marksJSON rowsJSON
    later d Hwf HL) as (He & Hwf' & _). fold d' in He, Hwf'. split.
  - intros first Hf. destruct (ev_message _ _ He _ _ _ Hf) as (row & Hrow & Hsame). split.
    + assert (rejections d' !! key e = None) as Hr.
      { destruct (rejections d' !! key e) as [x|] eqn:Ex; [|done].
        pose proof (wf_rejected _ Hwf' _ _ Ex) as Hn. simpl in Hn. congruence. }
      pose proof (Enqueue_ordinary e now fs d' Hh Hr row Hrow) as H.
      destruct (Enqueue None e now fs d') as [[r d''] fs']. destruct H as [-> H]. split; [done|].
      destruct H as [->|H]; [by left|right]. exists row. rewrite <- (sm_hash _ _ Hsame). done.
    + by eapply Reject_accepted.
  - intros reason z Hr. apply (Enqueue_rejected _ _ _ _ reason z); [done|]. by apply (ev_rejected _ _ He).
Qed.

(** ** Commands with a key *)
Definition commandKey (a : APIAdmission) : string :=
  keyJSON (cNamespace (Command a)) (IdempotencyKey (Command a)).

(** What a repeated command is told. *)
Definition answer (first : IntentRecord) (a : APIAdmission) (d : Db) : Result :=
  if negb (bool_decide (Hash first = IntentHash (Command a))) then failed idempotencyConflict
  else if Expired first then failed keyExpired
  else (lookup (iSession first) (iRequest first) d, false, None).

Lemma intentOf_kept k t t' r :
  intentOf k t = Some r → kept t t' → ∃ r', intentOf k t' = Some r' ∧ same_claim r r'.
Proof.
  unfold intentOf. intros ([i x] & Hf & ->)%fmap_Some Hk. simpl.
  apply list_find_Some in Hf as (Hi & Hkey & Hbefore).
  destruct (kp_claim _ _ Hk _ _ Hi) as (r' & Hr' & Hs). exists r'. split; [|done].
  assert (list_find (λ r, Key r = k) (intents t') = Some (i, r')) as ->; [|done].
  apply list_find_Some. split_and!; [done| |].
  - by destruct Hs as [-> | ->].
  - intros j y Hy Hlt. destruct (lookup_lt_is_Some_2 (intents t) j) as [z Hz].
    { apply lookup_lt_Some in Hi. lia. }
    destruct (kp_claim _ _ Hk _ _ Hz) as (y' & Hy' & Hs'). assert (y' = y) as -> by congruence.
    specialize (Hbefore j z Hz Hlt). by destruct Hs' as [-> | ->].
Qed.

(** C15: A command takes effect once under its key, for ever: after the key was
    claimed, whatever happens later and however the record was pruned, a
    command under the same key changes nothing; without failures it is told
    the row of the first, or that its intent differs, or that the key expired. *)
Theorem command_once h later a e now fs first :
  let d := run h Open in
  let d' := run later d in
  hashOk e → canBegin a = true →
  intentOf (commandKey a) (tables d) = Some first →
  ∃ row, intentOf (commandKey a) (tables d') = Some row ∧ same_claim first row ∧
  let '(r, d'', _) := Enqueue (Some a) e now fs d' in
  d'' = d' ∧ (r = answer row a d' ∨ r = failed SqlError).
Proof.
  intros d d' Hh Hb Hf.
  assert (wf d ∧ ∃ L, logged L (tables d)) as [Hwf HL] by apply run_open.
  destruct (run_from sha256Hex keyJSON decodePayload decodeOrigin encodeAdmission marksJSON rowsJSON
    later d Hwf HL) as (_ & _ & _ & Hk & _). fold d' in Hk.
  destruct (intentOf_kept _ _ _ _ Hf Hk) as (row & Hrow & Hs). exists row. split; [done|]. split; [done|].
  unfold MessageQueue.Enqueue.
  assert (negb (str_empty (PayloadHash e)) && negb (validHash (PayloadHash e)) = false) as ->.
  { destruct Hh as [-> | ->]; [done|by rewrite andb_false_r]. }
  unfold atomically, enqueueBody, onJournal, ClaimTx, answer, Get, query, noCommit, mbind, tx_bind.
  rewrite Hb. simpl. change (keyJSON _ _) with (commandKey a).
  destruct (fault fs) as [[] fs1]; [by split; [|right]|].
  destruct (fault fs1) as [[] fs2]; [by split; [|right]|]. rewrite Hrow.
  destruct (negb _); [by split; [|left]|]. destruct (Expired row); [by split; [|left]|]. simpl.
  destruct (fault fs2) as [[] fs3]; [by split; [|right]|]. by split; [|left].
Qed.

(** ** The change feed *)

Lemma named_in L new n t k :
  logged (L ++ new) t → Z.of_nat (length L) = n → named k n t →
  ∃ c, c ∈ new ∧ cSession c = k.1 ∧ cRequest c = k.2.
Proof.
  intros Hl Hn (m & Hm & Hlt). destruct k as [s q]. rewrite (lg_revision _ _ Hl) in Hm.
  destruct (str_empty q); [done|]. unfold lastOf in Hm. apply fmap_Some in Hm as (c & Hc & ->).
  apply last_Some_elem_of, list_elem_of_filter in Hc as [[H1 H2] Hc].
  apply elem_of_app in Hc as [Hc|Hc]; [|by exists c]. exfalso.
  apply list_elem_of_lookup in Hc as [i Hi].
  assert ((L ++ new) !! i = Some c) as Hi' by by apply lookup_app_l_Some.
  rewrite (numbered_lookup _ _ _ _ (lg_numbered _ _ Hl) Hi') in Hlt.
  apply lookup_lt_Some in Hi. lia.
Qed.

Lemma feed_complete h later k limit :
  let d := run h Open in
  let d' := run later d in
  let cursor := watermark (tables d) in
  k.2 ≠ "" → view k d' ≠ view k d → lastChange (tables d') - cursor ≤ limit →
  (Changes cursor limit [] (tables d')).2 = inr cursorExpired ∨
  ∃ rows, (Changes cursor limit [] (tables d')).2 = inl ((rows, floor (tables d')), tables d') ∧
    map Sequence rows = seqZ (cursor + 1) (lastChange (tables d') - cursor) ∧
    ∃ c, c ∈ rows ∧ cSession c = k.1 ∧ cRequest c = k.2.
Proof.
  intros d d' cursor Hk Hv Hlim.
  assert (wf d ∧ ∃ L, logged L (tables d)) as [Hwf [L HL]] by apply run_open.
  pose proof (watermark_log L _ HL) as Hc. fold cursor in Hc.
  assert (reaches L d d') as (_ & (new & HL' & Hkept) & _).
  { clear Hv Hlim. subst d'. clearbody d. revert Hwf HL. clear Hc cursor. intros.
    assert (∀ l x, reaches L d x → reaches L d (run l x)) as H; [|apply H, reaches_refl; done].
    induction l as [|[o fs] l IH]; intros x Hx; [done|]. simpl. apply IH.
    by apply perform_fine. }
  pose proof (run_from sha256Hex keyJSON decodePayload decodeOrigin encodeAdmission marksJSON rowsJSON
    later d Hwf (ex_intro _ L HL)) as (_ & _ & _ & _ & Ha). fold d' in Ha.
  specialize (Ha k Hk Hv). rewrite Hc in *. clearbody cursor. subst cursor.
  assert (Z.of_nat (length L) = lastChange (tables d)) as Hlen by apply HL.
  unfold Changes, changesFloor, query, mbind, tx_bind. simpl.
  destruct (lastChange (tables d) <? floor (tables d')) eqn:Ef; [by left|right]. bool_facts. simpl.
  pose proof (changesRead_log _ _ (lastChange (tables d)) limit HL' Ef) as Hr.
  assert (lastChange (tables d) ≤ lastChange (tables d')) as Hle by apply Hkept.
  assert (drop (Z.to_nat (lastChange (tables d))) (L ++ new) = new) as Hd.
  { rewrite <- Hlen, Nat2Z.id. apply drop_app_length. }
  assert (take (Z.to_nat limit) new = new) as Ht.
  { apply take_ge. destruct (lg_numbered _ _ HL') as [_ Hn]. rewrite length_app in Hn. lia. }
  specialize (Hr ltac:(lia)). rewrite Hd, Ht in Hr. unfold changesRead, query in Hr. simpl in Hr.
  injection Hr as Hr. rewrite Hr. exists new. split; [done|]. split.
  - destruct (lg_numbered _ _ HL') as [Hs Hn].
    rewrite map_app, (proj1 (lg_numbered _ _ HL)) in Hs.
    rewrite length_app in Hn.
    replace (lastChange (tables d')) with
      (lastChange (tables d) + (lastChange (tables d') - lastChange (tables d))) in Hs by lia.
    rewrite seqZ_app in Hs by lia. apply app_inv_head in Hs. rewrite Hs.
    by replace (1 + lastChange (tables d)) with (lastChange (tables d) + 1) by lia.
  - by eapply named_in.
Qed.


(** ** Cancellation *)

Lemma setOutbox_last k s n t : lastChange (setOutbox k s n t) = lastChange t.
Proof. unfold setOutbox. by case_match. Qed.

(** The cancellation without failures, and when it is permitted. *)
Lemma cancel_result d sid rid hash rev outcomeKey now :
  lastChange (tables d) + 2 ≤ i64_max →
  (atomically failed (CancelWaitingAPI sid rid hash rev outcomeKey now) [] d).1.1.1.2 =
    from_option (mayCancel sid rid hash rev d) false (lookup sid rid d).
Proof.
  intros Hmax. unfold atomically, CancelWaitingAPI. simpl.
  destruct (lookup sid rid d) as [e|] eqn:Ee; [|by unfold mbind, tx_bind, exec; simpl; rewrite Ee].
  unfold mbind, tx_bind, exec. simpl. rewrite Ee.
  destruct (mayCancel sid rid hash rev d e) eqn:Em; [|done]. simpl.
  unfold change, bump, change, onJournal, ChangeTx, mbind, tx_bind, exec, nextKey. simpl.
  assert (lastChange (tables d) <? i64_max = true) as -> by lia.
  assert (lastChange (tables d) + 1 <? i64_max = true) as Hlt by lia.
  destruct (str_empty rid), (str_empty outcomeKey); simpl; unfold nextKey;
    rewrite ?setOutbox_last; simpl; by rewrite Hlt.
Qed.
Lemma mayCancel_spec sid rid hash rev d e :
  mayCancel sid rid hash rev d e = true ↔
  eState e = Queued ∧ PayloadHash e = hash ∧ (∀ r, rev = Some r → sessions d !! sid = Some r) ∧
  acceptance d !! (sid, rid) = None ∧ nativeConflicts d !! (sid, rid) = None ∧ (sid, rid) ∉ providerConflicts d.
Proof.
  unfold mayCancel. rewrite !andb_true_iff, !bool_decide_eq_true.
  assert (match rev with None => true | Some r => bool_decide (sessions d !! sid = Some r) end = true ↔
          ∀ r, rev = Some r → sessions d !! sid = Some r) as ->; [|tauto].
  destruct rev as [r|]; [rewrite bool_decide_eq_true|]; naive_solver.
Qed.

(** The cancellation of a waiting message is one compare-and-set: without
    failures it happens exactly when the message is queued under that content
    and revision and no agent accepted or contested it; otherwise, and after
    every failure, nothing changed.  A cancelled message has no payload left
    and can no longer be started. *)
Theorem cancel_is_cas h sid rid hash rev outcomeKey now fs :
  let d := run h Open in
  let cancel fs := atomically failed (CancelWaitingAPI sid rid hash rev outcomeKey now) fs d in
  (let '(r, d', _) := cancel fs in
   (r.1.2 = false ∧ d' = d) ∨
   (∃ e, r = (Some e, true, None) ∧ lookup sid rid d' = Some e ∧
      eState e = Cancelled ∧ Payload e = "" ∧
      (∀ k, k ≠ (sid, rid) → lookup k.1 k.2 d' = lookup k.1 k.2 d) ∧
      ∀ m a t now2 fs2,
        let '(r2, d2, _) :=
          atomically failed (Transition sid rid [Queued] Running m a t false now2) fs2 d' in
        d2 = d' ∧ r2.1.2 = false)) ∧
  (lastChange (tables d) + 2 ≤ i64_max →
   ((cancel []).1.1.1.2 = true ↔
    ∃ e, lookup sid rid d = Some e ∧ eState e = Queued ∧ PayloadHash e = hash ∧
      (∀ r, rev = Some r → sessions d !! sid = Some r) ∧ acceptance d !! (sid, rid) = None ∧
      nativeConflicts d !! (sid, rid) = None ∧ (sid, rid) ∉ providerConflicts d)).
Proof.
  intros d cancel.
  assert (wf d ∧ ∃ L, logged L (tables d)) as [Hwf [L HL]] by apply run_open.
  split.
  - pose proof (CancelWaiting_spec L d sid rid hash rev outcomeKey now fs d
      (reaches_refl L d Hwf HL)) as H. unfold cancel.
    destruct (atomically _ _ _ _) as [[r d'] fs']. destruct H as [_ [H|H]]; [by left|right].
    destruct H as (e & He & Hm & -> & Hl). exists (cancelledAt now e).
    assert (lookup sid rid d' = Some (cancelledAt now e)) as Hl'.
    { by rewrite Hl, decide_True, He. }
    split_and!; try done.
    + intros [s q] Hne. simpl. by rewrite Hl, decide_False.
    + intros m a t now2 fs2. unfold atomically, Transition, Get, query, mbind, tx_bind.
      destruct (fault fs2) as [[] fs3]; [done|]. destruct (fault fs3) as [[] fs4]; [done|].
      by rewrite Hl'.
  - intros Hmax. unfold cancel. rewrite cancel_result by done.
    destruct (lookup sid rid d) as [e|]; simpl; [rewrite mayCancel_spec|]; naive_solver.
Qed.

(** ** Acceptance by an agent *)
Lemma Exact_read sid rid fs d th tu :
  acceptance d !! (sid, rid) = Some (th, tu) → th ≠ "" → tu ≠ "" →
  let r := (ExactNativeAcceptance sid rid fs d).2 in
  r = inr SqlError ∨ r = if conflicted sid rid d then inr ErrNativeConflict
                         else inl (Some (th, tu), d).
Proof.
  intros Ha Ht Hu. unfold ExactNativeAcceptance, query, mbind, tx_bind. simpl.
  destruct (fault fs) as [[] fs1]; [by left|right]. rewrite Ha.
  destruct (conflicted sid rid d); [done|].
  unfold str_empty. by rewrite !bool_decide_eq_false_2.
Qed.

Lemma Record_accepted sid rid th tu now fs d :
  let '(r, d', _) := RecordNativeAcceptance sid rid th tu now fs d in
  r = None → acceptance d' !! (sid, rid) = Some (th, tu) ∧ th ≠ "" ∧ tu ≠ "".
Proof.
  unfold RecordNativeAcceptance. destruct (_ || _ || _ || _) eqn:Eg; [done|]. bool_facts.
  apply (atomically_elim _ _ _ _ (λ r d', r = None → acceptance d' !! (sid, rid) = Some (th, tu) ∧
    th ≠ "" ∧ tu ≠ "")); [|done].
  do 2 wp_step. destruct (acceptance d !! (sid, rid)) as [[ot ou]|] eqn:Ea.
  - destruct (_ && _) eqn:Eq; [wp_step; intros _; by bool_facts; subst|].
    repeat (wp_step; try destruct (bool_decide (_ = 0))); try done.
    apply wp_onJournal, ChangeTx_run. intros _. by repeat wp_step.
  - do 2 wp_step. unfold insertRow. rewrite Ea. wp_step.
    apply wp_onJournal, ChangeTx_run. intros _. wp_step. intros _. simpl.
    by rewrite lookup_insert_eq.
Qed.

Lemma Record_conflict sid rid th tu th' tu' now fs d :
  acceptance d !! (sid, rid) = Some (th, tu) → (th', tu') ≠ (th, tu) →
  let '(r, d', _) := RecordNativeAcceptance sid rid th' tu' now fs d in
  d' = d ∨ r = Some ErrNativeConflict ∧ is_Some (nativeConflicts d' !! (sid, rid)).
Proof.
  intros Ha Hne. unfold RecordNativeAcceptance. destruct (_ || _ || _ || _) eqn:Eg; [by left|].
  apply (atomically_elim _ _ _ _ (λ r d', d' = d ∨
    r = Some ErrNativeConflict ∧ is_Some (nativeConflicts d' !! (sid, rid)))); [|by left].
  do 2 wp_step. rewrite Ha. destruct (_ && _) eqn:Eq; [bool_facts; by subst|].
  assert (is_Some (insertOrIgnore (sid, rid) (th', tu') (nativeConflicts d) !! (sid, rid))) as Hin.
  { rewrite insertOrIgnore_lookup, decide_True by done. by destruct (nativeConflicts d !! (sid, rid)). }
  do 5 wp_step. destruct (bool_decide (_ = 0)); [repeat wp_step; by right|].
  apply wp_onJournal, ChangeTx_run. intros _. wp_step. by right.
Qed.

(** What an agent accepted is final: after an acceptance was recorded,
    whatever happens later, reading it gives that very thread and turn, or says
    that it is contested (or fails); another thread or turn is never recorded
    over it, but contests it for ever. *)
Theorem native_acceptance_final h sid rid th tu now fs later :
  let d := run h Open in
  let '(r, d1, _) := RecordNativeAcceptance sid rid th tu now fs d in
  r = None →
  let d2 := run later d1 in
  (∀ fs2, (ExactNativeAcceptance sid rid fs2 d2).2 ∈
     [inl (Some (th, tu), d2); inr ErrNativeConflict; inr SqlError]) ∧
  (∀ th' tu' now' fs', (th', tu') ≠ (th, tu) →
     let '(r', d3, _) := RecordNativeAcceptance sid rid th' tu' now' fs' d2 in
     d3 = d2 ∨ r' = Some ErrNativeConflict ∧
     ∀ later2 fs3, (ExactNativeAcceptance sid rid fs3 (run later2 d3)).2 ∈
       [inr ErrNativeConflict; inr SqlError]).
Proof.
  intros d. assert (wf d ∧ ∃ L, logged L (tables d)) as [Hwf [L HL]] by apply run_open.
  pose proof (Record_accepted sid rid th tu now fs d) as Hacc.
  pose proof (RecordNativeAcceptance_fine L d sid rid th tu now fs d (reaches_refl L d Hwf HL)) as Hg.
  destruct (RecordNativeAcceptance sid rid th tu now fs d) as [[r d1] fs1]. simpl in Hg.
  intros Hr. destruct (Hacc Hr) as (Ha1 & Ht & Hu).
  destruct Hg as ((Hwf1 & (new1 & HL1 & _) & _) & _). intros d2.
  destruct (run_from sha256Hex keyJSON decodePayload decodeOrigin encodeAdmission marksJSON rowsJSON
    later d1 Hwf1 (ex_intro _ _ HL1)) as (He2 & Hwf2 & [L2 HL2] & _). fold d2 in He2, Hwf2, HL2.
  pose proof (ev_accepted _ _ He2 _ _ Ha1) as Ha2. split.
  - intros fs2. destruct (Exact_read sid rid fs2 d2 th tu Ha2 Ht Hu) as [-> | ->]; [set_solver|].
    destruct (conflicted sid rid d2); set_solver.
  - intros th' tu' now' fs' Hne.
    pose proof (Record_conflict sid rid th tu th' tu' now' fs' d2 Ha2 Hne) as Hc.
    pose proof (RecordNativeAcceptance_fine L2 d2 sid rid th' tu' now' fs' d2
      (reaches_refl L2 d2 Hwf2 HL2)) as Hg.
    destruct (RecordNativeAcceptance sid rid th' tu' now' fs' d2) as [[r' d3] fs3]. simpl in Hg.
    destruct Hc as [->|[-> [x Hx]]]; [by left|right]. split; [done|]. intros later2 fs4.
    destruct Hg as ((Hwf3 & (new3 & HL3 & _) & He3) & _).
    destruct (run_from sha256Hex keyJSON decodePayload decodeOrigin encodeAdmission marksJSON rowsJSON
      later2 d3 Hwf3 (ex_intro _ _ HL3)) as (He4 & _).
    pose proof (ev_accepted _ _ He4 _ _ (ev_accepted _ _ He3 _ _ Ha2)) as Ha4.
    pose proof (ev_native _ _ He4 _ _ Hx) as Hx4.
    destruct (Exact_read sid rid fs4 _ th tu Ha4 Ht Hu) as [-> | ->]; [set_solver|].
    unfold conflicted. rewrite Hx4. set_solver.
Qed.
End Props.

(** ** Concrete stores *)

(** Stand-ins for the encoders: the hash of a text is the text, a key is the
    path and the key. *)
Definition plainKey (n : Namespace) (k : string) : string := nsPath n +:+ k.
Definition noAdmission (p : string) : option rawAdmission := None.
Definition noOrigin (o : string) : option (string * string) := None.
Definition anyAdmission (r : rawAdmission) : string := "".
Definition anyMarks (l : list Watermark) : string := "".
Definition anyRows (l : list SnapshotRow) : string := "".
Notation plainRun := (run id plainKey noAdmission noOrigin anyAdmission anyMarks anyRows).

Definition message (sid rid payload : string) : Entry :=
  mkEntry 0 sid rid Queued "hello" 0 [] payload "" "" "" "" 0 0.
Definition month : Z := 31 * day.

(** ** What two statements lose *)

(** [Changes] reads the floor and the rows in two statements.  Retention
    that commits between them drops changes the reader has not seen, and the
    reader is not told: it gets the later changes as if they were all there
    are, though asking again is refused as an expired cursor. *)
Theorem prune_between_reads_loses_changes :
  ∃ h : list (op * list bool),
    let d1 := plainRun h Open in
    let d2 := perform id plainKey noAdmission noOrigin anyAdmission anyMarks anyRows (OPrune month) [] d1 in
    (changesFloor 0 [] (tables d1)).2 = inl (0, tables d1) ∧
    (∃ c, c ∈ changes (tables d1) ∧ 0 < Sequence c ∧ cRequest c = "r1" ∧
       ∃ rows, (changesRead 0 10 [] (tables d2)).2 = inl (rows, tables d2) ∧
         rows ≠ [] ∧ c ∉ rows ∧ Forall (λ x, Sequence c < Sequence x) rows) ∧
    (Changes 0 10 [] (tables d2)).2 = inr cursorExpired.
Proof.
  exists [(OEnqueue None (message "s" "r1" "one") 0, []);
          (OEnqueue None (message "s" "r2" "two") month, [])].
  cbv zeta. split_and!; [vm_compute; reflexivity| |vm_compute; reflexivity].
  exists (mkChange 1 "s" "r1" "admission" 0).
  split_and!; [by apply (bool_decide_eq_true_1 _); vm_compute|done|done|].
  eexists. split; [vm_compute; reflexivity|]. split_and!; [done| |by repeat constructor].
  by apply (bool_decide_eq_false_1 _).
Qed.

(** The state of an outbox is part of what clients are shown, but no change
    announces it: a snapshot is accepted as unchanged under a watermark taken
    before the state moved, so that one with the earlier state is frozen. *)
Theorem outbox_is_silent d k s n state now scope f rows fs :
  outbox (tables d) !! k = Some (s, n) → state ≠ s →
  freezes (tables d) !! fID f = None →
  let d1 := journalOp (Outbox k state now) [] d in
  fst <$> outbox (tables d1) !! k ≠ fst <$> outbox (tables d) !! k ∧
  changes (tables d1) = changes (tables d) ∧ watermark (tables d1) = watermark (tables d) ∧
  ((FreezeChecked anyMarks anyRows scope f rows (watermark (tables d)) fs (tables d1)).2 = inr SqlError ∨
   ∃ t, (FreezeChecked anyMarks anyRows scope f rows (watermark (tables d)) fs (tables d1)).2 = inl (tt, t)).
Proof.
  intros Hk Hs Hf. unfold journalOp, atomically, onJournal, Outbox, exec_, exec, mbind, tx_bind. simpl.
  unfold setOutbox. rewrite Hk. simpl. rewrite lookup_insert_eq. split_and!; [naive_solver|done|done|].
  unfold FreezeChecked, JWatermark, query, exec, mbind, tx_bind. destruct (fault fs) as [[] fs1]; [by left|].
  set (t1 := field_set outbox _ _).
  change (watermark t1) with (watermark (tables d)). rewrite Z.eqb_refl. simpl.
  unfold insertFreeze, insertRow. simpl. rewrite Hf.
  destruct (fault fs1) as [[] fs2]; [by left|right]. by eexists.
Qed.

(** ** Witnesses *)
Definition accepted : list (op * list bool) := [(OEnqueue None (message "s" "r" "one") 10, [])].
Definition noisy : list (op * list bool) :=
  [(OTransition "s" "r" [Queued] Running "" "" "" false 20, [false; false; true]);
   (OTransition "s" "r" [Queued] Running "" "" "" false 30, []);
   (OAccept "s" "r" "thread" "turn" 40, []); (ORecover 50, []); (OPrune month, [])].

Definition firstRow : Entry :=
  (message "s" "r" "one") <| qSequence := 1 |> <| PayloadHash := "one" |> <| eCreatedAt := 10 |>
    <| UpdatedAt := 10 |>.

(** The same request with other content, after a failed start, a run and a
    restart. *)
Lemma verdict_is_final_witness :
  let d' := plainRun noisy (plainRun accepted Open) in
  lookup "s" "r" (plainRun accepted Open) = Some firstRow ∧
  (let '(r, d'', _) := Enqueue id plainKey noAdmission noOrigin anyAdmission None
     (message "s" "r" "two") 60 [] d' in
   d'' = d' ∧ (r = failed SqlError ∨ ∃ row, sameMessage firstRow row ∧
     lookup "s" "r" d' = Some row ∧
     r = (Some row, false, if bool_decide (PayloadHash firstRow = hashOf id (message "s" "r" "two"))
                           then None else Some ErrConflict))).
Proof.
  assert (lookup "s" "r" (plainRun accepted Open) = Some firstRow) as Hf by (vm_compute; reflexivity).
  split; [exact Hf|].
  pose proof (verdict_is_final id plainKey noAdmission noOrigin anyAdmission anyMarks anyRows
    accepted noisy (message "s" "r" "two") 60 [] "late" (or_introl eq_refl)) as [H _].
  destruct (H firstRow Hf) as [H1 _]. exact H1.
Defined.

Definition aCommand : AuthorizedCommand :=
  mkCommand (mkNamespace "a" "scope" 1 "ordinary" "create_dispatch" "") "key" "create_dispatch" "hash"
    "scope" 1 "ordinary".
Definition anAdmission : APIAdmission :=
  mkAPI aCommand (mkIntent "" "" "receipt" "task" "" "s" "r" "" 0 "" (Some "{}") 0) true true.
Definition claimed : list (op * list bool) :=
  [(OEnqueue (Some anAdmission) (message "s" "r" "one") 10, [])].
Definition firstClaim : IntentRecord :=
  mkIntent "ordinarykey" "hash" "receipt" "task" "" "s" "r" "scope" 1 "ordinary" (Some "{}") 10.

(** The same command after its record was resolved and pruned. *)
Lemma command_once_witness :
  let d' := plainRun [(OOutcome "ordinarykey" None 20, []); (OPrune (4 * month), [])]
              (plainRun claimed Open) in
  intentOf "ordinarykey" (tables (plainRun claimed Open)) = Some firstClaim ∧
  ∃ row, intentOf "ordinarykey" (tables d') = Some row ∧ same_claim firstClaim row ∧
  let '(r, d'', _) := Enqueue id plainKey noAdmission noOrigin anyAdmission (Some anAdmission)
    (message "s" "r" "one") 60 [] d' in
  d'' = d' ∧ (r = answer row anAdmission d' ∨ r = failed SqlError).
Proof.
  assert (intentOf "ordinarykey" (tables (plainRun claimed Open)) = Some firstClaim) as Hf
    by (vm_compute; reflexivity).
  split; [exact Hf|].
  pose proof (command_once id plainKey noAdmission noOrigin anyAdmission anyMarks anyRows claimed
    [(OOutcome "ordinarykey" None 20, []); (OPrune (4 * month), [])] anAdmission
    (message "s" "r" "one") 60 [] firstClaim (or_introl eq_refl) eq_refl) as H.
  exact (H Hf).
Defined.


(** A message that the desktop cancels while it waits. *)
Lemma cancel_is_cas_witness :
  let d := plainRun accepted Open in
  (let '(r, d', _) := atomically failed (CancelWaitingAPI "s" "r" "one" (Some 1) "" 70) [] d in
   (r.1.2 = false ∧ d' = d) ∨
   (∃ e, r = (Some e, true, None) ∧ lookup "s" "r" d' = Some e ∧
      eState e = Cancelled ∧ Payload e = "" ∧
      (∀ k, k ≠ ("s", "r") → lookup k.1 k.2 d' = lookup k.1 k.2 d) ∧
      ∀ m a t now2 fs2,
        let '(r2, d2, _) :=
          atomically failed (Transition "s" "r" [Queued] Running m a t false now2) fs2 d' in
        d2 = d' ∧ r2.1.2 = false)) ∧
  (atomically failed (CancelWaitingAPI "s" "r" "one" (Some 1) "" 70) [] d).1.1.1.2 = true.
Proof.
  pose proof (cancel_is_cas id plainKey noAdmission noOrigin anyAdmission anyMarks anyRows accepted
    "s" "r" "one" (Some 1) "" 70 []) as [H1 H2].
  split; [exact H1|].
  assert (lookup "s" "r" (plainRun accepted Open) = Some firstRow) as Hf by (vm_compute; reflexivity).
  apply H2; [vm_compute; discriminate|]. exists firstRow. rewrite Hf.
  split_and!; try (vm_compute; reflexivity).
  - intros r [= <-]. vm_compute. reflexivity.
  - apply (bool_decide_unpack _). vm_compute. reflexivity.
Defined.

(** A turn that a second turn contests. *)
Lemma native_acceptance_final_witness :
  let d1 := (RecordNativeAcceptance "s" "r" "thread" "turn" 20 [] (plainRun accepted Open)).1.2 in
  let d2 := plainRun (drop 3 noisy) d1 in
  let d3 := (RecordNativeAcceptance "s" "r" "thread" "other" 60 [] d2).1.2 in
  (ExactNativeAcceptance "s" "r" [] d2).2 = inl (Some ("thread", "turn"), d2) ∧
  (d3 = d2 ∨ Some ErrNativeConflict = Some ErrNativeConflict ∧
     ∀ later2 fs3, (ExactNativeAcceptance "s" "r" fs3 (plainRun later2 d3)).2 ∈
       [inr ErrNativeConflict; inr SqlError]).
Proof.
  cbv zeta. split; [vm_compute; reflexivity|].
  pose proof (native_acceptance_final id plainKey noAdmission noOrigin anyAdmission anyMarks anyRows
    accepted "s" "r" "thread" "turn" 20 [] (drop 3 noisy)) as H. cbv zeta in H.
  destruct (RecordNativeAcceptance "s" "r" "thread" "turn" 20 [] (plainRun accepted Open))
    as [[r d1] fs] eqn:E.
  assert (r = None) as Hr by (vm_compute in E; by injection E as <- _).
  destruct (H Hr) as [_ H2]. specialize (H2 "thread" "other" 60 [] ltac:(done)). cbn [fst snd].
  destruct (RecordNativeAcceptance "s" "r" "thread" "other" 60 [] (plainRun (drop 3 noisy) d1))
    as [[r' d3] fs']. cbn [fst snd].
  destruct H2 as [H2|[_ H2]]; [left; exact H2|right; split; [done|exact H2]].
Defined.

(** A command whose outbox becomes unknown. *)
Lemma outbox_is_silent_witness :
  let d := plainRun claimed Open in
  let d1 := journalOp (Outbox "ordinarykey" "unknown" 80) [] d in
  outbox (tables d) !! "ordinarykey" = Some ("prepared", 10) ∧
  (fst <$> outbox (tables d1) !! "ordinarykey" ≠ fst <$> outbox (tables d) !! "ordinarykey" ∧
   changes (tables d1) = changes (tables d) ∧ watermark (tables d1) = watermark (tables d) ∧
   ((FreezeChecked anyMarks anyRows (mkScope "a" "scope" "f" 1) (mkFreeze "id" 90 []) []
       (watermark (tables d)) [] (tables d1)).2 = inr SqlError ∨
    ∃ t, (FreezeChecked anyMarks anyRows (mkScope "a" "scope" "f" 1) (mkFreeze "id" 90 []) []
       (watermark (tables d)) [] (tables d1)).2 = inl (tt, t))).
Proof.
  assert (outbox (tables (plainRun claimed Open)) !! "ordinarykey" = Some ("prepared", 10)) as Ho
    by (vm_compute; reflexivity).
  split; [exact Ho|].
  apply (outbox_is_silent (plainRun claimed Open) "ordinarykey" "prepared" 10 "unknown" 80);
    [exact Ho|done|vm_compute; reflexivity].
Defined.
