(* ===== verification/QueueHost.v ===== *)
(** * The host of the message queue: [src/internal/core/message_queue.go]

    What a message goes through: the durable row of [messagequeue], the
    in-memory queue of its session, the worker that starts it, the agent that
    gets it, and the end of its turn; with the promotion of a waiting message
    into a running turn, cancellation, the closing of a session, crashes and
    restarts.  A world is the store and the processes that have it open: a
    second process that starts (and may go away) is part of the picture,
    because the store does not lock out another one.

    The sections that the code runs under [messageQueueMu] are one event each.
    The queue of a session is the abstract queue that [turn.go] refines
    ([TurnSpec]); the checks between starting and sending (target,
    configuration, scope) are the choice between [ERefuse] and [ESubmit].  What
    the agent did with an input is an argument: it consumed it, or may have, or
    says in its typed result that it did not. *)
From S2P Require Import Prelude Orders Session TurnQueue TurnSpec Sql TaskJournal TaskFeed MessageQueue QueueStore.

(** ** The queue of a session *)
#[export] Instance aqueue_eta : Eta aqueue := λ q,
  mkAq (a_open q) (a_wait q) (a_turn q) (a_holds q).

Definition openQueue : aqueue := mkAq true [] None 0.

Definition named_ (id : string) (t : queuedTurn) : bool := bool_decide (qid t = id).
Definition anyHeld (q : aqueue) : bool := existsb qheld (a_wait q).

(** [SubmitNamedWhenReady]. *)
Definition submitTo (id : string) (q : aqueue) : bool * aqueue :=
  if negb (a_open q) then (false, q)
  else if negb (str_empty id) &&
          (bool_decide (a_turn q = Some id) || existsb (named_ id) (a_wait q)) then (true, q)
  else if (length (a_wait q) <? mailboxSize)%nat
  then (true, q <| a_wait := a_wait q ++ [mkTurn id 0 false (Some 0%nat)] |>)
  else (false, q).

(** The worker takes the head. *)
Definition takeNext (q : aqueue) : option (string * aqueue) :=
  match a_wait q with
  | t :: rest =>
      if a_open q && bool_decide (a_turn q = None) && bool_decide (a_holds q = 0%nat) && negb (anyHeld q)
      then Some (qid t, q <| a_wait := rest |> <| a_turn := Some (qid t) |>)
      else None
  | [] => None
  end.

Definition endTurn (q : aqueue) : aqueue := if a_open q then q <| a_turn := None |> else q.

(** [ReserveWaiting], and [ReserveSteeringCandidate] when exclusive. *)
Definition reserve (exclusive : bool) (id : string) (q : aqueue) : option aqueue :=
  if exclusive && (anyHeld q || negb (bool_decide (a_holds q = 0%nat))) then None
  else
    match list_find (λ t, qid t = id) (a_wait q) with
    | Some (i, t) =>
        if qheld t then None else Some (q <| a_wait := <[i := t <| qheld := true |>]> (a_wait q) |>)
    | None => None
    end.

(** The closure a reservation gives back. *)
Definition finishReservation (id : string) (remove : bool) (q : aqueue) : aqueue :=
  match list_find (λ t, qid t = id) (a_wait q) with
  | Some (i, t) =>
      if negb (qheld t) then q
      else if remove then q <| a_wait := delete i (a_wait q) |>
      else q <| a_wait := <[i := t <| qheld := false |>]> (a_wait q) |>
  | None => q
  end.

(** [DeferActiveNamed]. *)
Definition deferTurn (id : string) (q : aqueue) : bool * aqueue :=
  if negb (str_empty id) && bool_decide (a_turn q = Some id) && a_open q
  then (true, q <| a_wait := mkTurn id 0 false (Some 0%nat) :: a_wait q |> <| a_turn := None |>)
  else (false, q).

Definition closeQueue (q : aqueue) : aqueue := mkAq false [] None 0.

(** ** The world *)

(** Where the run of a message stands: taken from the queue; recorded as
    running; reported busy by the agent before any input; neither running nor
    restored; sent. *)
Inductive RunAt := Taken | Checked | Busy | Undecided | Sent.
#[global] Instance RunAt_eq_dec : EqDecision RunAt.
Proof. solve_decision. Defined.

Record Proc := mkProc {
  queues : gmap string aqueue;
  runs : gmap string (string * RunAt);
  promoting : gset mid;
  steers : gset mid }.
#[export] Instance Proc_eta : Eta Proc := λ m, mkProc (queues m) (runs m) (promoting m) (steers m).

(** [handed]: the messages an agent consumed, or may have, in order. *)
Record World := mkWorld { store : Db; procs : gmap nat Proc; handed : list mid }.
#[export] Instance World_eta : Eta World := λ w, mkWorld (store w) (procs w) (handed w).

Definition setProc (p : nat) (m : Proc) (w : World) : World := w <| procs := <[p:=m]> (procs w) |>.
Definition setQueue (s : string) (q : aqueue) (m : Proc) : Proc := m <| queues := <[s:=q]> (queues m) |>.
Definition setRun (s : string) (r : string) (a : RunAt) (m : Proc) : Proc :=
  m <| runs := <[s := (r, a)]> (runs m) |>.

(** [session.EndTurn] for the run of [s]. *)
Definition release (s : string) (m : Proc) : Proc :=
  m <| runs := delete s (runs m) |> <| queues := alter endTurn s (queues m) |>.

Section Host.
Context (sha256Hex : string → string) (keyJSON : Namespace → string → string)
        (decodePayload : string → option rawAdmission)
        (decodeOrigin : string → option (string * string))
        (encodeAdmission : rawAdmission → string)
        (marksJSON : list Watermark → string) (rowsJSON : list SnapshotRow → string).
Notation perform := (perform sha256Hex keyJSON decodePayload decodeOrigin encodeAdmission marksJSON rowsJSON).

(** A [Transition] of the store: whether it changed the row, its error, the
    store and the faults left. *)
Definition transition (k : mid) (from : list State) (to : State) (message active turn : string)
    (strictACK : bool) (now : Z) (fs : list bool) (d : Db) : bool * option Err * Db * list bool :=
  let '(r, d, fs) :=
    atomically failed (Transition k.1 k.2 from to message active turn strictACK now) fs d in
  (r.1.2, r.2, d, fs).

(** ** Startup

    [NewHub]: without a recovered store the process has no message queue. *)
Definition start (p : nat) (sessions : list string) (now : Z) (fs : list bool) (w : World) : World :=
  match procs w !! p with
  | Some _ => w
  | None =>
      let '(r, d, _) := atomically Some (Recover now) fs (store w) in
      match r with
      | Some _ => w <| store := d |>
      | None =>
          setProc p (mkProc (list_to_map (map (λ s, (s, openQueue)) sessions)) ∅ ∅ ∅) (w <| store := d |>)
      end
  end.

(** [resumeQueuedMessages], one row at a time. *)
Fixpoint resumeEach (rows : list Entry) (now : Z) (fs : list bool) (m : Proc) (d : Db) : Proc * Db :=
  match rows with
  | [] => (m, d)
  | e :: rest =>
      match queues m !! SessionID e with
      | None =>
          let '(_, _, d, fs) := transition (key e) [Queued] Failed
            "Session is no longer available" "" "" false now fs d in
          resumeEach rest now fs m d
      | Some q => resumeEach rest now fs (setQueue (SessionID e) (submitTo (RequestID e) q).2 m) d
      end
  end.

Definition resume (p : nat) (now : Z) (fs : list bool) (w : World) : World :=
  match procs w !! p with
  | None => w
  | Some m =>
      match (QueuedMessages fs (store w)).2 with
      | inr _ => w
      | inl (rows, _) =>
          let '(m, d) := resumeEach rows now (QueuedMessages fs (store w)).1 m (store w) in
          setProc p m (w <| store := d |>)
      end
  end.

(** ** Acceptance: the store, then the queue *)
Definition accept (p : nat) (e : Entry) (now : Z) (fs : list bool) (w : World) : World :=
  match procs w !! p with
  | None => w
  | Some m =>
      match queues m !! SessionID e with
      | None => w
      | Some q =>
          let '(r, d, fs) :=
            Enqueue sha256Hex keyJSON decodePayload decodeOrigin encodeAdmission None e now fs (store w) in
          if negb r.1.2 then w <| store := d |>
          else
            let '(submitted, q) := submitTo (RequestID e) q in
            if submitted then setProc p (setQueue (SessionID e) q m) (w <| store := d |>)
            else
              let '(_, _, d, _) := transition (key e) [Queued] Failed
                "Queue is full or session is closed" "" "" false now fs d in
              w <| store := d |>
      end
  end.

(** ** A run: [runQueuedMessage] *)
Definition take (p : nat) (s : string) (w : World) : World :=
  match procs w !! p with
  | None => w
  | Some m =>
      match queues m !! s, runs m !! s with
      | Some q, None =>
          match takeNext q with
          | Some (id, q) => setProc p (setRun s id Taken (setQueue s q m)) w
          | None => w
          end
      | _, _ => w
      end
  end.

Definition begin (p : nat) (s : string) (now : Z) (fs : list bool) (w : World) : World :=
  match procs w !! p with
  | None => w
  | Some m =>
      match runs m !! s with
      | Some (rid, Taken) =>
          let '(changed, err, d, _) := transition (s, rid) [Queued] Running "" "" "" false now fs (store w) in
          let w := w <| store := d |> in
          if negb (bool_decide (err = None)) || negb changed ||
             negb (from_option a_open false (queues m !! s))
          then setProc p (release s m) w
          else setProc p (setRun s rid Checked m) w
      | _ => w
      end
  end.

(** [finishQueuedMessage], then the release of the worker: [exact] when the
    terminal names this request. *)
Definition finishRun (p : nat) (s rid : string) (m : Proc) (to : State) (exact : bool) (message : string)
    (now : Z) (fs : list bool) (w : World) : World :=
  let from := if exact then [Running; Uncertain] else [Running] in
  let '(_, _, d, _) := transition (s, rid) from to message "" "" false now fs (store w) in
  setProc p (release s m) (w <| store := d |>).

(** A check after the start failed; the message was not sent. *)
Definition refuseRun (p : nat) (s : string) (exact : bool) (message : string) (now : Z) (fs : list bool)
    (w : World) : World :=
  match procs w !! p with
  | None => w
  | Some m =>
      match runs m !! s with
      | Some (rid, Checked) => finishRun p s rid m Failed exact message now fs w
      | _ => w
      end
  end.

(** What [exec.Send] did: it consumed the input or may have ([nil] or another
    error), or it is [ErrNativeSubmissionBusy]. *)
Definition submit (p : nat) (s : string) (busy : bool) (w : World) : World :=
  match procs w !! p with
  | None => w
  | Some m =>
      match runs m !! s with
      | Some (rid, Checked) =>
          if busy then setProc p (setRun s rid Busy m) w
          else setProc p (setRun s rid Sent m) (w <| handed := handed w ++ [(s, rid)] |>)
      | _ => w
      end
  end.

(** [deferUnsubmittedQueuedMessage] under its mutex. *)
Definition deferRun (p : nat) (s : string) (now : Z) (fs : list bool) (w : World) : World :=
  match procs w !! p with
  | None => w
  | Some m =>
      match runs m !! s with
      | Some (rid, Busy) =>
          let k := (s, rid) in
          match ExactNativeAcceptance s rid fs (store w) with
          | (fs, inl (None, _)) =>
              let '(changed, err, d, fs) :=
                transition k [Running] Queued "native_submission_busy" "" "" false now fs (store w) in
              let ok := changed && bool_decide (err = None) in
              match queues m !! s with
              | Some q =>
                  let '(deferred, q) := if ok then deferTurn rid q else (false, q) in
                  if deferred
                  then setProc p (setQueue s q (m <| runs := delete s (runs m) |>)) (w <| store := d |>)
                  else
                    let '(_, _, d, _) :=
                      if changed
                      then transition k [Queued] Uncertain "native_defer_unconfirmed" "" "" false now fs d
                      else (false, None, d, fs) in
                    setProc p (setRun s rid Undecided m) (w <| store := d |>)
              | None => setProc p (setRun s rid Undecided m) (w <| store := d |>)
              end
          | _ => setProc p (setRun s rid Undecided m) w
          end
      | _ => w
      end
  end.

(** The event [NativeSubmissionUncertain]. *)
Definition loseRun (p : nat) (s : string) (reason : string) (now : Z) (fs : list bool) (w : World) : World :=
  match procs w !! p with
  | None => w
  | Some m =>
      match runs m !! s with
      | Some (rid, Undecided) | Some (rid, Sent) =>
          let '(_, err, d, _) := transition (s, rid) [Running] Uncertain reason "" "" false now fs (store w) in
          let w := w <| store := d |> in
          if bool_decide (err = None) then setProc p (release s m) w else w
      | _ => w
      end
  end.

(** The terminal event of the turn. *)
Definition endRun (p : nat) (s : string) (completed exact : bool) (message : string) (now : Z)
    (fs : list bool) (w : World) : World :=
  match procs w !! p with
  | None => w
  | Some m =>
      match runs m !! s with
      | Some (rid, Undecided) | Some (rid, Sent) =>
          finishRun p s rid m (if completed then Completed else Failed) exact message now fs w
      | _ => w
      end
  end.

(** ** Promotion: [promoteQueuedMessage], cut at its reads and writes of the store *)
Definition promoteCheck (p : nat) (k : mid) (fs : list bool) (w : World) : World :=
  match procs w !! p with
  | None => w
  | Some m =>
      match (Get k.1 k.2 fs (store w)).2, queues m !! k.1 with
      | inl (Some e, _), Some q =>
          if negb (bool_decide (eState e = Queued)) then w
          else
            match reserve true k.2 q with
            | Some q => setProc p (setQueue k.1 q (m <| promoting := {[k]} ∪ promoting m |>)) w
            | None => w
            end
      | _, _ => w
      end
  end.

Definition promoteMark (p : nat) (k : mid) (now : Z) (fs : list bool) (w : World) : World :=
  match procs w !! p with
  | None => w
  | Some m =>
      if bool_decide (k ∈ promoting m) then
        let m := m <| promoting := promoting m ∖ {[k]} |> in
        let '(_, err, d, _) := transition k [Queued] Steering "" "" "" false now fs (store w) in
        let w := w <| store := d |> in
        if bool_decide (err = None)
        then setProc p (m <| steers := {[k]} ∪ steers m |>) w
        else setProc p (m <| queues := alter (finishReservation k.2 false) k.1 (queues m) |>) w
      else w
  end.

(** What [Steer] did: an accepted strict acknowledgement, a typed refusal (or
    the call was not made), or anything else; [active] and [turn] are in its
    result. *)
Inductive SteerOutcome := SteerAccepted | SteerRefused | SteerUnknown.

Definition steered (p : nat) (k : mid) (o : SteerOutcome) (active turn message : string) (now : Z)
    (fs : list bool) (w : World) : World :=
  match procs w !! p with
  | None => w
  | Some m =>
      if bool_decide (k ∈ steers m) then
        let next :=
          match o with SteerAccepted => Steered | SteerRefused => Queued | SteerUnknown => Uncertain end in
        let w := match o with SteerRefused => w | _ => w <| handed := handed w ++ [k] |> end in
        let '(_, err, d, _) :=
          transition k [Steering] next message active turn (bool_decide (next = Steered)) now fs (store w) in
        let remove := negb (bool_decide (err = None)) || negb (bool_decide (next = Queued)) in
        setProc p (m <| steers := steers m ∖ {[k]} |>
                     <| queues := alter (finishReservation k.2 remove) k.1 (queues m) |>)
          (w <| store := d |>)
      else w
  end.

(** ** Cancellation and closing *)
Definition cancel (p : nat) (k : mid) (hash : string) (revision : Z) (outcomeKey : string) (now : Z)
    (fs : list bool) (w : World) : World :=
  match procs w !! p with
  | None => w
  | Some m =>
      match queues m !! k.1 with
      | None => w
      | Some q =>
          match reserve false k.2 q with
          | None => w
          | Some q =>
              let '(r, d, _) :=
                atomically failed (CancelWaitingAPI k.1 k.2 hash (Some revision) outcomeKey now) fs (store w) in
              setProc p (setQueue k.1 (finishReservation k.2 r.1.2 q) m) (w <| store := d |>)
          end
      end
  end.

(** [closeQueuedMessages]. *)
Fixpoint cancelEach (rows : list Entry) (now : Z) (fs : list bool) (d : Db) : Db :=
  match rows with
  | [] => d
  | e :: rest =>
      if bool_decide (eState e = Queued) then
        let '(_, _, d, fs) := transition (key e) [Queued] Cancelled "Session was closed" "" "" false now fs d in
        cancelEach rest now fs d
      else cancelEach rest now fs d
  end.

Definition closeSession (p : nat) (s : string) (now : Z) (fs : list bool) (w : World) : World :=
  match procs w !! p with
  | None => w
  | Some m =>
      match takeSnapshot s fs (store w) with
      | (fs, inl (snapshot, _)) =>
          setProc p (m <| queues := alter closeQueue s (queues m) |>)
            (w <| store := cancelEach (Items snapshot) now fs (store w) |>)
      | (_, inr _) => setProc p (m <| queues := alter closeQueue s (queues m) |>) w
      end
  end.

(** ** Histories *)

(** The operations of the store that are not a step of a message. *)
Definition beside (o : op) : bool :=
  match o with
  | OReject _ _ _ _ | OTouch _ _ | OAccept _ _ _ _ _ | OEvidence _ _ _ _ | OSeal _ _ _ _
  | OClaim _ _ _ | OOutbox _ _ _ | OOutcome _ _ _ | OFreeze _ _ _ _ | OPrune _ => true
  | _ => false
  end.

Inductive hostEvent :=
  | EStart (p : nat) (sessions : list string) (now : Z) (fs : list bool)
  | EResume (p : nat) (now : Z) (fs : list bool)
  | ECrash (p : nat)
  | EAccept (p : nat) (e : Entry) (now : Z) (fs : list bool)
  | ETake (p : nat) (s : string)
  | EBegin (p : nat) (s : string) (now : Z) (fs : list bool)
  | ERefuse (p : nat) (s : string) (exact : bool) (message : string) (now : Z) (fs : list bool)
  | ESubmit (p : nat) (s : string) (busy : bool)
  | EDefer (p : nat) (s : string) (now : Z) (fs : list bool)
  | ELose (p : nat) (s reason : string) (now : Z) (fs : list bool)
  | EEnd (p : nat) (s : string) (completed exact : bool) (message : string) (now : Z) (fs : list bool)
  | EPromoteCheck (p : nat) (k : mid) (fs : list bool)
  | EPromoteMark (p : nat) (k : mid) (now : Z) (fs : list bool)
  | ESteered (p : nat) (k : mid) (o : SteerOutcome) (active turn message : string) (now : Z) (fs : list bool)
  | ECancel (p : nat) (k : mid) (hash : string) (revision : Z) (outcomeKey : string) (now : Z) (fs : list bool)
  | EClose (p : nat) (s : string) (now : Z) (fs : list bool)
  | EMaintained (k : mid) (message turn : string) (now : Z) (fs : list bool)
  | EStore (o : op) (fs : list bool).

Definition act (e : hostEvent) (w : World) : World :=
  match e with
  | EStart p sessions now fs => start p sessions now fs w
  | EResume p now fs => resume p now fs w
  | ECrash p => w <| procs := delete p (procs w) |>
  | EAccept p e now fs => accept p e now fs w
  | ETake p s => take p s w
  | EBegin p s now fs => begin p s now fs w
  | ERefuse p s exact message now fs => refuseRun p s exact message now fs w
  | ESubmit p s busy => submit p s busy w
  | EDefer p s now fs => deferRun p s now fs w
  | ELose p s reason now fs => loseRun p s reason now fs w
  | EEnd p s completed exact message now fs => endRun p s completed exact message now fs w
  | EPromoteCheck p k fs => promoteCheck p k fs w
  | EPromoteMark p k now fs => promoteMark p k now fs w
  | ESteered p k o active turn message now fs => steered p k o active turn message now fs w
  | ECancel p k hash revision outcomeKey now fs => cancel p k hash revision outcomeKey now fs w
  | EClose p s now fs => closeSession p s now fs w
  | EMaintained k message turn now fs =>
      let '(_, _, d, _) := transition k [Uncertain] Completed message "" turn false now fs (store w) in
      w <| store := d |>
  | EStore o fs => if beside o then w <| store := perform o fs (store w) |> else w
  end.

Definition history (l : list hostEvent) (w : World) : World := foldl (λ w e, act e w) w l.
Definition newWorld : World := mkWorld Open ∅ [].

(** A promotion whose check and mark no other process disturbs. *)
Definition promote (p : nat) (k : mid) (now : Z) (fs1 fs2 : list bool) : list hostEvent :=
  [EPromoteCheck p k fs1; EPromoteMark p k now fs2].
End Host.
