(* ===== verification/QueueHostProps.v ===== *)
(** * Theorems of the host of the message queue

    [gone d k]: message [k] has a row that is not waiting.  [holds w p b k]:
    process [p] may still hand [k] to an agent, by its run ([b]) or by a
    promotion.  The invariant: a message with a holder or already handed over
    is gone, and has one holder or was handed over once, never both. *)
From S2P Require Import Prelude Orders Session TurnQueue TurnSpec Sql TaskJournal TaskFeed MessageQueue QueueStore QueueProps QueueHost.

(** ** The store *)
Definition sound (d : Db) : Prop := wf d ∧ ∃ L, logged L (tables d).
Definition gone (d : Db) (k : mid) : Prop := ∃ e, lookup k.1 k.2 d = Some e ∧ eState e ≠ Queued.
Definition calm (d d' : Db) : Prop := ∀ k, gone d k → gone d' k.

Lemma quiet_refl d : calm d d.
Proof. by intros k. Qed.
Lemma quiet_trans d1 d2 d3 : calm d1 d2 → calm d2 d3 → calm d1 d3.
Proof. intros H1 H2 k H. by apply H2, H1. Qed.
Lemma calm_commands d d' : commands d' = commands d → calm d d'.
Proof. intros E k (e & He & Hs). exists e. unfold lookup in *. by rewrite E. Qed.
#[export] Hint Resolve quiet_refl : core.

Lemma sound_good d : sound d → ∃ L, reaches L d d.
Proof. intros [Hwf [L Hl]]. exists L. by apply reaches_refl. Qed.
Lemma good_sound L d d' : reaches L d d' → sound d'.
Proof. intros (Hwf & (new & Hl & _) & _). split; [done|]. by eexists. Qed.
Lemma sound_open : sound Open.
Proof. split; [apply wf_open|]. exists []. apply logged_install. Qed.

Section Store.
Context (sha256Hex : string → string) (keyJSON : Namespace → string → string)
        (decodePayload : string → option rawAdmission)
        (decodeOrigin : string → option (string * string))
        (encodeAdmission : rawAdmission → string)
        (marksJSON : list Watermark → string) (rowsJSON : list SnapshotRow → string).
Notation perform := (perform sha256Hex keyJSON decodePayload decodeOrigin encodeAdmission marksJSON rowsJSON).

(** A transition is a compare-and-set. *)
Lemma transition_spec k from to m a t strictACK now fs d :
  sound d →
  let '(changed, err, d', _) := transition k from to m a t strictACK now fs d in
  sound d' ∧
  (changed = false ∧ d' = d ∨
   changed = true ∧ err = None ∧ (∃ e, lookup k.1 k.2 d = Some e ∧ eState e ∈ from) ∧
   (∀ k', k' ≠ k → gone d k' ↔ gone d' k') ∧
   ∃ e, lookup k.1 k.2 d' = Some e ∧ eState e = to).
Proof.
  intros [L Hg]%sound_good. unfold transition.
  pose proof (Transition_spec L d k.1 k.2 from to m a t strictACK now fs d Hg) as H.
  destruct (atomically _ _ _ _) as [[[[x changed] err] d'] fs'] eqn:E. destruct H as [[Hg' _] H].
  split; [by eapply good_sound|]. destruct H as [[Hr ->]|(e & He & Hin & Hr & Hl)]; [left; done|right].
  injection Hr as -> -> ->. split_and!; [done|done|by exists e| |].
  - intros k' Hne. unfold gone. rewrite Hl, decide_False; [done|].
    intros Heq. apply Hne. rewrite (surjective_pairing k'), Heq. by destruct k.
  - exists (moved to m a t now e). rewrite Hl, decide_True, He by done. done.
Qed.

Lemma transition_calm k from to m a t strictACK now fs d :
  sound d → to ≠ Queued →
  let '(changed, err, d', _) := transition k from to m a t strictACK now fs d in sound d' ∧ calm d d'.
Proof.
  intros Hd Hto. pose proof (transition_spec k from to m a t strictACK now fs d Hd) as H.
  destruct (transition _ _ _ _ _ _ _ _ _ _) as [[[changed err] d'] fs']. destruct H as [Hd' H].
  split; [done|]. destruct H as [[_ ->]|(_ & _ & _ & Ho & e & He & Hs)]; [done|].
  intros k' Hk'. destruct (decide (k' = k)) as [->|Hne]; [exists e; by rewrite Hs|by apply Ho].
Qed.

(** Without an error, a transition from the state of the row changed it. *)
Lemma wp_any {A} (m : Tx Db A) d : wp m (λ _ _, True) d.
Proof. intros fs. by destruct (m fs d).2 as [[? ?]|]. Qed.

Lemma transition_changes k from to m a t strictACK now fs d e :
  lookup k.1 k.2 d = Some e → eState e ∈ from →
  let '(changed, err, _, _) := transition k from to m a t strictACK now fs d in err = None → changed = true.
Proof.
  intros He Hin. unfold transition.
  pose proof (atomically_elim failed (Transition k.1 k.2 from to m a t strictACK now) fs d
    (λ r _, r.2 = None → r.1.2 = true)) as H.
  destruct (atomically _ _ _ _) as [[r d'] fs']. apply H; [|done].
  unfold Transition, Get. wp_step. wp_step. rewrite He, bool_decide_eq_true_2 by done. simpl.
  repeat (apply wp_bind; eapply wp_mono; [apply wp_any|]; intros ? ? _). by apply wp_ret.
Qed.

Lemma enqueue_calm api e now fs d :
  sound d →
  let '(r, d', _) := Enqueue sha256Hex keyJSON decodePayload decodeOrigin encodeAdmission api e now fs d in
  sound d' ∧ calm d d'.
Proof.
  intros [L Hg]%sound_good.
  pose proof (Enqueue_spec sha256Hex keyJSON decodePayload decodeOrigin encodeAdmission L d api e now fs d Hg) as H.
  destruct (Enqueue _ _ _ _ _ _ _ _ _ _) as [[r d'] fs']. destruct H as [[Hg' _] H].
  split; [by eapply good_sound|]. destruct H as [[_ ->]|(e' & _ & Hn & _ & _ & _ & _ & _ & Hl)]; [done|].
  intros k (x & Hx & Hs). exists x. rewrite Hl; [done|]. intros ->. simpl in Hx. congruence.
Qed.

Lemma recover_calm now fs d :
  sound d →
  let '(r, d', _) := atomically Some (Recover now) fs d in sound d' ∧ calm d d'.
Proof.
  intros [L Hg]%sound_good. pose proof (Recover_spec L d now fs d Hg) as H.
  destruct (atomically _ _ _ _) as [[r d'] fs']. destruct H as [[Hg' _] H].
  split; [by eapply good_sound|]. destruct H as [[_ ->]|[_ Hl]]; [done|].
  intros k (e & He & Hs). exists (recovered now e). rewrite Hl, He. split; [done|].
  unfold recovered. by destruct (interrupted e).
Qed.

Lemma cancelWaiting_calm sid rid hash rev outcomeKey now fs d :
  sound d →
  let '(r, d', _) := atomically failed (CancelWaitingAPI sid rid hash rev outcomeKey now) fs d in
  sound d' ∧ calm d d'.
Proof.
  intros [L Hg]%sound_good. pose proof (CancelWaiting_spec L d sid rid hash rev outcomeKey now fs d Hg) as H.
  destruct (atomically _ _ _ _) as [[r d'] fs']. destruct H as [[Hg' _] H].
  split; [by eapply good_sound|]. destruct H as [[_ ->]|(e & He & _ & _ & Hl)]; [done|].
  intros [s q] (x & Hx & Hs). unfold gone. simpl in *. rewrite Hl. case_decide.
  - rewrite Hx. simpl. eexists. by split.
  - by exists x.
Qed.

(** Statements that leave the messages alone. *)
Definition keepsRows {A} (m : Tx Db A) : Prop := ∀ d, wp m (λ _ d', commands d' = commands d) d.

Lemma keepsRows_bind {A B} (m : Tx Db A) (f : A → Tx Db B) :
  keepsRows m → (∀ a, keepsRows (f a)) → keepsRows (m ≫= f).
Proof.
  intros Hm Hf d. apply wp_bind. eapply wp_mono; [apply Hm|]. intros a d1 H1.
  eapply wp_mono; [apply Hf|]. intros b d2 H2. simpl in *. congruence.
Qed.
Lemma keepsRows_ret {A} (a : A) : keepsRows (mret a).
Proof. intros d. by apply wp_ret. Qed.
Lemma keepsRows_fail {A} e : keepsRows (A:=A) (tx_fail e).
Proof. intros d. by apply wp_fail. Qed.
Lemma keepsRows_query {A} (f : Db → A) : keepsRows (query f).
Proof. intros d. by apply wp_query. Qed.
Lemma keepsRows_exec_ (f : Db → Db) : (∀ d, commands (f d) = commands d) → keepsRows (exec_ f).
Proof. intros H d. by apply wp_exec_. Qed.
Lemma keepsRows_exec {A} (f : Db → A * Db + Err) :
  (∀ d, match f d with inl (_, d') => commands d' = commands d | inr _ => True end) → keepsRows (exec f).
Proof. intros H d. apply wp_exec. specialize (H d). by destruct (f d) as [[? ?]|]. Qed.
Lemma keepsRows_journal {A} (m : Tx Tables A) : keepsRows (onJournal m).
Proof.
  intros d. apply wp_onJournal. intros fs.
  by destruct (m fs (journal d)).2 as [[? ?]|].
Qed.
Lemma keepsRows_change sid rid kind now : keepsRows (change sid rid kind now).
Proof. apply keepsRows_journal. Qed.
Lemma keepsRows_bump sid now : keepsRows (bump sid now).
Proof.
  apply keepsRows_bind; [apply keepsRows_change|]. intros []. by apply keepsRows_exec_.
Qed.
Hint Resolve keepsRows_ret keepsRows_fail keepsRows_query keepsRows_journal keepsRows_change keepsRows_bump : core.

Ltac keeps :=
  repeat (intros; cbv beta iota zeta; lazymatch goal with
  | |- keepsRows (_ ≫= _) => apply keepsRows_bind
  | |- keepsRows (exec_ _) => by apply keepsRows_exec_
  | |- keepsRows (exec _) => apply keepsRows_exec
  | |- keepsRows (match ?x with _ => _ end) => destruct x
  | |- keepsRows _ => auto; fail
  | |- match (match insertRow ?k ?v ?t with _ => _ end) with _ => _ end => by destruct (insertRow k v t)
  | |- commands _ = commands _ => done
  end).

Lemma atomically_commands {R} (failed : Err → R) (m : Tx Db (bool * R)) fs d :
  keepsRows m → commands (atomically failed m fs d).1.2 = commands d.
Proof.
  intros Hm. pose proof (atomically_elim failed m fs d (λ _ d', commands d' = commands d)) as H.
  destruct (atomically failed m fs d) as [[r d'] fs']. apply H; [|done].
  eapply wp_mono; [apply Hm|]. by intros [[] ?] ? ?.
Qed.

Lemma beside_commands o fs d : beside o = true → commands (perform o fs d) = commands d.
Proof.
  destruct o; try done; intros _; simpl.
  - unfold Reject. destruct (_ || _); [done|]. apply atomically_commands. unfold Get. keeps.
  - apply atomically_commands. unfold Touch. keeps.
  - unfold RecordNativeAcceptance. destruct (_ || _ || _ || _); [done|]. apply atomically_commands. keeps.
  - unfold RecordProviderEvidence. destruct (_ || _ || _ || _); [done|]. apply atomically_commands. keeps.
  - unfold SealTask. destruct (negb _); [done|]. apply atomically_commands. unfold NativeConflict. keeps.
  - apply atomically_commands. keeps.
  - apply atomically_commands. keeps.
  - apply atomically_commands. keeps.
  - apply atomically_commands. keeps.
  - apply atomically_commands. keeps.
Qed.
End Store.

(** ** Holders *)
Definition slot (m : Proc) (b : bool) (k : mid) : Prop :=
  if b then runs m !! k.1 = Some (k.2, Checked) ∨ runs m !! k.1 = Some (k.2, Busy) else k ∈ steers m.
Definition holds (w : World) (p : nat) (b : bool) (k : mid) : Prop := ∃ m, procs w !! p = Some m ∧ slot m b k.

Record inv (w : World) : Prop := mkInv {
  inv_store : sound (store w);
  inv_handed : NoDup (handed w) ∧ ∀ k, k ∈ handed w → gone (store w) k;
  inv_holder : ∀ p b k, holds w p b k → gone (store w) k ∧ k ∉ handed w;
  inv_unique : ∀ p b p' b' k, holds w p b k → holds w p' b' k → p = p' ∧ b = b';
  inv_promoting : ∀ p m, procs w !! p = Some m → promoting m = ∅ }.

Lemma inv_open : inv newWorld.
Proof.
  split; simpl; [apply sound_open| | | |].
  - split; [constructor|]. intros k H. by apply elem_of_nil in H.
  - intros p b k (m & H & _). simpl in H; by rewrite lookup_empty in H.
  - intros p b p' b' k (m & H & _). simpl in H; by rewrite lookup_empty in H.
  - intros p m H. simpl in H; by rewrite lookup_empty in H.
Qed.

(** A step that hands nothing over and makes no holder. *)
Lemma inv_calm w w' :
  inv w → sound (store w') → calm (store w) (store w') → handed w' = handed w →
  (∀ p b k, holds w' p b k → holds w p b k) →
  (∀ p m, procs w' !! p = Some m → promoting m = ∅) → inv w'.
Proof.
  intros [Hs [Hnd Hh] Hho Hu Hp] Hs' Hc E Hold Hp'. split; [done| | | |done]; rewrite ?E.
  - split; [done|]. intros k Hk. by apply Hc, Hh.
  - intros p b k (Hg & Hn)%Hold%Hho. split; [by apply Hc|done].
  - intros p b p' b' k H1%Hold H2%Hold. by eapply Hu.
Qed.

(** A step that makes a holder of a message that was waiting. *)
Lemma inv_claim w w' p b k :
  inv w → sound (store w') → ¬ gone (store w) k → gone (store w') k → calm (store w) (store w') →
  handed w' = handed w →
  (∀ p' b' k', holds w' p' b' k' → holds w p' b' k' ∨ (p', b', k') = (p, b, k)) →
  (∀ p m, procs w' !! p = Some m → promoting m = ∅) → inv w'.
Proof.
  intros [Hs [Hnd Hh] Hho Hu Hp] Hs' Hk Hk' Hc E Hold Hp'. split; [done| | | |done]; rewrite ?E.
  - split; [done|]. intros k0 H0. by apply Hc, Hh.
  - intros p' b' k' [(Hg & Hn)%Hho|[= -> -> ->]]%Hold; [split; [by apply Hc|done]|].
    split; [done|]. intros H%Hh. done.
  - intros p1 b1 p2 b2 k0 H1%Hold H2%Hold.
    destruct H1 as [H1|H1], H2 as [H2|H2]; simplify_eq; [by eapply Hu| | |done].
    + by apply Hho in H1 as [? _].
    + by apply Hho in H2 as [? _].
Qed.

(** A holder gives its message to the agent, or back to the store. *)
Lemma inv_settle w w' p b k :
  inv w → holds w p b k → sound (store w') →
  (∀ k', k' ≠ k → gone (store w) k' → gone (store w') k') →
  (handed w' = handed w ∨ handed w' = handed w ++ [k] ∧ gone (store w') k) →
  (∀ p' b' k', holds w' p' b' k' → holds w p' b' k' ∧ (p', b', k') ≠ (p, b, k)) →
  (∀ p m, procs w' !! p = Some m → promoting m = ∅) → inv w'.
Proof.
  intros [Hs [Hnd Hh] Hho Hu Hp] Hk Hs' Hc E Hold Hp'.
  assert (∀ p' b' k', holds w' p' b' k' → holds w p' b' k' ∧ k' ≠ k) as Hother.
  { intros p' b' k' [H1 Hne]%Hold. split; [done|]. intros ->. by destruct (Hu _ _ _ _ _ Hk H1) as [-> ->]. }
  destruct (Hho _ _ _ Hk) as [_ Hnew].
  assert (∀ k', k' ∈ handed w → gone (store w') k') as Hh'.
  { intros k' H'. apply Hc; [by intros ->|by apply Hh]. }
  split; [done| | | |done].
  - destruct E as [->|[-> Hg]]; [done|]. split.
    + apply NoDup_app. split_and!; [done| |apply NoDup_singleton].
      by intros x Hx ->%list_elem_of_singleton.
    + intros k' [H'| ->%list_elem_of_singleton]%elem_of_app; [by apply Hh'|done].
  - intros p' b' k' [H1 Hne]%Hother. destruct (Hho _ _ _ H1) as [Hg Hn].
    split; [by apply Hc|]. destruct E as [->|[-> _]]; [done|].
    intros [?|?%list_elem_of_singleton]%elem_of_app; done.
  - intros p1 b1 p2 b2 k0 [H1 _]%Hother [H2 _]%Hother. by eapply Hu.
Qed.

(** *** Steps of one process *)
Lemma holds_setProc p m w q b k :
  holds (setProc p m w) q b k ↔ if decide (q = p) then slot m b k else holds w q b k.
Proof.
  unfold holds, setProc. simpl. destruct (decide (q = p)) as [->|Hne].
  - rewrite lookup_insert_eq. split; [by intros (? & [= ->] & ?)|]. by exists m.
  - by rewrite lookup_insert_ne.
Qed.
Lemma holds_slot w p m b k : procs w !! p = Some m → holds w p b k ↔ slot m b k.
Proof. intros E. unfold holds. rewrite E. split; [by intros (? & [= ->] & ?)|]. by exists m. Qed.

Lemma promoting_setProc p m w :
  (∀ q n, procs w !! q = Some n → promoting n = ∅) → promoting m = ∅ →
  ∀ q n, procs (setProc p m w) !! q = Some n → promoting n = ∅.
Proof.
  intros H Hm q n. unfold setProc. simpl. destruct (decide (q = p)) as [->|Hne].
  - rewrite lookup_insert_eq. by intros [= <-].
  - rewrite lookup_insert_ne by done. apply H.
Qed.

Lemma proc_calm w p m m' d :
  inv w → procs w !! p = Some m → sound d → calm (store w) d →
  (∀ b k, slot m' b k → slot m b k) → promoting m' = promoting m →
  inv (setProc p m' (w <| store := d |>)).
Proof.
  intros Hi Hm Hd Hc Hsl Hp. apply (inv_calm w); [done..| |].
  - intros q b k. rewrite holds_setProc. case_decide; [subst q|done].
    intros H. apply (holds_slot w p m); [done|by apply Hsl].
  - apply (promoting_setProc p m' (w <| store := d |>)); [apply Hi|]. rewrite Hp. by eapply Hi.
Qed.

Lemma store_calm w d : inv w → sound d → calm (store w) d → inv (w <| store := d |>).
Proof. intros Hi Hd Hc. apply (inv_calm w); [done..|]. apply Hi. Qed.

Lemma proc_settle w p m m' d b k h :
  inv w → procs w !! p = Some m → slot m b k → sound d →
  (∀ k', k' ≠ k → gone (store w) k' → gone d k') →
  (h = handed w ∨ h = handed w ++ [k] ∧ gone d k) →
  (∀ b' k', slot m' b' k' → slot m b' k' ∧ (b', k') ≠ (b, k)) → promoting m' = promoting m →
  inv (setProc p m' (mkWorld d (procs w) h)).
Proof.
  intros Hi Hm Hk Hd Hc Hl Hsl Hp. apply (inv_settle w _ p b k); [done| |done..| |].
  - by apply (holds_slot w p m).
  - intros q b' k'. rewrite holds_setProc. case_decide; [subst q|].
    + intros [H Hne]%Hsl. split; [by apply (holds_slot w p m)|]. by intros [= -> ->].
    + intros H'. split; [done|]. by intros [= -> -> ->].
  - apply (promoting_setProc p m' (mkWorld d (procs w) h)); [apply Hi|].
    rewrite Hp. by eapply Hi.
Qed.

Lemma proc_claim w p m m' d b k :
  inv w → procs w !! p = Some m → sound d → ¬ gone (store w) k → gone d k → calm (store w) d →
  (∀ b' k', slot m' b' k' → slot m b' k' ∨ (b', k') = (b, k)) → promoting m' = ∅ →
  inv (setProc p m' (w <| store := d |>)).
Proof.
  intros Hi Hm Hd Hk Hk' Hc Hsl Hp. apply (inv_claim w _ p b k); [done..| |].
  - intros q b' k'. rewrite holds_setProc. case_decide; [subst q|by left].
    intros [H|[= -> ->]]%Hsl; [left; by apply (holds_slot w p m)|by right].
  - apply (promoting_setProc p m' (w <| store := d |>)); [apply Hi|done].
Qed.

(** The slots of a process after its run of [s] changed or ended. *)
Lemma slot_setQueue s q m b k : slot (setQueue s q m) b k ↔ slot m b k.
Proof. by destruct b. Qed.
Lemma slot_queues m q b k : slot (m <| queues := q |>) b k ↔ slot m b k.
Proof. by destruct b. Qed.
Lemma slot_delete s m b k :
  slot (m <| runs := delete s (runs m) |>) b k → slot m b k ∧ (b = true → k.1 ≠ s).
Proof.
  destruct b; simpl; [|done]. destruct (decide (k.1 = s)) as [->|Hne].
  - rewrite lookup_delete_eq. by intros [?|?].
  - by rewrite lookup_delete_ne.
Qed.
Lemma slot_release s m b k : slot (release s m) b k → slot m b k ∧ (b = true → k.1 ≠ s).
Proof. intros H%slot_queues. by apply slot_delete. Qed.
Lemma slot_setRun s r a m b k :
  slot (setRun s r a m) b k →
  (slot m b k ∧ (b = true → k.1 ≠ s)) ∨ (b = true ∧ k = (s, r) ∧ a ∈ [Checked; Busy]).
Proof.
  destruct b; simpl; [|intros H; left; split; [done|done]].
  destruct (decide (k.1 = s)) as [Hs|Hne].
  - rewrite Hs, lookup_insert_eq. right. split; [done|].
    destruct k as [s' r']. simpl in *. subst s'.
    destruct H as [[= -> ->]|[= -> ->]]; (split; [done|set_solver]).
  - rewrite lookup_insert_ne by done. intros H; left; by split.
Qed.

(** ** Events *)
Section Events.
Context (sha256Hex : string → string) (keyJSON : Namespace → string → string)
        (decodePayload : string → option rawAdmission)
        (decodeOrigin : string → option (string * string))
        (encodeAdmission : rawAdmission → string)
        (marksJSON : list Watermark → string) (rowsJSON : list SnapshotRow → string).
Notation act := (act sha256Hex keyJSON decodePayload decodeOrigin encodeAdmission marksJSON rowsJSON).
Notation accept := (accept sha256Hex keyJSON decodePayload decodeOrigin encodeAdmission).

Lemma resumeEach_calm rows now fs m d :
  sound d →
  let '(m', d') := resumeEach rows now fs m d in
  sound d' ∧ calm d d' ∧ runs m' = runs m ∧ steers m' = steers m ∧ promoting m' = promoting m.
Proof.
  revert fs m d. induction rows as [|e rest IH]; intros fs m d Hd; simpl; [done|].
  destruct (queues m !! SessionID e) as [q|].
  - specialize (IH fs (setQueue (SessionID e) (submitTo (RequestID e) q).2 m) d Hd).
    by destruct (resumeEach _ _ _ _ _).
  - pose proof (transition_calm (key e) [Queued] Failed "Session is no longer available" "" "" false now fs d Hd)
      as H.
    destruct (transition _ _ _ _ _ _ _ _ _ _) as [[[? ?] d1] fs1]. destruct H as [Hd1 H1]; [done|].
    specialize (IH fs1 m d1 Hd1). destruct (resumeEach _ _ _ _ _) as [m' d'].
    destruct IH as (? & ? & ?). split_and!; try tauto. by eapply quiet_trans.
Qed.

Lemma cancelEach_calm rows now fs d :
  sound d → sound (cancelEach rows now fs d) ∧ calm d (cancelEach rows now fs d).
Proof.
  revert fs d. induction rows as [|e rest IH]; intros fs d Hd; simpl; [done|].
  case_bool_decide; [|by apply IH].
  pose proof (transition_calm (key e) [Queued] Cancelled "Session was closed" "" "" false now fs d Hd) as H1.
  destruct (transition _ _ _ _ _ _ _ _ _ _) as [[[? ?] d1] fs1]. destruct H1 as [Hd1 H1]; [done|].
  destruct (IH fs1 d1 Hd1). split; [done|by eapply quiet_trans].
Qed.

Lemma start_inv p ss now fs w : inv w → inv (start p ss now fs w).
Proof.
  intros Hi. unfold start. destruct (procs w !! p) as [m|] eqn:Em; [done|].
  pose proof (recover_calm now fs (store w) (inv_store _ Hi)) as H.
  destruct (atomically _ _ _ _) as [[r d] fs']. destruct H as [Hd Hc].
  destruct r; [by apply store_calm|]. apply (inv_calm w); [done..| |].
  - intros q b k. rewrite holds_setProc. case_decide; [|done].
    destruct b; simpl; [rewrite lookup_empty; by intros [?|?]|set_solver].
  - apply (promoting_setProc p _ (w <| store := d |>)); [apply Hi|done].
Qed.

Lemma resume_inv p now fs w : inv w → inv (resume p now fs w).
Proof.
  intros Hi. unfold resume. destruct (procs w !! p) as [m|] eqn:Em; [|done].
  destruct (QueuedMessages fs (store w)).2 as [[rows ?]|]; [|done].
  pose proof (resumeEach_calm rows now (QueuedMessages fs (store w)).1 m (store w) (inv_store _ Hi)) as H.
  destruct (resumeEach _ _ _ _ _) as [m' d']. destruct H as (? & ? & Hr & Hs & ?).
  apply (proc_calm w p m); try done. intros [] k; simpl; by rewrite ?Hr, ?Hs.
Qed.

Lemma crash_inv p w : inv w → inv (w <| procs := delete p (procs w) |>).
Proof.
  intros Hi. apply (inv_calm w); [done|apply Hi|done|done| |]; simpl.
  - intros q b k (m & Hm & H). simpl in Hm. apply lookup_delete_Some in Hm as [_ Hm]. by exists m.
  - intros q m [_ Hm]%lookup_delete_Some. by eapply Hi.
Qed.

Lemma accept_inv p e now fs w : inv w → inv (accept p e now fs w).
Proof.
  intros Hi. unfold QueueHost.accept. destruct (procs w !! p) as [m|] eqn:Em; [|done].
  destruct (queues m !! SessionID e) as [q|]; [|done].
  pose proof (enqueue_calm sha256Hex keyJSON decodePayload decodeOrigin encodeAdmission None e now fs
    (store w) (inv_store _ Hi)) as H.
  destruct (Enqueue _ _ _ _ _ _ _ _ _ _) as [[r d] fs1]. destruct H as [Hd Hc].
  destruct (negb _); [by apply store_calm|]. destruct (submitTo _ _) as [[] q'].
  - by apply (proc_calm w p m).
  - pose proof (transition_calm (key e) [Queued] Failed "Queue is full or session is closed" "" "" false
      now fs1 d Hd) as H.
    destruct (transition _ _ _ _ _ _ _ _ _ _) as [[[? ?] d1] fs2]. destruct H as [Hd1 H1]; [done|].
    apply store_calm; [done..|]. by eapply quiet_trans.
Qed.

Lemma take_inv p s w : inv w → inv (take p s w).
Proof.
  intros Hi. unfold take. destruct (procs w !! p) as [m|] eqn:Em; [|done].
  destruct (queues m !! s) as [q|]; [|done]. destruct (runs m !! s) eqn:Er; [done|].
  destruct (takeNext q) as [[id q']|]; [|done].
  apply (proc_calm w p m _ (store w)); try done; [apply Hi|].
  intros b k [[H _]|(_ & _ & Ha)]%slot_setRun; [done|]. set_solver.
Qed.

Lemma begin_inv p s now fs w : inv w → inv (begin p s now fs w).
Proof.
  intros Hi. unfold begin. destruct (procs w !! p) as [m|] eqn:Em; [|done].
  destruct (runs m !! s) as [[rid []]|] eqn:Er; try done.
  pose proof (transition_spec (s, rid) [Queued] Running "" "" "" false now fs (store w) (inv_store _ Hi)) as H.
  destruct (transition _ _ _ _ _ _ _ _ _ _) as [[[changed err] d] fs1]. destruct H as [Hd H].
  assert (calm (store w) d) as Hc.
  { destruct H as [[_ ->]|(_ & _ & _ & Ho & e & He & Hs)]; [done|]. intros k Hk.
    destruct (decide (k = (s, rid))) as [->|Hne]; [exists e; by rewrite Hs|by apply Ho]. }
  destruct (negb _ || _ || _) eqn:Eb.
  - apply (proc_calm w p m); try done. intros b k H1%slot_release. tauto.
  - bool_facts. destruct H as [[-> _]|(_ & _ & (e & He & Hq) & _ & e' & He' & Hs)]; [done|].
    apply (proc_claim w p m _ d true (s, rid)); try done.
    + intros (x & Hx & Hne). simpl in Hx. apply list_elem_of_singleton in Hq. simpl in He. congruence.
    + exists e'. by rewrite Hs.
    + intros b k [[Hsl _]|(-> & -> & _)]%slot_setRun; [by left|by right].
    + apply (inv_promoting w Hi p m Em).
Qed.

Lemma finishRun_inv p s rid m to exact message now fs w :
  inv w → procs w !! p = Some m → to ≠ Queued → inv (finishRun p s rid m to exact message now fs w).
Proof.
  intros Hi Em Hto. unfold finishRun.
  pose proof (transition_calm (s, rid) (if exact then [Running; Uncertain] else [Running]) to message "" ""
    false now fs (store w) (inv_store _ Hi) Hto) as H.
  destruct (transition _ _ _ _ _ _ _ _ _ _) as [[[? ?] d] fs1]. destruct H as [Hd Hc].
  apply (proc_calm w p m); try done. intros c k ?%slot_release. tauto.
Qed.

Lemma submit_inv p s busy w : inv w → inv (submit p s busy w).
Proof.
  intros Hi. unfold submit. destruct (procs w !! p) as [m|] eqn:Em; [|done].
  destruct (runs m !! s) as [[rid []]|] eqn:Er; try done.
  assert (slot m true (s, rid)) as Hsl by (by left). destruct busy.
  - apply (proc_calm w p m _ (store w)); try done; [apply Hi|].
    intros b k [[H1 _]|(-> & -> & _)]%slot_setRun; done.
  - assert (gone (store w) (s, rid)) as Hg by (eapply inv_holder; [done|by eapply holds_slot]).
    apply (proc_settle w p m _ (store w) true (s, rid)); try done; [apply Hi|by right|].
    intros b k [[H1 Hne]|(_ & _ & Ha)]%slot_setRun; [|set_solver].
    split; [done|]. intros [= -> ->]. by destruct Hne.
Qed.

(** The run of [s] ended or can no longer be handed over. *)
Lemma undecided_slot s rid m b k :
  runs m !! s = Some (rid, Busy) →
  slot (setRun s rid Undecided m) b k → slot m b k ∧ (b, k) ≠ (true, (s, rid)).
Proof.
  intros Er [[H1 Hne]|(_ & _ & Ha)]%slot_setRun; [|set_solver].
  split; [done|]. intros [= -> ->]. by destruct Hne.
Qed.
Lemma deleted_slot s rid m b k :
  slot (m <| runs := delete s (runs m) |>) b k → slot m b k ∧ (b, k) ≠ (true, (s, rid)).
Proof.
  intros [H1 Hne]%slot_delete. split; [done|]. intros [= -> ->]. by destruct Hne.
Qed.

Lemma deferRun_inv p s now fs w : inv w → inv (deferRun p s now fs w).
Proof.
  intros Hi. unfold deferRun. destruct (procs w !! p) as [m|] eqn:Em; [|done].
  destruct (runs m !! s) as [[rid []]|] eqn:Er; try done.
  assert (slot m true (s, rid)) as Hsl by (by right).
  assert (∀ d, sound d → (∀ k', k' ≠ (s, rid) → gone (store w) k' → gone d k') →
    inv (setProc p (setRun s rid Undecided m) (w <| store := d |>))) as Hstop.
  { intros d Hd Ho. apply (proc_settle w p m _ d true (s, rid)); try done; [by left|].
    intros b k. by apply undecided_slot. }
  assert (inv (setProc p (setRun s rid Undecided m) w)) as Hno by (apply (Hstop (store w)); [apply Hi|done]).
  destruct (ExactNativeAcceptance s rid fs (store w)) as [fs1 [[[] d0]|]]; try done.
  pose proof (transition_spec (s, rid) [Running] Queued "native_submission_busy" "" "" false now fs1
    (store w) (inv_store _ Hi)) as H.
  destruct (transition _ _ _ _ _ _ _ _ _ _) as [[[changed err] d] fs2]. destruct H as [Hd H].
  assert (∀ k', k' ≠ (s, rid) → gone (store w) k' → gone d k') as Ho.
  { intros k' Hne. destruct H as [[_ ->]|(_ & _ & _ & Ho & _)]; [done|]. by apply Ho. }
  cbv zeta. destruct (queues m !! s) as [q|]; [|by apply Hstop].
  destruct (if changed && _ then _ else _) as [[] q'].
  - apply (proc_settle w p m _ d true (s, rid)); try done; [by left|].
    intros b k H1%slot_setQueue. by eapply deleted_slot.
  - destruct changed; [|by apply Hstop].
    pose proof (transition_calm (s, rid) [Queued] Uncertain "native_defer_unconfirmed" "" "" false now fs2 d Hd) as H2.
    destruct (transition _ _ _ _ _ _ _ _ _ _) as [[[? ?] d2] fs3]. destruct H2 as [Hd2 Hc2]; [done|].
    apply Hstop; [done|]. intros k' Hne Hk'. by apply Hc2, Ho.
Qed.

Lemma loseRun_inv p s reason now fs w : inv w → inv (loseRun p s reason now fs w).
Proof.
  intros Hi. unfold loseRun. destruct (procs w !! p) as [m|] eqn:Em; [|done].
  destruct (runs m !! s) as [[rid a]|] eqn:Er; [|done].
  pose proof (transition_calm (s, rid) [Running] Uncertain reason "" "" false now fs (store w)
    (inv_store _ Hi)) as H.
  destruct (transition _ _ _ _ _ _ _ _ _ _) as [[[changed err] d] fs1]. destruct H as [Hd Hc]; [done|].
  destruct a; try done; (case_bool_decide; [|by apply store_calm]);
    (apply (proc_calm w p m); try done; intros b k ?%slot_release; tauto).
Qed.

Lemma steered_inv p k o active turn message now fs w :
  inv w → inv (steered p k o active turn message now fs w).
Proof.
  intros Hi. unfold steered. destruct (procs w !! p) as [m|] eqn:Em; [|done].
  case_bool_decide as Hk; [|done].
  assert (slot m false k) as Hsl by done.
  assert (gone (store w) k) as Hg by (eapply inv_holder; [done|by eapply holds_slot]).
  assert (∀ d h f, sound d → (∀ k', k' ≠ k → gone (store w) k' → gone d k') →
    (h = handed w ∨ h = handed w ++ [k] ∧ gone d k) →
    inv (setProc p (m <| steers := steers m ∖ {[k]} |> <| queues := f (queues m) |>)
      (mkWorld d (procs w) h))) as Hend.
  { intros d h f Hd Ho Hh. apply (proc_settle w p m _ d false k); try done.
    intros b k' H1%slot_queues. destruct b; simpl in *; [done|].
    split; [set_solver|]. intros [= ->]. set_solver. }
  assert (∀ d next strictACK,
    next ≠ Queued → (transition k [Steering] next message active turn strictACK now fs (store w)).1.2 = d →
    sound d ∧ calm (store w) d) as Hcalm.
  { intros d next strictACK Hn <-.
    pose proof (transition_calm k [Steering] next message active turn strictACK now fs (store w)
      (inv_store _ Hi) Hn) as H.
    by destruct (transition _ _ _ _ _ _ _ _ _ _) as [[[? ?] d] fs1]. }
  destruct o; simpl.
  - destruct (transition _ _ _ _ _ _ _ _ _ _) as [[[c err] d] fs1] eqn:E.
    destruct (Hcalm d Steered true) as [Hd Hc]; [done|by rewrite E|].
    apply Hend; [done|auto|right; split; [done|by apply Hc]].
  - pose proof (transition_spec k [Steering] Queued message active turn false now fs (store w) (inv_store _ Hi)) as H.
    destruct (transition _ _ _ _ _ _ _ _ _ _) as [[[c err] d] fs1]. destruct H as [Hd H].
    apply Hend; [done| |by left]. intros k' Hne.
    destruct H as [[_ ->]|(_ & _ & _ & Ho & _)]; [done|]. by apply Ho.
  - destruct (transition _ _ _ _ _ _ _ _ _ _) as [[[c err] d] fs1] eqn:E.
    destruct (Hcalm d Uncertain false) as [Hd Hc]; [done|by rewrite E|].
    apply Hend; [done|auto|right; split; [done|by apply Hc]].
Qed.

Lemma cancel_inv p k hash revision outcomeKey now fs w :
  inv w → inv (cancel p k hash revision outcomeKey now fs w).
Proof.
  intros Hi. unfold cancel. destruct (procs w !! p) as [m|] eqn:Em; [|done].
  destruct (queues m !! k.1) as [q|]; [|done]. destruct (reserve false k.2 q) as [q'|]; [|done].
  pose proof (cancelWaiting_calm k.1 k.2 hash (Some revision) outcomeKey now fs (store w) (inv_store _ Hi)) as H.
  destruct (atomically _ _ _ _) as [[r d] fs1]. destruct H. by apply (proc_calm w p m).
Qed.

Lemma closeSession_inv p s now fs w : inv w → inv (closeSession p s now fs w).
Proof.
  intros Hi. unfold closeSession. destruct (procs w !! p) as [m|] eqn:Em; [|done].
  destruct (takeSnapshot s fs (store w)) as [fs1 [[snapshot ?]|]].
  - destruct (cancelEach_calm (Items snapshot) now fs1 (store w) (inv_store _ Hi)).
    by apply (proc_calm w p m).
  - apply (proc_calm w p m _ (store w)); try done. apply Hi.
Qed.

Definition promotes (e : hostEvent) : bool :=
  match e with EPromoteCheck _ _ _ | EPromoteMark _ _ _ _ => true | _ => false end.

Lemma act_inv e w : promotes e = false → inv w → inv (act e w).
Proof.
  intros He Hi. destruct e; try done; simpl.
  - by apply start_inv.
  - by apply resume_inv.
  - by apply crash_inv.
  - by apply accept_inv.
  - by apply take_inv.
  - by apply begin_inv.
  - unfold refuseRun. destruct (procs w !! p) as [m|] eqn:Em; [|done].
    destruct (runs m !! s) as [[rid []]|]; try done. by apply finishRun_inv.
  - by apply submit_inv.
  - by apply deferRun_inv.
  - by apply loseRun_inv.
  - unfold endRun. destruct (procs w !! p) as [m|] eqn:Em; [|done].
    destruct (runs m !! s) as [[rid []]|]; try done; by apply finishRun_inv; [..|destruct completed].
  - by apply steered_inv.
  - by apply cancel_inv.
  - by apply closeSession_inv.
  - pose proof (transition_calm k [Uncertain] Completed message "" turn false now fs (store w) (inv_store _ Hi)) as H.
    destruct (transition _ _ _ _ _ _ _ _ _ _) as [[[? ?] d] fs1]. destruct H as [Hd Hc]; [done|].
    by apply store_calm.
  - destruct (beside o) eqn:Eb; [|done]. destruct (sound_good _ (inv_store _ Hi)) as [L Hg].
    apply store_calm; [done| |].
    + eapply (good_sound L). by apply perform_fine.
    + by apply calm_commands, beside_commands.
Qed.

Lemma promote_inv p k now fs1 fs2 w : inv w → inv (foldl (λ w e, act e w) w (promote p k now fs1 fs2)).
Proof.
  intros Hi. simpl.
  assert (promoteMark p k now fs2 w = w) as Hskip.
  { unfold promoteMark. destruct (procs w !! p) as [m|] eqn:Em; [|done].
    rewrite (inv_promoting w Hi p m Em). by rewrite bool_decide_eq_false_2 by set_solver. }
  unfold promoteCheck. destruct (procs w !! p) as [m|] eqn:Em; [|by rewrite Hskip].
  destruct (Get k.1 k.2 fs1 (store w)).2 as [[[e|] d0]|] eqn:Eg; try by rewrite Hskip.
  destruct (queues m !! k.1) as [q|]; [|by rewrite Hskip].
  destruct (negb _) eqn:Eq; [by rewrite Hskip|]. bool_facts.
  destruct (reserve true k.2 q) as [q'|]; [|by rewrite Hskip].
  assert (lookup k.1 k.2 (store w) = Some e) as Hl.
  { unfold Get, query in Eg. by destruct (fault fs1) as [[] ?]; simpl in Eg; simplify_eq. }
  unfold promoteMark, setProc. simpl. rewrite lookup_insert_eq. simpl.
  rewrite bool_decide_eq_true_2 by set_solver.
  rewrite (inv_promoting w Hi p m Em).
  pose proof (transition_spec k [Queued] Steering "" "" "" false now fs2 (store w) (inv_store _ Hi)) as H.
  destruct (transition _ _ _ _ _ _ _ _ _ _) as [[[changed err] d] fs3] eqn:Et. destruct H as [Hd H].
  pose proof (transition_changes k [Queued] Steering "" "" "" false now fs2 (store w) e Hl) as Hch.
  rewrite Et in Hch. case_bool_decide as Herr.
  - assert (changed = true) as ->.
    { apply Hch; [|done]. rewrite Eq. by apply list_elem_of_singleton. }
    destruct H as [[? _]|(_ & _ & _ & Ho & e' & He' & Hs)]; [done|]. rewrite insert_insert_eq.
    apply (proc_claim w p m _ d false k); try done.
    + intros (x & Hx & Hne). congruence.
    + exists e'. by rewrite Hs.
    + intros k' Hk'. destruct (decide (k' = k)) as [->|Hne]; [exists e'; by rewrite Hs|by apply Ho].
    + intros [] k'; simpl; [by left|]. intros [->%elem_of_singleton|?]%elem_of_union; [by right|by left].
    + simpl. set_solver.
  - destruct H as [[_ ->]|(_ & ? & _)]; [|done]. rewrite insert_insert_eq.
    apply (proc_calm w p m _ (store w)); try done.
    simpl. rewrite (inv_promoting w Hi p m Em). set_solver.
Qed.

(** Every check of a promotion is directly followed by its mark. *)
Fixpoint undisturbed (l : list hostEvent) : bool :=
  match l with
  | [] => true
  | EPromoteCheck p k _ :: EPromoteMark p' k' _ _ :: rest =>
      bool_decide (p = p') && bool_decide (k = k') && undisturbed rest
  | EPromoteCheck _ _ _ :: _ | EPromoteMark _ _ _ _ :: _ => false
  | _ :: rest => undisturbed rest
  end.

Lemma history_inv n l w : (length l ≤ n)%nat → undisturbed l = true → inv w → inv (foldl (λ w e, act e w) w l).
Proof.
  revert l w. induction n as [|n IH]; intros [|e l] w Hn Hl Hi; try done; simpl in Hn; try lia.
  destruct (promotes e) eqn:Ep.
  - destruct e; try done. destruct l as [|[] l]; try done. simpl in Hl, Hn. bool_facts. subst.
    rewrite (foldl_app _ (promote p0 k0 now fs fs0) l). apply IH; [simpl in Hn; lia|done|by apply promote_inv].
  - simpl. apply IH; [lia| |by apply act_inv]. by destruct e.
Qed.

(** ** The theorems *)

(** C13: A message is consumed at most once.  Whatever happens and in whatever
    order - messages sent again, turns that start, are deferred, lost, ended or
    steered, cancellations, sessions that close, statements and commits that
    fail, processes that crash and start again, a second process that opens the
    same store and recovers it under the first - no message is handed to an
    agent twice, and each one handed over has a row that is no longer waiting;
    provided that nothing comes between the two steps of a promotion. *)
Theorem consumed_at_most_once l :
  undisturbed l = true →
  let w := history sha256Hex keyJSON decodePayload decodeOrigin encodeAdmission marksJSON rowsJSON
    l newWorld in
  NoDup (handed w) ∧
  ∀ k, k ∈ handed w → ∃ e, lookup k.1 k.2 (store w) = Some e ∧ eState e ≠ Queued.
Proof. intros Hl. apply (history_inv (length l)); [done|done|apply inv_open]. Qed.

(** A failed write at the start of a turn strands its message: the message
    stays waiting in the store, but its worker is released, and it is in no
    queue of the process and has no run, so that nothing before the next
    restart can start it. *)
Theorem failed_start_strands p s now fs w m rid q :
  procs w !! p = Some m → runs m !! s = Some (rid, Taken) → queues m !! s = Some q →
  Forall (λ t, qid t ≠ rid) (a_wait q) → a_open q = true →
  let w' := begin p s now (true :: fs) w in
  store w' = store w ∧
  ∃ m' q', procs w' !! p = Some m' ∧ runs m' !! s = None ∧ queues m' !! s = Some q' ∧
    a_turn q' = None ∧ Forall (λ t, qid t ≠ rid) (a_wait q') ∧
    ∀ exclusive, reserve exclusive rid q' = None.
Proof.
  intros Hm Hr Hq Hw Ho w'. subst w'. unfold begin. rewrite Hm, Hr. simpl. split; [done|].
  eexists _, (endTurn q). unfold setProc. simpl. rewrite lookup_insert_eq. split; [done|]. simpl.
  rewrite lookup_delete_eq, lookup_alter_eq, Hq. split_and!; try done.
  - unfold endTurn. by rewrite Ho.
  - unfold endTurn. by rewrite Ho.
  - intros x. unfold reserve. destruct (x && _); [done|].
    destruct (list_find _ _) as [[i t]|] eqn:E; [|done].
    apply list_find_Some in E as (Hi & Ht & _).
    unfold endTurn in Hi. rewrite Ho in Hi. simpl in Hi. rewrite Forall_forall in Hw.
    by destruct (Hw t); [by eapply list_elem_of_lookup_2|].
Qed.
End Events.

(** ** The queue operations are those of [turn.go]

    Every operation of the host on the queue of a session is a step of the
    abstract queue, which the sessions refine ([TurnProps.turn_queue_refines]). *)
Definition aqueueStep (q q' : aqueue) : Prop := q' = q ∨ astep q q'.

Lemma submitTo_step id q : id ≠ "" → aqueueStep q (submitTo id q).2.
Proof.
  intros Hid. destruct q as [[] l turn h]; unfold submitTo; simpl; [|by left].
  destruct (negb (str_empty id) && _) eqn:E; [by left|].
  assert (¬ (turn = Some id) ∧ existsb (named_ id) l = false) as [Ht Hl].
  { unfold str_empty in E. rewrite bool_decide_eq_false_2 in E by done. simpl in E.
    apply orb_false_iff in E as [E1 E2]. by bool_facts. }
  destruct (_ <? _)%nat eqn:El; [right|by left]. apply Nat.ltb_lt in El. simpl. apply A_admit; [done..|].
  intros _. split; [done|]. intros u Hu Heq.
  assert (existsb (named_ id) l = true); [|congruence].
  apply existsb_exists. exists u. split; [by apply list_elem_of_In|]. by apply bool_decide_eq_true_2.
Qed.

Lemma takeNext_step q id q' : takeNext q = Some (id, q') → aqueueStep q q' ∧ a_turn q' = Some id.
Proof.
  destruct q as [o [|t l] turn h]; unfold takeNext; simpl; [done|].
  destruct (_ && _) eqn:E; [|done]. intros [= <- <-]. bool_facts. subst. split; [right|done].
  simpl. apply A_start. intros u Hu. destruct (qheld u) eqn:Eu; [|done].
  assert (existsb qheld (t :: l) = true); [|unfold anyHeld in *; simpl in *; congruence].
  apply existsb_exists. exists u. split; [by apply list_elem_of_In|done].
Qed.

Lemma reserve_step x id q q' : a_open q = true → reserve x id q = Some q' → aqueueStep q q'.
Proof.
  destruct q as [o l turn h]; simpl. intros ->. unfold reserve. simpl. destruct (x && _); [done|].
  destruct (list_find _ _) as [[i t]|] eqn:E; [|done]. apply list_find_Some in E as (Hi & _ & _).
  destruct (qheld t) eqn:Et; [done|]. intros [= <-]. right. by apply (A_reserve l i t).
Qed.

Lemma finishReservation_step id remove q : a_open q = true → aqueueStep q (finishReservation id remove q).
Proof.
  destruct q as [o l turn h]; simpl. intros ->. unfold finishReservation. simpl.
  destruct (list_find _ _) as [[i t]|] eqn:E; [|by left]. apply list_find_Some in E as (Hi & _ & _).
  destruct (qheld t) eqn:Et; simpl; [|by left]. right. destruct remove; [by apply (A_resolve l i t)|by apply (A_keep l i t)].
Qed.


(** ** Concrete histories *)
Notation plainHistory := (history id plainKey noAdmission noOrigin anyAdmission anyMarks anyRows).
Definition m1 : mid := ("s", "r1").


(** A history with a fault, a defer, a crash and two messages. *)
Definition busyDay : list hostEvent :=
  [EStart 1 ["s"] 0 []; EAccept 1 (message "s" "r1" "hello") 1 []; EAccept 1 (message "s" "r2" "more") 1 [];
   ETake 1 "s"; EBegin 1 "s" 2 []; ESubmit 1 "s" true; EDefer 1 "s" 3 [];
   ETake 1 "s"; EBegin 1 "s" 4 []; ESubmit 1 "s" false]
  ++ promote 1 ("s", "r2") 5 [] [] ++
  [ESteered 1 ("s", "r2") SteerAccepted "r1" "t1" "" 6 [];
   EStart 2 ["s"] 7 []; EResume 2 8 []; ETake 2 "s"; EBegin 2 "s" 9 [];
   EEnd 1 "s" true true "" 10 []; ECrash 1; EStart 1 ["s"] 11 []; EResume 1 12 []].

Lemma consumed_at_most_once_witness :
  handed (plainHistory busyDay newWorld) = [m1; ("s", "r2")] ∧ NoDup (handed (plainHistory busyDay newWorld)).
Proof.
  split; [vm_compute; reflexivity|].
  assert (undisturbed busyDay = true) as Hu by (vm_compute; reflexivity).
  pose proof (consumed_at_most_once id plainKey noAdmission noOrigin anyAdmission anyMarks anyRows busyDay Hu)
    as [H _].
  exact H.
Defined.

(** Two messages wait; the first is taken and its start fails. *)
Definition beforeStart : World := plainHistory
  [EStart 1 ["s"] 0 []; EAccept 1 (message "s" "r1" "hello") 1 []; EAccept 1 (message "s" "r2" "more") 1 [];
   ETake 1 "s"] newWorld.

Lemma failed_start_strands_witness :
  store (begin 1 "s" 2 [true] beforeStart) = store beforeStart ∧
  eState <$> lookup "s" "r1" (store (begin 1 "s" 2 [true] beforeStart)) = Some Queued.
Proof.
  assert (∃ m q, procs beforeStart !! 1%nat = Some m ∧ runs m !! "s" = Some ("r1", Taken) ∧
    queues m !! "s" = Some q ∧ Forall (λ t, qid t ≠ "r1") (a_wait q) ∧ a_open q = true)
    as (m & q & Hm & Hr & Hq & Hw & Ho).
  { eexists _, _. split_and!; try (vm_compute; reflexivity). vm_compute. repeat constructor. done. }
  destruct (failed_start_strands 1 "s" 2 [] beforeStart m "r1" q Hm Hr Hq Hw Ho) as [H _].
  split; [exact H|vm_compute; reflexivity].
Defined.

