(* ===== verification/TaskContract.v ===== *)
(** * The frames of the task interface: [src/contracts/task-api/v1/contract.go]

    [Parse] reads a JSON text into a value: it bounds the size and the depth,
    and refuses duplicate keys, trailing values and unpaired surrogates.
    [wireNumbers] admits only safe integers.  Whether a text is JSON at all
    ([json.Valid]), whether it is UTF-8 and its tokens ([json.Decoder]) are
    arguments.  The compiled JSON Schema is third-party code and not modelled.

    A value keeps the members of an object in the order of the text, each
    number as its text, as [UseNumber] does. *)
From S2P Require Import Prelude Decimal.

Inductive json :=
  | JNull
  | JBool (b : bool)
  | JNumber (s : string)
  | JString (s : string)
  | JArray (l : list json)
  | JObject (m : list (string * json)).

(** Induction over the elements of arrays and the members of objects. *)
Section Induction.
Context (P : json → Prop) (Pnull : P JNull) (Pbool : ∀ b, P (JBool b)) (Pnum : ∀ s, P (JNumber s))
        (Pstr : ∀ s, P (JString s)) (Parr : ∀ l, Forall P l → P (JArray l))
        (Pobj : ∀ m, Forall (λ x, P x.2) m → P (JObject m)).

Fixpoint json_values (v : json) : P v :=
  match v with
  | JNull => Pnull
  | JBool b => Pbool b
  | JNumber s => Pnum s
  | JString s => Pstr s
  | JArray l => Parr l ((fix go l := match l return Forall P l with
                                     | [] => Forall_nil_2 _
                                     | x :: l => Forall_cons_2 _ _ _ (json_values x) (go l)
                                     end) l)
  | JObject m => Pobj m ((fix go m := match m return Forall (λ x, P x.2) m with
                                      | [] => Forall_nil_2 _
                                      | x :: m => Forall_cons_2 _ _ _ (json_values x.2) (go m)
                                      end) m)
  end.
End Induction.

(** ** Surrogates *)
Definition quote : Ascii.ascii := Ascii.ascii_of_nat 34.
Definition backslash : Ascii.ascii := Ascii.ascii_of_nat 92.
Definition letter_u : Ascii.ascii := Ascii.ascii_of_nat 117.
#[global] Instance ascii_eq_dec : EqDecision Ascii.ascii := Ascii.ascii_dec.

Definition hexDigit (a : Ascii.ascii) : option Z :=
  let n := Z.of_nat (Ascii.nat_of_ascii a) in
  if (48 <=? n) && (n <=? 57) then Some (n - 48)
  else if (97 <=? n) && (n <=? 102) then Some (n - 87)
  else if (65 <=? n) && (n <=? 70) then Some (n - 55)
  else None.

(** [strconv.ParseUint] of four characters in base 16. *)
Definition hex4 (a b c d : Ascii.ascii) : option Z :=
  x ← hexDigit a; y ← hexDigit b; z ← hexDigit c; w ← hexDigit d;
  Some (x * 4096 + y * 256 + z * 16 + w).

Definition high (n : Z) : bool := (0xd800 <=? n) && (n <=? 0xdbff).
Definition low (n : Z) : bool := (0xdc00 <=? n) && (n <=? 0xdfff).

(** The loop over the bytes; [inString]: the number of quotes so far is odd. *)
Fixpoint surrogatesFrom (inString : bool) (l : list Ascii.ascii) : bool :=
  match l with
  | [] => true
  | a :: l =>
      if bool_decide (a = quote) then surrogatesFrom (negb inString) l
      else if negb inString || negb (bool_decide (a = backslash)) then surrogatesFrom inString l
      else
        match l with
        | [] => false
        | e :: l =>
            if negb (bool_decide (e = letter_u)) then surrogatesFrom inString l
            else
              match l with
              | a :: b :: c :: d :: l =>
                  match hex4 a b c d with
                  | None => false
                  | Some n =>
                      if high n then
                        match l with
                        | x :: u :: a :: b :: c :: d :: l =>
                            if negb (bool_decide (x = backslash)) || negb (bool_decide (u = letter_u)) then false
                            else match hex4 a b c d with
                                 | Some n => if low n then surrogatesFrom inString l else false
                                 | None => false
                                 end
                        | _ => false
                        end
                      else if low n then false
                      else surrogatesFrom inString l
                  end
              | _ => false
              end
        end
  end.

Definition pairedSurrogates (raw : string) : bool := surrogatesFrom false (String.list_ascii_of_string raw).

(** ** Values from tokens *)
Inductive token :=
  | TOpenObject | TCloseObject | TOpenArray | TCloseArray
  | TNull | TBool (b : bool) | TNumber (s : string) | TString (s : string).

Definition maxDepth : Z := 64.

(** [readValue], with the loops over members and elements: [dec.More] is false
    at a closing delimiter, and any closing delimiter ends the loop.  Every
    call that reads no token is followed by one that does, so that two calls
    for each token suffice. *)
Fixpoint readValue (fuel : nat) (depth : Z) (ts : list token) : option (json * list token) :=
  match fuel with
  | O => None
  | S fuel =>
      if maxDepth <? depth then None
      else
        match ts with
        | [] => None
        | TNull :: ts => Some (JNull, ts)
        | TBool b :: ts => Some (JBool b, ts)
        | TNumber s :: ts => Some (JNumber s, ts)
        | TString s :: ts => Some (JString s, ts)
        | TOpenObject :: ts => readMembers fuel depth [] ts
        | TOpenArray :: ts => readElements fuel depth [] ts
        | TCloseObject :: _ | TCloseArray :: _ => None
        end
  end
with readMembers (fuel : nat) (depth : Z) (acc : list (string * json)) (ts : list token)
  : option (json * list token) :=
  match fuel with
  | O => None
  | S fuel =>
      match ts with
      | TCloseObject :: ts | TCloseArray :: ts => Some (JObject acc, ts)
      | TString s :: ts =>
          if bool_decide (s ∈ map fst acc) then None
          else
            match readValue fuel (depth + 1) ts with
            | Some (item, ts) => readMembers fuel depth (acc ++ [(s, item)]) ts
            | None => None
            end
      | _ => None
      end
  end
with readElements (fuel : nat) (depth : Z) (acc : list json) (ts : list token)
  : option (json * list token) :=
  match fuel with
  | O => None
  | S fuel =>
      match ts with
      | TCloseObject :: ts | TCloseArray :: ts => Some (JArray acc, ts)
      | [] => None
      | _ =>
          match readValue fuel (depth + 1) ts with
          | Some (item, ts) => readElements fuel depth (acc ++ [item]) ts
          | None => None
          end
      end
  end.

Definition MaxBytes : Z := 256 * 1024.

Section Parse.
Context (jsonValid utf8Valid : string → bool) (tokens : string → list token).

Definition Parse (raw : string) : option json :=
  if MaxBytes <? str_len raw then None
  else if negb (jsonValid raw) then None
  else if negb (utf8Valid raw) || negb (pairedSurrogates raw) then None
  else
    let ts := tokens raw in
    match readValue (2 * length ts + 1) 0 ts with
    | Some (v, []) => Some v
    | _ => None
    end.
End Parse.

(** ** Numbers on the wire *)

(** [strconv.ParseInt] in base 10. *)
Definition parseDigits (s : string) : option Z :=
  if negb (str_empty s) && forallb digit (String.list_ascii_of_string s) then Some (value 0 s) else None.
Definition ParseInt (s : string) : option Z :=
  let n :=
    match s with
    | String a rest =>
        if bool_decide (a = Ascii.ascii_of_nat 45) then Z.opp <$> parseDigits rest
        else if bool_decide (a = Ascii.ascii_of_nat 43) then parseDigits rest
        else parseDigits s
    | "" => None
    end in
  match n with
  | Some n => if (i64_min <=? n) && (n <=? i64_max) then Some n else None
  | None => None
  end.

Definition maxSafe : Z := 9007199254740991.
(** [strings.ContainsAny(s, ".eE")]. *)
Definition fractional (s : string) : bool :=
  existsb (λ a, bool_decide (Ascii.nat_of_ascii a ∈ [46; 101; 69]%nat)) (String.list_ascii_of_string s).

Definition safeNumber (s : string) : bool :=
  negb (fractional s) &&
  match ParseInt s with
  | Some n => negb (maxSafe <? n) && negb (n <? - maxSafe)
  | None => false
  end.

Fixpoint wireNumbers (v : json) : bool :=
  match v with
  | JNumber s => safeNumber s
  | JArray l => forallb wireNumbers l
  | JObject m => forallb (λ x, wireNumbers x.2) m
  | _ => true
  end.

(** ** What the parser accepts

    The tokens of a value, its height, and the values whose objects have no
    duplicate key. *)
Fixpoint render (v : json) : list token :=
  match v with
  | JNull => [TNull]
  | JBool b => [TBool b]
  | JNumber s => [TNumber s]
  | JString s => [TString s]
  | JArray l => TOpenArray :: concat (map render l) ++ [TCloseArray]
  | JObject m => TOpenObject :: concat (map (λ x, TString x.1 :: render x.2) m) ++ [TCloseObject]
  end.

Fixpoint height (v : json) : Z :=
  match v with
  | JArray l => foldr (λ x h, Z.max (1 + height x) h) 0 l
  | JObject m => foldr (λ x h, Z.max (1 + height x.2) h) 0 m
  | _ => 0
  end.

Fixpoint unique (v : json) : bool :=
  match v with
  | JArray l => forallb unique l
  | JObject m => bool_decide (NoDup (map fst m)) && forallb (λ x, unique x.2) m
  | _ => true
  end.

Definition fits (depth : Z) (v : json) : bool := unique v && (depth + height v <=? maxDepth).

Lemma render_head v : ∃ t ts, render v = t :: ts ∧ t ≠ TCloseArray ∧ t ≠ TCloseObject.
Proof. destruct v; simpl; eexists _, _; by split_and!. Qed.

Lemma height_nonneg v : 0 ≤ height v.
Proof.
  destruct v as [| | | |l|m]; simpl; try lia.
  - induction l; simpl; lia.
  - induction m; simpl; lia.
Qed.

Lemma fits_array depth l :
  fits depth (JArray l) = (depth <=? maxDepth) && forallb (fits (depth + 1)) l.
Proof.
  unfold fits. simpl. induction l as [|x l IH]; simpl.
  - by replace (depth + 0) with depth by lia; rewrite andb_true_r.
  - pose proof (height_nonneg x). set (h := foldr _ _ l) in *.
    assert ((depth + Z.max (1 + height x) h <=? maxDepth) =
            (depth + 1 + height x <=? maxDepth) && (depth + h <=? maxDepth)) as -> by lia.
    destruct (unique x), (depth + 1 + height x <=? maxDepth); simpl; rewrite ?andb_false_r; done.
Qed.

Lemma fits_object depth m :
  fits depth (JObject m) =
  bool_decide (NoDup (map fst m)) && ((depth <=? maxDepth) && forallb (λ x, fits (depth + 1) x.2) m).
Proof.
  pose proof (fits_array depth (map snd m)) as H. unfold fits in *. simpl in *.
  assert (∀ f : json → bool, forallb f (map snd m) = forallb (λ x, f x.2) m) as Hf.
  { intros f. clear H. induction m as [|x m IH]; simpl; [done|by rewrite IH]. }
  assert (foldr (λ x h, Z.max (1 + height x) h) 0 (map snd m)
          = foldr (λ x h, Z.max (1 + height x.2) h) 0 m) as Hh.
  { clear H Hf. induction m as [|x m IH]; simpl; [done|by rewrite IH]. }
  rewrite !Hf, Hh in H. rewrite <- H. by rewrite andb_assoc.
Qed.

(** No key of [m] is among [seen] or comes twice. *)
Fixpoint fresh (seen : list string) (m : list (string * json)) : bool :=
  match m with
  | [] => true
  | x :: m => negb (bool_decide (x.1 ∈ seen)) && fresh (seen ++ [x.1]) m
  end.

Lemma fresh_spec seen m :
  NoDup seen → fresh seen m = bool_decide (NoDup (seen ++ map fst m)).
Proof.
  revert seen. induction m as [|x m IH]; intros seen Hs; simpl.
  - by rewrite app_nil_r, bool_decide_eq_true_2.
  - case_bool_decide as Hin; simpl.
    + rewrite bool_decide_eq_false_2; [done|]. intros (_ & H & _)%NoDup_app. apply (H x.1 Hin). by left.
    + rewrite IH, <- app_assoc; [done|]. apply NoDup_app. split_and!; [done| |apply NoDup_singleton].
      by intros y Hy ->%list_elem_of_singleton.
Qed.

Definition reads (v : json) : Prop := ∀ fuel depth rest,
  (2 * length (render v) < fuel)%nat →
  readValue fuel depth (render v ++ rest) = if fits depth v then Some (v, rest) else None.

Lemma readElements_spec l : Forall reads l → ∀ fuel depth acc rest,
  (2 * length (concat (map render l)) + 1 < fuel)%nat →
  readElements fuel depth acc (concat (map render l) ++ TCloseArray :: rest) =
  if forallb (fits (depth + 1)) l then Some (JArray (acc ++ l), rest) else None.
Proof.
  induction 1 as [|x l Hx _ IH]; intros fuel depth acc rest Hf; (destruct fuel as [|fuel]; [lia|]).
  - simpl. by rewrite app_nil_r.
  - simpl in Hf. rewrite length_app in Hf. simpl map. simpl concat. rewrite <- app_assoc.
    destruct (render_head x) as (t & ts & Ht & Hc1 & Hc2).
    assert (0 < length (render x))%nat by (rewrite Ht; simpl; lia).
    pose proof (Hx fuel (depth + 1) (concat (map render l) ++ TCloseArray :: rest) ltac:(lia)) as E.
    rewrite Ht in *. clear Ht. simpl in E.
    destruct t; try done; simpl; rewrite E; clear E;
      (destruct (fits (depth + 1) x); simpl; [|done]; by rewrite IH, <- app_assoc by lia).
Qed.

Lemma readMembers_spec m : Forall (λ x, reads x.2) m → ∀ fuel depth acc rest,
  (2 * length (concat (map (λ x, TString x.1 :: render x.2) m)) + 1 < fuel)%nat →
  readMembers fuel depth acc (concat (map (λ x, TString x.1 :: render x.2) m) ++ TCloseObject :: rest) =
  if fresh (map fst acc) m && forallb (λ x, fits (depth + 1) x.2) m
  then Some (JObject (acc ++ m), rest) else None.
Proof.
  induction 1 as [|[k x] m Hx _ IH]; intros fuel depth acc rest Hf; (destruct fuel as [|fuel]; [lia|]).
  - simpl. by rewrite app_nil_r.
  - simpl in Hf, Hx. rewrite length_app in Hf. simpl. case_bool_decide as Hk; simpl; [done|].
    rewrite <- app_assoc, (Hx fuel (depth + 1)) by lia.
    destruct (fits (depth + 1) x); simpl; [|by rewrite andb_false_r].
    rewrite IH by lia. by rewrite map_app, <- app_assoc.
Qed.

Lemma reads_all v : reads v.
Proof.
  induction v as [|b|s|s|l IH|m IH] using json_values; intros fuel depth rest Hf;
    (destruct fuel as [|fuel]; [simpl in Hf; lia|]);
    try (unfold fits; simpl; destruct (maxDepth <? depth) eqn:E, (depth + 0 <=? maxDepth) eqn:E2; try done; lia).
  - simpl in *. rewrite length_app in Hf. simpl in Hf. rewrite <- app_assoc. simpl.
    rewrite readElements_spec by (done || lia). rewrite fits_array.
    destruct (maxDepth <? depth) eqn:E, (depth <=? maxDepth) eqn:E2; simpl; done || lia.
  - simpl in *. rewrite length_app in Hf. simpl in Hf. rewrite <- app_assoc. simpl.
    rewrite readMembers_spec by (done || lia). simpl. rewrite fits_object.
    rewrite fresh_spec by constructor. simpl.
    destruct (maxDepth <? depth) eqn:E, (depth <=? maxDepth) eqn:E2; simpl; try lia; try done.
    by rewrite andb_false_r.
Qed.

Section Exact.
Context (jsonValid utf8Valid : string → bool) (tokens : string → list token).
Notation Parse := (Parse jsonValid utf8Valid tokens).

(** C35: The parser is exact.  A text of at most 256 KiB that is JSON, UTF-8,
    free of unpaired surrogates and has the tokens of a value is read as that
    value if no object in it, at any depth, has a key twice and it is nested
    at most 64 deep; in every other case it is refused.  The fuel is enough. *)
Theorem Parse_exact raw v :
  tokens raw = render v →
  Parse raw =
    if (str_len raw <=? MaxBytes) && jsonValid raw && utf8Valid raw && pairedSurrogates raw &&
       unique v && (height v <=? 64)
    then Some v else None.
Proof.
  intros Ht. unfold TaskContract.Parse.
  destruct (MaxBytes <? str_len raw) eqn:E1, (str_len raw <=? MaxBytes) eqn:E2; try lia; [done|].
  destruct (jsonValid raw); [|done]. destruct (utf8Valid raw); [|done].
  destruct (pairedSurrogates raw); [|done]. cbv zeta. simpl negb. cbn iota.
  rewrite Ht. rewrite <- (app_nil_r (render v)) at 2.
  rewrite (reads_all v) by lia. unfold fits, maxDepth. simpl.
  replace (0 + height v) with (height v) by lia. by destruct (unique v && _).
Qed.
End Exact.

(** ** Numbers *)
Fixpoint numbers (v : json) : list string :=
  match v with
  | JNumber s => [s]
  | JArray l => concat (map numbers l)
  | JObject m => concat (map (λ x, numbers x.2) m)
  | _ => []
  end.

Lemma wireNumbers_forall v : wireNumbers v = forallb safeNumber (numbers v).
Proof.
  induction v as [|b|s|s|l IH|m IH] using json_values; simpl; try done.
  - by rewrite andb_true_r.
  - induction IH as [|x l Hx _ IH]; simpl; [done|]. by rewrite forallb_app, Hx, IH.
  - induction IH as [|x l Hx _ IH]; simpl; [done|]. by rewrite forallb_app, Hx, IH.
Qed.

Lemma numeral_plain s : numeral s → fractional s = false.
Proof.
  unfold numeral, fractional. induction 1 as [|a l Ha _ IH]; simpl; [done|]. rewrite IH, orb_false_r.
  apply bool_decide_eq_false_2. unfold digit in Ha. intros H.
  rewrite !elem_of_cons, elem_of_nil in H. destruct H as [H|[H|[H|[]]]]; rewrite H in Ha; done.
Qed.

Lemma parseDigits_decimal n : 0 ≤ n → parseDigits (decimal n) = Some n.
Proof.
  intros Hn. destruct (decimal_value n Hn) as [H1 H2]. unfold parseDigits.
  assert (str_empty (decimal n) = false) as ->.
  { unfold str_empty. apply bool_decide_eq_false_2. intros E. rewrite E in H2. simpl in H2. subst n.
    by vm_compute in E. }
  assert (forallb digit (String.list_ascii_of_string (decimal n)) = true) as ->.
  { apply forallb_forall. intros a Ha%list_elem_of_In. unfold numeral in H1. rewrite Forall_forall in H1. auto. }
  simpl. by rewrite H2.
Qed.

Lemma numeral_head a s : numeral (String a s) → a ≠ Ascii.ascii_of_nat 45 ∧ a ≠ Ascii.ascii_of_nat 43.
Proof. intros H. apply Forall_inv in H. split; intros ->; by vm_compute in H. Qed.

Lemma safe_decimal n : 0 ≤ n ≤ maxSafe → safeNumber (decimal n) = true ∧ ParseInt (decimal n) = Some n.
Proof.
  intros [Hn Hm]. destruct (decimal_value n Hn) as [H1 H2].
  assert (ParseInt (decimal n) = Some n) as HP.
  { pose proof (parseDigits_decimal n Hn) as Hd. unfold ParseInt. unfold maxSafe in Hm.
    destruct (decimal n) as [|a s] eqn:E; [done|].
    destruct (numeral_head a s H1). rewrite !bool_decide_eq_false_2 by done. rewrite Hd.
    unfold i64_min, i64_max. destruct (_ && _) eqn:Eb; [done|]. lia. }
  split; [|done]. unfold safeNumber. rewrite HP, numeral_plain by done. unfold maxSafe in *. simpl. lia.
Qed.

Lemma decimal_neg n : 0 < n → decimal (- n) = String (Ascii.ascii_of_nat 45) (decimal n).
Proof. destruct n; done. Qed.

(** What passes as a number on the wire is an integer of at most 53 bits,
    anywhere in a value, and every such integer passes and is read back from
    its decimal text, negative ones included. *)
Theorem wire_numbers_are_safe v :
  (wireNumbers v = true → ∀ s, s ∈ numbers v →
     fractional s = false ∧ ∃ n, ParseInt s = Some n ∧ - (2 ^ 53 - 1) ≤ n ≤ 2 ^ 53 - 1) ∧
  (∀ n, - (2 ^ 53 - 1) ≤ n ≤ 2 ^ 53 - 1 →
     wireNumbers (JNumber (decimal n)) = true ∧ ParseInt (decimal n) = Some n).
Proof.
  split.
  - rewrite wireNumbers_forall. intros H s Hs%list_elem_of_In. rewrite forallb_forall in H.
    specialize (H s Hs). unfold safeNumber, maxSafe in H. destruct (fractional s); [done|].
    destruct (ParseInt s) as [n|]; [|done]. simpl in H. split; [done|]. exists n. split; [done|lia].
  - intros n Hn. simpl. destruct (decide (0 ≤ n)) as [H0|H0]; [apply safe_decimal; unfold maxSafe; lia|].
    destruct (decimal_value (- n)) as [H1 H2]; [lia|].
    replace n with (- (- n)) at 1 2 by lia. rewrite decimal_neg by lia.
    assert (ParseInt (String (Ascii.ascii_of_nat 45) (decimal (- n))) = Some n) as HP.
    { unfold ParseInt. rewrite bool_decide_eq_true_2 by done. rewrite parseDigits_decimal by lia.
      simpl. replace (- - n) with n by lia.
      unfold i64_min, i64_max. destruct (_ && _) eqn:Eb; [done|]. lia. }
    split; [|done]. unfold safeNumber. rewrite HP. unfold maxSafe. simpl.
    assert (fractional (String (Ascii.ascii_of_nat 45) (decimal (- n))) = false) as ->.
    { pose proof (numeral_plain _ H1) as Hp. unfold fractional in *. simpl. by rewrite Hp. }
    simpl. lia.
Qed.

(** ** Examples *)
Definition sample : json := JObject [("a", JArray [JNumber "1"; JNull]); ("b", JString "x")].

Lemma Parse_exact_witness :
  Parse (λ _, true) (λ _, true) (λ _, render sample) "text" = Some sample ∧
  Parse (λ _, true) (λ _, true) (λ _, render (JObject [("a", JNull); ("a", JNull)])) "text" = None.
Proof.
  split.
  - exact (Parse_exact (λ _, true) (λ _, true) (λ _, render sample) "text" sample eq_refl).
  - exact (Parse_exact (λ _, true) (λ _, true) (λ _, render (JObject [("a", JNull); ("a", JNull)])) "text"
      (JObject [("a", JNull); ("a", JNull)]) eq_refl).
Defined.

Lemma wire_numbers_are_safe_witness :
  wireNumbers (JArray [JNumber "9007199254740991"]) = true ∧
  (∃ n, ParseInt "9007199254740991" = Some n ∧ - (2 ^ 53 - 1) ≤ n ≤ 2 ^ 53 - 1) ∧
  wireNumbers (JNumber "9007199254740992") = false ∧ wireNumbers (JNumber "1.0") = false.
Proof.
  split; [reflexivity|]. split; [|split; reflexivity].
  destruct (wire_numbers_are_safe (JArray [JNumber "9007199254740991"])) as [H _].
  apply (H eq_refl). left.
Defined.
