(* ===== verification/Base64.v ===== *)
(** * Base64 of cursors, and [strings.Split]

    [base64.RawURLEncoding] of the standard library as the cursors use it: the
    URL alphabet, no padding, and the decoder's tolerance: it skips line ends
    and ignores the unused bits of the last character. *)
From S2P Require Import Prelude Decimal.

Definition byte (a : Ascii.ascii) : Z := Z.of_nat (Ascii.nat_of_ascii a).
Definition char (n : Z) : Ascii.ascii := Ascii.ascii_of_nat (Z.to_nat n).
Definition is_byte (n : Z) : Prop := 0 ≤ n < 256.
Definition is_sextet (n : Z) : Prop := 0 ≤ n < 64.

Lemma byte_range a : is_byte (byte a).
Proof. unfold is_byte, byte. pose proof (Ascii.nat_ascii_bounded a). lia. Qed.
Lemma char_byte a : char (byte a) = a.
Proof. unfold char, byte. rewrite Nat2Z.id. apply Ascii.ascii_nat_embedding. Qed.
Lemma byte_char n : is_byte n → byte (char n) = n.
Proof. unfold is_byte, byte, char. intros H. rewrite Ascii.nat_ascii_embedding; lia. Qed.

(** ** Sextets *)
Fixpoint sextets (l : list Z) : list Z :=
  match l with
  | a :: b :: c :: l =>
      [a / 4; (a mod 4) * 16 + b / 16; (b mod 16) * 4 + c / 64; c mod 64] ++ sextets l
  | [a; b] => [a / 4; (a mod 4) * 16 + b / 16; (b mod 16) * 4]
  | [a] => [a / 4; (a mod 4) * 16]
  | [] => []
  end.

Fixpoint octets (l : list Z) : option (list Z) :=
  match l with
  | s :: t :: u :: v :: l =>
      rest ← octets l;
      Some ([s * 4 + t / 16; (t mod 16) * 16 + u / 4; (u mod 4) * 64 + v] ++ rest)
  | [s; t; u] => Some [s * 4 + t / 16; (t mod 16) * 16 + u / 4]
  | [s; t] => Some [s * 4 + t / 16]
  | [_] => None
  | [] => Some []
  end.

(** Lists three elements at a time. *)
Lemma by_threes {A} (P : list A → Prop) :
  P [] → (∀ a, P [a]) → (∀ a b, P [a; b]) → (∀ a b c l, P l → P (a :: b :: c :: l)) → ∀ l, P l.
Proof.
  intros H0 H1 H2 H3 l. assert (P l ∧ (∀ a, P (a :: l)) ∧ (∀ a b, P (a :: b :: l))) as [H _]; [|done].
  induction l as [|x l (IH1 & IH2 & IH3)]; split_and!; auto.
Qed.

Ltac euclid := repeat split; Z.to_euclidean_division_equations; lia.

Lemma sextets_range l : Forall is_byte l → Forall is_sextet (sextets l).
Proof.
  unfold is_byte, is_sextet. induction l as [|a|a b|a b c l IH] using by_threes; intros H; simpl.
  - constructor.
  - inv H. repeat constructor; euclid.
  - inv H. match goal with H : Forall _ [b] |- _ => inv H end. repeat constructor; euclid.
  - inv H. do 2 (match goal with H : Forall _ (_ :: _ :: _) |- _ => inv H end || idtac).
    match goal with H : Forall _ (c :: l) |- _ => inv H end.
    repeat (constructor; [euclid|]). auto.
Qed.

Lemma octets_sextets l : Forall is_byte l → octets (sextets l) = Some l.
Proof.
  unfold is_byte. induction l as [|a|a b|a b c l IH] using by_threes; intros H; simpl.
  - done.
  - inv H. repeat f_equal; euclid.
  - inv H. match goal with H : Forall _ [b] |- _ => inv H end. repeat f_equal; euclid.
  - inv H. match goal with H : Forall _ (b :: c :: l) |- _ => inv H end.
    match goal with H : Forall _ (c :: l) |- _ => inv H end. rewrite IH by done. simpl.
    repeat f_equal; euclid.
Qed.

(** ** The alphabet *)
Definition letter (n : Z) : Ascii.ascii :=
  char (if n <? 26 then 65 + n else if n <? 52 then 71 + n else if n <? 62 then n - 4
        else if n =? 62 then 45 else 95).
Definition sextet (a : Ascii.ascii) : option Z :=
  let n := byte a in
  if (65 <=? n) && (n <=? 90) then Some (n - 65)
  else if (97 <=? n) && (n <=? 122) then Some (n - 71)
  else if (48 <=? n) && (n <=? 57) then Some (n + 4)
  else if n =? 45 then Some 62
  else if n =? 95 then Some 63
  else None.

Definition line_end (a : Ascii.ascii) : bool := (byte a =? 10) || (byte a =? 13).
Definition dot : Ascii.ascii := Ascii.ascii_of_nat 46.

Lemma sextet_letter n :
  is_sextet n → sextet (letter n) = Some n ∧ line_end (letter n) = false ∧ letter n ≠ dot.
Proof.
  unfold is_sextet. intros H.
  assert (byte (letter n) = if n <? 26 then 65 + n else if n <? 52 then 71 + n else if n <? 62 then n - 4
        else if n =? 62 then 45 else 95) as Hb.
  { unfold letter. apply byte_char. unfold is_byte. repeat case_match; lia. }
  split_and!.
  - unfold sextet. rewrite Hb. repeat case_match; try (f_equal; lia); lia.
  - unfold line_end. rewrite Hb. repeat case_match; lia.
  - intros E. rewrite E in Hb. change (byte dot) with 46 in Hb. repeat case_match; lia.
Qed.

(** ** Texts *)
Definition encodeBytes (l : list Ascii.ascii) : list Ascii.ascii := map letter (sextets (map byte l)).
Definition decodeBytes (l : list Ascii.ascii) : option (list Ascii.ascii) :=
  ss ← mapM sextet (filter (λ a, line_end a = false) l);
  bs ← octets ss;
  Some (map char bs).

Definition EncodeToString (s : string) : string :=
  String.string_of_list_ascii (encodeBytes (String.list_ascii_of_string s)).
Definition DecodeString (s : string) : option string :=
  String.string_of_list_ascii <$> decodeBytes (String.list_ascii_of_string s).

Lemma encodeBytes_letters l :
  Forall (λ a, sextet a ≠ None ∧ line_end a = false ∧ a ≠ dot) (encodeBytes l).
Proof.
  unfold encodeBytes. apply Forall_map. eapply Forall_impl.
  - apply sextets_range. apply Forall_map, Forall_true. intros. apply byte_range.
  - intros n Hn. destruct (sextet_letter n Hn) as (H & ? & ?). simpl. by rewrite H.
Qed.

Lemma decode_encode l : decodeBytes (encodeBytes l) = Some l.
Proof.
  assert (Forall is_byte (map byte l)) as Hb by (apply Forall_map, Forall_true; intros; apply byte_range).
  unfold decodeBytes. rewrite filter_all.
  2:{ eapply Forall_impl; [apply encodeBytes_letters|]. by intros a (_ & ? & _). }
  assert (mapM sextet (encodeBytes l) = Some (sextets (map byte l))) as ->.
  { unfold encodeBytes. pose proof (sextets_range _ Hb) as H. induction H as [|n ns Hn _ IH]; [done|].
    simpl. rewrite (proj1 (sextet_letter n Hn)). simpl. by rewrite IH. }
  simpl. rewrite octets_sextets by done. simpl. f_equal. rewrite map_map.
  rewrite <- (map_id l) at 2. apply map_ext. intros. apply char_byte.
Qed.

Lemma DecodeString_Encode s : DecodeString (EncodeToString s) = Some s.
Proof.
  unfold DecodeString, EncodeToString. rewrite String.list_ascii_of_string_of_list_ascii, decode_encode.
  simpl. by rewrite String.string_of_list_ascii_of_string.
Qed.

(** ** [strings.Split] at a byte *)
Fixpoint splitList (sep : Ascii.ascii) (l : list Ascii.ascii) : list (list Ascii.ascii) :=
  match l with
  | [] => [[]]
  | a :: l =>
      if Ascii.eqb a sep then [] :: splitList sep l
      else match splitList sep l with
           | part :: parts => (a :: part) :: parts
           | [] => [[a]]
           end
  end.
Definition Split (s : string) (sep : Ascii.ascii) : list string :=
  map String.string_of_list_ascii (splitList sep (String.list_ascii_of_string s)).

Lemma splitList_none sep l : sep ∉ l → splitList sep l = [l].
Proof.
  induction l as [|a l IH]; intros H; simpl; [done|].
  destruct (Ascii.eqb_spec a sep) as [->|]; [destruct H; by left|]. rewrite IH; [done|].
  intros Hin. apply H. by right.
Qed.
Lemma splitList_at sep a b : sep ∉ a → splitList sep (a ++ sep :: b) = a :: splitList sep b.
Proof.
  induction a as [|x a IH]; intros H; simpl.
  - by rewrite Ascii.eqb_refl.
  - destruct (Ascii.eqb_spec x sep) as [->|]; [destruct H; by left|]. rewrite IH; [done|].
    intros Hin. apply H. by right.
Qed.

Lemma encode_no_dot s : dot ∉ String.list_ascii_of_string (EncodeToString s).
Proof.
  unfold EncodeToString. rewrite String.list_ascii_of_string_of_list_ascii. intros H.
  pose proof (encodeBytes_letters (String.list_ascii_of_string s)) as HF.
  rewrite Forall_forall in HF. by apply (HF dot H).
Qed.

(** A token of two encoded parts splits into them. *)
Lemma Split_token s t :
  Split (EncodeToString s +:+ String dot (EncodeToString t)) dot = [EncodeToString s; EncodeToString t].
Proof.
  unfold Split. change (?a +:+ ?b) with (String.append a b). rewrite append_list. simpl.
  rewrite splitList_at, splitList_none by apply encode_no_dot. simpl.
  by rewrite !String.string_of_list_ascii_of_string.
Qed.
