(* ===== verification/TaskCursor.v ===== *)
(** * Cursors and pages of the task interface: [src/internal/taskapi/cursor.go]

    [encode] and [decode]: a cursor is a signed text of a payload that names
    its kind, the schema, the scope of its reader, a frozen snapshot and the
    place reached in it.  [Page]: one page of a frozen snapshot, from a source
    that freezes rows and reads them back.

    HMAC-SHA256 under the codec's secret, the JSON text of a payload, its
    strict decoder and the tokens of a JSON text are arguments, as is the
    clock. *)
From S2P Require Import Prelude Orders Sql TaskJournal TaskContract Base64.

Record cursorPayload := mkPayload {
  pKind : string; pSchema : string; pScope : ReadScope; pFreeze : Freeze;
  pAfter : string; pViews : list string }.
#[export] Instance cursorPayload_eta : Eta cursorPayload := λ p,
  mkPayload (pKind p) (pSchema p) (pScope p) (pFreeze p) (pAfter p) (pViews p).
#[global] Instance Watermark_eq_dec : EqDecision Watermark.
Proof. solve_decision. Defined.
#[global] Instance ReadScope_eq_dec : EqDecision ReadScope.
Proof. solve_decision. Defined.
#[global] Instance Freeze_eq_dec : EqDecision Freeze.
Proof. solve_decision. Defined.
#[global] Instance cursorPayload_eq_dec : EqDecision cursorPayload.
Proof. solve_decision. Defined.

Definition invalidArgument : Err := APIError "invalid_argument" "known_none" "correct_input".
Definition unknownAcceptance : Err := APIError "unknown_acceptance" "unknown" "refresh_snapshot".
Definition maxToken : Z := 16000.

(** ** Where frozen rows come from

    [SnapshotSource]: a source over a world [W].  [Capture] freezes the rows of
    a scope; [PageRows] reads those after a key, and whether there are more. *)
Class SnapshotSource (W : Type) := {
  Capture : ReadScope → W → (Freeze + Err) * W;
  PageRows : ReadScope → Freeze → string → Z → W → list SnapshotRow * bool + Err }.

(** The page of [rows] after the key [after]. *)
Definition pageOf (rows : list SnapshotRow) (after : string) (limit : Z) : list SnapshotRow * bool :=
  let out := filter (λ r, String.ltb after (rowKey r) = true) rows in
  (take (Z.to_nat limit) out, limit <? Z.of_nat (length out)).

(** What a source promises of a freeze with [rows]: every page of it is a page
    of [rows], or an error. *)
Definition serves `{SnapshotSource W} (scope : ReadScope) (f : Freeze) (rows : list SnapshotRow) (w : W) : Prop :=
  ∀ after limit, 0 < limit →
    PageRows scope f after limit w = inl (pageOf rows after limit) ∨
    ∃ e, PageRows scope f after limit w = inr e.
Definition serving `{SnapshotSource W} (scope : ReadScope) (f : Freeze) (rows : list SnapshotRow) (w : W) : Prop :=
  ∀ after limit, 0 < limit → PageRows scope f after limit w = inl (pageOf rows after limit).

Record SnapshotPage := mkPage {
  Coverage : string; PageItems : list string; PageViews : list string; Marks : list Watermark;
  EventsCursor : string; NextPageCursor : string; HasMore : bool; Partial : bool;
  FreezeID : string; PageExpires : Z }.

Section Codec.
Context (hmac : string → string) (marshal : cursorPayload → string)
        (unmarshal : string → option cursorPayload)
        (jsonValid utf8Valid : string → bool) (tokens : string → list token) (schemaHash : string).

Definition signed (body : string) : string := body +:+ String dot (EncodeToString (hmac body)).

Definition encode (p : cursorPayload) : string + Err :=
  let token := signed (EncodeToString (marshal p)) in
  if maxToken <? str_len token then inr invalidArgument else inl token.

Definition decode (tok : string) (scope : ReadScope) (kind : string) (now : Z) : cursorPayload + Err :=
  if maxToken <? str_len tok then inr cursorExpired
  else
    match Split tok dot with
    | [body; sig] =>
        match DecodeString sig with
        | None => inr cursorExpired
        | Some mac =>
            if negb (bool_decide (mac = hmac body)) then inr cursorExpired
            else
              match DecodeString body with
              | None => inr cursorExpired
              | Some raw =>
                  match Parse jsonValid utf8Valid tokens raw with
                  | None => inr cursorExpired
                  | Some _ =>
                      match unmarshal raw with
                      | None => inr cursorExpired
                      | Some p =>
                          if negb (bool_decide (pKind p = kind)) || negb (bool_decide (pSchema p = schemaHash)) ||
                             negb (bool_decide (pScope p = scope)) || str_empty (fID (pFreeze p)) ||
                             (ExpiresAt (pFreeze p) <=? now)
                          then inr cursorExpired
                          else inl p
                      end
                  end
              end
        end
    | _ => inr cursorExpired
    end.

Definition EventWatermarks (tok : string) (scope : ReadScope) (now : Z) : list Watermark + Err :=
  match decode tok scope "events" now with
  | inl p => inl (Watermarks (pFreeze p))
  | inr e => inr e
  end.
Definition EventsFromWatermarks (scope : ReadScope) (marks : list Watermark) (expires : Z) : string + Err :=
  encode (mkPayload "events" schemaHash scope (mkFreeze "event-stream" expires marks) "" []).

(** ** Pages *)

(** [strings.Join(views, "\x00")]. *)
Definition nul : string := String (Ascii.ascii_of_nat 0) "".
Definition joinViews (views : list string) : string := String.concat nul views.

(** The stores of a vector are named and different. *)
Fixpoint properMarks (seen : list string) (marks : list Watermark) : bool :=
  match marks with
  | [] => true
  | m :: marks =>
      negb (str_empty (Store m)) && negb (bool_decide (Store m ∈ seen)) && properMarks (Store m :: seen) marks
  end.

(** Each key is not empty and above the last. *)
Fixpoint ascending (last : string) (rows : list SnapshotRow) : option string :=
  match rows with
  | [] => Some last
  | r :: rows =>
      if str_empty (rowKey r) || String.leb (rowKey r) last then None else ascending (rowKey r) rows
  end.

Definition lists_children (views : list string) : bool := bool_decide ("source_children" ∈ views).

Context `{SnapshotSource W}.

(** The page of a cursor that was read, or of a new snapshot. *)
Definition pageAt (scope : ReadScope) (p : cursorPayload) (limit now : Z) (w : W) : SnapshotPage + Err :=
  if str_empty (fID (pFreeze p)) || (ExpiresAt (pFreeze p) <=? now) then inr cursorExpired
  else if negb (properMarks [] (Watermarks (pFreeze p))) then inr unknownAcceptance
  else
    match PageRows scope (pFreeze p) (pAfter p) limit w with
    | inr e => inr e
    | inl (rows, more) =>
        if (limit <? Z.of_nat (length rows)) || (more && bool_decide (rows = [])) then inr unknownAcceptance
        else
          match ascending (pAfter p) rows with
          | None => inr unknownAcceptance
          | Some last =>
              match encode (mkPayload "events" (pSchema p) scope (pFreeze p) "" []) with
              | inr e => inr e
              | inl events =>
                  let children := lists_children (pViews p) in
                  let page next :=
                    mkPage (if children then "trusted_relations_only" else "not_requested")
                      (map rowValue rows) (pViews p) (Watermarks (pFreeze p)) events next more children
                      (fID (pFreeze p)) (ExpiresAt (pFreeze p)) in
                  if more : bool then
                    match encode (p <| pAfter := last |>) with
                    | inl next => inl (page next)
                    | inr e => inr e
                    end
                  else inl (page "")
              end
          end
    end.

Definition Page (scope : ReadScope) (views : list string) (tok : string) (limit now : Z) (w : W)
  : (SnapshotPage + Err) * W :=
  if (limit <? 1) || (100 <? limit) || str_empty (rsAuthority scope) || str_empty (rsScopeID scope) ||
     str_empty (FilterHash scope)
  then (inr invalidArgument, w)
  else if str_empty tok then
    let '(captured, w) := Capture scope w in
    match captured with
    | inr e => (inr e, w)
    | inl f => (pageAt scope (mkPayload "snapshot" schemaHash scope f "" views) limit now w, w)
    end
  else
    match decode tok scope "snapshot" now with
    | inr e => (inr e, w)
    | inl p =>
        if negb (bool_decide (joinViews (pViews p) = joinViews views)) then (inr cursorExpired, w)
        else (pageAt scope p limit now w, w)
    end.
End Codec.
