(* ===== verification/TaskPages.v ===== *)
(** * Theorems of cursors and pages

    A cursor is accepted for what it was made for; the pages of a snapshot are
    a partition of its frozen rows. *)
From S2P Require Import Prelude Orders Sql TaskJournal TaskContract Base64 TaskCursor.

(** ** The order of keys *)
Lemma leb_ltb a b : String.leb a b = negb (String.ltb b a).
Proof.
  unfold String.leb, String.ltb. rewrite (String.compare_antisym b a).
  by destruct (String.compare a b).
Qed.
Lemma ltb_empty a : String.ltb a "" = false.
Proof. by destruct a. Qed.
Lemma str_lt_trans a b c : str_lt a b → str_lt b c → str_lt a c.
Proof. unfold str_lt. apply String_ltb_trans. Qed.
Lemma str_lt_irrefl a : ¬ str_lt a a.
Proof. unfold str_lt. by rewrite String_ltb_irrefl. Qed.
Lemma str_lt_asym a b : str_lt a b → String.ltb b a = false.
Proof.
  intros H. destruct (String.ltb b a) eqn:E; [|done].
  exfalso. apply (str_lt_irrefl a). by eapply str_lt_trans.
Qed.

(** Rows in the order of their keys. *)
Definition sorted (rows : list SnapshotRow) : Prop := StronglySorted str_lt (map rowKey rows).
Definition above (a : string) (rows : list SnapshotRow) : list SnapshotRow :=
  filter (λ r, String.ltb a (rowKey r) = true) rows.

Lemma sorted_cons r rows :
  sorted (r :: rows) ↔ sorted rows ∧ Forall (λ x, str_lt (rowKey r) (rowKey x)) rows.
Proof.
  unfold sorted. simpl. rewrite <- (List.Forall_map rowKey (str_lt (rowKey r))). split.
  - intros H. by inv H.
  - intros [? ?]. by constructor.
Qed.

Lemma sorted_above a rows : sorted rows → sorted (above a rows).
Proof.
  unfold above. induction rows as [|r rows IH]; intros H; [done|]. apply sorted_cons in H as [H1 H2].
  rewrite filter_cons. case_decide; [|auto]. apply sorted_cons. split; [auto|].
  rewrite Forall_forall in *. intros x [_ Hx]%list_elem_of_filter. auto.
Qed.

Lemma above_split l1 x l2 : sorted (l1 ++ x :: l2) → above (rowKey x) (l1 ++ x :: l2) = l2.
Proof.
  unfold above. induction l1 as [|y l1 IH]; simpl; intros [H1 H2]%sorted_cons.
  - rewrite filter_cons, String_ltb_irrefl. simpl. by apply filter_all.
  - apply Forall_app in H2 as [_ [H2 _]%Forall_cons].
    rewrite filter_cons, decide_False; [auto|]. by rewrite (str_lt_asym _ _ H2).
Qed.

Lemma above_above a b rows : str_lt a b → above b (above a rows) = above b rows.
Proof.
  intros Hab. unfold above. induction rows as [|r rows IH]; [done|].
  rewrite !filter_cons. destruct (decide (String.ltb a (rowKey r) = true)) as [Ha|Ha].
  - rewrite filter_cons. case_decide; by rewrite ?IH.
  - rewrite decide_False; [done|]. intros Hb. apply Ha. by apply (String_ltb_trans a b).
Qed.

(** The rows after a page are the rest of its rows. *)
Lemma above_next a rows n r :
  sorted rows → above a rows !! n = Some r → above (rowKey r) rows = drop (S n) (above a rows).
Proof.
  intros Hs Hr. assert (str_lt a (rowKey r)) as Hlt.
  { apply list_elem_of_lookup_2 in Hr. apply list_elem_of_filter in Hr. apply Hr. }
  rewrite <- (above_above a (rowKey r)) by done.
  pose proof (sorted_above a rows Hs) as Hs'. rewrite <- (take_drop_middle _ _ _ Hr) in Hs' at 1.
  rewrite <- (take_drop_middle _ _ _ Hr) at 1. by apply above_split.
Qed.

Lemma ascending_sorted a rows :
  sorted rows → Forall (λ r, str_lt a (rowKey r)) rows →
  ascending a rows = Some (default a (rowKey <$> last rows)).
Proof.
  revert a. induction rows as [|r rows IH]; intros a Hs Ha; [done|].
  apply sorted_cons in Hs as [H1 H2]. apply Forall_cons in Ha as [H3 _]. simpl.
  assert (str_empty (rowKey r) = false) as ->.
  { unfold str_empty. apply bool_decide_eq_false_2. intros E. rewrite E in H3.
    unfold str_lt in H3. by rewrite ltb_empty in H3. }
  rewrite leb_ltb, H3. simpl. rewrite IH by done.
  rewrite last_cons. by destruct (last rows).
Qed.

Section Codec.
Context (hmac : string → string) (marshal : cursorPayload → string)
        (unmarshal : string → option cursorPayload)
        (jsonValid utf8Valid : string → bool) (tokens : string → list token) (schemaHash : string).
Notation Parse := (Parse jsonValid utf8Valid tokens).
Notation encode := (encode hmac marshal).
Notation decode := (decode hmac unmarshal jsonValid utf8Valid tokens schemaHash).
Notation EventWatermarks := (EventWatermarks hmac unmarshal jsonValid utf8Valid tokens schemaHash).

(** The payload's text is read back: what [encoding/json] does with valid UTF-8. *)
Definition readsBack (p : cursorPayload) : Prop :=
  Parse (marshal p) ≠ None ∧ unmarshal (marshal p) = Some p.

(** Whether a cursor of payload [p] is good for a reader. *)
Definition goodFor (p : cursorPayload) (scope : ReadScope) (kind : string) (now : Z) : bool :=
  bool_decide (pKind p = kind) && bool_decide (pSchema p = schemaHash) && bool_decide (pScope p = scope) &&
  negb (str_empty (fID (pFreeze p))) && (now <? ExpiresAt (pFreeze p)).

Lemma cursor_read p tok scope kind now :
  readsBack p → encode p = inl tok →
  decode tok scope kind now = if goodFor p scope kind now then inl p else inr cursorExpired.
Proof.
  intros [Hp Hu] He. unfold TaskCursor.encode in He. destruct (_ <? _) eqn:El; [done|]. injection He as <-.
  unfold TaskCursor.decode. rewrite El. unfold signed. rewrite Split_token, !DecodeString_Encode.
  rewrite bool_decide_eq_true_2 by done. simpl. destruct (Parse (marshal p)); [|done]. rewrite Hu.
  unfold goodFor. destruct (str_empty _), (Z.ltb_spec now (ExpiresAt (pFreeze p))), (Z.leb_spec (ExpiresAt (pFreeze p)) now);
    try lia; by repeat case_bool_decide.
Qed.

(** A cursor is accepted exactly for what it was made for: the reader with
    its scope (instance, caller, generation and filter), the kind of read, the
    present schema, until it expires; and it then gives the payload it was
    made of.  Every other use has the one error that asks for a new snapshot. *)
Theorem cursor_is_bound p tok scope kind now :
  readsBack p → encode p = inl tok →
  decode tok scope kind now =
    if bool_decide (pKind p = kind ∧ pSchema p = schemaHash ∧ pScope p = scope ∧
                    fID (pFreeze p) ≠ "" ∧ now < ExpiresAt (pFreeze p))
    then inl p else inr cursorExpired.
Proof.
  intros Hp He. rewrite (cursor_read p tok) by done. unfold goodFor, str_empty.
  destruct (decide (pKind p = kind ∧ pSchema p = schemaHash ∧ pScope p = scope ∧
                    fID (pFreeze p) ≠ "" ∧ now < ExpiresAt (pFreeze p))) as [H|H];
    [rewrite (bool_decide_eq_true_2 _ H)|rewrite (bool_decide_eq_false_2 _ H)].
  - destruct H as (? & ? & ? & ? & ?). rewrite !bool_decide_eq_true_2, bool_decide_eq_false_2 by done. simpl.
    by destruct (Z.ltb_spec now (ExpiresAt (pFreeze p))); [|lia].
  - destruct (_ && _) eqn:E; [|done]. bool_facts. destruct H. by split_and!.
Qed.

(** No text is accepted unless its second part is the signature of its
    first, whatever else it is; and what is accepted is good for the reader. *)
Theorem accepted_cursor_is_signed tok scope kind now p :
  decode tok scope kind now = inl p →
  goodFor p scope kind now = true ∧
  ∃ body sig, Split tok dot = [body; sig] ∧ DecodeString sig = Some (hmac body) ∧
    unmarshal <$> DecodeString body = Some (Some p).
Proof.
  unfold TaskCursor.decode. destruct (_ <? _); [done|].
  destruct (Split tok dot) as [|body [|sig [|]]]; try done.
  destruct (DecodeString sig) as [mac|] eqn:Es; [|done]. case_bool_decide as Hm; [|done]. simpl.
  destruct (DecodeString body) as [raw|] eqn:Eb; [|done]. destruct (Parse raw); [|done].
  destruct (unmarshal raw) as [q|] eqn:Eq; [|done]. destruct (_ || _) eqn:Eg; [done|].
  intros [= <-]. bool_facts. split.
  - unfold goodFor, str_empty. rewrite !bool_decide_eq_true_2, bool_decide_eq_false_2 by done. simpl. lia.
  - exists body, sig. rewrite Es, Eb. simpl. rewrite Eq. by subst.
Qed.

(** ** Reading a snapshot *)
Context {W : Type} `{!SnapshotSource W}.
Notation pageAt := (pageAt hmac marshal).
Notation Page := (Page hmac marshal unmarshal jsonValid utf8Valid tokens schemaHash).

Inductive outcome := Done | Unfinished (tok : string) | Stopped (e : Err).

(** A reader that follows the cursors, one page in each of the moments
    [envs], until the last page, an error, or the end of the list. *)
Fixpoint follow (scope : ReadScope) (views : list string) (limit : Z) (tok : string) (envs : list (Z * W))
  : list SnapshotPage * outcome :=
  match envs with
  | [] => ([], Unfinished tok)
  | (now, w) :: envs =>
      match (Page scope views tok limit now w).1 with
      | inr e => ([], Stopped e)
      | inl page =>
          if HasMore page then
            let '(pages, out) := follow scope views limit (NextPageCursor page) envs in (page :: pages, out)
          else ([page], Done)
      end
  end.

Section Reading.
Context (scope : ReadScope) (views : list string) (f : Freeze) (rows : list SnapshotRow) (limit : Z).
Context (Hsorted : sorted rows) (Hkeys : Forall (λ r, rowKey r ≠ "") rows) (Hlimit : 1 ≤ limit ≤ 100).
Context (Hscope : rsAuthority scope ≠ "" ∧ rsScopeID scope ≠ "" ∧ FilterHash scope ≠ "").

Definition at_ (a : string) : cursorPayload := mkPayload "snapshot" schemaHash scope f a views.
Definition eventsOf : cursorPayload := mkPayload "events" schemaHash scope f "" [].
Context (Hjson : ∀ a, a = "" ∨ a ∈ map rowKey rows → readsBack (at_ a)) (Hevents : readsBack eventsOf).

(** What every page of the snapshot says. *)
Definition ofSnapshot (page : SnapshotPage) : Prop :=
  Marks page = Watermarks f ∧ FreezeID page = fID f ∧ PageViews page = views ∧
  ∀ now, now < ExpiresAt f → EventWatermarks (EventsCursor page) scope now = inl (Watermarks f).

Definition usable (now : Z) : Prop :=
  fID f ≠ "" ∧ now < ExpiresAt f ∧ properMarks [] (Watermarks f) = true ∧
  (∀ a, a = "" ∨ a ∈ map rowKey rows → ∃ tok, encode (at_ a) = inl tok) ∧ ∃ tok, encode eventsOf = inl tok.

Lemma encode_nonempty p tok : encode p = inl tok → str_empty tok = false.
Proof.
  unfold TaskCursor.encode, signed. destruct (_ <? _); [done|]. intros [= <-].
  unfold str_empty. apply bool_decide_eq_false_2. by destruct (EncodeToString _).
Qed.

Lemma events_read page tok now :
  EventsCursor page = tok → encode eventsOf = inl tok → fID f ≠ "" → now < ExpiresAt f →
  EventWatermarks (EventsCursor page) scope now = inl (Watermarks f).
Proof.
  intros -> He Hid Hnow. unfold TaskCursor.EventWatermarks. rewrite (cursor_read _ _ _ _ _ Hevents He).
  unfold goodFor, str_empty. rewrite !bool_decide_eq_true_2, bool_decide_eq_false_2 by done. simpl.
  by destruct (Z.ltb_spec now (ExpiresAt f)); [|lia].
Qed.

(** One page, from the key [a]. *)
Lemma pageAt_spec a now w :
  serves scope f rows w → a = "" ∨ a ∈ map rowKey rows →
  match pageAt scope (at_ a) limit now w with
  | inl page =>
      let rest := above a rows in
      PageItems page = map rowValue (take (Z.to_nat limit) rest) ∧ ofSnapshot page ∧
      HasMore page = (limit <? Z.of_nat (length rest)) ∧
      (HasMore page = true → ∃ r, rest !! Nat.pred (Z.to_nat limit) = Some r ∧
         encode (at_ (rowKey r)) = inl (NextPageCursor page))
  | inr e => serving scope f rows w → usable now → False
  end.
Proof.
  intros Hserve Ha. unfold TaskCursor.pageAt. simpl.
  destruct (str_empty (fID f) || (ExpiresAt f <=? now)) eqn:E1.
  { intros _ (Hid & Hnow & _). unfold str_empty in E1. rewrite bool_decide_eq_false_2 in E1 by done. simpl in E1. lia. }
  destruct (properMarks [] (Watermarks f)) eqn:E2; [|intros _ (_ & _ & H & _); congruence]. simpl.
  destruct (Hserve a limit) as [Hp|[e He]]; [lia| |].
  2:{ rewrite He. intros Hs _. rewrite (Hs a limit) in He by lia. done. }
  rewrite Hp. unfold pageOf. fold (above a rows). set (rest := above a rows).
  assert (sorted rest) as Hrest by by apply sorted_above.
  assert (Forall (λ r, str_lt a (rowKey r)) (take (Z.to_nat limit) rest)) as Habove.
  { apply Forall_take, Forall_forall. intros x [Hx _]%list_elem_of_filter. done. }
  assert (sorted (take (Z.to_nat limit) rest)) as Htake.
  { rewrite <- (take_drop (Z.to_nat limit) rest) in Hrest. unfold sorted in *. rewrite map_app in Hrest.
    by eapply StronglySorted_app_1_l. }
  assert (∀ x, x ∈ rest → x ∈ rows) as Hin by (by intros x [_ ?]%list_elem_of_filter).
  clearbody rest.
  assert ((limit <? Z.of_nat (length (take (Z.to_nat limit) rest))) ||
    ((limit <? Z.of_nat (length rest)) && bool_decide (take (Z.to_nat limit) rest = [])) = false) as ->.
  { rewrite length_take, Nat2Z.inj_min. apply orb_false_iff. split; [apply Z.ltb_ge; lia|]. apply andb_false_iff.
    destruct (Z.ltb_spec limit (Z.of_nat (length rest))); [right|by left]. apply bool_decide_eq_false_2.
    intros E. apply (f_equal length) in E. rewrite length_take in E. simpl in E. lia. }
  rewrite ascending_sorted by done.
  destruct (encode (mkPayload "events" schemaHash scope f "" [])) as [ev|e] eqn:Ee.
  2:{ intros _ (_ & _ & _ & _ & tok & Htok). unfold eventsOf in Htok. congruence. }
  assert (∀ page, Marks page = Watermarks f → FreezeID page = fID f → PageViews page = views →
    EventsCursor page = ev → ofSnapshot page) as Hof.
  { intros page ? ? ? ?. split_and!; try done. intros t Ht. eapply events_read; [done|done| |done].
    intros E. rewrite E in E1. done. }
  destruct (limit <? Z.of_nat (length rest)) eqn:E4; [|simpl; split_and!; [done|by apply Hof|done|done]].
  destruct (lookup_lt_is_Some_2 rest (Nat.pred (Z.to_nat limit))) as [r Hr]; [lia|].
  assert (last (take (Z.to_nat limit) rest) = Some r) as Hlast.
  { rewrite last_lookup, length_take, lookup_take_lt by lia.
    by replace (Nat.pred (Z.to_nat limit `min` length rest)) with (Nat.pred (Z.to_nat limit)) by lia. }
  rewrite Hlast. simpl. change ((at_ a) <| pAfter := rowKey r |>) with (at_ (rowKey r)).
  destruct (encode (at_ (rowKey r))) as [next|e] eqn:En.
  - simpl. split_and!; [done|by apply Hof|done|]. intros _. by exists r.
  - intros _ (_ & _ & _ & H & _). destruct (H (rowKey r)) as [tok Htok]; [|congruence]. right.
    apply list_elem_of_fmap_2, Hin. by eapply list_elem_of_lookup_2.
Qed.

(** What a reader that has reached the key [a] gets. *)
Definition delivers (a : string) (envs : nat) (healthy : Prop) (pages : list SnapshotPage) (out : outcome) : Prop :=
  let items := map rowValue (above a rows) in
  let got := concat (map PageItems pages) in
  Forall ofSnapshot pages ∧
  got = take (length pages * Z.to_nat limit) items ∧
  (out = Done → got = items) ∧
  (healthy → (∀ e, out ≠ Stopped e) ∧ (length items ≤ envs * Z.to_nat limit → (0 < envs) → out = Done))%nat.

Definition healthyAt (e : Z * W) : Prop := serving scope f rows e.2 ∧ usable e.1.

Lemma delivers_healthy a n (h h' : Prop) pages out :
  (h' → h) → delivers a n h pages out → delivers a n h' pages out.
Proof. intros Hh (H1 & H2 & H3 & H4). split_and!; auto. Qed.

Lemma page_step a now w envs rec :
  serves scope f rows w → a = "" ∨ a ∈ map rowKey rows →
  (∀ r tok, r ∈ rows → encode (at_ (rowKey r)) = inl tok →
     delivers (rowKey r) (length envs) (Forall healthyAt envs) (rec tok).1 (rec tok).2) →
  let '(pages, out) :=
    match pageAt scope (at_ a) limit now w with
    | inr e => ([], Stopped e)
    | inl page =>
        if HasMore page then let '(pages, out) := rec (NextPageCursor page) in (page :: pages, out)
        else ([page], Done)
    end in
  delivers a (S (length envs)) (healthyAt (now, w) ∧ Forall healthyAt envs) pages out.
Proof.
  intros Hserve Ha Hrec. pose proof (pageAt_spec a now w Hserve Ha) as H.
  set (n := Z.to_nat limit) in *. assert (0 < n)%nat as Hn by lia.
  destruct (pageAt _ _ _ _ _) as [page|e].
  2:{ unfold delivers. simpl. split_and!; try done. intros [[H1 H2] _]. by destruct (H H1 H2). }
  cbv zeta in H. destruct H as (Hitems & Hof & Hmore & Hnext). set (rest := above a rows) in *.
  destruct (HasMore page) eqn:Em.
  - destruct (Hnext eq_refl) as (r & Hr & He). specialize (Hrec r (NextPageCursor page)).
    destruct (rec (NextPageCursor page)) as [pages out]. simpl in Hrec.
    assert (above (rowKey r) rows = drop n rest) as Habove.
    { unfold rest. rewrite (above_next a rows (Nat.pred n) r) by done. f_equal. lia. }
    destruct Hrec as (H1 & H2 & H3 & H4); [|done|].
    { apply list_elem_of_lookup_2 in Hr. by apply list_elem_of_filter in Hr as [_ ?]. }
    rewrite Habove in *. unfold delivers. fold rest n. simpl. rewrite Hitems.
    assert (take n rest ++ drop n rest = rest) as Hsplit by apply take_drop.
    pose proof (lookup_lt_Some _ _ _ Hr) as Hlt.
    assert (length (take n rest) = n) as Hlen by (rewrite length_take, Nat.min_l; lia).
    split_and!.
    + by constructor.
    + rewrite H2. rewrite <- Hsplit at 3. rewrite map_app, take_app, length_map, Hlen.
      rewrite (take_ge (map rowValue (take n rest))) by (rewrite length_map; lia).
      do 2 f_equal. lia.
    + intros ->. rewrite (H3 eq_refl), <- map_app, Hsplit. done.
    + intros [_ Hh]. destruct (H4 Hh) as [H5 H6]. split; [done|]. intros Hle _.
      rewrite length_map in Hle, H6. rewrite length_drop in H6. apply H6; [lia|].
      rewrite <- Hsplit, length_app, length_drop in Hle. lia.
  - symmetry in Hmore. apply Z.ltb_ge in Hmore. unfold delivers. fold rest n. simpl.
    rewrite app_nil_r, Hitems. rewrite take_ge by lia. rewrite take_ge by (rewrite length_map; lia).
    split_and!; try done. by constructor.
Qed.

Lemma Page_token a tok now w :
  encode (at_ a) = inl tok → a = "" ∨ a ∈ map rowKey rows →
  (Page scope views tok limit now w).1 = pageAt scope (at_ a) limit now w ∨
  ((Page scope views tok limit now w).1 = inr cursorExpired ∧ ¬ usable now).
Proof.
  intros He Ha. unfold TaskCursor.Page. destruct Hscope as (S1 & S2 & S3).
  assert ((limit <? 1) || (100 <? limit) || str_empty (rsAuthority scope) || str_empty (rsScopeID scope) ||
     str_empty (FilterHash scope) = false) as ->.
  { unfold str_empty. rewrite !bool_decide_eq_false_2 by done. lia. }
  rewrite (encode_nonempty _ _ He). rewrite (cursor_read _ _ _ _ _ (Hjson a Ha) He).
  destruct (goodFor _ _ _ _) eqn:Eg; simpl.
  - rewrite bool_decide_eq_true_2 by done. by left.
  - right. split; [done|]. intros (H1 & H2 & _). unfold goodFor, str_empty in Eg. simpl in Eg.
    rewrite !bool_decide_eq_true_2, bool_decide_eq_false_2 in Eg by done. simpl in Eg. lia.
Qed.

Lemma follow_spec envs : Forall (λ e, serves scope f rows e.2) envs → ∀ a tok,
  encode (at_ a) = inl tok → a = "" ∨ a ∈ map rowKey rows →
  delivers a (length envs) (Forall healthyAt envs)
    (follow scope views limit tok envs).1 (follow scope views limit tok envs).2.
Proof.
  induction 1 as [|[now w] envs Hw _ IH]; intros a tok He Ha.
  { unfold delivers. simpl. split_and!; try done. intros _. split; [done|]. intros _ ?. lia. }
  simpl. destruct (Page_token a tok now w He Ha) as [Hp|[Hp Hu]]; rewrite Hp.
  - pose proof (page_step a now w envs (λ tok, follow scope views limit tok envs) Hw Ha) as H.
    eapply delivers_healthy; [intros Hh; apply Forall_cons in Hh; exact Hh|].
    assert (∀ r tok, r ∈ rows → encode (at_ (rowKey r)) = inl tok →
       delivers (rowKey r) (length envs) (Forall healthyAt envs)
         (follow scope views limit tok envs).1 (follow scope views limit tok envs).2) as Hrec.
    { intros r t Hr Ht. apply IH; [done|]. right. by apply list_elem_of_fmap_2. }
    specialize (H Hrec). destruct (pageAt _ _ _ _ _) as [page|e]; [|done].
    destruct (HasMore page); [|done]. by destruct (follow _ _ _ _ _).
  - unfold delivers. simpl. split_and!; try done. intros Hh. apply Forall_cons in Hh as [[_ ?] _]. done.
Qed.

Lemma above_all : above "" rows = rows.
Proof.
  apply filter_all. eapply Forall_impl; [exact Hkeys|]. intros r Hr. simpl. by destruct (rowKey r) eqn:E.
Qed.

(** C32: The pages of a snapshot are a partition of its rows.  Whatever happens
    between two pages, as long as what the source reads back of the freeze is
    its rows or an error: the pages read so far are the first rows, each once
    and in order; a reader told that there is no more has read all of them;
    and every page carries the watermarks of the capture and an events cursor
    that resumes at exactly those, until the freeze expires.  If nothing fails,
    the reading ends after as many pages as the rows need. *)
Theorem pages_partition_rows now w w1 envs :
  Capture scope w = (inl f, w1) →
  serves scope f rows w1 → Forall (λ e, serves scope f rows e.2) envs →
  let '(pages, out) := follow scope views limit "" ((now, w) :: envs) in
  let got := concat (map PageItems pages) in
  Forall (λ page, Marks page = Watermarks f ∧ FreezeID page = fID f ∧ PageViews page = views ∧
    ∀ t, t < ExpiresAt f → EventWatermarks (EventsCursor page) scope t = inl (Watermarks f)) pages ∧
  got = take (length pages * Z.to_nat limit) (map rowValue rows) ∧
  (out = Done → got = map rowValue rows) ∧
  (serving scope f rows w1 ∧ usable now ∧ Forall (λ e, serving scope f rows e.2 ∧ usable e.1) envs →
   (∀ e, out ≠ Stopped e) ∧
   ((length rows ≤ S (length envs) * Z.to_nat limit)%nat → out = Done)).
Proof.
  intros Hc Hw1 Henvs.
  pose proof (page_step "" now w1 envs (λ tok, follow scope views limit tok envs) Hw1 ltac:(by left)) as H.
  simpl. assert ((Page scope views "" limit now w).1 = pageAt scope (at_ "") limit now w1) as ->.
  { unfold TaskCursor.Page. destruct Hscope as (S1 & S2 & S3).
    assert ((limit <? 1) || (100 <? limit) || str_empty (rsAuthority scope) || str_empty (rsScopeID scope) ||
       str_empty (FilterHash scope) = false) as ->.
    { unfold str_empty. rewrite !bool_decide_eq_false_2 by done. lia. }
    simpl. by rewrite Hc. }
  assert (∀ pages out, delivers "" (S (length envs)) (healthyAt (now, w1) ∧ Forall healthyAt envs) pages out →
    let got := concat (map PageItems pages) in
    Forall ofSnapshot pages ∧ got = take (length pages * Z.to_nat limit) (map rowValue rows) ∧
    (out = Done → got = map rowValue rows) ∧
    (serving scope f rows w1 ∧ usable now ∧ Forall healthyAt envs →
     (∀ e, out ≠ Stopped e) ∧
     ((length rows ≤ S (length envs) * Z.to_nat limit)%nat → out = Done))) as Hd.
  { intros pages out. unfold delivers. rewrite above_all. intros (H1 & H2 & H3 & H4). split_and!; try done.
    intros (H5 & H6 & H7). destruct H4 as [H8 H9]; [by split|]. split; [done|].
    intros Hle. apply H9; [by rewrite length_map|lia]. }
  assert (∀ r tok, r ∈ rows → encode (at_ (rowKey r)) = inl tok →
     delivers (rowKey r) (length envs) (Forall healthyAt envs)
       (follow scope views limit tok envs).1 (follow scope views limit tok envs).2) as Hrec.
  { intros r t Hr Ht. apply follow_spec; [done|done|]. right. by apply list_elem_of_fmap_2. }
  specialize (H Hrec). destruct (pageAt _ _ _ _ _) as [page|e]; [|by apply Hd].
  destruct (HasMore page); [|by apply Hd].
  destruct (follow scope views limit (NextPageCursor page) envs). by apply Hd.
Qed.
End Reading.
End Codec.

(** ** An example: three rows, two to a page *)
Module Example.
Definition scope : ReadScope := mkScope "bridge" "phone" "filter" 1.
Definition freeze : Freeze := mkFreeze "sf_1" 1000 [mkWatermark "ordinary" 7].
Definition rows : list SnapshotRow := [mkRow "a" "A"; mkRow "b" "B"; mkRow "c" "C"].

(** Enough of a text for these payloads. *)
Definition marshal (p : cursorPayload) : string := pKind p +:+ pAfter p.
Definition unmarshal (raw : string) : option cursorPayload :=
  if has_prefix "snapshot" raw
  then Some (mkPayload "snapshot" "schema" scope freeze (String.substring 8 (String.length raw) raw) ["inbox"])
  else Some (mkPayload "events" "schema" scope freeze "" []).
Definition mac (s : string) : string := "signature".
Definition always (s : string) : bool := true.
Definition noTokens (s : string) : list token := [TNull].

Definition source : SnapshotSource () := {|
  Capture := λ _ w, (inl freeze, w);
  PageRows := λ _ _ after limit _, inl (pageOf rows after limit) |}.

Lemma reads_back : ∀ a, a = "" ∨ a ∈ map rowKey rows →
  readsBack marshal unmarshal always always noTokens (at_ "schema" scope ["inbox"] freeze a) ∧
  ∃ tok, encode mac marshal (at_ "schema" scope ["inbox"] freeze a) = inl tok.
Proof.
  intros a Ha. assert (a ∈ [""; "a"; "b"; "c"]) as Hin.
  { destruct Ha as [->|Ha]; [by left|by right]. }
  repeat (apply elem_of_cons in Hin as [->|Hin];
    [split; [split; [by vm_compute|vm_compute; reflexivity]|eexists; vm_compute; reflexivity]|]).
  by apply elem_of_nil in Hin.
Qed.
Lemma events_back : readsBack marshal unmarshal always always noTokens (eventsOf "schema" scope freeze).
Proof. split; [by vm_compute|vm_compute; reflexivity]. Qed.
End Example.

Lemma pages_partition_rows_witness :
  let '(pages, out) := follow Example.mac Example.marshal Example.unmarshal Example.always Example.always
    Example.noTokens "schema" (SnapshotSource0 := Example.source) Example.scope ["inbox"] 2 ""
    [(10, tt); (20, tt)] in
  out = Done ∧ concat (map PageItems pages) = ["A"; "B"; "C"] ∧ length pages = 2%nat.
Proof.
  pose proof (pages_partition_rows Example.mac Example.marshal Example.unmarshal Example.always Example.always
    Example.noTokens "schema" (SnapshotSource0 := Example.source) Example.scope ["inbox"] Example.freeze
    Example.rows 2) as H.
  destruct (follow _ _ _ _ _ _ _ _ _ _ _ _) as [pages out] eqn:E.
  assert (length pages = 2%nat) as Hlen by (vm_compute in E; by injection E as <- _).
  specialize (H ltac:(repeat constructor) ltac:(by repeat constructor) ltac:(lia) ltac:(done)
    (λ a Ha, proj1 (Example.reads_back a Ha)) Example.events_back 10 tt tt [(20, tt)] eq_refl).
  assert (serving (H := Example.source) Example.scope Example.freeze Example.rows tt) as Hs by (intros ? ? ?; reflexivity).
  assert (∀ now, now < 1000 → usable Example.mac Example.marshal "schema" Example.scope ["inbox"] Example.freeze
    Example.rows now) as Hu.
  { intros now Hnow. split_and!; [done|done|reflexivity| |].
    - intros a Ha. apply Example.reads_back, Ha.
    - eexists. vm_compute. reflexivity. }
  rewrite E in H. destruct H as (_ & _ & Hdone & Hend).
  { intros ? ? ?. left. reflexivity. }
  { constructor; [intros ? ? ?; left; reflexivity|constructor]. }
  destruct Hend as [_ Hend].
  { split_and!; [exact Hs|by apply Hu|]. constructor; [|constructor]. split; [exact Hs|by apply Hu]. }
  assert (out = Done) as Ho by (apply Hend; vm_compute; lia).
  split; [exact Ho|]. split; [exact (Hdone Ho)|exact Hlen].
Defined.

Lemma cursor_is_bound_witness :
  let p := at_ "schema" Example.scope ["inbox"] Example.freeze "a" in
  ∃ tok, encode Example.mac Example.marshal p = inl tok ∧
    decode Example.mac Example.unmarshal Example.always Example.always Example.noTokens "schema"
      tok Example.scope "snapshot" 10 = inl p ∧
    decode Example.mac Example.unmarshal Example.always Example.always Example.noTokens "schema"
      tok (mkScope "bridge" "tablet" "filter" 1) "snapshot" 10 = inr cursorExpired.
Proof.
  destruct (Example.reads_back "a" ltac:(right; left)) as [Hr [tok Ht]].
  exists tok. split; [exact Ht|]. split.
  - rewrite (cursor_is_bound _ _ _ _ _ _ _ _ _ _ _ _ Hr Ht). reflexivity.
  - rewrite (cursor_is_bound _ _ _ _ _ _ _ _ _ _ _ _ Hr Ht). reflexivity.
Defined.
