(* ===== verification/TaskRead.v ===== *)
(** * Snapshots and events of the host: [src/internal/core/task_api_projection.go]

    [apiWatermarks], the capture and the pages of a snapshot
    ([apiSnapshotSource]) and [apiEvents], over the journals of the stores.
    Between two reads the stores may change: a read happens at a moment of a
    timeline, and every statement takes one moment.

    What [apiList] lists, the JSON of a task, the policy that goes into a scope
    and the authorisation of a row are arguments. *)
From S2P Require Import Prelude Orders Sql TaskJournal TaskContract Base64 TaskCursor.

(** The journals of the stores by path. *)
Notation Stores := (gmap string Tables).
Definition tablesOf (p : string) (w : Stores) : Tables := default InstallJournal (w !! p).

(** Every journal but [pm_v1], which is the same one as [pm_v2], sorted. *)
Definition eventPaths (w : Stores) : list string :=
  sort_strings (filter (λ p, p ≠ "pm_v1") (elements (dom w))).

(** ** A timeline *)
Record Moment (S : Type) := mkMoment { state_at : nat → S; clock : nat }.
Arguments mkMoment {S}. Arguments state_at {S}. Arguments clock {S}.
Definition present {S} (w : Moment S) : S := state_at w (clock w).
Definition tick {S} (w : Moment S) : Moment S := mkMoment (state_at w) (Datatypes.S (clock w)).

(** ** Watermarks *)

(** One statement per store; [bad] says which statements fail.  The loop visits
    the stores in any order and sorts the marks. *)
Fixpoint readMarks (paths : list string) (bad : nat → bool) (w : Moment Stores)
  : (list Watermark + Err) * Moment Stores :=
  match paths with
  | [] => (inl [], w)
  | p :: paths =>
      if bad (clock w) then (inr SqlError, tick w)
      else
        let n := watermark (tablesOf p (present w)) in
        match readMarks paths bad (tick w) with
        | (inl marks, w') => (inl (mkWatermark p n :: marks), w')
        | (inr e, w') => (inr e, w')
        end
  end.
Definition mark_le (a b : Watermark) : Prop := str_le (Store a) (Store b).
#[global] Instance mark_le_dec : RelDecision mark_le := λ a b, decide (str_le (Store a) (Store b)).
Definition apiWatermarks (visits : nat → list string → list string) (bad : nat → bool) (w : Moment Stores)
  : (list Watermark + Err) * Moment Stores :=
  match readMarks (visits (clock w) (eventPaths (present w))) bad w with
  | (inl marks, w) => (inl (merge_sort mark_le marks), w)
  | r => r
  end.

(** ** The capture of a snapshot *)

(** A listed task: its id, its views, its two sessions and its JSON. *)
Record listed := mkListed {
  taskID : string; taskViews : list string; targetSession : string; sourceSession : string; taskJSON : string }.

(** Whether a task is selected for the views [wanted] of a session. *)
Definition selects (sessionID : string) (wanted : list string) (t : listed) : bool :=
  existsb (λ actual,
    let membership :=
      if bool_decide (actual = "source_children") || bool_decide (actual = "manager_arranging")
      then sourceSession t else targetSession t in
    bool_decide (actual ∈ wanted) && (str_empty sessionID || bool_decide (membership = sessionID)))
    (taskViews t).

Definition selectRows (sessionID : string) (wanted : list string) (items : list listed) : list SnapshotRow :=
  map (λ t, mkRow (taskID t) (taskJSON t)) (filter (λ t, selects sessionID wanted t = true) items).

Section Snapshot.
Context (marksJSON : list Watermark → string) (rowsJSON : list SnapshotRow → string)
        (parseRows : string → option (list SnapshotRow)).
(** [apiList]: what it lists, from the moments it takes to read it. *)
Context (apiList : Moment Stores → (list listed + Err) * Moment Stores).
(** [apiReadScope] and [apiRecord] of the caller. *)
Context (scopeNow : Moment Stores → ReadScope + Err) (readable : string → Moment Stores → bool).
Context (visits : nat → list string → list string) (bad : nat → bool) (randomID : nat → string) (clockMilli : nat → Z).
Context (sessionID : string) (views : list string).

(** What an attempt ends with: a frozen snapshot, another attempt, an error. *)
Inductive attempted := Froze (f : Freeze) (rows : list SnapshotRow) | Again | Failed_ (e : Err).

Definition localMark (marks : list Watermark) : Z :=
  foldl (λ n m, if bool_decide (Store m = "ordinary") then wSequence m else n) 0 marks.

Definition captureOnce (scope : ReadScope) (w : Moment Stores) : attempted * Moment Stores :=
  match apiWatermarks visits bad w with
  | (inr e, w) => (Failed_ e, w)
  | (inl before, w) =>
      match apiList w with
      | (inr e, w) => (Failed_ e, w)
      | (inl items, w) =>
          let rows := selectRows sessionID views items in
          match apiWatermarks visits bad w with
          | (inr e, w) => (Failed_ e, w)
          | (inl after, w) =>
              if negb (bool_decide (before = after)) then (Again, w)
              else
                match scopeNow w with
                | inr _ => (Failed_ cursorExpired, w)
                | inl current =>
                    if negb (bool_decide (current = scope)) then (Failed_ cursorExpired, w)
                    else
                      let f := mkFreeze ("sf_" +:+ randomID (clock w)) (clockMilli (clock w) + 5 * 60 * 1000) before in
                      let '(r, _, _) :=
                        atomically Some
                          (FreezeChecked marksJSON rowsJSON scope f rows (localMark before);; mret (true, None))
                          (if bad (clock w) then [true] else []) (tablesOf "ordinary" (present w)) in
                      match r with
                      | None => (Froze f rows, tick w)
                      | Some e => (if bool_decide (e = busy) then Again else Failed_ e, tick w)
                      end
                end
          end
      end
  end.

Fixpoint captureTries (attempts : nat) (scope : ReadScope) (w : Moment Stores) : attempted * Moment Stores :=
  match attempts with
  | O => (Failed_ busy, w)
  | S attempts =>
      match captureOnce scope w with
      | (Again, w) => captureTries attempts scope w
      | r => r
      end
  end.

Definition apiCapture (scope : ReadScope) (w : Moment Stores) : (Freeze + Err) * Moment Stores :=
  match captureTries 5 scope w with
  | (Froze f _, w) => (inl f, w)
  | (Failed_ e, w) => (inr e, w)
  | (Again, w) => (inr busy, w)
  end.

(** The rows after a key, all of them readable by the caller. *)
Definition apiPage (scope : ReadScope) (f : Freeze) (after : string) (limit : Z) (w : Moment Stores)
  : list SnapshotRow * bool + Err :=
  match (Frozen marksJSON parseRows scope f (clockMilli (clock w)) (if bad (clock w) then [true] else [])
           (tablesOf "ordinary" (present w))).2 with
  | inr e => inr e
  | inl (rows, _) =>
      let out := filter (λ r, String.ltb after (rowKey r) = true) rows in
      if negb (forallb (λ r, readable (rowKey r) w) out) then inr cursorExpired
      else
        let more := limit <? Z.of_nat (length out) in
        inl (if more : bool then take (Z.to_nat limit) out else out, more)
  end.

#[export] Instance apiSnapshotSource : SnapshotSource (Moment Stores) := {
  Capture := apiCapture;
  PageRows := apiPage }.
End Snapshot.

(** ** Events *)

(** A task of the index: its reference (authority, path and id) and revision. *)
Record taskRef := mkRef { refPath : string; refID : string; refRevision : Z }.
Record taskEvent := mkEvent {
  eventID : string; storeSequence : Watermark; eventTask : taskRef; eventKind : string; occurredAt : Z }.

Definition kindOf (kind : string) : string :=
  if bool_decide (kind ∈ ["admission"; "intent_prepared"; "human_source_linked"]) then "admission"
  else if bool_decide (kind = "final_sealed") then "final"
  else if bool_decide (kind = "human_source_revoked") then "scope_revoked"
  else if bool_decide (kind = "cancelled") then "cancel"
  else "execution".

Definition indexKey (session request : string) : string := session +:+ "/" +:+ request.
Notation Index := (gmap string taskRef).

(** The index of the listed tasks, by every command of each. *)
Fixpoint indexTasks (tasks : list taskRef) (fs : list bool) (w : Stores) (index : Index)
  : (Index + Err) * list bool :=
  match tasks with
  | [] => (inl index, fs)
  | t :: tasks =>
      match TaskCommands (refID t) fs (tablesOf (refPath t) w) with
      | (fs, inr e) => (inr e, fs)
      | (fs, inl (records, _)) =>
          indexTasks tasks fs w
            (foldl (λ i r, <[indexKey (iSession r) (iRequest r) := t]> i) index records)
      end
  end.

Definition eventOf (path : string) (t : taskRef) (c : Change) : taskEvent :=
  mkEvent (path +:+ ":" +:+ decimal (Sequence c)) (mkWatermark path (Sequence c)) t (kindOf (Kind c)) (At c).

(** The changes of one store: the events so far, the place reached, and
    whether the loop stopped before the end. *)
Fixpoint scan (limit : Z) (index : Index) (path : string) (changes : list Change) (scanned cursor : Z)
    (events : list taskEvent) : list taskEvent * Z * bool :=
  match changes with
  | [] => (events, cursor, false)
  | c :: changes =>
      let task := index !! indexKey (cSession c) (cRequest c) in
      if (limit <=? scanned) ||
         (negb (bool_decide (task = None)) && (limit <=? Z.of_nat (length events)))
      then (events, cursor, true)
      else
        scan limit index path changes (scanned + 1) (Sequence c)
          (match task with Some t => events ++ [eventOf path t c] | None => events end)
  end.

(** The loop over the stores; [marks]: the place reached in each. *)
Fixpoint scanStores (paths : list string) (limit : Z) (index : Index) (marks : gmap string Z) (fs : list bool)
    (w : Stores) (events : list taskEvent) (floors : list Watermark) (more : bool)
  : list taskEvent * gmap string Z * list Watermark * bool + Err :=
  match paths with
  | [] => inl (events, marks, floors, more)
  | p :: paths =>
      let after := default 0 (marks !! p) in
      match Changes after (limit + 1) fs (tablesOf p w) with
      | (fs, inr e) => inr e
      | (fs, inl ((changes, floor), _)) =>
          let '(events, cursor, stopped) := scan limit index p changes 0 after events in
          scanStores paths limit index (<[p := cursor]> marks) fs w events
            (floors ++ [mkWatermark p floor]) (more || stopped)
      end
  end.

Record EventsPage := mkEvents {
  Events : list taskEvent; nextMarks : list Watermark; Floors : list Watermark; moreEvents : bool }.

(** [apiEvents] from the watermarks of the cursor, without the cursor's own
    text: [tasks] are the listed tasks, [legacy] the linked messages. *)
Definition apiEvents (tasks : list taskRef) (legacy : list (string * string * taskRef))
    (cursor : list Watermark) (limit : Z) (fs : list bool) (w : Stores) : EventsPage + Err :=
  let marks := foldl (λ m x, <[Store x := wSequence x]> m) (∅ : gmap string Z) cursor in
  match indexTasks tasks fs w ∅ with
  | (inr e, _) => inr e
  | (inl index, fs) =>
      let index := foldl (λ i x, <[indexKey x.1.1 x.1.2 := x.2]> i) index legacy in
      match scanStores (eventPaths w) limit index marks fs w [] [] false with
      | inr e => inr e
      | inl (events, marks, floors, more) =>
          inl (mkEvents events (map (λ p, mkWatermark p (default 0 (marks !! p))) (eventPaths w)) floors more)
      end
  end.
