(* ===== verification/TaskReadProps.v ===== *)
(** * Theorems of snapshots and events

    A capture holds the watermarks of the moment it shows; its pages are its
    rows; reading events from its watermarks misses nothing. *)
From S2P Require Import Prelude Orders Sql TaskJournal TaskFeed MessageQueue QueueStore QueueProps TaskContract Base64 TaskCursor TaskPages TaskRead.

(** ** Watermarks *)
Lemma readMarks_spec paths bad w marks w' :
  readMarks paths bad w = (inl marks, w') →
  state_at w' = state_at w ∧ (clock w ≤ clock w')%nat ∧ map Store marks = paths ∧
  ∀ m, m ∈ marks → ∃ t, (clock w ≤ t < clock w')%nat ∧
    wSequence m = watermark (tablesOf (Store m) (state_at w t)).
Proof.
  revert w marks. induction paths as [|p paths IH]; intros w marks; simpl.
  { intros [= <- <-]. split_and!; try done. intros m H. by apply elem_of_nil in H. }
  destruct (bad (clock w)); [done|]. destruct (readMarks paths bad (tick w)) as [[ms|e] w1] eqn:E; [|done].
  intros [= <- <-]. destruct (IH _ _ E) as (Hs & Hc & Hm & Ht). simpl in Hs, Hc, Ht. split_and!.
  - done.
  - lia.
  - simpl. by rewrite Hm.
  - intros m [->|Hin]%elem_of_cons.
    + exists (clock w). split; [lia|done].
    + destruct (Ht m Hin) as (t & ? & ?). exists t. split; [lia|done].
Qed.

Lemma moment_eq {S} (w : Moment S) tl : state_at w = tl → w = mkMoment tl (clock w).
Proof. intros <-. by destruct w. Qed.

Section Capture.
Context (marksJSON : list Watermark → string) (rowsJSON : list SnapshotRow → string)
        (parseRows : string → option (list SnapshotRow)).
Context (apiList : Moment Stores → (list listed + Err) * Moment Stores).
Context (scopeNow : Moment Stores → ReadScope + Err) (readable : string → Moment Stores → bool).
Context (visits : nat → list string → list string) (bad : nat → bool) (randomID : nat → string)
        (clockMilli : nat → Z).
Context (sessionID : string) (views : list string).
Notation apiWatermarks := (apiWatermarks visits bad).
Notation captureOnce := (captureOnce marksJSON rowsJSON apiList scopeNow visits bad randomID clockMilli sessionID views).

(** A timeline of the stores: which ones there are does not change, and no
    watermark goes back. *)
Context (tl : nat → Stores) (paths : list string).
Context (Hpaths : ∀ t, eventPaths (tl t) = paths).
Context (Hmono : ∀ p t, watermark (tablesOf p (tl t)) ≤ watermark (tablesOf p (tl (S t)))).
Context (Hvisits : ∀ n l, visits n l ≡ₚ l).
Context (Hlist : ∀ w, state_at (apiList w).2 = state_at w ∧ (clock w ≤ clock (apiList w).2)%nat).

Lemma mono_le p t t' : (t ≤ t')%nat → watermark (tablesOf p (tl t)) ≤ watermark (tablesOf p (tl t')).
Proof. induction 1 as [|t' _ IH]; [done|]. specialize (Hmono p t'). lia. Qed.

Lemma paths_nodup : NoDup paths.
Proof.
  rewrite <- (Hpaths 0%nat). unfold eventPaths, sort_strings. rewrite merge_sort_Permutation.
  apply NoDup_filter, NoDup_elements.
Qed.

Lemma apiWatermarks_spec w marks w' :
  state_at w = tl → apiWatermarks w = (inl marks, w') →
  state_at w' = tl ∧ (clock w ≤ clock w')%nat ∧ NoDup (map Store marks) ∧
  (∀ p, p ∈ paths → ∃ m, m ∈ marks ∧ Store m = p) ∧
  ∀ m, m ∈ marks → ∃ t, (clock w ≤ t < clock w')%nat ∧ wSequence m = watermark (tablesOf (Store m) (tl t)).
Proof.
  intros Htl. unfold TaskRead.apiWatermarks, present. rewrite Htl, Hpaths.
  destruct (readMarks _ _ _) as [[ms|e] w1] eqn:E; [|done]. intros [= <- <-].
  apply readMarks_spec in E as (Hs & Hc & Hm & Ht). rewrite Htl in *.
  pose proof (merge_sort_Permutation mark_le ms) as HP. split_and!; try done.
  - rewrite HP, Hm, Hvisits. apply paths_nodup.
  - intros p Hp. rewrite <- (Hvisits (clock w)) in Hp. rewrite <- Hm in Hp.
    apply list_elem_of_fmap in Hp as (m & -> & Hin). exists m. by rewrite HP.
  - intros m Hin. rewrite HP in Hin. auto.
Qed.

(** The vector read twice with the same result: it held in between. *)
Lemma vector_stable w1 w2 w3 w4 marks :
  state_at w1 = tl → apiWatermarks w1 = (inl marks, w2) →
  state_at w3 = tl → (clock w2 ≤ clock w3)%nat → apiWatermarks w3 = (inl marks, w4) →
  ∀ p t, p ∈ paths → (clock w2 ≤ t ≤ clock w3)%nat →
    mkWatermark p (watermark (tablesOf p (tl t))) ∈ marks.
Proof.
  intros H1 E1 H3 Hc E3 p t Hp Ht.
  destruct (apiWatermarks_spec _ _ _ H1 E1) as (_ & _ & Hnd & Hex & Hv1).
  destruct (apiWatermarks_spec _ _ _ H3 E3) as (_ & _ & _ & _ & Hv3).
  destruct (Hex p Hp) as ([q n] & Hin & Hq). simpl in Hq. subst q.
  destruct (Hv1 _ Hin) as (t1 & Ht1 & Hn1). destruct (Hv3 _ Hin) as (t3 & Ht3 & Hn3). simpl in *.
  pose proof (mono_le p t1 t ltac:(lia)). pose proof (mono_le p t t3 ltac:(lia)).
  by replace (watermark (tablesOf p (tl t))) with n by lia.
Qed.

Lemma localMark_in marks n :
  NoDup (map Store marks) → mkWatermark "ordinary" n ∈ marks → localMark marks = n.
Proof.
  unfold localMark. induction marks as [|m marks IH] using rev_ind; intros Hnd Hin.
  { by apply elem_of_nil in Hin. }
  rewrite foldl_app. simpl. rewrite map_app in Hnd. simpl in Hnd.
  apply NoDup_app in Hnd as (Hnd & Hdis & _).
  apply elem_of_app in Hin as [Hin|Hin%list_elem_of_singleton].
  2:{ by rewrite <- Hin, bool_decide_eq_true_2. }
  rewrite bool_decide_eq_false_2; [by apply IH|]. intros E.
  apply (Hdis "ordinary"); [|rewrite E; by left].
  by apply (list_elem_of_fmap_2 Store) in Hin.
Qed.

(** What a capture that succeeded did. *)
Lemma captureOnce_spec scope w f rows w' :
  state_at w = tl → "ordinary" ∈ paths → captureOnce scope w = (Froze f rows, w') →
  state_at w' = tl ∧ ∃ t0 t1 tc items,
    (clock w ≤ t0 ≤ t1)%nat ∧ (t1 ≤ tc)%nat ∧ clock w' = S tc ∧
    apiList (mkMoment tl t0) = (inl items, mkMoment tl t1) ∧ rows = selectRows sessionID views items ∧
    (∀ p t, p ∈ paths → (t0 ≤ t ≤ t1)%nat →
       mkWatermark p (watermark (tablesOf p (tl t))) ∈ Watermarks f) ∧
    NoDup (map Store (Watermarks f)) ∧
    (∀ t, (t0 ≤ t ≤ tc)%nat →
       watermark (tablesOf "ordinary" (tl t)) = localMark (Watermarks f)) ∧
    freezes (tablesOf "ordinary" (tl tc)) !! fID f = None ∧
    scopeNow (mkMoment tl tc) = inl scope.
Proof.
  intros Htl Hord. unfold TaskRead.captureOnce.
  destruct (apiWatermarks w) as [[before|e] w2] eqn:E1; [|done].
  destruct (apiWatermarks_spec _ _ _ Htl E1) as (Htl2 & Hc2 & Hnd & Hex & _).
  pose proof (Hlist w2) as [Hl1 Hl2]. destruct (apiList w2) as [[items|e] w3] eqn:E2; [|done]. simpl in Hl1, Hl2.
  assert (state_at w3 = tl) as Htl3 by congruence. cbv zeta.
  destruct (apiWatermarks w3) as [[after|e] w4] eqn:E3; [|done].
  destruct (apiWatermarks_spec _ _ _ Htl3 E3) as (Htl4 & Hc4 & _).
  destruct (bool_decide (before = after)) eqn:Eb; [|done]. bool_facts. subst after. simpl.
  destruct (scopeNow w4) as [current|e] eqn:Es; [|done].
  destruct (bool_decide (current = scope)) eqn:Ec; [|done]. bool_facts. subst current. simpl.
  pose proof (vector_stable w w2 w3 w4 before Htl E1 Htl3 Hl2 E3) as Hstable.
  set (f0 := mkFreeze _ _ before). set (rows0 := selectRows _ _ _).
  unfold present. rewrite Htl4. set (t := tablesOf "ordinary" (tl (clock w4))).
  pose proof (atomically_elim Some
    (FreezeChecked marksJSON rowsJSON scope f0 rows0 (localMark before);; mret (true, None))
    (if bad (clock w4) then [true] else []) t
    (λ r _, r = None → watermark t = localMark before ∧ freezes t !! fID f0 = None)) as H.
  destruct (atomically _ _ _ _) as [[r d] fs]. intros Hr.
  assert (r = None ∧ f = f0 ∧ rows = rows0 ∧ w' = tick w4) as (-> & -> & -> & ->).
  { destruct r; [by destruct (bool_decide _)|]. by injection Hr as <- <- <-. }
  destruct H as [Hw Hf]; [|done|done|].
  { wp_step. unfold FreezeChecked, JWatermark. do 2 wp_step.
    destruct (watermark t =? localMark before) eqn:En; simpl; [|by wp_step].
    wp_step. unfold insertFreeze, insertRow. destruct (freezes t !! fID f0) eqn:Ef; [done|].
    wp_step. simpl. intros _. split; [lia|done]. }
  split; [done|]. exists (clock w2), (clock w3), (clock w4), items. split_and!; try done; try lia.
  - by rewrite <- (moment_eq w2 tl Htl2), <- (moment_eq w3 tl Htl3).
  - intros s [Hs1 Hs2]. pose proof (mono_le "ordinary" s (clock w4) Hs2) as H1.
    assert (localMark before ≤ watermark (tablesOf "ordinary" (tl s))) as H2; [|change (Watermarks f0) with before; unfold t in Hw; lia].
    pose proof (Hstable "ordinary" (clock w2) Hord ltac:(lia)) as Hin.
    rewrite (localMark_in _ _ Hnd Hin). by apply mono_le.
  - by rewrite <- (moment_eq w4 tl Htl4).
Qed.

Lemma readMarks_state ps w : state_at (readMarks ps bad w).2 = state_at w.
Proof.
  revert w. induction ps as [|p ps IH]; intros w; simpl; [done|]. destruct (bad (clock w)); [done|].
  specialize (IH (tick w)). destruct (readMarks ps bad (tick w)) as [[?|?] ?]; done.
Qed.
Lemma apiWatermarks_state w : state_at (apiWatermarks w).2 = state_at w.
Proof.
  unfold TaskRead.apiWatermarks. pose proof (readMarks_state (visits (clock w) (eventPaths (present w))) w) as H.
  by destruct (readMarks _ _ _) as [[?|?] ?].
Qed.
Lemma captureOnce_state scope w : state_at (captureOnce scope w).2 = state_at w.
Proof.
  unfold TaskRead.captureOnce. pose proof (apiWatermarks_state w) as H1.
  destruct (apiWatermarks w) as [[?|?] w2]; [|done]. simpl in H1. pose proof (Hlist w2) as [H2 _].
  destruct (apiList w2) as [[?|?] w3]; simpl in H2; [|simpl; congruence].
  pose proof (apiWatermarks_state w3) as H3. destruct (apiWatermarks w3) as [[?|?] w4]; simpl in H3; cbv zeta.
  2:{ simpl. congruence. }
  assert (state_at w4 = state_at w) as H4 by congruence.
  destruct (negb _); [done|]. destruct (scopeNow w4); [|done]. destruct (negb _); [done|].
  destruct (atomically _ _ _ _) as [[[e|] d] fs]; done.
Qed.

Notation apiCapture := (apiCapture marksJSON rowsJSON apiList scopeNow visits bad randomID clockMilli sessionID views).

Lemma apiCapture_once scope w f w' :
  state_at w = tl → apiCapture scope w = (inl f, w') →
  ∃ w0 rows, state_at w0 = tl ∧ captureOnce scope w0 = (Froze f rows, w').
Proof.
  unfold TaskRead.apiCapture. generalize 5%nat. intros n. revert w.
  induction n as [|n IH]; intros w Htl; simpl; [done|].
  pose proof (captureOnce_state scope w) as Hs.
  destruct (captureOnce scope w) as [[f0 rows| |e] w1] eqn:E; simpl in Hs.
  - intros [= -> ->]. by exists w, rows.
  - intros H. apply (IH w1); [congruence|done].
  - done.
Qed.

(** A snapshot shows one moment.  If a capture succeeds, however the stores
    changed while it ran, then it listed the tasks during an interval in which
    no store changed its watermark, the frozen watermarks are those of that
    interval, and the message store still had its own when the snapshot was
    committed, under the scope the reader still had then. *)
Theorem capture_shows_one_moment scope w f w' :
  state_at w = tl → "ordinary" ∈ paths → apiCapture scope w = (inl f, w') →
  ∃ t0 t1 tc items,
    (t0 ≤ t1 ≤ tc)%nat ∧ clock w' = S tc ∧
    apiList (mkMoment tl t0) = (inl items, mkMoment tl t1) ∧
    (∀ p t, p ∈ paths → (t0 ≤ t ≤ t1)%nat →
       mkWatermark p (watermark (tablesOf p (tl t))) ∈ Watermarks f) ∧
    (∀ t, (t0 ≤ t ≤ tc)%nat →
       mkWatermark "ordinary" (watermark (tablesOf "ordinary" (tl t))) ∈ Watermarks f) ∧
    NoDup (map Store (Watermarks f)) ∧
    scopeNow (mkMoment tl tc) = inl scope.
Proof.
  intros Htl Hord H. apply apiCapture_once in H as (w0 & rows & Htl0 & H); [|done].
  destruct (captureOnce_spec _ _ _ _ _ Htl0 Hord H)
    as (_ & t0 & t1 & tc & items & ? & ? & ? & Hl & _ & Hm & Hnd & Ho & _ & ?).
  exists t0, t1, tc, items. split_and!; try done; try lia.
  intros t Ht. pose proof (Hm "ordinary" t0 Hord ltac:(lia)) as Hmk.
  by rewrite (Ho t Ht), <- (Ho t0) by lia.
Qed.

(** ** The pages of a capture *)
Notation source := (apiSnapshotSource marksJSON rowsJSON parseRows apiList scopeNow readable visits bad
  randomID clockMilli sessionID views).

(** The frozen row of a snapshot. *)
Definition frozenOf (scope : ReadScope) (f : Freeze) (rows : list SnapshotRow) : frozenRow :=
  mkFrozen (rsScopeID scope) (rsGeneration scope) (FilterHash scope) (ExpiresAt f)
    (marksJSON (Watermarks f)) (rowsJSON rows).

Lemma pageOf_take rows after limit :
  0 < limit → let out := filter (λ r, String.ltb after (rowKey r) = true) rows in
  (if limit <? Z.of_nat (length out) then take (Z.to_nat limit) out else out,
   limit <? Z.of_nat (length out)) = pageOf rows after limit.
Proof.
  intros Hl out. unfold pageOf. fold out.
  destruct (Z.ltb_spec limit (Z.of_nat (length out))); [done|]. by rewrite take_ge by lia.
Qed.

(** The pages of a capture show what was captured.  As long as the row of
    the snapshot in the message store is the one the capture wrote, or is gone,
    a page read at any moment is a page of the captured rows in the order of
    their ids, or an error. *)
Theorem captured_rows_are_served scope f rows w :
  parseRows (rowsJSON rows) = Some rows →
  (∀ z, freezes (tablesOf "ordinary" (present w)) !! fID f = Some z → z = frozenOf scope f rows) →
  @serves _ source scope f rows w.
Proof.
  intros Hparse Hz after limit Hl. simpl. unfold apiPage, Frozen, query, mbind, tx_bind.
  assert (∀ fs, (fault fs).1 = false ∨ (fault fs).1 = true) as Hf by (intros fs; destruct (fault fs).1; auto).
  destruct (fault _) as [[] fs1]; simpl; [right; by eexists|].
  unfold option_bind. destruct (freezes _ !! fID f) as [z|] eqn:Ez; simpl; [|right; by eexists].
  rewrite (Hz z eq_refl). unfold frozenOf. simpl. rewrite !bool_decide_eq_true_2 by done. simpl.
  destruct (clockMilli (clock w) <? ExpiresAt f); simpl; [|right; by eexists].
  rewrite bool_decide_eq_true_2 by done. simpl. rewrite Hparse. simpl.
  destruct (negb _); [right; by eexists|left]. f_equal. by apply pageOf_take.
Qed.
End Capture.

(** ** From a snapshot to the feed *)
Section Follow.
Context (sha256Hex : string → string) (keyJSON : Namespace → string → string)
        (decodePayload : string → option rawAdmission)
        (decodeOrigin : string → option (string * string))
        (encodeAdmission : rawAdmission → string)
        (marksJSON : list Watermark → string) (rowsJSON : list SnapshotRow → string).
Context (apiList : Moment Stores → (list listed + Err) * Moment Stores)
        (scopeNow : Moment Stores → ReadScope + Err) (visits : nat → list string → list string)
        (bad : nat → bool) (randomID : nat → string) (clockMilli : nat → Z)
        (sessionID : string) (views : list string).
Notation run := (run sha256Hex keyJSON decodePayload decodeOrigin encodeAdmission marksJSON rowsJSON).
Notation apiCapture := (apiCapture marksJSON rowsJSON apiList scopeNow visits bad randomID clockMilli sessionID views).

(** The message store at every moment: any operations may happen in between. *)
Definition storeTimeline (d : nat → Db) : Prop :=
  (∃ h, d 0%nat = run h Open) ∧ ∀ t, ∃ l, d (S t) = run l (d t).

Lemma timeline_run d t t' : storeTimeline d → (t ≤ t')%nat → ∃ l, d t' = run l (d t).
Proof.
  intros [_ Hs]. induction 1 as [|t' _ [l IH]]; [by exists []|].
  destruct (Hs t') as [l' Hl']. exists (l ++ l'). by rewrite Hl', IH, run_app.
Qed.
Lemma timeline_open d t : storeTimeline d → ∃ h, d t = run h Open.
Proof.
  intros H. destruct (timeline_run d 0 t H) as [l Hl]; [lia|]. destruct H as [[h Hh] _].
  exists (h ++ l). by rewrite Hl, Hh, run_app.
Qed.
Lemma timeline_log d t : storeTimeline d → ∃ L, logged L (tables (d t)).
Proof. intros H. destruct (timeline_open d t H) as [h ->]. apply run_open. Qed.

End Follow.

(** ** Events *)

(** The events of some changes of a store. *)
Definition emit (index : Index) (path : string) (l : list Change) : list taskEvent :=
  omap (λ c, (λ t, eventOf path t c) <$> index !! indexKey (cSession c) (cRequest c)) l.

Lemma emit_cons index path c l :
  emit index path (c :: l) =
  match index !! indexKey (cSession c) (cRequest c) with
  | Some t => eventOf path t c :: emit index path l
  | None => emit index path l
  end.
Proof. unfold emit. simpl. by destruct (index !! _). Qed.

(** The loop takes a prefix of the changes, and stops only at its limits. *)
Lemma scan_spec limit index path changes scanned cursor events :
  0 ≤ scanned → Z.of_nat (length events) ≤ limit →
  ∃ seg tail, changes = seg ++ tail ∧
    (scan limit index path changes scanned cursor events).1.1 = events ++ emit index path seg ∧
    (scan limit index path changes scanned cursor events).1.2 = default cursor (Sequence <$> last seg) ∧
    ((scan limit index path changes scanned cursor events).2 = false → tail = []) ∧
    ((scan limit index path changes scanned cursor events).2 = true →
       tail ≠ [] ∧ (limit ≤ scanned + Z.of_nat (length seg) ∨
                    limit ≤ Z.of_nat (length (events ++ emit index path seg)))) ∧
    Z.of_nat (length (events ++ emit index path seg)) ≤ limit ∧
    (seg = [] ∨ scanned + Z.of_nat (length seg) ≤ limit).
Proof.
  revert scanned cursor events. induction changes as [|c changes IH]; intros scanned cursor events Hs He; simpl.
  { exists [], []. simpl. rewrite app_nil_r. split_and!; try done. by left. }
  destruct (_ || _) eqn:E.
  { exists [], (c :: changes). simpl. rewrite app_nil_r. split_and!; try done; [|by left].
    intros _. split; [done|]. apply orb_true_iff in E as [E|E]; [left; lia|right].
    apply andb_true_iff in E as [_ E]. lia. }
  apply orb_false_iff in E as [E1 E2]. set (task := index !! _) in *.
  set (events' := match task with Some t => _ | None => _ end).
  assert (events' = events ++ emit index path [c]) as Hev.
  { unfold events'. rewrite emit_cons. fold task. destruct task; [done|]. by rewrite app_nil_r. }
  assert (Z.of_nat (length events') ≤ limit) as Hlen.
  { unfold events'. destruct task; [|done]. simpl in E2. rewrite length_app. simpl. lia. }
  destruct (IH (scanned + 1) (Sequence c) events') as (seg & tail & -> & H1 & H2 & H3 & H4 & H5 & H6); [lia|done|].
  set (r := scan limit index path (seg ++ tail) (scanned + 1) (Sequence c) events') in *. clearbody r.
  rewrite Hev, <- app_assoc in H1, H4, H5.
  assert (emit index path [c] ++ emit index path seg = emit index path (c :: seg)) as Hc.
  { rewrite !emit_cons. by destruct (index !! _). }
  rewrite Hc in H4, H5. exists (c :: seg), tail. split_and!; try done.
  - by rewrite H1, Hc.
  - rewrite H2, last_cons. by destruct (last seg).
  - intros Ht. destruct (H4 Ht) as [? [?|?]]; (split; [done|]); [left; simpl; lia|by right].
  - right. destruct H6 as [->|H6]; simpl; lia.
Qed.

(** A store whose changes so far are [L], read after [mark]. *)
Lemma Changes_log L t mark limit fs fs' r :
  logged L t → 0 ≤ mark → 0 ≤ limit → Changes mark limit fs t = (fs', inl r) →
  r = (take (Z.to_nat limit) (drop (Z.to_nat mark) L), floor t, t).
Proof.
  intros HL Hm Hl. unfold Changes, changesFloor, query, mbind, tx_bind. destruct (fault fs) as [[] fs1]; [done|].
  destruct (mark <? floor t) eqn:Ef; [done|]. apply Z.ltb_ge in Ef. unfold changesRead, query. simpl.
  destruct (fault fs1) as [[] fs2]; [done|]. intros [= _ <-].
  pose proof (changesRead_log L t mark limit HL Ef Hl) as H. unfold changesRead, query in H. simpl in H.
  by injection H as ->.
Qed.

Lemma last_sequence L n mark seg tail :
  numbered L n → 0 ≤ mark → drop (Z.to_nat mark) L = seg ++ tail →
  default mark (Sequence <$> last seg) = mark + Z.of_nat (length seg).
Proof.
  intros Hn Hm Hd. destruct seg as [|c seg _] using rev_ind; simpl; [lia|].
  rewrite last_snoc, length_app. simpl.
  assert (L !! (Z.to_nat mark + length seg)%nat = Some c) as Hc.
  { rewrite <- lookup_drop, Hd, <- app_assoc. by apply list_lookup_middle. }
  rewrite (numbered_lookup _ _ _ _ Hn Hc). lia.
Qed.

(** What a page takes from the store [p]: [seg] of the changes after [mark]. *)
Definition takes (L : list Change) (mark : Z) (limit : Z) (seg : list Change) : Prop :=
  ∃ tail, drop (Z.to_nat mark) L = seg ++ tail ∧ Z.of_nat (length seg) ≤ limit.

Section Stores.
Context (index : Index) (limit : Z) (logs : string → list Change) (w : Stores).
Context (Hlimit : 1 ≤ limit) (Hlogs : ∀ p, logged (logs p) (tablesOf p w)).

Definition markOf (marks : gmap string Z) (p : string) : Z := default 0 (marks !! p).

Lemma scanStores_spec paths : NoDup paths → ∀ marks fs events floors more events' marks' floors' more',
  (∀ p, 0 ≤ markOf marks p) → Z.of_nat (length events) ≤ limit →
  scanStores paths limit index marks fs w events floors more = inl (events', marks', floors', more') →
  ∃ seg : string → list Change,
    (∀ p, p ∈ paths → takes (logs p) (markOf marks p) limit (seg p) ∧
       markOf marks' p = markOf marks p + Z.of_nat (length (seg p))) ∧
    (∀ p, p ∉ paths → marks' !! p = marks !! p) ∧
    events' = events ++ concat (map (λ p, emit index p (seg p)) paths) ∧
    Z.of_nat (length events') ≤ limit ∧
    (more' = false → more = false ∧
       ∀ p, p ∈ paths → seg p = drop (Z.to_nat (markOf marks p)) (logs p)) ∧
    (more' = true → more = true ∨ (∃ p, p ∈ paths ∧ seg p ≠ []) ∨ events ≠ []).
Proof.
  intros Hnd. induction Hnd as [|p paths Hp Hnd IH]; intros marks fs events floors more events' marks' floors' more'
    Hm He; simpl.
  { intros [= <- <- <- <-]. exists (λ _, []). simpl. rewrite app_nil_r.
    split_and!; try done; [by intros p ?%elem_of_nil|split; [done|by intros p ?%elem_of_nil]|by left]. }
  fold (markOf marks p). destruct (Changes _ _ _ _) as [fs1 [r|e]] eqn:Ec; [|done].
  apply (Changes_log (logs p)) in Ec as ->; [|done|done|lia].
  pose proof (scan_spec limit index p (take (Z.to_nat (limit + 1)) (drop (Z.to_nat (markOf marks p)) (logs p)))
    0 (markOf marks p) events ltac:(lia) He) as (seg & tail & Hsplit & H1 & H2 & H3 & H4 & H5 & H6).
  destruct (scan _ _ _ _ _ _ _) as [[ev cursor] stopped]. simpl in H1, H2, H3, H4.
  set (rest := drop (Z.to_nat (markOf marks p)) (logs p)) in *.
  assert (Z.of_nat (length seg) ≤ limit) as Hseg by (destruct H6 as [->|]; simpl; lia).
  assert (rest = seg ++ (tail ++ drop (Z.to_nat (limit + 1)) rest)) as Hrest.
  { rewrite app_assoc, <- Hsplit. symmetry. apply take_drop. }
  assert (cursor = markOf marks p + Z.of_nat (length seg)) as Hcur.
  { rewrite H2. eapply last_sequence; [apply (Hlogs p)|done|exact Hrest]. }
  assert (stopped = false → seg = rest) as Hall.
  { intros Hs. specialize (H3 Hs). subst tail. rewrite app_nil_r in Hsplit.
    assert (length (take (Z.to_nat (limit + 1)) rest) = length seg) as Hlen by by rewrite Hsplit.
    rewrite length_take in Hlen. rewrite <- Hsplit. apply take_ge. lia. }
  intros Hscan. apply IH in Hscan as (segs & Hsegs & Hout & Hev & Hle & Hno & Hyes).
  2:{ intros q. unfold markOf. destruct (decide (q = p)) as [->|Hq].
      - rewrite lookup_insert_eq. simpl. specialize (Hm p). lia.
      - rewrite lookup_insert_ne by done. apply Hm. }
  2:{ by rewrite H1. }
  assert (∀ q, q ∈ paths → markOf (<[p:=cursor]> marks) q = markOf marks q) as Hmq.
  { intros q Hq. unfold markOf. rewrite lookup_insert_ne; [done|congruence]. }
  exists (λ q, if decide (q = p) then seg else segs q). split_and!.
  - intros q [->|Hq]%elem_of_cons.
    + rewrite decide_True by done. split; [by eexists|].
      unfold markOf at 1. rewrite Hout, lookup_insert_eq by done. done.
    + rewrite decide_False by congruence. rewrite <- (Hmq q Hq). by apply Hsegs.
  - intros q Hq. rewrite not_elem_of_cons in Hq. rewrite Hout, lookup_insert_ne by (try done; naive_solver). done.
  - rewrite Hev, H1, <- app_assoc. simpl. rewrite decide_True by done. do 3 f_equal.
    apply map_ext_in. intros q Hq%list_elem_of_In. by rewrite decide_False by congruence.
  - done.
  - intros Hm'. destruct (Hno Hm') as [Hor Hdrop]. apply orb_false_iff in Hor as [-> ->].
    split; [done|]. intros q [->|Hq]%elem_of_cons.
    + rewrite decide_True by done. by apply Hall.
    + rewrite decide_False by congruence. rewrite <- (Hmq q Hq). by apply Hdrop.
  - intros Hm'. destruct (Hyes Hm') as [Hor|[(q & Hq & Hne)|Hne]].
    + apply orb_true_iff in Hor as [-> | ->]; [by left|right].
      destruct (H4 eq_refl) as [_ Hlim].
      destruct seg as [|c seg']; [|left; exists p; rewrite decide_True by done; split; [by left|done]].
      right. intros ->. simpl in Hlim. lia.
    + right; left. exists q. rewrite decide_False by congruence. split; [by right|done].
    + right. rewrite H1 in Hne. destruct seg as [|c seg'].
      * right. by rewrite app_nil_r in Hne.
      * left. exists p. rewrite decide_True by done. split; [by left|done].
Qed.
End Stores.

(** The place a cursor names in a store. *)
Definition cursorMarks (cursor : list Watermark) : gmap string Z :=
  foldl (λ m x, <[Store x := wSequence x]> m) ∅ cursor.
Definition cursorMark (cursor : list Watermark) (p : string) : Z := markOf (cursorMarks cursor) p.

Lemma cursorMark_nonneg cursor p : Forall (λ m, 0 ≤ wSequence m) cursor → 0 ≤ cursorMark cursor p.
Proof.
  unfold cursorMark, cursorMarks, markOf.
  assert (∀ m : gmap string Z, (∀ q, 0 ≤ default 0 (m !! q)) → Forall (λ m, 0 ≤ wSequence m) cursor →
    0 ≤ default 0 (foldl (λ m x, <[Store x := wSequence x]> m) m cursor !! p)) as H.
  { induction cursor as [|x cursor IH]; intros m Hm Hc; simpl; [apply Hm|].
    apply Forall_cons in Hc as [Hx Hc]. apply IH; [|done]. intros q.
    destruct (decide (q = Store x)) as [->|]; [by rewrite lookup_insert_eq|by rewrite lookup_insert_ne]. }
  apply H. intros q. by rewrite lookup_empty.
Qed.

Lemma eventPaths_nodup w : NoDup (eventPaths w).
Proof.
  unfold eventPaths, sort_strings. rewrite merge_sort_Permutation. apply NoDup_filter, NoDup_elements.
Qed.


(** ** Examples *)
Definition oneStore : gmap string Tables := {[ "ordinary" := tables (plainRun claimed Open) ]}.
Definition newTask : taskRef := mkRef "ordinary" "task" 1.


Definition claimedLog (L : list Change) (p : string) : list Change := if bool_decide (p = "ordinary") then L else [].
Lemma claimedLog_logged L : logged L (tables (plainRun claimed Open)) →
  ∀ p, logged (claimedLog L p) (tablesOf p oneStore).
Proof.
  intros HL p. unfold claimedLog, tablesOf, oneStore. case_bool_decide as Hp.
  - subst. by rewrite lookup_singleton_eq.
  - rewrite lookup_singleton_ne by done. apply logged_install.
Qed.


(** The message starts ten moments after the beginning; the capture runs before. *)
Definition startIt : list (op * list bool) := [(OTransition "s" "r" [Queued] Running "" "" "" false 20, [])].
Definition dayOf (t : nat) : Db :=
  if (t <? 10)%nat then plainRun claimed Open else plainRun startIt (plainRun claimed Open).
Definition storesOf (t : nat) : gmap string Tables := {[ "ordinary" := tables (dayOf t) ]}.
Definition nothing (w : Moment Stores) : (list listed + Err) * Moment Stores := (inl [], tick w).
Definition sameScope (w : Moment Stores) : ReadScope + Err := inl Example.scope.
Notation plainCapture := (apiCapture anyMarks anyRows nothing sameScope (λ _ l, l) (λ _, false) (λ _, "id")
  (λ n, Z.of_nat n) "" ["inbox"]).

Lemma plain_nil d : plainRun [] d = d.
Proof. reflexivity. Qed.

Lemma dayOf_timeline :
  storeTimeline id plainKey noAdmission noOrigin anyAdmission anyMarks anyRows dayOf.
Proof.
  split; [exists claimed; reflexivity|]. intros t. unfold dayOf.
  destruct (Nat.ltb_spec t 10), (Nat.ltb_spec (S t) 10);
    [exists []; symmetry; apply plain_nil|exists startIt; reflexivity|lia|exists []; symmetry; apply plain_nil].
Qed.
Lemma storesOf_marks p t :
  watermark (tablesOf p (storesOf t)) ≤ watermark (tablesOf p (storesOf (S t))).
Proof.
  unfold storesOf, tablesOf. destruct (decide (p = "ordinary")) as [->|Hp].
  - rewrite !lookup_singleton_eq. unfold dayOf.
    destruct (Nat.ltb_spec t 10), (Nat.ltb_spec (S t) 10); try lia; by vm_compute.
  - by rewrite !lookup_singleton_ne.
Qed.
Lemma storesOf_paths t : eventPaths (storesOf t) = ["ordinary"].
Proof.
  unfold storesOf. generalize (tables (dayOf t)). intros d. unfold eventPaths.
  by rewrite dom_singleton_L, elements_singleton.
Qed.

