(* ===== verification/Delegation.v ===== *)
(** * The delegation store: [src/internal/delegation]

    Handoffs of work from a parent conversation to a child one: a row per
    handoff, bounded by the capacity of its parent, the rounds of a logical
    task, and what binds them (source, native thread, responsibility, epochs,
    commands), over the tables of [Open] and the journal of [taskapi].

    Rows are listed by rowid, which no statement changes or frees.  The answers
    of callbacks ([validate], [Revalidate]) are arguments, one for each time
    they are asked; a JSON column gives back the value that was stored, as it
    does where the strings are valid UTF-8.  What Go returns beside an error is
    not modelled. *)
From S2P Require Import Prelude Orders Sql TaskJournal Decimal Base64 Handoff.

(** ** Data *)
Inductive RState := DQueued | DProvisioning | DRunning | DCollecting | DTerminal.
Inductive Delivery := DeliveryPending | DeliveryQueued | Delivered | DeliveryFailed | NotRequested.
#[global] Instance RState_eq_dec : EqDecision RState.
Proof. solve_decision. Defined.
#[global] Instance Delivery_eq_dec : EqDecision Delivery.
Proof. solve_decision. Defined.

(** The columns of [session_delegations]. *)
Record Row := mkRow {
  dID : string; dParent : string; dOrigin : string; dCall : string; dIntent : string;
  dChild : string; dChildRequest : string; dName : string; dCwd : string; dInstruction : string;
  dModel : string; dEffort : string; dSandbox : string; dParentRequest : string;
  dState : RState; dStatus : string; dResult : string; dArtifacts : list string; dError : string;
  dDelivery : Delivery; dDeliveryError : string; dCreated : Z; dUpdated : Z }.
#[export] Instance Row_eta : Eta Row := λ r,
  mkRow (dID r) (dParent r) (dOrigin r) (dCall r) (dIntent r) (dChild r) (dChildRequest r) (dName r)
    (dCwd r) (dInstruction r) (dModel r) (dEffort r) (dSandbox r) (dParentRequest r) (dState r)
    (dStatus r) (dResult r) (dArtifacts r) (dError r) (dDelivery r) (dDeliveryError r) (dCreated r)
    (dUpdated r).
#[global] Instance Row_eq_dec : EqDecision Row.
Proof. solve_decision. Defined.

(** A [Record]: the columns and what goes to the other tables. *)
Record Record_ := mkRecord {
  rRow : Row; LogicalID : string; PreviousID : string; rAuthority : string; GrantDigest : string;
  Mode : string; ExecutionRequestID : string; ExpectedThread : string; ExpectedRevision : Z;
  WorkspaceIdentity : string; SourceThread : string; SourceRevision : Z }.

Record Limits := mkLimits { lActive : Z; lQueued : Z; lDelivery : Z }.
#[global] Instance Limits_eq_dec : EqDecision Limits.
Proof. solve_decision. Defined.
Definition DefaultLimits : Limits := mkLimits 6 64 128.

Record CapacityConfig := mkCapacity { cDefault : Limits; cParents : gmap string Limits }.

Record Binding := mkBinding {
  bThread : string; bRevision : Z; bExpectedThread : string; bExpectedRevision : Z; bCwd : string }.

(** A round; its column [steer_claimed] is kept in [claimed]. *)
Record Round := mkRound {
  oID : string; oLogical : string; oVersion : Z; oPrevious : string; oAuthority : string;
  oGrant : string; oMode : string; oExecution : string }.

Record ContinuityCommand := mkCommand_ {
  kHash : string; kAction : string; kRequest : string; kCall : string; kState : string;
  kResult : option string; kError : string; kEffect : string; kFormal : option string }.
#[export] Instance ContinuityCommand_eta : Eta ContinuityCommand := λ k,
  mkCommand_ (kHash k) (kAction k) (kRequest k) (kCall k) (kState k) (kResult k) (kError k)
    (kEffect k) (kFormal k).
#[global] Instance ContinuityCommand_eq_dec : EqDecision ContinuityCommand.
Proof. solve_decision. Defined.

Record SourceEpoch := mkEpoch {
  eLogical : string; eParent : string; eAuthority : string; eThread : string; eGrant : string;
  ePeer : string; eRequest : string; eCall : string; eEpoch : Z; eFrom : Z; eTo : Z }.

(** A sealed return: [delegation_return_contexts]. *)
Record Return := mkReturn { tParent : string; tIdentity : string; tSnapshot : Snapshot; tContent : string }.
#[global] Instance Return_eq_dec : EqDecision Return.
Proof. solve_decision. Defined.

Record Store := mkStore {
  dJournal : Tables;
  rows : list Row;
  capacity : gmap string Limits;
  scanCursor : Z * Z;
  bindings : gmap string Binding;
  commitments : gmap string Z;
  rounds : list Round;
  claimed : gset string;
  nativeThreads : gmap string (string * Z);
  responsibilities : gmap string string;
  reviews : gmap string (string * string);
  authority_ : option string;
  continuity : gmap (string * string) ContinuityCommand;
  epochs : list SourceEpoch;
  childProfiles : gmap string string;
  returns : gmap string Return;
  handoffs : gmap (string * string) (Z * string) }.
#[export] Instance Store_eta : Eta Store := λ d,
  mkStore (dJournal d) (rows d) (capacity d) (scanCursor d) (bindings d) (commitments d) (rounds d)
    (claimed d) (nativeThreads d) (responsibilities d) (reviews d) (authority_ d) (continuity d) (epochs d)
    (childProfiles d) (returns d) (handoffs d).

(** A new store, after the statements of [Open]. *)
Definition Empty : Store :=
  mkStore InstallJournal [] {[ "" := DefaultLimits ]} (0, 0) ∅ ∅ [] ∅ ∅ ∅ ∅ None ∅ [] ∅ ∅ ∅.

#[export] Instance Store_journaled : Journaled Store := {|
  journal := dJournal; setJournal := λ t d, d <| dJournal := t |>; journal_set := λ t d, eq_refl |}.

(** [sql.ErrNoRows]. *)
Definition NoRows : Err := Plain "sql: no rows in result set".
Definition incomplete : Err := Plain "incomplete delegation identity".
Definition ErrQueueLimit : Err := Plain "delegation_parent_queue_limit".
Definition ErrDeliveryLimit : Err := Plain "delegation_parent_delivery_limit".
Definition callerUnbound : Err := APIError "caller_unbound" "known_none" "refresh_identity".
Definition staleRevision : Err := APIError "stale_revision" "known_none" "refresh_identity".
Definition busyNow : Err := APIError "busy" "known_none" "lookup_original".

(** A statement that must find a row. *)
Definition orNoRows {A} (found : option A) : Tx Store A :=
  match found with Some a => mret a | None => tx_fail NoRows end.
(** The answer of a callback. *)
Definition asked (answer : option Err) : Tx Store () :=
  match answer with Some e => tx_fail e | None => mret tt end.
(** A statement whose error the code handles. *)
Definition attempt {A} (m : Tx Store A) : Tx Store (A + Err) := λ fs d,
  match m fs d with
  | (fs, inl (a, d)) => (fs, inl (inl a, d))
  | (fs, inr e) => (fs, inl (inr e, d))
  end.
(** [TaskJournal().Transaction]: a body that returns no error commits. *)
Definition transaction {A} (zero : A) (m : Tx Store A) (fs : list bool) (d : Store)
  : (A * option Err) * Store * list bool :=
  atomically (λ e, (zero, Some e)) (a ← m; mret (true, (a, None))) fs d.

(** [database/sql] refuses an unsigned argument with its high bit set. *)
Definition unsigned (n : Z) : Tx Store () :=
  if i64_max <? n then tx_fail (Plain "uint64 values with high bit set are not supported") else mret tt.

(** ** Rows *)
Definition rowOf (id : string) (d : Store) : option Row :=
  snd <$> list_find (λ r, dID r = id) (rows d).
Definition roundOf (id : string) (d : Store) : option Round :=
  snd <$> list_find (λ o, oID o = id) (rounds d).

(** [id IN (SELECT id FROM delegation_rounds WHERE mode='steer')]. *)
Definition steers (d : Store) (id : string) : bool :=
  existsb (λ o, bool_decide (oID o = id) && bool_decide (oMode o = "steer")) (rounds d).

(** [UPDATE session_delegations]: the number of rows it changes. *)
Definition updateRows (p : Row → bool) (f : Row → Row) : Tx Store nat :=
  exec (λ d, inl (countb p (rows d), d <| rows := map (λ r, if p r then f r else r) (rows d) |>)).

(** The UNIQUE constraints; [origin] only where it is set. *)
Definition clashes (r r' : Row) : bool :=
  bool_decide (dID r = dID r')
  || (bool_decide (dChild r = dChild r') && bool_decide (dChildRequest r = dChildRequest r'))
  || (bool_decide (dParent r = dParent r') && bool_decide (dParentRequest r = dParentRequest r'))
  || (negb (str_empty (dOrigin r)) && negb (str_empty (dCall r)) &&
      bool_decide (dParent r = dParent r') && bool_decide (dOrigin r = dOrigin r') &&
      bool_decide (dCall r = dCall r')).

Definition insertDelegation (r : Row) : Tx Store () :=
  exec (λ d, if existsb (clashes r) (rows d) then inr ConstraintError
             else inl (tt, d <| rows := rows d ++ [r] |>)).

(** The row as it is inserted. *)
Definition fresh (r : Row) (state : RState) (now : Z) : Row :=
  r <| dState := state |> <| dStatus := "" |> <| dResult := "" |> <| dArtifacts := [] |>
    <| dError := "" |> <| dDelivery := DeliveryPending |> <| dDeliveryError := "" |>
    <| dCreated := now |> <| dUpdated := now |>.

Definition named (r : Row) : bool :=
  negb (str_empty (dID r) || str_empty (dParent r) || str_empty (dChild r) ||
        str_empty (dChildRequest r) || str_empty (dParentRequest r)).

(** ** Capacity *)
Definition validLimits (l : Limits) : bool :=
  negb ((lActive l <? 1) || (256 <? lActive l) || (lQueued l <? 0) || (4096 <? lQueued l)
        || (lDelivery l <? lActive l) || (8192 <? lDelivery l)).
Definition validCapacity (c : CapacityConfig) : bool :=
  validLimits (cDefault c) &&
  forallb (λ x, negb (str_empty x.1) && validLimits x.2) (map_to_list (cParents c)).

Definition insertCapacity (parent : string) (l : Limits) : Tx Store () :=
  exec (λ d, match capacity d !! parent with
             | Some _ => inr ConstraintError
             | None => inl (tt, d <| capacity := <[parent := l]> (capacity d) |>)
             end).
Fixpoint insertParents (l : list (string * Limits)) : Tx Store () :=
  match l with
  | [] => mret tt
  | (parent, limits) :: l => insertCapacity parent limits;; insertParents l
  end.
Definition ConfigureCapacity (c : CapacityConfig) (fs : list bool) (d : Store)
  : (() * option Err) * Store * list bool :=
  if negb (validCapacity c) then ((tt, Some (Plain "invalid delegation capacity")), d, fs)
  else
    transaction tt
      (exec_ (λ d, d <| capacity := ∅ |>);;
       insertParents (map_to_list (cParents c));;
       insertCapacity "" (cDefault c)) fs d.

(** The limits of a parent, or the default ones. *)
Definition limitsOf (parent : string) (d : Store) : option Limits :=
  match capacity d !! parent with Some l => Some l | None => capacity d !! "" end.
Definition limitsFor (parent : string) : Tx Store Limits :=
  found ← query (limitsOf parent); orNoRows found.

Record Counts := mkCounts { nActive : Z; nQueued : Z; nDelivery : Z; nReserved : Z }.
Definition undelivered (r : Row) : bool := bool_decide (dDelivery r ∈ [DeliveryPending; DeliveryQueued]).
Definition isActive (d : Store) (r : Row) : bool :=
  bool_decide (dState r ∈ [DProvisioning; DRunning]) && negb (steers d (dID r)).
Definition isQueued (r : Row) : bool := bool_decide (dState r = DQueued).
Definition isDelivery (r : Row) : bool :=
  bool_decide (dState r = DCollecting) || (bool_decide (dState r = DTerminal) && undelivered r).
Definition isReserved (r : Row) : bool := negb (bool_decide (dState r = DTerminal)) || undelivered r.
Definition ofParent (parent : string) (p : Row → bool) (r : Row) : bool :=
  bool_decide (dParent r = parent) && p r.
Definition countRows (parent : string) (p : Row → bool) (d : Store) : Z :=
  Z.of_nat (countb (ofParent parent p) (rows d)).
Definition countsOf (parent : string) (d : Store) : Counts :=
  mkCounts (countRows parent (isActive d) d) (countRows parent isQueued d)
    (countRows parent isDelivery d) (countRows parent isReserved d).
Definition countsFor (parent : string) : Tx Store Counts := query (countsOf parent).

(** Whether the child works for a handoff. *)
Definition occupies (d : Store) (child : string) (r : Row) : bool :=
  bool_decide (dChild r = child) && bool_decide (dState r ∈ [DProvisioning; DRunning; DCollecting]) &&
  negb (steers d (dID r)).
Definition childBusy (d : Store) (child : string) : bool := existsb (occupies d child) (rows d).

Definition admissionState (parent child : string) : Tx Store RState :=
  l ← limitsFor parent;
  n ← countsFor parent;
  if lDelivery l <=? nReserved n then tx_fail ErrDeliveryLimit
  else
    sameChild ← query (λ d, childBusy d child);
    if (nActive n <? lActive l) && (nQueued n =? 0) && negb sameChild &&
       (nActive n + nDelivery n <? lDelivery l)
    then mret DProvisioning
    else if lQueued l <=? nQueued n then tx_fail ErrQueueLimit
    else mret DQueued.

(** ** Rounds *)
Definition newer (o : Round) (best : option Round) : option Round :=
  match best with
  | Some b => if oVersion b <? oVersion o then Some o else best
  | None => Some o
  end.
(** [ORDER BY version DESC LIMIT 1]. *)
Definition latestRound (logical : string) (d : Store) : option Round :=
  foldl (λ best o, newer o best) None (filter (λ o, oLogical o = logical) (rounds d)).

Definition insertRoundRow (o : Round) : Tx Store () :=
  unsigned (oVersion o);;
  exec (λ d,
    if existsb (λ o', bool_decide (oID o' = oID o) ||
                      (bool_decide (oLogical o' = oLogical o) && bool_decide (oVersion o' = oVersion o)))
         (rounds d)
    then inr ConstraintError
    else inl (tt, d <| rounds := rounds d ++ [o] |>)).

Definition insertRound (r : Record_) : Tx Store () :=
  let id := dID (rRow r) in
  let logical := if str_empty (LogicalID r) then id else LogicalID r in
  let mode := if str_empty (Mode r) then "queue" else Mode r in
  version ←
    (if bool_decide (logical = id) then mret 1
     else
       found ← query (latestRound logical);
       latest ← orNoRows found;
       if negb (bool_decide (oID latest = PreviousID r)) then tx_fail (Plain "delegation_round_stale")
       else mret (u64_succ (oVersion latest)));
  insertRoundRow (mkRound id logical version (PreviousID r) (rAuthority r) (GrantDigest r) mode
    (ExecutionRequestID r)).

(** ** Admission *)
Definition insertBinding (id : string) (b : Binding) : Tx Store () :=
  unsigned (bRevision b);;
  unsigned (bExpectedRevision b);;
  exec (λ d, match insertRow id b (bindings d) with
             | Some m => inl (tt, d <| bindings := m |>)
             | None => inr ConstraintError
             end).
Definition insertCommitment (id : string) (now : Z) : Tx Store () :=
  exec (λ d, match insertRow id now (commitments d) with
             | Some m => inl (tt, d <| commitments := m |>)
             | None => inr ConstraintError
             end).

(** A supplement to a running turn reserves a result, but no slot. *)
Definition steerState (parent : string) : Tx Store RState :=
  l ← limitsFor parent;
  n ← countsFor parent;
  if lDelivery l <=? nReserved n then tx_fail ErrDeliveryLimit else mret DProvisioning.

Definition insertBounded (r : Record_) (now : Z) : Tx Store RState :=
  let row := rRow r in
  if negb (named row) then tx_fail incomplete
  else
    admitted ← attempt (admissionState (dParent row) (dChild row));
    state ←
      (if bool_decide (Mode r = "steer") then steerState (dParent row)
       else match admitted with inl s => mret s | inr e => tx_fail e end);
    insertDelegation (fresh row state now);;
    (if bool_decide (dDelivery row = NotRequested)
     then n ← updateRows (λ x, bool_decide (dID x = dID row)) (λ x, x <| dDelivery := NotRequested |>);
          mret tt
     else mret tt);;
    insertBinding (dID row)
      (mkBinding (SourceThread r) (SourceRevision r) (ExpectedThread r) (ExpectedRevision r)
         (WorkspaceIdentity r));;
    insertCommitment (dID row) now;;
    insertRound r;;
    mret state.

Definition CreateBounded (r : Record_) (now : Z) (fs : list bool) (d : Store) :=
  transaction tt (insertBounded r now;; mret tt) fs d.

(** [Create], which no caller outside the tests uses. *)
Definition Create (r : Row) (now : Z) (fs : list bool) (d : Store)
  : option Err * Store * list bool :=
  if negb (named r) then (Some incomplete, d, fs)
  else single Some (insertDelegation (fresh r DProvisioning now);; mret None) fs d.

(** ** Promotion: the oldest waiting handoff whose child is free *)
Definition position (id : string) (d : Store) : option nat :=
  fst <$> list_find (λ r, dID r = id) (rows d).
Definition olderWaits (parent : string) (i : nat) (d : Store) : bool :=
  existsb (λ q, bool_decide (dParent q = parent) && isQueued q && negb (childBusy d (dChild q)))
    (take i (rows d)).

Definition TryPromote (id : string) (now : Z) : Tx Store bool :=
  found ← query (λ d, r ← rowOf id d; i ← position id d; Some (r, i));
  '(r, i) ← orNoRows found;
  if negb (isQueued r) then mret false
  else
    l ← limitsFor (dParent r);
    n ← countsFor (dParent r);
    if (lActive l <=? nActive n) || (lDelivery l <=? nActive n + nDelivery n) then mret false
    else
      sameChild ← query (λ d, childBusy d (dChild r));
      if sameChild : bool then mret false
      else
        older ← query (olderWaits (dParent r) i);
        if older : bool then mret false
        else
          updateRows (λ x, bool_decide (dID x = id) && isQueued x)
            (λ x, x <| dState := DProvisioning |> <| dUpdated := now |>);;
          mret true.

(** ** The life of a row *)
Definition terminalStatus (s : string) : bool := bool_decide (s ∈ ["completed"; "failed"; "interrupted"]).
Definition inState (l : list RState) (r : Row) : bool := bool_decide (dState r ∈ l).
Definition changedOne (n : nat) : bool := (n =? 1)%nat.

Definition MarkRunning (id : string) (now : Z) : Tx Store () :=
  updateRows (λ r, bool_decide (dID r = id) && inState [DProvisioning] r)
    (λ r, r <| dState := DRunning |> <| dUpdated := now |>);; mret tt.

Definition MarkProvisionFailed (id reason : string) (now : Z) : Tx Store () :=
  updateRows (λ r, bool_decide (dID r = id) && inState [DQueued; DProvisioning] r)
    (λ r, r <| dState := DTerminal |> <| dStatus := "failed" |> <| dError := reason |>
            <| dUpdated := now |>);; mret tt.

Definition MarkCollecting (id status : string) (now : Z) : Tx Store () :=
  if negb (terminalStatus status) then tx_fail (Plain "invalid terminal status")
  else
    updateRows (λ r, bool_decide (dID r = id) && inState [DProvisioning; DRunning] r)
      (λ r, r <| dState := DCollecting |> <| dStatus := status |> <| dUpdated := now |>);; mret tt.

Definition Complete (child request status result reason : string) (artifacts : list string) (now : Z)
  : Tx Store bool :=
  if negb (terminalStatus status) then tx_fail (Plain "invalid terminal status")
  else
    n ← updateRows (λ r, bool_decide (dChild r = child) && bool_decide (dChildRequest r = request) &&
                         inState [DProvisioning; DRunning; DCollecting] r)
          (λ r, r <| dState := DTerminal |> <| dStatus := status |> <| dResult := result |>
                  <| dArtifacts := artifacts |> <| dError := reason |> <| dUpdated := now |>);
    mret (changedOne n).

Definition MarkDeliveryQueued (id : string) (now : Z) : Tx Store () :=
  updateRows (λ r, bool_decide (dID r = id) && inState [DTerminal] r &&
                   bool_decide (dDelivery r = DeliveryPending))
    (λ r, r <| dDelivery := DeliveryQueued |> <| dUpdated := now |>);; mret tt.

Definition returnOf (parent request : string) (r : Row) : bool :=
  bool_decide (dParent r = parent) && bool_decide (dParentRequest r = request).

Definition MarkDelivered (parent request : string) (now : Z) : Tx Store bool :=
  n ← updateRows (λ r, returnOf parent request r && bool_decide (dDelivery r = DeliveryQueued))
        (λ r, r <| dDelivery := Delivered |> <| dUpdated := now |>);
  mret (changedOne n).

Definition MarkDeliveryFailed (parent request reason : string) (now : Z) : Tx Store bool :=
  n ← updateRows (λ r, returnOf parent request r && inState [DTerminal] r && undelivered r)
        (λ r, r <| dDelivery := DeliveryFailed |> <| dDeliveryError := reason |> <| dUpdated := now |>);
  mret (changedOne n).

(** ** Cancellation *)
Definition cancelledRow (now : Z) (r : Row) : Row :=
  r <| dState := DTerminal |> <| dStatus := "interrupted" |> <| dError := "cancelled_before_start" |>
    <| dUpdated := now |>.

Definition Revision (session request : string) : Tx Store Z :=
  query (λ d, default 0 (revisions (dJournal d) !! (session, request))).

(** The greatest revision of the commands of a task. *)
Definition taskRevision (task : string) (t : Tables) : Z :=
  foldr (λ i m, Z.max (default 0 (revisions t !! (iSession i, iRequest i))) m) 0
    (filter (λ i, TaskID i = task) (intents t)).

Section Keys.
Context (keyJSON : Namespace → string → string).

(** [revalidate]: [None] without a callback, else its two answers. *)
Definition CancelQueuedAPI (c : AuthorizedCommand) (intent original : IntentRecord) (expected : Z)
    (messageRevision : option Z) (revalidate : option (option Err * option Err)) (now : Z)
  : Tx Store IntentRecord :=
  match revalidate with
  | None => tx_fail callerUnbound
  | Some (first, second) =>
      asked first;;
      stored ← query (λ d, taskRevision (TaskID original) (dJournal d));
      let before := match messageRevision with Some m => Z.max m stored | None => stored end in
      '(record, created) ← onJournal (ClaimTx keyJSON c intent now);
      if negb created then mret record
      else if negb (before =? expected) then tx_fail staleRevision
      else
        n ← updateRows (λ r, bool_decide (dChild r = iSession original) &&
                             bool_decide (dChildRequest r = iRequest original) && isQueued r)
              (cancelledRow now);
        if negb (changedOne n) then tx_fail busyNow
        else
          onJournal (ChangeTx (iSession original) (iRequest original) "cancelled_before_start" now);;
          asked second;;
          onJournal (SaveOutcomeTx (Key record) None now);;
          mret record
  end.

Definition CancelWaiting (parent id : string) (now : Z) : Tx Store bool :=
  found ← query (λ d, snd <$> list_find (λ r, dID r = id ∧ dParent r = parent) (rows d));
  r ← orNoRows found;
  if bool_decide (dState r = DTerminal) && bool_decide (dError r = "cancelled_before_start")
  then mret true
  else if negb (isQueued r) then mret false
  else
    updateRows (λ x, bool_decide (dID x = id) && isQueued x) (cancelledRow now);;
    onJournal (ChangeTx (dChild r) (dChildRequest r) "cancelled_before_start" now);;
    mret true.

(** ** Continuation and the commands of the task interface *)
Definition ByOrigin (parent origin call : string) (d : Store) : option Row :=
  snd <$> list_find (λ r, dParent r = parent ∧ dOrigin r = origin ∧ dCall r = call) (rows d).

Definition Continue (r : Record_) (first second : option Err) (now : Z) : Tx Store Row :=
  let row := rRow r in
  old ← query (ByOrigin (dParent row) (dOrigin row) (dCall row));
  match old with
  | Some old =>
      if negb (bool_decide (dIntent old = dIntent row)) then tx_fail (Plain "delegation_intent_conflict")
      else mret old
  | None =>
      asked first;;
      insertBounded r now;;
      asked second;;
      out ← query (rowOf (dID row));
      orNoRows out
  end.

Definition insertProfile (child profile : string) : Tx Store () :=
  exec (λ d, match insertRow child profile (childProfiles d) with
             | Some m => inl (tt, d <| childProfiles := m |>)
             | None => inr ConstraintError
             end).

(** [CreateAPI] with a profile, [CreateAPIContinuation] without. *)
Definition createAPI (c : AuthorizedCommand) (intent : IntentRecord) (r : Record_)
    (profile : option string) (revalidate : option (option Err * option Err)) (now : Z)
  : Tx Store (IntentRecord * bool) :=
  match revalidate with
  | None => tx_fail callerUnbound
  | Some (first, second) =>
      asked first;;
      '(record, created) ← onJournal (ClaimTx keyJSON c intent now);
      if negb created then mret (record, false)
      else
        inserted ← attempt (insertBounded r now);
        match inserted with
        | inr e =>
            if bool_decide (e = ErrQueueLimit) || bool_decide (e = ErrDeliveryLimit)
            then tx_fail busy else tx_fail e
        | inl _ =>
            (match profile with
             | Some p => insertProfile (dChild (rRow r)) p
             | None => mret tt
             end);;
            onJournal (ChangeTx (dChild (rRow r)) (dChildRequest (rRow r)) "admission" now);;
            asked second;;
            mret (record, true)
        end
  end.
End Keys.

(** ** The scheduler's batches *)
Definition pendingRow (r : Row) : bool := negb (bool_decide (dState r = DTerminal)) || undelivered r.

(** The rows with their rowids, which count from 1. *)
Definition numberedRows (l : list Row) : list (Z * Row) :=
  imap (λ i r, (Z.of_nat i + 1, r)) l.
Definition batchOf (cursor high limit : Z) (d : Store) : list (Z * Row) :=
  take (Z.to_nat limit)
    (filter (λ x, pendingRow x.2 = true ∧ cursor < x.1 ≤ high) (numberedRows (rows d))).

Definition PendingBatch (limit : Z) : Tx Store (list Row) :=
  '(cursor, high) ← query scanCursor;
  high ← (if high =? 0 then query (λ d, Z.of_nat (length (rows d))) else mret high);
  out ← query (batchOf cursor high limit);
  (if Z.of_nat (length out) <? limit
   then exec_ (λ d, d <| scanCursor := (0, 0) |>)
   else exec_ (λ d, d <| scanCursor := (from_option fst 0 (last out), high) |>));;
  mret (map snd out).

Definition PendingBatchTx (limit : Z) (fs : list bool) (d : Store)
  : (list Row * option Err) * Store * list bool :=
  if (limit <? 1) || (128 <? limit) then (([], Some (Plain "invalid delegation batch")), d, fs)
  else transaction [] (PendingBatch limit) fs d.

(** ** What is written once *)
Definition PinNativeThread (child thread : string) (revision : Z) : Tx Store () :=
  unsigned revision;;
  exec_ (λ d, d <| nativeThreads := insertOrIgnore child (thread, revision) (nativeThreads d) |>);;
  old ← query (λ d, nativeThreads d !! child);
  old ← orNoRows old;
  if negb (bool_decide (old = (thread, revision))) then tx_fail (Plain "delegation_native_binding_changed")
  else mret tt.

Definition ClaimSteer (id : string) : Tx Store bool :=
  n ← exec (λ d,
    let p o := bool_decide (oID o = id) && bool_decide (oMode o = "steer") && negb (bool_decide (id ∈ claimed d)) in
    inl (countb p (rounds d), if existsb p (rounds d) then d <| claimed := {[id]} ∪ claimed d |> else d));
  mret (changedOne n).

(** [owner] is the key, [qa] is UNIQUE. *)
Definition insertResponsibility (owner qa : string) : Tx Store () :=
  exec (λ d,
    if bool_decide (is_Some (responsibilities d !! owner)) ||
       existsb (λ x, bool_decide (x.2 = qa)) (map_to_list (responsibilities d))
    then inr ConstraintError
    else inl (tt, d <| responsibilities := <[owner := qa]> (responsibilities d) |>)).

Definition BindQA (owner qa : string) (first second : option Err) : Tx Store () :=
  asked first;;
  old ← query (λ d, responsibilities d !! owner);
  match old with
  | Some old =>
      if negb (bool_decide (old = qa)) then tx_fail (Plain "delegation_responsibility_immutable")
      else mret tt
  | None => insertResponsibility owner qa;; asked second
  end.

Definition insertReview (owner qa verdict : string) : Tx Store () :=
  exec (λ d,
    if bool_decide (is_Some (reviews d !! owner)) ||
       existsb (λ x, bool_decide (x.2.1 = qa)) (map_to_list (reviews d))
    then inr ConstraintError
    else inl (tt, d <| reviews := <[owner := (qa, verdict)]> (reviews d) |>)).

Definition RecordQA (owner qa verdict : string) : Tx Store () :=
  old ← query (λ d, reviews d !! owner);
  match old with
  | Some old =>
      if negb (bool_decide (old = (qa, verdict))) then tx_fail (Plain "delegation_review_conflict")
      else mret tt
  | None => insertReview owner qa verdict
  end.

Definition BindAuthority (name : string) (fs : list bool) (d : Store)
  : (() * option Err) * Store * list bool :=
  if str_empty name then ((tt, Some (Plain "delegation_authority_missing")), d, fs)
  else
    transaction tt
      (exec_ id;;
       exec_ (λ d, d <| authority_ := Some (default name (authority_ d)) |>);;
       old ← query authority_;
       old ← orNoRows old;
       if negb (bool_decide (old = name)) then tx_fail (Plain "delegation_wrong_authority")
       else mret tt) fs d.

Definition ReserveContinuityCommand (parent key : string) (k : ContinuityCommand) : Tx Store bool :=
  exec (λ d,
    let fresh := bool_decide (continuity d !! (parent, key) = None) in
    inl (fresh, d <| continuity :=
      insertOrIgnore (parent, key)
        (k <| kState := "reserved" |> <| kResult := None |> <| kError := "" |>) (continuity d) |>)).

Definition FinishContinuityCommand (parent key hash state : string) (result : option string) (code : string)
  : Tx Store () :=
  if negb (bool_decide (state ∈ ["completed"; "refused"])) then tx_fail (Plain "invalid_continuity_command_state")
  else
    n ← exec (λ d,
      match continuity d !! (parent, key) with
      | Some k =>
          if bool_decide (kHash k = hash) && bool_decide (kState k = "reserved")
          then inl (1%nat, d <| continuity := <[(parent, key) :=
                 k <| kState := state |> <| kResult := result |> <| kError := code |>]> (continuity d) |>)
          else inl (0%nat, d)
      | None => inl (0%nat, d)
      end);
    if negb (changedOne n) then tx_fail (Plain "continuity_command_changed") else mret tt.

(** ** Epochs of the source *)
Definition laterEpoch (e : SourceEpoch) (best : option SourceEpoch) : option SourceEpoch :=
  match best with
  | Some b => if eEpoch b <? eEpoch e then Some e else best
  | None => Some e
  end.
Definition SourceEpochOf (logical : string) (d : Store) : option SourceEpoch :=
  foldl (λ best e, laterEpoch e best) None (filter (λ e, eLogical e = logical) (epochs d)).

Definition insertEpoch (e : SourceEpoch) : Tx Store () :=
  unsigned (eEpoch e);;
  unsigned (eFrom e);;
  unsigned (eTo e);;
  exec (λ d,
    if existsb (λ x, bool_decide (eLogical x = eLogical e) &&
                     (bool_decide (eEpoch x = eEpoch e) || bool_decide (eFrom x = eFrom e))) (epochs d)
    then inr ConstraintError
    else inl (tt, d <| epochs := epochs d ++ [e] |>)).

(** Rounds of the task that are not finished and delivered. *)
Definition unsettledRounds (logical : string) (d : Store) : nat :=
  length (filter (λ r, existsb (λ o, bool_decide (oID o = dID r) && bool_decide (oLogical o = logical)) (rounds d)
                       && negb (bool_decide (dState r = DTerminal) && bool_decide (dDelivery r = Delivered)) = true)
            (rows d)).
(** [SELECT owner,qa ... WHERE owner=? OR qa=?]: some row of the two. *)
Definition responsibilityOf (pick : list (string * string) → option (string * string)) (logical : string)
    (d : Store) : option (string * string) :=
  pick (filter (λ x, x.1 = logical ∨ x.2 = logical) (map_to_list (responsibilities d))).

Definition reauthorizeOne (pick : list (string * string) → option (string * string))
    (owner qa : string) (a : SourceEpoch) : Tx Store () :=
  found ← query (λ d, r ← rowOf (eLogical a) d; b ← bindings d !! eLogical a; Some (r, b));
  '(r, b) ← orNoRows found;
  last ← query (SourceEpochOf (eLogical a));
  let current := from_option eTo (bRevision b) last in
  let epoch := from_option eEpoch 0 last in
  if negb (bool_decide (dParent r = eParent a)) || negb (bool_decide (bThread b = eThread a)) ||
     negb (current =? eFrom a) || (eTo a <=? current) || negb (eEpoch a =? u64_succ epoch)
  then tx_fail (Plain "delegation_reauthorization_stale")
  else
    pending ← query (unsettledRounds (eLogical a));
    if negb (pending =? 0)%nat then tx_fail (Plain "delegation_reauthorization_pending_work")
    else
      held ← query (responsibilityOf pick (eLogical a));
      if from_option (λ x, negb (bool_decide (x = (owner, qa)))) false held
      then tx_fail (Plain "delegation_responsibility_immutable")
      else insertEpoch a.

Definition ReauthorizePair (pick : list (string * string) → option (string * string))
    (a b : SourceEpoch) (first second : option Err) : Tx Store () :=
  asked first;;
  if bool_decide (eLogical a = eLogical b) || negb (bool_decide (ePeer a = eLogical b)) ||
     negb (bool_decide (ePeer b = eLogical a))
  then tx_fail (Plain "delegation_independent_qa_required")
  else
    reauthorizeOne pick (eLogical a) (eLogical b) a;;
    reauthorizeOne pick (eLogical a) (eLogical b) b;;
    asked second.

(** ** Sealed returns *)
Definition identityConflict : Err := Plain "handoff_return_identity_conflict".

Section Returns.
Context (sha256Hex : string → string) (normalize : string → option string).
(** The digest of the JSON array of the strings, the revision and the artifacts. *)
Context (digestJSON : list string → Z → list string → string).

Definition returnIdentity (r : Row) (thread : string) (revision : Z) : string :=
  digestJSON [dID r; dParent r; dParentRequest r; dChild r; dChildRequest r; dOrigin r; dCall r; thread;
              dStatus r; dResult r; dError r] revision (dArtifacts r).

Definition ReturnContext (r : Row) (thread : string) (revision : Z) (d : Store)
  : option (Snapshot * string) + Err :=
  match returns d !! dID r with
  | None => inl None
  | Some t =>
      if negb (bool_decide (tParent t = dParent r)) ||
         negb (bool_decide (tIdentity t = returnIdentity r thread revision))
      then inr identityConflict
      else inl (Some (tSnapshot t, tContent t))
  end.

(** A file revision that went back, or changed under one number. *)
Definition drifts (s : Snapshot) (previous : option (Z * string)) : bool :=
  match previous with
  | Some (n, sha) =>
      (sRevision s <? n) || ((sRevision s =? n) && negb (bool_decide (SHA256 s = sha)))
  | None => false
  end.
Definition drifted (s : Snapshot) : Snapshot :=
  s <| Status := "unavailable" |> <| Reason := "revision_drift" |> <| Goal := "" |>
    <| Progress := "" |> <| NextStep := "" |>.

Definition insertReturn (id : string) (t : Return) : Tx Store () :=
  exec (λ d, match insertRow id t (returns d) with
             | Some m => inl (tt, d <| returns := m |>)
             | None => inr ConstraintError
             end).

(** The snapshot that is stored. *)
Definition admitSnapshot (r : Row) (snapshot : Snapshot) : Tx Store Snapshot :=
  let s := Bounded sha256Hex normalize
             (snapshot <| ResultSHA256 := sha256Hex (dResult r) |> <| DelegationID := dID r |>) in
  if bool_decide (Status s = "available") then
    previous ← query (λ d, handoffs d !! (dParent r, sPath s));
    if drifts s previous then mret (drifted s)
    else
      unsigned (sRevision s);;
      exec_ (λ d, d <| handoffs := <[(dParent r, sPath s) := (sRevision s, SHA256 s)]> (handoffs d) |>);;
      mret s
  else mret s.

Definition SealReturnContext (r : Row) (thread : string) (revision : Z) (snapshot : Snapshot)
    (original : string) : Tx Store (Snapshot * string) :=
  found ← query (λ d,
    x ← rowOf (dID r) d; b ← bindings d !! dID r;
    if bool_decide (dState x = DTerminal) then Some (x, b) else None);
  '(x, b) ← orNoRows found;
  if negb (bool_decide (dParent x = dParent r ∧ dParentRequest x = dParentRequest r ∧ dChild x = dChild r ∧
             dChildRequest x = dChildRequest r ∧ dResult x = dResult r ∧ dStatus x = dStatus r ∧
             bThread b = thread ∧ bRevision b = revision))
  then tx_fail identityConflict
  else
    old ← query (λ d, t ← returns d !! dID r; if bool_decide (tParent t = dParent r) then Some t else None);
    match old with
    | Some t =>
        if negb (bool_decide (tIdentity t = returnIdentity r thread revision)) then tx_fail identityConflict
        else mret (tSnapshot t, tContent t)
    | None =>
        s ← admitSnapshot r snapshot;
        let content := original +:+ Reminder sha256Hex normalize s in
        insertReturn (dID r) (mkReturn (dParent r) (returnIdentity r thread revision) s content);;
        mret (s, content)
    end.
End Returns.

(** ** Opening an existing store

    [Open] runs its statements again: they create nothing that exists, and give
    every row without a round one, numbered within its pair of conversations. *)
Definition samePair (r r' : Row) : bool :=
  bool_decide (dParent r' = dParent r) && bool_decide (dChild r' = dChild r).
Definition legacyRound (l : list Row) (i : nat) (r : Row) : Round :=
  let before := filter (λ x, samePair r x = true) (take i l) in
  mkRound (dID r) (from_option dID (dID r) (head before)) (Z.of_nat (length before) + 1)
    (from_option dID "" (last before)) "" "" "queue" "".
Definition ignoreRound (l : list Round) (o : Round) : list Round :=
  if existsb (λ o', bool_decide (oID o' = oID o) ||
                    (bool_decide (oLogical o' = oLogical o) && bool_decide (oVersion o' = oVersion o))) l
  then l else l ++ [o].
Definition Reopen (d : Store) : Store :=
  d <| capacity := insertOrIgnore "" DefaultLimits (capacity d) |>
    <| rounds := foldl ignoreRound (rounds d) (imap (legacyRound (rows d)) (rows d)) |>.

(** ** Queries *)
Definition find (p : Row → bool) (d : Store) : option Row :=
  snd <$> list_find (λ r, p r = true) (rows d).
Definition created_row_le (a b : Row) : Prop := dCreated a ≤ dCreated b.
#[global] Instance created_row_le_dec : RelDecision created_row_le := λ a b, decide (dCreated a ≤ dCreated b).
Definition byVersion (a b : Round) : Prop := oVersion a ≤ oVersion b.
#[global] Instance byVersion_dec : RelDecision byVersion := λ a b, decide (oVersion a ≤ oVersion b).

Definition ByID (id : string) : Tx Store (option Row) := query (rowOf id).
Definition ByChildRequest (child request : string) : Tx Store (option Row) :=
  query (find (λ r, bool_decide (dChild r = child) && bool_decide (dChildRequest r = request))).
Definition ByParentRequest (parent request : string) : Tx Store (option Row) :=
  query (find (returnOf parent request)).
Definition Pending (d : Store) : list Row :=
  take 128 (merge_sort created_row_le (filter (λ r, pendingRow r = true) (rows d))).
Definition ListByParent (parent : string) (d : Store) : list Row :=
  merge_sort created_row_le (filter (λ r, dParent r = parent) (rows d)).
Definition ActiveCountForParent (parent : string) (d : Store) : nat :=
  countb (λ r, bool_decide (dParent r = parent) && inState [DProvisioning; DRunning] r) (rows d).
Definition HasChild (child : string) (d : Store) : bool :=
  existsb (λ r, bool_decide (dChild r = child)) (rows d).
Definition HasChildReceipt (child request : string) (d : Store) : bool :=
  existsb (λ r, bool_decide (dChild r = child) && bool_decide (dChildRequest r = request)) (rows d).
Definition SourceBinding (id : string) (d : Store) : option (string * Z) :=
  b ← bindings d !! id; Some (bThread b, bRevision b).
Definition ExecutionBinding (id : string) (d : Store) : string * Z * string :=
  match bindings d !! id with
  | Some b => (bExpectedThread b, bExpectedRevision b, bCwd b)
  | None => ("", 0, "")
  end.
Definition NativeCommitment (id : string) (d : Store) : bool := bool_decide (is_Some (commitments d !! id)).
Definition Rounds (logical : string) (d : Store) : list Round :=
  take 128 (merge_sort byVersion (filter (λ o, oLogical o = logical) (rounds d))).
Definition RoundsAfter (logical : string) (after : Z) (d : Store) : list Round :=
  take 128 (merge_sort byVersion (filter (λ o, oLogical o = logical ∧ after < oVersion o) (rounds d))).
Definition ArtifactRounds (logical parent child request : string) (d : Store) : list Round + Err :=
  let out := take 1025 (merge_sort byVersion (filter (λ o,
    oLogical o = logical ∧ oMode o = "queue" ∧
    existsb (λ r, bool_decide (dID r = oID o ∧ dParent r = parent ∧ dChild r = child) &&
                  (str_empty request || bool_decide (dChildRequest r = request))) (rows d) = true) (rounds d))) in
  if (1024 <? length out)%nat then inr (Plain "artifact_owner_selector_required") else inl out.
Definition OriginalRootForChild (child : string) (d : Store) : option Row :=
  find (λ r, bool_decide (dChild r = child) &&
             existsb (λ o, bool_decide (oLogical o = dID r)) (rounds d)) d.

(** [SessionSources]: 200 children a statement. *)
Record SessionSource := mkSource {
  sID : string; sParent : string; sChild : string; sRequest : string; sOrigin : string; sState : RState;
  sStatus : string; sDelivery : Delivery; FinalObserved : bool; sUpdated : Z }.
(** [length(trim(result))>0]: spaces are trimmed, and a length ends at a NUL. *)
Fixpoint trimmedText (s : string) : bool :=
  match s with
  | EmptyString => false
  | String a s =>
      if bool_decide (a = Ascii.ascii_of_nat 32) then trimmedText s
      else negb (bool_decide (a = Ascii.ascii_of_nat 0))
  end.
Definition sourceOf (r : Row) : SessionSource :=
  mkSource (dID r) (dParent r) (dChild r) (dChildRequest r) (dOrigin r) (dState r) (dStatus r) (dDelivery r)
    (bool_decide (dState r = DTerminal) && bool_decide (dStatus r = "completed") && trimmedText (dResult r))
    (dUpdated r).
Definition later_source (a b : SessionSource) : Prop :=
  sUpdated b < sUpdated a ∨ sUpdated a = sUpdated b ∧ str_le (sID a) (sID b).
#[global] Instance later_source_dec : RelDecision later_source := λ a b,
  decide (sUpdated b < sUpdated a ∨ sUpdated a = sUpdated b ∧ str_le (sID a) (sID b)).
Definition sourcesOf (children : list string) (d : Store) : list SessionSource :=
  merge_sort later_source (map sourceOf (filter (λ r, dChild r ∈ children) (rows d))).
Fixpoint sourcesFrom (fuel : nat) (children : list string) : Tx Store (list SessionSource) :=
  match fuel, children with
  | S fuel, _ :: _ =>
      out ← query (sourcesOf (take 200 children));
      rest ← sourcesFrom fuel (drop 200 children);
      mret (out ++ rest)
  | _, _ => mret []
  end.
Definition SessionSources (children : list string) : Tx Store (list SessionSource) :=
  sourcesFrom (length children) children.

(** ** Histories *)

(** A statement that is no transaction. *)
Definition alone {A} (zero : A) (m : Tx Store A) (fs : list bool) (d : Store)
  : (A * option Err) * Store * list bool :=
  single (λ e, (zero, Some e)) (a ← m; mret (a, None)) fs d.

Inductive dop :=
  | OpCreateBounded (r : Record_) (now : Z)
  | OpContinue (r : Record_) (first second : option Err) (now : Z)
  | OpCreateAPI (c : AuthorizedCommand) (intent : IntentRecord) (r : Record_) (profile : option string)
      (revalidate : option (option Err * option Err)) (now : Z)
  | OpTryPromote (id : string) (now : Z)
  | OpMarkRunning (id : string) (now : Z)
  | OpMarkProvisionFailed (id reason : string) (now : Z)
  | OpMarkCollecting (id status : string) (now : Z)
  | OpComplete (child request status result reason : string) (artifacts : list string) (now : Z)
  | OpMarkDeliveryQueued (id : string) (now : Z)
  | OpMarkDelivered (parent request : string) (now : Z)
  | OpMarkDeliveryFailed (parent request reason : string) (now : Z)
  | OpCancelQueuedAPI (c : AuthorizedCommand) (intent original : IntentRecord) (expected : Z)
      (messageRevision : option Z) (revalidate : option (option Err * option Err)) (now : Z)
  | OpCancelWaiting (parent id : string) (now : Z)
  | OpConfigure (c : CapacityConfig)
  | OpPendingBatch (limit : Z)
  | OpPin (child thread : string) (revision : Z)
  | OpClaimSteer (id : string)
  | OpBindQA (owner qa : string) (first second : option Err)
  | OpRecordQA (owner qa verdict : string)
  | OpBindAuthority (name : string)
  | OpReserve (parent key : string) (k : ContinuityCommand)
  | OpFinish (parent key hash state : string) (result : option string) (code : string)
  | OpReauthorize (pick : list (string * string) → option (string * string)) (a b : SourceEpoch)
      (first second : option Err)
  | OpSeal (r : Row) (thread : string) (revision : Z) (snapshot : Snapshot) (original : string)
  | OpReopen.

Section Perform.
Context (keyJSON : Namespace → string → string) (sha256Hex : string → string)
        (normalize : string → option string) (digestJSON : list string → Z → list string → string).

(** Whether the operation reports that it made the change, and the store. *)
Definition perform (o : dop) (fs : list bool) (d : Store) : bool * Store :=
  let done_ {A} (win : A → bool) (x : (A * option Err) * Store * list bool) : bool * Store :=
    (win x.1.1.1 && bool_decide (x.1.1.2 = None), x.1.2) in
  let quiet (x : (() * option Err) * Store * list bool) := done_ (λ _, false) x in
  match o with
  | OpCreateBounded r now => quiet (CreateBounded r now fs d)
  | OpContinue r first second now =>
      done_ (λ _, false) (transaction (rRow r) (Continue r first second now) fs d)
  | OpCreateAPI c intent r profile revalidate now =>
      done_ snd (transaction (intent, false) (createAPI keyJSON c intent r profile revalidate now) fs d)
  | OpTryPromote id now => done_ (λ b, b) (transaction false (TryPromote id now) fs d)
  | OpMarkRunning id now => quiet (alone tt (MarkRunning id now) fs d)
  | OpMarkProvisionFailed id reason now => quiet (alone tt (MarkProvisionFailed id reason now) fs d)
  | OpMarkCollecting id status now => quiet (alone tt (MarkCollecting id status now) fs d)
  | OpComplete child request status result reason artifacts now =>
      done_ (λ b, b) (alone false (Complete child request status result reason artifacts now) fs d)
  | OpMarkDeliveryQueued id now => quiet (alone tt (MarkDeliveryQueued id now) fs d)
  | OpMarkDelivered parent request now => done_ (λ b, b) (alone false (MarkDelivered parent request now) fs d)
  | OpMarkDeliveryFailed parent request reason now =>
      done_ (λ b, b) (alone false (MarkDeliveryFailed parent request reason now) fs d)
  | OpCancelQueuedAPI c intent original expected messageRevision revalidate now =>
      done_ (λ _, false)
        (transaction intent (CancelQueuedAPI keyJSON c intent original expected messageRevision revalidate now) fs d)
  | OpCancelWaiting parent id now => done_ (λ b, b) (transaction false (CancelWaiting parent id now) fs d)
  | OpConfigure c => quiet (ConfigureCapacity c fs d)
  | OpPendingBatch limit => done_ (λ _, false) (PendingBatchTx limit fs d)
  | OpPin child thread revision => quiet (transaction tt (PinNativeThread child thread revision) fs d)
  | OpClaimSteer id => done_ (λ b, b) (alone false (ClaimSteer id) fs d)
  | OpBindQA owner qa first second => quiet (transaction tt (BindQA owner qa first second) fs d)
  | OpRecordQA owner qa verdict => quiet (transaction tt (RecordQA owner qa verdict) fs d)
  | OpBindAuthority name => quiet (BindAuthority name fs d)
  | OpReserve parent key k => done_ (λ b, b) (alone false (ReserveContinuityCommand parent key k) fs d)
  | OpFinish parent key hash state result code =>
      quiet (alone tt (FinishContinuityCommand parent key hash state result code) fs d)
  | OpReauthorize pick a b first second => quiet (transaction tt (ReauthorizePair pick a b first second) fs d)
  | OpSeal r thread revision snapshot original =>
      done_ (λ _, false) (transaction (snapshot, "")
        (SealReturnContext sha256Hex normalize digestJSON r thread revision snapshot original) fs d)
  | OpReopen => (false, Reopen d)
  end.

Definition run (l : list (dop * list bool)) (d : Store) : Store :=
  foldl (λ d x, (perform x.1 x.2 d).2) d l.
End Perform.
