(* ===== verification/DelegationStore.v ===== *)
(** * What every operation of the delegation store does

    [moves]: how a row may change.  [dstep]: the steps of the store as a state
    machine: something beside the rows, rows that advance, one promotion, one
    admission, a configuration.  Every operation, whatever fails in it, is a
    step or changes nothing ([perform_steps]); the invariants of the store
    follow by induction over the steps. *)
From S2P Require Import Prelude Orders Sql TaskJournal Decimal Base64 Handoff Delegation.

(** ** Rows *)
Definition rank (s : RState) : nat :=
  match s with DQueued => 0 | DProvisioning => 1 | DRunning => 2 | DCollecting => 3 | DTerminal => 4 end.

(** The columns that no statement updates. *)
Definition identity (r : Row) :=
  ((dID r, dParent r, dOrigin r, dCall r, dIntent r), (dChild r, dChildRequest r, dName r, dCwd r),
   (dInstruction r, dModel r, dEffort r, dSandbox r, dParentRequest r, dCreated r)).
Definition outcome (r : Row) := (dStatus r, dResult r, dArtifacts r, dError r).

(** How far a delivery has come; it fails from anywhere before its end. *)
Definition delivers (a b : Delivery) : Prop :=
  a = b ∨ a = DeliveryPending ∧ b ∈ [DeliveryQueued; Delivered; DeliveryFailed] ∨
  a = DeliveryQueued ∧ b ∈ [Delivered; DeliveryFailed].

Record moves (r r' : Row) : Prop := mkMoves {
  mv_identity : identity r' = identity r;
  mv_rank : (rank (dState r) ≤ rank (dState r'))%nat;
  mv_final : dState r = DTerminal → outcome r' = outcome r;
  mv_delivery : delivers (dDelivery r) (dDelivery r');
  mv_returns : dDelivery r' ≠ dDelivery r → dState r' = DTerminal }.

Lemma delivers_trans a b c : delivers a b → delivers b c → delivers a c.
Proof.
  unfold delivers. rewrite !elem_of_cons, !elem_of_nil.
  intros [-> |[[-> H]|[-> H]]]; [done| |]; intros [<- |[[-> H2]|[-> H2]]]; naive_solver.
Qed.
Lemma row_stays r : moves r r.
Proof. split; try done. by left. Qed.
Lemma moves_trans r1 r2 r3 : moves r1 r2 → moves r2 r3 → moves r1 r3.
Proof.
  intros [I1 R1 F1 D1 T1] [I2 R2 F2 D2 T2]. split; [congruence|lia| |by eapply delivers_trans|].
  - intros H. rewrite F2, F1; [done..|]. rewrite H in R1. destruct (dState r2); simpl in R1; lia || done.
  - intros H. destruct (decide (dDelivery r3 = dDelivery r2)) as [E|E]; [|by apply T2].
    rewrite E in H. specialize (T1 H). rewrite T1 in R2. destruct (dState r3); simpl in R2; lia || done.
Qed.

Lemma moves_id r r' : moves r r' → dID r' = dID r ∧ dParent r' = dParent r ∧ dChild r' = dChild r.
Proof. intros [[=]]. by split_and!. Qed.

(** A row that moves without being promoted. *)
Definition idles (r r' : Row) : Prop :=
  dState r = DQueued → dState r' = DQueued ∨ dState r' = DTerminal.
Definition advances (r r' : Row) : Prop := moves r r' ∧ idles r r'.
Lemma advances_refl r : advances r r.
Proof. split; [apply row_stays|by left]. Qed.

(** ** Steers *)
Lemma steers_rounds d d' id : rounds d' = rounds d → steers d' id = steers d id.
Proof. unfold steers. by intros ->. Qed.
Lemma steers_snoc d l o id :
  rounds d = l ++ [o] →
  steers d id = existsb (λ o, bool_decide (oID o = id) && bool_decide (oMode o = "steer")) l
                || (bool_decide (oID o = id) && bool_decide (oMode o = "steer")).
Proof. unfold steers. intros ->. rewrite existsb_app. simpl. by rewrite orb_false_r. Qed.

(** ** Admission *)

(** The new row of a record, and the round it gets. *)
Definition rowIn (r : Record_) (s : RState) (now : Z) : Row :=
  let row := fresh (rRow r) s now in
  if bool_decide (dDelivery (rRow r) = NotRequested) then row <| dDelivery := NotRequested |> else row.

Record admissible (r : Record_) (s : RState) (d : Store) : Prop := mkAdmissible {
  ad_named : named (rRow r) = true;
  ad_limits : ∃ l, limitsOf (dParent (rRow r)) d = Some l ∧
    nReserved (countsOf (dParent (rRow r)) d) < lDelivery l ∧
    (Mode r = "steer" ∧ s = DProvisioning ∨
     Mode r ≠ "steer" ∧ s = DProvisioning ∧ nActive (countsOf (dParent (rRow r)) d) < lActive l ∧
       nQueued (countsOf (dParent (rRow r)) d) = 0 ∧ childBusy d (dChild (rRow r)) = false ∨
     Mode r ≠ "steer" ∧ s = DQueued ∧ nQueued (countsOf (dParent (rRow r)) d) < lQueued l);
  ad_clash : ∀ x, x ∈ rows d → clashes (fresh (rRow r) s 0) x = false }.

Record follows (r : Record_) (o : Round) (d : Store) : Prop := mkFollows {
  fo_id : oID o = dID (rRow r);
  fo_previous : oPrevious o = PreviousID r;
  fo_mode : oMode o = if str_empty (Mode r) then "queue" else Mode r;
  fo_new : ∀ o', o' ∈ rounds d → oID o' ≠ oID o;
  fo_bound : oVersion o ≤ i64_max;
  fo_chain : oLogical o = oID o ∧ oVersion o = 1 ∧ (∀ o', o' ∈ rounds d → oLogical o' = oLogical o → oVersion o' ≠ 1) ∨
    ∃ p, latestRound (oLogical o) d = Some p ∧ oID p = oPrevious o ∧ oVersion o = u64_succ (oVersion p) }.

Record admits (r : Record_) (s : RState) (now : Z) (d d' : Store) : Prop := mkAdmits {
  am_admissible : admissible r s d;
  am_rows : rows d' = rows d ++ [rowIn r s now];
  am_binding : bindings d !! dID (rRow r) = None;
  am_bindings : bindings d' = <[dID (rRow r) :=
    mkBinding (SourceThread r) (SourceRevision r) (ExpectedThread r) (ExpectedRevision r)
      (WorkspaceIdentity r)]> (bindings d);
  am_round : ∃ o, rounds d' = rounds d ++ [o] ∧ follows r o d }.

(** ** Guards *)
Lemma inState_spec l r : inState l r = true ↔ dState r ∈ l.
Proof. unfold inState. apply bool_decide_eq_true. Qed.
Lemma undelivered_spec r : undelivered r = true ↔ dDelivery r = DeliveryPending ∨ dDelivery r = DeliveryQueued.
Proof. unfold undelivered. rewrite bool_decide_eq_true, !elem_of_cons, elem_of_nil. naive_solver. Qed.
Lemma isQueued_spec r : isQueued r = true ↔ dState r = DQueued.
Proof. unfold isQueued. apply bool_decide_eq_true. Qed.

(** The guard of an update as propositions. *)
Ltac row_guard H :=
  rewrite ?andb_true_iff, ?inState_spec, ?undelivered_spec, ?isQueued_spec, ?bool_decide_eq_true,
    ?elem_of_cons, ?elem_of_nil in H; destruct_and?.

Section Steps.
(** The limits an operation may configure, and whether it leaves the scan where it was. *)
Context (confers : Limits → Prop) (still : Prop).

(** ** Tables written once *)
Record grows (d d' : Store) : Prop := mkGrows {
  gr_thread : ∀ k x, nativeThreads d !! k = Some x → nativeThreads d' !! k = Some x;
  gr_responsibility : ∀ k x, responsibilities d !! k = Some x → responsibilities d' !! k = Some x;
  gr_review : ∀ k x, reviews d !! k = Some x → reviews d' !! k = Some x;
  gr_authority : ∀ x, authority_ d = Some x → authority_ d' = Some x;
  gr_profile : ∀ k x, childProfiles d !! k = Some x → childProfiles d' !! k = Some x;
  gr_return : ∀ k x, returns d !! k = Some x → returns d' !! k = Some x;
  gr_commitment : ∀ k x, commitments d !! k = Some x → commitments d' !! k = Some x;
  gr_claimed : claimed d ⊆ claimed d';
  gr_epoch : epochs d `prefix_of` epochs d';
  gr_command : ∀ k x, continuity d !! k = Some x → ∃ x', continuity d' !! k = Some x' ∧
    kHash x' = kHash x ∧ kAction x' = kAction x ∧ kRequest x' = kRequest x ∧ kCall x' = kCall x ∧
    kEffect x' = kEffect x ∧ kFormal x' = kFormal x ∧ (kState x ≠ "reserved" → x' = x);
  gr_handoff : ∀ k n h, handoffs d !! k = Some (n, h) →
    ∃ n' h', handoffs d' !! k = Some (n', h') ∧ (n < n' ∨ n' = n ∧ h' = h);
  gr_cursor : still → scanCursor d' = scanCursor d }.

Lemma nothing_lost d : grows d d.
Proof.
  split; try done.
  - intros k x H. exists x. split_and!; done.
  - intros k n h H. exists n, h. split; [done|by right].
Qed.
Lemma grows_trans d1 d2 d3 : grows d1 d2 → grows d2 d3 → grows d1 d3.
Proof.
  intros [T1 R1 V1 A1 P1 S1 M1 L1 E1 C1 H1 K1] [T2 R2 V2 A2 P2 S2 M2 L2 E2 C2 H2 K2].
  split; auto; [set_solver|by etrans| | |intros Hs; by rewrite K2, K1].
  - intros k x (y & Hy & ? & ? & ? & ? & ? & ? & Hxy)%C1.
    destruct (C2 _ _ Hy) as (z & Hz & ? & ? & ? & ? & ? & ? & Hyz). exists z. split_and!; try congruence.
    intros Hs. rewrite Hyz; [by apply Hxy|]. by rewrite (Hxy Hs).
  - intros k n h (n2 & h2 & Hk & Hn)%H1. destruct (H2 _ _ _ Hk) as (n3 & h3 & ? & Hn3).
    exists n3, h3. split; [done|]. destruct Hn as [?|[-> ->]], Hn3 as [?|[-> ->]]; auto; left; lia.
Qed.
(** A change of the journal, the rows or the rounds only. *)
Lemma grows_same d d' :
  nativeThreads d' = nativeThreads d → responsibilities d' = responsibilities d → reviews d' = reviews d →
  authority_ d' = authority_ d → childProfiles d' = childProfiles d → returns d' = returns d →
  commitments d' = commitments d → claimed d' = claimed d → epochs d' = epochs d → continuity d' = continuity d →
  handoffs d' = handoffs d → (still → scanCursor d' = scanCursor d) → grows d d'.
Proof.
  intros E1 E2 E3 E4 E5 E6 E7 E8 E9 E10 E11 E12. pose proof (nothing_lost d) as [].
  split; rewrite ?E1, ?E2, ?E3, ?E4, ?E5, ?E6, ?E7, ?E8, ?E9, ?E10, ?E11; done.
Qed.

(** ** Steps *)
Definition promoted (now : Z) (r : Row) : Row := (r <| dState := DProvisioning |> <| dUpdated := now |>).

#[local] Unset Elimination Schemes.
Inductive dstep (d d' : Store) : Prop :=
  | D_aside :
      rows d' = rows d → rounds d' = rounds d → capacity d' = capacity d → bindings d' = bindings d →
      dstep d d'
  | D_advance (f : Row → Row) :
      rows d' = map f (rows d) → (∀ r, r ∈ rows d → advances r (f r)) →
      rounds d' = rounds d → capacity d' = capacity d → bindings d' = bindings d →
      dstep d d'
  | D_promote (i : nat) (r : Row) (l : Limits) (now : Z) :
      rows d !! i = Some r → dState r = DQueued → limitsOf (dParent r) d = Some l →
      nActive (countsOf (dParent r) d) < lActive l → childBusy d (dChild r) = false →
      olderWaits (dParent r) i d = false →
      rows d' = <[i := promoted now r]> (rows d) →
      rounds d' = rounds d → capacity d' = capacity d → bindings d' = bindings d →
      dstep d d'
  | D_admit (r : Record_) (s : RState) (now : Z) :
      admits r s now d d' → capacity d' = capacity d → dstep d d'
  | D_configure :
      rows d' = rows d → rounds d' = rounds d → bindings d' = bindings d →
      is_Some (capacity d' !! "") → (∀ parent l, capacity d' !! parent = Some l → confers l) → dstep d d'.
#[local] Set Elimination Schemes.

(** ** Statements under [wp] *)

(** What the rows are read through is the same. *)
Record alike (d d' : Store) : Prop := mkAlike {
  al_rows : rows d' = rows d; al_rounds : rounds d' = rounds d; al_capacity : capacity d' = capacity d;
  al_bindings : bindings d' = bindings d }.
Lemma alike_refl d : alike d d.
Proof. done. Qed.
Lemma alike_trans d1 d2 d3 : alike d1 d2 → alike d2 d3 → alike d1 d3.
Proof. intros [] []. split; congruence. Qed.

Lemma steers_alike d d' id : alike d d' → steers d' id = steers d id.
Proof. intros H. apply steers_rounds, H. Qed.
Lemma childBusy_alike d d' c : alike d d' → childBusy d' c = childBusy d c.
Proof.
  intros H. unfold childBusy, occupies. rewrite (al_rows _ _ H).
  induction (rows d) as [|r l IH]; [done|]. simpl. by rewrite (steers_alike d d'), IH.
Qed.
Lemma countb_ext {A} (p q : A → bool) l : (∀ x, x ∈ l → p x = q x) → countb p l = countb q l.
Proof.
  induction l as [|x l IH]; intros H; [done|]. simpl. rewrite (H x) by left. rewrite IH; [done|].
  intros y Hy. apply H. by right.
Qed.
Lemma countRows_ext parent p q d d' :
  rows d' = rows d → (∀ r, r ∈ rows d → p r = q r) → countRows parent p d' = countRows parent q d.
Proof.
  intros E H. unfold countRows. rewrite E. f_equal. apply countb_ext. intros r Hr. unfold ofParent.
  by rewrite H.
Qed.
Lemma countsOf_steers d d' parent :
  rows d' = rows d → (∀ id, steers d' id = steers d id) → countsOf parent d' = countsOf parent d.
Proof.
  intros E H. unfold countsOf. f_equal; apply countRows_ext; try done. intros r _. unfold isActive. by rewrite H.
Qed.
Lemma countsOf_alike d d' parent : alike d d' → countsOf parent d' = countsOf parent d.
Proof. intros H. apply countsOf_steers; [apply H|]. intros. by apply steers_alike. Qed.

Lemma wp_asked o (Q : () → Store → Prop) d : (o = None → Q tt d) → wp (asked o) Q d.
Proof. intros H. destruct o; [apply wp_fail|]. apply wp_ret. by apply H. Qed.
Lemma wp_orNoRows {A} (o : option A) (Q : A → Store → Prop) d : (∀ a, o = Some a → Q a d) → wp (orNoRows o) Q d.
Proof. intros H. destruct o; [|apply wp_fail]. apply wp_ret. by apply H. Qed.
Lemma wp_unsigned n (Q : () → Store → Prop) d : (n ≤ i64_max → Q tt d) → wp (unsigned n) Q d.
Proof. intros H. unfold unsigned. destruct (Z.ltb_spec i64_max n); [apply wp_fail|]. apply wp_ret. by apply H. Qed.
Lemma wp_attempt {A} (m : Tx Store A) (Q : A + Err → Store → Prop) d :
  wp m (λ a d', Q (inl a) d') d → (∀ e, Q (inr e) d) → wp (attempt m) Q d.
Proof.
  intros Hm Hf fs. specialize (Hm fs). unfold attempt. destruct (m fs d) as [fs' [[a d']|e]]; simpl in *; [done|apply Hf].
Qed.
Lemma wp_updateRows p f (Q : nat → Store → Prop) d :
  Q (countb p (rows d)) (d <| rows := map (λ r, if p r then f r else r) (rows d) |>) → wp (updateRows p f) Q d.
Proof. intros H. unfold updateRows. by apply wp_exec. Qed.
Lemma transaction_elim {A} (zero : A) (m : Tx Store A) fs d (P : A * option Err → Store → Prop) :
  wp m (λ a d', P (a, None) d') d → (∀ e, P (zero, Some e) d) →
  let '(r, d', _) := transaction zero m fs d in P r d'.
Proof.
  intros Hm Hf. unfold transaction. apply atomically_elim; [|done].
  apply wp_bind. eapply wp_mono; [exact Hm|]. intros a d' H. by apply wp_ret.
Qed.

(** *** Admission *)
Lemma limitsFor_wp parent (Q : Limits → Store → Prop) d :
  (∀ l, limitsOf parent d = Some l → Q l d) → wp (limitsFor parent) Q d.
Proof. intros H. unfold limitsFor. repeat wp_step. apply wp_orNoRows. auto. Qed.

Definition roomFor (parent child : string) (s : RState) (d : Store) : Prop :=
  ∃ l, limitsOf parent d = Some l ∧ nReserved (countsOf parent d) < lDelivery l ∧
    (s = DProvisioning ∧ nActive (countsOf parent d) < lActive l ∧ nQueued (countsOf parent d) = 0 ∧
       childBusy d child = false ∨
     s = DQueued ∧ nQueued (countsOf parent d) < lQueued l).

Lemma admissionState_wp parent child d :
  wp (admissionState parent child) (λ s d', d' = d ∧ roomFor parent child s d) d.
Proof.
  unfold admissionState. wp_step. apply limitsFor_wp. intros l Hl. wp_step. unfold countsFor. wp_step.
  cbv beta. destruct (Z.leb_spec (lDelivery l) (nReserved (countsOf parent d))); [apply wp_fail|].
  repeat wp_step. destruct (_ && _) eqn:E.
  - wp_step. split; [done|]. exists l. split_and!; [done|lia|]. left. bool_facts. split_and!; try done; lia.
  - destruct (Z.leb_spec (lQueued l) (nQueued (countsOf parent d))); [apply wp_fail|].
    wp_step. split; [done|]. exists l. split_and!; [done|lia|]. right. split; [done|lia].
Qed.
Lemma steerState_wp parent d :
  wp (steerState parent) (λ s d', d' = d ∧ s = DProvisioning ∧
    ∃ l, limitsOf parent d = Some l ∧ nReserved (countsOf parent d) < lDelivery l) d.
Proof.
  unfold steerState. wp_step. apply limitsFor_wp. intros l Hl. wp_step. unfold countsFor. wp_step.
  cbv beta. destruct (Z.leb_spec (lDelivery l) (nReserved (countsOf parent d))); [apply wp_fail|].
  wp_step. split_and!; try done. exists l. split; [done|lia].
Qed.

(** The store after the statements of an admission, one by one. *)
Definition addRow (r : Row) (d : Store) : Store := d <| rows := rows d ++ [r] |>.
Definition addBinding (id : string) (b : Binding) (d : Store) : Store := d <| bindings := <[id := b]> (bindings d) |>.
Definition addCommitment (id : string) (now : Z) (d : Store) : Store :=
  d <| commitments := <[id := now]> (commitments d) |>.
Definition addRound (o : Round) (d : Store) : Store := d <| rounds := rounds d ++ [o] |>.
Definition admitted (r : Record_) (s : RState) (now : Z) (o : Round) (d : Store) : Store :=
  let id := dID (rRow r) in
  let b := mkBinding (SourceThread r) (SourceRevision r) (ExpectedThread r) (ExpectedRevision r)
             (WorkspaceIdentity r) in
  addRound o (addCommitment id now (addBinding id b (addRow (rowIn r s now) d))).

Lemma clashes_state x s s' now now' y : clashes (fresh x s now) y = clashes (fresh x s' now') y.
Proof. done. Qed.

Lemma fresh_id r s now : dID (fresh r s now) = dID r.
Proof. reflexivity. Qed.
Lemma clashes_id r x : clashes r x = false → dID x ≠ dID r.
Proof.
  unfold clashes. rewrite !orb_false_iff, !bool_decide_eq_false. intros [[[H _] _] _] E. by apply H.
Qed.

Lemma insertDelegation_wp r s now (Q : () → Store → Prop) d :
  ((∀ x, x ∈ rows d → clashes (fresh r s 0) x = false) →
   Q tt (addRow (fresh r s now) d)) →
  wp (insertDelegation (fresh r s now)) Q d.
Proof.
  intros H. apply wp_exec. destruct (existsb _ (rows d)) eqn:E; [done|]. apply H. intros x Hx.
  rewrite (clashes_state _ _ s _ now). destruct (clashes (fresh r s now) x) eqn:Ex; [|done].
  assert (existsb (clashes (fresh r s now)) (rows d) = true); [|congruence].
  apply existsb_exists. exists x. by rewrite list_elem_of_In in Hx.
Qed.

Lemma not_requested_wp r s now (Q : () → Store → Prop) d :
  (∀ x, x ∈ rows d → dID x ≠ dID (rRow r)) →
  Q tt (addRow (rowIn r s now) d) →
  wp (if bool_decide (dDelivery (rRow r) = NotRequested)
      then n ← updateRows (λ x, bool_decide (dID x = dID (rRow r))) (λ x, x <| dDelivery := NotRequested |>);
           mret tt
      else mret tt) Q (addRow (fresh (rRow r) s now) d).
Proof.
  intros Hl H. unfold rowIn in H. case_bool_decide as E; [|by wp_step].
  wp_step. apply wp_updateRows. wp_step.
  set (f x := if bool_decide (dID x = dID (rRow r)) then x <| dDelivery := NotRequested |> else x).
  assert (map f (rows (addRow (fresh (rRow r) s now) d)) =
    rows d ++ [(fresh (rRow r) s now) <| dDelivery := NotRequested |>]) as ->.
  { change (rows (addRow (fresh (rRow r) s now) d)) with (rows d ++ [fresh (rRow r) s now]).
    rewrite map_app. cbn [map]. unfold f at 2.
    rewrite bool_decide_eq_true_2 by done. f_equal.
    rewrite <- (map_id (rows d)) at 2. apply map_ext_in. intros x Hx%list_elem_of_In. unfold f.
    by rewrite bool_decide_eq_false_2 by (by apply Hl). }
  exact H.
Qed.

Lemma insertBinding_wp id b (Q : () → Store → Prop) d :
  (bindings d !! id = None → Q tt (addBinding id b d)) → wp (insertBinding id b) Q d.
Proof.
  intros H. unfold insertBinding. wp_step. apply wp_unsigned. intros _. wp_step. apply wp_unsigned. intros _.
  wp_step. unfold insertRow. destruct (bindings d !! id); [done|]. by apply H.
Qed.
Lemma insertCommitment_wp id now (Q : () → Store → Prop) d :
  (commitments d !! id = None → Q tt (addCommitment id now d)) →
  wp (insertCommitment id now) Q d.
Proof. intros H. unfold insertCommitment. wp_step. unfold insertRow. destruct (commitments d !! id); [done|]. by apply H. Qed.

Lemma insertRound_wp r (Q : () → Store → Prop) d :
  (∀ o, follows r o d → Q tt (addRound o d)) → wp (insertRound r) Q d.
Proof.
  intros H. unfold insertRound.
  set (logical := if str_empty (LogicalID r) then dID (rRow r) else LogicalID r).
  set (mode := if str_empty (Mode r) then "queue" else Mode r).
  assert (∀ v, (logical = dID (rRow r) ∧ v = 1 ∨
      ∃ p, latestRound logical d = Some p ∧ oID p = PreviousID r ∧ v = u64_succ (oVersion p)) →
    wp (insertRoundRow (mkRound (dID (rRow r)) logical v (PreviousID r) (rAuthority r) (GrantDigest r) mode
      (ExecutionRequestID r))) Q d) as Hrow.
  { intros v Hv. unfold insertRoundRow. wp_step. apply wp_unsigned. intros Hb. wp_step.
    destruct (existsb _ (rounds d)) eqn:E; [done|]. apply H.
    assert (∀ o', o' ∈ rounds d → oID o' ≠ dID (rRow r) ∧ ¬ (oLogical o' = logical ∧ oVersion o' = v)) as Hn.
    { intros o' Ho'%list_elem_of_In. apply not_true_iff_false in E. rewrite existsb_exists in E.
      split; intros Hx; apply E; exists o'; (split; [done|]); simpl.
      - by rewrite bool_decide_eq_true_2.
      - destruct Hx as [E1 E2]. rewrite (bool_decide_eq_true_2 _ E1), (bool_decide_eq_true_2 _ E2). by rewrite orb_true_r. }
    split; simpl; try done.
    - intros o' Ho'. by apply Hn.
    - destruct Hv as [[-> ->]|Hv]; [left|by right]. split_and!; try done.
      intros o' Ho' Hl' Hv'. by destruct (Hn o' Ho') as [_ []]. }
  wp_step. destruct (decide (logical = dID (rRow r))) as [E|E].
  - rewrite bool_decide_eq_true_2 by done. wp_step. apply Hrow. by left.
  - rewrite bool_decide_eq_false_2 by done. wp_step. wp_step. wp_step.
    apply wp_orNoRows. intros p Hp. case_bool_decide as Hid; simpl; [|apply wp_fail]. wp_step.
    apply Hrow. right. by exists p.
Qed.

(** The limits and the room that an admission found. *)
Definition roomOf (r : Record_) (s : RState) (d : Store) : Prop :=
  if bool_decide (Mode r = "steer")
  then s = DProvisioning ∧ ∃ l, limitsOf (dParent (rRow r)) d = Some l ∧
         nReserved (countsOf (dParent (rRow r)) d) < lDelivery l
  else roomFor (dParent (rRow r)) (dChild (rRow r)) s d.

Lemma roomOf_admissible r s d :
  named (rRow r) = true → roomOf r s d → (∀ x, x ∈ rows d → clashes (fresh (rRow r) s 0) x = false) →
  admissible r s d.
Proof.
  unfold roomOf. intros Hn Hr Hc. split; [done| |done]. case_bool_decide as E.
  - destruct Hr as (-> & l & ? & ?). exists l. split_and!; auto.
  - destruct Hr as (l & ? & ? & Hs). exists l. split_and!; [done..|]. right.
    destruct Hs as [(-> & ? & ? & ?)|[-> ?]]; [left|right]; by split_and!.
Qed.

Lemma follows_ext r o d d' : rounds d' = rounds d → follows r o d' → follows r o d.
Proof.
  intros E [H1 H2 H3 H4 H5 H6]. unfold latestRound in H6. rewrite E in *. by split.
Qed.

Lemma insertAdmitted_wp r s now (Q : RState → Store → Prop) d :
  named (rRow r) = true → roomOf r s d →
  (∀ o, admits r s now d (admitted r s now o d) → follows r o d →
        commitments d !! dID (rRow r) = None → Q s (admitted r s now o d)) →
  wp (insertDelegation (fresh (rRow r) s now);;
      (if bool_decide (dDelivery (rRow r) = NotRequested)
       then n ← updateRows (λ x, bool_decide (dID x = dID (rRow r))) (λ x, x <| dDelivery := NotRequested |>);
            mret tt
       else mret tt);;
      insertBinding (dID (rRow r))
        (mkBinding (SourceThread r) (SourceRevision r) (ExpectedThread r) (ExpectedRevision r)
           (WorkspaceIdentity r));;
      insertCommitment (dID (rRow r)) now;;
      insertRound r;;
      mret s) Q d.
Proof.
  intros Hn Hroom H. wp_step. apply insertDelegation_wp. intros Hc.
  pose proof (roomOf_admissible r s d Hn Hroom Hc) as Had.
  wp_step. apply not_requested_wp.
  { intros x Hx E. apply (clashes_id _ _ (Hc x Hx)). by rewrite fresh_id. }
  wp_step. apply insertBinding_wp. intros Hb.
  wp_step. apply insertCommitment_wp. intros Hcm.
  wp_step. apply insertRound_wp. intros o Ho. wp_step.
  apply (follows_ext _ _ d) in Ho; [|reflexivity].
  apply H; [|done|exact Hcm]. split; [done|reflexivity|exact Hb|reflexivity|].
  exists o. split; [reflexivity|done].
Qed.

Lemma insertBounded_wp r now (Q : RState → Store → Prop) d :
  (∀ s o, admits r s now d (admitted r s now o d) → follows r o d →
          commitments d !! dID (rRow r) = None → Q s (admitted r s now o d)) →
  wp (insertBounded r now) Q d.
Proof.
  intros H. unfold insertBounded. destruct (named (rRow r)) eqn:En; [|apply wp_fail]. simpl negb. cbv iota.
  assert (∀ s, roomOf r s d → wp (insertDelegation (fresh (rRow r) s now);;
      (if bool_decide (dDelivery (rRow r) = NotRequested)
       then n ← updateRows (λ x, bool_decide (dID x = dID (rRow r))) (λ x, x <| dDelivery := NotRequested |>);
            mret tt
       else mret tt);;
      insertBinding (dID (rRow r))
        (mkBinding (SourceThread r) (SourceRevision r) (ExpectedThread r) (ExpectedRevision r)
           (WorkspaceIdentity r));;
      insertCommitment (dID (rRow r)) now;; insertRound r;; mret s) Q d) as Hins.
  { intros s Hs. apply insertAdmitted_wp; [assumption|assumption|]. intros o. apply H. }
  unfold roomOf in Hins. wp_step. apply wp_attempt.
  - eapply wp_mono; [apply admissionState_wp|]. intros a d' [-> Ha]. wp_step. case_bool_decide as E.
    + eapply wp_mono; [apply steerState_wp|]. intros s d' (-> & -> & Hl). by apply Hins.
    + wp_step. by apply Hins.
  - intros e. wp_step. case_bool_decide as E; [|apply wp_fail].
    eapply wp_mono; [apply steerState_wp|]. intros s d' (-> & -> & Hl). by apply Hins.
Qed.

(** ** The invariant *)
Definition ofLogical (logical : string) (l : list Round) : list Round := filter (λ o, oLogical o = logical) l.

(** The rounds of a task are numbered from 1 without gaps, the first one is the
    task itself, and each later one names the one before. *)
Record linear (l : list Round) : Prop := mkLinear {
  ln_versions : map oVersion l = seqZ 1 (Z.of_nat (length l));
  ln_root : ∀ o, head l = Some o → oLogical o = oID o;
  ln_chain : ∀ i o o', l !! i = Some o → l !! S i = Some o' → oPrevious o' = oID o }.

Record ok (d : Store) : Prop := mkOk {
  ok_ids : NoDup (map dID (rows d));
  ok_rounds : map oID (rounds d) = map dID (rows d);
  ok_linear : ∀ logical, linear (ofLogical logical (rounds d));
  ok_bound : ∀ o, o ∈ rounds d → oVersion o ≤ i64_max;
  ok_default : is_Some (capacity d !! "");
  ok_delivery : ∀ r, r ∈ rows d → dDelivery r ∈ [DeliveryQueued; Delivered; DeliveryFailed] → dState r = DTerminal;
  ok_binding : ∀ r, r ∈ rows d → is_Some (bindings d !! dID r);
  ok_return : ∀ r r', r ∈ rows d → r' ∈ rows d → dParent r = dParent r' →
    dParentRequest r = dParentRequest r' → r = r';
  ok_request : ∀ r r', r ∈ rows d → r' ∈ rows d → dChild r = dChild r' →
    dChildRequest r = dChildRequest r' → r = r' }.

Lemma ok_empty : ok Empty.
Proof.
  split; simpl; try done; try (intros ? Hr; by apply elem_of_nil in Hr).
  - constructor.
  - intros ?? Hr. by apply elem_of_nil in Hr.
  - intros ?? Hr. by apply elem_of_nil in Hr.
Qed.

Definition does (d d' : Store) : Prop := dstep d d' ∧ grows d d'.
Lemma dstep_alike d d' : alike d d' → dstep d d'.
Proof. intros []. by apply D_aside. Qed.
Lemma does_refl d : does d d.
Proof. split; [by apply dstep_alike|apply nothing_lost]. Qed.
Lemma does_beside d d' : alike d d' → grows d d' → does d d'.
Proof. intros. split; [by apply dstep_alike|done]. Qed.

(** ** Each operation is a step *)
Lemma wp_journal {A} (m : Tx Tables A) (Q : A → Store → Prop) d :
  (∀ a t, Q a (setJournal t d)) → wp (onJournal m) Q d.
Proof. intros H. apply wp_onJournal. intros fs. by destruct (m fs (journal d)).2 as [[a t]|]. Qed.
Lemma alike_journal t d : alike d (setJournal t d).
Proof. by split. Qed.
Lemma grows_journal t d : grows d (setJournal t d).
Proof. by apply grows_same. Qed.

Lemma advance_does p f d :
  (∀ r, r ∈ rows d → p r = true → advances r (f r)) →
  does d (d <| rows := map (λ r, if p r then f r else r) (rows d) |>).
Proof.
  intros H. split; [|by apply grows_same].
  apply (D_advance _ _ (λ r, if p r then f r else r)); try done. intros r Hr. simpl.
  destruct (p r) eqn:E; [by apply H|apply advances_refl].
Qed.
Lemma wp_advance p f (Q : nat → Store → Prop) d :
  (∀ r, r ∈ rows d → p r = true → advances r (f r)) →
  (∀ d', does d d' → Q (countb p (rows d)) d') → wp (updateRows p f) Q d.
Proof. intros H HQ. apply wp_updateRows. apply HQ. by apply advance_does. Qed.

Lemma advances_state r r' :
  identity r' = identity r → dDelivery r' = dDelivery r → (rank (dState r) ≤ rank (dState r'))%nat →
  dState r ≠ DTerminal → (dState r = DQueued → dState r' = DTerminal) → advances r r'.
Proof. intros H1 H2 H3 H4 H5. split; [split; try done; by left|]. intros ?. right. auto. Qed.
Lemma advances_delivery r r' :
  identity r' = identity r → dState r' = DTerminal → outcome r' = outcome r → dState r = DTerminal →
  delivers (dDelivery r) (dDelivery r') → advances r r'.
Proof. intros H1 H2 H3 H4 H5. split; [split; try done; by rewrite H2, H4|]. intros E. congruence. Qed.

(** The cases of the state. *)
Ltac by_state :=
  let r := fresh "r" in let H := fresh "H" in intros r _ H; row_guard H;
  apply advances_state; cbn; try reflexivity;
  repeat match goal with H : _ ∨ _ |- _ => destruct H | H : False |- _ => destruct H end;
  match goal with H : dState r = _ |- _ => rewrite H end; cbn; (lia || done).

Lemma MarkRunning_does id now d : wp (MarkRunning id now) (λ _ d', does d d') d.
Proof. unfold MarkRunning. wp_step. apply wp_advance; [by_state|intros; by wp_step]. Qed.
Lemma MarkProvisionFailed_does id reason now d : wp (MarkProvisionFailed id reason now) (λ _ d', does d d') d.
Proof. unfold MarkProvisionFailed. wp_step. apply wp_advance; [by_state|intros; by wp_step]. Qed.
Lemma MarkCollecting_does id status now d : wp (MarkCollecting id status now) (λ _ d', does d d') d.
Proof.
  unfold MarkCollecting. destruct (terminalStatus status); [|apply wp_fail]. simpl.
  wp_step. apply wp_advance; [by_state|intros; by wp_step].
Qed.
Lemma Complete_does child request status result reason artifacts now d :
  wp (Complete child request status result reason artifacts now) (λ _ d', does d d') d.
Proof.
  unfold Complete. destruct (terminalStatus status); [|apply wp_fail]. simpl.
  wp_step. apply wp_advance; [by_state|intros; by wp_step].
Qed.
Lemma MarkDeliveryQueued_does id now d : wp (MarkDeliveryQueued id now) (λ _ d', does d d') d.
Proof.
  unfold MarkDeliveryQueued. wp_step. apply wp_advance; [|intros; by wp_step].
  intros r _ H. row_guard H. destruct H2 as [H2|[]]. apply advances_delivery; try done.
  rewrite H1. right. left. split; [done|]. by left.
Qed.
Lemma MarkDelivered_does parent request now d : ok d → wp (MarkDelivered parent request now) (λ _ d', does d d') d.
Proof.
  intros Hok. unfold MarkDelivered. wp_step. apply wp_advance; [|intros; by wp_step].
  intros r Hr H. row_guard H. assert (dState r = DTerminal) as Ht.
  { apply (ok_delivery d Hok r Hr). rewrite H1. by left. }
  apply advances_delivery; try done. rewrite H1. right. right. split; [done|]. by left.
Qed.
Lemma MarkDeliveryFailed_does parent request reason now d :
  wp (MarkDeliveryFailed parent request reason now) (λ _ d', does d d') d.
Proof.
  unfold MarkDeliveryFailed. wp_step. apply wp_advance; [|intros; by wp_step].
  intros r _ H. row_guard H. destruct H2 as [H2|[]]. apply advances_delivery; try done.
  cbn. destruct H1 as [-> | ->]; right; [left|right]; (split; [done|]); set_solver.
Qed.

(** *** Promotion *)
Lemma map_unique (p : Row → bool) (f : Row → Row) l i r :
  NoDup (map dID l) → l !! i = Some r → p r = true → (∀ x, p x = true → dID x = dID r) →
  map (λ x, if p x then f x else x) l = <[i := f r]> l.
Proof.
  intros Hnd Hi Hp Hu. apply list_eq. intros j. rewrite list_lookup_fmap.
  destruct (decide (j = i)) as [->|Hj].
  - rewrite list_lookup_insert_eq by by eapply lookup_lt_Some. rewrite Hi. simpl. by rewrite Hp.
  - rewrite list_lookup_insert_ne by done. destruct (l !! j) as [x|] eqn:Ex; [|done]. simpl.
    destruct (p x) eqn:Epx; [|done]. destruct Hj.
    eapply (NoDup_lookup _ _ _ (dID r) Hnd); rewrite list_lookup_fmap; [rewrite Ex|by rewrite Hi].
    simpl. by rewrite (Hu x Epx).
Qed.
Lemma rowOf_position id d r i :
  rowOf id d = Some r → position id d = Some i → rows d !! i = Some r ∧ dID r = id.
Proof.
  unfold rowOf, position. destruct (list_find _ (rows d)) as [[j x]|] eqn:E; [|done].
  intros [= ->] [= ->]. apply list_find_Some in E. naive_solver.
Qed.

Lemma TryPromote_does id now d :
  ok d → wp (TryPromote id now) (λ b d', does d d' ∧
    (b = true → ∃ i r, rows d !! i = Some r ∧ dID r = id ∧ dState r = DQueued ∧
       rows d' = <[i := promoted now r]> (rows d))) d.
Proof.
  intros Hok. unfold TryPromote. wp_step. wp_step. wp_step. apply wp_orNoRows. intros [r i] Hf.
  destruct (rowOf id d) as [r0|] eqn:Er; [|done]. simpl in Hf.
  destruct (position id d) as [i0|] eqn:Ei; [|done]. injection Hf as -> ->.
  destruct (rowOf_position id d r i Er Ei) as [Hi Hid].
  assert (∀ d', d' = d → does d d' ∧ (false = true → ∃ i r, rows d !! i = Some r ∧ dID r = id ∧
    dState r = DQueued ∧ rows d' = <[i := promoted now r]> (rows d))) as Hno.
  { intros d' ->. split; [apply does_refl|done]. }
  destruct (isQueued r) eqn:Eq; simpl negb; cbv iota; [|wp_step; by apply Hno].
  wp_step. apply limitsFor_wp. intros l Hl. wp_step. unfold countsFor. wp_step. cbv beta.
  destruct (_ || _) eqn:Ec; [wp_step; by apply Hno|]. apply orb_false_iff in Ec as [Ea _].
  wp_step. wp_step. cbv beta. destruct (childBusy d (dChild r)) eqn:Eb; [wp_step; by apply Hno|].
  wp_step. wp_step. cbv beta. destruct (olderWaits (dParent r) i d) eqn:Eo; [wp_step; by apply Hno|].
  wp_step. apply wp_updateRows. wp_step.
  assert (map (λ x, if bool_decide (dID x = id) && isQueued x then promoted now x else x) (rows d) =
          <[i := promoted now r]> (rows d)) as E.
  { apply (map_unique (λ x, bool_decide (dID x = id) && isQueued x) (promoted now)); [apply Hok|done| |].
    - by rewrite bool_decide_eq_true_2.
    - intros x [H _]%andb_true_iff. apply bool_decide_eq_true in H. congruence. }
  apply isQueued_spec in Eq. split; [|intros _; by exists i, r].
  split; [|by apply grows_same].
  apply (D_promote _ _ i r l now); try done. apply Z.leb_gt in Ea. done.
Qed.

(** *** Cancellation *)
Lemma cancelled_advances now r : isQueued r = true → advances r (cancelledRow now r).
Proof. intros H%isQueued_spec. apply advances_state; cbn; rewrite ?H; try done; cbn; lia. Qed.

Lemma dstep_after d d1 d2 : dstep d d1 → alike d1 d2 → dstep d d2.
Proof.
  intros Hs [E1 E2 E3 E4]. destruct Hs as [|f|i r l now|r s now [? ? ? ? (o & ? & ?)]|].
  - apply D_aside; congruence.
  - apply (D_advance _ _ f); congruence || done.
  - apply (D_promote _ _ i r l now); congruence || done.
  - apply (D_admit _ _ r s now); [|congruence]. split; try congruence. exists o. split; [congruence|done].
  - apply D_configure; congruence || by rewrite E3.
Qed.
Lemma does_journal d d' t : does d d' → does d (setJournal t d').
Proof.
  intros [Hs Hg]. split; [by eapply dstep_after, alike_journal|by eapply grows_trans, grows_journal].
Qed.
Lemma olderWaits_alike d d1 parent i : alike d d1 → olderWaits parent i d1 = olderWaits parent i d.
Proof.
  intros H. unfold olderWaits. rewrite (al_rows _ _ H). generalize (take i (rows d)). intros l.
  induction l as [|x l IH]; [done|]. cbn [existsb]. rewrite IH. by rewrite (childBusy_alike d d1).
Qed.
Lemma dstep_before d d1 d' : alike d d1 → dstep d1 d' → dstep d d'.
Proof.
  intros Ha Hs. pose proof Ha as [E1 E2 E3 E4]. destruct Hs as
    [?? ? ?|f ??? ? ?|i r l now ? ? Hl Hn Hb Ho ???? |r s now Ham ?|?????].
  - apply D_aside; congruence.
  - apply (D_advance _ _ f); try congruence. by rewrite E1 in *.
  - apply (D_promote _ _ i r l now); try congruence.
    + unfold limitsOf in *. by rewrite <- E3.
    + by rewrite <- (countsOf_alike d d1).
    + by rewrite <- (childBusy_alike d d1).
    + by rewrite <- (olderWaits_alike d d1).
  - apply (D_admit _ _ r s now); [|congruence]. destruct Ham as [[Hn (l & Hl & Hres & Hroom) Hc] Hr Hb Hbs (o & Ho & Hf)].
    rewrite E1, E4 in *. split; try done.
    + split; [done| |done]. exists l. unfold limitsOf in *. rewrite <- E3.
      rewrite <- !(countsOf_alike d d1), <- (childBusy_alike d d1) by done. done.
    + exists o. rewrite E2 in Ho. split; [done|]. by eapply follows_ext.
  - apply D_configure; congruence || done.
Qed.
Lemma does_before d d1 d' : alike d d1 → grows d d1 → does d1 d' → does d d'.
Proof. intros Ha Hg [Hs Hg']. split; [by eapply dstep_before|by eapply grows_trans]. Qed.

Lemma CancelQueuedAPI_does keyJSON c intent original expected mr rv now d :
  wp (CancelQueuedAPI keyJSON c intent original expected mr rv now) (λ _ d', does d d') d.
Proof.
  unfold CancelQueuedAPI. destruct rv as [[first second]|]; [|apply wp_fail].
  wp_step. apply wp_asked. intros _. wp_step. wp_step. wp_step. apply wp_journal. intros [record created] t.
  destruct created; simpl negb; cbv iota; [|wp_step; apply does_beside; [apply alike_journal|apply grows_journal]].
  destruct (_ =? expected); simpl negb; cbv iota; [|apply wp_fail].
  wp_step. apply wp_advance.
  { intros r _ [_ H]%andb_true_iff. by apply cancelled_advances. }
  intros d' Hd'. destruct (changedOne _); simpl negb; cbv iota; [|apply wp_fail].
  wp_step. apply wp_journal. intros _ t2. wp_step. apply wp_asked. intros _.
  wp_step. apply wp_journal. intros _ t3. wp_step.
  apply (does_before _ (setJournal t d)); [apply alike_journal|apply grows_journal|].
  by do 2 apply does_journal.
Qed.

Lemma CancelWaiting_does parent id now d :
  ok d → wp (CancelWaiting parent id now) (λ b d', does d d') d.
Proof.
  intros Hok. unfold CancelWaiting. wp_step. wp_step. wp_step. apply wp_orNoRows. intros r Hr.
  destruct (_ && _); [wp_step; apply does_refl|].
  destruct (isQueued r); simpl negb; cbv iota; [|wp_step; apply does_refl].
  wp_step. apply wp_advance.
  { intros x _ [_ H]%andb_true_iff. by apply cancelled_advances. }
  intros d' Hd'. wp_step. apply wp_journal. intros _ t. wp_step. by apply does_journal.
Qed.

(** *** Admissions *)
Lemma insert_new {K V} `{Countable K} (m : gmap K V) k v : m !! k = None → ∀ k' x, m !! k' = Some x → <[k := v]> m !! k' = Some x.
Proof. intros Hn k' x Hk'. rewrite lookup_insert_ne; [done|]. congruence. Qed.

Lemma admitted_does r s now o d :
  admits r s now d (admitted r s now o d) → commitments d !! dID (rRow r) = None →
  does d (admitted r s now o d).
Proof.
  intros Ha Hc. split; [by apply (D_admit _ _ r s now)|].
  pose proof (nothing_lost d) as []. split; try done. by apply insert_new.
Qed.
Lemma insertBounded_does r now d : wp (insertBounded r now) (λ _ d', does d d') d.
Proof. apply insertBounded_wp. intros s o Ha _ Hc. by apply admitted_does. Qed.

Lemma Continue_does r first second now d : wp (Continue r first second now) (λ _ d', does d d') d.
Proof.
  unfold Continue. wp_step. wp_step. cbv beta. destruct (ByOrigin _ _ _ d) as [old|].
  - destruct (negb _); [apply wp_fail|wp_step; apply does_refl].
  - wp_step. apply wp_asked. intros _. wp_step. eapply wp_mono; [apply insertBounded_does|].
    intros s d' Hd'. wp_step. apply wp_asked. intros _. wp_step. wp_step. apply wp_orNoRows. by intros.
Qed.

Lemma insertProfile_does child profile d0 d :
  does d0 d → wp (insertProfile child profile) (λ _ d', does d0 d') d.
Proof.
  intros Hd. unfold insertProfile. wp_step. unfold insertRow. destruct (childProfiles d !! child) eqn:E; [done|].
  destruct Hd as [Hs Hg]. split.
  - by eapply dstep_after; [exact Hs|].
  - eapply grows_trans; [exact Hg|]. pose proof (nothing_lost d) as []. split; try done. by apply insert_new.
Qed.

Lemma createAPI_does keyJSON c intent r profile rv now d :
  wp (createAPI keyJSON c intent r profile rv now) (λ _ d', does d d') d.
Proof.
  unfold createAPI. destruct rv as [[first second]|]; [|apply wp_fail].
  wp_step. apply wp_asked. intros _. wp_step. apply wp_journal. intros [record created] t.
  destruct created; simpl negb; cbv iota; [|wp_step; apply does_beside; [apply alike_journal|apply grows_journal]].
  wp_step. apply wp_attempt; [|intros e; destruct (_ || _); apply wp_fail].
  eapply wp_mono; [apply insertBounded_does|]. intros s d1 Hd1.
  assert (∀ d2, does (setJournal t d) d2 →
    wp (onJournal (ChangeTx (dChild (rRow r)) (dChildRequest (rRow r)) "admission" now);;
        asked second;; mret (record, true)) (λ _ d', does d d') d2) as Hrest.
  { intros d2 Hd2. wp_step. apply wp_journal. intros _ t2. wp_step. apply wp_asked. intros _. wp_step.
    apply (does_before _ (setJournal t d)); [apply alike_journal|apply grows_journal|]. by apply does_journal. }
  wp_step. destruct profile as [p|].
  - eapply wp_mono; [apply (insertProfile_does _ _ (setJournal t d)); exact Hd1|]. intros ? d2 Hd2. by apply Hrest.
  - wp_step. by apply Hrest.
Qed.

(** *** Capacity and batches *)
Lemma insertParents_wp l (Q : () → Store → Prop) d :
  (∀ m, (∀ parent x, m !! parent = Some x → capacity d !! parent = Some x ∨ (parent, x) ∈ l) →
        Q tt (d <| capacity := m |>)) → wp (insertParents l) Q d.
Proof.
  revert d. induction l as [|[parent limits] l IH]; intros d H; simpl.
  - wp_step. specialize (H (capacity d)). destruct d. apply H. by left.
  - wp_step. unfold insertCapacity. wp_step. destruct (capacity d !! parent) eqn:E; [done|]. apply IH. intros m Hm.
    apply (H m). intros p x [Hp|Hp]%Hm; [|right; by right]. cbn in Hp.
    rewrite lookup_insert_Some in Hp. destruct Hp as [[-> ->]|[_ Hp]]; [right; by left|by left].
Qed.
Definition configured (c : CapacityConfig) (l : Limits) : Prop :=
  l = cDefault c ∨ ∃ parent, cParents c !! parent = Some l.
Lemma ConfigureCapacity_does c fs d :
  (∀ l, configured c l → confers l) → does d (ConfigureCapacity c fs d).1.2.
Proof.
  intros Hc. unfold ConfigureCapacity. destruct (validCapacity c); simpl negb; cbv iota; [|apply does_refl].
  pose proof (transaction_elim tt (exec_ (λ d, d <| capacity := ∅ |>);;
       insertParents (map_to_list (cParents c));; insertCapacity "" (cDefault c)) fs d
    (λ _ d', does d d')) as H.
  destruct (transaction _ _ _ _) as [[? d'] ?]. apply H; [|intros; apply does_refl].
  wp_step. wp_step. wp_step. apply insertParents_wp. intros m Hm. unfold insertCapacity. wp_step.
  simpl. destruct (m !! "") eqn:E; [done|]. split; [|by apply grows_same].
  apply D_configure; try done; cbn; [by exists (cDefault c); rewrite lookup_insert_eq|].
  intros parent x [[_ <-]|[_ Hl]]%lookup_insert_Some; apply Hc; [by left|].
  destruct (Hm _ _ Hl) as [?|?%elem_of_map_to_list]; [done|right; by exists parent].
Qed.

Lemma PendingBatch_does limit d : ¬ still → wp (PendingBatch limit) (λ _ d', does d d') d.
Proof.
  intros Hn. unfold PendingBatch. wp_step. wp_step. cbv beta. destruct (scanCursor d) as [cursor high].
  wp_step. destruct (high =? 0).
  all: repeat wp_step; destruct (_ <? limit); repeat wp_step; (apply does_beside; [by split|by apply grows_same]).
Qed.

(** *** What is written once *)
Lemma once_ {A B} `{Countable A} (k : A) (v : B) m : ∀ k' x, m !! k' = Some x → insertOrIgnore k v m !! k' = Some x.
Proof. intros k' x Hx. unfold insertOrIgnore. destruct (m !! k) eqn:E; [done|]. by apply insert_new. Qed.

Lemma PinNativeThread_does child thread revision d :
  wp (PinNativeThread child thread revision) (λ _ d', does d d') d.
Proof.
  unfold PinNativeThread. wp_step. apply wp_unsigned. intros _. do 5 wp_step. apply wp_orNoRows. intros old _.
  destruct (negb _); [apply wp_fail|]. wp_step. apply does_beside; [by split|].
  pose proof (nothing_lost d) as []. split; try done. by apply once_.
Qed.
Lemma ClaimSteer_does id d : wp (ClaimSteer id) (λ _ d', does d d') d.
Proof.
  unfold ClaimSteer. wp_step. wp_step. cbv beta. wp_step. destruct (existsb _ _); [|apply does_refl].
  apply does_beside; [by split|]. pose proof (nothing_lost d) as []. split; try done. cbn. set_solver.
Qed.
Lemma BindQA_does owner qa first second d : wp (BindQA owner qa first second) (λ _ d', does d d') d.
Proof.
  unfold BindQA. wp_step. apply wp_asked. intros _. do 2 wp_step. cbv beta. destruct (responsibilities d !! owner) eqn:E.
  - destruct (negb _); [apply wp_fail|]. wp_step. apply does_refl.
  - wp_step. unfold insertResponsibility. wp_step. destruct (_ || _); [done|]. apply wp_asked. intros _.
    apply does_beside; [by split|]. pose proof (nothing_lost d) as []. split; try done. by apply insert_new.
Qed.
Lemma RecordQA_does owner qa verdict d : wp (RecordQA owner qa verdict) (λ _ d', does d d') d.
Proof.
  unfold RecordQA. do 2 wp_step. cbv beta. destruct (reviews d !! owner) eqn:E.
  - destruct (negb _); [apply wp_fail|]. wp_step. apply does_refl.
  - unfold insertReview. wp_step. destruct (_ || _); [done|].
    apply does_beside; [by split|]. pose proof (nothing_lost d) as []. split; try done. by apply insert_new.
Qed.
Lemma BindAuthority_does name fs d : does d (BindAuthority name fs d).1.2.
Proof.
  unfold BindAuthority. destruct (str_empty name); [apply does_refl|].
  match goal with |- context [transaction tt ?m _ _] => pose proof (transaction_elim tt m fs d (λ _ d', does d d')) as H end.
  destruct (transaction _ _ _ _) as [[? d'] ?]. apply H; [|intros; apply does_refl].
  do 7 wp_step. apply wp_orNoRows. intros old _. destruct (negb _); [apply wp_fail|]. wp_step.
  apply does_beside; [by split|]. pose proof (nothing_lost d) as []. split; try done. cbn. by intros x ->.
Qed.
Lemma Reserve_does parent key k d : wp (ReserveContinuityCommand parent key k) (λ _ d', does d d') d.
Proof.
  unfold ReserveContinuityCommand. wp_step. apply does_beside; [by split|].
  pose proof (nothing_lost d) as []. split; try done. intros k' x Hx. exists x.
  split; [by apply once_|by split_and!].
Qed.
Lemma Finish_does parent key hash state result code d :
  wp (FinishContinuityCommand parent key hash state result code) (λ _ d', does d d') d.
Proof.
  unfold FinishContinuityCommand. destruct (negb _); [apply wp_fail|]. wp_step. wp_step.
  destruct (continuity d !! (parent, key)) as [k|] eqn:E; [|apply wp_fail].
  destruct (_ && _) eqn:Eg; [|apply wp_fail]. cbv beta. simpl negb. cbv iota. wp_step.
  apply andb_true_iff in Eg as [_ Es%bool_decide_eq_true].
  apply does_beside; [by split|]. pose proof (nothing_lost d) as []. split; try done. cbn. intros k' x Hx.
  destruct (decide (k' = (parent, key))) as [->|Hk].
  - rewrite E in Hx. injection Hx as <-. eexists. split; [apply lookup_insert_eq|]. cbn. by split_and!.
  - exists x. rewrite lookup_insert_ne by done. by split_and!.
Qed.

(** *** Epochs *)
Lemma insertEpoch_does e d0 d : does d0 d → wp (insertEpoch e) (λ _ d', does d0 d') d.
Proof.
  intros [Hs Hg]. unfold insertEpoch. do 3 (wp_step; apply wp_unsigned; intros _). wp_step.
  destruct (existsb _ _); [done|]. split.
  - by eapply dstep_after; [exact Hs|].
  - eapply grows_trans; [exact Hg|]. pose proof (nothing_lost d) as []. split; try done. cbn. by exists [e].
Qed.
Lemma reauthorizeOne_does pick owner qa a d0 d : does d0 d → wp (reauthorizeOne pick owner qa a) (λ _ d', does d0 d') d.
Proof.
  intros Hd. unfold reauthorizeOne. do 3 wp_step. apply wp_orNoRows. intros [r b] _. do 2 wp_step. cbv beta.
  destruct (_ || _); [apply wp_fail|]. do 2 wp_step. cbv beta. destruct (negb _); [apply wp_fail|].
  do 2 wp_step. cbv beta. destruct (from_option _ _ _); [apply wp_fail|]. by apply insertEpoch_does.
Qed.
Lemma ReauthorizePair_does pick a b first second d : wp (ReauthorizePair pick a b first second) (λ _ d', does d d') d.
Proof.
  unfold ReauthorizePair. wp_step. apply wp_asked. intros _. destruct (_ || _); [apply wp_fail|].
  wp_step. eapply wp_mono; [apply reauthorizeOne_does, does_refl|]. intros ? d1 H1.
  wp_step. eapply wp_mono; [apply (reauthorizeOne_does _ _ _ _ d), H1|]. intros ? d2 H2.
  by apply wp_asked.
Qed.
End Steps.
