(* ===== verification/DelegationSteps.v ===== *)
(** * Every operation of the delegation store is a step; the invariant

    The operations that need the invariant ([SealReturnContext], [Reopen]), the
    step of each operation of a history ([perform_does]), and the invariant [ok]
    of every reachable store ([run_ok]). *)
From S2P Require Import Prelude Orders Sql TaskJournal Decimal Base64 Handoff Delegation DelegationStore.

(** ** Sealed returns *)
Section Returns.
Context (confers : Limits → Prop) (still : Prop).
Context (sha256Hex : string → string) (normalize : string → option string)
        (digestJSON : list string → Z → list string → string).
Notation does := (does confers still).
Notation grows := (grows still).

Lemma drifts_rises s n sha : drifts s (Some (n, sha)) = false → n < sRevision s ∨ sRevision s = n ∧ SHA256 s = sha.
Proof.
  unfold drifts. destruct (Z.ltb_spec (sRevision s) n); [done|]. simpl.
  destruct (Z.eqb_spec (sRevision s) n); simpl; [|lia]. case_bool_decide; [auto|done].
Qed.

(** The file revisions only rise. *)
Lemma file_grows d k s :
  (∀ n sha, handoffs d !! k = Some (n, sha) → n < sRevision s ∨ sRevision s = n ∧ SHA256 s = sha) →
  grows d (d <| handoffs := <[k := (sRevision s, SHA256 s)]> (handoffs d) |>).
Proof.
  intros H. pose proof (nothing_lost still d) as []. split; try done. cbn. intros k' n sha Hk.
  destruct (decide (k' = k)) as [->|Hne].
  - exists (sRevision s), (SHA256 s). split; [apply lookup_insert_eq|]. destruct (H _ _ Hk); auto.
  - exists n, sha. rewrite lookup_insert_ne by done. split; [done|by right].
Qed.

Lemma admitSnapshot_wp r snapshot (Q : Snapshot → Store → Prop) d :
  (∀ s d', alike d d' → grows d d' → returns d' = returns d → Q s d') →
  wp (admitSnapshot sha256Hex normalize r snapshot) Q d.
Proof.
  intros HQ. unfold admitSnapshot. set (s := Bounded _ _ _).
  assert (Q s d ∧ Q (drifted s) d) as [Hs Hdr] by (split; apply HQ; auto using alike_refl, nothing_lost).
  destruct (bool_decide (Status s = "available")); [|by wp_step].
  do 2 wp_step. cbv beta. destruct (drifts s _) eqn:E; [by wp_step|].
  wp_step. apply wp_unsigned. intros _. do 3 wp_step. apply HQ; [by split| |done].
  apply file_grows. intros n sha Hk. rewrite Hk in E. by apply drifts_rises.
Qed.

Lemma returns_grow id t d0 d : returns d !! id = None → does d0 d → does d0 (d <| returns := <[id := t]> (returns d) |>).
Proof.
  intros Hn [Hs Hg]. split; [by eapply dstep_after|]. eapply grows_trans; [exact Hg|].
  pose proof (nothing_lost still d) as []. split; try done. by apply insert_new.
Qed.
Lemma SealReturnContext_does r thread revision snapshot original d :
  wp (SealReturnContext sha256Hex normalize digestJSON r thread revision snapshot original) (λ _ d', does d d') d.
Proof.
  unfold SealReturnContext. do 3 wp_step. apply wp_orNoRows. intros [x b] _.
  destruct (negb _); [apply wp_fail|]. do 2 wp_step. cbv beta.
  destruct (returns d !! dID r) as [t|] eqn:Et; simpl.
  - case_bool_decide as Hp.
    + destruct (negb _); [apply wp_fail|]. wp_step. apply does_refl.
    + wp_step. apply admitSnapshot_wp. intros s d' Ha Hg Hr. wp_step. unfold insertReturn. wp_step.
      unfold insertRow. rewrite Hr, Et. done.
  - wp_step. apply admitSnapshot_wp. intros s d' Ha Hg Hr. wp_step. unfold insertReturn. wp_step.
    unfold insertRow. rewrite Hr, Et. wp_step. rewrite <- Hr. apply returns_grow; [by rewrite Hr|].
    by apply does_beside.
Qed.
End Returns.

(** ** Opening again *)
Lemma ignoreRound_all l rs : (∀ o, o ∈ rs → oID o ∈ map oID l) → foldl ignoreRound l rs = l.
Proof.
  induction rs as [|o rs IH]; intros H; simpl; [done|].
  assert (ignoreRound l o = l) as ->; [|apply IH; intros; apply H; by right].
  unfold ignoreRound. destruct (existsb _ l) eqn:E; [done|].
  pose proof (proj1 (list_elem_of_In _ _) (H o ltac:(left))) as Hin.
  apply in_map_iff in Hin as (o' & Hid & Hin'). apply not_true_iff_false in E. destruct E.
  apply existsb_exists. exists o'. split; [done|]. by rewrite bool_decide_eq_true_2.
Qed.
Lemma Reopen_same d : ok d → Reopen d = d.
Proof.
  intros Hok. unfold Reopen. rewrite ignoreRound_all.
  - unfold insertOrIgnore. destruct (ok_default d Hok) as [l ->]. by destruct d.
  - intros o Ho. rewrite (ok_rounds d Hok). apply elem_of_lookup_imap in Ho as (i & r & -> & Hr).
    simpl. apply list_elem_of_fmap. exists r. split; [done|]. by eapply list_elem_of_lookup_2.
Qed.

(** ** The invariant *)
Lemma version_at l i o :
  map oVersion l = seqZ 1 (Z.of_nat (length l)) → l !! i = Some o → oVersion o = 1 + Z.of_nat i.
Proof.
  intros H Hi. assert (map oVersion l !! i = Some (oVersion o)) as E by (rewrite list_lookup_fmap; by rewrite Hi).
  rewrite H in E. by apply lookup_seqZ in E as [-> _].
Qed.
Lemma newest l : map oVersion l = seqZ 1 (Z.of_nat (length l)) → foldl (λ best o, newer o best) None l = last l.
Proof.
  induction l as [|o l IH] using rev_ind; intros H; [done|].
  assert (map oVersion l = seqZ 1 (Z.of_nat (length l))) as Hl.
  { rewrite length_app, map_app, Nat2Z.inj_add, seqZ_app in H by lia. by apply app_inj_1 in H as [H _]; [|rewrite length_map, length_seqZ; lia]. }
  rewrite foldl_app, IH, last_snoc by done. simpl. destruct (last l) as [b|] eqn:E; [|done]. simpl.
  rewrite last_lookup in E. pose proof (version_at l _ b Hl E) as Hb. apply lookup_lt_Some in E.
  pose proof (version_at (l ++ [o]) (length l) o H) as Ho.
  rewrite (proj2 (Z.ltb_lt _ _)); [done|]. rewrite Hb, Ho; [lia|].
  by apply lookup_snoc_Some; right.
Qed.

Lemma linear_snoc l o :
  linear l → (l = [] → oLogical o = oID o ∧ oVersion o = 1) →
  (∀ p, last l = Some p → oVersion o = oVersion p + 1 ∧ oPrevious o = oID p) → linear (l ++ [o]).
Proof.
  intros [Hv Hr Hc] H1 H2. split.
  - rewrite length_app, map_app, Nat2Z.inj_add, seqZ_app, <- Hv by lia. f_equal. simpl. rewrite seqZ_cons by done. simpl.
    f_equal. destruct (last l) as [p|] eqn:E.
    + destruct (H2 p eq_refl) as [-> _]. rewrite last_lookup in E. pose proof (version_at l _ p Hv E).
      apply lookup_lt_Some in E. lia.
    + apply last_None in E as ->. by destruct (H1 eq_refl) as [_ ->].
  - intros o' Ho'. destruct l as [|a l]; [|by apply Hr]. injection Ho' as <-. by apply H1.
  - intros i a b Ha Hb. destruct (decide (S i < length l)%nat) as [Hi|Hi].
    + rewrite lookup_app_l in Ha, Hb by lia. by eapply Hc.
    + assert (i < length l)%nat as Hlt.
      { apply lookup_lt_Some in Hb. rewrite length_app in Hb. simpl in Hb. lia. }
      apply lookup_snoc_Some in Hb as [[? _]|[Hb ->]]; [lia|]. rewrite lookup_app_l in Ha by done.
      apply H2. rewrite last_lookup. by replace (pred (length l)) with i by lia.
Qed.

Lemma ofLogical_snoc logical l o :
  ofLogical logical (l ++ [o]) = ofLogical logical l ++ (if bool_decide (oLogical o = logical) then [o] else []).
Proof. unfold ofLogical. rewrite filter_app. f_equal. rewrite filter_cons. case_bool_decide; by case_decide. Qed.
Lemma in_ofLogical logical l o : o ∈ ofLogical logical l ↔ o ∈ l ∧ oLogical o = logical.
Proof. unfold ofLogical. rewrite list_elem_of_filter. tauto. Qed.

Lemma follows_linear r o d :
  (∀ logical, linear (ofLogical logical (rounds d))) → (∀ o, o ∈ rounds d → oVersion o ≤ i64_max) →
  follows r o d → ∀ logical, linear (ofLogical logical (rounds d ++ [o])).
Proof.
  intros Hl Hb [_ _ _ Hnew _ Hc] logical. rewrite ofLogical_snoc. case_bool_decide as E; [subst logical|by rewrite app_nil_r].
  pose proof (Hl (oLogical o)) as Hlin. apply linear_snoc; [done| |].
  - intros Hnil. destruct Hc as [(? & ? & _)|(p & Hp & _)]; [done|].
    unfold latestRound in Hp. fold (ofLogical (oLogical o) (rounds d)) in Hp. by rewrite Hnil in Hp.
  - intros p Hp. destruct Hc as [(Eo & Ev & _)|(p' & Hp' & Hid & Hv)].
    + destruct (ofLogical (oLogical o) (rounds d)) as [|a l] eqn:El; [done|].
      assert (a ∈ ofLogical (oLogical o) (rounds d)) as Ha by (rewrite El; left).
      apply in_ofLogical in Ha as [Ha Hla]. pose proof (ln_root _ Hlin a eq_refl) as Hroot.
      destruct (Hnew a Ha). congruence.
    + assert (p' = p) as ->.
      { unfold latestRound in Hp'. fold (ofLogical (oLogical o) (rounds d)) in Hp'.
        rewrite newest in Hp' by apply Hlin. congruence. }
      split; [|done]. rewrite Hv. apply u64_succ_lt.
      assert (p ∈ ofLogical (oLogical o) (rounds d)) as Hin.
      { rewrite last_lookup in Hp. by eapply list_elem_of_lookup_2. }
      apply in_ofLogical in Hin as [Hin _]. pose proof (Hb p Hin).
      rewrite last_lookup in Hp. rewrite (version_at _ _ p (ln_versions _ Hlin) Hp) in *. unfold i64_max, u64_max in *. lia.
Qed.

Lemma moves_map {B} (g : Row → B) l l' :
  (∀ r r', moves r r' → g r' = g r) → Forall2 moves l l' → map g l' = map g l.
Proof. intros Hg. induction 1 as [|r r' l l' Hr Hl IH]; [done|]. simpl. by rewrite IH, (Hg r r'). Qed.
Lemma moves_all l : Forall2 moves l l.
Proof. induction l; constructor; auto using row_stays. Qed.
Lemma moves_back l l' r' : Forall2 moves l l' → r' ∈ l' → ∃ r, r ∈ l ∧ moves r r'.
Proof.
  intros H [i Hi]%list_elem_of_lookup. destruct (Forall2_lookup_r _ _ _ _ _ H Hi) as (r & Hr & Hm).
  exists r. split; [by eapply list_elem_of_lookup_2|done].
Qed.
Lemma same_id l r r' : NoDup (map dID l) → r ∈ l → r' ∈ l → dID r = dID r' → r = r'.
Proof.
  intros Hn [i Hi]%list_elem_of_lookup [j Hj]%list_elem_of_lookup E.
  assert (i = j) as ->; [|congruence]. eapply (NoDup_lookup _ _ _ (dID r) Hn); rewrite list_lookup_fmap.
  - by rewrite Hi.
  - rewrite Hj. simpl. by rewrite E.
Qed.
Lemma moves_terminal r r' : moves r r' → dState r = DTerminal → dState r' = DTerminal.
Proof. intros Hm E. pose proof (mv_rank _ _ Hm) as H. rewrite E in H. destruct (dState r'); simpl in H; lia || done. Qed.
Lemma moves_columns r r' : moves r r' →
  dID r' = dID r ∧ dParent r' = dParent r ∧ dChild r' = dChild r ∧ dChildRequest r' = dChildRequest r ∧
  dParentRequest r' = dParentRequest r.
Proof. intros [[=]]. by split_and!. Qed.

Lemma ok_moves d d' :
  ok d → Forall2 moves (rows d) (rows d') → rounds d' = rounds d → bindings d' = bindings d →
  is_Some (capacity d' !! "") → ok d'.
Proof.
  intros Hok Hm E1 E2 E3.
  assert (map dID (rows d') = map dID (rows d)) as Eid by (apply moves_map; [apply moves_id|done]).
  assert (NoDup (map dID (rows d'))) as Hnd by (rewrite Eid; apply Hok).
  split; rewrite ?E1, ?E2, ?Eid; try apply Hok; try done.
  - intros r' (r & Hr & Hrm)%(moves_back _ _ _ Hm) Hd. destruct (decide (dDelivery r' = dDelivery r)) as [E|E].
    + rewrite E in Hd. by eapply moves_terminal, (ok_delivery d Hok).
    + by apply (mv_returns _ _ Hrm).
  - intros r' (r & Hr & Hrm)%(moves_back _ _ _ Hm). destruct (moves_columns _ _ Hrm) as [-> _].
    by apply (ok_binding d Hok).
  - intros r1' r2' H1 H2 Ep Eq. apply (same_id (rows d')); [done..|].
    apply (moves_back _ _ _ Hm) in H1 as (r1 & H1 & M1), H2 as (r2 & H2 & M2).
    destruct (moves_columns _ _ M1) as (I1 & P1 & _ & _ & Q1), (moves_columns _ _ M2) as (I2 & P2 & _ & _ & Q2).
    rewrite I1, I2. f_equal. apply (ok_return d Hok); congruence || done.
  - intros r1' r2' H1 H2 Ep Eq. apply (same_id (rows d')); [done..|].
    apply (moves_back _ _ _ Hm) in H1 as (r1 & H1 & M1), H2 as (r2 & H2 & M2).
    destruct (moves_columns _ _ M1) as (I1 & _ & P1 & Q1 & _), (moves_columns _ _ M2) as (I2 & _ & P2 & Q2 & _).
    rewrite I1, I2. f_equal. apply (ok_request d Hok); congruence || done.
Qed.

(** The rows after a step that admits none. *)
Definition keeps (d d' : Store) : Prop := Forall2 moves (rows d) (rows d').
Lemma keeps_map d d' f :
  rows d' = map f (rows d) → (∀ r, r ∈ rows d → advances r (f r)) → keeps d d'.
Proof.
  intros E H. unfold keeps. rewrite E. apply Forall2_fmap_r, Forall_Forall2_diag, Forall_forall.
  intros r Hr. by apply H.
Qed.
Lemma promoted_moves now r : dState r = DQueued → moves r (promoted now r).
Proof. intros E. split; cbn; [reflexivity|rewrite E; cbn; lia|by rewrite E|by left|done]. Qed.
Lemma keeps_insert d d' i r now :
  rows d !! i = Some r → dState r = DQueued → rows d' = <[i := promoted now r]> (rows d) → keeps d d'.
Proof.
  intros Hi Hq E. unfold keeps. rewrite E. apply Forall2_same_length_lookup. split; [by rewrite length_insert|].
  intros j x y Hx Hy. destruct (decide (i = j)) as [<-|Hj].
  - rewrite list_lookup_insert_eq in Hy by by eapply lookup_lt_Some. assert (x = r) as -> by congruence.
    injection Hy as <-. by apply promoted_moves.
  - rewrite list_lookup_insert_ne in Hy by done. assert (x = y) as -> by congruence. apply row_stays.
Qed.

Lemma rowIn_columns r s now :
  dID (rowIn r s now) = dID (rRow r) ∧ dParent (rowIn r s now) = dParent (rRow r) ∧
  dChild (rowIn r s now) = dChild (rRow r) ∧ dChildRequest (rowIn r s now) = dChildRequest (rRow r) ∧
  dParentRequest (rowIn r s now) = dParentRequest (rRow r) ∧ dState (rowIn r s now) = s ∧
  (dDelivery (rowIn r s now) = DeliveryPending ∨ dDelivery (rowIn r s now) = NotRequested).
Proof. unfold rowIn. case_bool_decide; cbn; split_and!; try reflexivity; [by right|by left]. Qed.
Lemma no_clash r s x : clashes (fresh (rRow r) s 0) x = false →
  dID x ≠ dID (rRow r) ∧ (dChild x = dChild (rRow r) → dChildRequest x ≠ dChildRequest (rRow r)) ∧
  (dParent x = dParent (rRow r) → dParentRequest x ≠ dParentRequest (rRow r)).
Proof.
  unfold clashes. rewrite !orb_false_iff, !andb_false_iff, !bool_decide_eq_false.
  intros [[[H1 H2] H3] _]. cbn in H1, H2, H3. split_and!; [congruence|naive_solver|naive_solver].
Qed.

Lemma ok_admits r s now d d' : ok d → admits r s now d d' → capacity d' = capacity d → ok d'.
Proof.
  intros Hok [[Hn _ Hc] Er Hb Eb (o & Eo & Hf)] Ec.
  destruct (rowIn_columns r s now) as (I & P & C & Q & R & S & D).
  assert (∀ x, x ∈ rows d → dID x ≠ dID (rRow r) ∧
    (dChild x = dChild (rRow r) → dChildRequest x ≠ dChildRequest (rRow r)) ∧
    (dParent x = dParent (rRow r) → dParentRequest x ≠ dParentRequest (rRow r))) as Hnew.
  { intros x Hx. eapply no_clash, Hc, Hx. }
  split; rewrite ?Er, ?Eb, ?Eo, ?Ec, ?map_app; cbn [map].
  - apply NoDup_app. split_and!; [apply Hok| |apply NoDup_singleton].
    intros id Hid Hl. apply list_elem_of_singleton in Hl. apply list_elem_of_fmap in Hid as (x & -> & Hx).
    rewrite I in Hl. by destruct (Hnew x Hx) as [[] _].
  - rewrite (ok_rounds d Hok), I. by rewrite (fo_id _ _ _ Hf).
  - apply (follows_linear r o d); [apply Hok..|exact Hf].
  - intros o' [Ho'|Ho'%list_elem_of_singleton]%elem_of_app; [by apply (ok_bound d Hok)|].
    subst o'. apply Hf.
  - apply Hok.
  - intros x [Hx|Hx%list_elem_of_singleton]%elem_of_app; [by apply (ok_delivery d Hok)|]. subst x.
    intros Hd. destruct D as [D|D]; rewrite D in Hd; clear -Hd; set_solver.
  - intros x [Hx|Hx%list_elem_of_singleton]%elem_of_app.
    + rewrite lookup_insert_ne; [by apply (ok_binding d Hok)|]. intros E. by destruct (Hnew x Hx) as [[] _].
    + subst x. rewrite I, lookup_insert_eq. by eexists.
  - intros x y [Hx|Hx%list_elem_of_singleton]%elem_of_app [Hy|Hy%list_elem_of_singleton]%elem_of_app Ep Eq;
      subst; [by apply (ok_return d Hok)|destruct (Hnew x Hx) as (_ & _ & [])|destruct (Hnew y Hy) as (_ & _ & [])|done];
      congruence.
  - intros x y [Hx|Hx%list_elem_of_singleton]%elem_of_app [Hy|Hy%list_elem_of_singleton]%elem_of_app Ep Eq;
      subst; [by apply (ok_request d Hok)|destruct (Hnew x Hx) as (_ & [] & _)|destruct (Hnew y Hy) as (_ & [] & _)|done];
      congruence.
Qed.

Lemma dstep_ok C d d' : ok d → dstep C d d' → ok d'.
Proof.
  intros Hok Hs. destruct Hs as [Er Eo Ec Eb|f Er Hf Eo Ec Eb|i r l now Hi Hq _ _ _ _ Er Eo Ec Eb|r s now Ha Ec|Er Eo Eb Hc _].
  - apply (ok_moves d); try done; [rewrite Er; apply moves_all|rewrite Ec; apply Hok].
  - apply (ok_moves d); try done; [by eapply keeps_map|rewrite Ec; apply Hok].
  - apply (ok_moves d); try done; [by eapply keeps_insert|rewrite Ec; apply Hok].
  - by eapply ok_admits.
  - apply (ok_moves d); try done. rewrite Er. apply moves_all.
Qed.

(** ** Every operation *)
Definition configures (o : dop) (l : Limits) : Prop :=
  match o with OpConfigure c => configured c l | _ => False end.
Definition rests (o : dop) : Prop := match o with OpPendingBatch _ => False | _ => True end.

Lemma transaction_does {A} C S (zero : A) (m : Tx Store A) fs d :
  wp m (λ _ d', does C S d d') d → does C S d (transaction zero m fs d).1.2.
Proof.
  intros H. pose proof (transaction_elim zero m fs d (λ _ d', does C S d d')) as Ht.
  destruct (transaction zero m fs d) as [[? ?] ?]. apply Ht; [exact H|]. intros. apply does_refl.
Qed.
Lemma alone_elim {A} (zero : A) (m : Tx Store A) fs d (P : A * option Err → Store → Prop) :
  wp m (λ a d', P (a, None) d') d → (∀ e, P (zero, Some e) d) →
  let '(r, d', _) := alone zero m fs d in P r d'.
Proof.
  intros Hm Hf. unfold alone. apply single_elim; [|done]. apply wp_bind.
  eapply wp_mono; [exact Hm|]. intros a d' H. by apply wp_ret.
Qed.
Lemma alone_does {A} C S (zero : A) (m : Tx Store A) fs d :
  wp m (λ _ d', does C S d d') d → does C S d (alone zero m fs d).1.2.
Proof.
  intros H. pose proof (alone_elim zero m fs d (λ _ d', does C S d d')) as Ht.
  destruct (alone zero m fs d) as [[? ?] ?]. apply Ht; [exact H|]. intros. apply does_refl.
Qed.

Lemma CreateBounded_does C S r now fs d : does C S d (CreateBounded r now fs d).1.2.
Proof.
  apply transaction_does. wp_step. eapply wp_mono; [apply (insertBounded_does C S)|]. intros ? d' H. wp_step. exact H.
Qed.

Section Perform.
Context (keyJSON : Namespace → string → string) (sha256Hex : string → string)
        (normalize : string → option string) (digestJSON : list string → Z → list string → string).
Notation perform := (perform keyJSON sha256Hex normalize digestJSON).
Notation run := (run keyJSON sha256Hex normalize digestJSON).

Lemma perform_does o fs d : ok d → does (configures o) (rests o) d (perform o fs d).2.
Proof.
  intros Hok. destruct o; cbn [perform snd].
  - apply CreateBounded_does.
  - apply transaction_does, Continue_does.
  - apply transaction_does, createAPI_does.
  - apply transaction_does. eapply wp_mono; [by apply (TryPromote_does (configures (OpTryPromote id now)) True)|]. intros ? ? [H _]. exact H.
  - apply alone_does, MarkRunning_does.
  - apply alone_does, MarkProvisionFailed_does.
  - apply alone_does, MarkCollecting_does.
  - apply alone_does, Complete_does.
  - apply alone_does, MarkDeliveryQueued_does.
  - by apply alone_does, MarkDelivered_does.
  - apply alone_does, MarkDeliveryFailed_does.
  - apply transaction_does, CancelQueuedAPI_does.
  - by apply transaction_does, CancelWaiting_does.
  - by apply ConfigureCapacity_does.
  - unfold PendingBatchTx. destruct (_ || _); [apply does_refl|]. apply transaction_does, PendingBatch_does. tauto.
  - apply transaction_does, PinNativeThread_does.
  - apply alone_does, ClaimSteer_does.
  - apply transaction_does, BindQA_does.
  - apply transaction_does, RecordQA_does.
  - apply BindAuthority_does.
  - apply alone_does, Reserve_does.
  - apply alone_does, Finish_does.
  - apply transaction_does, ReauthorizePair_does.
  - apply transaction_does, SealReturnContext_does.
  - rewrite Reopen_same by done. apply does_refl.
Qed.
Lemma perform_ok o fs d : ok d → ok (perform o fs d).2.
Proof. intros Hok. by eapply dstep_ok, perform_does. Qed.
Lemma run_cons x l d : run (x :: l) d = run l (perform x.1 x.2 d).2.
Proof. done. Qed.
Lemma run_two l l' d : run (l ++ l') d = run l' (run l d).
Proof. apply foldl_app. Qed.
Lemma run_ok l d : ok d → ok (run l d).
Proof. revert d. induction l as [|x l IH]; intros d Hok; [done|]. by apply IH, perform_ok. Qed.

(** Induction over a history, by the steps that its operations allow. *)
Lemma run_invariant (P : Store → Prop) l d :
  (∀ x d d', x ∈ l → ok d → P d → does (configures x.1) (rests x.1) d d' → P d') → ok d → P d → P (run l d).
Proof.
  revert d. induction l as [|x l IH]; intros d Hs Hok Hd; [done|]. rewrite run_cons. apply IH.
  - intros y e e' Hy. apply Hs. by right.
  - by apply perform_ok.
  - eapply Hs; [left|done..|by apply perform_does].
Qed.
End Perform.
