(* ===== verification/DelegationProps.v ===== *)
(** * What the delegation store guarantees

    Over any history of its operations, whatever fails in them: the capacity of
    a parent is never exceeded, a child works for one handoff at a time, the
    rounds of a task form one numbered chain, what is finished stays finished,
    waiting work is promoted in order and scanned in bounded time, and a result
    is claimed by one caller. *)
From S2P Require Import Prelude Orders Sql TaskJournal Decimal Base64 Handoff Delegation DelegationStore DelegationSteps.

(** ** Counting *)
Lemma countb_le2 {A} (R : A → A → Prop) (p q : A → bool) l l' :
  Forall2 R l l' → (∀ x x', R x x' → q x' = true → p x = true) → (countb q l' ≤ countb p l)%nat.
Proof.
  intros H Hpq. induction H as [|x x' l l' Hx Hl IH]; [done|]. simpl. specialize (Hpq x x' Hx).
  destruct (q x'), (p x); simpl; lia.
Qed.

(** *** What a step does to one row *)
Definition mayCount (p : Store → Row → bool) : Prop :=
  (∀ d d' r r', advances r r' → rounds d' = rounds d → p d' r' = true → p d r = true) ∧
  (∀ d d' r, (∀ id, id = dID r → steers d' id = steers d id) → p d' r = p d r).

Lemma active_counts : mayCount isActive.
Proof.
  split.
  - intros d d' r r' [Hm Hi] Ero. unfold isActive. destruct (moves_columns _ _ Hm) as (-> & _).
    rewrite (steers_rounds d d') by done. rewrite !andb_true_iff, !bool_decide_eq_true. intros [Hs ->]. split; [|done].
    pose proof (mv_rank _ _ Hm) as Hr. unfold idles in Hi.
    rewrite !elem_of_cons, elem_of_nil in *. destruct (dState r) eqn:E, (dState r') eqn:E'; simpl in Hr; naive_solver lia.
  - intros d d' r H. unfold isActive. by rewrite (H (dID r)).
Qed.
Lemma queued_counts : mayCount (λ _, isQueued).
Proof.
  split; [|done]. intros d d' r r' [Hm _] _. rewrite !isQueued_spec. intros E. pose proof (mv_rank _ _ Hm) as Hr.
  rewrite E in Hr. destruct (dState r); simpl in Hr; lia || done.
Qed.
Lemma reserved_counts : mayCount (λ _, isReserved).
Proof.
  split; [|done]. intros d d' r r' [Hm _] _. unfold isReserved. rewrite !orb_true_iff, !negb_true_iff, !bool_decide_eq_false.
  rewrite !undelivered_spec. destruct (decide (dState r = DTerminal)) as [E|E]; [|by left].
  intros [H|H]; [by destruct H; eapply moves_terminal|]. right. destruct (mv_delivery _ _ Hm) as [->|[[-> _]|[-> _]]]; auto.
Qed.
Lemma countRows_advance p parent d d' f : mayCount p →
  rows d' = map f (rows d) → (∀ r, r ∈ rows d → advances r (f r)) → rounds d' = rounds d →
  countRows parent (p d') d' ≤ countRows parent (p d) d.
Proof.
  intros [Hp _] E Hf Ero. unfold countRows. rewrite E. apply inj_le.
  apply (countb_le2 advances); [apply Forall2_fmap_r, Forall_Forall2_diag, Forall_forall; intros r Hr; by apply Hf|].
  intros r r' Ha. unfold ofParent. rewrite !andb_true_iff. intros [H1 H2]. split; [|by eapply Hp].
  destruct Ha as [Hm _]. destruct (moves_columns _ _ Hm) as (_ & E2 & _). by rewrite E2 in H1.
Qed.
Lemma countRows_aside p parent d d' : mayCount p → rows d' = rows d → rounds d' = rounds d →
  countRows parent (p d') d' = countRows parent (p d) d.
Proof. intros [_ Hp] E Ero. apply countRows_ext; [done|]. intros r _. apply Hp. intros id _. by apply steers_rounds. Qed.

Lemma countRows_insert p parent d d' i r x : mayCount p →
  rows d !! i = Some r → rows d' = <[i := x]> (rows d) → rounds d' = rounds d →
  countRows parent (p d') d' + (if ofParent parent (p d) r then 1 else 0) =
  countRows parent (p d) d + (if ofParent parent (p d) x then 1 else 0).
Proof.
  intros [_ Hp] Hi E Ero.
  rewrite (countRows_ext parent (p d') (p d) d' d'); [|done|intros y _; apply Hp; intros ? _; by apply steers_rounds].
  unfold countRows. rewrite E. pose proof (countb_insert (ofParent parent (p d)) (rows d) i r x Hi).
  destruct (ofParent parent (p d) r), (ofParent parent (p d) x); simpl in *; lia.
Qed.

(** The new row steers when its record says so; the others as before. *)
Lemma steers_old r s now d d' id :
  admits r s now d d' → id ≠ dID (rRow r) → steers d' id = steers d id.
Proof.
  intros [_ _ _ _ (o & Eo & Hf)] Hid. rewrite (steers_snoc d' _ _ _ Eo), (fo_id _ _ _ Hf).
  rewrite (bool_decide_eq_false_2 (dID (rRow r) = id)) by done. by rewrite orb_false_r.
Qed.
Lemma steers_new r s now d d' :
  admits r s now d d' → steers d' (dID (rRow r)) = bool_decide (Mode r = "steer").
Proof.
  intros [_ _ _ _ (o & Eo & Hf)]. rewrite (steers_snoc d' _ _ _ Eo), (fo_id _ _ _ Hf), (fo_mode _ _ _ Hf).
  rewrite (bool_decide_eq_true_2 (dID (rRow r) = dID (rRow r))) by done. simpl.
  replace (existsb _ (rounds d)) with false.
  - simpl. destruct (Mode r) as [|a m]; simpl; [done|]. done.
  - symmetry. apply not_true_iff_false. rewrite existsb_exists. intros (o' & Ho'%list_elem_of_In & H).
    apply andb_true_iff in H as [H%bool_decide_eq_true _]. by apply (fo_new _ _ _ Hf o' Ho'); rewrite (fo_id _ _ _ Hf).
Qed.
Lemma countRows_admit p parent r s now d d' : mayCount p → admits r s now d d' →
  countRows parent (p d') d' = countRows parent (p d) d + (if ofParent parent (p d') (rowIn r s now) then 1 else 0).
Proof.
  intros [_ Hp] Ha. pose proof Ha as [[_ _ Hc] Er _ _ _]. unfold countRows. rewrite Er, countb_app, Nat2Z.inj_add.
  f_equal; [|simpl; by destruct (ofParent _ _ _)]. f_equal. apply countb_ext. intros x Hx. unfold ofParent. f_equal.
  apply Hp. intros id ->. eapply steers_old; [done|]. by destruct (no_clash _ _ _ (Hc x Hx)).
Qed.

(** ** Capacity *)
Record at_most (l top : Limits) : Prop := mkAtMost {
  am_active : lActive l ≤ lActive top; am_queued : lQueued l ≤ lQueued top;
  am_delivery : lDelivery l ≤ lDelivery top }.
Record fits (top : Limits) (d : Store) (parent : string) : Prop := mkFits {
  ft_active : nActive (countsOf parent d) ≤ lActive top;
  ft_queued : nQueued (countsOf parent d) ≤ lQueued top;
  ft_reserved : nReserved (countsOf parent d) ≤ lDelivery top }.
Definition bounded (top : Limits) (d : Store) : Prop :=
  (∀ parent l, capacity d !! parent = Some l → at_most l top) ∧ ∀ parent, fits top d parent.

Lemma limitsOf_bounded top d parent l :
  (∀ parent l, capacity d !! parent = Some l → at_most l top) → limitsOf parent d = Some l → at_most l top.
Proof. intros H. unfold limitsOf. destruct (capacity d !! parent) eqn:E; [intros [= <-]; by eapply H|apply H]. Qed.

Lemma counts_aside d d' parent : rows d' = rows d → rounds d' = rounds d → countsOf parent d' = countsOf parent d.
Proof. intros E1 E2. apply countsOf_steers; [done|]. intros. by apply steers_rounds. Qed.

Lemma promoted_active now r d d' : rounds d' = rounds d → dState r = DQueued →
  isActive d r = false ∧ isQueued (promoted now r) = false ∧ isReserved r = true.
Proof.
  intros _ E. unfold isActive, isQueued, isReserved, promoted. rewrite E. cbn.
  split_and!; [|by rewrite bool_decide_eq_false_2|by rewrite bool_decide_eq_false_2].
  rewrite bool_decide_eq_false_2; [done|]. set_solver.
Qed.

Ltac by_counts :=
  repeat match goal with H : context [if ?b then _ else _] |- _ => destruct b end; lia.

Lemma dstep_bounded C top d d' :
  (∀ l, C l → at_most l top) → bounded top d → dstep C d d' → bounded top d'.
Proof.
  intros HC [Hc Hf] Hs. destruct Hs as [Er Eo Ec Eb|f Er Ha Eo Ec Eb|i r l now Hi Hq Hl Hn _ _ Er Eo Ec Eb|r s now Ha Ec|Er Eo Eb _ Hcc].
  - split; [by rewrite Ec|]. intros parent. destruct (Hf parent). split; by rewrite (counts_aside d d').
  - split; [by rewrite Ec|]. intros parent. destruct (Hf parent) as [A Q R].
    pose proof (countRows_advance isActive parent d d' f active_counts Er Ha Eo).
    pose proof (countRows_advance (λ _, isQueued) parent d d' f queued_counts Er Ha Eo).
    pose proof (countRows_advance (λ _, isReserved) parent d d' f reserved_counts Er Ha Eo).
    split; simpl in *; lia.
  - split; [by rewrite Ec|]. intros parent. destruct (Hf parent) as [A Q R]. simpl in *.
    pose proof (limitsOf_bounded top d _ _ Hc Hl) as [La _ _].
    pose proof (countRows_insert isActive parent d d' i r _ active_counts Hi Er Eo) as I1.
    pose proof (countRows_insert (λ _, isQueued) parent d d' i r _ queued_counts Hi Er Eo) as I2.
    pose proof (countRows_insert (λ _, isReserved) parent d d' i r _ reserved_counts Hi Er Eo) as I3.
    destruct (promoted_active now r d d' Eo Hq) as (P1 & P2 & P3). cbv beta in *. unfold ofParent in I1, I2, I3.
    rewrite P1, andb_false_r in I1. rewrite P2, andb_false_r in I2. rewrite P3, andb_true_r in I3.
    change (dParent (promoted now r)) with (dParent r) in I1, I3.
    case_bool_decide as E; [subst parent|]; simpl in *; split; simpl; by_counts.
  - split; [by rewrite Ec|]. intros parent. destruct (Hf parent) as [A Q R]. simpl in *.
    pose proof (countRows_admit isActive parent r s now d d' active_counts Ha) as I1.
    pose proof (countRows_admit (λ _, isQueued) parent r s now d d' queued_counts Ha) as I2.
    pose proof (countRows_admit (λ _, isReserved) parent r s now d d' reserved_counts Ha) as I3.
    destruct (rowIn_columns r s now) as (Id & P & _ & _ & _ & S & _). cbv beta in *. unfold ofParent in I1, I2, I3.
    pose proof (steers_new r s now d d' Ha) as Hst.
    destruct Ha as [[_ (l & Hl & Hres & Hroom) _] _ _ _ _].
    pose proof (limitsOf_bounded top d _ _ Hc Hl) as [La Lq Ld]. simpl in *.
    assert (isActive d' (rowIn r s now) = bool_decide (s ∈ [DProvisioning; DRunning]) && negb (bool_decide (Mode r = "steer")))
      as EA by (unfold isActive; by rewrite Id, S, Hst).
    assert (isQueued (rowIn r s now) = bool_decide (s = DQueued)) as EQ by (unfold isQueued; by rewrite S).
    rewrite EA, P in I1. rewrite EQ, P in I2. rewrite P in I3.
    destruct (bool_decide (dParent (rRow r) = parent)) eqn:E; simpl in *; [|split; simpl; lia].
    apply bool_decide_eq_true in E. subst parent.
    split; simpl in *.
    + destruct Hroom as [[Hm ->]|[(Hm & -> & Hact & _)|(Hm & -> & _)]].
      * rewrite (bool_decide_eq_true_2 (Mode r = "steer")) in I1 by done. rewrite andb_false_r in I1. lia.
      * by_counts.
      * rewrite (bool_decide_eq_false_2 (DQueued ∈ _)) in I1 by set_solver. simpl in I1. lia.
    + destruct Hroom as [[Hm ->]|[(Hm & -> & Hact & _)|(Hm & -> & Hqu)]]; simpl in I2; try lia.
    + by_counts.
  - split; [intros; by eapply HC, Hcc|]. intros parent. destruct (Hf parent). split; by rewrite (counts_aside d d').
Qed.

Lemma bounded_empty top : at_most DefaultLimits top → bounded top Empty.
Proof.
  intros Ht. split.
  - intros parent l. simpl. rewrite lookup_singleton_Some. by intros [_ <-].
  - intros parent. destruct Ht as [A Q R]. cbn in A, Q, R. split; (etrans; [|eassumption]); by vm_compute.
Qed.

(** ** One working handoff per child *)
Definition exclusive (d : Store) : Prop := ∀ child r r',
  r ∈ rows d → r' ∈ rows d → occupies d child r = true → occupies d child r' = true → r = r'.

Lemma childBusy_free d child r : childBusy d child = false → r ∈ rows d → occupies d child r = false.
Proof.
  unfold childBusy. intros H Hr. apply not_true_iff_false. intros E. apply not_true_iff_false in H. destruct H.
  apply existsb_exists. exists r. by rewrite <- list_elem_of_In.
Qed.
Lemma occupies_advance d d' child r r' :
  advances r r' → rounds d' = rounds d → occupies d' child r' = true → occupies d child r = true.
Proof.
  intros [Hm Hi] Ero. unfold occupies. destruct (moves_columns _ _ Hm) as (-> & _ & -> & _).
  rewrite (steers_rounds d d') by done. rewrite !andb_true_iff, !bool_decide_eq_true. intros [[-> Hs] ->].
  split_and!; try done. pose proof (mv_rank _ _ Hm) as Hr. unfold idles in Hi.
  rewrite !elem_of_cons, elem_of_nil in *. destruct (dState r) eqn:E, (dState r') eqn:E'; simpl in Hr; naive_solver lia.
Qed.
Lemma occupies_spec d child r : occupies d child r = true ↔
  dChild r = child ∧ dState r ∈ [DProvisioning; DRunning; DCollecting] ∧ steers d (dID r) = false.
Proof. unfold occupies. rewrite !andb_true_iff, !bool_decide_eq_true, negb_true_iff. tauto. Qed.

Lemma exclusive_map d d' f : exclusive d → ok d' →
  rows d' = map f (rows d) → (∀ r, r ∈ rows d → advances r (f r)) → rounds d' = rounds d → exclusive d'.
Proof.
  intros He Hok E Hf Ero child x x' Hx Hx' Ox Ox'. rewrite E in Hx, Hx'.
  apply list_elem_of_fmap in Hx as (r & -> & Hr), Hx' as (r' & -> & Hr'). f_equal.
  apply (He child); [done..| |]; eapply occupies_advance; eauto.
Qed.
Lemma exclusive_promote d d' i r now : exclusive d → rows d !! i = Some r → childBusy d (dChild r) = false →
  rows d' = <[i := promoted now r]> (rows d) → rounds d' = rounds d → exclusive d'.
Proof.
  intros He Hi Hb E Ero.
  assert (∀ child x, x ∈ rows d' → occupies d' child x = true →
    x = promoted now r ∧ child = dChild r ∨ x ∈ rows d ∧ occupies d child x = true ∧ child ≠ dChild r) as Hcase.
  { intros child x Hx Ho. rewrite E in Hx.
    assert (occupies d' child x = occupies d child x) as Eo by (unfold occupies; by rewrite (steers_rounds d d')).
    apply list_elem_of_lookup in Hx as [j Hj]. destruct (decide (j = i)) as [->|Hne].
    - rewrite list_lookup_insert_eq in Hj by by eapply lookup_lt_Some. injection Hj as <-. left. split; [done|].
      apply occupies_spec in Ho as [Hc _]. by rewrite <- Hc.
    - rewrite list_lookup_insert_ne in Hj by done. apply list_elem_of_lookup_2 in Hj. right.
      split_and!; [done|by rewrite <- Eo|]. intros ->. rewrite Eo, (childBusy_free d) in Ho by done. done. }
  intros child x x' Hx Hx' Ox Ox'.
  destruct (Hcase _ _ Hx Ox) as [[-> E1]|(H1 & O1 & N1)], (Hcase _ _ Hx' Ox') as [[-> E2]|(H2 & O2 & N2)]; try done.
  by apply (He child).
Qed.
Lemma exclusive_admit d d' r s now : exclusive d → admits r s now d d' → exclusive d'.
Proof.
  intros He Ha. pose proof Ha as [[_ (l & _ & _ & Hroom) Hc] Er _ _ _].
  destruct (rowIn_columns r s now) as (Id & _ & C & _ & _ & St & _).
  assert (∀ child x, x ∈ rows d' → occupies d' child x = true →
    x = rowIn r s now ∧ child = dChild (rRow r) ∧ childBusy d child = false ∨ x ∈ rows d ∧ occupies d child x = true) as Hcase.
  { intros child x Hx Ho. rewrite Er in Hx. apply elem_of_app in Hx as [Hx|Hx%list_elem_of_singleton].
    - right. split; [done|]. rewrite <- Ho. unfold occupies. f_equal. f_equal. symmetry. eapply steers_old; [done|].
      by destruct (no_clash _ _ _ (Hc x Hx)).
    - subst x. left. apply occupies_spec in Ho as (E1 & E2 & E3). rewrite C in E1. rewrite St in E2.
      rewrite Id, (steers_new r s now d d' Ha), bool_decide_eq_false in E3. subst child. split_and!; [done..|].
      destruct Hroom as [[? _]|[(_ & _ & _ & _ & ?)|(_ & -> & _)]]; [done..|]. set_solver. }
  assert (∀ child x, x ∈ rows d → occupies d child x = true → childBusy d child = false → False) as Hno.
  { intros child x Hx Ho Hb. by rewrite (childBusy_free d child x Hb Hx) in Ho. }
  intros child x x' Hx Hx' Ox Ox'.
  destruct (Hcase _ _ Hx Ox) as [(-> & _ & B1)|[H1 O1]], (Hcase _ _ Hx' Ox') as [(-> & _ & B2)|[H2 O2]]; try done.
  - by destruct (Hno child x').
  - by destruct (Hno child x).
  - by apply (He child).
Qed.
Lemma exclusive_same d d' : exclusive d → rows d' = rows d → rounds d' = rounds d → exclusive d'.
Proof.
  intros He E Ero child x x'. rewrite E. unfold occupies. rewrite !(steers_rounds d d') by done. apply He.
Qed.
Lemma dstep_exclusive C d d' : ok d → exclusive d → dstep C d d' → exclusive d'.
Proof.
  intros Hok He Hs. pose proof (dstep_ok _ _ _ Hok Hs) as Hok'.
  destruct Hs as [Er Eo _ _|f Er Ha Eo _ _|i r l now Hi _ _ _ Hb _ Er Eo _ _|r s now Ha _|Er Eo _ _ _].
  - by apply (exclusive_same d).
  - by eapply (exclusive_map d).
  - by eapply (exclusive_promote d).
  - by eapply (exclusive_admit d).
  - by apply (exclusive_same d).
Qed.

(** ** Promotion *)

(** What [TryPromote] asks before it promotes the row [r] at position [i]. *)
Definition ready (d : Store) (i : nat) (r : Row) (l : Limits) : bool :=
  let n := countsOf (dParent r) d in
  isQueued r && negb ((lActive l <=? nActive n) || (lDelivery l <=? nActive n + nDelivery n)) &&
  negb (childBusy d (dChild r)) && negb (olderWaits (dParent r) i d).

Lemma position_at d i r : NoDup (map dID (rows d)) → rows d !! i = Some r →
  rowOf (dID r) d = Some r ∧ position (dID r) d = Some i.
Proof.
  intros Hn Hi. unfold rowOf, position.
  assert (list_find (λ x, dID x = dID r) (rows d) = Some (i, r)) as ->; [|done].
  apply list_find_Some. split_and!; [done..|]. intros j x Hj Hlt E.
  assert (j = i) as ->; [|lia]. eapply (NoDup_lookup _ _ _ (dID r) Hn); rewrite list_lookup_fmap.
  - rewrite Hj. simpl. by rewrite E.
  - by rewrite Hi.
Qed.

(** A body whose statements do not fail. *)
Lemma run_bind {A B} (m : Tx Store A) (f : A → Tx Store B) a d d1 x :
  m [] d = ([], inl (a, d1)) → f a [] d1 = x → (m ≫= f) [] d = x.
Proof. intros H1 H2. unfold mbind, tx_bind. by rewrite H1. Qed.
Lemma run_query {A} (f : Store → A) d : query f [] d = ([], inl (f d, d)).
Proof. done. Qed.
Lemma run_orNoRows {A} (a : A) d : orNoRows (Some a) [] d = ([], inl (a, d)).
Proof. done. Qed.

Lemma TryPromote_run d i r l now :
  NoDup (map dID (rows d)) → rows d !! i = Some r → limitsOf (dParent r) d = Some l →
  TryPromote (dID r) now [] d =
  ([], inl (ready d i r l, if ready d i r l then d <| rows := <[i := promoted now r]> (rows d) |> else d)).
Proof.
  intros Hn Hi Hl. destruct (position_at d i r Hn Hi) as [E1 E2]. unfold TryPromote.
  eapply run_bind; [apply run_query|]. rewrite E1, E2. cbn [mbind option_bind].
  eapply run_bind; [apply run_orNoRows|]. unfold ready. destruct (isQueued r) eqn:Eq; [|reflexivity].
  cbn [negb andb]. eapply run_bind; [eapply run_bind; [apply run_query|]; rewrite Hl; apply run_orNoRows|].
  eapply run_bind; [apply run_query|]. destruct (_ || _); [reflexivity|]. cbn [negb andb].
  eapply run_bind; [apply run_query|]. destruct (childBusy d (dChild r)); [reflexivity|]. cbn [negb andb].
  eapply run_bind; [apply run_query|]. destruct (olderWaits (dParent r) i d); [reflexivity|]. cbn [negb].
  eapply run_bind; [reflexivity|].
  pose proof (map_unique (λ x, bool_decide (dID x = dID r) && isQueued x) (promoted now) (rows d) i r Hn Hi) as Em.
  cbv beta in Em. rewrite bool_decide_eq_true_2, Eq in Em by done. rewrite <- Em; [reflexivity|done|].
  intros x [H _]%andb_true_iff. by apply bool_decide_eq_true in H.
Qed.

(** Active, waiting and undelivered work are parts of what is reserved. *)
Lemma countb_parts {A} (p q s t : A → bool) l :
  (∀ x, Nat.b2n (p x) + Nat.b2n (q x) + Nat.b2n (s x) ≤ Nat.b2n (t x))%nat →
  (countb p l + countb q l + countb s l ≤ countb t l)%nat.
Proof. intros H. induction l as [|x l IH]; simpl; [lia|]. specialize (H x). lia. Qed.
Lemma reserved_parts parent d :
  nActive (countsOf parent d) + nDelivery (countsOf parent d) + nQueued (countsOf parent d) ≤
  nReserved (countsOf parent d).
Proof.
  simpl. unfold countRows.
  pose proof (countb_parts (ofParent parent (isActive d)) (ofParent parent isDelivery) (ofParent parent isQueued)
    (ofParent parent isReserved) (rows d)) as H. rewrite <- !Nat2Z.inj_add. apply inj_le, H. clear. intros r.
  unfold ofParent. destruct (bool_decide (dParent r = parent)); simpl; [|lia].
  unfold isActive, isDelivery, isQueued, isReserved. destruct (dState r), (steers d (dID r)), (undelivered r);
    apply Nat.leb_le; reflexivity.
Qed.

(** The first row that satisfies [p]. *)
Lemma first_row (p : Row → bool) l i r : l !! i = Some r → p r = true →
  ∃ j r0, (j ≤ i)%nat ∧ l !! j = Some r0 ∧ p r0 = true ∧ existsb p (take j l) = false.
Proof.
  revert i. induction l as [|x l IH]; intros i Hi Hp; [done|].
  destruct (p x) eqn:E; [exists 0%nat, x; split_and!; [lia|done..]|].
  destruct i as [|i]; [cbn in Hi; congruence|]. destruct (IH i Hi Hp) as (j & r0 & ? & ? & ? & Hn).
  exists (S j), r0. split_and!; [lia|done..|]. simpl. by rewrite E.
Qed.

(** The first row of the parent that waits and whose child is free is ready. *)
Lemma first_is_ready d parent limits i r :
  rows d !! i = Some r → dParent r = parent → dState r = DQueued → childBusy d (dChild r) = false →
  nActive (countsOf parent d) < lActive limits → nReserved (countsOf parent d) ≤ lDelivery limits →
  ∃ j r0, (j ≤ i)%nat ∧ rows d !! j = Some r0 ∧ dParent r0 = parent ∧ dState r0 = DQueued ∧ ready d j r0 limits = true.
Proof.
  intros Hi Hp Hq Hb Ha Hr.
  destruct (first_row (λ q, bool_decide (dParent q = parent) && isQueued q && negb (childBusy d (dChild q)))
    (rows d) i r Hi) as (j & r0 & Hj & Hl & Ht & Hno).
  { rewrite (bool_decide_eq_true_2 _ Hp), Hb. by rewrite (proj2 (isQueued_spec r) Hq). }
  rewrite !andb_true_iff, bool_decide_eq_true, negb_true_iff in Ht. destruct Ht as [[Ep Eq] Eb].
  exists j, r0. split_and!; try done; [by apply isQueued_spec|].
  assert (1 ≤ nQueued (countsOf parent d)) as H1.
  { simpl. unfold countRows. pose proof (countb_pos (ofParent parent isQueued) (rows d) r) as Hc.
    assert (1 ≤ countb (ofParent parent isQueued) (rows d))%nat; [|lia]. apply Hc; [by eapply list_elem_of_lookup_2|].
    unfold ofParent. rewrite (bool_decide_eq_true_2 _ Hp). by apply isQueued_spec. }
  pose proof (reserved_parts parent d). unfold ready. rewrite Ep, Eq, Eb. unfold olderWaits. rewrite Hno.
  rewrite (proj2 (Z.leb_gt _ _)), (proj2 (Z.leb_gt _ _)) by lia. done.
Qed.

(** ** The scan *)
Fixpoint climbs (lo : Z) (l : list (Z * Row)) : Prop :=
  match l with [] => True | x :: l => lo < x.1 ∧ climbs x.1 l end.
Lemma climbs_weaken lo lo' l : lo' ≤ lo → climbs lo l → climbs lo' l.
Proof. destruct l as [|x l]; [done|]. simpl. intros ? [? ?]. split; [lia|done]. Qed.
Lemma climbs_filter (P : Z * Row → Prop) `{∀ x, Decision (P x)} c lo l :
  (∀ x, P x → c < x.1) → climbs lo l → climbs (Z.max lo c) (filter P l).
Proof.
  intros HP. revert lo. induction l as [|x l IH]; intros lo; [done|]. intros [Hx Hl].
  rewrite filter_cons. case_decide as E.
  - pose proof (HP x E). split; [lia|]. specialize (IH _ Hl). by replace (Z.max x.1 c) with x.1 in IH by lia.
  - eapply climbs_weaken; [|by apply IH]. lia.
Qed.
Lemma climbs_numbered l : climbs 0 (numberedRows l).
Proof.
  unfold numberedRows.
  assert (∀ k, climbs k (imap (λ i r, (k + (Z.of_nat i + 1), r)) l)) as H; [|exact (H 0)].
  induction l as [|r l IH]; intros k; [done|]. rewrite imap_cons. simpl. split; [lia|].
  specialize (IH (k + 1)). eapply climbs_weaken; [|erewrite imap_ext; [exact IH|]]; [lia|].
  intros i x _. simpl. f_equal. lia.
Qed.
(** A row that a cut leaves out: the cut is full, and ends below the row. *)
Lemma climbs_take lo l m x : climbs lo l → x ∈ l → x ∉ take m l →
  length (take m l) = m ∧ ∀ y, last (take m l) = Some y → lo + Z.of_nat m ≤ y.1 < x.1.
Proof.
  revert lo m. induction l as [|a l IH]; intros lo m Hl Hx Hn; [by apply elem_of_nil in Hx|].
  destruct m as [|m]; [done|]. cbn [take climbs] in *. destruct Hl as [Ha Hl]. rewrite elem_of_cons in Hn.
  apply elem_of_cons in Hx as [->|Hx]; [tauto|].
  destruct (IH a.1 m Hl Hx) as [E Hy]; [tauto|]. split; [simpl; lia|]. intros y. cbn [last].
  destruct (take m l) as [|b t] eqn:Et; [|intros E'; specialize (Hy y E'); lia].
  intros [= <-]. simpl in E. assert (lo < a.1 < x.1); [|lia]. split; [done|].
  clear -Hl Hx. revert a Hl Hx. induction l as [|b l IH]; intros a Hl Hx; [by apply elem_of_nil in Hx|].
  destruct Hl as [Hb Hl]. apply elem_of_cons in Hx as [->|Hx]; [done|]. etrans; [exact Hb|by apply (IH b)].
Qed.
Lemma climbs_cut lo l m : climbs lo l → climbs lo (take m l).
Proof. revert lo m. induction l as [|x l IH]; intros lo [|m]; simpl; try done. intros [? ?]. auto. Qed.
Lemma climbs_last lo l y : climbs lo l → last l = Some y → lo + Z.of_nat (length l) ≤ y.1.
Proof.
  revert lo. induction l as [|x l IH]; intros lo; [done|]. intros [Hx Hl]. destruct l as [|b l].
  - intros [= <-]. simpl. lia.
  - intros Hy. specialize (IH x.1 Hl Hy). cbn [length] in *. lia.
Qed.

Definition horizon (d : Store) : Z :=
  if (scanCursor d).2 =? 0 then Z.of_nat (length (rows d)) else (scanCursor d).2.
Definition batch (limit : Z) (d : Store) : list (Z * Row) := batchOf (scanCursor d).1 (horizon d) limit d.
Definition scanned (limit : Z) (d d' : Store) : Prop :=
  rows d' = rows d ∧
  scanCursor d' = if Z.of_nat (length (batch limit d)) <? limit then (0, 0)
                  else (from_option fst 0 (last (batch limit d)), horizon d).
Lemma PendingBatch_wp limit d :
  wp (PendingBatch limit) (λ out d', out = map snd (batch limit d) ∧ scanned limit d d') d.
Proof.
  unfold PendingBatch, scanned, batch, horizon. do 2 wp_step. cbv beta. destruct (scanCursor d) as [c h]. simpl.
  wp_step. destruct (h =? 0).
  all: repeat wp_step; destruct (_ <? limit); repeat wp_step; by split_and!.
Qed.

(** The cursor is behind the horizon, which is behind the last row. *)
Definition scan_ok (d : Store) : Prop :=
  0 ≤ (scanCursor d).1 ≤ (scanCursor d).2 ∧ (scanCursor d).2 ≤ Z.of_nat (length (rows d)).
(** The calls of at least [k] rows until the row numbered [n] is returned. *)
Definition due (k n : Z) (d : Store) : Z :=
  let '(c, h) := scanCursor d in
  if (h =? 0) || ((c <? n) && (n <=? h)) then (n - c - 1) / k + 1
  else (h - c) / k + 1 + ((n - 1) / k + 1).

Lemma in_numbered l i r : l !! i = Some r → (Z.of_nat i + 1, r) ∈ numberedRows l.
Proof. intros Hi. apply elem_of_lookup_imap. by exists i, r. Qed.
Lemma batch_climbs d : 0 ≤ (scanCursor d).1 → climbs (scanCursor d).1
  (filter (λ x, pendingRow x.2 = true ∧ (scanCursor d).1 < x.1 ≤ horizon d) (numberedRows (rows d))).
Proof.
  intros Hc. pose proof (climbs_filter (λ x, pendingRow x.2 = true ∧ (scanCursor d).1 < x.1 ≤ horizon d)
    (scanCursor d).1 0 (numberedRows (rows d))) as H.
  rewrite Z.max_r in H by done. apply H; [|apply climbs_numbered]. by intros x (_ & ? & _).
Qed.
Lemma batch_last limit d y : 0 ≤ (scanCursor d).1 → last (batch limit d) = Some y →
  (scanCursor d).1 + Z.of_nat (length (batch limit d)) ≤ y.1 ≤ horizon d.
Proof.
  intros Hc Hy. split.
  - eapply climbs_last; [|exact Hy]. by apply climbs_cut, batch_climbs.
  - rewrite last_lookup in Hy. apply list_elem_of_lookup_2 in Hy. unfold batch, batchOf in Hy.
    apply elem_of_take in Hy as (j & Hy & _). apply list_elem_of_lookup_2 in Hy.
    apply list_elem_of_filter in Hy. tauto.
Qed.
Lemma div_sub a b k : 1 ≤ k → b + k ≤ a → b / k + 1 ≤ a / k.
Proof.
  intros Hk Hab. transitivity ((b + 1 * k) / k); [rewrite Z.div_add by lia; lia|]. apply Z.div_le_mono; lia.
Qed.

Lemma batch_scan_ok limit d d' : 1 ≤ limit → scan_ok d → scanned limit d d' → scan_ok d'.
Proof.
  intros Hl [Hc Hh] [Er Ec]. unfold scan_ok. rewrite Er, Ec. destruct (Z.ltb_spec (Z.of_nat (length (batch limit d))) limit) as [H|H].
  - simpl. lia.
  - destruct (last (batch limit d)) as [y|] eqn:E.
    + pose proof (batch_last limit d y ltac:(lia) E) as Hy. simpl. split; [lia|]. unfold horizon.
      destruct (Z.eqb_spec (scanCursor d).2 0); lia.
    + apply last_None in E. rewrite E in H. simpl in H. lia.
Qed.

Lemma batch_progress k limit d d' i r :
  1 ≤ k ≤ limit → scan_ok d → rows d !! i = Some r → pendingRow r = true → scanned limit d d' →
  r ∉ map snd (batch limit d) → due k (Z.of_nat i + 1) d' + 1 ≤ due k (Z.of_nat i + 1) d.
Proof.
  intros Hk [Hc Hh] Hi Hp [Er Ec] Hno. set (n := Z.of_nat i + 1).
  assert (Z.of_nat i < Z.of_nat (length (rows d))) as Hlen by (apply lookup_lt_Some in Hi; lia).
  assert (1 ≤ n) as Hn by lia.
  assert ((n, r) ∉ batch limit d) as Hout.
  { intros Hin. apply Hno. apply list_elem_of_fmap. by exists (n, r). }
  unfold due at 2. destruct (scanCursor d) as [c h] eqn:Es. cbn [fst snd] in *.
  assert (horizon d = if h =? 0 then Z.of_nat (length (rows d)) else h) as Eh by (unfold horizon; by rewrite Es).
  destruct ((h =? 0) || ((c <? n) && (n <=? h))) eqn:Eph.
  - assert (c < n ≤ horizon d) as Hin.
    { rewrite Eh. destruct (Z.eqb_spec h 0); [lia|]. simpl in Eph. apply andb_true_iff in Eph. lia. }
    pose proof (batch_climbs d) as Hcl. rewrite Es in Hcl. cbn [fst] in Hcl. specialize (Hcl ltac:(lia)).
    unfold batch, batchOf in Ec, Hout. rewrite Es in Ec, Hout. cbn [fst] in Ec, Hout.
    destruct (climbs_take c _ (Z.to_nat limit) (n, r) Hcl) as [El Hy]; [|exact Hout|].
    { apply list_elem_of_filter. split; [by split|]. by apply in_numbered. }
    rewrite El in Ec. rewrite (proj2 (Z.ltb_ge _ _)) in Ec by lia.
    destruct (last (take _ _)) as [y|] eqn:Ey.
    2: { apply last_None in Ey. rewrite Ey in El. simpl in El. lia. }
    specialize (Hy y eq_refl). simpl in Ec, Hy. unfold due. rewrite Ec.
    rewrite (proj2 (Z.ltb_lt y.1 n)), (proj2 (Z.leb_le n (horizon d))) by lia. rewrite orb_true_r.
    pose proof (div_sub (n - c - 1) (n - y.1 - 1) k). lia.
  - apply orb_false_iff in Eph as [Eh0 Eph]. rewrite Eh0 in Eh. apply Z.eqb_neq in Eh0.
    destruct (Z.ltb_spec (Z.of_nat (length (batch limit d))) limit) as [H|H]; unfold due; rewrite Ec.
    + cbn [Z.eqb orb]. replace (n - 0 - 1) with (n - 1) by lia.
      pose proof (Z.div_pos (h - c) k ltac:(lia) ltac:(lia)). lia.
    + destruct (last (batch limit d)) as [y|] eqn:Ey.
      2: { apply last_None in Ey. rewrite Ey in H. simpl in H. lia. }
      pose proof (batch_last limit d y) as Hy. rewrite Es in Hy. cbn [fst] in Hy. specialize (Hy ltac:(lia) Ey).
      simpl. rewrite Eh. rewrite (proj2 (Z.eqb_neq h 0)) by done.
      assert ((y.1 <? n) && (n <=? h) = false) as ->.
      { rewrite andb_false_iff in Eph |- *. rewrite !Z.ltb_ge, !Z.leb_gt in *. lia. }
      simpl. pose proof (div_sub (h - c) (h - y.1) k). lia.
Qed.

(** ** Rows over a history *)
Definition lives (d d' : Store) : Prop := ∀ i r, rows d !! i = Some r → ∃ r', rows d' !! i = Some r' ∧ moves r r'.
Lemma lives_refl d : lives d d.
Proof. intros i r Hi. exists r. split; [done|apply row_stays]. Qed.
Lemma lives_trans d1 d2 d3 : lives d1 d2 → lives d2 d3 → lives d1 d3.
Proof.
  intros H1 H2 i r Hi. destruct (H1 i r Hi) as (r2 & Hi2 & M2), (H2 i r2 Hi2) as (r3 & Hi3 & M3).
  exists r3. split; [done|]. by eapply moves_trans.
Qed.
Lemma keeps_lives d d' : keeps d d' → lives d d'.
Proof. intros H i r Hi. destruct (Forall2_lookup_l _ _ _ _ _ H Hi) as (r' & ? & ?). by exists r'. Qed.
Lemma dstep_lives C d d' : dstep C d d' → lives d d'.
Proof.
  intros Hs. destruct Hs as [Er _ _ _|f Er Ha _ _ _|i r l now Hi Hq _ _ _ _ Er _ _ _|r s now [_ Er _ _ _] _|Er _ _ _ _].
  - intros i r. rewrite Er. apply lives_refl.
  - by eapply keeps_lives, keeps_map.
  - by eapply keeps_lives, keeps_insert.
  - intros i x Hi. exists x. split; [|apply row_stays]. rewrite Er. by apply lookup_app_l_Some.
  - intros i r. rewrite Er. apply lives_refl.
Qed.
Lemma moves_pending r r' : moves r r' → pendingRow r' = true → pendingRow r = true.
Proof.
  intros Hm. unfold pendingRow. rewrite !orb_true_iff, !negb_true_iff, !bool_decide_eq_false, !undelivered_spec.
  destruct (decide (dState r = DTerminal)) as [E|E]; [|by left].
  intros [H|H]; [by destruct H; eapply moves_terminal|]. right. destruct (mv_delivery _ _ Hm) as [->|[[-> _]|[-> _]]]; auto.
Qed.

(** What can be won: a promotion, a completion, a returned result, a steer. *)
Inductive Prize :=
  | Promotion (id : string) | Completion (child request : string) | Returned (parent request : string)
  | Steered (id : string).
Definition prize (o : dop) : option Prize :=
  match o with
  | OpTryPromote id _ => Some (Promotion id)
  | OpComplete child request _ _ _ _ _ => Some (Completion child request)
  | OpMarkDelivered parent request _ | OpMarkDeliveryFailed parent request _ _ => Some (Returned parent request)
  | OpClaimSteer id => Some (Steered id)
  | _ => None
  end.
Definition settled (p : Prize) (d : Store) : Prop :=
  match p with
  | Promotion id => ∃ r, r ∈ rows d ∧ dID r = id ∧ dState r ≠ DQueued
  | Completion child request => ∃ r, r ∈ rows d ∧ dChild r = child ∧ dChildRequest r = request ∧ dState r = DTerminal
  | Returned parent request => ∃ r, r ∈ rows d ∧ dParent r = parent ∧ dParentRequest r = request ∧
      (dDelivery r = Delivered ∨ dDelivery r = DeliveryFailed)
  | Steered id => id ∈ claimed d
  end.
Lemma settled_stays C S p d d' : does C S d d' → settled p d → settled p d'.
Proof.
  intros [Hs Hg]. pose proof (dstep_lives _ _ _ Hs) as Hl.
  assert (∀ r, r ∈ rows d → ∃ r', r' ∈ rows d' ∧ moves r r') as Hrow.
  { intros r [i Hi]%list_elem_of_lookup. destruct (Hl i r Hi) as (r' & Hi' & Hm). exists r'.
    split; [by eapply list_elem_of_lookup_2|done]. }
  destruct p; simpl.
  - intros (r & Hr & <- & Hq). destruct (Hrow r Hr) as (r' & Hr' & Hm). exists r'.
    split_and!; [done|by apply moves_columns|]. pose proof (mv_rank _ _ Hm) as Hk. intros E. rewrite E in Hk.
    destruct (dState r); simpl in Hk; lia || done.
  - intros (r & Hr & <- & <- & Ht). destruct (Hrow r Hr) as (r' & Hr' & Hm). exists r'.
    destruct (moves_columns _ _ Hm) as (_ & _ & -> & -> & _). split_and!; [done..|]. by eapply moves_terminal.
  - intros (r & Hr & <- & <- & Ht). destruct (Hrow r Hr) as (r' & Hr' & Hm). exists r'.
    destruct (moves_columns _ _ Hm) as (_ & -> & _ & _ & ->). split_and!; [done..|].
    destruct (mv_delivery _ _ Hm) as [<- |[[E _]|[E _]]]; [done|rewrite E in Ht; naive_solver..].
  - intros H. by apply (gr_claimed _ _ _ Hg).
Qed.

(** An update that changes one row: it was there, and is changed. *)
Lemma updated_one p f d : changedOne (countb p (rows d)) = true →
  ∃ r, r ∈ rows d ∧ p r = true ∧ f r ∈ map (λ r, if p r then f r else r) (rows d).
Proof.
  unfold changedOne. intros H%Nat.eqb_eq. destruct (countb_pos_inv p (rows d)) as (r & Hr & Hp); [lia|].
  exists r. split_and!; [done..|]. apply list_elem_of_fmap. exists r. by rewrite Hp.
Qed.
Lemma updated_wp p f d : wp (n ← updateRows p f; mret (changedOne n))
  (λ b d', b = true → ∃ r, r ∈ rows d ∧ p r = true ∧ f r ∈ rows d') d.
Proof. wp_step. apply wp_updateRows. wp_step. apply updated_one. Qed.

Definition wins (p : Prize) (d : Store) (b : bool) (d' : Store) : Prop := b = true → ¬ settled p d ∧ settled p d'.
Lemma Complete_wins child request status result reason artifacts now d : ok d →
  wp (Complete child request status result reason artifacts now) (wins (Completion child request) d) d.
Proof.
  intros Hok. unfold Complete. destruct (terminalStatus status); [|apply wp_fail]. simpl negb. cbv iota.
  eapply wp_mono; [apply updated_wp|]. intros b d' H Hb. destruct (H Hb) as (r & Hr & Hg & Hf). row_guard Hg. split.
  - intros (x & Hx & E1 & E2 & E3). assert (x = r) as -> by (apply (ok_request d Hok); congruence || done).
    rewrite E3 in *. naive_solver.
  - eexists. split; [exact Hf|]. by split_and!.
Qed.
Lemma MarkDelivered_wins parent request now d : ok d →
  wp (MarkDelivered parent request now) (wins (Returned parent request) d) d.
Proof.
  intros Hok. unfold MarkDelivered. eapply wp_mono; [apply updated_wp|].
  intros b d' H Hb. destruct (H Hb) as (r & Hr & Hg & Hf). unfold returnOf in Hg. row_guard Hg. split.
  - intros (x & Hx & E1 & E2 & E3). assert (x = r) as -> by (apply (ok_return d Hok); congruence || done).
    destruct_or?; congruence.
  - eexists. split; [exact Hf|]. split_and!; [done..|by left].
Qed.
Lemma MarkDeliveryFailed_wins parent request reason now d : ok d →
  wp (MarkDeliveryFailed parent request reason now) (wins (Returned parent request) d) d.
Proof.
  intros Hok. unfold MarkDeliveryFailed. eapply wp_mono; [apply updated_wp|].
  intros b d' H Hb. destruct (H Hb) as (r & Hr & Hg & Hf). unfold returnOf in Hg. row_guard Hg. split.
  - intros (x & Hx & E1 & E2 & E3). assert (x = r) as -> by (apply (ok_return d Hok); congruence || done).
    destruct_or?; congruence.
  - eexists. split; [exact Hf|]. split_and!; [done..|by right].
Qed.
Lemma ClaimSteer_wins id d : wp (ClaimSteer id) (wins (Steered id) d) d.
Proof.
  unfold ClaimSteer. do 2 wp_step. cbv beta zeta. wp_step. unfold changedOne. intros H%Nat.eqb_eq.
  destruct (countb_pos_inv _ (rounds d) ltac:(rewrite H; lia)) as (o & Ho & Hp).
  assert (existsb (λ o, bool_decide (oID o = id) && bool_decide (oMode o = "steer") && negb (bool_decide (id ∈ claimed d)))
    (rounds d) = true) as ->.
  { apply existsb_exists. exists o. by rewrite <- list_elem_of_In. }
  rewrite !andb_true_iff, negb_true_iff, bool_decide_eq_false in Hp. split; [apply Hp|]. simpl. set_solver.
Qed.
Lemma TryPromote_wins id now d : ok d → wp (TryPromote id now) (wins (Promotion id) d) d.
Proof.
  intros Hok. eapply wp_mono; [by apply (TryPromote_does (λ _, False) True)|]. intros b d' [_ H] Hb.
  destruct (H Hb) as (i & r & Hi & Hid & Hq & Er). split.
  - intros (x & Hx & E1 & E2). assert (x = r) as ->; [|done].
    apply (same_id (rows d)); [apply Hok|done|by eapply list_elem_of_lookup_2|congruence].
  - exists (promoted now r). rewrite Er. split_and!; [|done..].
    apply list_elem_of_lookup. exists i. apply list_lookup_insert_eq. by eapply lookup_lt_Some.
Qed.

(** ** Histories *)
Section Histories.
Context (keyJSON : Namespace → string → string) (sha256Hex : string → string)
        (normalize : string → option string) (digestJSON : list string → Z → list string → string).
Notation perform := (perform keyJSON sha256Hex normalize digestJSON).
Notation run := (run keyJSON sha256Hex normalize digestJSON).

Definition history := list (dop * list bool).

(** The batches that a history returned. *)
Definition answers (o : dop) (fs : list bool) (d : Store) : list (list Row) :=
  match o with
  | OpPendingBatch limit =>
      let '(out, e) := (PendingBatchTx limit fs d).1.1 in if bool_decide (e = None) then [out] else []
  | _ => []
  end.
Fixpoint scans (l : history) (d : Store) : list (list Row) :=
  match l with [] => [] | x :: l => answers x.1 x.2 d ++ scans l (perform x.1 x.2 d).2 end.
(** The prizes that its operations reported, one for each that did. *)
Fixpoint won (l : history) (d : Store) : list Prize :=
  match l with
  | [] => []
  | x :: l =>
      (if (perform x.1 x.2 d).1 then option_list (prize x.1) else []) ++ won l (perform x.1 x.2 d).2
  end.

Lemma run_lives l d : ok d → lives d (run l d).
Proof.
  revert d. induction l as [|x l IH]; intros d Hok; [apply lives_refl|]. rewrite run_cons.
  eapply lives_trans; [|by apply IH, perform_ok]. by eapply dstep_lives, perform_does.
Qed.

Lemma transaction_wins p (m : Tx Store bool) fs d : wp m (wins p d) d →
  let x := transaction false m fs d in wins p d (x.1.1.1 && bool_decide (x.1.1.2 = None)) x.1.2.
Proof.
  intros H. pose proof (transaction_elim false m fs d (λ r d', wins p d (r.1 && bool_decide (r.2 = None)) d')) as Ht.
  destruct (transaction false m fs d) as [[r ?] ?]. apply Ht; [|done].
  eapply wp_mono; [exact H|]. intros b d'. cbn. by rewrite andb_true_r.
Qed.
Lemma alone_wins p (m : Tx Store bool) fs d : wp m (wins p d) d →
  let x := alone false m fs d in wins p d (x.1.1.1 && bool_decide (x.1.1.2 = None)) x.1.2.
Proof.
  intros H. pose proof (alone_elim false m fs d (λ r d', wins p d (r.1 && bool_decide (r.2 = None)) d')) as Ht.
  destruct (alone false m fs d) as [[r ?] ?]. apply Ht; [|done].
  eapply wp_mono; [exact H|]. intros b d'. cbn. by rewrite andb_true_r.
Qed.
Lemma perform_wins o fs p d : ok d → prize o = Some p → wins p d (perform o fs d).1 (perform o fs d).2.
Proof.
  intros Hok Hp. destruct o; try done; injection Hp as <-; cbn [perform fst snd].
  - by apply transaction_wins, TryPromote_wins.
  - by apply alone_wins, Complete_wins.
  - by apply alone_wins, MarkDelivered_wins.
  - by apply alone_wins, MarkDeliveryFailed_wins.
  - apply alone_wins, ClaimSteer_wins.
Qed.
Lemma won_unsettled l d p : ok d → settled p d → p ∉ won l d.
Proof.
  revert d. induction l as [|x l IH]; intros d Hok Hs; [apply not_elem_of_nil|]. cbn [won].
  rewrite elem_of_app. intros [Hp|Hp].
  - destruct (perform x.1 x.2 d).1 eqn:Ew; [|by apply elem_of_nil in Hp].
    destruct (prize x.1) as [q|] eqn:Eq; [|by apply elem_of_nil in Hp]. apply list_elem_of_singleton in Hp as ->.
    by destruct (perform_wins x.1 x.2 q d Hok Eq Ew).
  - revert Hp. apply IH; [by apply perform_ok|]. by eapply settled_stays, Hs; apply perform_does.
Qed.

Lemma does_scan_ok C d d' : does C True d d' → scan_ok d → scan_ok d'.
Proof.
  intros [Hs Hg] [H1 H2]. unfold scan_ok. rewrite (gr_cursor _ _ _ Hg I). split; [done|].
  pose proof (dstep_lives _ _ _ Hs) as Hl. etrans; [exact H2|]. apply inj_le.
  destruct (rows d) as [|r t] eqn:E using rev_ind; [simpl; lia|]. rewrite length_app. simpl.
  destruct (Hl (length t) r) as (r' & Hr & _); [rewrite E; by apply lookup_snoc_Some; right|].
  apply lookup_lt_Some in Hr. lia.
Qed.

(** One operation, as the scan sees it. *)
Lemma perform_scans o fs d : ok d → scan_ok d →
  (answers o fs d = [] ∧ scan_ok (perform o fs d).2 ∧ scanCursor (perform o fs d).2 = scanCursor d) ∨
  ∃ limit, o = OpPendingBatch limit ∧ 1 ≤ limit ∧ answers o fs d = [map snd (batch limit d)] ∧
    scanned limit d (perform o fs d).2.
Proof.
  intros Hok Hsc. assert ((∃ limit, o = OpPendingBatch limit) ∨ ¬ ∃ limit, o = OpPendingBatch limit) as [Ho|Ho]
    by (destruct o; (left; by eexists) || (right; by intros [? [=]])).
  2: { left. assert (answers o fs d = []) as -> by (destruct o; try done; destruct Ho; by eexists).
       assert (does (configures o) True d (perform o fs d).2) as Hd.
       { pose proof (perform_does keyJSON sha256Hex normalize digestJSON o fs d Hok) as H.
         destruct o; try exact H. destruct Ho. by eexists. }
       split_and!; [done|by eapply does_scan_ok|]. by apply (gr_cursor _ _ _ (proj2 Hd)). }
  destruct Ho as [limit ->]. cbn [perform fst snd answers]. unfold PendingBatchTx.
  destruct ((limit <? 1) || (128 <? limit)) eqn:El; [by left|]. apply orb_false_iff in El as [El%Z.ltb_ge _].
  pose proof (transaction_elim [] (PendingBatch limit) fs d
    (λ r d', r.2 = None ∧ r.1 = map snd (batch limit d) ∧ scanned limit d d' ∨ (∃ e, r.2 = Some e) ∧ d' = d)) as Ht.
  destruct (transaction [] (PendingBatch limit) fs d) as [[[out e] d'] fs']. cbn [fst snd] in *.
  destruct Ht as [(-> & -> & Hs)|[[e' ->] ->]].
  - eapply wp_mono; [apply PendingBatch_wp|]. intros out1 d1 [-> Hs]. left. by split_and!.
  - intros e1. right. split; [by eexists|done].
  - right. exists limit. by split_and!.
  - by left.
Qed.

Lemma due_pos k i d r : 1 ≤ k → scan_ok d → rows d !! i = Some r → 1 ≤ due k (Z.of_nat i + 1) d.
Proof.
  intros Hk [H1 H2] Hi. unfold due. destruct (scanCursor d) as [c h]. cbn [fst snd] in *.
  destruct (Z.eqb_spec h 0) as [E|E]; simpl.
  - pose proof (Z.div_pos (Z.of_nat i + 1 - c - 1) k). lia.
  - destruct ((c <? _) && _) eqn:E2.
    + apply andb_true_iff in E2 as [E2%Z.ltb_lt _]. pose proof (Z.div_pos (Z.of_nat i + 1 - c - 1) k). lia.
    + pose proof (Z.div_pos (h - c) k). pose proof (Z.div_pos (Z.of_nat i + 1 - 1) k). lia.
Qed.
Lemma due_bound k i d r : 1 ≤ k → scan_ok d → rows d !! i = Some r →
  due k (Z.of_nat i + 1) d ≤ 2 * (Z.of_nat (length (rows d)) / k) + 2.
Proof.
  intros Hk [H1 H2] Hi. apply lookup_lt_Some in Hi. unfold due. destruct (scanCursor d) as [c h]. cbn [fst snd] in *.
  set (N := Z.of_nat (length (rows d))).
  assert (∀ a, a ≤ N → a / k ≤ N / k) as Hm by (intros; apply Z.div_le_mono; lia).
  pose proof (Z.div_pos N k ltac:(lia) ltac:(lia)).
  pose proof (Hm (Z.of_nat i + 1 - c - 1)). pose proof (Hm (h - c)). pose proof (Hm (Z.of_nat i + 1 - 1)).
  destruct ((h =? 0) || _); lia.
Qed.
Lemma due_other k n d d' : scanCursor d' = scanCursor d → due k n d' = due k n d.
Proof. unfold due. by intros ->. Qed.

Lemma scans_reach k i l : 1 ≤ k → (∀ limit fs, (OpPendingBatch limit, fs) ∈ l → k ≤ limit) →
  ∀ d r r', ok d → scan_ok d → rows d !! i = Some r → rows (run l d) !! i = Some r' → pendingRow r' = true →
  due k (Z.of_nat i + 1) d ≤ Z.of_nat (length (scans l d)) →
  ∃ out x, out ∈ scans l d ∧ x ∈ out ∧ dID x = dID r.
Proof.
  intros Hk. induction l as [|[o fs] l IH]; intros Hlim d r r' Hok Hsc Hi Hi' Hp Hdue.
  { pose proof (due_pos k i d r Hk Hsc Hi). cbn [scans length] in Hdue. lia. }
  rewrite run_cons in Hi'. cbn [fst snd scans] in *. set (d1 := (perform o fs d).2) in *.
  assert (ok d1) as Hok1 by by apply perform_ok.
  assert (lives d d1) as Hl1 by by eapply dstep_lives, perform_does.
  destruct (Hl1 i r Hi) as (r1 & Hi1 & M1). destruct (run_lives l d1 Hok1 i r1 Hi1) as (r2 & Hi2 & M2).
  assert (r2 = r') as -> by congruence. assert (pendingRow r1 = true) as Hp1 by by eapply moves_pending.
  assert (pendingRow r = true) as Hp0 by by eapply moves_pending.
  destruct (moves_columns _ _ M1) as [Eid _]. rewrite length_app, Nat2Z.inj_add in Hdue.
  assert (scan_ok d1 → due k (Z.of_nat i + 1) d1 ≤ Z.of_nat (length (scans l d1)) →
    ∃ out x, out ∈ answers o fs d ++ scans l d1 ∧ x ∈ out ∧ dID x = dID r) as Hrest.
  { intros Hsc1 Hd1. destruct (IH ltac:(intros; eapply Hlim; by right) d1 r1 r' Hok1 Hsc1 Hi1 Hi' Hp Hd1) as (out & x & Ho & Hx & E).
    exists out, x. rewrite elem_of_app. split_and!; [by right|done|congruence]. }
  destruct (perform_scans o fs d Hok Hsc) as [(Ea & Hsc1 & Ec)|(limit & -> & H1 & Ea & Hs)]; rewrite Ea in Hdue |- *.
  - rewrite Ea in Hrest. apply Hrest; [done|]. cbn [length] in Hdue. rewrite (due_other _ _ d d1 Ec). lia.
  - assert (k ≤ limit) as Hlk by (eapply Hlim; left).
    destruct (decide (r ∈ map snd (batch limit d))) as [Hin|Hno].
    { exists (map snd (batch limit d)), r. split_and!; [by left|done..]. }
    rewrite Ea in Hrest. apply Hrest; [by eapply batch_scan_ok|].
    pose proof (batch_progress k limit d d1 i r ltac:(lia) Hsc Hi Hp0 Hs Hno). cbn [length] in Hdue. lia.
Qed.

Lemma scan_ok_run l d : ok d → scan_ok d → scan_ok (run l d).
Proof.
  revert d. induction l as [|[o fs] l IH]; intros d Hok Hsc; [done|]. rewrite run_cons. apply IH; [by apply perform_ok|].
  destruct (perform_scans o fs d Hok Hsc) as [(_ & H & _)|(limit & -> & H1 & _ & Hs)]; [done|by eapply batch_scan_ok].
Qed.
Lemma scan_ok_empty : scan_ok Empty.
Proof. split; cbn; lia. Qed.

(** What [SealReturnContext] answers is what it stored, now or before. *)
Lemma SealReturnContext_stores r thread revision snapshot original d :
  wp (SealReturnContext sha256Hex normalize digestJSON r thread revision snapshot original)
    (λ a d', ∃ t, returns d' !! dID r = Some t ∧ tParent t = dParent r ∧
       tIdentity t = returnIdentity digestJSON r thread revision ∧ a = (tSnapshot t, tContent t)) d.
Proof.
  unfold SealReturnContext. do 3 wp_step. apply wp_orNoRows. intros [x b] _.
  destruct (negb _); [apply wp_fail|]. do 2 wp_step. cbv beta.
  assert (wp (s ← admitSnapshot sha256Hex normalize r snapshot;
      insertReturn (dID r) (mkReturn (dParent r) (returnIdentity digestJSON r thread revision) s
        (original +:+ Reminder sha256Hex normalize s));;
      mret (s, original +:+ Reminder sha256Hex normalize s))
    (λ a d', ∃ t, returns d' !! dID r = Some t ∧ tParent t = dParent r ∧
       tIdentity t = returnIdentity digestJSON r thread revision ∧ a = (tSnapshot t, tContent t)) d) as Hnew.
  { wp_step. apply (admitSnapshot_wp True). intros s d' _ _ Hr. wp_step. unfold insertReturn. wp_step.
    unfold insertRow. rewrite Hr. destruct (returns d !! dID r); [done|]. wp_step.
    eexists. split; [cbn; apply lookup_insert_eq|]. done. }
  destruct (returns d !! dID r) as [t|] eqn:Et; simpl; [|exact Hnew].
  case_bool_decide as Hp; [|exact Hnew]. case_bool_decide as Hid; simpl; [|apply wp_fail]. wp_step. by exists t.
Qed.
Definition seal (r : Row) (thread : string) (revision : Z) (snapshot : Snapshot) (original : string)
    (fs : list bool) (d : Store) :=
  transaction (snapshot, "") (SealReturnContext sha256Hex normalize digestJSON r thread revision snapshot original) fs d.
Lemma seal_ok r thread revision snapshot original fs d :
  ok d → ok (seal r thread revision snapshot original fs d).1.2.
Proof.
  exact (perform_ok keyJSON sha256Hex normalize digestJSON (OpSeal r thread revision snapshot original) fs d).
Qed.
Lemma seal_elim r thread revision snapshot original fs d a P :
  wp (SealReturnContext sha256Hex normalize digestJSON r thread revision snapshot original) P d →
  (seal r thread revision snapshot original fs d).1.1 = (a, None) →
  P a (seal r thread revision snapshot original fs d).1.2.
Proof.
  intros Hm. unfold seal. pose proof (transaction_elim (snapshot, "") _ fs d (λ b d', b.2 = None → P b.1 d')
    (wp_mono _ P _ d Hm (λ b d' (H : P b d') _, H))) as H.
  destruct (transaction _ _ fs d) as [[b d1] fs1]. cbn [fst snd]. intros ->. apply H; [|done]. by intros e [=].
Qed.
Lemma seal_stores r thread revision snapshot original fs d a :
  (seal r thread revision snapshot original fs d).1.1 = (a, None) →
  ∃ t, returns (seal r thread revision snapshot original fs d).1.2 !! dID r = Some t ∧ tParent t = dParent r ∧
    tIdentity t = returnIdentity digestJSON r thread revision ∧ a = (tSnapshot t, tContent t).
Proof.
  apply (seal_elim _ _ _ _ _ _ _ _ (λ a d', ∃ t, returns d' !! dID r = Some t ∧ tParent t = dParent r ∧
    tIdentity t = returnIdentity digestJSON r thread revision ∧ a = (tSnapshot t, tContent t))).
  apply SealReturnContext_stores.
Qed.
Lemma seal_again r thread revision snapshot original fs d a t :
  returns d !! dID r = Some t → tParent t = dParent r → tIdentity t = returnIdentity digestJSON r thread revision →
  (seal r thread revision snapshot original fs d).1.1 = (a, None) → a = (tSnapshot t, tContent t).
Proof.
  intros Ht Hp Hid. apply (seal_elim _ _ _ _ _ _ _ _ (λ b _, b = (tSnapshot t, tContent t))).
  unfold SealReturnContext. do 3 wp_step. apply wp_orNoRows. intros [x b] _. destruct (negb _); [apply wp_fail|].
  do 2 wp_step. cbv beta. rewrite Ht. simpl. rewrite (bool_decide_eq_true_2 (tParent t = dParent r)) by done.
  rewrite (bool_decide_eq_true_2 (tIdentity t = _)) by done. simpl. by wp_step.
Qed.
Lemma run_grows l d : ok d → ∀ k t, returns d !! k = Some t → returns (run l d) !! k = Some t.
Proof.
  revert d. induction l as [|[o fs] l IH]; intros d Hok k t Hk; [done|]. rewrite run_cons. apply IH; [by apply perform_ok|].
  by apply (gr_return _ _ _ (proj2 (perform_does keyJSON sha256Hex normalize digestJSON o fs d Hok))).
Qed.

(** ** Theorems *)

(** C5: The capacity of a parent holds over every history, whatever fails in it: if
    the default limits and every configured one stay within [top], no parent
    ever has more active, more waiting or more reserved handoffs than [top]
    allows.  A promotion, an admission and a reconfiguration all go through it. *)
Theorem capacity_is_kept top l :
  at_most DefaultLimits top →
  (∀ o fs limits, (o, fs) ∈ l → configures o limits → at_most limits top) →
  ∀ parent, let n := countsOf parent (run l Empty) in
    nActive n ≤ lActive top ∧ nQueued n ≤ lQueued top ∧ nReserved n ≤ lDelivery top.
Proof.
  intros Hd Hc parent. cbv zeta.
  assert (bounded top (run l Empty)) as [_ H]; [|by destruct (H parent)].
  apply run_invariant; [|apply ok_empty|by apply bounded_empty].
  intros [o fs] d d' Hx _ Hb [Hs _]. eapply dstep_bounded; [|exact Hb|exact Hs]. intros lim. by eapply Hc.
Qed.


(** C11: The rounds of every logical task form one chain in every reachable store:
    versions 1, 2, 3, ..., the first round is the task, each later round names
    the one before it, and every handoff has one round. *)
Theorem rounds_form_one_chain l logical :
  let d := run l Empty in
  let chain := ofLogical logical (rounds d) in
  map oVersion chain = seqZ 1 (Z.of_nat (length chain)) ∧
  (∀ o, head chain = Some o → oID o = logical) ∧
  (∀ i o o', chain !! i = Some o → chain !! S i = Some o' → oPrevious o' = oID o) ∧
  map oID (rounds d) = map dID (rows d) ∧ NoDup (map dID (rows d)).
Proof.
  cbv zeta. destruct (run_ok keyJSON sha256Hex normalize digestJSON l Empty ok_empty) as [Hi Hr Hl _ _ _ _ _ _].
  destruct (Hl logical) as [H1 H2 H3]. split_and!; try done. intros o Ho. rewrite <- (H2 o Ho).
  assert (o ∈ ofLogical logical (rounds (run l Empty))) as Hin.
  { destruct (ofLogical _ _); [done|]. injection Ho as ->. left. }
  by apply in_ofLogical in Hin as [_ ->].
Qed.

(** C10: What has happened to a handoff stays: whatever operations follow, its row is
    still there with the identity it was made with and the binding to its
    source; once terminal it stays terminal with the same status, result,
    artifacts and error; a settled delivery never changes. *)
Theorem finished_work_is_final l l' r :
  let d := run l Empty in let d' := run l' d in
  r ∈ rows d →
  ∃ r', r' ∈ rows d' ∧ identity r' = identity r ∧
    (dState r = DTerminal → dState r' = DTerminal ∧ outcome r' = outcome r) ∧
    (dDelivery r ∈ [Delivered; DeliveryFailed; NotRequested] → dDelivery r' = dDelivery r) ∧
    (∀ r2, r2 ∈ rows d' → dID r2 = dID r → r2 = r').
Proof.
  cbv zeta. intros [i Hi]%list_elem_of_lookup.
  assert (ok (run l Empty)) as Hok by apply run_ok, ok_empty.
  destruct (run_lives l' _ Hok i r Hi) as (r' & Hi' & Hm). exists r'.
  split_and!; [by eapply list_elem_of_lookup_2|apply Hm| | |].
  - intros Ht. split; [by eapply moves_terminal|by apply Hm].
  - intros Hd. destruct (mv_delivery _ _ Hm) as [<- |[[E _]|[E _]]]; [done|rewrite E in Hd; clear -Hd; set_solver..].
  - intros r2 Hr2 E. apply (same_id (rows (run l' (run l Empty)))); [by apply run_ok|done|by eapply list_elem_of_lookup_2|].
    destruct (moves_columns _ _ Hm) as [-> _]. done.
Qed.

(** C7: Waiting work is never stuck: when a parent has a handoff that waits for a
    child that is free, fewer active ones than its limit and no more reserved
    than its limit ([capacity_is_kept]), then [TryPromote] promotes one at once,
    and it is one that was admitted no later. *)
Theorem waiting_work_moves l i r limits now :
  let d := run l Empty in
  rows d !! i = Some r → dState r = DQueued → childBusy d (dChild r) = false →
  limitsOf (dParent r) d = Some limits → nActive (countsOf (dParent r) d) < lActive limits →
  nReserved (countsOf (dParent r) d) ≤ lDelivery limits →
  ∃ j r0, (j ≤ i)%nat ∧ rows d !! j = Some r0 ∧ dParent r0 = dParent r ∧
    (perform (OpTryPromote (dID r0) now) [] d).1 = true ∧
    rows (perform (OpTryPromote (dID r0) now) [] d).2 = <[j := promoted now r0]> (rows d).
Proof.
  cbv zeta. intros Hi Hq Hb Hl Ha Hr. set (d := run l Empty) in *.
  assert (ok d) as Hok by apply run_ok, ok_empty.
  destruct (first_is_ready d (dParent r) limits i r) as (j & r0 & Hj & Hj0 & Hp & _ & Hrd); try done.
  exists j, r0. split_and!; [done..| |]; cbn [perform]; unfold transaction, atomically, mbind, tx_bind; cbn [fault];
    rewrite (TryPromote_run d j r0 limits now) by (done || apply Hok || by rewrite Hp); by rewrite Hrd.
Qed.

(** C8: The scan of the scheduler is fair: a handoff that stays pending is returned
    within [2 * (rows / k) + 2] successful calls of at least [k] rows each,
    whatever other operations come between, and whatever fails in them. *)
Theorem pending_work_is_scanned k l0 l i r r' :
  let d := run l0 Empty in
  1 ≤ k → (∀ limit fs, (OpPendingBatch limit, fs) ∈ l → k ≤ limit) →
  rows d !! i = Some r → rows (run l d) !! i = Some r' → pendingRow r' = true →
  2 * (Z.of_nat (length (rows d)) / k) + 2 ≤ Z.of_nat (length (scans l d)) →
  ∃ out x, out ∈ scans l d ∧ x ∈ out ∧ dID x = dID r.
Proof.
  cbv zeta. intros Hk Hlim Hi Hi' Hp Hn. set (d := run l0 Empty) in *.
  assert (ok d) as Hok by apply run_ok, ok_empty.
  assert (scan_ok d) as Hsc by (apply scan_ok_run; [apply ok_empty|apply scan_ok_empty]).
  eapply scans_reach; try done. pose proof (due_bound k i d r Hk Hsc Hi). lia.
Qed.

(** C9: Callers that race for one transition have one winner: over any history, the
    promotion of a handoff, the completion of a child's request, the settling of
    a return and the claim of a steer are each reported as made at most once. *)
Theorem prizes_are_won_once l : NoDup (won l Empty).
Proof.
  assert (∀ d, ok d → NoDup (won l d)) as H; [|apply H, ok_empty].
  induction l as [|[o fs] l IH]; intros d Hok; [constructor|]. cbn [won fst snd].
  assert (ok (perform o fs d).2) as Hok' by by apply perform_ok.
  destruct (perform o fs d).1 eqn:Ew; [|by apply IH]. destruct (prize o) as [p|] eqn:Ep; [|by apply IH].
  constructor; [|by apply IH]. apply won_unsettled; [done|]. by apply (perform_wins o fs p d Hok Ep).
Qed.

(** [Open] on a store that the operations left, of this or an earlier process,
    adds nothing to it. *)
Theorem reopening_changes_nothing l : Reopen (run l Empty) = run l Empty.
Proof. apply Reopen_same, run_ok, ok_empty. Qed.

End Histories.

(** ** A day of one parent *)
Module Day.
Definition record (id child previous : string) : Record_ :=
  mkRecord
    (mkRow id "P" "origin" id "intent" child ("do " +:+ id) "" "" "" "" "" "" ("return " +:+ id)
       DQueued "" "" [] "" DeliveryPending "" 0 0)
    (if str_empty previous then "" else "a") previous "" "" "" "" "" 0 "" "thread" 1.
Definition calm (o : dop) : dop * list bool := (o, []).
Definition admissions : list (dop * list bool) :=
  [calm (OpConfigure (mkCapacity (mkLimits 2 3 4) ∅)); calm (OpCreateBounded (record "a" "C" "") 1);
   (OpCreateBounded (record "b" "C" "") 2, [false; false; true]); calm (OpCreateBounded (record "b" "C" "") 3);
   calm (OpCreateBounded (record "c" "D" "a") 4); calm (OpTryPromote "b" 5); calm (OpMarkRunning "a" 6)].
Definition ending : list (dop * list bool) :=
  [calm (OpComplete "C" "do a" "completed" "done" "" ["f"] 7); calm (OpComplete "C" "do a" "failed" "" "late" [] 8);
   calm (OpMarkDeliveryQueued "a" 9); calm (OpMarkDelivered "P" "return a" 10)].
Definition scanning : list (dop * list bool) :=
  [calm (OpPendingBatch 1); calm (OpPendingBatch 1); (OpPendingBatch 1, [true]); calm (OpPendingBatch 1);
   calm (OpTryPromote "b" 11); calm (OpPendingBatch 1); calm (OpPendingBatch 2); calm (OpPendingBatch 1);
   calm (OpPendingBatch 1); calm (OpPendingBatch 1)].

Definition keys (_ : Namespace) (k : string) : string := k.
Definition sha (s : string) : string := s.
Definition norm (s : string) : option string := Some s.
Definition digest (l : list string) (n : Z) (a : list string) : string := String.concat "," (l ++ a).
Definition history (l : list (dop * list bool)) : Store := run keys sha norm digest l Empty.
Definition row (i : nat) (d : Store) : Row := nth i (rows d) (rRow (record "" "" "")).
Definition snapshot : Snapshot :=
  mkSnapshot "" "" "available" "" "plan.md" 1 "00" "" "" "goal" "progress" "next".
End Day.

(** ** Witnesses *)
Lemma capacity_is_kept_witness :
  let n := countsOf "P" (Day.history (Day.admissions ++ Day.ending ++ Day.scanning)) in
  nActive n ≤ 6 ∧ nQueued n ≤ 64 ∧ nReserved n ≤ 128.
Proof.
  apply (capacity_is_kept Day.keys Day.sha Day.norm Day.digest DefaultLimits
    (Day.admissions ++ Day.ending ++ Day.scanning)); [done|].
  intros o fs limits Ho. assert (o = OpConfigure (mkCapacity (mkLimits 2 3 4) ∅) ∨ ∀ c, o ≠ OpConfigure c) as Hc.
  { repeat (apply elem_of_cons in Ho as [[= -> _]|Ho]; [by auto|]). by apply elem_of_nil in Ho. }
  destruct Hc as [-> |Hc]; [|by destruct o; try done; destruct (Hc c)].
  intros [-> |[parent H]]; [split; cbn; lia|].
  change ((∅ : gmap string Limits) !! parent = Some limits) in H. by rewrite lookup_empty in H.
Defined.


Lemma finished_work_is_final_witness :
  let d := Day.history (Day.admissions ++ Day.ending) in
  let d' := run Day.keys Day.sha Day.norm Day.digest Day.scanning d in
  ∃ r', r' ∈ rows d' ∧ dState r' = DTerminal ∧ outcome r' = ("completed", "done", ["f"], "") ∧ dDelivery r' = Delivered.
Proof.
  assert (Day.row 0 (Day.history (Day.admissions ++ Day.ending)) ∈ rows (Day.history (Day.admissions ++ Day.ending))) as Hr.
  { apply list_elem_of_lookup. exists 0%nat. vm_compute. reflexivity. }
  destruct (finished_work_is_final Day.keys Day.sha Day.norm Day.digest (Day.admissions ++ Day.ending) Day.scanning _ Hr)
    as (r' & Hr' & _ & Ht & Hd & _).
  exists r'. destruct (Ht ltac:(vm_compute; reflexivity)) as [H1 H2]. split; [exact Hr'|]. split; [exact H1|]. split.
  - rewrite H2. vm_compute. reflexivity.
  - rewrite Hd; [vm_compute; reflexivity|]. apply (bool_decide_eq_true_1 (_ ∈ _)). vm_compute. reflexivity.
Defined.

Lemma waiting_work_moves_witness :
  let d := Day.history Day.admissions in
  ∃ j r0, (j ≤ 2)%nat ∧ rows d !! j = Some r0 ∧ dParent r0 = "P" ∧
    (perform Day.keys Day.sha Day.norm Day.digest (OpTryPromote (dID r0) 20) [] d).1 = true ∧
    rows (perform Day.keys Day.sha Day.norm Day.digest (OpTryPromote (dID r0) 20) [] d).2 = <[j := promoted 20 r0]> (rows d).
Proof.
  apply (waiting_work_moves Day.keys Day.sha Day.norm Day.digest Day.admissions 2 (Day.row 2 (Day.history Day.admissions))
    (mkLimits 2 3 4) 20); vm_compute; reflexivity || discriminate.
Defined.

Lemma pending_work_is_scanned_witness :
  let d := Day.history (Day.admissions ++ Day.ending) in
  ∃ out x, out ∈ scans Day.keys Day.sha Day.norm Day.digest Day.scanning d ∧ x ∈ out ∧ dID x = "c".
Proof.
  apply (pending_work_is_scanned Day.keys Day.sha Day.norm Day.digest 1 (Day.admissions ++ Day.ending) Day.scanning 2
    (Day.row 2 (Day.history (Day.admissions ++ Day.ending)))
    (Day.row 2 (run Day.keys Day.sha Day.norm Day.digest Day.scanning (Day.history (Day.admissions ++ Day.ending)))));
    try (vm_compute; reflexivity || discriminate).
  intros limit fs Ho. repeat (apply elem_of_cons in Ho as [E|Ho]; [inversion E; subst; done|]). by apply elem_of_nil in Ho.
Defined.

