(* ===== verification/EventInbox.v ===== *)
(** * The event inbox: [src/internal/eventinbox]

    Normalized events of external sources (webhooks, monitors, messages) with
    their attachments, what each device did with them, and the cursors of the
    sources, in one SQLite database.

    [url.Parse] (scheme and host), whether a text is a JSON object, and the
    hash behind an attachment's identifier are arguments; so are the clock, the
    random identifiers and, for a row that INSERT OR IGNORE ignores, whether
    SQLite skips its AUTOINCREMENT key ([gap]).  A prefix of sources is ASCII. *)
From S2P Require Import Prelude Orders Sql.

(** ** Data *)
Record AttachmentInput := mkAttachmentInput {
  iExternal : string; iSource : string; iMIME : string; iName : string; iOrdinal : Z }.
#[export] Instance AttachmentInput_eta : Eta AttachmentInput := λ a,
  mkAttachmentInput (iExternal a) (iSource a) (iMIME a) (iName a) (iOrdinal a).

Record Input := mkInput {
  Source : string; EventKey : string; Kind : string; Severity : string; Title : string; Body : string;
  URL : string; Data : string; OccurredAt : Z; ExpiresAt : Z; Attachments : list AttachmentInput }.
#[export] Instance Input_eta : Eta Input := λ i,
  mkInput (Source i) (EventKey i) (Kind i) (Severity i) (Title i) (Body i) (URL i) (Data i) (OccurredAt i)
    (ExpiresAt i) (Attachments i).

Record Event := mkEvent {
  eID : string; eSeq : Z; eAuthority : string; eReceived : Z; eInput : Input }.
Definition eSource (e : Event) : string := Source (eInput e).
Definition eKey (e : Event) : string := EventKey (eInput e).
Definition eExpires (e : Event) : Z := ExpiresAt (eInput e).

Inductive AStatus := APending | AFetching | ARetry | AAvailable | AMissing.
#[global] Instance AStatus_eq_dec : EqDecision AStatus.
Proof. solve_decision. Defined.

(** A row of [external_event_attachments]. *)
Record Attachment := mkAttachment {
  aID : string; aEvent : string; aExternal : string; aOrdinal : Z; aStatus : AStatus; aSource : string;
  aPath : string; aMIME : string; aName : string; aSize : Z; aSHA : string; aError : string; aAttempt : Z;
  aAvailable : Z; aOwner : string; aUntil : Z; aCreated : Z; aUpdated : Z }.
#[export] Instance Attachment_eta : Eta Attachment := λ a,
  mkAttachment (aID a) (aEvent a) (aExternal a) (aOrdinal a) (aStatus a) (aSource a) (aPath a) (aMIME a)
    (aName a) (aSize a) (aSHA a) (aError a) (aAttempt a) (aAvailable a) (aOwner a) (aUntil a) (aCreated a)
    (aUpdated a).

(** The tables; events oldest first. *)
Record Inbox := mkInbox {
  events : list Event;
  lastSequence : Z;
  marks : gmap (string * string) (bool * bool * Z);
  attachments : list Attachment;
  cursors : gmap (string * string) string }.
#[export] Instance Inbox_eta : Eta Inbox := λ d,
  mkInbox (events d) (lastSequence d) (marks d) (attachments d) (cursors d).
Definition NewInbox : Inbox := mkInbox [] 0 ∅ [] ∅.

Definition maxEvents : nat := 10000.
Definition defaultListSize : Z := 500.
Definition defaultTTL : Z := 30 * 24 * 3600 * 1000.
Definition maxDataBytes : Z := 16 * 1024.
Definition ErrNotFound : Err := Plain "external event not found".

Section Inbox.
Context (parseURL : string → option (string * string)) (isObject : string → bool).
Context (stableAttachmentID : string → string → Z → string).

(** ** Checks *)

(** [strings.ToLower] as far as a severity can tell: the letters of ASCII, and
    the capital I with a dot (C4 B0), which becomes an i. *)
Fixpoint lowerDotted (l : list Ascii.ascii) : list Ascii.ascii :=
  match l with
  | a :: ((b :: l) as t) =>
      if (Ascii.nat_of_ascii a =? 0xc4)%nat && (Ascii.nat_of_ascii b =? 0xb0)%nat
      then Ascii.ascii_of_nat 105 :: lowerDotted l else lower_ascii a :: lowerDotted t
  | [a] => [lower_ascii a]
  | [] => []
  end.
Definition lowerSeverity (s : string) : string :=
  String.string_of_list_ascii (lowerDotted (String.list_ascii_of_string s)).
Definition severities : list string := ["info"; "success"; "warning"; "error"; "critical"].

Definition schemeIn (schemes : list string) (u : string) : bool :=
  match parseURL u with
  | Some (scheme, host) => bool_decide (scheme ∈ schemes) && negb (str_empty host)
  | None => false
  end.

Definition trimInput (i : Input) : Input :=
  i <| Source := trim_space (Source i) |> <| EventKey := trim_space (EventKey i) |>
    <| Kind := trim_space (Kind i) |> <| Severity := lowerSeverity (trim_space (Severity i)) |>
    <| Title := trim_space (Title i) |> <| URL := trim_space (URL i) |>.
Definition fillInput (now : Z) (i : Input) : Input :=
  let i := if OccurredAt i =? 0 then i <| OccurredAt := now |> else i in
  if ExpiresAt i =? 0 then i <| ExpiresAt := i64 (now + defaultTTL) |> else i.

Definition normalizeInput (i : Input) (now : Z) : Input + Err :=
  let i := trimInput i in
  let i := if str_empty (Severity i) then i <| Severity := "info" |> else i in
  if str_empty (Source i) || (64 <? str_len (Source i)) || str_empty (EventKey i) || (128 <? str_len (EventKey i)) ||
     str_empty (Kind i) || (64 <? str_len (Kind i))
  then inr (Plain "source, event key, and kind are required and exceed their size limit")
  else if str_empty (Title i) || (240 <? str_len (Title i)) || (32 * 1024 <? str_len (Body i)) || (2048 <? str_len (URL i))
  then inr (Plain "event title, body, or URL exceeds its size limit")
  else if negb (str_empty (URL i)) && negb (schemeIn ["https"; "http"] (URL i))
  then inr (Plain "event URL must be an absolute HTTP or HTTPS URL")
  else if negb (bool_decide (Severity i ∈ severities)) then inr (Plain "invalid event severity")
  else
    let i := fillInput now i in
    if ExpiresAt i <=? now then inr (Plain "event is already expired")
    else
      let i := if str_empty (Data i) then i <| Data := "{}" |> else i in
      if (maxDataBytes <? str_len (Data i)) || negb (isObject (Data i))
      then inr (Plain "event data must be a JSON object up to 16 KB")
      else inl i.

Definition validateAttachmentInput (a : AttachmentInput) : option Err :=
  if (iOrdinal a <? 0) || (100 <? iOrdinal a) || (256 <? str_len (iExternal a)) || (240 <? str_len (iName a)) ||
     (128 <? str_len (iMIME a))
  then Some (Plain "invalid event attachment metadata")
  else if negb (schemeIn ["https"] (trim_space (iSource a))) || (4096 <? str_len (iSource a))
  then Some (Plain "event attachment source must be an absolute HTTPS URL")
  else None.

(** ** Statements *)

(** A DELETE, with what refers to the rows ([ON DELETE CASCADE]). *)
Definition deleteEvents (p : Event → bool) (d : Inbox) : Inbox :=
  let gone := map eID (filter (λ e, p e = true) (events d)) in
  d <| events := filter (λ e, p e = false) (events d) |>
    <| marks := filter (λ x, x.1.1 ∉ gone) (marks d) |>
    <| attachments := filter (λ a, aEvent a ∉ gone) (attachments d) |>.

(** The sequences of the [n] newest events of a source. *)
Definition ofSource (source : string) (l : list Event) : list Event := filter (λ e, eSource e = source) l.
Definition newest (n : nat) (source : string) (l : list Event) : list Z :=
  let l := ofSource source l in map eSeq (drop (length l - n) l).
Definition surplus (source : string) (d : Inbox) (e : Event) : bool :=
  bool_decide (eSource e = source) && negb (bool_decide (eSeq e ∈ newest maxEvents source (events d))).

Definition gcTx (now : Z) (source : string) : Tx Inbox () :=
  exec_ (deleteEvents (λ e, eExpires e <=? now));;
  exec_ (λ d, deleteEvents (surplus source d) d).

Definition sameKey (source key : string) (e : Event) : bool :=
  bool_decide (eSource e = source) && bool_decide (eKey e = key).
(** [INSERT OR IGNORE]: whether it inserted. *)
Definition insertEvent (id authority : string) (i : Input) (now : Z) (gap : bool) : Tx Inbox bool :=
  exec (λ d,
    if existsb (λ e, bool_decide (eID e = id) || sameKey (Source i) (EventKey i) e) (events d)
    then inl (false, if gap && (lastSequence d <? i64_max) then d <| lastSequence := lastSequence d + 1 |> else d)
    else
      match nextKey (lastSequence d) with
      | inr e => inr e
      | inl n => inl (true, d <| events := events d ++ [mkEvent id n authority now i] |> <| lastSequence := n |>)
      end).

Definition findEvent (p : Event → bool) (d : Inbox) : option Event :=
  snd <$> list_find (λ e, p e = true) (events d).
Definition found {A} (o : option A) : Tx Inbox A := match o with Some a => mret a | None => tx_fail ErrNotFound end.
Definition getBySourceKey (source key : string) : Tx Inbox Event :=
  e ← query (findEvent (sameKey source key)); found e.
Definition getByID (id : string) : Tx Inbox Event :=
  e ← query (findEvent (λ e, bool_decide (eID e = id))); found e.

Definition insertAttachment (event : string) (a : AttachmentInput) (now : Z) : Tx Inbox () :=
  exec_ (λ d,
    let id := stableAttachmentID event (iExternal a) (iOrdinal a) in
    if existsb (λ x, bool_decide (aID x = id) ||
                     (bool_decide (aEvent x = event) && (aOrdinal x =? iOrdinal a))) (attachments d)
    then d
    else d <| attachments := attachments d ++
      [mkAttachment id event (trim_space (iExternal a)) (iOrdinal a) APending (trim_space (iSource a)) ""
         (trim_space (iMIME a)) (trim_space (iName a)) 0 "" "" 0 now "" 0 now now] |>).
Fixpoint insertAttachments (event : string) (index : Z) (l : list AttachmentInput) (now : Z) : Tx Inbox () :=
  match l with
  | [] => mret tt
  | a :: l =>
      let a := if iOrdinal a <? 0 then a <| iOrdinal := index |> else a in
      match validateAttachmentInput a with
      | Some e => tx_fail e
      | None => insertAttachment event a now;; insertAttachments event (index + 1) l now
      end
  end.

(** ** Insertion *)
Definition insertTx (authority id : string) (i : Input) (l : list AttachmentInput) (now : Z) (gap : bool)
  : Tx Inbox (Event * bool) :=
  gcTx now (Source i);;
  inserted ← insertEvent id authority i now gap;
  event ← getBySourceKey (Source i) (EventKey i);
  (if inserted : bool then insertAttachments (eID event) 0 l now else mret tt);;
  mret (event, negb inserted).

(** The event, whether it was there, or the error. *)
Definition InsertWithAttachments (authority id : string) (i : Input) (l : list AttachmentInput) (now : Z) (gap : bool)
    (fs : list bool) (d : Inbox) : ((Event * bool) + Err) * Inbox * list bool :=
  match normalizeInput i now with
  | inr e => (inr e, d, fs)
  | inl i => atomically inr (x ← insertTx authority id i l now gap; mret (true, inl x)) fs d
  end.

(** ** Devices *)
Definition Mark (id device : string) (read dismissed : option bool) (now : Z) (fs : list bool) (d : Inbox)
  : ((Event * bool * bool) + Err) * Inbox * list bool :=
  if blank id || blank device then (inr (Plain "event_id and device_id are required"), d, fs)
  else
    atomically inr
      (event ← getByID id;
       old ← query (λ d, marks d !! (id, device));
       let '(r, x) := match old with Some (r, x, _) => (r, x) | None => (false, false) end in
       let r := default r read in
       let x := default x dismissed in
       exec_ (λ d, d <| marks := <[(id, device) := (r, x, now)]> (marks d) |>);;
       mret (true, inl (event, r, x))) fs d.

(** What a device is shown, newest first, with its marks, and the revision. *)
Definition mayShow (prefix : string) (allowed : list string) (e : Event) : bool :=
  str_empty prefix || negb (String.prefix prefix (eSource e)) || bool_decide (eSource e ∈ allowed).
Definition viewOf (d : Inbox) (device : string) (e : Event) : Event * bool * bool :=
  match marks d !! (eID e, device) with Some (r, x, _) => (e, r, x) | None => (e, false, false) end.
Definition snapshotForSources (device : string) (limit : Z) (prefix : string) (allowed : list string)
    (archived : bool) (now : Z) (d : Inbox) : Z * list (Event * bool * bool) :=
  let limit := if (limit <=? 0) || (defaultListSize <? limit) then defaultListSize else limit in
  let items := take (Z.to_nat limit) (filter (λ x : Event * bool * bool,
    now < eExpires x.1.1 ∧ (archived = true ∨ x.2 = false) ∧ mayShow prefix allowed x.1.1 = true)
    (map (viewOf d device) (rev (events d)))) in
  (foldl (λ m x, Z.max m (eSeq x.1.1)) 0 items, items).

(** ** Attachments *)
Definition attachment_le (a b : Attachment) : Prop :=
  aAvailable a < aAvailable b ∨ aAvailable a = aAvailable b ∧
    (aOrdinal a < aOrdinal b ∨ aOrdinal a = aOrdinal b ∧ str_le (aID a) (aID b)).
#[global] Instance attachment_le_dec : RelDecision attachment_le := λ a b,
  decide (aAvailable a < aAvailable b ∨ aAvailable a = aAvailable b ∧
    (aOrdinal a < aOrdinal b ∨ aOrdinal a = aOrdinal b ∧ str_le (aID a) (aID b))).
Definition waiting (a : Attachment) : bool := bool_decide (aStatus a ∈ [APending; ARetry]).
Definition claimable (now : Z) (a : Attachment) : bool :=
  waiting a && (aAvailable a <=? now) && (aUntil a <=? now).

Definition updateAttachments (p : Attachment → bool) (f : Attachment → Attachment) : Tx Inbox nat :=
  exec (λ d, inl (countb p (attachments d),
                  d <| attachments := map (λ a, if p a then f a else a) (attachments d) |>)).

Definition ClaimAttachmentFetch (owner : string) (now lease : Z) (fs : list bool) (d : Inbox)
  : (option Attachment + Err) * Inbox * list bool :=
  atomically inr
    (next ← query (λ d, head (merge_sort attachment_le (filter (λ a, claimable now a = true) (attachments d))));
     match next with
     | None => mret (false, inl None)
     | Some a =>
         let attempt := aAttempt a + 1 in
         n ← updateAttachments (λ x, bool_decide (aID x = aID a) && waiting x && (aUntil x <=? now))
               (λ x, x <| aStatus := AFetching |> <| aAttempt := attempt |> <| aOwner := owner |>
                       <| aUntil := i64 (now + lease) |> <| aUpdated := now |>);
         if negb (n =? 1)%nat then mret (false, inl None)
         else mret (true, inl (Some (a <| aStatus := AFetching |> <| aAttempt := attempt |>)))
     end) fs d.

(** Whether the row is fetched by this owner. *)
Definition leased (id owner : string) (a : Attachment) : bool :=
  bool_decide (aID a = id) && bool_decide (aStatus a = AFetching) && bool_decide (aOwner a = owner).

Definition CompleteAttachmentFetch (id owner path mime digest : string) (size now : Z) (fs : list bool) (d : Inbox)
  : option Err * Inbox * list bool :=
  single Some
    (n ← updateAttachments (leased id owner)
           (λ a, a <| aStatus := AAvailable |> <| aSource := "" |> <| aPath := path |> <| aMIME := mime |>
                   <| aSize := size |> <| aSHA := digest |> <| aError := "" |> <| aOwner := "" |>
                   <| aUntil := 0 |> <| aUpdated := now |>);
     mret (if (n =? 1)%nat then None else Some ErrNotFound)) fs d.

Definition FailAttachmentFetch (id owner code : string) (retryAt : Z) (terminal : bool) (now : Z) (fs : list bool)
    (d : Inbox) : option Err * Inbox * list bool :=
  let code := String.substring 0 80 (trim_space code) in
  single Some
    (n ← updateAttachments (leased id owner)
           (λ a, a <| aStatus := if terminal then AMissing else ARetry |> <| aError := code |>
                   <| aSource := if terminal then "" else aSource a |> <| aAvailable := retryAt |>
                   <| aOwner := "" |> <| aUntil := 0 |> <| aUpdated := now |>);
     mret None) fs d.

(** ** Batches of a source *)
Fixpoint normalizeAll (source : string) (l : list Input) (now : Z) : list Input + Err :=
  match l with
  | [] => inl []
  | i :: l =>
      if negb (bool_decide (Source i = source)) then inr (Plain "source batch scope mismatch")
      else
        match normalizeInput i now with
        | inr e => inr e
        | inl n =>
            if negb (bool_decide (length (Attachments i) = 0%nat))
            then inr (Plain "batch attachments require separate materialization")
            else match normalizeAll source l now with inl t => inl (n :: t) | inr e => inr e end
        end
  end.

(** [ids]: the random identifier of the input of each index, and whether its
    key is skipped. *)
Fixpoint insertBatch (authority source : string) (l : list Input) (k : nat) (ids : nat → string * bool) (now : Z)
  : Tx Inbox (list Event) :=
  match l with
  | i :: l =>
      inserted ← insertEvent (ids k).1 authority i now (ids k).2;
      (if inserted : bool
       then
         event ← getBySourceKey source (EventKey i);
         rest ← insertBatch authority source l (S k) ids now;
         mret (event :: rest)
       else insertBatch authority source l (S k) ids now)
  | [] => mret []
  end.

Definition commitBatch (authority source stream expected next : string) (l : list Input)
    (ids : nat → string * bool) (now : Z) : Tx Inbox (list Event) :=
  current ← query (λ d, default "" (cursors d !! (source, stream)));
  if negb (bool_decide (current = expected)) then tx_fail (Plain "source_cursor_conflict")
  else
    out ← insertBatch authority source l 0 ids now;
    exec_ (λ d, deleteEvents (λ e, bool_decide (eSource e = source) && (eExpires e <=? now) || surplus source d e) d);;
    exec_ (λ d, d <| cursors := <[(source, stream) := next]> (cursors d) |>);;
    mret out.

Definition CommitSourceBatch (authority source stream expected next : string) (l : list Input)
    (ids : nat → string * bool) (now : Z) (fs : list bool) (d : Inbox)
  : (list Event + Err) * Inbox * list bool :=
  if str_empty source || (64 <? str_len source) || str_empty stream || (128 <? str_len stream) ||
     (16384 <? str_len next) || (100 <? length l)%nat
  then (inr (Plain "invalid source batch"), d, fs)
  else
    let '(bad, fs) := fault fs in
    if bad then (inr SqlError, d, fs)
    else
      match normalizeAll source l now with
      | inr e => (inr e, d, fs)
      | inl l => atomically inr (x ← commitBatch authority source stream expected next l ids now; mret (true, inl x)) fs d
      end.

Definition SourceCursor (source stream : string) : Tx Inbox string :=
  exec_ id;; query (λ d, default "" (cursors d !! (source, stream))).

(** ** Histories *)
Inductive iop :=
  | OpInsert (authority id : string) (i : Input) (l : list AttachmentInput) (now : Z) (gap : bool)
  | OpMark (id device : string) (read dismissed : option bool) (now : Z)
  | OpClaim (owner : string) (now lease : Z)
  | OpCompleteFetch (id owner path mime digest : string) (size now : Z)
  | OpFailFetch (id owner code : string) (retryAt : Z) (terminal : bool) (now : Z)
  | OpCommit (authority source stream expected next : string) (l : list Input) (ids : nat → string * bool) (now : Z).

Definition stepInbox (o : iop) (fs : list bool) (d : Inbox) : Inbox :=
  match o with
  | OpInsert authority id i l now gap => (InsertWithAttachments authority id i l now gap fs d).1.2
  | OpMark id device read dismissed now => (Mark id device read dismissed now fs d).1.2
  | OpClaim owner now lease => (ClaimAttachmentFetch owner now lease fs d).1.2
  | OpCompleteFetch id owner path mime digest size now => (CompleteAttachmentFetch id owner path mime digest size now fs d).1.2
  | OpFailFetch id owner code retryAt terminal now => (FailAttachmentFetch id owner code retryAt terminal now fs d).1.2
  | OpCommit authority source stream expected next l ids now =>
      (CommitSourceBatch authority source stream expected next l ids now fs d).1.2
  end.
Definition runInbox (l : list (iop * list bool)) (d : Inbox) : Inbox := foldl (λ d x, stepInbox x.1 x.2 d) d l.
End Inbox.
