(* ===== verification/EventInboxProps.v ===== *)
(** * What the event inbox guarantees

    Over any history, whatever statements fail: the tables agree ([inbox_ok]), a
    source holds a bounded number of events, a resent event is the original, a
    batch and its cursor commit together and touch no other source, and a fetch
    whose worker died is never claimed again. *)
From S2P Require Import Prelude Orders Sql EventInbox.

(** ** The invariant *)
Definition keyOf (e : Event) : string * string := (eSource e, eKey e).
Definition slot (a : Attachment) : string * Z := (aEvent a, aOrdinal a).
Record inbox_ok (d : Inbox) : Prop := mkInboxOk {
  io_seq : StronglySorted Z.lt (map eSeq (events d));
  io_last : ∀ e, e ∈ events d → eSeq e ≤ lastSequence d;
  io_ids : NoDup (map eID (events d));
  io_keys : NoDup (map keyOf (events d));
  io_marks : ∀ k v, marks d !! k = Some v → k.1 ∈ map eID (events d);
  io_events : ∀ a, a ∈ attachments d → aEvent a ∈ map eID (events d);
  io_attachments : NoDup (map aID (attachments d));
  io_slots : NoDup (map slot (attachments d));
  io_lease : ∀ a, a ∈ attachments d → aStatus a ≠ AFetching → aOwner a = "" ∧ aUntil a = 0 }.

Lemma inbox_ok_new : inbox_ok NewInbox.
Proof. split; simpl; try (by constructor); try (intros ? H; by apply elem_of_nil in H). done. Qed.

Lemma sorted_sublist {A} (R : relation A) l1 l2 : sublist l1 l2 → StronglySorted R l2 → StronglySorted R l1.
Proof.
  induction 1 as [|x l1 l2 Hs IH|x l1 l2 Hs IH]; intros H; [constructor|..]; apply StronglySorted_inv in H as [H1 H2]; [|auto].
  constructor; [auto|]. apply Forall_forall. intros y Hy. rewrite Forall_forall in H2. apply H2.
  by apply (sublist_subseteq _ _ Hs).
Qed.
Lemma sublist_map {A B} (f : A → B) l1 l2 : sublist l1 l2 → sublist (map f l1) (map f l2).
Proof. induction 1; simpl; by constructor. Qed.
Lemma map_filter_sub {A B} (f : A → B) (P : A → Prop) `{∀ x, Decision (P x)} l : sublist (map f (filter P l)) (map f l).
Proof. apply sublist_map, sublist_filter. Qed.

Lemma in_map {A B} (f : A → B) x l : x ∈ l → f x ∈ map f l.
Proof. intros H. apply list_elem_of_fmap. by exists x. Qed.
Lemma map_in {A B} (f : A → B) y l : y ∈ map f l → ∃ x, x ∈ l ∧ y = f x.
Proof. intros (x & -> & H)%list_elem_of_fmap. by exists x. Qed.

(** *** Deletion *)
Lemma deleteEvents_events p d e : e ∈ events (deleteEvents p d) ↔ e ∈ events d ∧ p e = false.
Proof. cbn. rewrite list_elem_of_filter. tauto. Qed.
Lemma kept_id p d id :
  id ∈ map eID (events d) → id ∉ map eID (filter (λ e, p e = true) (events d)) → id ∈ map eID (events (deleteEvents p d)).
Proof.
  intros (e & He & ->)%map_in Hn. apply in_map, deleteEvents_events. split; [done|].
  apply not_true_iff_false. intros Ht. apply Hn, in_map, list_elem_of_filter. by split.
Qed.
Lemma deleteEvents_ok p d : inbox_ok d → inbox_ok (deleteEvents p d).
Proof.
  intros [H1 H2 H3 H4 H5 H6 H7 H8 H9]. split.
  - by eapply sorted_sublist, H1; apply map_filter_sub.
  - intros e [He _]%deleteEvents_events. by apply H2.
  - by eapply sublist_NoDup, map_filter_sub.
  - by eapply sublist_NoDup, map_filter_sub.
  - intros k v Hk. cbn in Hk. apply map_lookup_filter_Some in Hk as [Hk Hn]. apply kept_id; [by eapply H5|exact Hn].
  - intros a Ha. cbn in Ha. apply list_elem_of_filter in Ha as [Hn Ha]. apply kept_id; [by apply H6|exact Hn].
  - by eapply sublist_NoDup, map_filter_sub.
  - by eapply sublist_NoDup, map_filter_sub.
  - intros a Ha. cbn in Ha. apply list_elem_of_filter in Ha as [_ Ha]. by apply H9.
Qed.

(** *** Insertion *)
Definition addEvent (e : Event) (d : Inbox) : Inbox := d <| events := events d ++ [e] |> <| lastSequence := eSeq e |>.
Definition skipKey (gap : bool) (d : Inbox) : Inbox :=
  if gap && (lastSequence d <? i64_max) then d <| lastSequence := lastSequence d + 1 |> else d.
Lemma skipKey_fields gap d : events (skipKey gap d) = events d ∧ marks (skipKey gap d) = marks d ∧
  attachments (skipKey gap d) = attachments d ∧ cursors (skipKey gap d) = cursors d ∧
  lastSequence d ≤ lastSequence (skipKey gap d).
Proof. unfold skipKey. destruct (_ && _); cbn; split_and!; done || lia. Qed.
Lemma skipKey_ok gap d : inbox_ok d → inbox_ok (skipKey gap d).
Proof.
  intros [H1 H2 H3 H4 H5 H6 H7 H8 H9]. destruct (skipKey_fields gap d) as (E1 & E2 & E3 & _ & L).
  split; rewrite ?E1, ?E2, ?E3; try done. intros e He. specialize (H2 e He). lia.
Qed.

Lemma fresh_event id i d : existsb (λ e, bool_decide (eID e = id) || sameKey (Source i) (EventKey i) e) (events d) = false →
  id ∉ map eID (events d) ∧ (Source i, EventKey i) ∉ map keyOf (events d).
Proof.
  intros H. apply not_true_iff_false in H. rewrite existsb_exists in H.
  split; intros (e & He%list_elem_of_In & E)%map_in; apply H; exists e; (split; [done|]).
  - apply orb_true_iff. left. by apply bool_decide_eq_true.
  - injection E as E1 E2. apply orb_true_iff. right. unfold sameKey. by rewrite andb_true_iff, !bool_decide_eq_true.
Qed.
Lemma addEvent_ok e d :
  inbox_ok d → eID e ∉ map eID (events d) → keyOf e ∉ map keyOf (events d) → eSeq e = lastSequence d + 1 →
  inbox_ok (addEvent e d).
Proof.
  intros [H1 H2 H3 H4 H5 H6 H7 H8 H9] Hid Hk Hs. split; cbn; rewrite ?map_app; cbn [map].
  - apply StronglySorted_app. split_and!; [|exact H1|repeat constructor].
    intros x y (x' & Hx & ->)%map_in ->%list_elem_of_singleton. specialize (H2 x' Hx). lia.
  - intros x [Hx| ->%list_elem_of_singleton]%elem_of_app; [specialize (H2 x Hx)|]; lia.
  - apply NoDup_app. split_and!; [done| |apply NoDup_singleton]. intros x Hx ->%list_elem_of_singleton. done.
  - apply NoDup_app. split_and!; [done| |apply NoDup_singleton]. intros x Hx ->%list_elem_of_singleton. done.
  - intros k v Hv. apply elem_of_app. left. by eapply H5.
  - intros a Ha. apply elem_of_app. left. by apply H6.
  - done.
  - done.
  - done.
Qed.

Lemma insertEvent_wp id authority i now gap (Q : bool → Inbox → Prop) d :
  (existsb (λ e, bool_decide (eID e = id) || sameKey (Source i) (EventKey i) e) (events d) = true → Q false (skipKey gap d)) →
  (id ∉ map eID (events d) → (Source i, EventKey i) ∉ map keyOf (events d) →
   Q true (addEvent (mkEvent id (lastSequence d + 1) authority now i) d)) →
  wp (insertEvent id authority i now gap) Q d.
Proof.
  intros H1 H2. apply wp_exec. destruct (existsb _ (events d)) eqn:E; [by apply H1|].
  unfold nextKey. destruct (_ <? _); [|done]. apply fresh_event in E as [E1 E2]. by apply H2.
Qed.

Lemma findEvent_some p d e : findEvent p d = Some e → e ∈ events d ∧ p e = true.
Proof.
  unfold findEvent. destruct (list_find _ (events d)) as [[i x]|] eqn:E; [|done]. intros [= ->].
  apply list_find_Some in E as (Hi & Hp & _). split; [by eapply list_elem_of_lookup_2|done].
Qed.
Lemma wp_found {A} (o : option A) (Q : A → Inbox → Prop) d : (∀ a, o = Some a → Q a d) → wp (found o) Q d.
Proof. intros H. destruct o; [|apply wp_fail]. apply wp_ret. by apply H. Qed.
Lemma getBySourceKey_wp source key (Q : Event → Inbox → Prop) d :
  (∀ e, e ∈ events d → eSource e = source → eKey e = key → Q e d) → wp (getBySourceKey source key) Q d.
Proof.
  intros H. unfold getBySourceKey. wp_step. wp_step. apply wp_found. intros e [He Hp]%findEvent_some.
  unfold sameKey in Hp. bool_facts. by apply H.
Qed.

(** *** Attachments *)
Definition addAttachment (a : Attachment) (d : Inbox) : Inbox := d <| attachments := attachments d ++ [a] |>.
Lemma addAttachment_ok a d :
  inbox_ok d → aEvent a ∈ map eID (events d) → aID a ∉ map aID (attachments d) → slot a ∉ map slot (attachments d) →
  aOwner a = "" → aUntil a = 0 → inbox_ok (addAttachment a d).
Proof.
  intros [H1 H2 H3 H4 H5 H6 H7 H8 H9] He Hid Hs Ho Hu. split; try done; cbn; rewrite ?map_app; cbn [map].
  - intros x [Hx| ->%list_elem_of_singleton]%elem_of_app; [by apply H6|done].
  - apply NoDup_app. split_and!; [done| |apply NoDup_singleton]. intros x Hx ->%list_elem_of_singleton. done.
  - apply NoDup_app. split_and!; [done| |apply NoDup_singleton]. intros x Hx ->%list_elem_of_singleton. done.
  - intros x [Hx| ->%list_elem_of_singleton]%elem_of_app; [by apply H9|done].
Qed.

(** An update that keeps the keys of the rows. *)
Lemma update_ok p f d :
  inbox_ok d → (∀ a, aID (f a) = aID a ∧ slot (f a) = slot a) →
  (∀ a, a ∈ attachments d → p a = true → aStatus (f a) ≠ AFetching → aOwner (f a) = "" ∧ aUntil (f a) = 0) →
  inbox_ok (d <| attachments := map (λ a, if p a then f a else a) (attachments d) |>).
Proof.
  intros [H1 H2 H3 H4 H5 H6 H7 H8 H9] Hf Hl.
  assert (∀ B (g : Attachment → B), (∀ a, g (f a) = g a) →
    map g (map (λ a, if p a then f a else a) (attachments d)) = map g (attachments d)) as Hm.
  { intros B g Hg. rewrite map_map. apply map_ext. intros a. by destruct (p a). }
  split; try done; cbn.
  - intros a (x & -> & Hx)%list_elem_of_fmap. destruct (p x); [|by apply H6].
    destruct (Hf x) as [_ E]. injection E as -> _. by apply H6.
  - rewrite Hm; [done|]. intros a. apply Hf.
  - rewrite Hm; [done|]. intros a. apply Hf.
  - intros a (x & -> & Hx)%list_elem_of_fmap. destruct (p x) eqn:E; [by apply Hl|by apply H9].
Qed.

(** ** How many events a source holds *)
Definition sourceCount (s : string) (d : Inbox) : nat := length (ofSource s (events d)).
Definition capped (d : Inbox) : Prop := ∀ s, (sourceCount s d ≤ maxEvents + 1)%nat.

Lemma sorted_nodup l : StronglySorted Z.lt l → NoDup l.
Proof.
  induction 1 as [|x l Hl IH Hx]; constructor; [|done]. intros Hin. rewrite Forall_forall in Hx.
  specialize (Hx x Hin). lia.
Qed.
Lemma count_deleted s p d : (sourceCount s (deleteEvents p d) ≤ sourceCount s d)%nat.
Proof.
  unfold sourceCount, ofSource. cbn. rewrite list_filter_filter. apply submseteq_length, sublist_submseteq.
  induction (events d) as [|e l IH]; [done|]. rewrite !filter_cons.
  destruct (decide (eSource e = s)), (decide (eSource e = s ∧ p e = false)); try (by constructor); naive_solver.
Qed.
Lemma newest_length s l : (length (newest maxEvents s l) ≤ maxEvents)%nat.
Proof. unfold newest. rewrite length_map, length_drop. lia. Qed.
(** After the surplus of a source is deleted. *)
Lemma count_surplus s p d : inbox_ok d → (∀ e, surplus s d e = true → p e = true) →
  (sourceCount s (deleteEvents p d) ≤ maxEvents)%nat.
Proof.
  intros Hok Hp. etrans; [|apply (newest_length s (events d))]. unfold sourceCount. rewrite <- (length_map eSeq).
  apply submseteq_length, NoDup_submseteq.
  - apply sorted_nodup, (sorted_sublist _ _ (map eSeq (events d))); [|apply Hok]. apply sublist_map. cbn.
    etrans; apply sublist_filter.
  - intros n (e & He & ->)%map_in. apply list_elem_of_filter in He as [Es He].
    apply deleteEvents_events in He as [He Hf]. destruct (surplus s d e) eqn:E; [by rewrite (Hp e E) in Hf|].
    unfold surplus in E. rewrite (bool_decide_eq_true_2 _ Es) in E. simpl in E. by bool_facts.
Qed.
Lemma count_addEvent s e d : sourceCount s (addEvent e d) = (sourceCount s d + if bool_decide (eSource e = s) then 1 else 0)%nat.
Proof.
  unfold sourceCount, ofSource. cbn. rewrite filter_app, length_app. f_equal. rewrite filter_cons, filter_nil.
  case_bool_decide; by case_decide.
Qed.
Lemma count_same s d d' : events d' = events d → sourceCount s d' = sourceCount s d.
Proof. unfold sourceCount. by intros ->. Qed.

(** ** What the operations do *)

(** Only attachments of one event are added. *)
Record attaches (event : string) (d d' : Inbox) : Prop := mkAttaches {
  at_events : events d' = events d;
  at_cursors : cursors d' = cursors d;
  at_last : lastSequence d' = lastSequence d;
  at_added : ∀ a, a ∈ attachments d' → a ∈ attachments d ∨ aEvent a = event }.
Lemma attaches_none event d : attaches event d d.
Proof. split; auto. Qed.

Section Operations.
Context (parseURL : string → option (string * string)) (isObject : string → bool)
        (stableAttachmentID : string → string → Z → string).
Notation insertAttachments := (insertAttachments parseURL stableAttachmentID).
Notation insertTx := (insertTx parseURL stableAttachmentID).

Lemma insertAttachments_wp event index l now d0 d :
  inbox_ok d → event ∈ map eID (events d) → attaches event d0 d →
  wp (insertAttachments event index l now) (λ _ d', inbox_ok d' ∧ attaches event d0 d') d.
Proof.
  revert index d. induction l as [|a l IH]; intros index d Hok He Ha; simpl; [by wp_step|].
  destruct (validateAttachmentInput _ _); [apply wp_fail|]. wp_step. unfold insertAttachment. wp_step.
  destruct (existsb _ (attachments d)) eqn:E; [by apply IH|].
  match goal with |- context [d <| attachments := attachments d ++ [?x] |>] => set (r := x) in *;
    change (d <| attachments := attachments d ++ [r] |>) with (addAttachment r d) end.
  apply not_true_iff_false in E. rewrite existsb_exists in E.
  apply IH.
  - apply addAttachment_ok; try done.
    + intros (x & Hx%list_elem_of_In & Ex)%map_in. apply E. exists x. split; [done|]. apply orb_true_iff. left.
      by apply bool_decide_eq_true.
    + intros (x & Hx%list_elem_of_In & Ex)%map_in. apply E. exists x. split; [done|]. apply orb_true_iff. right.
      injection Ex as E1 E2. apply andb_true_iff. rewrite bool_decide_eq_true, Z.eqb_eq. done.
  - done.
  - destruct Ha as [A1 A2 A3 A4]. split; try done. intros x [Hx| ->%list_elem_of_singleton]%elem_of_app; [by apply A4|by right].
Qed.

(** The event that an insertion answers. *)
Record inserted (id : string) (i : Input) (d d' : Inbox) (e : Event) (dup : bool) : Prop := mkInserted {
  in_event : e ∈ events d';
  in_key : keyOf e = (Source i, EventKey i);
  in_dup : dup = true → e ∈ events d ∧ ∀ x, x ∈ events d' → x ∈ events d;
  in_new : dup = false → keyOf e ∉ map keyOf (events d) ∧ eID e = id ∧ eInput e = i ∧ lastSequence d < eSeq e ∧ ∀ x, x ∈ events d' → x = e ∨ x ∈ events d;
  in_cursors : cursors d' = cursors d;
  in_attached : ∀ a, a ∈ attachments d' → a ∈ attachments d ∨ aEvent a = id }.

(** The database after [gcTx]. *)
Definition collected (now : Z) (source : string) (d : Inbox) : Inbox :=
  let d := deleteEvents (λ e, eExpires e <=? now) d in deleteEvents (surplus source d) d.
Lemma gcTx_wp now source (Q : () → Inbox → Prop) d : Q tt (collected now source d) → wp (gcTx now source) Q d.
Proof. intros H. unfold gcTx. wp_step. wp_step. by wp_step. Qed.
Lemma collected_ok now source d : inbox_ok d → inbox_ok (collected now source d).
Proof. intros H. by do 2 apply deleteEvents_ok. Qed.
Lemma collected_sub now source d e : e ∈ events (collected now source d) → e ∈ events d.
Proof. by intros [[? _]%deleteEvents_events _]%deleteEvents_events. Qed.
Lemma collected_capped now source d s : inbox_ok d → capped d →
  (sourceCount s (collected now source d) ≤ if bool_decide (s = source) then maxEvents else maxEvents + 1)%nat.
Proof.
  intros Hok Hc. case_bool_decide as E.
  - subst s. apply count_surplus; [by apply deleteEvents_ok|done].
  - etrans; [apply count_deleted|]. etrans; [apply count_deleted|]. apply Hc.
Qed.
Lemma collected_attachments now source d a : a ∈ attachments (collected now source d) → a ∈ attachments d.
Proof. cbn. rewrite !list_elem_of_filter. tauto. Qed.

Lemma keys_unique d e e' : inbox_ok d → e ∈ events d → e' ∈ events d → keyOf e = keyOf e' → e = e'.
Proof.
  intros Hok [i Hi]%list_elem_of_lookup [j Hj]%list_elem_of_lookup E.
  assert (i = j) as ->; [|congruence]. eapply (NoDup_lookup _ _ _ (keyOf e) (io_keys d Hok)); rewrite list_lookup_fmap.
  - by rewrite Hi.
  - rewrite Hj. simpl. by rewrite E.
Qed.

Lemma insertTx_wp authority id i l now gap d : inbox_ok d → capped d →
  wp (insertTx authority id i l now gap)
    (λ x d', inbox_ok d' ∧ capped d' ∧ inserted id i (collected now (Source i) d) d' x.1 x.2) d.
Proof.
  intros Hok Hcap. unfold insertTx. wp_step. apply gcTx_wp.
  pose proof (collected_capped now (Source i) d) as Hc. pose proof (collected_ok now (Source i) d Hok) as Hok1.
  set (d1 := collected now (Source i) d) in *. wp_step. apply insertEvent_wp.
  - intros Hex. wp_step. apply getBySourceKey_wp. intros e He E1 E2. wp_step. wp_step. wp_step.
    destruct (skipKey_fields gap d1) as (F1 & F2 & F3 & F4 & F5). rewrite F1 in He. split_and!.
    + by apply skipKey_ok.
    + intros s. rewrite (count_same s d1) by done. specialize (Hc s Hok Hcap). case_bool_decide; lia.
    + split; cbn; rewrite ?F1, ?F3, ?F4; try done; [by rewrite <- E1, <- E2|auto].
  - intros Hid Hk. wp_step. set (n := mkEvent id (lastSequence d1 + 1) authority now i).
    assert (inbox_ok (addEvent n d1)) as Hok2 by by apply addEvent_ok.
    apply getBySourceKey_wp. intros e He E1 E2. assert (e = n) as ->.
    { apply (keys_unique (addEvent n d1)); [done..| |]; [cbn; apply elem_of_app; right; left|].
      unfold keyOf. by rewrite E1, E2. }
    wp_step. eapply wp_mono; [apply (insertAttachments_wp _ _ _ _ (addEvent n d1)); [done| |apply attaches_none]|].
    { cbn. rewrite map_app. apply elem_of_app. right. left. }
    intros ? d2 [Hok3 [A1 A2 A3 A4]]. wp_step. split_and!; [done| |].
    + intros s. rewrite (count_same s (addEvent n d1)), count_addEvent by done. specialize (Hc s Hok Hcap).
      change (eSource n) with (Source i). repeat case_bool_decide; try congruence; lia.
    + split; cbn; rewrite ?A1, ?A2; try done.
      intros _. split_and!; [done..|cbn; lia|]. intros x [Hx| ->%list_elem_of_singleton]%elem_of_app; auto.
Qed.

Lemma fillInput_key now i : Source (fillInput now i) = Source i ∧ EventKey (fillInput now i) = EventKey i.
Proof. unfold fillInput. by destruct (_ =? 0), (_ =? 0). Qed.
Lemma normalizeInput_key i now n : normalizeInput parseURL isObject i now = inl n →
  Source n = trim_space (Source i) ∧ EventKey n = trim_space (EventKey i) ∧ now < ExpiresAt n.
Proof.
  unfold normalizeInput. cbv zeta.
  set (t := if str_empty (Severity (trimInput i)) then (trimInput i) <| Severity := "info" |> else trimInput i).
  assert (Source t = trim_space (Source i) ∧ EventKey t = trim_space (EventKey i)) as [E1 E2]
    by (unfold t; by destruct (str_empty _)).
  clearbody t. destruct (fillInput_key now t) as [F1 F2].
  destruct (_ || _); [done|]. destruct (_ || _); [done|]. destruct (_ && _); [done|]. destruct (negb _); [done|].
  destruct (ExpiresAt (fillInput now t) <=? now) eqn:Ex; [done|]. apply Z.leb_gt in Ex.
  destruct (_ || _); [done|]. intros [= <-]. rewrite <- E1, <- E2, <- F1, <- F2. by destruct (str_empty _).
Qed.
Lemma normalizeAll_source source l now n : normalizeAll parseURL isObject source l now = inl n →
  ∀ i, i ∈ n → Source i = trim_space source.
Proof.
  revert n. induction l as [|x l IH]; intros n; cbn [normalizeAll]; [intros [= <-] i Hi; by apply elem_of_nil in Hi|].
  case_bool_decide as E; cbn [negb]; [|done]. destruct (normalizeInput _ _ x now) as [y|] eqn:Ey; [|done].
  destruct (negb _); [done|]. destruct (normalizeAll _ _ source l now) as [t|]; [|done]. intros [= <-] i Hi.
  apply elem_of_cons in Hi as [->|Hi]; [|by eapply IH]. by destruct (normalizeInput_key _ _ _ Ey) as [-> _]; rewrite E.
Qed.

Definition others (source : string) (d : Inbox) : list Event := filter (λ e, eSource e ≠ source) (events d).
(** What a batch adds. *)
Record added (new : Prop) (source : string) (l : list Input) (d d' : Inbox) (out : list Event) : Prop := mkAdded {
  ad_ok : inbox_ok d';
  ad_events : ∀ x, x ∈ events d' → x ∈ events d ∨ x ∈ out;
  ad_kept : ∀ x, x ∈ events d → x ∈ events d';
  ad_out : ∀ x, x ∈ out → x ∈ events d' ∧ eSource x = source ∧ lastSequence d < eSeq x;
  ad_others : others source d' = others source d;
  ad_present : new → ∀ i, i ∈ l → ∃ e, e ∈ events d' ∧ keyOf e = (Source i, EventKey i);
  ad_cursors : cursors d' = cursors d;
  ad_attachments : attachments d' = attachments d;
  ad_last : lastSequence d ≤ lastSequence d' }.

Lemma others_add source e d : eSource e = source → others source (addEvent e d) = others source d.
Proof. intros E. unfold others. cbn. rewrite filter_app, filter_cons, filter_nil. case_decide; [done|]. by rewrite app_nil_r. Qed.

(** The identifiers from index [k] on are new and different. *)
Definition fresh_ids (ids : nat → string * bool) (k : nat) (d : Inbox) : Prop :=
  ∀ j, (k ≤ j)%nat → (ids j).1 ∉ map eID (events d) ∧ ∀ j', (k ≤ j')%nat → (ids j).1 = (ids j').1 → j = j'.

Lemma insertBatch_wp authority source l k ids now d :
  inbox_ok d → (∀ i, i ∈ l → Source i = source) →
  wp (insertBatch authority source l k ids now) (λ out d', added (fresh_ids ids k d) source l d d' out) d.
Proof.
  revert k d. induction l as [|i l IH]; intros k d Hok Hl; cbn [insertBatch].
  { wp_step. split; auto; try done; try (intros ? H; by apply elem_of_nil in H).
    intros _ ? H. by apply elem_of_nil in H. }
  pose proof (Hl i ltac:(left)) as Ei. assert (∀ i, i ∈ l → Source i = source) as Hl' by (intros; apply Hl; by right).
  wp_step. apply insertEvent_wp.
  - intros Hex. destruct (skipKey_fields (ids k).2 d) as (F1 & F2 & F3 & F4 & F5).
    eapply wp_mono; [apply IH; [by apply skipKey_ok|done]|]. intros out d' [A1 A2 A3 A4 A5 A6 A7 A8 A9].
    rewrite F1 in A2, A3. rewrite F4 in A7. rewrite F3 in A8. split; try done; try lia.
    + intros x Hx. destruct (A4 x Hx) as (? & ? & ?). split_and!; [done..|lia].
    + rewrite A5. unfold others. by rewrite F1.
    + intros Hf. assert (fresh_ids ids (S k) (skipKey (ids k).2 d)) as Hf'.
      { intros j Hj. rewrite F1. destruct (Hf j ltac:(lia)) as [N U]. split; [done|]. intros; apply U; [lia|done]. }
      intros j [->|Hj]%elem_of_cons; [|by apply A6]. apply existsb_exists in Hex as (e & He%list_elem_of_In & Hk).
      exists e. split; [by apply A3|]. apply orb_true_iff in Hk as [Hk%bool_decide_eq_true|Hk].
      * destruct (Hf k ltac:(lia)) as [[] _]. rewrite <- Hk. by apply in_map.
      * unfold sameKey in Hk. apply andb_true_iff in Hk. rewrite !bool_decide_eq_true in Hk. unfold keyOf. destruct Hk as [-> ->]. done.
  - intros Hid Hk. set (n := mkEvent (ids k).1 (lastSequence d + 1) authority now i).
    assert (inbox_ok (addEvent n d)) as Hok1 by by apply addEvent_ok.
    wp_step. apply getBySourceKey_wp. intros e He E1 E2. assert (e = n) as ->.
    { apply (keys_unique (addEvent n d)); [done..| |]; [cbn; apply elem_of_app; right; left|].
      unfold keyOf. rewrite E1, E2, <- Ei. done. }
    wp_step. eapply wp_mono; [apply IH; done|]. intros out d' [A1 A2 A3 A4 A5 A6 A7 A8 A9]. wp_step.
    assert (n ∈ events (addEvent n d)) as Hn by (cbn; apply elem_of_app; right; left).
    cbn [addEvent] in A2, A9. split; try done.
    + intros x Hx. destruct (A2 x Hx) as [Hx'|Hx']; [|right; by right].
      cbn in Hx'. apply elem_of_app in Hx' as [Hx'| ->%list_elem_of_singleton]; [by left|right; left].
    + intros x Hx. apply A3. cbn. apply elem_of_app. by left.
    + intros x [->|Hx]%elem_of_cons; [split_and!; [by apply A3|done|cbn; lia]|].
      destruct (A4 x Hx) as (? & ? & ?). cbn in *. split_and!; [done..|lia].
    + rewrite A5. by apply others_add.
    + intros Hf j [->|Hj]%elem_of_cons; [exists n; split; [by apply A3|done]|]. apply A6; [|done].
      intros j' Hj'. destruct (Hf j' ltac:(lia)) as [N U]. split; [|intros; apply U; [lia|done]]. cbn. rewrite map_app.
      intros [Hin|Hin%list_elem_of_singleton]%elem_of_app; [done|]. specialize (U k ltac:(lia) Hin). lia.
    + cbn in A9. lia.
Qed.

(** *** The other operations *)
Definition tidy (d : Inbox) : Prop := inbox_ok d ∧ capped d.
Lemma tidy_same d d' : events d' = events d → inbox_ok d' → tidy d → tidy d'.
Proof. intros E Hok [_ Hc]. split; [done|]. intros s. rewrite (count_same s d) by done. apply Hc. Qed.

Notation Insert := (InsertWithAttachments parseURL isObject stableAttachmentID).
Notation Commit := (CommitSourceBatch parseURL isObject).

Lemma Insert_keeps authority id i l now gap fs d (P : Inbox → Prop) :
  P d → (∀ n, normalizeInput parseURL isObject i now = inl n → wp (insertTx authority id n l now gap) (λ _ d', P d') d) →
  P (Insert authority id i l now gap fs d).1.2.
Proof.
  intros Hd H. unfold InsertWithAttachments. destruct (normalizeInput _ _ i now) as [n|] eqn:E; [|done].
  apply atomically_keeps; [done|]. wp_step. eapply wp_mono; [by apply H|]. intros x d' Hx. by wp_step.
Qed.
Lemma Mark_keeps id device read dismissed now fs d (P : Inbox → Prop) :
  P d → (∀ v, id ∈ map eID (events d) → P (d <| marks := <[(id, device) := v]> (marks d) |>)) →
  P (Mark id device read dismissed now fs d).1.2.
Proof.
  intros Hd H. unfold Mark. destruct (_ || _); [done|]. apply atomically_keeps; [done|].
  wp_step. unfold getByID. wp_step. wp_step. apply wp_found. intros e [He Hid]%findEvent_some.
  apply bool_decide_eq_true in Hid. subst id. do 2 wp_step. destruct (marks d !! _) as [[[r x] ?]|]; wp_step; wp_step; wp_step;
    apply H; by apply in_map.
Qed.
Definition fetching (owner : string) (attempt until now : Z) (x : Attachment) : Attachment :=
  x <| aStatus := AFetching |> <| aAttempt := attempt |> <| aOwner := owner |> <| aUntil := until |> <| aUpdated := now |>.
Lemma Claim_keeps owner now lease fs d (P : Inbox → Prop) :
  P d → (∀ id attempt, P (d <| attachments := map (λ x,
    if bool_decide (aID x = id) && waiting x && (aUntil x <=? now) then fetching owner attempt (i64 (now + lease)) now x else x)
    (attachments d) |>)) →
  P (ClaimAttachmentFetch owner now lease fs d).1.2.
Proof.
  intros Hd H. unfold ClaimAttachmentFetch. apply atomically_keeps; [done|]. do 2 wp_step. destruct (head _) as [a|]; [|by wp_step].
  wp_step. unfold updateAttachments. wp_step. destruct (negb _); wp_step; apply H.
Qed.
Lemma Complete_keeps id owner path mime digest size now fs d (P : Inbox → Prop) :
  P d → P (d <| attachments := map (λ a, if leased id owner a
    then a <| aStatus := AAvailable |> <| aSource := "" |> <| aPath := path |> <| aMIME := mime |>
           <| aSize := size |> <| aSHA := digest |> <| aError := "" |> <| aOwner := "" |>
           <| aUntil := 0 |> <| aUpdated := now |> else a) (attachments d) |>) →
  P (CompleteAttachmentFetch id owner path mime digest size now fs d).1.2.
Proof. intros Hd H. unfold CompleteAttachmentFetch. apply single_keeps; [done|]. wp_step. unfold updateAttachments. by do 2 wp_step. Qed.
Lemma Fail_keeps id owner code retryAt (terminal : bool) now fs d (P : Inbox → Prop) :
  P d → (∀ code : string, P (d <| attachments := map (λ a : Attachment, if leased id owner a
    then a <| aStatus := if terminal then AMissing else ARetry |> <| aError := code |>
           <| aSource := if terminal then "" else aSource a |> <| aAvailable := retryAt |>
           <| aOwner := "" |> <| aUntil := 0 |> <| aUpdated := now |> else a) (attachments d) |>)) →
  P (FailAttachmentFetch id owner code retryAt terminal now fs d).1.2.
Proof. intros Hd H. unfold FailAttachmentFetch. apply single_keeps; [done|]. wp_step. unfold updateAttachments. do 2 wp_step. apply H. Qed.

(** What the body of a batch leaves. *)
Definition trimmed (now : Z) (source : string) (d : Inbox) : Inbox :=
  deleteEvents (λ e, bool_decide (eSource e = source) && (eExpires e <=? now) || surplus source d e) d.
Lemma commitBatch_wp authority source stream expected next l ids now d :
  inbox_ok d → (∀ i, i ∈ l → Source i = source) →
  wp (commitBatch authority source stream expected next l ids now)
    (λ out d', default "" (cursors d !! (source, stream)) = expected ∧ ∃ d1, added (fresh_ids ids 0 d) source l d d1 out ∧
       d' = (trimmed now source d1) <| cursors := <[(source, stream) := next]> (cursors d) |>) d.
Proof.
  intros Hok Hl. unfold commitBatch. do 2 wp_step. cbv beta. case_bool_decide as E; simpl; [|apply wp_fail].
  wp_step. eapply wp_mono; [by apply insertBatch_wp|]. intros out d1 Ha. do 4 wp_step. wp_step.
  split; [done|]. exists d1. split; [done|]. rewrite <- (ad_cursors _ _ _ _ _ _ Ha). reflexivity.
Qed.
Lemma trimmed_others now source d : others source (trimmed now source d) = others source d.
Proof.
  unfold others, trimmed. cbn. rewrite list_filter_filter. apply list_filter_iff. intros e. split; [tauto|]. intros E.
  split; [done|]. unfold surplus. by rewrite (bool_decide_eq_false_2 (eSource e = source)).
Qed.
Lemma count_others s source d d' : s ≠ source → others source d' = others source d → sourceCount s d' = sourceCount s d.
Proof.
  intros Hs E. unfold sourceCount, ofSource.
  assert (∀ l : list Event, filter (λ e, eSource e = s) l = filter (λ e, eSource e = s) (filter (λ e, eSource e ≠ source) l)) as H.
  { intros l. rewrite list_filter_filter. apply list_filter_iff. intros e. split; [intros ->; done|tauto]. }
  rewrite (H (events d')), (H (events d)). unfold others in E. by rewrite E.
Qed.
Lemma added_tidy new source l d d1 out now cs : tidy d → added new source l d d1 out →
  tidy ((trimmed now source d1) <| cursors := cs |>).
Proof.
  intros [Hok Hc] Ha. assert (inbox_ok (trimmed now source d1)) as Hok1 by apply deleteEvents_ok, Ha.
  split; [by destruct Hok1|]. intros s. change (sourceCount s (trimmed now source d1) ≤ maxEvents + 1)%nat.
  destruct (decide (s = source)) as [->|Hs].
  - etrans; [apply count_surplus; [apply Ha|]|lia]. intros e ->. apply orb_true_r.
  - rewrite (count_others s source d); [apply Hc|done|]. rewrite trimmed_others. apply Ha.
Qed.
Lemma Commit_keeps authority source stream expected next l ids now fs d (P : Inbox → Prop) :
  P d → (∀ n, normalizeAll parseURL isObject source l now = inl n →
    wp (commitBatch authority source stream expected next n ids now) (λ _ d', P d') d) →
  P (Commit authority source stream expected next l ids now fs d).1.2.
Proof.
  intros Hd H. unfold CommitSourceBatch. destruct (_ || _); [done|]. destruct (fault fs) as [[] fs']; [done|].
  destruct (normalizeAll _ _ source l now) as [n|] eqn:E; [|done]. apply atomically_keeps; [done|].
  wp_step. eapply wp_mono; [by apply H|]. intros x d' Hx. by wp_step.
Qed.

(** A batch names its source as it is stored. *)
Definition proper (o : iop) : Prop := match o with OpCommit _ source _ _ _ _ _ _ => trim_space source = source | _ => True end.
Notation step := (stepInbox parseURL isObject stableAttachmentID).
Notation run := (runInbox parseURL isObject stableAttachmentID).
Lemma step_tidy o fs d : proper o → tidy d → tidy (step o fs d).
Proof.
  intros Hp Ht. pose proof Ht as [Hok Hc]. destruct o; cbn [stepInbox].
  - apply Insert_keeps; [done|]. intros n _. eapply wp_mono; [by apply insertTx_wp|]. intros x d' (? & ? & _). by split.
  - apply Mark_keeps; [done|]. intros v Hid. apply (tidy_same d); [done| |done]. destruct Hok as [H1 H2 H3 H4 H5 H6 H7 H8 H9].
    split; try done. cbn. intros k w [[<- _]|[_ Hk]]%lookup_insert_Some; [done|by eapply H5].
  - apply Claim_keeps; [done|]. intros a attempt. apply (tidy_same d); [done| |done]. by apply update_ok.
  - apply Complete_keeps; [done|]. apply (tidy_same d); [done| |done]. by apply update_ok.
  - apply Fail_keeps; [done|]. intros c. apply (tidy_same d); [done| |done]. by apply update_ok.
  - apply Commit_keeps; [done|]. intros n Hn. eapply wp_mono; [apply commitBatch_wp; [done|]|].
    { intros i Hi. rewrite (normalizeAll_source _ _ _ _ Hn i Hi). exact Hp. }
    intros out d' (_ & d1 & Ha & ->). by eapply added_tidy.
Qed.
Lemma run_tidy l d : (∀ o fs, (o, fs) ∈ l → proper o) → tidy d → tidy (run l d).
Proof.
  revert d. induction l as [|[o fs] l IH]; intros d Hp Ht; [done|]. apply IH; [intros; eapply Hp; by right|].
  apply step_tidy; [eapply Hp; left|done].
Qed.

(** *** A fetch whose worker is gone *)

(** The operations of other workers, with new event identifiers. *)
Definition spares (a : Attachment) (o : iop) : Prop :=
  match o with
  | OpInsert _ id _ _ _ _ => id ≠ aEvent a
  | OpCompleteFetch id owner _ _ _ _ _ | OpFailFetch id owner _ _ _ _ => ¬ (id = aID a ∧ owner = aOwner a)
  | _ => True
  end.
Definition frozen (a : Attachment) (d : Inbox) : Prop :=
  ∀ a', a' ∈ attachments d → aID a' = aID a → aEvent a' = aEvent a → a' = a.
Lemma frozen_sub a d d' : frozen a d → (∀ x, x ∈ attachments d' → x ∈ attachments d ∨ aEvent x ≠ aEvent a) → frozen a d'.
Proof. intros Hf Hs a' Ha' Hid He. destruct (Hs a' Ha') as [Hx|Hx]; [by apply Hf|done]. Qed.
Lemma frozen_update a d p f : frozen a d → (∀ x, aID (f x) = aID x ∧ slot (f x) = slot x) → p a = false →
  frozen a (d <| attachments := map (λ x, if p x then f x else x) (attachments d) |>).
Proof.
  intros Hf Hs Hp a' (x & -> & Hx)%list_elem_of_fmap Hid He.
  assert (aID x = aID a ∧ aEvent x = aEvent a) as [E1 E2].
  { destruct (p x); [|done]. destruct (Hs x) as [E1 E2]. injection E2 as E2 _. by rewrite <- E1, <- E2. }
  by rewrite (Hf x Hx E1 E2), Hp.
Qed.
Lemma step_frozen a o fs d : aStatus a = AFetching → proper o → spares a o → tidy d → frozen a d → frozen a (step o fs d).
Proof.
  intros Ha Hp Hs [Hok Hc] Hf. destruct o; cbn [stepInbox spares] in *.
  - apply Insert_keeps; [done|]. intros n _. eapply wp_mono; [by apply insertTx_wp|]. intros x d' (_ & _ & Hi).
    apply (frozen_sub a d); [done|]. intros y [Hy| ->]%(in_attached _ _ _ _ _ _ Hi); [left|by right].
    by eapply collected_attachments.
  - by apply Mark_keeps.
  - apply Claim_keeps; [done|]. intros k attempt. apply frozen_update; [done..|]. unfold waiting.
    rewrite Ha. by rewrite andb_false_r.
  - apply Complete_keeps; [done|]. apply frozen_update; [done..|]. unfold leased.
    destruct (decide (aID a = id)) as [E|E]; [|by rewrite (bool_decide_eq_false_2 _ E)].
    rewrite (bool_decide_eq_false_2 (aOwner a = owner)); [by rewrite andb_false_r|]. naive_solver.
  - apply Fail_keeps; [done|]. intros c. apply frozen_update; [done..|]. unfold leased.
    destruct (decide (aID a = id)) as [E|E]; [|by rewrite (bool_decide_eq_false_2 _ E)].
    rewrite (bool_decide_eq_false_2 (aOwner a = owner)); [by rewrite andb_false_r|]. naive_solver.
  - apply Commit_keeps; [done|]. intros n Hn. eapply wp_mono; [apply commitBatch_wp; [done|]|].
    { intros i Hi. rewrite (normalizeAll_source _ _ _ _ Hn i Hi). exact Hp. }
    intros out d' (_ & d1 & Hd & ->). apply (frozen_sub a d); [done|]. intros y Hy. left.
    cbn in Hy. apply list_elem_of_filter in Hy as [_ Hy]. by rewrite (ad_attachments _ _ _ _ _ _ Hd) in Hy.
Qed.
Lemma run_frozen a l d : aStatus a = AFetching → (∀ o fs, (o, fs) ∈ l → proper o ∧ spares a o) → tidy d → frozen a d →
  frozen a (run l d).
Proof.
  intros Ha. revert d. induction l as [|[o fs] l IH]; intros d Hl Ht Hf; [done|].
  destruct (Hl o fs ltac:(left)). apply IH; [intros; eapply Hl; by right|by apply step_tidy|by apply step_frozen].
Qed.

Lemma claim_result owner now lease fs d :
  match (ClaimAttachmentFetch owner now lease fs d).1.1 with
  | inl (Some x) => ∃ y, y ∈ attachments d ∧ waiting y = true ∧ aID x = aID y ∧ aEvent x = aEvent y
  | _ => True
  end.
Proof.
  unfold ClaimAttachmentFetch.
  match goal with |- context [atomically inr ?m fs d] => pose proof (atomically_elim inr m fs d (λ r _,
    match r with inl (Some x) => ∃ y, y ∈ attachments d ∧ waiting y = true ∧ aID x = aID y ∧ aEvent x = aEvent y | _ => True end)) as H end.
  destruct (atomically _ _ fs d) as [[r d'] fs']. apply H; [|done]. clear H.
  do 2 wp_step. destruct (head _) as [a|] eqn:E; [|by wp_step]. wp_step. unfold updateAttachments. wp_step.
  destruct (negb _); wp_step; [done|]. exists a.
  assert (a ∈ filter (λ a, claimable now a = true) (attachments d)) as Ha.
  { rewrite <- (merge_sort_Permutation attachment_le). destruct (merge_sort _ _); [done|]. injection E as ->. left. }
  apply list_elem_of_filter in Ha as [Hc Ha]. unfold claimable in Hc. rewrite !andb_true_iff in Hc. split_and!; try done. apply Hc.
Qed.

(** ** Theorems *)

(** Over every history, whatever statements fail: identifiers and the pairs of
    source and key are unique, sequences rise, marks and attachments belong to
    an event that is there, and no source holds more than 10001 events. *)
Theorem inbox_stays_consistent l source :
  (∀ o fs, (o, fs) ∈ l → proper o) →
  let d := run l NewInbox in
  inbox_ok d ∧ (length (ofSource source (events d)) ≤ maxEvents + 1)%nat.
Proof.
  intros Hl. destruct (run_tidy l NewInbox Hl) as [H1 H2]; [|split; [done|apply H2]].
  split; [apply inbox_ok_new|]. intros s. cbn. lia.
Qed.

(** An event that is sent again, while the first one has not expired and its
    source is below its cap, is answered with the first one and adds nothing. *)
Theorem resent_event_is_the_original l authority id i n files now gap fs e :
  (∀ o fs, (o, fs) ∈ l → proper o) →
  let d := run l NewInbox in
  normalizeInput parseURL isObject i now = inl n →
  e ∈ events d → keyOf e = (Source n, EventKey n) → now < eExpires e →
  (length (ofSource (Source n) (events d)) ≤ maxEvents)%nat →
  let x := Insert authority id i files now gap fs d in
  (∀ answer, x.1.1 = inl answer → answer = (e, true)) ∧ ∀ y, y ∈ events x.1.2 → y ∈ events d.
Proof.
  intros Hl d Hn He Hk Hx Hcap x.
  assert (tidy d) as [Hok Hc] by (apply run_tidy; [done|]; split; [apply inbox_ok_new|intros s; cbn; lia]).
  assert (e ∈ events (collected now (Source n) d)) as Hin.
  { set (d1 := deleteEvents (λ e, eExpires e <=? now) d).
    assert (e ∈ events d1) as He1 by (apply deleteEvents_events; split; [done|lia]).
    apply deleteEvents_events. split; [done|]. unfold surplus. injection Hk as Hs _.
    rewrite (bool_decide_eq_true_2 (eSource e = Source n)) by done. simpl. rewrite bool_decide_eq_true_2; [done|].
    pose proof (count_deleted (Source n) (λ e, eExpires e <=? now) d) as Hd. fold d1 in Hd. unfold sourceCount in Hd.
    change (eSeq e ∈ newest maxEvents (Source n) (events d1)).
    unfold newest. rewrite (proj2 (Nat.sub_0_le _ _)) by lia. rewrite drop_0. apply in_map, list_elem_of_filter. by split. }
  unfold x, InsertWithAttachments. rewrite Hn.
  match goal with |- context [atomically inr ?m fs d] => pose proof (atomically_elim inr m fs d (λ r d',
    (∀ answer, r = inl answer → answer = (e, true)) ∧ ∀ y, y ∈ events d' → y ∈ events d)) as H end.
  destruct (atomically _ _ fs d) as [[r d'] fs']. apply H; [|by intros err; split; [intros ? [=]|]]. clear H.
  wp_step. eapply wp_mono; [by apply insertTx_wp|]. intros [e1 dup] d1 (Hok1 & _ & [H1 H2 H3 H4 _ _]). wp_step. cbn [fst snd] in *.
  destruct dup.
  - destruct (H3 eq_refl) as [Hold Hsub]. split; [|intros y Hy; by eapply collected_sub, Hsub].
    intros answer [= <-]. f_equal. apply (keys_unique (collected now (Source n) d)); [by apply collected_ok|done..|congruence].
  - destruct (H4 eq_refl) as [[] _]. rewrite H2, <- Hk. by apply in_map.
Qed.


(** C30: A fetch that was claimed and neither completed nor failed by its worker is
    never claimed again, however late and by whomever: the row stays as the
    claim left it, although its lease has long expired. *)
Theorem lost_fetch_is_never_retried l l' a :
  (∀ o fs, (o, fs) ∈ l → proper o) →
  let d := run l NewInbox in
  a ∈ attachments d → aStatus a = AFetching →
  (∀ o fs, (o, fs) ∈ l' → proper o ∧ spares a o) →
  let d' := run l' d in
  (∀ a', a' ∈ attachments d' → aID a' = aID a → aEvent a' = aEvent a → a' = a) ∧
  ∀ owner now lease fs x, (ClaimAttachmentFetch owner now lease fs d').1.1 = inl (Some x) →
    ¬ (aID x = aID a ∧ aEvent x = aEvent a).
Proof.
  intros Hl d Ha Hf Hl' d'.
  assert (tidy d) as Ht by (apply run_tidy; [done|]; split; [apply inbox_ok_new|intros s; cbn; lia]).
  assert (frozen a d') as Hfr.
  { apply run_frozen; [done..|]. intros a' Ha' Hid _. pose proof (io_attachments d (proj1 Ht)) as Hnd.
    apply list_elem_of_lookup in Ha as [i Hi], Ha' as [j Hj]. assert (i = j) as ->; [|congruence].
    eapply (NoDup_lookup _ _ _ (aID a) Hnd); rewrite list_lookup_fmap; [by rewrite Hi|]. rewrite Hj. simpl. by rewrite Hid. }
  split; [exact Hfr|]. intros owner now lease fs x Hx [E1 E2]. pose proof (claim_result owner now lease fs d') as H.
  rewrite Hx in H. destruct H as (y & Hy & Hw & Ey1 & Ey2). assert (y = a) as ->; [|].
  { apply Hfr; [done|congruence..]. }
  unfold waiting in Hw. rewrite Hf in Hw. done.
Qed.
End Operations.

(** ** A day of one inbox *)
Module Mail.
Definition parse (u : string) : option (string * string) := if String.prefix "https://" u then Some ("https", "host") else None.
Definition object (s : string) : bool := String.prefix "{" s.
Definition attachmentID (event external : string) (ordinal : Z) : string := event +:+ "/" +:+ external.
Definition input (key : string) : Input := mkInput " meta " key "message" "Info" "Title" "" "https://h/p" "" 0 0 [].
Definition file : AttachmentInput := mkAttachmentInput "f" "https://h/f.jpg" "image/jpeg" "f.jpg" (-1).
Definition arrival : list (iop * list bool) :=
  [(OpInsert "me" "evt_1" (input "k1") [file] 1000 false, []);
   (OpInsert "me" "evt_2" (input "k2") [] 2000 false, [false; false; false; false; true]);
   (OpClaim "worker" 3000 120000, []); (OpMark "evt_1" "phone" (Some true) None 3500, [])].
Definition later : list (iop * list bool) :=
  [(OpClaim "restarted worker" 200000 120000, []); (OpFailFetch "evt_1/f" "restarted worker" "gone" 0 true 200500, []);
   (OpCommit "me" "line" "in" "" "c1" [mkInput "line" "m1" "message" "" "T" "" "" "{}" 0 0 []] (λ k, (decimal (Z.of_nat k), false)) 210000, [])].
Notation day l := (runInbox parse object attachmentID l NewInbox).
Definition fetched (d : Inbox) : Attachment :=
  nth 0 (attachments d) (mkAttachment "" "" "" 0 APending "" "" "" "" 0 "" "" 0 0 "" 0 0 0).
Lemma arrival_proper o fs : (o, fs) ∈ arrival → proper o.
Proof. intros H. repeat (apply elem_of_cons in H as [E|H]; [by inversion E|]). by apply elem_of_nil in H. Qed.
Lemma later_spares a o fs : aID a = "evt_1/f" → aOwner a = "worker" → aEvent a = "evt_1" → (o, fs) ∈ later →
  proper o ∧ spares a o.
Proof.
  intros E1 E2 E3 H. repeat (apply elem_of_cons in H as [E|H]; [inversion E; subst; split; [reflexivity|]|]).
  - exact I.
  - intros [_ Eo]. by rewrite E2 in Eo.
  - exact I.
  - by apply elem_of_nil in H.
Qed.
End Mail.

Lemma inbox_stays_consistent_witness :
  inbox_ok (Mail.day Mail.arrival) ∧ (length (ofSource "meta" (events (Mail.day Mail.arrival))) ≤ maxEvents + 1)%nat.
Proof. apply (inbox_stays_consistent Mail.parse Mail.object Mail.attachmentID Mail.arrival "meta"). exact Mail.arrival_proper. Defined.

Lemma lost_fetch_is_never_retried_witness :
  let a := Mail.fetched (Mail.day Mail.arrival) in
  let d' := runInbox Mail.parse Mail.object Mail.attachmentID Mail.later (Mail.day Mail.arrival) in
  aUntil a < 900000 ∧
  ¬ ∃ owner now lease fs x, (ClaimAttachmentFetch owner now lease fs d').1.1 = inl (Some x) ∧
      aID x = "evt_1/f" ∧ aEvent x = "evt_1".
Proof.
  destruct (lost_fetch_is_never_retried Mail.parse Mail.object Mail.attachmentID Mail.arrival Mail.later
    (Mail.fetched (Mail.day Mail.arrival))) as [_ H].
  - exact Mail.arrival_proper.
  - apply list_elem_of_lookup. exists 0%nat. vm_compute. reflexivity.
  - vm_compute. reflexivity.
  - intros o fs. apply Mail.later_spares; vm_compute; reflexivity.
  - split; [vm_compute; reflexivity|]. intros (owner & now & lease & fs & x & Hx & E). exact (H owner now lease fs x Hx E).
Defined.

Lemma resent_event_is_the_original_witness :
  let d := Mail.day Mail.arrival in
  ∃ e, e ∈ events d ∧
    (InsertWithAttachments Mail.parse Mail.object Mail.attachmentID "me" "evt_9" (Mail.input "k1") [Mail.file] 5000 false [] d).1.1
    = inl (e, true).
Proof.
  set (e := nth 0 (events (Mail.day Mail.arrival)) (mkEvent "" 0 "" 0 (Mail.input ""))).
  assert (∃ n, normalizeInput Mail.parse Mail.object (Mail.input "k1") 5000 = inl n ∧ keyOf e = (Source n, EventKey n) ∧
    Source n = "meta") as (n & Hn & Hk & Hs) by (eexists; split; [vm_compute; reflexivity|split; vm_compute; reflexivity]).
  assert (e ∈ events (Mail.day Mail.arrival)) as He by (apply list_elem_of_lookup; exists 0%nat; vm_compute; reflexivity).
  assert (5000 < eExpires e) as Hx by (vm_compute; reflexivity).
  assert (length (ofSource (Source n) (events (Mail.day Mail.arrival))) ≤ maxEvents)%nat as Hc
    by (rewrite Hs; apply Nat.leb_le; vm_compute; reflexivity).
  clearbody e.
  destruct (resent_event_is_the_original Mail.parse Mail.object Mail.attachmentID Mail.arrival "me" "evt_9" (Mail.input "k1") n
    [Mail.file] 5000 false [] e Mail.arrival_proper Hn He Hk Hx Hc) as [H _].
  assert (∃ v, (InsertWithAttachments Mail.parse Mail.object Mail.attachmentID "me" "evt_9" (Mail.input "k1") [Mail.file] 5000 false []
    (runInbox Mail.parse Mail.object Mail.attachmentID Mail.arrival NewInbox)).1.1 = inl v) as [v Hv] by (eexists; vm_compute; reflexivity).
  exists e. split; [exact He|]. etransitivity; [exact Hv|]. f_equal. apply H. exact Hv.
Defined.

