(* ===== verification/Interactions.v ===== *)
(** * Questions of child work: [src/internal/taskinteraction]

    A child agent asks its parent or a human, and the answer is reserved,
    delivered and acknowledged: one row per question, the receipts of commands,
    what was relayed to other instances and which control messages were
    reserved; with the parts of [src/internal/core] that change a question
    ([task_interactions.go], [task_interaction_lifecycle.go],
    [task_interaction_remote.go]).

    Rows are listed by rowid, which no statement changes or frees.  The clock,
    random identifiers, [Hash], the texts of control messages and what the host
    finds elsewhere ([Sight]) are arguments.  A JSON column gives back the
    value that was stored, as it does where the strings are valid UTF-8.  What
    Go returns beside an error is not modelled. *)
From S2P Require Import Prelude Orders Sql MessageQueue.

(** ** Data *)
Record Binding := mkBinding {
  bParentRequest : string; bAuthority : string; bKind : string; bRelationID : string; bLogicalID : string;
  bChild : string; bChildThread : string; bChildRequest : string; bChildRevision : Z; bParent : string;
  bParentThread : string; bParentRevision : Z; bParentAuthority : string }.
#[global] Instance Binding_eq_dec : EqDecision Binding.
Proof. solve_decision. Defined.

(** A [taskinteraction.Record]. *)
Record Question := mkQuestion {
  qProducer : string; qSource : string; qRoute : list string; qAuthorityVersion : Z; qNativePayload : string;
  qID : string; qBinding : Binding; qNativeCall : string; qNativeTurn : string; qOriginKey : string;
  qIntent : string; qText : string; qOptions : list string; qKind : string; qBlocking : bool;
  qHumanOnly : bool; qNativeQuestion : string; qRevision : Z; qVersion : Z; qState : string;
  qNotification : string; qNotificationRequest : string; qAnswer : string; qActor : string; qActorID : string;
  qAnswerKey : string; qAnswerHash : string; qAckToken : string; qAcknowledgedBy : string; qError : string;
  qCreated : Z; qUpdated : Z }.
#[export] Instance Question_eta : Eta Question := λ q,
  mkQuestion (qProducer q) (qSource q) (qRoute q) (qAuthorityVersion q) (qNativePayload q) (qID q) (qBinding q)
    (qNativeCall q) (qNativeTurn q) (qOriginKey q) (qIntent q) (qText q) (qOptions q) (qKind q) (qBlocking q)
    (qHumanOnly q) (qNativeQuestion q) (qRevision q) (qVersion q) (qState q) (qNotification q)
    (qNotificationRequest q) (qAnswer q) (qActor q) (qActorID q) (qAnswerKey q) (qAnswerHash q) (qAckToken q)
    (qAcknowledgedBy q) (qError q) (qCreated q) (qUpdated q).
#[global] Instance Question_eq_dec : EqDecision Question.
Proof. solve_decision. Defined.

(** The columns of [questions]. *)
Record QRow := mkQRow {
  rID : string; rChild : string; rRequest : string; rParent : string; rOrigin : string; rVersion : Z; rData : Question }.
#[export] Instance QRow_eta : Eta QRow := λ r,
  mkQRow (rID r) (rChild r) (rRequest r) (rParent r) (rOrigin r) (rVersion r) (rData r).
#[global] Instance QRow_eq_dec : EqDecision QRow.
Proof. solve_decision. Defined.

(** The tables, and the cursor that the process keeps. *)
Record Asked := mkAsked {
  questions : list QRow;
  commands : gmap (string * string) (string * string);
  receipts : gmap string Z;
  outbox : gmap (string * string) (string * string * string);
  controls : gmap string (string * string * string);
  pendingCursor : Z }.
#[export] Instance Asked_eta : Eta Asked := λ s,
  mkAsked (questions s) (commands s) (receipts s) (outbox s) (controls s) (pendingCursor s).
Definition Unasked : Asked := mkAsked [] ∅ ∅ ∅ ∅ 0.

Definition NoRows : Err := Plain "sql: no rows in result set".
Definition conflict : Err := Plain "idempotency_conflict".

(** [database/sql] refuses an unsigned argument with its high bit set. *)
Definition unsignedArg (n : Z) : Tx Asked () :=
  if i64_max <? n then tx_fail (Plain "uint64 values with high bit set are not supported") else mret tt.

(** ** Rows *)
Definition questionOf (id : string) (s : Asked) : option QRow :=
  snd <$> list_find (λ r, rID r = id) (questions s).
Definition originOf (origin : string) (s : Asked) : option QRow :=
  snd <$> list_find (λ r, rOrigin r = origin) (questions s).
Definition foundRow (o : option QRow) : Tx Asked Question :=
  match o with Some r => mret (rData r) | None => tx_fail NoRows end.
Definition GetQuestion (id : string) : Tx Asked Question := o ← query (questionOf id); foundRow o.

Definition rowFor (q : Question) : QRow :=
  mkQRow (qID q) (bChild (qBinding q)) (bChildRequest (qBinding q)) (bParent (qBinding q)) (qOriginKey q) (qVersion q) q.
Definition insertQuestion (q : Question) : Tx Asked () :=
  unsignedArg (qVersion q);;
  exec (λ s,
    if existsb (λ r, bool_decide (rID r = qID q) || bool_decide (rOrigin r = qOriginKey q)) (questions s)
    then inr ConstraintError
    else inl (tt, s <| questions := questions s ++ [rowFor q] |>)).

(** [UPDATE questions SET version=?,data=?]: the number of rows it changes. *)
Definition updateQuestions (p : QRow → bool) (q : Question) : Tx Asked nat :=
  unsignedArg (qVersion q);;
  exec (λ s, inl (countb p (questions s),
    s <| questions := map (λ r, if p r then r <| rVersion := qVersion q |> <| rData := q |> else r) (questions s) |>)).

(** ** Asking *)
Definition openStates : list string := ["pending_parent"; "pending_human"; "answer_reserved"; "awaiting_consumption"].
Definition openFor (child request : string) (r : QRow) : bool :=
  bool_decide (rChild r = child) && bool_decide (rRequest r = request) && bool_decide (qState (rData r) ∈ openStates).
Definition openCount (child request : string) (s : Asked) : nat := countb (openFor child request) (questions s).

Definition starting (id : string) (q : Question) (now : Z) : Question :=
  q <| qID := id |> <| qVersion := 1 |> <| qRevision := 1 |>
    <| qState := if qHumanOnly q then "pending_human" else "pending_parent" |>
    <| qNotification := "pending" |> <| qCreated := now |> <| qUpdated := now |>.

(** The question, and whether it is new. *)
Definition Create (id : string) (q : Question) (now : Z) (fs : list bool) (s : Asked)
  : ((Question * bool) + Err) * Asked * list bool :=
  let q := starting id q now in
  atomically inr
    (old ← query (originOf (qOriginKey q));
     match old with
     | Some o =>
         if negb (bool_decide (qIntent (rData o) = qIntent q)) then tx_fail conflict
         else mret (false, inl (rData o, false))
     | None =>
         n ← query (openCount (bChild (qBinding q)) (bChildRequest (qBinding q)));
         if (8 <=? n)%nat then tx_fail (Plain "interaction_limit_requires_human")
         else
           insertQuestion q;;
           mret (true, inl (q, true))
     end) fs s.

(** ** Changing *)
Definition Edit : Type := Question → Question + Err.

Definition Change (id scope key hash : string) (fn : Edit) (now : Z) (fs : list bool) (s : Asked)
  : (Question + Err) * Asked * list bool :=
  atomically inr
    (q ← GetQuestion id;
     command ← (if str_empty key then mret None else query (λ s, commands s !! (scope, key)));
     match command with
     | Some (h, question) =>
         if negb (bool_decide (h = hash)) || negb (bool_decide (question = id)) then tx_fail conflict
         else mret (false, inl q)
     | None =>
         match fn q with
         | inr e => tx_fail e
         | inl q' =>
             if bool_decide (q = q') && str_empty key then mret (false, inl q')
             else
               let old := qVersion q' in
               let q' := q' <| qVersion := u64_succ (qVersion q') |> <| qUpdated := now |> in
               n ← updateQuestions (λ r, bool_decide (rID r = id) && (rVersion r =? old)) q';
               if negb (n =? 1)%nat then tx_fail (Plain "interaction_conflict")
               else
                 (if str_empty key then mret tt
                  else exec (λ s, match insertRow (scope, key) (hash, id) (commands s) with
                                  | Some m => inl (tt, s <| commands := m |>)
                                  | None => inr ConstraintError
                                  end));;
                 mret (true, inl q')
         end
     end) fs s.

Definition isPending (q : Question) : bool :=
  bool_decide (qState q = "pending_parent") || bool_decide (qState q = "pending_human").

Section Texts.
Context (hashText : string → string).

Definition answerEdit (key : string) (revision : Z) (actor actorID answer token : string) : Edit := λ q,
  if negb (qRevision q =? revision) then inr (Plain "question_revision_changed")
  else if negb (isPending q) then inr (Plain "answer_already_reserved")
  else if qHumanOnly q && negb (bool_decide (actor = "human")) then inr (Plain "human_answer_required")
  else if str_empty answer || (16000 <? str_len answer) then inr (Plain "invalid_answer")
  else inl (q <| qAnswer := answer |> <| qActor := actor |> <| qActorID := actorID |> <| qAnswerKey := key |>
              <| qAnswerHash := hashText answer |> <| qAckToken := token |> <| qState := "answer_reserved" |>).
Definition Answer (id scope key hash : string) (revision : Z) (actor actorID answer token : string) (now : Z)
  : list bool → Asked → (Question + Err) * Asked * list bool :=
  Change id scope key hash (answerEdit key revision actor actorID answer token) now.

Definition ackEdit (token proof : string) : Edit := λ q,
  if str_empty token || negb (bool_decide (qAckToken q = token)) then inr (Plain "answer_proof_mismatch")
  else if bool_decide (qState q = "resolved") then inl q
  else if negb (bool_decide (qState q = "answer_reserved")) && negb (bool_decide (qState q = "awaiting_consumption"))
  then inr (Plain "answer_not_delivered")
  else inl (q <| qState := "resolved" |> <| qAcknowledgedBy := proof |>).
Definition Acknowledge (id token proof : string) (now : Z) : list bool → Asked → (Question + Err) * Asked * list bool :=
  Change id "" "" "" (ackEdit token proof) now.

Definition escalateEdit : Edit := λ q,
  if negb (isPending q) then inr (Plain "answer_already_reserved")
  else inl (q <| qHumanOnly := true |> <| qState := "pending_human" |>).

(** ** Reading *)
Definition limited (limit : Z) : Z := if (limit <=? 0) || (100 <? limit) then 100 else limit.
Definition ofSession (session : string) (r : QRow) : bool :=
  bool_decide (rChild r = session) || bool_decide (rParent r = session).
Definition List_ (session : string) (limit : Z) (s : Asked) : list Question :=
  take (Z.to_nat (limited limit)) (map rData (filter (λ r, ofSession session r = true) (rev (questions s)))).
Definition OpenForSession (session : string) (s : Asked) : list Question :=
  map rData (filter (λ r, (session = "" ∨ ofSession session r = true) ∧ isPending (rData r) = true) (rev (questions s))).
(** The rows older than [cursor]; none where no row has that id. *)
Definition before (cursor : string) (s : Asked) : list QRow :=
  if str_empty cursor then questions s
  else match list_find (λ r, rID r = cursor) (questions s) with Some (i, _) => take i (questions s) | None => [] end.
Definition ListPage (session cursor : string) (limit : Z) (s : Asked) : list Question * string :=
  let limit := Z.to_nat (limited limit) in
  let out := take (S limit) (map rData (filter (λ r, session = "" ∨ ofSession session r = true) (rev (before cursor s)))) in
  if (limit <? length out)%nat then (take limit out, from_option qID "" (last (take limit out))) else (out, "").

(** Whether the scheduler must look at the row. *)
Definition finalStates : list string := ["resolved"; "expired"; "cancelled"; "orphaned"; "native_reply_written"].
Definition unrelayed (s : Asked) (r : QRow) : bool :=
  let q := rData r in
  (qAuthorityVersion q =? 0) && negb (bool_decide (bParentAuthority (qBinding q) = bAuthority (qBinding q))) &&
  (default 0 (receipts s !! rID r) <? rVersion r).
Definition due (s : Asked) (r : QRow) : bool := negb (bool_decide (qState (rData r) ∈ finalStates)) || unrelayed s r.
Fixpoint numberedFrom (n : Z) (l : list QRow) : list (Z * QRow) :=
  match l with [] => [] | r :: l => (n, r) :: numberedFrom (n + 1) l end.
Definition page (s : Asked) : list (Z * QRow) :=
  take 256 (filter (λ x : Z * QRow, pendingCursor s < x.1 ∧ due s x.2 = true) (numberedFrom 1 (questions s))).

(** [broken]: after how many rows reading them fails, if it does. *)
Definition Pending (broken : option nat) (fs : list bool) (s : Asked) : (list Question + Err) * Asked * list bool :=
  let '(bad, fs) := fault fs in
  if bad then (inr SqlError, s, fs)
  else
    let rows := page s in
    let read := match broken with Some n => take n rows | None => rows end in
    let cursor := from_option fst (pendingCursor s) (last read) in
    match broken with
    | Some _ => (inr SqlError, s <| pendingCursor := cursor |>, fs)
    | None =>
        (inl (map (λ x : Z * QRow, rData x.2) read),
         s <| pendingCursor := if (length read <? 256)%nat then 0 else cursor |>, fs)
    end.

(** ** Control messages *)
Definition CheckControl (id question target hash : string) : Tx Asked () :=
  row ← query (λ s, controls s !! id);
  match row with
  | None => tx_fail NoRows
  | Some (q, t, h) =>
      if negb (bool_decide (q = question)) || negb (bool_decide (t = target)) ||
         (negb (str_empty hash) && negb (bool_decide (h = hash)))
      then tx_fail (Plain "interaction_control_binding_changed")
      else mret tt
  end.
(** The two statements are not one transaction. *)
Definition ReserveControl (id question target hash : string) (fs : list bool) (s : Asked) : option Err * Asked * list bool :=
  match single Some (exec_ (λ s, s <| controls := insertOrIgnore id (question, target, hash) (controls s) |>);; mret None) fs s with
  | (Some e, s, fs) => (Some e, s, fs)
  | (None, s, fs) => single Some (CheckControl id question target hash;; mret None) fs s
  end.

(** ** Other instances *)
Definition replicaKey (q : Question) : string := "replica:" +:+ bAuthority (qBinding q) +:+ ":" +:+ qID q.

Definition Import (remote : Question) (fs : list bool) (s : Asked) : (Question + Err) * Asked * list bool :=
  if str_empty (qID remote) || str_empty (bAuthority (qBinding remote)) ||
     bool_decide (bParentAuthority (qBinding remote) = bAuthority (qBinding remote))
  then (inr (Plain "invalid_remote_interaction"), s, fs)
  else
    atomically inr
      (row ← query (questionOf (qID remote));
       let remote := remote <| qAckToken := "" |> <| qOriginKey := replicaKey remote |> in
       match row with
       | Some r =>
           let old := rData r in
           if negb (bool_decide (qBinding old = qBinding remote)) || negb (bool_decide (qIntent old = qIntent remote))
           then tx_fail (Plain "remote_interaction_conflict")
           else if qVersion remote <=? qAuthorityVersion old then mret (false, inl old)
           else
             let q := remote <| qVersion := u64_succ (qVersion old) |> <| qAuthorityVersion := qVersion remote |>
                        <| qNotification := qNotification old |> <| qNotificationRequest := qNotificationRequest old |> in
             _ ← updateQuestions (λ r, bool_decide (rID r = qID q)) q;
             mret (true, inl q)
       | None =>
           let q := remote <| qAuthorityVersion := qVersion remote |> in
           insertQuestion q;;
           mret (true, inl q)
       end) fs s.

(** 0 where the query fails. *)
Definition RelayVersion (id : string) (fs : list bool) (s : Asked) : Z * list bool :=
  let '(bad, fs) := fault fs in (if bad then 0 else default 0 (receipts s !! id), fs).
Definition RelayAccepted (id : string) (v : Z) : Tx Asked () :=
  unsignedArg v;;
  exec_ (λ s, s <| receipts := <[id := match receipts s !! id with Some w => Z.max w v | None => v end]> (receipts s) |>).

Definition RemoteCommand (scope key : string) : Tx Asked (option string) :=
  query (λ s, (λ x : string * string * string, x.2) <$> (outbox s !! (scope, key))).
Definition RemoteComplete (scope key : string) : Tx Asked () :=
  exec_ (λ s, s <| outbox := alter (λ x : string * string * string, (x.1, "complete")) (scope, key) (outbox s) |>).
(** The question of a command. *)
Definition Command (scope key : string) : Tx Asked (option Question) :=
  command ← query (λ s, commands s !! (scope, key));
  match command with
  | None => mret None
  | Some (_, id) => q ← GetQuestion id; mret (Some q)
  end.

(** Whether this call reserved the command. *)
Definition ReserveRemoteOnce (scope key hash id : string) (fs : list bool) (s : Asked) : (bool + Err) * Asked * list bool :=
  atomically inr
    (fresh ← exec (λ s, inl (bool_decide (outbox s !! (scope, key) = None),
                             s <| outbox := insertOrIgnore (scope, key) (hash, id, "unknown") (outbox s) |>));
     row ← query (λ s, outbox s !! (scope, key));
     match row with
     | None => tx_fail NoRows
     | Some (h, q, _) =>
         if negb (bool_decide (h = hash)) || negb (bool_decide (q = id)) then tx_fail conflict
         else mret (true, inl fresh)
     end) fs s.
(** ** The host *)
Context (self : string) (wakeText answerText : Question → string).

(** The zero value of the struct, and what the host fills in. *)
Definition zeroBinding : Binding := mkBinding "" "" "" "" "" "" "" "" 0 "" "" 0 "".
Definition zeroQuestion : Question :=
  mkQuestion "" "" [] 0 "" "" zeroBinding "" "" "" "" "" [] "" false false "" 0 0 "" "" "" "" "" "" "" "" "" "" "" 0 0.
Record Caller := mkCaller {
  cSession : string; cResume : string; cRequest : string; cTurn : string; cTool : string; cScope : string; cHuman : bool }.
Definition lane (c : Caller) : string := self +:+ ":" +:+ cSession c.
Definition proposal (c : Caller) (b : Binding) (text kind : string) (options : list string) (blocking : bool) : Question :=
  zeroQuestion <| qBinding := b |> <| qProducer := cRequest c |> <| qRoute := [lane c] |> <| qNativeCall := cTool c |>
    <| qNativeTurn := cTurn c |> <| qText := text |> <| qOptions := options |> <| qKind := kind |>
    <| qBlocking := blocking |> <| qHumanOnly := negb (bool_decide (kind = "task_clarification")) |>.

(** [strings.TrimPrefix]. *)
Definition trimPrefix (p t : string) : string :=
  if has_prefix p t then String.substring (String.length p) (String.length t - String.length p) t else t.

(** The question that a parent forwards upwards. *)
Definition forwarded (c : Caller) (lowerValid : option Err) (q : Question) (fs : list bool) (s : Asked)
  : (Question + Err) * list bool :=
  if has_prefix "tiwake_" (cRequest c)
  then
    match single inr (lower ← GetQuestion (trimPrefix "tiwake_" (cRequest c)); mret (inl lower)) fs s with
    | (inl lower, _, fs) =>
        match lowerValid with
        | Some _ => (inr (Plain "interaction_source_changed"), fs)
        | None => (inl (q <| qSource := qID lower |> <| qRoute := qRoute lower ++ [lane c] |>), fs)
        end
    | (inr _, _, fs) => (inr (Plain "interaction_source_changed"), fs)
    end
  else (inl q, fs).

(** [binding], [lowerValid], [valid] and [check]: what [interactionBinding],
    [validInteraction] for the lower question and for this one, and the caller's
    check answer. *)
Definition askParent (c : Caller) (binding : Binding + Err) (text kind : string) (options : list string) (blocking : bool)
    (origin intent : string) (lowerValid valid check : option Err) (id : string) (now : Z) (fs : list bool) (s : Asked)
  : ((Question * bool) + Err) * Asked * list bool :=
  if str_empty (cSession c) || str_empty (cTool c) || str_empty text then (inr (Plain "caller_unbound"), s, fs)
  else
    match binding with
    | inr e => (inr e, s, fs)
    | inl b =>
        match forwarded c lowerValid (proposal c b text kind options blocking) fs s with
        | (inr e, fs) => (inr e, s, fs)
        | (inl q, fs) =>
            if (8 <? length (qRoute q))%nat then (inr (Plain "interaction_lineage_limit"), s, fs)
            else if bool_decide (bParentAuthority b +:+ ":" +:+ bParent b ∈ qRoute q)
            then (inr (Plain "interaction_lineage_cycle"), s, fs)
            else
              let q := q <| qOriginKey := origin |> <| qIntent := intent |> in
              match valid with
              | Some e => (inr e, s, fs)
              | None =>
                  let '(bad, fs) := fault fs in
                  if bad then (inr SqlError, s, fs)
                  else
                    let pending := countb (λ r, bool_decide (bChild (qBinding r) = cSession c) &&
                      bool_decide (bChildRequest (qBinding r) = cRequest c) && negb (bool_decide (qState r = "resolved")) &&
                      negb (bool_decide (qState r = "orphaned")) && negb (bool_decide (qOriginKey r = origin)))
                      (List_ (cSession c) 100 s) in
                    if (8 <=? pending)%nat then (inr (Plain "interaction_limit_requires_human"), s, fs)
                    else match check with Some e => (inr e, s, fs) | None => Create id q now fs s end
              end
        end
    end.

(** A question of the native tool: only a human may answer it. *)
Definition observed (b : Binding) (request session call turn text kind native : string) (blocking : bool)
    (origin intent : string) : Question :=
  zeroQuestion <| qBinding := b |> <| qProducer := request |> <| qRoute := [self +:+ ":" +:+ session] |>
    <| qNativeCall := call |> <| qNativeTurn := turn |> <| qText := text |> <| qKind := kind |> <| qHumanOnly := true |>
    <| qBlocking := blocking |> <| qNativeQuestion := native |> <| qOriginKey := origin |> <| qIntent := intent |>.

(** *** Questions of another instance *)

(** What came back from a peer: an error, or its record and whether it knows
    the command. *)
Definition validateRemoteInteraction (q : Question) (lineage : option Err) : option Err :=
  let b := qBinding q in
  if negb (bool_decide (bKind b = "controller")) || negb (bool_decide (bParentAuthority b = self)) ||
     bool_decide (bAuthority b = self)
  then Some (Plain "interaction_remote_lineage_unavailable") else lineage.

(** The outcome of an action: a question, or [None] where the submission is
    unknown; and what was sent to the peer, if anything. *)
Definition Outcome : Type := ((option Question + Err) * option string) * Asked * list bool.
Definition refuse_ (e : Err) (fs : list bool) (s : Asked) : Outcome := ((inr e, None), s, fs).
Definition local (x : (Question + Err) * Asked * list bool) : Outcome :=
  let '(r, s, fs) := x in ((match r with inl q => inl (Some q) | inr e => inr e end, None), s, fs).

Definition remoteInteractionCommand (c : Caller) (q : Question) (lineage : option Err) (action key hash : string)
    (reply : option (Question * bool)) (fs : list bool) (s : Asked) : Outcome :=
  match validateRemoteInteraction q lineage with
  | Some e => refuse_ e fs s
  | None =>
      if negb (cHuman c) && (negb (bool_decide (cSession c = bParent (qBinding q))) ||
                             negb (bool_decide (cResume c = bParentThread (qBinding q))))
      then refuse_ (Plain "interaction_parent_required") fs s
      else
        match ReserveRemoteOnce (cScope c) key hash (qID q) fs s with
        | (inr e, s, fs) => refuse_ e fs s
        | (inl fresh, s, fs) =>
            let sent := Some (if fresh then action else "receipt") in
            match reply with
            | None => ((inl None, sent), s, fs)
            | Some (record, found) =>
                if negb (bool_decide (qID record = qID q))
                then ((inr (Plain "interaction_remote_binding_mismatch"), sent), s, fs)
                else
                  match Import record fs s with
                  | (inr e, s, fs) => ((inr e, sent), s, fs)
                  | (inl r, s, fs) =>
                      let '(_, s, fs) := if found
                        then single (λ _, tt) (RemoteComplete (cScope c) key) fs s else (tt, s, fs) in
                      ((inl (Some r), sent), s, fs)
                  end
            end
        end
  end.

(** [serveInteractionPeer] when a peer offers a question. *)
Definition acceptSync (origin parent : string) (record : Question) (lineage : option Err) (runes : Z) (fs : list bool)
    (s : Asked) : (Question + Err) * Asked * list bool :=
  let b := qBinding record in
  if negb (bool_decide (bAuthority b = origin)) || negb (bool_decide (bParent b = parent)) ||
     negb (bool_decide (bParentAuthority b = self)) || str_empty (qID record) || (8000 <? runes)
  then (inr (Plain "interaction_remote_binding_mismatch"), s, fs)
  else
    match validateRemoteInteraction record lineage with
    | Some e => (inr e, s, fs)
    | None =>
        match Import record fs s with
        | (inl q, s, fs) => (inl q, s, fs)
        | (inr _, s, fs) => (inr (Plain "interaction_remote_conflict"), s, fs)
        end
    end.

(** Whether a peer may act on a question of this instance. *)
Definition peerMayAct (origin parent thread actor actorID key : string) (q : Question) (valid : option Err) : option Err :=
  let b := qBinding q in
  if negb (bool_decide (bAuthority b = self)) || negb (bool_decide (bParentAuthority b = origin)) ||
     negb (bool_decide (bParent b = parent)) || negb (bool_decide (bParentThread b = thread))
  then Some (Plain "interaction_remote_binding_mismatch")
  else
    match valid with
    | Some e => Some e
    | None =>
        if negb (bool_decide (actor = "human")) && negb (bool_decide (actor = "parent_agent"))
        then Some (Plain "interaction_actor_invalid")
        else if bool_decide (actor = "parent_agent") && negb (bool_decide (actorID = "session:" +:+ bParent b))
        then Some (Plain "interaction_actor_invalid")
        else if bool_decide (actor = "human") && negb (has_prefix "device:" actorID)
        then Some (Plain "interaction_actor_invalid")
        else if str_empty key || (160 <? str_len key) then Some (Plain "interaction_original_key_required")
        else None
    end.
Inductive PeerAction := PeerAnswer (revision : Z) (text token : string) | PeerEscalate | PeerReceipt.
(** The answer to the peer: the question, and whether the command is known. *)
Definition receipted (scope key : string) (x : (Question + Err) * Asked * list bool)
  : ((Question * bool) + Err) * Asked * list bool :=
  let '(r, s, fs) := x in
  match r with
  | inr e => (inr e, s, fs)
  | inl q =>
      match single inr (command ← Command scope key; mret (inl command)) fs s with
      | (inr _, s, fs) => (inr (Plain "interaction_receipt_mismatch"), s, fs)
      | (inl (Some known), s, fs) =>
          if negb (bool_decide (qID known = qID q)) then (inr (Plain "interaction_receipt_mismatch"), s, fs)
          else (inl (q, true), s, fs)
      | (inl None, s, fs) => (inl (q, false), s, fs)
      end
  end.
(** [hash] is the digest of the action. *)
Definition servePeer (origin parent thread actor actorID key hash id : string) (action : PeerAction) (valid : option Err)
    (mayWrite : bool) (now : Z) (fs : list bool) (s : Asked) : ((Question * bool) + Err) * Asked * list bool :=
  match single inr (q ← GetQuestion id; mret (inl q)) fs s with
  | (inr _, s, fs) => (inr (Plain "interaction_remote_binding_mismatch"), s, fs)
  | (inl q, s, fs) =>
      match peerMayAct origin parent thread actor actorID key q valid with
      | Some e => (inr e, s, fs)
      | None =>
          let scope := "peer:" +:+ origin +:+ ":" +:+ actorID in
          receipted scope key
            match action with
            | PeerAnswer revision text token =>
                if negb (str_empty (qNativeQuestion q))
                then (inr (Plain "native_human_question_use_original_reply"), s, fs)
                else if negb mayWrite then (inr (Plain "interaction_child_desktop_owned"), s, fs)
                else Answer (qID q) scope key hash revision actor actorID text token now fs s
            | PeerEscalate => Change (qID q) scope key hash escalateEdit now fs s
            | PeerReceipt => (inl q, s, fs)
            end
      end
  end.

(** Asking a peer what became of a command. *)
Definition remoteInteractionReceipt (c : Caller) (q : Question) (lineage : option Err) (key : string)
    (reply : option (Question * bool)) (fs : list bool) (s : Asked) : (option Question + Err) * Asked * list bool :=
  match validateRemoteInteraction q lineage, reply with
  | Some e, _ => (inr e, s, fs)
  | None, None => (inl None, s, fs)
  | None, Some (record, found) =>
      if negb (bool_decide (qID record = qID q)) then (inr (Plain "interaction_remote_binding_mismatch"), s, fs)
      else
        match Import record fs s with
        | (inr e, s, fs) => (inr e, s, fs)
        | (inl r, s, fs) =>
            let '(_, s, fs) := if found : bool
              then single (λ _, tt) (RemoteComplete (cScope c) key) fs s else (tt, s, fs) in
            (inl (Some r), s, fs)
        end
  end.

(** *** The actions on a question that the caller sees *)
Definition queryEdit : Edit := λ q, inl (q <| qNotification := "parent_queried" |>).
Definition get (c : Caller) (q : Question) (now : Z) (fs : list bool) (s : Asked) : (Question + Err) * Asked * list bool :=
  if bool_decide (cSession c = bParent (qBinding q)) then Change (qID q) "" "" "" queryEdit now fs s else (inl q, s, fs).

(** Whether the caller continues the work that asked; [running]: the message of
    this request runs in the child. *)
Definition interactionChildCaller (c : Caller) (q : Question) (running : bool) (fs : list bool) (s : Asked) : bool * list bool :=
  if bool_decide (cRequest c = qProducer q) then (true, fs)
  else if negb (bool_decide (cRequest c = "tianswer_" +:+ qID q)) || str_empty (qAnswer q) then (false, fs)
  else
    match single Some (CheckControl (cRequest c) (qID q) (bChild (qBinding q)) "";; mret None) fs s with
    | (Some _, _, fs) => (false, fs)
    | (None, _, fs) => (running, fs)
    end.

Record Verdict := mkVerdict { vValid : option Err; vCheck : option Err; vMayWrite : bool; vLineage : option Err;
                              vReply : option (Question * bool) }.
Definition answer (c : Caller) (q : Question) (v : Verdict) (key hash : string) (revision : Z) (text token : string)
    (now : Z) (fs : list bool) (s : Asked) : Outcome :=
  match vValid v with
  | Some e => refuse_ e fs s
  | None =>
      if negb (cHuman c) && (negb (bool_decide (cSession c = bParent (qBinding q))) ||
                             negb (bool_decide (cResume c = bParentThread (qBinding q))))
      then refuse_ (Plain "interaction_parent_required") fs s
      else if negb (bool_decide (bAuthority (qBinding q) = self))
      then
        match vCheck v with
        | Some e => refuse_ e fs s
        | None => remoteInteractionCommand c q (vLineage v) "answer" key hash (vReply v) fs s
        end
      else if negb (vMayWrite v) then refuse_ (Plain "interaction_child_desktop_owned") fs s
      else if negb (str_empty (qNativeQuestion q)) then refuse_ (Plain "native_human_question_use_original_reply") fs s
      else
        match vCheck v with
        | Some e => refuse_ e fs s
        | None =>
            local (Answer (qID q) (cScope c) key hash revision (if cHuman c then "human" else "parent_agent") (cScope c)
                     text token now fs s)
        end
  end.
Definition escalate (c : Caller) (q : Question) (v : Verdict) (key hash : string) (now : Z) (fs : list bool) (s : Asked)
  : Outcome :=
  match vValid v with
  | Some e => refuse_ e fs s
  | None =>
      if negb (cHuman c) && negb (bool_decide (cSession c = bParent (qBinding q)))
      then refuse_ (Plain "interaction_parent_required") fs s
      else
        match vCheck v with
        | Some e => refuse_ e fs s
        | None =>
            if negb (bool_decide (bAuthority (qBinding q) = self))
            then remoteInteractionCommand c q (vLineage v) "escalate" key hash (vReply v) fs s
            else local (Change (qID q) (cScope c) key hash escalateEdit now fs s)
        end
  end.
Definition ack (c : Caller) (q : Question) (child : bool) (check : option Err) (token : string) (now : Z) (fs : list bool)
    (s : Asked) : (Question + Err) * Asked * list bool :=
  if negb child then (inr (Plain "interaction_original_child_required"), s, fs)
  else
    match check with
    | Some e => (inr e, s, fs)
    | None => Acknowledge (qID q) token (cRequest c +:+ ":" +:+ cTurn c +:+ ":" +:+ cTool c) now fs s
    end.

(** *** What the executor reports of a native question *)
Definition nativeEdit (status : string) : Edit := λ q,
  if negb (bool_decide (qState q = "pending_human")) then inl q
  else if bool_decide (status = "resolved") then inl (q <| qState := "native_reply_written" |> <| qActor := "human" |>)
  else if bool_decide (status = "expired") then inl (q <| qState := "orphaned" |> <| qError := "native_question_expired" |>)
  else if bool_decide (status = "cancelled") then inl (q <| qState := "cancelled" |>)
  else inl q.
(** The effect of a change whose result is not used. *)
Definition change_ (id : string) (fn : Edit) (now : Z) (fs : list bool) (s : Asked) : Asked * list bool :=
  let '(_, s, fs) := Change id "" "" "" fn now fs s in (s, fs).
Fixpoint resolveNative (native status : string) (l : list Question) (now : Z) (fs : list bool) (s : Asked)
  : Asked * list bool :=
  match l with
  | [] => (s, fs)
  | q :: l =>
      if negb (bool_decide (qNativeQuestion q = native)) || negb (bool_decide (bAuthority (qBinding q) = self))
      then resolveNative native status l now fs s
      else
        let '(s, fs) := change_ (qID q) (nativeEdit status) now fs s in
        resolveNative native status l now fs s
  end.
Definition observeInteractionResolution (session request status : string) (now : Z) (fs : list bool) (s : Asked)
  : Asked * list bool :=
  if has_prefix "ti_" request then (s, fs)
  else
    let '(bad, fs) := fault fs in
    if bad then (s, fs) else resolveNative request status (OpenForSession session s) now fs s.

(** ** Reconciliation *)

(** What the host finds elsewhere when it looks at a row.  [sLost] is what a
    change that fails gives back beside its error. *)
Inductive Answered := RemoteAccepted | RemoteUnsupported | RemoteUnavailable.
Record Sight := mkSight {
  sValid : option string; sValidAgain : option Err; sLive : option bool; sChildFree : bool; sProducerDone : bool;
  sContinuation : option State; sParentKnown : bool; sParentFree : bool; sWake : option State;
  sQueued : option bool + Err; sAccepted : bool; sRemote : Answered; sLost : Question }.

(** [queued]: whether a message is queued under this request, and whether it
    has this content. *)
Definition reserveInteractionControl (queued : option bool + Err) (q : Question) (target request content : string)
    (fs : list bool) (s : Asked) : option Err * Asked * list bool :=
  match queued with
  | inr e => (Some e, s, fs)
  | inl None => ReserveControl request (qID q) target (hashText content) fs s
  | inl (Some same) =>
      match single Some (CheckControl request (qID q) target (hashText content);; mret None) fs s with
      | (Some e, s, fs) => (Some e, s, fs)
      | (None, s, fs) =>
          if same then ReserveControl request (qID q) target (hashText content) fs s
          else (Some (Plain "interaction_control_collision"), s, fs)
      end
  end.

Definition lapsedEdit : Edit := λ q,
  inl (if negb (bool_decide (qState q = "resolved"))
       then q <| qError := "answer_continuation_not_acknowledged; inspect original receipt, do not replay" |> else q).
Definition awaitEdit : Edit := λ q,
  inl (if bool_decide (qState q = "answer_reserved") then q <| qState := "awaiting_consumption" |> else q).
Definition orphanEdit (reason : string) : Edit := λ q, inl (q <| qState := "orphaned" |> <| qError := reason |>).
Definition noticeEdit (state request : string) : Edit := λ q,
  inl (q <| qNotification := state |> <| qNotificationRequest := request |>).
Definition deferredEdit : Edit := λ q, inl (q <| qNotification := "deferred_parent_busy" |>).
Definition remoteEdit (state reason : string) : Edit := λ q, inl (q <| qNotification := state |> <| qError := reason |>).
Definition resumeAnsweredInteraction (q : Question) (v : Sight) (now : Z) (fs : list bool) (s : Asked) : Asked * list bool :=
  if (negb (bool_decide (qState q = "answer_reserved")) && negb (bool_decide (qState q = "awaiting_consumption"))) ||
     negb (str_empty (qNativeQuestion q)) then (s, fs)
  else if negb (sChildFree v) then (s, fs)
  else if negb (sProducerDone v) then (s, fs)
  else
    let id := "tianswer_" +:+ qID q in
    match sContinuation v with
    | Some state =>
        if bool_decide (state ∈ [Failed; Uncertain; Cancelled; Completed]) then change_ (qID q) lapsedEdit now fs s
        else (s, fs)
    | None =>
        match sValidAgain v with
        | Some _ => (s, fs)
        | None =>
            match reserveInteractionControl (sQueued v) q (bChild (qBinding q)) id (answerText q) fs s with
            | (Some _, s, fs) => (s, fs)
            | (None, s, fs) => if sAccepted v then change_ (qID q) awaitEdit now fs s else (s, fs)
            end
        end
    end.

Definition syncInteractionRemote (q : Question) (v : Sight) (now : Z) (fs : list bool) (s : Asked) : Asked * list bool :=
  if negb (bool_decide (bAuthority (qBinding q) = self)) || negb (bool_decide (bKind (qBinding q) = "controller"))
  then (s, fs)
  else
    let '(relayed, fs) := RelayVersion (qID q) fs s in
    if qVersion q <=? relayed then (s, fs)
    else
      match sRemote v with
      | RemoteAccepted =>
          let '(_, s, fs) := single (λ _, tt) (RelayAccepted (qID q) (qVersion q)) fs s in
          if bool_decide (qNotification q ∈ ["remote_unavailable"; "remote_unsupported"])
          then change_ (qID q) (remoteEdit "accepted_by_remote_inbox" "") now fs s else (s, fs)
      | RemoteUnsupported => change_ (qID q) (remoteEdit "remote_unsupported" "父端尚未支援派工問答；請在來源子工作回答。") now fs s
      | RemoteUnavailable => change_ (qID q) (remoteEdit "remote_unavailable" "父端問題通知尚未確認；可在來源子工作回答。") now fs s
      end.

Definition noticeOf (state : State) : string :=
  match state with
  | Completed => "processed_parent_turn"
  | Failed | Uncertain | Cancelled => "failed"
  | _ => "accepted_by_parent_inbox"
  end.

(** The rest of the loop, for a parent of this instance. *)
Definition notifyParent (q : Question) (v : Sight) (now : Z) (fs : list bool) (s : Asked) : Asked * list bool :=
  if negb (isPending q) then (s, fs)
  else if negb (str_empty (qAnswer q)) || bool_decide (qNotification q ∈ ["parent_queried"; "processed_parent_turn"; "failed"])
  then (s, fs)
  else if negb (sParentKnown v) then (s, fs)
  else
    let parent := bParent (qBinding q) in
    let request := "tiwake_" +:+ qID q in
    match sWake v with
    | Some entry =>
        match single Some (CheckControl request (qID q) parent "";; mret None) fs s with
        | (Some _, s, fs) => (s, fs)
        | (None, s, fs) =>
            if bool_decide (noticeOf entry = qNotification q) then (s, fs)
            else change_ (qID q) (noticeEdit (noticeOf entry) request) now fs s
        end
    | None =>
        if negb (sParentFree v)
        then if bool_decide (qNotification q = "deferred_parent_busy") then (s, fs) else change_ (qID q) deferredEdit now fs s
        else
          match reserveInteractionControl (sQueued v) q parent request (wakeText q) fs s with
          | (Some _, s, fs) => (s, fs)
          | (None, s, fs) =>
              if sAccepted v then change_ (qID q) (noticeEdit "accepted_by_parent_inbox" request) now fs s else (s, fs)
          end
    end.

(** One row of the loop of [reconcileInteractions], and what it publishes. *)
Definition reconcileRow (q : Question) (v : Sight) (now : Z) (fs : list bool) (s : Asked)
  : list Question * Asked * list bool :=
  match sValid v with
  | Some e =>
      match Change (qID q) "" "" "" (orphanEdit e) now fs s with
      | (inl q, s, fs) => ([q], s, fs)
      | (inr _, s, fs) => ([sLost v], s, fs)
      end
  | None =>
      let '(q, s, fs) :=
        if negb (str_empty (qNativeQuestion q)) && bool_decide (qState q = "pending_human") &&
           bool_decide (bAuthority (qBinding q) = self) && negb (has_prefix "ui_async_" (qNativeQuestion q)) &&
           bool_decide (sLive v = Some false)
        then
          match Change (qID q) "" "" "" (orphanEdit "native_question_handle_lost") now fs s with
          | (inl q, s, fs) => (q, s, fs)
          | (inr _, s, fs) => (sLost v, s, fs)
          end
        else (q, s, fs) in
      let '(s, fs) :=
        if negb (str_empty (qAnswer q)) && bool_decide (bAuthority (qBinding q) = self)
        then resumeAnsweredInteraction q v now fs s else (s, fs) in
      let '(s, fs) :=
        if negb (bool_decide (bParentAuthority (qBinding q) = self)) then syncInteractionRemote q v now fs s
        else notifyParent q v now fs s in
      ([], s, fs)
  end.

(** Whether the active turn of a session waits for an answer. *)
Definition TaskInteractionWaiting (active session : string) (fs : list bool) (s : Asked) : bool :=
  negb (fault fs).1 &&
  existsb (λ q, bool_decide (active = qProducer q) && bool_decide (bChild (qBinding q) = session) && qBlocking q &&
                str_empty (qAnswer q) && isPending q) (OpenForSession session s).

(** ** Histories

    An action names a question, which the host reads first; a row is
    reconciled as it was read, perhaps long ago. *)
Inductive aop :=
  | OpAsk (c : Caller) (binding : Binding + Err) (text kind : string) (options : list string) (blocking : bool)
      (origin intent : string) (lowerValid valid check : option Err) (id : string) (now : Z)
  | OpObserve (b : Binding) (request session call turn text kind native : string) (blocking : bool)
      (origin intent id : string) (now : Z)
  | OpGet (c : Caller) (id : string) (now : Z)
  | OpAnswer (c : Caller) (id : string) (v : Verdict) (key hash : string) (revision : Z) (text token : string) (now : Z)
  | OpEscalate (c : Caller) (id : string) (v : Verdict) (key hash : string) (now : Z)
  | OpAck (c : Caller) (id : string) (child : bool) (check : option Err) (token : string) (now : Z)
  | OpReceipt (c : Caller) (id : string) (lineage : option Err) (key : string) (reply : option (Question * bool))
  | OpSync (origin parent : string) (record : Question) (lineage : option Err) (runes : Z)
  | OpPeer (origin parent thread actor actorID key hash id : string) (action : PeerAction) (valid : option Err)
      (mayWrite : bool) (now : Z)
  | OpNative (session request status : string) (now : Z)
  | OpPending (broken : option nat)
  | OpReconcile (q : Question) (v : Sight) (now : Z).

Definition withQuestion (id : string) (f : Question → list bool → Asked → Asked) (fs : list bool) (s : Asked) : Asked :=
  match GetQuestion id fs s with
  | (fs, inl (q, s)) => f q fs s
  | (_, inr _) => s
  end.
Definition stepAsked (o : aop) (fs : list bool) (s : Asked) : Asked :=
  match o with
  | OpAsk c binding text kind options blocking origin intent lowerValid valid check id now =>
      (askParent c binding text kind options blocking origin intent lowerValid valid check id now fs s).1.2
  | OpObserve b request session call turn text kind native blocking origin intent id now =>
      (Create id (observed b request session call turn text kind native blocking origin intent) now fs s).1.2
  | OpGet c id now => withQuestion id (λ q fs s, (get c q now fs s).1.2) fs s
  | OpAnswer c id v key hash revision text token now =>
      withQuestion id (λ q fs s, (answer c q v key hash revision text token now fs s).1.2) fs s
  | OpEscalate c id v key hash now => withQuestion id (λ q fs s, (escalate c q v key hash now fs s).1.2) fs s
  | OpAck c id child check token now => withQuestion id (λ q fs s, (ack c q child check token now fs s).1.2) fs s
  | OpReceipt c id lineage key reply =>
      withQuestion id (λ q fs s, (remoteInteractionReceipt c q lineage key reply fs s).1.2) fs s
  | OpSync origin parent record lineage runes => (acceptSync origin parent record lineage runes fs s).1.2
  | OpPeer origin parent thread actor actorID key hash id action valid mayWrite now =>
      (servePeer origin parent thread actor actorID key hash id action valid mayWrite now fs s).1.2
  | OpNative session request status now => (observeInteractionResolution session request status now fs s).1
  | OpPending broken => (Pending broken fs s).1.2
  | OpReconcile q v now => (reconcileRow q v now fs s).1.2
  end.
Definition runAsked (l : list (aop * list bool)) (s : Asked) : Asked := foldl (λ s x, stepAsked x.1 x.2 s) s l.
End Texts.
