(* ===== verification/InteractionProps.v ===== *)
(** * What the questions of child work guarantee

    Over any history, whatever statements fail: a reserved answer is final and a
    question for humans is answered by a human ([reserved_answer_is_final]), a
    request has at most eight open questions ([open_questions_are_bounded]), and
    a question whose parent is on another instance can be lost to it for ever
    ([orphaned_question_is_never_relayed]).  Every operation is a sequence of
    steps on the rows ([qstep]), whose invariant is [asked_ok]. *)
From S2P Require Import Prelude Orders Sql MessageQueue Interactions.

(** ** What an edit of a question keeps *)
Definition reservedPart (q : Question) : string * string * string * string * string * string * bool :=
  (qAnswer q, qActor q, qActorID q, qAnswerKey q, qAnswerHash q, qAckToken q, qHumanOnly q).
Record edited (q q' : Question) : Prop := mkEdited {
  ed_id : qID q' = qID q;
  ed_binding : qBinding q' = qBinding q;
  ed_authority : qAuthorityVersion q' = qAuthorityVersion q;
  ed_version : qVersion q' = qVersion q;
  ed_pending : isPending q' = true → isPending q = true;
  ed_open : qState q' ∈ openStates → qState q ∈ openStates;
  ed_kept : isPending q = false → reservedPart q' = reservedPart q;
  ed_answered : qAnswer q' = qAnswer q ∧ qAckToken q' = qAckToken q ∨
    isPending q' = false ∧ qAnswer q' ≠ "" ∧ (qHumanOnly q' = true → qActor q' = "human");
  ed_resolved : qState q' = "resolved" → qState q = "resolved" ∨ qAckToken q ≠ "" }.
Definition lawful (fn : Edit) : Prop := ∀ q q', fn q = inl q' → edited q q'.
Lemma pending_state q : isPending q = true ↔ qState q = "pending_parent" ∨ qState q = "pending_human".
Proof. unfold isPending. by rewrite orb_true_iff, !bool_decide_eq_true. Qed.
Lemma pending_open q : isPending q = true → qState q ∈ openStates.
Proof. intros [-> | ->]%pending_state; unfold openStates; set_solver. Qed.

(** An edit of other fields than the reserved ones, to a state that is not
    waiting for an answer and is open only if it was. *)
Lemma lawful_other fn :
  (∀ q q', fn q = inl q' → qID q' = qID q ∧ qBinding q' = qBinding q ∧ qAuthorityVersion q' = qAuthorityVersion q ∧
     qVersion q' = qVersion q ∧ reservedPart q' = reservedPart q ∧
     (qState q' = qState q ∨ (isPending q' = false ∧ qState q' ≠ "resolved" ∧ (qState q' ∈ openStates → qState q ∈ openStates)))) →
  lawful fn.
Proof.
  intros H q q' E. destruct (H q q' E) as (H1 & H2 & H3 & H4 & H5 & H6).
  assert (qAnswer q' = qAnswer q ∧ qAckToken q' = qAckToken q) as H7 by (unfold reservedPart in H5; by simplify_eq).
  split; try done; try (by left).
  - destruct H6 as [Hs|[-> _]]; [|done]. unfold isPending. by rewrite Hs.
  - destruct H6 as [->|[_ [_ Ho]]]; done.
  - destruct H6 as [->|[_ [Hr _]]]; [by left|done].
Qed.
Create HintDb edits.
Ltac other_edit := apply lawful_other; intros q q' [= <-]; split_and!; try reflexivity; by left.
Lemma lawful_query : lawful queryEdit. Proof. other_edit. Qed.
Lemma lawful_notice a b : lawful (noticeEdit a b). Proof. other_edit. Qed.
Lemma lawful_deferred : lawful deferredEdit. Proof. other_edit. Qed.
Lemma lawful_remote a b : lawful (remoteEdit a b). Proof. other_edit. Qed.
Lemma lawful_lapsed : lawful lapsedEdit.
Proof. apply lawful_other. intros q q' [= <-]. destruct (negb _); split_and!; try reflexivity; by left. Qed.
Lemma lawful_orphan e : lawful (orphanEdit e).
Proof. apply lawful_other. intros q q' [= <-]. split_and!; try reflexivity. right. split_and!; [done..|]. cbn. unfold openStates. set_solver. Qed.
Lemma lawful_await : lawful awaitEdit.
Proof.
  apply lawful_other. intros q q' [= <-]. case_bool_decide as E; split_and!; try reflexivity; [right|by left].
  split_and!; [done..|]. rewrite E. intros _. unfold openStates. set_solver.
Qed.
Lemma lawful_ack token proof : lawful (ackEdit token proof).
Proof.
  intros q q'. unfold ackEdit. destruct (str_empty token) eqn:Et; [done|]. case_bool_decide as Ek; [|done]. simpl.
  assert (qAckToken q ≠ "") as Hk by (rewrite Ek; intros ->; done).
  case_bool_decide; [intros [= <-]; split; auto; tauto|].
  destruct (negb _ && negb _) eqn:Es; [done|]. intros [= <-]. split; try done; try (by left); [|by right].
  cbn. unfold openStates. set_solver.
Qed.
Lemma lawful_escalate : lawful escalateEdit.
Proof.
  intros q q'. unfold escalateEdit. destruct (isPending q) eqn:E; [|done]. intros [= <-].
  split; try done; try (by rewrite E); try (by left). intros _. by apply pending_open.
Qed.
Lemma lawful_native status : lawful (nativeEdit status).
Proof.
  intros q q'. unfold nativeEdit. assert (edited q q) as Hr by (split; auto).
  case_bool_decide as E; simpl; [|by intros [= <-]].
  assert (isPending q = true) as Hp by (apply pending_state; by right).
  assert ("native_reply_written" ∉ openStates ∧ "orphaned" ∉ openStates ∧ "cancelled" ∉ openStates) as (N1 & N2 & N3)
    by (unfold openStates; split_and!; set_solver).
  repeat case_bool_decide; intros [= <-]; try done; (split; try done; try (by rewrite Hp); by left).
Qed.
Lemma lawful_answer hashText key revision actor actorID text token :
  lawful (answerEdit hashText key revision actor actorID text token).
Proof.
  intros q q'. unfold answerEdit. destruct (negb (qRevision q =? revision)); [done|].
  destruct (isPending q) eqn:Ep; [|done]. simpl. destruct (qHumanOnly q && _) eqn:Eh; [done|].
  destruct (str_empty text) eqn:Et; [done|]. simpl. destruct (_ <? _); [done|]. intros [= <-].
  split; try done; cbn; try (by rewrite Ep).
  - intros _. by apply pending_open.
  - right. split_and!; [done|by intros ->|]. intros Hh. rewrite Hh in Eh. simpl in Eh. by bool_facts.
Qed.
#[export] Hint Resolve lawful_query lawful_notice lawful_deferred lawful_remote lawful_lapsed lawful_orphan lawful_await
  lawful_ack lawful_escalate lawful_native lawful_answer : edits.

(** ** Steps on the rows *)
Section Steps.
Context (self : string).
Definition ours (q : Question) : Prop := bAuthority (qBinding q) = self.
Definition openRows (child request : string) (l : list QRow) : nat :=
  countb (λ r, openFor child request r && bool_decide (bAuthority (qBinding (rData r)) = self)) l.
Definition put (q : Question) (r : QRow) : QRow := r <| rVersion := qVersion q |> <| rData := q |>.

(** A question of this instance is asked, one of another instance arrives, a
    question is edited, and one of another instance is replaced. *)
Inductive qstep (l : list QRow) : list QRow → Prop :=
  | qs_new q : ours q → qID q ∉ map rID l → qAnswer q = "" → qAckToken q = "" → isPending q = true → qVersion q = 1 →
      qAuthorityVersion q = 0 →
      (openRows (bChild (qBinding q)) (bChildRequest (qBinding q)) l < 8)%nat → qstep l (l ++ [rowFor q])
  | qs_arrived q : ¬ ours q → qID q ∉ map rID l → qVersion q ≤ i64_max → qstep l (l ++ [rowFor q])
  | qs_edited i r q now : l !! i = Some r → edited (rData r) q → qVersion (rData r) < i64_max →
      qstep l (<[i := put (q <| qVersion := qVersion q + 1 |> <| qUpdated := now |>) r]> l)
  | qs_replaced i r q : l !! i = Some r → ¬ ours (rData r) → qBinding q = qBinding (rData r) → qID q = qID (rData r) →
      qVersion q ≤ i64_max → qstep l (<[i := put q r]> l).

(** *** The invariant *)
Definition aligned (r : QRow) : Prop :=
  rID r = qID (rData r) ∧ rChild r = bChild (qBinding (rData r)) ∧ rRequest r = bChildRequest (qBinding (rData r)) ∧
  rVersion r = qVersion (rData r) ∧ rVersion r ≤ i64_max.
Record settled (q : Question) : Prop := mkSettled {
  se_version : 1 ≤ qVersion q;
  se_authority : qAuthorityVersion q = 0;
  se_answered : qAnswer q ≠ "" → isPending q = false ∧ (qHumanOnly q = true → qActor q = "human");
  se_token : qAckToken q ≠ "" → qAnswer q ≠ "";
  se_resolved : qState q = "resolved" → qAnswer q ≠ "" }.
Record asked_ok (l : list QRow) : Prop := mkAskedOk {
  ao_aligned : ∀ r, r ∈ l → aligned r;
  ao_ids : NoDup (map rID l);
  ao_settled : ∀ r, r ∈ l → ours (rData r) → settled (rData r);
  ao_open : ∀ child request, (openRows child request l ≤ 8)%nat }.
Lemma asked_ok_nil : asked_ok [].
Proof. split; try (intros ? H; by apply elem_of_nil in H); [constructor|]. intros. cbn. lia. Qed.

Lemma settled_edited q q' now : settled q → edited q q' → qVersion q' = qVersion q →
  settled (q' <| qVersion := qVersion q' + 1 |> <| qUpdated := now |>).
Proof.
  intros [S1 S2 S3 S4 S5] [E1 E2 E3 E4 E5 E6 E7 E8 E9] Ev. split; cbn; try lia.
  - change (isPending (q' <| qVersion := qVersion q' + 1 |> <| qUpdated := now |>)) with (isPending q').
    intros Ha. destruct (isPending q) eqn:Ep.
    + destruct E8 as [[Ea _]|(Hp & _ & Hh)]; [|done]. rewrite Ea in Ha. destruct (S3 Ha). congruence.
    + specialize (E7 eq_refl). unfold reservedPart in E7. injection E7 as A1 A2 A3 A4 A5 A6 A7. rewrite A2, A7.
      rewrite A1 in Ha. destruct (S3 Ha) as [_ Hh]. split; [|done]. destruct (isPending q'); [|done]. by specialize (E5 eq_refl).
  - intros Ht. destruct E8 as [[-> Et]|(_ & Ha & _)]; [|done]. rewrite Et in Ht. by apply S4.
  - intros Hr. destruct (E9 Hr) as [Hs|Ht].
    + destruct E8 as [[-> _]|(_ & Ha & _)]; [by apply S5|done].
    + destruct E8 as [[-> _]|(_ & Ha & _)]; [by apply S4|done].
Qed.

Lemma openRows_app child request l1 l2 : openRows child request (l1 ++ l2) = (openRows child request l1 + openRows child request l2)%nat.
Proof. apply countb_app. Qed.
(** Only a question of the same child and request that is open counts. *)
Lemma openRows_one child request q : (openRows child request [rowFor q] ≤ 1)%nat ∧
  (openRows child request [rowFor q] ≠ 0%nat → ours q ∧ child = bChild (qBinding q) ∧ request = bChildRequest (qBinding q)).
Proof.
  unfold openRows, openFor, ours. cbn. repeat case_bool_decide; simpl; split; try lia; intros; try lia; by split_and!.
Qed.
Lemma openRows_insert child request l i r r' : l !! i = Some r →
  (openFor child request r' && bool_decide (bAuthority (qBinding (rData r')) = self) = true →
   openFor child request r && bool_decide (bAuthority (qBinding (rData r)) = self) = true) →
  (openRows child request (<[i := r']> l) ≤ openRows child request l)%nat.
Proof.
  intros Hi H. unfold openRows. pose proof (countb_insert
    (λ r, openFor child request r && bool_decide (bAuthority (qBinding (rData r)) = self)) l i r r' Hi) as Hc. cbv beta in Hc.
  destruct (openFor child request r' && _), (openFor child request r && _); cbn [Nat.b2n] in Hc; lia || by specialize (H eq_refl).
Qed.

Lemma ids_insert l i r q : l !! i = Some r → map rID (<[i := put q r]> l) = map rID l.
Proof. intros Hi. change (rID <$> <[i := put q r]> l = rID <$> l). rewrite list_fmap_insert. apply list_insert_id. by rewrite list_lookup_fmap, Hi. Qed.
Lemma in_insert (l : list QRow) (i : nat) (r r' x : QRow) : l !! i = Some r → x ∈ <[i := r']> l → x = r' ∨ x ∈ l.
Proof.
  intros Hi [j Hj]%list_elem_of_lookup. apply list_lookup_insert_Some in Hj as [(-> & <- & _)|[_ Hj]]; [by left|].
  right. by eapply list_elem_of_lookup_2.
Qed.
Lemma qstep_ok l l' : qstep l l' → asked_ok l → asked_ok l'.
Proof.
  intros Hs [H1 H2 H3 H4].
  assert (∀ q, qID q ∉ map rID l → NoDup (map rID (l ++ [rowFor q]))) as Hid.
  { intros q Hq. rewrite map_app. apply NoDup_app. split_and!; [done| |apply NoDup_singleton]. by intros x Hx ->%list_elem_of_singleton. }
  destruct Hs as [q Hq Hn Ha Ht Hp Hv Hz Ho|q Hq Hn Hv|i r q now Hi He Hv|i r q Hi Hq Hb Hd Hv].
  - split; [|by apply Hid| |].
    + intros r [Hr| ->%list_elem_of_singleton]%elem_of_app; [by apply H1|]. unfold aligned, i64_max. cbn. split_and!; try done. lia.
    + intros r [Hr| ->%list_elem_of_singleton]%elem_of_app; [by apply H3|]. intros _. cbn.
      split; rewrite ?Ha, ?Ht, ?Hv; try done. intros Hr. unfold isPending in Hp. by rewrite Hr in Hp.
    + intros c k. rewrite openRows_app. destruct (openRows_one c k q) as [B1 B2]. specialize (H4 c k).
      destruct (decide (openRows c k [rowFor q] = 0%nat)); [lia|]. destruct (B2 n) as (_ & -> & ->). lia.
  - split; [|by apply Hid| |].
    + intros r [Hr| ->%list_elem_of_singleton]%elem_of_app; [by apply H1|]. unfold aligned. cbn. by split_and!.
    + intros r [Hr| ->%list_elem_of_singleton]%elem_of_app; [by apply H3|]. done.
    + intros c k. rewrite openRows_app. destruct (openRows_one c k q) as [B1 B2]. specialize (H4 c k).
      destruct (decide (openRows c k [rowFor q] = 0%nat)); [lia|]. by destruct (B2 n).
  - pose proof (list_elem_of_lookup_2 _ _ _ Hi) as Hr. destruct (H1 r Hr) as (C1 & C2 & C3 & C4 & C5). pose proof He as [E1 E2 E3 E4 _ E6 _ _ _]. split.
    + intros x [->|Hx]%(in_insert _ _ r); [|by apply H1|done]. unfold aligned. cbn. rewrite E1, E2, E4. split_and!; try done; lia.
    + by rewrite ids_insert.
    + intros x [->|Hx]%(in_insert _ _ r); [|by apply H3|done]. intros Hx. apply (settled_edited (rData r)); [|done..].
      apply H3; [done|]. unfold ours in *. by rewrite <- E2.
    + intros c k. etrans; [|apply H4]. apply (openRows_insert c k l i r); [done|]. unfold openFor. cbn.
      rewrite E2, !andb_true_iff, !bool_decide_eq_true. naive_solver.
  - pose proof (list_elem_of_lookup_2 _ _ _ Hi) as Hr. destruct (H1 r Hr) as (C1 & C2 & C3 & C4 & C5). split.
    + intros x [->|Hx]%(in_insert _ _ r); [|by apply H1|done]. unfold aligned. cbn. rewrite Hb, Hd. by split_and!.
    + by rewrite ids_insert.
    + intros x [->|Hx]%(in_insert _ _ r); [|by apply H3|done]. unfold ours. cbn. by rewrite Hb.
    + intros c k. etrans; [|apply H4]. apply (openRows_insert c k l i r); [done|]. unfold openFor, ours in *. cbn.
      rewrite Hb. rewrite (bool_decide_eq_false_2 (bAuthority _ = self)) by done. by rewrite !andb_false_r.
Qed.
Lemma qsteps_ok l l' : rtc qstep l l' → asked_ok l → asked_ok l'.
Proof. induction 1; [done|]. intros. by eapply IHrtc, qstep_ok. Qed.

(** *** What a history of steps keeps of a question *)
Definition advanced (r r' : QRow) : Prop :=
  rID r' = rID r ∧ qBinding (rData r') = qBinding (rData r) ∧
  (ours (rData r) → qAuthorityVersion (rData r') = qAuthorityVersion (rData r) ∧ rVersion r ≤ rVersion r' ∧
     (isPending (rData r) = false → isPending (rData r') = false ∧ reservedPart (rData r') = reservedPart (rData r))).
Lemma qstep_advanced l l' i r : asked_ok l → qstep l l' → l !! i = Some r → ∃ r', l' !! i = Some r' ∧ advanced r r'.
Proof.
  intros Hok Hs Hi. assert (advanced r r) as Hr by (split_and!; try done; by repeat split).
  destruct Hs as [q _ _ _ _ _ _ _ _|q _ _ _|j x q now Hj He Hv|j x q Hj Hq Hb Hd Hv].
  - exists r. split; [by apply lookup_app_l_Some|done].
  - exists r. split; [by apply lookup_app_l_Some|done].
  - destruct (decide (i = j)) as [->|Hn]; [|exists r; split; [by rewrite list_lookup_insert_ne|done]].
    assert (x = r) as -> by congruence. eexists. split; [by apply list_lookup_insert_eq; eapply lookup_lt_Some|].
    destruct (ao_aligned l Hok r) as (_ & _ & _ & C4 & _); [by eapply list_elem_of_lookup_2|]. destruct He as [E1 E2 E3 E4 E5 _ E7 _ _].
    split_and!; [done|done|]. intros _. cbn. split_and!; [done|lia|]. intros Hp. split; [|by apply E7].
    change (isPending q = false). destruct (isPending q); [|done]. by rewrite E5 in Hp.
  - destruct (decide (i = j)) as [->|Hn]; [|exists r; split; [by rewrite list_lookup_insert_ne|done]].
    assert (x = r) as -> by congruence. eexists. split; [by apply list_lookup_insert_eq; eapply lookup_lt_Some|].
    split_and!; [done|done|]. intros; done.
Qed.
Lemma qsteps_advanced l l' i r : rtc qstep l l' → asked_ok l → l !! i = Some r → ∃ r', l' !! i = Some r' ∧ advanced r r'.
Proof.
  intros Hs. revert r. induction Hs as [l|l l1 l' H1 H2 IH]; intros r Hok Hi.
  { exists r. split; [done|]. split_and!; try done; by repeat split. }
  destruct (qstep_advanced l l1 i r Hok H1 Hi) as (r1 & Hi1 & A1 & A2 & A3).
  destruct (IH r1 (qstep_ok _ _ H1 Hok) Hi1) as (r2 & Hi2 & B1 & B2 & B3). exists r2. split; [done|].
  split_and!; [congruence..|]. intros Ho. assert (ours (rData r1)) as Ho1 by (unfold ours in *; by rewrite A2).
  destruct (A3 Ho) as (X1 & X2 & X3), (B3 Ho1) as (Y1 & Y2 & Y3). split_and!; [congruence|lia|].
  intros Hp. destruct (X3 Hp) as [Hp1 E1], (Y3 Hp1) as [Hp2 E2]. split; [done|congruence].
Qed.

(** ** What the operations do *)

(** Rows move by steps, and only the receipts of [X] change. *)
Definition moves (X : string → Prop) (s s' : Asked) : Prop :=
  asked_ok (questions s) →
  rtc qstep (questions s) (questions s') ∧ ∀ id, ¬ X id → receipts s' !! id = receipts s !! id.
Definition nobody : string → Prop := λ _, False.
Lemma moves_quiet X s s' : questions s' = questions s → receipts s' = receipts s → moves X s s'.
Proof. intros E1 E2 _. rewrite E1, E2. by split. Qed.
Lemma asked_moves_refl X s : moves X s s.
Proof. by apply moves_quiet. Qed.
Lemma asked_moves_trans X s1 s2 s3 : moves X s1 s2 → moves X s2 s3 → moves X s1 s3.
Proof.
  intros H1 H2 Hok. destruct (H1 Hok) as [Q1 R1]. destruct (H2 (qsteps_ok _ _ Q1 Hok)) as [Q2 R2].
  split; [by etrans|]. intros id Hid. by rewrite R2, R1.
Qed.
Lemma moves_mono (X Y : string → Prop) s s' : (∀ id, X id → Y id) → moves X s s' → moves Y s s'.
Proof. intros H Hm Hok. destruct (Hm Hok) as [H1 H2]. split; [done|]. intros id Hid. apply H2. auto. Qed.
Lemma moves_nobody X s s' : moves nobody s s' → moves X s s'.
Proof. apply moves_mono. done. Qed.

Lemma questionOf_some id s r : questionOf id s = Some r → ∃ i, questions s !! i = Some r ∧ rID r = id.
Proof.
  unfold questionOf. destruct (list_find _ (questions s)) as [[i x]|] eqn:E; [|done]. intros [= ->].
  apply list_find_Some in E as (Hi & Hp & _). by exists i.
Qed.
Lemma wp_unsignedArg n (Q : () → Asked → Prop) s : (n ≤ i64_max → Q tt s) → wp (unsignedArg n) Q s.
Proof. intros H. unfold unsignedArg. destruct (Z.ltb_spec i64_max n); [apply wp_fail|]. apply wp_ret. by apply H. Qed.
Lemma wp_GetQuestion id (Q : Question → Asked → Prop) s :
  (∀ i r, questions s !! i = Some r → rID r = id → Q (rData r) s) → wp (GetQuestion id) Q s.
Proof.
  intros H. unfold GetQuestion, foundRow. do 2 wp_step. destruct (questionOf id s) as [r|] eqn:E; [|apply wp_fail]. wp_step.
  apply questionOf_some in E as (i & Hi & Hr). by eapply H.
Qed.

(** An update of the row of one question. *)
Lemma update_row (l : list QRow) i r p q : NoDup (map rID l) → l !! i = Some r → p r = true →
  (∀ x, p x = true → rID x = rID r) → map (λ x, if p x then put q x else x) l = <[i := put q r]> l.
Proof.
  intros Hnd Hi Hp Hx. apply list_eq. intros j. change (map ?f l) with (f <$> l). rewrite list_lookup_fmap.
  destruct (decide (i = j)) as [<-|Hn].
  - rewrite list_lookup_insert_eq by (by eapply lookup_lt_Some). rewrite Hi. cbn. by rewrite Hp.
  - rewrite list_lookup_insert_ne by done. destruct (l !! j) as [x|] eqn:Hj; [|done]. cbn. destruct (p x) eqn:Ex; [|done].
    destruct Hn. eapply (NoDup_lookup _ _ _ (rID r) Hnd); change (map rID l) with (rID <$> l); rewrite list_lookup_fmap.
    + by rewrite Hi.
    + rewrite Hj. cbn. by rewrite (Hx x Ex).
Qed.
Lemma wp_updateQuestions p q (Q : nat → Asked → Prop) s i r :
  NoDup (map rID (questions s)) → questions s !! i = Some r → p r = true → (∀ x, p x = true → rID x = rID r) →
  (∀ n, qVersion q ≤ i64_max → Q n (s <| questions := <[i := put q r]> (questions s) |>)) → wp (updateQuestions p q) Q s.
Proof.
  intros Hnd Hi Hp Hx H. unfold updateQuestions. wp_step. apply wp_unsignedArg. intros Hv. wp_step.
  change (λ r0, if p r0 then _ else r0) with (λ r0, if p r0 then put q r0 else r0). rewrite (update_row _ i r) by done. by apply H.
Qed.

(** The row of an edited question. *)
Lemma edited_step l i r q now : asked_ok l → l !! i = Some r → edited (rData r) q →
  let q' := q <| qVersion := u64_succ (qVersion q) |> <| qUpdated := now |> in
  qVersion q' ≤ i64_max → qstep l (<[i := put q' r]> l).
Proof.
  intros Hok Hi He q' Hv. pose proof (list_elem_of_lookup_2 _ _ _ Hi) as Hr.
  destruct (ao_aligned l Hok r Hr) as (C1 & _ & _ & C4 & C5). pose proof He as [E1 E2 _ E4 _ _ _ _ _].
  destruct (decide (ours (rData r))) as [Ho|Ho].
  - destruct (ao_settled l Hok r Hr Ho) as [S1 _ _ _ _]. unfold i64_max in *.
    assert (u64_succ (qVersion q) = qVersion q + 1) as Eu by (apply u64_succ_lt; unfold u64_max; lia).
    unfold q' in *. rewrite Eu in *. cbn in Hv. apply qs_edited; [done..|]. unfold i64_max. lia.
  - by apply qs_replaced.
Qed.

Lemma Change_spec id scope key hash fn now fs s : lawful fn → asked_ok (questions s) →
  let x := Change id scope key hash fn now fs s in
  rtc qstep (questions s) (questions x.1.2) ∧ receipts x.1.2 = receipts s ∧ ∀ q, x.1.1 = inl q → qID q = id.
Proof.
  intros Hfn Hok x. unfold x, Change.
  match goal with |- context [atomically inr ?m fs s] => pose proof (atomically_elim inr m fs s (λ res s',
    rtc qstep (questions s) (questions s') ∧ receipts s' = receipts s ∧ ∀ q, res = inl q → qID q = id)) as H end.
  destruct (atomically _ _ fs s) as [[res s'] fs']. apply H; clear H; [|by intros; split_and!].
  wp_step. apply wp_GetQuestion. intros i r Hi Hid.
  destruct (ao_aligned _ Hok r) as (C1 & _ & _ & C4 & C5); [by eapply list_elem_of_lookup_2|].
  wp_step. apply (wp_mono _ (λ _ s', s' = s)); [by destruct (str_empty key); wp_step|]. intros command ? ->.
  destruct command as [[h question]|].
  { destruct (_ || _); [apply wp_fail|]. wp_step. split_and!; [done..|]. intros q [= <-]. congruence. }
  destruct (fn (rData r)) as [q'|e] eqn:Ef; [|apply wp_fail]. pose proof (Hfn _ _ Ef) as He.
  destruct (_ && _); [wp_step; split_and!; [done..|]; intros q [= <-]; rewrite (ed_id _ _ He); congruence|].
  wp_step. apply (wp_updateQuestions _ _ _ s i r); [apply Hok|done| | |].
  { rewrite (ed_version _ _ He). rewrite andb_true_iff, bool_decide_eq_true, Z.eqb_eq. by split. }
  { intros y. rewrite andb_true_iff, bool_decide_eq_true. intros [-> _]. done. }
  intros n Hv. cbv zeta. destruct (negb _); [apply wp_fail|]. wp_step.
  apply (wp_mono _ (λ _ s', questions s' = <[i := put (q' <| qVersion := u64_succ (qVersion q') |> <| qUpdated := now |>) r]> (questions s) ∧ receipts s' = receipts s)).
  { destruct (str_empty key); wp_step; [done|]. by destruct (insertRow _ _ _). }
  intros ? s1 [E1 E2]. wp_step. cbn [fst snd]. rewrite E1, E2. split_and!; [|done|].
  - apply rtc_once. by apply edited_step.
  - intros q [= <-]. cbn. rewrite (ed_id _ _ He). congruence.
Qed.
Lemma Change_moves id scope key hash fn now fs s : lawful fn → moves nobody s (Change id scope key hash fn now fs s).1.2.
Proof. intros Hfn Hok. destruct (Change_spec id scope key hash fn now fs s Hfn Hok) as (H1 & H2 & _). split; [done|]. by rewrite H2. Qed.
Lemma change_moves id fn now fs s : lawful fn → moves nobody s (change_ id fn now fs s).1.
Proof.
  intros Hfn. pose proof (Change_moves id "" "" "" fn now fs s Hfn) as H. unfold change_.
  by destruct (Change id "" "" "" fn now fs s) as [[? ?] ?].
Qed.

(** *** Creation and import *)
Lemma insertQuestion_wp q (Q : () → Asked → Prop) s :
  (qID q ∉ map rID (questions s) → qVersion q ≤ i64_max → Q tt (s <| questions := questions s ++ [rowFor q] |>)) →
  wp (insertQuestion q) Q s.
Proof.
  intros H. unfold insertQuestion. wp_step. apply wp_unsignedArg. intros Hv. wp_step. destruct (existsb _ _) eqn:E; [done|].
  apply H; [|done]. intros (r & Er & Hr)%list_elem_of_fmap. apply not_true_iff_false in E. apply E, existsb_exists.
  exists r. split; [by apply list_elem_of_In|]. apply orb_true_iff. left. by apply bool_decide_eq_true.
Qed.
Lemma Create_moves id q now fs s : ours q → qAnswer q = "" → qAckToken q = "" → qAuthorityVersion q = 0 →
  moves nobody s (Create id q now fs s).1.2.
Proof.
  intros Ho Ha Ht Hz Hok. unfold Create. apply (atomically_keeps inr _ fs s (λ s', rtc qstep (questions s) (questions s') ∧
    ∀ id, ¬ nobody id → receipts s' !! id = receipts s !! id)); [done|].
  do 2 wp_step. cbv beta. destruct (originOf _ s) as [o|]; [destruct (negb _); [apply wp_fail|by wp_step]|].
  do 2 wp_step. cbv beta. destruct (8 <=? _)%nat eqn:En; [apply wp_fail|]. apply Nat.leb_gt in En. wp_step.
  apply insertQuestion_wp. intros Hid _. wp_step. split; [|done]. apply rtc_once, qs_new; try done.
  - unfold isPending, starting. cbn. by destruct (qHumanOnly q).
  - eapply Nat.le_lt_trans; [|exact En]. unfold openCount, openRows. change (qBinding (starting id q now)) with (qBinding q).
    clear. induction (questions s) as [|r l IH]; cbn; [lia|]. destruct (openFor _ _ r), (bool_decide _); cbn; lia.
Qed.

Lemma Import_moves record fs s :
  (¬ ours record ∨ ∃ r, r ∈ questions s ∧ rID r = qID record ∧ ¬ ours (rData r)) →
  moves nobody s (Import record fs s).1.2.
Proof.
  intros Hrec Hok. unfold Import. destruct (_ || _); [done|].
  apply (atomically_keeps inr _ fs s (λ s', rtc qstep (questions s) (questions s') ∧
    ∀ id, ¬ nobody id → receipts s' !! id = receipts s !! id)); [done|].
  do 2 wp_step. cbv beta. change (qID (record <| qAckToken := "" |> <| qOriginKey := replicaKey record |>)) with (qID record).
  destruct (questionOf _ s) as [r|] eqn:E.
  - apply questionOf_some in E as (i & Hi & Hid). pose proof (list_elem_of_lookup_2 _ _ _ Hi) as Hr.
    destruct (ao_aligned _ Hok r Hr) as (C1 & _).
    case_bool_decide as Eb; [|apply wp_fail]. cbn [negb orb]. destruct (negb _); [apply wp_fail|].
    destruct (_ <=? _); [by wp_step|]. wp_step. apply (wp_updateQuestions _ _ _ s i r); [apply Hok|done| | |].
    + by apply bool_decide_eq_true.
    + intros x ->%bool_decide_eq_true. done.
    + intros n Hv. wp_step. split; [|done]. apply rtc_once, qs_replaced; try done; [|cbn; congruence].
      cbn in Eb. destruct Hrec as [Hrec|(x & Hx & Ex & Hn)]; [unfold ours in *; by rewrite Eb|].
      assert (x = r) as <-; [|done]. apply list_elem_of_lookup in Hx as [j Hj]. assert (j = i) as ->; [|congruence].
      eapply (NoDup_lookup _ _ _ (rID r) (ao_ids _ Hok)); change (map rID ?l) with (rID <$> l); rewrite list_lookup_fmap.
      * rewrite Hj. cbn. congruence.
      * by rewrite Hi.
  - wp_step. apply insertQuestion_wp. intros Hid Hv. wp_step. split; [|done]. apply rtc_once, qs_arrived; try done.
    destruct Hrec as [Hrec|(x & Hx & Ex & _)]; [done|]. destruct Hid. cbn. rewrite <- Ex. apply list_elem_of_fmap. by exists x.
Qed.

(** *** The other statements *)
Lemma single_quiet {R} (failed : Err → R) (m : Tx Asked R) fs s :
  wp m (λ _ s', questions s' = questions s ∧ receipts s' = receipts s) s →
  questions (single failed m fs s).1.2 = questions s ∧ receipts (single failed m fs s).1.2 = receipts s.
Proof. intros H. by apply (single_keeps failed m fs s (λ s', questions s' = questions s ∧ receipts s' = receipts s)). Qed.
Lemma CheckControl_wp id question target hash (Q : () → Asked → Prop) s : Q tt s → wp (CheckControl id question target hash) Q s.
Proof.
  intros H. unfold CheckControl. do 2 wp_step. destruct (controls s !! id) as [[[q t] h]|]; [|apply wp_fail].
  destruct (_ || _); [apply wp_fail|by wp_step].
Qed.
Lemma CheckControl_quiet id question target hash fs s :
  let x := single Some (CheckControl id question target hash;; mret None) fs s in
  questions x.1.2 = questions s ∧ receipts x.1.2 = receipts s.
Proof. apply single_quiet. wp_step. apply CheckControl_wp. by wp_step. Qed.
Lemma ReserveControl_quiet id question target hash fs s :
  let x := ReserveControl id question target hash fs s in questions x.1.2 = questions s ∧ receipts x.1.2 = receipts s.
Proof.
  unfold ReserveControl. match goal with |- context [single Some ?m fs s] => pose proof (single_quiet Some m fs s) as H1 end.
  destruct (single Some _ fs s) as [[[e|] s1] fs1]; cbn in *.
  - apply H1. do 2 wp_step. by wp_step.
  - destruct H1 as [E1 E2]; [do 2 wp_step; by wp_step|].
    destruct (CheckControl_quiet id question target hash fs1 s1) as [E3 E4]. cbn in *. by rewrite E3, E4.
Qed.
Lemma ReserveRemoteOnce_quiet scope key hash id fs s :
  let x := ReserveRemoteOnce scope key hash id fs s in questions x.1.2 = questions s ∧ receipts x.1.2 = receipts s.
Proof.
  unfold ReserveRemoteOnce. apply (atomically_keeps inr _ fs s (λ s', questions s' = questions s ∧ receipts s' = receipts s)); [done|].
  do 2 wp_step. do 2 wp_step. destruct (_ !! _) as [[[h q] ?]|]; [|apply wp_fail]. destruct (_ || _); [apply wp_fail|by wp_step].
Qed.
Lemma RemoteComplete_quiet scope key fs s :
  let x := single (λ _, tt) (RemoteComplete scope key) fs s in questions x.1.2 = questions s ∧ receipts x.1.2 = receipts s.
Proof. apply single_quiet. unfold RemoteComplete. by wp_step. Qed.
Lemma RelayAccepted_moves id v fs s : moves (λ x, x = id) s (single (λ _, tt) (RelayAccepted id v) fs s).1.2.
Proof.
  intros _. apply (single_keeps (λ _, tt) _ fs s (λ s', rtc qstep (questions s) (questions s') ∧
    ∀ id0, ¬ id0 = id → receipts s' !! id0 = receipts s !! id0)); [done|].
  unfold RelayAccepted. wp_step. apply wp_unsignedArg. intros _. wp_step. split; [done|]. intros x Hx. cbn.
  by rewrite lookup_insert_ne by congruence.
Qed.
Lemma GetQuestion_run id fs s :
  match GetQuestion id fs s with
  | (_, inl (q, s')) => s' = s ∧ ∃ i r, questions s !! i = Some r ∧ rID r = id ∧ rData r = q
  | _ => True
  end.
Proof.
  assert (wp (GetQuestion id) (λ q s', s' = s ∧ ∃ i r, questions s !! i = Some r ∧ rID r = id ∧ rData r = q) s) as H.
  { apply wp_GetQuestion. intros i r Hi Hr. split; [done|]. by exists i, r. }
  specialize (H fs). by destruct (GetQuestion id fs s) as [fs' [[q s']|e]].
Qed.
End Steps.

(** ** The host *)
Section Host.
Context (hashText : string → string) (self : string) (wakeText answerText : Question → string).
Notation moves := (moves self).
Notation ours := (ours self).
Notation step := (stepAsked hashText self wakeText answerText).
Notation run := (runAsked hashText self wakeText answerText).

Lemma withQuestion_moves X id f fs s :
  (∀ i r fs', asked_ok self (questions s) → questions s !! i = Some r → rID r = id → moves X s (f (rData r) fs' s)) →
  moves X s (withQuestion id f fs s).
Proof.
  intros H Hok. revert Hok. unfold withQuestion. pose proof (GetQuestion_run id fs s) as Hg.
  destruct (GetQuestion id fs s) as [fs' [[q s']|e]]; [|intros; by apply asked_moves_refl].
  destruct Hg as (-> & i & r & Hi & Hr & <-). intros Hok. by eapply H.
Qed.

Lemma forwarded_quiet c lowerValid q fs s :
  match forwarded self c lowerValid q fs s with
  | (inl q', _) => qBinding q' = qBinding q ∧ qAnswer q' = qAnswer q ∧ qAckToken q' = qAckToken q ∧ qAuthorityVersion q' = qAuthorityVersion q
  | _ => True
  end.
Proof.
  unfold forwarded. destruct (has_prefix _ _); [|done].
  destruct (single inr _ fs s) as [[[lower|e] ?] ?]; [|done]. by destruct lowerValid.
Qed.
Lemma askParent_moves c binding text kind options blocking origin intent lowerValid valid check id now fs s :
  (∀ b, binding = inl b → bAuthority b = self) →
  moves nobody s (askParent self c binding text kind options blocking origin intent lowerValid valid check id now fs s).1.2.
Proof.
  intros Hb. unfold askParent. destruct (_ || _); [apply asked_moves_refl|]. destruct binding as [b|]; [|apply asked_moves_refl].
  specialize (Hb b eq_refl). pose proof (forwarded_quiet c lowerValid (proposal self c b text kind options blocking) fs s) as Hf.
  destruct (forwarded _ _ _ _ _ _) as [[q|] fs1]; [|apply asked_moves_refl]. destruct Hf as (E1 & E2 & E3 & E4).
  destruct (8 <? _)%nat; [apply asked_moves_refl|]. case_bool_decide; [apply asked_moves_refl|].
  destruct valid; [apply asked_moves_refl|]. destruct (fault fs1) as [[] fs2]; [apply asked_moves_refl|].
  cbv zeta. destruct (8 <=? _)%nat; [apply asked_moves_refl|]. destruct check; [apply asked_moves_refl|].
  apply Create_moves; cbn; try done. change (bAuthority (qBinding q) = self). by rewrite E1.
Qed.

(** *** Questions of another instance *)
Lemma reply_moves record q i r fs s : questions s !! i = Some r → rData r = q → rID r = qID q →
  qID record = qID q → ¬ ours q → moves nobody s (Import record fs s).1.2.
Proof.
  intros Hi Hd Hid Hrec Ho. apply Import_moves. right. exists r. split; [by eapply list_elem_of_lookup_2|]. rewrite Hd.
  split; [congruence|done].
Qed.
Lemma validate_theirs q lineage : validateRemoteInteraction self q lineage = None → ¬ ours q.
Proof.
  unfold validateRemoteInteraction. destruct (negb _ || negb _); [done|]. cbn [orb]. by case_bool_decide.
Qed.
(** Storing the record of a peer, and marking the command. *)
Lemma completed_moves (found : bool) scope key fs s :
  moves nobody s (if found then single (λ _, tt) (RemoteComplete scope key) fs s else (tt, s, fs)).1.2.
Proof. destruct found; [|apply asked_moves_refl]. destruct (RemoteComplete_quiet scope key fs s). by apply moves_quiet. Qed.
Lemma remoteCommand_moves c q lineage action key hash reply i r fs s :
  questions s !! i = Some r → rData r = q → rID r = qID q →
  moves nobody s (remoteInteractionCommand self c q lineage action key hash reply fs s).1.2.
Proof.
  intros Hi Hd Hid. unfold remoteInteractionCommand. destruct (validateRemoteInteraction _ _ _) eqn:Ev; [apply asked_moves_refl|].
  apply validate_theirs in Ev. destruct (_ && _); [apply asked_moves_refl|].
  destruct (ReserveRemoteOnce_quiet (cScope c) key hash (qID q) fs s) as [E1 E2].
  destruct (ReserveRemoteOnce _ _ _ _ fs s) as [[[fresh|] s1] fs1]; cbn in E1, E2; [|by apply moves_quiet].
  destruct reply as [[record found]|]; [|by apply moves_quiet]. case_bool_decide as Er; [|by apply moves_quiet]. cbn [negb].
  eapply asked_moves_trans; [by apply moves_quiet|]. assert (questions s1 !! i = Some r) as Hi1 by by rewrite E1.
  pose proof (reply_moves record q i r fs1 s1 Hi1 Hd Hid Er Ev) as H.
  destruct (Import record fs1 s1) as [[[q2|] s2] fs2]; [|exact H]. eapply asked_moves_trans; [exact H|].
  pose proof (completed_moves found (cScope c) key fs2 s2) as Hc.
  by destruct (if found then _ else _) as [[? ?] ?].
Qed.
Lemma remoteReceipt_moves c q lineage key reply i r fs s :
  questions s !! i = Some r → rData r = q → rID r = qID q →
  moves nobody s (remoteInteractionReceipt self c q lineage key reply fs s).1.2.
Proof.
  intros Hi Hd Hid. unfold remoteInteractionReceipt. destruct (validateRemoteInteraction _ _ _) eqn:Ev; [apply asked_moves_refl|].
  apply validate_theirs in Ev. destruct reply as [[record found]|]; [|apply asked_moves_refl].
  case_bool_decide as Er; [|apply asked_moves_refl]. cbn [negb].
  pose proof (reply_moves record q i r fs s Hi Hd Hid Er Ev) as H.
  destruct (Import record fs s) as [[[q2|] s2] fs2]; [|exact H]. eapply asked_moves_trans; [exact H|].
  pose proof (completed_moves found (cScope c) key fs2 s2) as Hc. by destruct (if found then _ else _) as [[? ?] ?].
Qed.
Lemma acceptSync_moves origin parent record lineage runes fs s :
  moves nobody s (acceptSync self origin parent record lineage runes fs s).1.2.
Proof.
  unfold acceptSync. destruct (_ || _); [apply asked_moves_refl|]. destruct (validateRemoteInteraction _ _ _) eqn:Ev; [apply asked_moves_refl|].
  apply validate_theirs in Ev. pose proof (Import_moves self record fs s (or_introl Ev)) as H.
  by destruct (Import record fs s) as [[[q|e] s1] fs1].
Qed.

(** *** Actions *)
Lemma local_moves X s x : moves X s x.1.2 → moves X s (local x).1.2.
Proof. by destruct x as [[[]]]. Qed.
Lemma answer_moves c q v key hash revision text token now i r fs s :
  questions s !! i = Some r → rData r = q → rID r = qID q →
  moves nobody s (answer hashText self c q v key hash revision text token now fs s).1.2.
Proof.
  intros Hi Hd Hid. unfold answer. destruct (vValid v); [apply asked_moves_refl|]. destruct (_ && _); [apply asked_moves_refl|].
  destruct (negb _); [destruct (vCheck v); [apply asked_moves_refl|by eapply remoteCommand_moves]|].
  destruct (negb _); [apply asked_moves_refl|]. destruct (negb _); [apply asked_moves_refl|]. destruct (vCheck v); [apply asked_moves_refl|].
  apply local_moves, Change_moves. auto with edits.
Qed.
Lemma escalate_moves c q v key hash now i r fs s :
  questions s !! i = Some r → rData r = q → rID r = qID q → moves nobody s (escalate self c q v key hash now fs s).1.2.
Proof.
  intros Hi Hd Hid. unfold escalate. destruct (vValid v); [apply asked_moves_refl|]. destruct (_ && _); [apply asked_moves_refl|].
  destruct (vCheck v); [apply asked_moves_refl|]. destruct (negb _); [by eapply remoteCommand_moves|].
  apply local_moves, Change_moves. auto with edits.
Qed.
Lemma ack_moves c q child check token now fs s : moves nobody s (ack c q child check token now fs s).1.2.
Proof.
  unfold ack. destruct child; [|apply asked_moves_refl]. cbn [negb]. destruct check; [apply asked_moves_refl|]. apply Change_moves. auto with edits.
Qed.
Lemma get_moves c q now fs s : moves nobody s (get c q now fs s).1.2.
Proof. unfold get. case_bool_decide; [|apply asked_moves_refl]. apply Change_moves. auto with edits. Qed.
Lemma Command_wp scope key (Q : option Question → Asked → Prop) s : (∀ o, Q o s) → wp (Command scope key) Q s.
Proof.
  intros H. unfold Command. do 2 wp_step. destruct (_ !! _) as [[? id]|]; [|by wp_step]. wp_step. apply wp_GetQuestion. intros. by wp_step.
Qed.
Lemma receipted_moves X s scope key x : moves X s x.1.2 → moves X s (receipted scope key x).1.2.
Proof.
  intros H. destruct x as [[[q|e] s1] fs]; [|exact H]. cbn in *. eapply asked_moves_trans; [exact H|]. clear H s.
  match goal with |- context [single inr ?m fs s1] => pose proof (single_quiet inr m fs s1) as H end.
  destruct H as [E1 E2]; [wp_step; apply Command_wp; intros; by wp_step|].
  destruct (single inr _ fs s1) as [[[[known|]|] s2] fs2]; cbn in E1, E2; [|by apply moves_quiet..].
  destruct (negb _); by apply moves_quiet.
Qed.
Lemma servePeer_moves origin parent thread actor actorID key hash id action valid mayWrite now fs s :
  moves nobody s (servePeer hashText self origin parent thread actor actorID key hash id action valid mayWrite now fs s).1.2.
Proof.
  unfold servePeer. match goal with |- context [single inr ?m fs s] => pose proof (single_quiet inr m fs s) as H end.
  destruct H as [E1 E2]; [wp_step; apply wp_GetQuestion; intros; by wp_step|].
  destruct (single inr _ fs s) as [[[q|] s1] fs1]; cbn in E1, E2; [|by apply moves_quiet].
  destruct (peerMayAct _ _ _ _ _ _ _ _ _); [by apply moves_quiet|]. eapply asked_moves_trans; [by apply moves_quiet|].
  apply receipted_moves. destruct action; [|apply Change_moves; auto with edits|apply asked_moves_refl].
  destruct (negb _); [apply asked_moves_refl|]. destruct (negb _); [apply asked_moves_refl|]. apply Change_moves. auto with edits.
Qed.
Lemma resolveNative_moves native status l now fs s : moves nobody s (resolveNative self native status l now fs s).1.
Proof.
  revert fs s. induction l as [|q l IH]; intros fs s; [apply asked_moves_refl|]. cbn [resolveNative]. destruct (_ || _); [apply IH|].
  pose proof (change_moves self (qID q) (nativeEdit status) now fs s) as H.
  destruct (change_ _ _ _ _ _) as [s1 fs1]. eapply asked_moves_trans; [apply H; auto with edits|apply IH].
Qed.
Lemma observe_moves session request status now fs s :
  moves nobody s (observeInteractionResolution self session request status now fs s).1.
Proof.
  unfold observeInteractionResolution. destruct (has_prefix _ _); [apply asked_moves_refl|]. destruct (fault fs) as [[] ?]; [apply asked_moves_refl|].
  apply resolveNative_moves.
Qed.
Lemma Pending_moves broken fs s : moves nobody s (Pending broken fs s).1.2.
Proof. unfold Pending. destruct (fault fs) as [[] ?]; [apply asked_moves_refl|]. by destruct broken; apply moves_quiet. Qed.

(** *** Reconciliation *)
Lemma reserveControl_moves queued q target request content fs s :
  moves nobody s (reserveInteractionControl hashText queued q target request content fs s).1.2.
Proof.
  unfold reserveInteractionControl. destruct queued as [[same|]|e]; [| |apply asked_moves_refl].
  - destruct (CheckControl_quiet request (qID q) target (hashText content) fs s) as [E1 E2].
    destruct (single Some _ fs s) as [[[e|] s1] fs1]; cbn in E1, E2; [by apply moves_quiet|].
    destruct same; [|by apply moves_quiet]. destruct (ReserveControl_quiet request (qID q) target (hashText content) fs1 s1) as [E3 E4].
    apply moves_quiet; congruence.
  - destruct (ReserveControl_quiet request (qID q) target (hashText content) fs s). by apply moves_quiet.
Qed.
Lemma reserved_then queued q target request content (accepted : bool) fn now fs s : lawful fn →
  moves nobody s
    (match reserveInteractionControl hashText queued q target request content fs s with
     | (Some _, s, fs) => (s, fs)
     | (None, s, fs) => if accepted then change_ (qID q) fn now fs s else (s, fs)
     end).1.
Proof.
  intros Hfn. pose proof (reserveControl_moves queued q target request content fs s) as H.
  destruct (reserveInteractionControl _ _ _ _ _ _ _ _) as [[[e|] s1] fs1]; [exact H|]. destruct accepted; [|exact H].
  eapply asked_moves_trans; [exact H|]. by apply change_moves.
Qed.
Lemma resume_moves q v now fs s : moves nobody s (resumeAnsweredInteraction hashText answerText q v now fs s).1.
Proof.
  unfold resumeAnsweredInteraction. destruct (_ || _); [apply asked_moves_refl|]. destruct (negb _); [apply asked_moves_refl|].
  destruct (negb _); [apply asked_moves_refl|]. cbv zeta. destruct (sContinuation v) as [state|].
  - case_bool_decide; [|apply asked_moves_refl]. apply change_moves. auto with edits.
  - destruct (sValidAgain v); [apply asked_moves_refl|]. apply reserved_then. auto with edits.
Qed.
Lemma sync_moves q v now fs s : moves (λ id, id = qID q) s (syncInteractionRemote self q v now fs s).1.
Proof.
  assert (∀ a b fs s, moves (λ id, id = qID q) s (change_ (qID q) (remoteEdit a b) now fs s).1) as Hc.
  { intros. apply moves_nobody, change_moves. auto with edits. }
  unfold syncInteractionRemote. destruct (_ || _); [apply asked_moves_refl|]. destruct (RelayVersion _ fs s) as [w fs1].
  destruct (_ <=? _); [apply asked_moves_refl|]. destruct (sRemote v); [|apply Hc..].
  pose proof (RelayAccepted_moves self (qID q) (qVersion q) fs1 s) as H. destruct (single _ _ fs1 s) as [[? s1] fs2].
  case_bool_decide; [|exact H]. eapply asked_moves_trans; [exact H|apply Hc].
Qed.
Lemma notify_moves q v now fs s : moves nobody s (notifyParent hashText wakeText q v now fs s).1.
Proof.
  unfold notifyParent. destruct (negb _); [apply asked_moves_refl|]. destruct (_ || _); [apply asked_moves_refl|].
  destruct (negb _); [apply asked_moves_refl|]. cbv zeta. destruct (sWake v) as [entry|].
  - destruct (CheckControl_quiet ("tiwake_" +:+ qID q) (qID q) (bParent (qBinding q)) "" fs s) as [E1 E2].
    destruct (single Some _ fs s) as [[[e|] s1] fs1]; cbn in E1, E2; [by apply moves_quiet|].
    case_bool_decide; [by apply moves_quiet|]. eapply asked_moves_trans; [by apply moves_quiet|]. apply change_moves. auto with edits.
  - destruct (negb _); [case_bool_decide; [apply asked_moves_refl|]; apply change_moves; auto with edits|].
    apply reserved_then. auto with edits.
Qed.

(** Whose receipt a reconciliation may change. *)
Definition relayed (q : Question) (v : Sight) (id : string) : Prop :=
  sValid v = None ∧ (id = qID q ∨ id = qID (sLost v)).
Lemma reconcile_moves q v now fs s : moves (relayed q v) s (reconcileRow hashText self wakeText answerText q v now fs s).1.2.
Proof.
  intros Hok. revert Hok. unfold reconcileRow. destruct (sValid v) as [e|] eqn:Ev.
  { pose proof (Change_moves self (qID q) "" "" "" (orphanEdit e) now fs s (lawful_orphan e)) as H.
    destruct (Change _ _ _ _ _ _ fs s) as [[[q1|e1] s1] fs1]; by apply moves_nobody. }
  match goal with |- context [if ?b then ?x else (q, s, fs)] => set (first := if b then x else (q, s, fs)) end.
  assert (asked_ok self (questions s) → moves nobody s first.1.2 ∧ (qID first.1.1 = qID q ∨ qID first.1.1 = qID (sLost v))) as Hf.
  { unfold first. intros Hok. destruct (_ && _ && _ && _ && _); [|split; [apply asked_moves_refl|by left]].
    pose proof (Change_moves self (qID q) "" "" "" (orphanEdit "native_question_handle_lost") now fs s (lawful_orphan _)) as H.
    pose proof (Change_spec self (qID q) "" "" "" (orphanEdit "native_question_handle_lost") now fs s (lawful_orphan _) Hok) as (_ & _ & Hi).
    destruct (Change _ _ _ _ _ _ fs s) as [[[q1|e1] s1] fs1]; (split; [exact H|]); [left; by apply Hi|by right]. }
  clearbody first. destruct first as [[q1 s1] fs1]. cbn [fst snd] in Hf. intros Hok. destruct (Hf Hok) as [H1 Hid].
  assert (∀ id, id = qID q1 → relayed q v id) as Hx by (intros id ->; by split).
  match goal with |- context [if ?b then ?x else (s1, fs1)] => set (second := if b then x else (s1, fs1)) end.
  assert (moves nobody s1 second.1) as H2 by (unfold second; destruct (_ && _); [apply resume_moves|apply asked_moves_refl]).
  clearbody second. destruct second as [s2 fs2].
  match goal with |- context [if ?b then ?x else notifyParent ?h ?w ?q ?v ?n ?f ?d] =>
    set (third := if b then x else notifyParent h w q v n f d) end.
  assert (moves (relayed q v) s2 third.1) as H3.
  { unfold third. destruct (negb _); [|apply moves_nobody, notify_moves]. eapply moves_mono; [exact Hx|apply sync_moves]. }
  clearbody third. destruct third as [s3 fs3]. revert Hok.
  eapply asked_moves_trans; [apply moves_nobody; exact H1|]. eapply asked_moves_trans; [apply moves_nobody; exact H2|exact H3].
Qed.

(** ** Histories *)

(** A question that is asked here is bound to this instance
    ([interactionBinding]). *)
Definition bound (o : aop) : Prop :=
  match o with
  | OpAsk _ (inl b) _ _ _ _ _ _ _ _ _ _ _ | OpObserve b _ _ _ _ _ _ _ _ _ _ _ _ => bAuthority b = self
  | _ => True
  end.
Definition relays (o : aop) (id : string) : Prop :=
  match o with OpReconcile q v _ => relayed q v id | _ => False end.
Lemma step_moves o fs s : bound o → moves (relays o) s (step o fs s).
Proof.
  intros Hb Hok. revert Hok. destruct o; cbn [stepAsked];
    try (apply withQuestion_moves; intros ? ? ? Hok Hi <-;
         destruct (ao_aligned _ _ Hok _ (list_elem_of_lookup_2 _ _ _ Hi)) as (Hid & _); apply moves_nobody).
  - apply moves_nobody, askParent_moves. intros b' ->. exact Hb.
  - by apply moves_nobody, Create_moves.
  - apply get_moves.
  - by eapply answer_moves.
  - by eapply escalate_moves.
  - apply ack_moves.
  - by eapply remoteReceipt_moves.
  - apply moves_nobody, acceptSync_moves.
  - apply moves_nobody, servePeer_moves.
  - apply moves_nobody, observe_moves.
  - apply moves_nobody, Pending_moves.
  - apply reconcile_moves.
Qed.
Lemma run_steps l s : (∀ o fs, (o, fs) ∈ l → bound o) → asked_ok self (questions s) →
  rtc (qstep self) (questions s) (questions (run l s)) ∧
  ∀ id, (∀ o fs, (o, fs) ∈ l → ¬ relays o id) → receipts (run l s) !! id = receipts s !! id.
Proof.
  revert s. induction l as [|[o fs] l IH]; intros s Hb Hok; [done|].
  destruct (step_moves o fs s) as [Q1 R1]; [by eapply Hb; left|done|].
  destruct (IH (step o fs s)) as [Q2 R2]; [by intros; eapply Hb; right|by eapply qsteps_ok|].
  split; [by etrans|]. intros id Hid. etrans; [apply R2; by intros; eapply Hid; right|]. apply R1. by eapply Hid; left.
Qed.
Lemma asked_run_ok l : (∀ o fs, (o, fs) ∈ l → bound o) → asked_ok self (questions (run l Unasked)).
Proof. intros Hb. destruct (run_steps l Unasked Hb (asked_ok_nil self)) as [Q _]. eapply qsteps_ok, asked_ok_nil. exact Q. Qed.

(** *** A change that no statement fails *)
Lemma only_row (l : list QRow) i r : NoDup (map rID l) → l !! i = Some r → ∀ j x, l !! j = Some x → rID x = rID r → j = i.
Proof.
  intros Hnd Hi j x Hj E. eapply (NoDup_lookup _ _ _ (rID r) Hnd); change (map rID l) with (rID <$> l); rewrite list_lookup_fmap.
  - rewrite Hj. cbn. by rewrite E.
  - by rewrite Hi.
Qed.
Lemma questionOf_row s i r : NoDup (map rID (questions s)) → questions s !! i = Some r → questionOf (rID r) s = Some r.
Proof.
  intros Hnd Hi. unfold questionOf. destruct (list_find _ (questions s)) as [[j x]|] eqn:E.
  - apply list_find_Some in E as (Hj & Hx & _). rewrite (only_row _ i r Hnd Hi j x Hj Hx) in Hj. cbn. congruence.
  - apply list_find_None in E. rewrite Forall_forall in E. by destruct (E r (list_elem_of_lookup_2 _ _ _ Hi)).
Qed.
Lemma count_row (l : list QRow) i r p : NoDup (map rID l) → l !! i = Some r → p r = true →
  (∀ x, p x = true → rID x = rID r) → countb p l = 1%nat.
Proof.
  revert i. induction l as [|y l IH]; intros i Hnd Hi Hp Hx; [done|]. cbn [map] in Hnd. apply NoDup_cons in Hnd as [Hy Hnd].
  destruct i as [|i]; cbn in Hi.
  - injection Hi as ->. cbn. rewrite Hp. destruct (countb p l) eqn:E; [done|].
    destruct (countb_pos_inv p l) as (x & Hin & Ex); [lia|]. destruct Hy. rewrite <- (Hx x Ex). apply list_elem_of_fmap. by exists x.
  - cbn. rewrite (IH i) by done. destruct (p y) eqn:E; [|done]. destruct Hy. rewrite (Hx y E). apply list_elem_of_fmap. exists r.
    split; [done|]. by eapply list_elem_of_lookup_2.
Qed.
Lemma updateQuestions_run p q s i r : NoDup (map rID (questions s)) → questions s !! i = Some r → p r = true →
  (∀ x, p x = true → rID x = rID r) → qVersion q ≤ i64_max →
  updateQuestions p q [] s = ([], inl (1%nat, s <| questions := <[i := put q r]> (questions s) |>)).
Proof.
  intros Hnd Hi Hp Hx Hv. unfold updateQuestions, unsignedArg, mbind, tx_bind, exec. rewrite (proj2 (Z.ltb_ge _ _) Hv).
  cbn [fault mret tx_ret]. unfold mret, tx_ret. rewrite (count_row _ i r) by done.
  change (λ r0, if p r0 then _ else r0) with (λ r0, if p r0 then put q r0 else r0). by rewrite (update_row _ i r).
Qed.
(** An edit without a command is stored when the version leaves room. *)
Lemma Change_run fn now s i r q : asked_ok self (questions s) → questions s !! i = Some r → ours (rData r) →
  rVersion r < i64_max → fn (rData r) = inl q → edited (rData r) q →
  ∃ r', questions (Change (rID r) "" "" "" fn now [] s).1.2 !! i = Some r' ∧ qState (rData r') = qState q.
Proof.
  intros Hok Hi Ho Hv Hf He. pose proof (list_elem_of_lookup_2 _ _ _ Hi) as Hr.
  destruct (ao_aligned _ _ Hok r Hr) as (C1 & _ & _ & C4 & _). destruct (ao_settled _ _ Hok r Hr Ho) as [S1 _ _ _ _].
  assert (u64_succ (qVersion q) = qVersion q + 1) as Eu.
  { apply u64_succ_lt. rewrite (ed_version _ _ He). unfold i64_max, u64_max in *. lia. }
  unfold Change, atomically, GetQuestion, foundRow, mbind, tx_bind, query. cbn [fault].
  rewrite (questionOf_row s i r) by (done || apply Hok). cbn [fst snd mret tx_ret str_empty]. change (str_empty "") with true. cbv iota beta.
  unfold mret, tx_ret. rewrite Hf. case_bool_decide as E; cbn [andb].
  { exists r. split; [done|]. by rewrite E. }
  cbv zeta. rewrite Eu. rewrite (updateQuestions_run _ _ s i r); [|apply Hok|done| | |].
  - cbn. eexists. split; [by apply list_lookup_insert_eq; eapply lookup_lt_Some|done].
  - rewrite (ed_version _ _ He), andb_true_iff, bool_decide_eq_true, Z.eqb_eq. by split.
  - intros x. rewrite andb_true_iff, bool_decide_eq_true. intros [-> _]. done.
  - cbn. rewrite (ed_version _ _ He). lia.
Qed.

(** ** Theorems *)


(** A request of a child never has more than eight open questions of this
    instance, and one that is resolved has its answer, over every history. *)
Theorem open_questions_are_bounded l child request :
  (∀ o fs, (o, fs) ∈ l → bound o) →
  let s := run l Unasked in
  (length (filter (λ r, rChild r = child ∧ rRequest r = request ∧ qState (rData r) ∈ openStates ∧
     bAuthority (qBinding (rData r)) = self) (questions s)) ≤ 8)%nat ∧
  ∀ r, r ∈ questions s → bAuthority (qBinding (rData r)) = self → qState (rData r) = "resolved" → qAnswer (rData r) ≠ "".
Proof.
  intros Hb s. pose proof (asked_run_ok l Hb) as Hok. fold s in Hok. split.
  - etrans; [|apply (ao_open _ _ Hok child request)]. unfold openRows. clear. induction (questions s) as [|r q IH]; [done|].
    rewrite filter_cons. cbn [countb]. case_decide as E; [|etrans; [exact IH|apply Nat.le_add_l]].
    assert (openFor child request r && bool_decide (bAuthority (qBinding (rData r)) = self) = true) as ->.
    { unfold openFor. rewrite !andb_true_iff, !bool_decide_eq_true. tauto. }
    by apply le_n_S.
  - intros r Hr Ho. by apply (ao_settled _ _ Hok r Hr Ho).
Qed.

End Host.

(** ** A question and its answer *)
Module Talk.
Definition digest (s : string) : string := "#" +:+ s.
Definition note (q : Question) : string := qText q.
Definition binding : Binding :=
  mkBinding "origin" "me" "controller" "rel" "log" "child" "ct" "work" 1 "parent" "pt" 1 "peer".
Definition child : Caller := mkCaller "child" "ct" "work" "turn" "tool" "session:child" false.
Definition human : Caller := mkCaller "" "" "" "" "" "device:phone" true.
Definition asks : aop * list bool :=
  (OpAsk child (inl binding) "Which port?" "task_clarification" ["80"; "8080"] false "o1" "i1" None None None "ti_1" 1000, []).
Definition answered : list (aop * list bool) :=
  [asks; (OpPeer "peer" "parent" "pt" "parent_agent" "session:parent" "k1" "h1" "ti_1" (PeerAnswer 1 "8080" "ack_1") None true 2000, [])].
Definition fine : Verdict := mkVerdict None None true None None.
Definition sight (valid : option string) : Sight :=
  mkSight valid None None true true None true true None (inl None) true RemoteUnavailable zeroQuestion.
Notation talk l s := (runAsked digest "me" note note l s).
Definition row (s : Asked) : QRow := nth 0 (questions s) (rowFor zeroQuestion).
(** A human answers too, the child acknowledges, the parent cannot be reached. *)
Definition later : list (aop * list bool) :=
  [(OpAnswer human "ti_1" fine "k2" "h2" 1 "80" "ack_2" 3000, []); (OpEscalate human "ti_1" fine "k3" "h3" 3100, [false; true]);
   (OpAck child "ti_1" true None "ack_1" 3200, []); (OpReconcile (rData (row (talk answered Unasked))) (sight None) 3300, [])].
(** The check of the lineage keeps failing. *)
Definition lost : list (aop * list bool) :=
  [(OpPending None, []); (OpReconcile (rData (row (talk answered Unasked))) (sight (Some "interaction_child_changed")) 9000, [])].
Definition acknowledged : list (aop * list bool) := answered ++ [(OpAck child "ti_1" true None "ack_1" 3200, [])].
Lemma keeps (P : aop → Prop) (l : list (aop * list bool)) : Forall (λ x, P x.1) l → ∀ o fs, (o, fs) ∈ l → P o.
Proof. rewrite Forall_forall. intros H o fs Hin. exact (H _ Hin). Qed.
Ltac each := repeat (apply List.Forall_cons; [first [exact eq_refl|exact I]|]); apply List.Forall_nil.
Lemma answered_bound : Forall (λ x, bound "me" x.1) answered. Proof. unfold answered. each. Qed.
Lemma later_bound : Forall (λ x, bound "me" x.1) later. Proof. unfold later. each. Qed.
Lemma lost_bound : Forall (λ x, bound "me" x.1) lost. Proof. unfold lost. each. Qed.
Lemma acknowledged_bound : Forall (λ x, bound "me" x.1) acknowledged.
Proof. apply Forall_app. split; [exact answered_bound|]. each. Qed.
Lemma lost_silent id : Forall (λ x, ¬ relays x.1 id) lost.
Proof.
  unfold lost. apply List.Forall_cons; [intros []|]. apply List.Forall_cons; [|apply List.Forall_nil]. intros [H _]. discriminate H.
Qed.
End Talk.


Lemma open_questions_are_bounded_witness :
  (length (filter (λ r, rChild r = "child" ∧ rRequest r = "work" ∧ qState (rData r) ∈ openStates ∧
     bAuthority (qBinding (rData r)) = "me") (questions (Talk.talk Talk.answered Unasked))) ≤ 8)%nat.
Proof.
  apply (open_questions_are_bounded Talk.digest "me" Talk.note Talk.note Talk.answered "child" "work").
  apply Talk.keeps. exact Talk.answered_bound.
Defined.

